(* ===== verification/_CoqProject ===== *)
-Q . S2P
Prelude.v
GoLib.v
Sql.v
Admission.v
Store.v
Queue.v
QueueTheory.v
Maintenance.v
MaintenanceTheory.v
RouteTheory.v
Inbound.v
Sha256.v
QueueInterface.v
Steering.v
SteeringTheory.v
Paths.v
RunPool.v
RunPoolTheory.v
ExecLane.v
ExecLaneTheory.v
Watchdog.v
WatchdogTheory.v
Evolution.v
Database.v
RunStart.v
Checkpoints.v
Approvals.v
Clarify.v
Cancellation.v
Continuation.v
Finalization.v
Control.v
Scenario.v
ApprovalTheory.v
ControlSteps.v
FinalizationSteps.v
ControlTheory.v
Continuity.v
Resolution.v
Decisions.v
Grants.v
Stops.v
Ledger.v
Answers.v
Finalizing.v
GoStrings.v
EnvSplit.v
Wrappers.v
ShellGrammar.v
ShellSyntax.v
Launchers.v
CommandIdentity.v
LaunchersTheory.v
Hardline.v
FindTheory.v
FloorTheory.v
SampleSyntax.v
SafetyFloor.v
Patch.v
PatchText.v
PatchTheory.v
PatchParse.v
Effects.v
EffectRelease.v
EffectsTheory.v
EffectSafety.v
EffectGuarantees.v
Watches.v
WatchTheory.v
WatchGuarantees.v
DirectClaim.v
DirectClaimTheory.v
DirectClaims.v
Masks.v
Views.v
Secrets.v
SecretsTheory.v
Redaction.v
SecretStream.v
StreamHold.v
