(* ===== verification/Prelude.v ===== *)
(** * SelfMind control plane: a verification development

    SelfMind is a daemon that runs agent work for a person.  This library models the
    part of it that decides which work runs, when, on whose authority, and what
    survives a crash, and proves that it does so safely.  The code is under
    [src/internal].

    ** The parts and how they interact

    A message from a platform is recorded as an inbound receipt
    ([control/inbound_dedup.go]), claimed by one dispatcher and turned into a Run or,
    if the person already has one, into a row of the durable task queue
    ([control/queue.go]) that freezes the authority it was admitted with
    ([control/run_admission.go]).  A coordinator selects a due row, claims it with a
    token, resolves it to the Run it continues ([control/queue_continuation.go]),
    starts the Run in one transaction ([control/store.go], [control/run_continuity.go])
    (a Run that already executes may instead claim the work it continues,
    [control/work_claim.go])
    and launches it through the worker pool ([runpool/pool.go]), which bounds
    concurrency and excludes writers of one key or of overlapping directories; the
    watchdog ([runpool/watchdog.go]) cancels a run that hangs, but not one that waits
    for a person.  Inside a run, commands and file edits pass through the person's
    execution lane ([tools/execution_lane.go]); a run that needs a decision or an
    answer asks for it ([control/approvals.go], [control/clarifies.go]), may be parked
    on it with its checkpoint ([control/human_wait.go], [control/loop_checkpoint.go]),
    and is continued by the queue row the answer stores.  Guidance sent to a running
    Run waits in the steering mailbox ([control/steering_mailbox.go]) and becomes queue
    work if the Run does not consume it.  A Run ends in one transaction that records
    its result and, if it parks, the row that wakes it ([control/run_finalization.go]);
    a stop closes or marks it and withdraws what it asked for
    ([control/run_cancellation.go] and the [*_cancel.go] files), and the recovery sweep
    ([control/runtime.go]) marks what a crash left running.  After a Run, background
    maintenance jobs ([control/maintenance_jobs.go]) use the providers behind per-route
    circuits ([control/provider_route_health.go]).

    Before any command runs, and before any approval is looked at, its text is read for
    the programs it runs, through wrappers, shells, [find] and nested scripts
    ([tools/command_identity.go], [tools/command_launchers.go], [tools/shell_grammar.go]),
    and the safety floor refuses what no approval may release ([tools/hardline_find.go],
    [tools/hardline_power.go] and [hardlineToolCall] in [tools/middleware.go]).  Files
    are edited by patches, parsed, validated and applied by the patch tool
    ([tools/patch.go]).  A call that may change the outside world first claims its
    targets ([control/external_effect_claims.go]); what became of it is read from its
    lifecycle records ([control/external_effect_lifecycle.go]), and its claim is
    released by an observation, a watcher or the person
    ([control/external_effect_observation.go], [control/external_effect_settlement.go]),
    which wakes the Runs that wait for the target
    ([control/external_resource_projection.go]).  A Run that waits for the outside world
    leaves watchers, which the daemon checks after the Run has ended
    ([control/external_watches.go]), alone or as a group with one verdict
    ([control/external_watch_groups.go]).

    ** The files

    Shared:
    - [Prelude]: record update, errors and results, boolean reflection, list lemmas.
    - [GoLib]: what the code uses of Go's strings (UTF-8 decoding, [TrimSpace],
      [ToLower], [ToValidUTF8]), of [time] (nanoseconds since the Unix epoch, as an unbounded
      [Z]) and of SQLite's text functions.
    - [Sql]: a table is the list of its rows in rowid order; [update_where],
      [insert_or_ignore], [order_by] (stable), [sql_limit] and their lemmas.  A
      statement is one atomic step and so is a transaction; the clock readings and
      generated identifiers of a statement are its arguments.
    - [Admission], [Store]: admission snapshots; the runs, events, names and root
      bindings that the components read.

    Components with a table or a state of their own:
    - [Queue], [QueueTheory]: every statement of the queue as a definition of the same
      name on [list QueueRow]; histories [exec_ops] of arbitrary operations.
    - [QueueInterface]: what the queue promises to its clients, as the classes
      [TaskQueue] and [TaskQueueLaws], with the table as their instance.
    - [Steering], [SteeringTheory]: the mailbox, over any queue of that interface;
      [Sha256] is the content hash it stores, checked on the published vectors.
    - [Maintenance], [MaintenanceTheory], [RouteTheory]: jobs, attempts and provider
      circuits in one state, [MaintState]; histories [exec_maints].
    - [Inbound]: receipts, their histories and their properties.
    - [Paths]: cleaning and overlap of directories; [os.Stat], [EvalSymlinks] and the
      working directory are parameters.
    - [RunPool], [RunPoolTheory]: the pool as a [World] of goroutines; [step] runs one
      goroutine up to its next blocking point or critical section, or cancels it.
    - [ExecLane], [ExecLaneTheory]: one lane and its callers, in the same style.
    - [Watchdog], [WatchdogTheory]: controller, timer and watch loop.

    The life of a Run, over one database [DB]:
    - [Evolution]: tables that only change rows by a step and append admissible rows.
    - [Database]: the rows and tables, threads, blockers, capacity counts, the event
      ledger.
    - [RunStart]: [startRun] with its capacity, resume claim and queue binding,
      [finishRun], heartbeats.
    - [Checkpoints], [Approvals], [Clarify]: wait checkpoints, approval and
      clarification requests with every operation on them.
    - [Cancellation]: parking, stops, the withdrawal of requests and continuations,
      [CancelQueued] and [ClearQueued].
    - [Continuation]: the resolver of queued continuations, queued lane waits, the
      recovery sweep.
    - [Finalization]: [MaterializeRunFinalization] and its effect receipts.
    - [Control]: histories [exec_controls] of all these operations in any order.
    - [Scenario]: the concrete history the witnesses evaluate.
    - [ApprovalTheory], [ControlSteps], [FinalizationSteps], [ControlTheory]: what each
      operation does to each table, and the invariant [db_wf] of every history.
    - [Continuity], [Resolution], [Decisions], [Stops], [Ledger] (keyed events),
      [Answers], [Finalizing]: the properties.

    Approval grants:
    - [Grants]: the table of remembered answers, its specification as a map from classes
      to decisions, and the refinement between them.

    Direct continuation claims, over that database and the mailbox ([WorkDB]):
    - [DirectClaim]: the claim and the retargeting of a running Run.
    - [DirectClaimTheory]: they keep [db_wf], which orders Runs by a rank, not by their
      insertion; what became of each table.
    - [DirectClaims]: histories [work_steps] that interleave claims with the operations
      of [Control]; the properties, and the order of the event ledger over them.

    Reading commands, on strings of bytes:
    - [GoStrings]: what the readers use of Go's [strings] and [path].
    - [EnvSplit]: [splitEnvString], and a quoting that it undoes.
    - [Wrappers]: the option reader of a prefix wrapper ([wrapperOptions]), assignments
      and durations.
    - [ShellGrammar]: the option grammars of the shells and the command strings they run.
    - [ShellSyntax]: the syntax tree, the class [BashSyntax] of parser and quoter, and
      the words and write targets read from the tree.
    - [Launchers]: the table of wrappers, find's [-exec] family, su, GNU parallel's
      input sources and command lines; [unwrap].
    - [CommandIdentity]: [identifyCommand], and the two readings of a payload with the
      scripts and commands it runs.
    - [Hardline]: the floor: protected roots, disks, power, the reading of a find
      expression and its sweep, [hardlineCommand], [hardlineToolCall].
    - [FindTheory]: the grammar of find expressions and its evaluation on one entry.
    - [LaunchersTheory], [FloorTheory], [SafetyFloor]: what the readings keep, and the
      properties; [SampleSyntax] is a concrete parser for the witnesses.

    Patches:
    - [Patch]: operations, the parser, [fuzzyFindAndReplace], validation, application
      and [executePatch], over the map of readable files and the class [Disk].
    - [PatchText], [PatchTheory], [PatchParse]: occurrences and line windows, the
      specification of an edit and of a patch, the round trip of the parser.

    Redaction of registered secrets; a text is a list of bytes, a span a range of it:
    - [Masks]: spans, [mergeSpans], [applyMasks], [covered] and the byte-by-byte reference.
    - [Views]: the text without terminal sequences, invisible characters, escapes or
      whitespace, with the original range of every byte ([detectionView]).
    - [Secrets]: the forms of a value, the registry and its snapshots, what is found in a
      text ([spans], [Redact], [detect]).
    - [SecretsTheory]: occurrences, runs of identifiers, snapshots after any history,
      layouts; [Redaction]: histories of the registry and the properties of masking.
    - [SecretStream]: the stream of lines ([lineStreamRedactor]): which lines secrets of
      several lines and JSON secrets hold back, the lookback, and the registry it
      follows; [StreamHold]: its histories, with a registry that may change, and what
      its automaton follows and holds.

    External effects, over the tables [EffectDB]:
    - [Effects]: claim rows, dispatch and return records, dispositions, the chain of a
      Run, acknowledgments, the classification of blockers and [ClaimExternalEffects].
    - [EffectRelease]: the dispatch boundary, boot recovery, every release, settlements,
      and the readings of claims and of durable waits.
    - [EffectsTheory]: histories [effect_steps] that interleave all of it with Runs that
      start, change and stop, other events, watchers, grants and daemon restarts; the
      invariant [effect_wf].
    - [EffectSafety]: calls in flight ([flying]) from step to step.
    - [EffectGuarantees]: the properties and their concrete histories.

    External watches, over [WatchDB] (the control database, whose view of the watchers
    follows every change of their table, the claims, the watchers and the groups):
    - [Watches]: registration, polling, verdicts, cancellation, groups and listings.
    - [WatchTheory]: histories [watch_steps] of these operations with arbitrary changes
      of the other tables; steps of a row and of a group; the invariant [watch_wf].
    - [WatchGuarantees]: the properties and their concrete histories.

    ** What the theorems show

    - Queue: a row bound to a Run is never claimed again; racing claims have one winner;
      stale tokens are inert; boot recovery decides every row and replays it at most
      once; enqueue is idempotent on its key; the selector returns the right row and
      that row can be claimed; no row is claimed before its deadline.
    - Runs: a Run has one continuation, of its own person and thread, and no cycle; the
      capacity bound holds; starting is atomic; the resolver offers a Run to a row
      exactly when the start from that row is accepted, always decides, never moves a
      system row to another Run, and what it offers can be started.
    - Direct claims: the lineage holds through them; a claim moves one running Run and its
      rows to the thread of the Run it continues, or nothing.
    - Human decisions: final, well formed, continued exactly once; authorizations are
      single-use and bound to the Run that asked and those that resume it; late answers are refused; answering
      a question has the outcome its Run calls for; parking is atomic.
    - Grants: rows and specification agree after every history, and so do their answers
      to whether a call is released.
    - Stops: withdraw every pending request, authorization and unbound continuation.
      [Stops.stopped_run_revived] is a history on which recovery undoes a stop.
    - Finalization: one transaction or none; its terminal event answers every retry;
      a recorded stop wins; a parked wait has the row that wakes it.
    - Ledger: it only grows, in the order of its cursors, and once per idempotency key;
      events keep all but their thread, which a direct claim rewrites, so a reader of one
      thread can miss events.  The deletion of a person's work history is not in the
      histories.
    - Pool: exclusion and the worker bound in every interleaving; every schedule
      terminates with nothing leaked, so there is no deadlock.
    - Maintenance and circuits: results are final, claims exclusive, attempts bounded;
      cutover is replay-safe; circuits back off, probe one call at a time and release
      exactly their jobs.
    - Mailbox: nothing accepted is lost or queued twice across crashes; the boot loop
      returns, and what it queues is the message, however old.
    - Lane: host exclusivity, the order of admission, no lost wake-up, reconciliation
      with the durable waits.
    - Receipts: one dispatcher, inert late transitions, no lost input.
    - Watchdog: stalls are justified and hung runs are released in every schedule.
    - Command readings: [env -S] strings can carry any words; a command string the
      exact reader accepts is all the shell runs; identification is bounded and keeps
      the place of every word; parallel's command lines are listed in full or not at all.
    - Safety floor: assignments, up to seven wrappers without options and shell command
      strings do not change its verdict; a find that would do on an ordinary entry what is refused is refused.
      [SafetyFloor.floor_never_decides] is a payload on which it does not end.
    - Patches: a hunk edits the one place it names, unless equal blocks overlap; files change only after validation
      and only as the patch names them; a validated patch about different files does
      what it says; patches are read back.  Three theorems show validated patches that
      fail halfway or edit another place than the author meant.

    - Redaction: masking is the byte-by-byte reference; exactly the registered secrets are
      masked, as written, as a reader sees them and, for JSON of valid UTF-8, in any
      layout ([Redaction.invalid_byte_layout_shown] is what happens to other JSON); the
      automaton of a stream is in the state its text calls for, and holds the lines from
      the beginning it follows ([StreamHold.restart_shows_beginning] is one it forgets).

    - External effects: conflicting calls of a person never fly together, when a call
      crosses dispatch only while its Run executes; [EffectGuarantees.late_dispatch_overlaps]
      shows that the store alone does not ensure it.  A grant passes nothing that is in
      flight, an effect is granted once, an observation is final and passes one call,
      a settlement decides its effect for good.

    - Watches: rows stay well formed; a verdict is finalized once until it is revised; a
      group is settled once, by one winner, and holds at most the versioned members it
      declared; cancelling a watcher leaves no Run waiting for nobody.  Histories revise
      only terminal verdicts and finalize only terminal watchers, as the callers do
      ([well_called]).  [WatchGuarantees.unchanged_output_polls_faster] shows an interval
      that shrinks where it is meant to grow.

    A history of Runs is a sequence of the operations of [Control.control_op]; tables that only
    other components write are set freely by [OpExternal].  The writers of the [runs]
    and [task_queue] rows that are not in it are the direct claims (in the histories of
    [DirectClaims]), the watchers' updates of a Run (in those of [WatchTheory]), the
    attention dismissals, the turn-choice rows and the deletion of a person's work history.

    ** Bounds and fuel

    The boot loop of the mailbox runs on fuel of one more than the number of live
    messages and is proved to return within it.  The resolver runs on the code's own
    bound of 64 generations.  Path ancestry uses the number of path elements, which
    each parent decreases.  UTF-8 decoding uses the length of the string.  Schedules of
    the pool need no fuel: [steps_left] bounds them.  A wrapper's options are read with
    fuel above the size of its arguments, which every step decreases, split strings
    included ([read_options_fuel]); a find expression with eight times its words
    ([read_list_fuel]).  Wrappers and nested scripts are peeled off by recursion on the
    code's own bounds, eight and four.  The floor's own recursion through find has no
    bound in the code: [hardlineCommand] takes any fuel, [None] is a verdict that did
    not come, and the theorems hold for every fuel.  Durations are unbounded except in
    the backoff loop, where products wrap at 64 bits; the offsets of a view are 32-bit.

    ** Parameters

    [RunEnv] gives [strings.ToUpper] and the import of a parent's plan; [ClaimEnv]
    whether a Run has a plan and whether its roots column is a nil slice; [FinalizeEnv]
    the completion review, the blockers of external effects and the plan and tool
    evidence of a Run; [BashSyntax] the shell library's parser, as the statements of
    a payload in the order they are visited, and its quoter; [Disk] what the operating
    system makes of writes, removals and renames; [json_container] whether a secret is a
    JSON object or array, and [credentials] the spans of the recognizers of credentials;
    in [SecretStream] the recognizer of a value field that waits for its name;
    [EffectRules] the base64 and JSON
    readers of an effect rule and of a check's output.  The theorems hold for every choice
    of them.

    ** What is not modelled

    Database and network failures other than constraint violations and undecodable
    columns, so the retries on a busy database; the bytes of JSON columns ([jcol] is a
    decoded value or an unreadable text); publication of events to live subscribers;
    changes of the file system during a schedule; the functions that run inside a job,
    which are taken to return; fairness of Go's scheduler.  Of the modelled files: the
    plan tables, [ApprovalDecisionFunnelSince], [MaintenanceHealthForPerson],
    [ListPersonIDs], [RunSteeringRequirements], admission-state observers, and the tool
    middleware around the lane.  The lower case of runes that have no ASCII one is left
    as it is: the readers compare names with ASCII constants.  A patch's
    paths are taken to name different files, none below another.  Of the redaction: the
    recognizers of credentials, the rewriting of JSON documents, the masks a line of a
    stream is shown with, and texts of 2 GiB and more, whose offsets would wrap.  Of the external effects:
    the notices of blocked Runs, which need thread titles; watcher rows are inputs of
    their histories.  Of the watches:
    the poller that runs a check and matches its output, whose results are arguments of
    the recording operations.  Of the direct claims: the rows of artifacts, workflow
    profiles and skill activations, whose thread follows the Run too.  The re-entrant
    tokens of the execution lane, the approval classes
    built on the command readings, the other tools, the gateway, the agent kernel and the
    user interfaces are not modelled: they are mostly input, output and orchestration
    over the parts above. *)

From stdpp Require Import base tactics list strings.
From Stdlib Require Import ZArith Lia Bool Ascii String List Permutation Sorted.

(** ** Functional record update

    A record type that declares an [Eta] instance (its constructor applied to
    its own projections) gets an update notation [r <| f := v |>] for each of
    its fields, so that a row transition reads like the [UPDATE ... SET] clause
    it models. *)

Class Eta (R : Type) := eta : R -> R.
Class FieldUpdate {R T : Type} (f : R -> T) := field_update : T -> R -> R.
Arguments field_update {R T} f {_} _ _ /.

Ltac derive_field_update :=
  match goal with
  | |- @FieldUpdate ?R ?T ?f =>
      let inst := constr:(_ : Eta R) in
      let inst := eval hnf in inst in
      let abs := eval pattern f in inst in
      match abs with
      | ?g _ =>
          let body := constr:(fun (v : T) (r : R) => g (fun _ : R => v) r) in
          let body := eval cbv beta in body in
          exact body
      end
  end.

#[export] Hint Extern 1 (FieldUpdate _) => derive_field_update : typeclass_instances.

Declare Scope go_scope.
Delimit Scope go_scope with go.

Notation "r <| f := v |>" := (field_update f v r)
  (at level 1, f at level 0, left associativity, format "r  <|  f  :=  v  |>").

(** ** Errors and fallible results

    A Go [error] is a message, possibly wrapping a sentinel the callers test
    with [errors.Is]; a fallible call returns [Ok] or [Err]. *)

Inductive error : Type :=
| Errorf (text : string)
| Sentinel (name : string)
| Wrap (text : string) (cause : error).

#[export] Instance error_eq_dec : EqDecision error.
Proof. solve_decision. Defined.

(** [errors.Is err target] for a sentinel target. *)
Fixpoint errors_is (e : error) (target : string) : bool :=
  match e with
  | Errorf _ => false
  | Sentinel n => String.eqb n target
  | Wrap _ c => errors_is c target
  end.

Inductive res (A : Type) : Type :=
| Ok (a : A)
| Err (e : error).
Arguments Ok {A} a.
Arguments Err {A} e.

Definition is_ok {A} (r : res A) : bool := match r with Ok _ => true | Err _ => false end.

Notation "x <-? c ;; k" := (match c with Ok x => k | Err e => Err e end)
  (at level 60, c at next level, right associativity) : go_scope.

(** ** Boolean conditions

    Guards and [WHERE] clauses are booleans; [reflect_bools] turns the boolean
    hypotheses of a goal into propositions, [solve_bools] proves boolean goals
    from propositional facts. *)

Lemma string_eqb_false_iff (a b : string) : (a =? b)%string = false <-> a <> b.
Proof. apply String.eqb_neq. Qed.

Ltac reflect_bools :=
  repeat
    match goal with
    | H : _ && _ = true |- _ => apply andb_true_iff in H; destruct H
    | H : _ || _ = true |- _ => apply orb_true_iff in H
    | H : _ || _ = false |- _ => apply orb_false_iff in H; destruct H
    | H : negb _ = true |- _ => apply negb_true_iff in H
    | H : negb _ = false |- _ => apply negb_false_iff in H
    | H : (_ =? _)%string = true |- _ => apply String.eqb_eq in H
    | H : (_ =? _)%string = false |- _ => apply String.eqb_neq in H
    | H : (_ =? _)%Z = true |- _ => apply Z.eqb_eq in H
    | H : (_ =? _)%Z = false |- _ => apply Z.eqb_neq in H
    | H : (_ <=? _)%Z = true |- _ => apply Z.leb_le in H
    | H : (_ <=? _)%Z = false |- _ => apply Z.leb_gt in H
    | H : (_ <? _)%Z = true |- _ => apply Z.ltb_lt in H
    | H : (_ <? _)%Z = false |- _ => apply Z.ltb_ge in H
    end.

Ltac solve_bools :=
  repeat
    match goal with
    | |- _ && _ = true => apply andb_true_iff; split
    | |- negb _ = true => apply negb_true_iff
    | |- (_ =? _)%string = true => apply String.eqb_eq
    | |- (_ =? _)%string = false => apply String.eqb_neq
    | |- (_ =? _)%Z = true => apply Z.eqb_eq
    | |- (_ =? _)%Z = false => apply Z.eqb_neq
    | |- (_ <=? _)%Z = true => apply Z.leb_le
    | |- (_ <=? _)%Z = false => apply Z.leb_gt
    | |- (_ <? _)%Z = true => apply Z.ltb_lt
    | |- (_ <? _)%Z = false => apply Z.ltb_ge
    end; try done; try lia; try congruence.

(** Case analysis on the first boolean condition of the goal (then of the
    hypotheses), keeping its equation. *)
Ltac case_if :=
  match goal with
  | |- context [if ?b then _ else _] => destruct b eqn:?
  | H : context [if ?b then _ else _] |- _ => destruct b eqn:?
  end.

(** ** Lists *)

Lemma forallb_In {A} (p : A -> bool) l x : forallb p l = true -> In x l -> p x = true.
Proof. rewrite forallb_forall. auto. Qed.

Lemma existsb_false_In {A} (p : A -> bool) l x : existsb p l = false -> In x l -> p x = false.
Proof.
  intros H Hin. destruct (p x) eqn:E; [|done].
  assert (existsb p l = true) as E'; [|congruence].
  apply existsb_exists. eauto.
Qed.

Lemma filter_all_false {A} (p : A -> bool) l :
  (forall x, In x l -> p x = false) -> List.filter p l = [].
Proof.
  induction l as [|a l IH]; intros H; [done|].
  simpl. rewrite (H a) by (by left). apply IH. intros x Hx. apply H. by right.
Qed.

Lemma filter_ext_In {A} (p q : A -> bool) l :
  (forall x, In x l -> p x = q x) -> List.filter p l = List.filter q l.
Proof. apply List.filter_ext_in. Qed.

Lemma NoDup_map_inj {A B} (f : A -> B) l x y :
  List.NoDup (map f l) -> In x l -> In y l -> f x = f y -> x = y.
Proof.
  induction l as [|a l IH]; simpl; [done|].
  intros Hnd Hx Hy Heq. apply NoDup_cons_iff in Hnd as [Hni Hnd].
  destruct Hx as [->|Hx], Hy as [->|Hy]; auto.
  - exfalso. apply Hni. rewrite Heq. by apply in_map.
  - exfalso. apply Hni. rewrite <- Heq. by apply in_map.
Qed.

Lemma NoDup_snoc {A} (l : list A) x : List.NoDup l -> ~ In x l -> List.NoDup (l ++ [x]).
Proof.
  intros Hnd Hni. apply (Permutation_NoDup (l := x :: l)).
  - apply Permutation_cons_append.
  - by constructor.
Qed.

(** ** Hint databases

    [control] collects the lemmas that discharge the common side conditions of
    the store components (key preservation, membership in updated tables). *)
Create HintDb control.
Create Rewrite HintDb control.
