(* ===== verification/GoLib.v ===== *)
(** * Go and SQLite primitives

    The parts of the Go standard library and of SQLite's built-in functions the
    control store is written with: [strings.TrimSpace], [strings.ToLower] as
    used against ASCII constants, [strings.HasPrefix], byte slicing, [time.Time]
    as nanoseconds since the Unix epoch, SQL [TRIM] and SQL [LIKE 'prefix%']. *)

From stdpp Require Import base tactics list strings.
From Stdlib Require Import ZArith Lia Bool Ascii String List.
From S2P Require Import Prelude.

(** ** Bytes of a Go string *)

Definition ascii_of_Z (z : Z) : ascii := ascii_of_N (Z.to_N z).
Definition code (a : ascii) : N := N_of_ascii a.

(** ASCII members of [unicode.IsSpace]: tab, newline, vertical tab, form feed,
    carriage return, space. *)
Definition ascii_space (a : ascii) : bool :=
  let c := code a in ((9 <=? c) && (c <=? 13) || (c =? 32))%N.

(** The two-byte UTF-8 encodings of white space: U+0085 and U+00A0. *)
Definition space2 (a b : ascii) : bool :=
  ((code a =? 0xC2) && ((code b =? 0x85) || (code b =? 0xA0)))%N.

(** The three-byte ones: U+1680, U+2000..U+200A, U+2028, U+2029, U+202F, U+205F
    and U+3000. *)
Definition space3 (a b c : ascii) : bool :=
  let x := code a in let y := code b in let z := code c in
  ((x =? 0xE1) && (y =? 0x9A) && (z =? 0x80)
   || (x =? 0xE2) && (y =? 0x80)
      && ((0x80 <=? z) && (z <=? 0x8A) || (z =? 0xA8) || (z =? 0xA9) || (z =? 0xAF))
   || (x =? 0xE2) && (y =? 0x81) && (z =? 0x9F)
   || (x =? 0xE3) && (y =? 0x80) && (z =? 0x80))%N.

(** One white-space rune off the front of a byte sequence. *)
Definition strip_front (l : list ascii) : option (list ascii) :=
  match l with
  | [] => None
  | a :: l1 =>
      if ascii_space a then Some l1 else
      match l1 with
      | [] => None
      | b :: l2 =>
          if space2 a b then Some l2 else
          match l2 with
          | [] => None
          | c :: l3 => if space3 a b c then Some l3 else None
          end
      end
  end.

(** One white-space rune off the back, on the reversed byte sequence. *)
Definition strip_back (l : list ascii) : option (list ascii) :=
  match l with
  | [] => None
  | a :: l1 =>
      if ascii_space a then Some l1 else
      match l1 with
      | [] => None
      | b :: l2 =>
          if space2 b a then Some l2 else
          match l2 with
          | [] => None
          | c :: l3 => if space3 c b a then Some l3 else None
          end
      end
  end.

Fixpoint strip_all (strip : list ascii -> option (list ascii)) (fuel : nat) (l : list ascii)
  : list ascii :=
  match fuel with
  | O => l
  | S n => match strip l with Some l' => strip_all strip n l' | None => l end
  end.

Definition trim_front (l : list ascii) : list ascii := strip_all strip_front (length l) l.
Definition trim_back (l : list ascii) : list ascii :=
  rev (strip_all strip_back (length l) (rev l)).

(** [strings.TrimSpace]. *)
Definition TrimSpace (s : string) : string :=
  string_of_list_ascii (trim_back (trim_front (list_ascii_of_string s))).

(** [strings.HasPrefix] and [strings.TrimPrefix]. *)
Definition HasPrefix (s p : string) : bool := String.prefix p s.
Definition TrimPrefix (s p : string) : string :=
  if HasPrefix s p
  then String.substring (String.length p) (String.length s - String.length p) s
  else s.

(** [s[:n]] guarded by [len(s) > n], the truncation the store applies to stored
    error texts. *)
Definition boundedText (value : string) (limit : Z) : string :=
  if (0 <? limit)%Z && (limit <? Z.of_nat (String.length value))%Z
  then String.substring 0 (Z.to_nat limit) value else value.

(** [strings.ToLower] on the runes whose lower case is ASCII: the ASCII letters,
    U+0130 (lower case "i") and U+212A (lower case "k").  Other runes keep a
    non-ASCII lower case, so they are left as they are: the store only compares
    the result with ASCII constants. *)
Definition lower_ascii (a : ascii) : ascii :=
  let c := code a in
  if ((65 <=? c) && (c <=? 90))%N then ascii_of_N (c + 32) else a.

Fixpoint lower_bytes (l : list ascii) : list ascii :=
  match l with
  | a :: ((b :: ((c :: l3) as l2)) as l1) =>
      if ((code a =? 0xE2) && (code b =? 0x84) && (code c =? 0xAA))%N
      then ascii_of_N 107 :: lower_bytes l3
      else if ((code a =? 0xC4) && (code b =? 0xB0))%N
      then ascii_of_N 105 :: lower_bytes l2
      else lower_ascii a :: lower_bytes l1
  | a :: ((b :: l2) as l1) =>
      if ((code a =? 0xC4) && (code b =? 0xB0))%N
      then ascii_of_N 105 :: lower_bytes l2
      else lower_ascii a :: lower_bytes l1
  | a :: l1 => lower_ascii a :: lower_bytes l1
  | [] => []
  end.

Definition ToLower (s : string) : string :=
  string_of_list_ascii (lower_bytes (list_ascii_of_string s)).

(** ** UTF-8

    [rune_len l] is the number of bytes of the valid UTF-8 encoding [l] starts
    with, or [None] when its first byte does not start one (Go's
    [utf8.DecodeRune] then yields the error rune with width one). *)

Definition in_range (lo hi : N) (a : ascii) : bool := ((lo <=? code a) && (code a <=? hi))%N.
Definition continuation (a : ascii) : bool := in_range 0x80 0xBF a.

(** The range of the second byte after each leading byte. *)
Definition second_ok (a b : ascii) : bool :=
  let c := code a in
  if (c =? 0xE0)%N then in_range 0xA0 0xBF b
  else if (c =? 0xED)%N then in_range 0x80 0x9F b
  else if (c =? 0xF0)%N then in_range 0x90 0xBF b
  else if (c =? 0xF4)%N then in_range 0x80 0x8F b
  else continuation b.

Definition rune_len (l : list ascii) : option nat :=
  match l with
  | [] => None
  | a :: l1 =>
      if in_range 0 0x7F a then Some 1%nat
      else if in_range 0xC2 0xDF a then
        match l1 with b :: _ => if second_ok a b then Some 2%nat else None | _ => None end
      else if in_range 0xE0 0xEF a then
        match l1 with
        | b :: c :: _ => if second_ok a b && continuation c then Some 3%nat else None
        | _ => None
        end
      else if in_range 0xF0 0xF4 a then
        match l1 with
        | b :: c :: d :: _ =>
            if second_ok a b && continuation c && continuation d then Some 4%nat else None
        | _ => None
        end
      else None
  end.

(** The valid runes of a byte sequence, each as its bytes; invalid bytes are
    dropped. *)
Fixpoint runes_fuel (fuel : nat) (l : list ascii) : list (list ascii) :=
  match fuel, l with
  | S n, a :: l1 =>
      match rune_len l with
      | Some k => firstn k l :: runes_fuel n (skipn k l)
      | None => runes_fuel n l1
      end
  | _, _ => []
  end.
Definition runes (l : list ascii) : list (list ascii) := runes_fuel (length l) l.

(** [strings.ToValidUTF8(s, "")]. *)
Definition ToValidUTF8 (s : string) : string :=
  string_of_list_ascii (concat (runes (list_ascii_of_string s))).

(** [utf8.RuneCountInString] and [string([]rune(s)[:n])], both used on strings
    that are already valid UTF-8. *)
Definition RuneCount (s : string) : nat := length (runes (list_ascii_of_string s)).
Definition take_runes (n : nat) (s : string) : string :=
  string_of_list_ascii (concat (firstn n (runes (list_ascii_of_string s)))).

(** ** SQLite text functions *)

(** [TRIM(x)] strips spaces (0x20) only, on both sides. *)
Definition strip_blank (l : list ascii) : option (list ascii) :=
  match l with
  | a :: l1 => if (code a =? 32)%N then Some l1 else None
  | [] => None
  end.

Definition sql_trim (s : string) : string :=
  let l := list_ascii_of_string s in
  let f := strip_all strip_blank (length l) l in
  string_of_list_ascii (rev (strip_all strip_blank (length f) (rev f))).

(** [x LIKE 'p%'] for a pattern prefix [p] without wildcards: SQLite folds the
    case of ASCII letters on both sides. *)
Definition fold_case (s : string) : string :=
  string_of_list_ascii (map lower_ascii (list_ascii_of_string s)).

Definition sql_like_prefix (x p : string) : bool := HasPrefix (fold_case x) (fold_case p).

(** ** Time

    [time.Time] is nanoseconds since the Unix epoch and [time.Duration] a number
    of nanoseconds; [Unix] is the whole seconds the database stores. *)

Definition Time := Z.
Definition Duration := Z.
Definition Nanosecond : Duration := 1%Z.
Definition Second : Duration := 1000000000%Z.
Definition Minute : Duration := (60 * Second)%Z.
Definition Hour : Duration := (60 * Minute)%Z.

(** The zero [time.Time], 1 January of year 1. *)
Definition ZeroTime : Time := (-62135596800 * Second)%Z.

Definition Unix (t : Time) : Z := (t / Second)%Z.
Definition IsZero (t : Time) : bool := (t =? ZeroTime)%Z.
Definition NanosecondOf (t : Time) : Z := (t mod Second)%Z.
Definition TimeOfUnix (sec : Z) : Time := (sec * Second)%Z.
Definition Add (t : Time) (d : Duration) : Time := (t + d)%Z.

(** ** Lemmas: trimming is idempotent *)

Section Strip.
Context (strip : list ascii -> option (list ascii)).

(** A stripper removes a non-empty prefix, and only looks at that prefix. *)
Definition strips_prefix : Prop :=
  forall l l', strip l = Some l' -> exists p, p <> [] /\ l = p ++ l' /\
    forall l2, strip (p ++ l2) = Some l2.

Lemma strip_all_suffix : strips_prefix -> forall n l, exists p, l = p ++ strip_all strip n l.
Proof.
  intros Hs n. induction n as [|n IH]; intros l; simpl; [by exists []|].
  destruct (strip l) as [l'|] eqn:E; [|by exists []].
  destruct (Hs _ _ E) as (p & _ & -> & _). destruct (IH l') as [q Hq].
  exists (p ++ q). by rewrite <- app_assoc, <- Hq.
Qed.

Lemma strip_all_done : strips_prefix ->
  forall n l, length l <= n -> strip (strip_all strip n l) = None.
Proof.
  intros Hs n. induction n as [|n IH]; intros l Hl; simpl.
  - destruct l; [|simpl in Hl; lia]. destruct (strip []) eqn:E; [|done].
    destruct (Hs _ _ E) as (p & Hp & Heq & _). destruct p; done.
  - destruct (strip l) as [l'|] eqn:E; [|done]. apply IH.
    destruct (Hs _ _ E) as (p & Hp & -> & _). destruct p; [done|].
    rewrite length_app in Hl. simpl in Hl. lia.
Qed.

Lemma strip_all_fixed n l : strip l = None -> strip_all strip n l = l.
Proof. destruct n; simpl; [done|]. by intros ->. Qed.

(** A sequence that cannot be stripped has no prefix that can. *)
Lemma strip_None_prefix : strips_prefix -> forall l l2, strip (l ++ l2) = None -> strip l = None.
Proof.
  intros Hs l l2 H. destruct (strip l) as [l'|] eqn:E; [|done].
  destruct (Hs _ _ E) as (p & _ & -> & Hall).
  rewrite <- app_assoc, Hall in H. done.
Qed.
End Strip.

(** Decide a stripper on at most three leading bytes. *)
Ltac solve_strips :=
  intros [|a [|b [|c l]]] l'; simpl; intros H; repeat case_if; simplify_eq;
  first [ by exists [a]; repeat split; [done|..]; intros l2; simpl;
            repeat match goal with E : _ = _ :> bool |- _ => rewrite E; clear E end
        | by exists [a; b]; repeat split; [done|..]; intros l2; simpl;
            repeat match goal with E : _ = _ :> bool |- _ => rewrite E; clear E end
        | by exists [a; b; c]; repeat split; [done|..]; intros l2; simpl;
            repeat match goal with E : _ = _ :> bool |- _ => rewrite E; clear E end ].

Lemma strip_front_prefix : strips_prefix strip_front.
Proof. solve_strips. Qed.

Lemma strip_back_prefix : strips_prefix strip_back.
Proof. solve_strips. Qed.

Lemma strip_blank_prefix : strips_prefix strip_blank.
Proof. solve_strips. Qed.

Lemma trim_front_done l : strip_front (trim_front l) = None.
Proof. apply strip_all_done; [apply strip_front_prefix|done]. Qed.

Lemma trim_back_done l : strip_back (rev (trim_back l)) = None.
Proof.
  unfold trim_back. rewrite rev_involutive.
  apply strip_all_done; [apply strip_back_prefix|]. by rewrite length_rev.
Qed.

Lemma trim_back_front l : strip_front l = None -> strip_front (trim_back l) = None.
Proof.
  intros H. unfold trim_back.
  destruct (strip_all_suffix _ strip_back_prefix (length l) (rev l)) as [p Hp].
  apply (strip_None_prefix _ strip_front_prefix _ (rev p)).
  by rewrite <- rev_app_distr, <- Hp, rev_involutive.
Qed.

Lemma TrimSpace_idemp s : TrimSpace (TrimSpace s) = TrimSpace s.
Proof.
  unfold TrimSpace. rewrite list_ascii_of_string_of_list_ascii. f_equal.
  set (m := trim_back (trim_front (list_ascii_of_string s))).
  assert (strip_front m = None) as Hf by apply trim_back_front, trim_front_done.
  assert (strip_back (rev m) = None) as Hb by apply trim_back_done.
  unfold trim_front. rewrite (strip_all_fixed strip_front) by done.
  unfold trim_back. rewrite (strip_all_fixed strip_back) by done. apply rev_involutive.
Qed.

(** A string that starts with a graphic ASCII character is kept by trimming from
    there on. *)
Definition graphic (a : ascii) : bool := in_range 33 126 a.

Lemma graphic_not_space c a b :
  graphic c = true -> ascii_space c = false /\ space2 c a = false /\ space3 c a b = false.
Proof.
  unfold graphic, in_range, ascii_space, space2, space3. intros [H1 H2]%andb_true_iff.
  apply N.leb_le in H1, H2.
  assert (forall k, (126 < k)%N -> (code c =? k)%N = false) as Hk by (intros; apply N.eqb_neq; lia).
  rewrite (Hk 0xC2%N), (Hk 0xE1%N), (Hk 0xE2%N), (Hk 0xE3%N) by lia. simpl. repeat split.
  apply orb_false_iff. split; [apply andb_false_iff; right; apply N.leb_gt; lia|apply N.eqb_neq; lia].
Qed.

Lemma strip_back_graphic c m m2 :
  graphic c = true -> strip_back (m ++ [c]) = Some m2 -> exists m', m2 = m' ++ [c].
Proof.
  intros Hc. destruct m as [|a [|b [|d m]]]; simpl.
  - destruct (graphic_not_space c c c Hc) as (-> & _). done.
  - destruct (graphic_not_space c a a Hc) as (_ & H2 & _). case_if; [intros; simplify_eq; by exists []|].
    by rewrite H2.
  - destruct (graphic_not_space c b a Hc) as (_ & _ & H3). case_if; [intros; simplify_eq; by exists [b]|].
    case_if; [intros; simplify_eq; by exists []|]. by rewrite H3.
  - repeat case_if; intros; simplify_eq; 
      first [by exists (b :: d :: m)|by exists (d :: m)|by exists m].
Qed.

Lemma strip_all_graphic c n : forall m, graphic c = true ->
  exists m', strip_all strip_back n (m ++ [c]) = m' ++ [c].
Proof.
  induction n as [|n IH]; intros m Hc; simpl; [by exists m|].
  destruct (strip_back (m ++ [c])) as [m2|] eqn:E; [|by exists m].
  destruct (strip_back_graphic c m m2 Hc E) as [m' ->]. by apply IH.
Qed.

Lemma TrimSpace_graphic c s : graphic c = true -> exists s', TrimSpace (String c s) = String c s'.
Proof.
  intros Hc. unfold TrimSpace, trim_front. simpl list_ascii_of_string.
  rewrite strip_all_fixed.
  2: { destruct (list_ascii_of_string s) as [|a [|b l]]; simpl.
       - by destruct (graphic_not_space c c c Hc) as (-> & _).
       - by destruct (graphic_not_space c a a Hc) as (-> & -> & _).
       - by destruct (graphic_not_space c a b Hc) as (-> & -> & ->). }
  unfold trim_back. cbn [rev].
  match goal with |- context [strip_all strip_back ?n (?m ++ [c])] =>
    destruct (strip_all_graphic c n m Hc) as [m' ->] end.
  rewrite rev_app_distr. simpl. eauto.
Qed.

(** ** Lemmas: time *)

Lemma Unix_mono a b : (a <= b)%Z -> (Unix a <= Unix b)%Z.
Proof. intros. apply Z.div_le_mono; [unfold Second; lia|done]. Qed.

Lemma Unix_TimeOfUnix s : Unix (TimeOfUnix s) = s.
Proof. unfold Unix, TimeOfUnix. apply Z.div_mul. unfold Second. lia. Qed.

(** A deadline rounded up to whole seconds is never before the deadline. *)
Lemma Unix_ceil_reached deadline now :
  ((if (NanosecondOf deadline =? 0)%Z then Unix deadline else Unix deadline + 1) <= Unix now)%Z ->
  (deadline <= now)%Z.
Proof.
  unfold NanosecondOf, Unix.
  pose proof (Z.div_mod deadline Second ltac:(unfold Second; lia)) as Hd.
  pose proof (Z.div_mod now Second ltac:(unfold Second; lia)) as Hn.
  pose proof (Z.mod_pos_bound deadline Second ltac:(unfold Second; lia)).
  pose proof (Z.mod_pos_bound now Second ltac:(unfold Second; lia)).
  destruct (deadline mod Second =? 0)%Z eqn:E; reflect_bools; unfold Second in *; lia.
Qed.

Example TrimSpace_ascii : TrimSpace "  a b	
" = "a b".
Proof. reflexivity. Qed.

Example ToLower_ascii : ToLower "ReCovery" = "recovery".
Proof. reflexivity. Qed.

Example sql_like_folds : sql_like_prefix "NETWORK:abc" "network:" = true.
Proof. reflexivity. Qed.
