(* ===== verification/Sql.v ===== *)
(** * Tables

    A SQLite table is the list of its rows in rowid order (an [INSERT] appends).
    Each statement of the control store is one of the operations below; a
    statement is atomic.  A table with a primary key is [Keyed]; lookups by key
    give it its reading as a finite map, and the lemmas of this file say how each
    statement acts on that map. *)

From stdpp Require Import base tactics list strings.
From Stdlib Require Import ZArith Lia Bool List Permutation Sorted.
From S2P Require Import Prelude.

(** ** Statements *)

Section Statements.
Context {R : Type}.
Implicit Types (p : R -> bool) (f : R -> R) (t : list R).

(** [UPDATE t SET f WHERE p]. *)
Definition update_where p f t : list R := map (fun r => if p r then f r else r) t.

(** [RowsAffected] of an [UPDATE] or [DELETE] with condition [p]. *)
Definition rows_affected p t : Z := Z.of_nat (length (List.filter p t)).

(** [SELECT * FROM t WHERE p]. *)
Definition select_where p t : list R := List.filter p t.

(** [DELETE FROM t WHERE p]. *)
Definition delete_where p t : list R := List.filter (fun r => negb (p r)) t.

(** [SELECT ... WHERE p] read with [QueryRow]: the first row, if any. *)
Definition query_row p t : option R := List.find p t.

(** [INSERT OR IGNORE] against a uniqueness constraint [clash]: the new table
    and the rows affected. *)
Definition insert_or_ignore (clash : R -> R -> bool) (r : R) t : list R * Z :=
  if existsb (clash r) t then (t, 0%Z) else (t ++ [r], 1%Z).

(** [LIMIT n]: a negative limit is no limit. *)
Definition sql_limit {A} (n : Z) (l : list A) : list A :=
  if (n <? 0)%Z then l else firstn (Z.to_nat n) l.

(** [ORDER BY le]: a stable sort, so rows equal under [le] stay in rowid
    order. *)
Fixpoint insert_ordered (le : R -> R -> bool) (x : R) t : list R :=
  match t with
  | [] => [x]
  | y :: t' => if le x y then x :: y :: t' else y :: insert_ordered le x t'
  end.

Fixpoint order_by (le : R -> R -> bool) t : list R :=
  match t with
  | [] => []
  | x :: t' => insert_ordered le x (order_by le t')
  end.
End Statements.

(** ** Primary keys *)

Class Keyed (R K : Type) `{EqDecision K} := key : R -> K.
#[global] Hint Mode Keyed ! - - : typeclass_instances.

Definition lookup_key {R K} `{Keyed R K} (k : K) (t : list R) : option R :=
  List.find (fun r => bool_decide (key r = k)) t.

Definition keys_unique {R K} `{Keyed R K} (t : list R) : Prop := List.NoDup (map key t).

(** ** Facts about statements *)

Section StatementFacts.
Context {R : Type}.
Implicit Types (p : R -> bool) (f : R -> R) (t : list R).

Lemma In_update_where p f t r :
  In r (update_where p f t) <-> exists r0, In r0 t /\ r = if p r0 then f r0 else r0.
Proof. unfold update_where. rewrite in_map_iff. split; intros (x & ? & ?); exists x; auto. Qed.

Lemma update_where_nop p f t : (forall r, In r t -> p r = false) -> update_where p f t = t.
Proof.
  intros H. unfold update_where. rewrite <- (map_id t) at 2. apply map_ext_in.
  intros r Hr. by rewrite H.
Qed.

Lemma map_update_where {B} (g : R -> B) p f t :
  (forall r, p r = true -> g (f r) = g r) -> map g (update_where p f t) = map g t.
Proof.
  intros H. unfold update_where. rewrite map_map. apply map_ext. intros r.
  destruct (p r) eqn:E; auto.
Qed.

Lemma find_filter_head p t : List.find p t = hd_error (List.filter p t).
Proof. induction t as [|x t IH]; simpl; [done|]. by destruct (p x). Qed.

Lemma rows_affected_nonneg p t : (0 <= rows_affected p t)%Z.
Proof. unfold rows_affected. lia. Qed.

Lemma rows_affected_zero p t : rows_affected p t = 0%Z -> forall r, In r t -> p r = false.
Proof.
  unfold rows_affected. intros H r Hr. destruct (p r) eqn:E; [|done].
  assert (In r (List.filter p t)) as Hin by (apply filter_In; done).
  destruct (List.filter p t); simpl in *; [done|lia].
Qed.

Lemma rows_affected_pos p t : (0 < rows_affected p t)%Z <-> exists r, In r t /\ p r = true.
Proof.
  unfold rows_affected. split.
  - destruct (List.filter p t) as [|r l] eqn:E; simpl; [lia|].
    intros _. exists r. apply filter_In. rewrite E. by left.
  - intros (r & Hr & Hp).
    assert (In r (List.filter p t)) as Hin by (apply filter_In; done).
    destruct (List.filter p t); simpl in *; [done|lia].
Qed.

Lemma insert_or_ignore_cases (clash : R -> R -> bool) r t t' n :
  insert_or_ignore clash r t = (t', n) ->
  (t' = t /\ n = 0%Z /\ exists r0, In r0 t /\ clash r r0 = true) \/
  (t' = t ++ [r] /\ n = 1%Z /\ forall r0, In r0 t -> clash r r0 = false).
Proof.
  unfold insert_or_ignore. destruct (existsb (clash r) t) eqn:E; intros; simplify_eq.
  - left. apply existsb_exists in E as (x & ? & ?). eauto.
  - right. repeat split. intros r0 Hr0. eapply existsb_false_In; eauto.
Qed.
End StatementFacts.

(** ** Facts about [ORDER BY] *)

Section OrderFacts.
Context {R : Type} (le : R -> R -> bool).

Lemma insert_ordered_perm x t : Permutation (insert_ordered le x t) (x :: t).
Proof.
  induction t as [|y t IH]; simpl; [done|]. case_if; [done|].
  rewrite IH. apply perm_swap.
Qed.

Lemma order_by_perm t : Permutation (order_by le t) t.
Proof. induction t as [|x t IH]; simpl; [done|]. by rewrite insert_ordered_perm, IH. Qed.

Lemma In_order_by x t : In x (order_by le t) <-> In x t.
Proof. split; apply Permutation_in; [|symmetry]; apply order_by_perm. Qed.

Context (le_total : forall x y, le x y = true \/ le y x = true)
        (le_trans : forall x y z, le x y = true -> le y z = true -> le x z = true).

Abbreviation ordered := (StronglySorted (fun x y => le x y = true)).

Lemma insert_ordered_sorted x t : ordered t -> ordered (insert_ordered le x t).
Proof.
  induction t as [|y t IH]; simpl; intros H; [by repeat constructor|].
  apply StronglySorted_inv in H as [Ht Hy]. case_if.
  - repeat (constructor; try done). apply List.Forall_forall. intros z Hz.
    eapply le_trans; [done|]. by eapply List.Forall_forall in Hz; [|exact Hy].
  - constructor; [by apply IH|]. apply List.Forall_forall. intros z Hz.
    apply (Permutation_in z (insert_ordered_perm x t)) in Hz as [->|Hz].
    + destruct (le_total z y) as [?|?]; congruence.
    + by eapply List.Forall_forall in Hz; [|exact Hy].
Qed.

Lemma order_by_sorted t : ordered (order_by le t).
Proof. induction t; simpl; [constructor|]. by apply insert_ordered_sorted. Qed.

(** Searching an ordered table: a new row is found instead of the previous hit
    exactly when it satisfies the condition and comes before it. *)
Lemma find_insert_ordered p x t :
  ordered t ->
  List.find p (insert_ordered le x t) =
    match List.find p t with
    | Some y => if p x && le x y then Some x else Some y
    | None => if p x then Some x else None
    end.
Proof.
  induction t as [|y t IH]; intros Hs; simpl; [done|].
  apply StronglySorted_inv in Hs as [Ht Hy]. destruct (le x y) eqn:Exy; simpl.
  - destruct (p x) eqn:Ex; simpl; [|by repeat case_match].
    destruct (p y); [by rewrite Exy|]. destruct (List.find p t) as [z|] eqn:Ez; [|done].
    apply find_some in Ez as [Hz _]. eapply List.Forall_forall in Hz; [|exact Hy].
    by rewrite (le_trans x y z).
  - destruct (p y) eqn:Ey; [by rewrite Exy, andb_false_r|]. by apply IH.
Qed.

(** The first row of an ordered table that satisfies [p] is, among all rows of
    the table that satisfy [p], before every later row and strictly before
    every earlier one: ties go to the lower rowid. *)
Lemma find_order_by p t x :
  List.find p (order_by le t) = Some x ->
  exists t1 t2, t = t1 ++ x :: t2 /\ p x = true /\
    (forall y, In y t1 -> p y = true -> le y x = false) /\
    (forall y, In y t2 -> p y = true -> le x y = true).
Proof.
  revert x. induction t as [|a t IH]; intros x; simpl; [done|].
  rewrite find_insert_ordered by apply order_by_sorted.
  destruct (List.find p (order_by le t)) as [y|] eqn:E.
  - destruct (IH y eq_refl) as (t1 & t2 & -> & Hy & H1 & H2).
    destruct (p a && le a y) eqn:Ea; intros; simplify_eq; reflect_bools.
    + exists [], (t1 ++ y :: t2). repeat split; [done|done|].
      intros z [Hz|[->|Hz]]%in_app_or Hp; [|done|].
      * destruct (le_total z y) as [Hc|Hc]; [by rewrite H1 in Hc|].
        by eapply le_trans.
      * eapply le_trans; [done|]. by apply H2.
    + exists (a :: t1), t2. repeat split; [done| |done].
      intros z [<-|Hz] Hp; [|by apply H1]. apply andb_false_iff in Ea as []; congruence.
  - destruct (p a) eqn:Ea; intros; simplify_eq. exists [], t. repeat split; [done|done|].
    intros z Hz Hp. eapply find_none in E; [|by apply In_order_by]. congruence.
Qed.

(** A stable sort commutes with selection. *)
Lemma filter_insert_ordered p x t :
  ordered t ->
  List.filter p (insert_ordered le x t) =
    if p x then insert_ordered le x (List.filter p t) else List.filter p t.
Proof.
  induction t as [|y t IH]; intros Hs; simpl; [by destruct (p x)|].
  apply StronglySorted_inv in Hs as [Ht Hy]. destruct (le x y) eqn:Exy; simpl.
  - destruct (p x) eqn:Ex; [|done]. destruct (p y) eqn:Ey; [simpl; by rewrite Exy|].
    destruct (List.filter p t) as [|z l] eqn:Ez; [done|]. simpl.
    assert (In z t) as Hz by (eapply (proj1 (filter_In p z t)); rewrite Ez; by left).
    eapply List.Forall_forall in Hz; [|exact Hy]. by rewrite (le_trans x y z).
  - rewrite IH by done. destruct (p x), (p y); simpl; by rewrite ?Exy.
Qed.

Lemma order_by_filter p t : order_by le (List.filter p t) = List.filter p (order_by le t).
Proof.
  induction t as [|x t IH]; simpl; [done|].
  rewrite filter_insert_ordered by apply order_by_sorted. rewrite <- IH.
  by destruct (p x).
Qed.

Lemma find_order_by_None p t :
  List.find p (order_by le t) = None <-> forall r, In r t -> p r = false.
Proof.
  split.
  - intros E r Hr. eapply find_none; [done|]. by apply In_order_by.
  - intros H. destruct (List.find p (order_by le t)) as [y|] eqn:E; [|done].
    apply find_some in E as [Hy Hp]. rewrite (H y) in Hp; [done|]. by apply (In_order_by y t).
Qed.
End OrderFacts.

(** ** Facts about keyed tables *)

Section KeyFacts.
Context {R K : Type} `{Keyed R K}.
Implicit Types (p : R -> bool) (f : R -> R) (t : list R) (k : K).

Lemma lookup_key_Some k t r : lookup_key k t = Some r -> In r t /\ key r = k.
Proof. intros E. apply find_some in E as [? ?%bool_decide_eq_true_1]. done. Qed.

Lemma lookup_key_None k t : lookup_key k t = None <-> forall r, In r t -> key r <> k.
Proof.
  split.
  - intros E r Hr. eapply find_none in E; [|done]. by apply bool_decide_eq_false_1 in E.
  - intros Hk. destruct (lookup_key k t) as [r|] eqn:E; [|done].
    apply lookup_key_Some in E as [? ?]. by destruct (Hk r).
Qed.

Lemma keys_unique_inj t x y : keys_unique t -> In x t -> In y t -> key x = key y -> x = y.
Proof. apply NoDup_map_inj. Qed.

Lemma lookup_key_In t r : keys_unique t -> In r t -> lookup_key (key r) t = Some r.
Proof.
  intros Hu Hr. destruct (lookup_key (key r) t) as [r'|] eqn:E.
  - apply lookup_key_Some in E as [Hr' Hk]. f_equal.
    by apply (keys_unique_inj t).
  - rewrite lookup_key_None in E. by destruct (E r Hr).
Qed.

(** A row-wise change that keeps the keys acts on the row of each key. *)
Lemma lookup_map k (g : R -> R) t :
  (forall r, key (g r) = key r) -> lookup_key k (map g t) = option_map g (lookup_key k t).
Proof.
  intros Hg. unfold lookup_key. induction t as [|r t IH]; simpl; [done|].
  rewrite Hg. case_bool_decide; [done|]. apply IH.
Qed.

Lemma lookup_update k p f t :
  (forall r, key (f r) = key r) ->
  lookup_key k (update_where p f t) =
    option_map (fun r => if p r then f r else r) (lookup_key k t).
Proof. intros Hf. apply lookup_map. intros r. destruct (p r); auto. Qed.

Lemma lookup_app k t1 t2 :
  lookup_key k (t1 ++ t2) =
    match lookup_key k t1 with Some r => Some r | None => lookup_key k t2 end.
Proof.
  unfold lookup_key. induction t1 as [|a t1 IH]; simpl; [done|].
  destruct (bool_decide (key a = k)); [done|apply IH].
Qed.

Lemma lookup_snoc k t r :
  lookup_key k (t ++ [r]) =
    match lookup_key k t with
    | Some r0 => Some r0
    | None => if bool_decide (key r = k) then Some r else None
    end.
Proof. rewrite lookup_app. destruct (lookup_key k t); [done|]. unfold lookup_key. simpl. done. Qed.

Lemma keys_unique_update p f t :
  (forall r, key (f r) = key r) -> keys_unique t -> keys_unique (update_where p f t).
Proof. intros Hf Hu. unfold keys_unique. rewrite map_update_where; auto. Qed.

Lemma keys_unique_snoc t r :
  keys_unique t -> lookup_key (key r) t = None -> keys_unique (t ++ [r]).
Proof.
  intros Hu Hn. unfold keys_unique. rewrite map_app. apply NoDup_snoc; [done|].
  rewrite in_map_iff. intros (r' & Hk & Hr'). rewrite lookup_key_None in Hn. by eapply Hn.
Qed.

Lemma keys_unique_nil : keys_unique ([] : list R).
Proof. constructor. Qed.

Lemma keys_unique_single (r : R) : keys_unique [r].
Proof. constructor; [by intros []|constructor]. Qed.

Lemma keys_unique_filter p t : keys_unique t -> keys_unique (List.filter p t).
Proof.
  unfold keys_unique. induction t as [|r t IH]; simpl; [done|].
  intros [Hni Hnd]%NoDup_cons_iff. destruct (p r); simpl; [|auto].
  constructor; [|auto]. rewrite in_map_iff in *. intros (r' & Hk & Hr').
  apply filter_In in Hr' as [? _]. apply Hni. eauto.
Qed.

Lemma lookup_filter k p t :
  keys_unique t ->
  lookup_key k (List.filter p t) =
    match lookup_key k t with Some r => if p r then Some r else None | None => None end.
Proof.
  intros Hu. destruct (lookup_key k t) as [r|] eqn:E.
  - apply lookup_key_Some in E as [Hr <-]. destruct (p r) eqn:Ep.
    + apply lookup_key_In; [by apply keys_unique_filter|]. by apply filter_In.
    + apply lookup_key_None. intros r' [Hr' Hp]%filter_In Hk.
      assert (r' = r) as -> by by apply (keys_unique_inj t). congruence.
  - rewrite lookup_key_None in *. intros r' [Hr' _]%filter_In. by apply E.
Qed.

(** A statement whose condition pins the primary key affects at most one row,
    and exactly when the row of that key satisfies the condition. *)
Lemma rows_affected_key k p t :
  keys_unique t -> (forall r, p r = true -> key r = k) ->
  rows_affected p t =
    match lookup_key k t with Some r => if p r then 1%Z else 0%Z | None => 0%Z end.
Proof.
  intros Hu Hp. unfold rows_affected.
  assert (keys_unique (List.filter p t)) as Hf by by apply keys_unique_filter.
  destruct (lookup_key k t) as [r|] eqn:E; [destruct (p r) eqn:Ep|].
  - apply lookup_key_Some in E as [Hr Hk].
    assert (forall x, In x (List.filter p t) -> x = r) as Hall.
    { intros x [Hx Hpx]%filter_In. apply (keys_unique_inj t); auto. by rewrite (Hp x), Hk. }
    assert (In r (List.filter p t)) as Hin by by apply filter_In.
    destruct (List.filter p t) as [|a [|b l]]; simpl in *; [done|done|].
    exfalso. unfold keys_unique in Hf. simpl in Hf. apply NoDup_cons_iff in Hf as [Hni _].
    apply Hni. left. rewrite (Hall a), (Hall b); auto.
  - apply lookup_key_Some in E as [Hr Hk]. rewrite filter_all_false; [done|].
    intros x Hx. destruct (p x) eqn:Epx; [|done].
    assert (x = r) as -> by (apply (keys_unique_inj t); auto; by rewrite (Hp x), Hk). congruence.
  - rewrite lookup_key_None in E. rewrite filter_all_false; [done|].
    intros x Hx. destruct (p x) eqn:Epx; [|done]. by destruct (E x Hx); auto.
Qed.

Lemma query_row_key k p t :
  keys_unique t -> (forall r, p r = true -> key r = k) ->
  query_row p t =
    match lookup_key k t with Some r => if p r then Some r else None | None => None end.
Proof.
  intros Hu Hp. unfold query_row. destruct (List.find p t) as [x|] eqn:E.
  - apply find_some in E as [Hx Hpx]. rewrite <- (Hp x), (lookup_key_In t x), Hpx; done.
  - destruct (lookup_key k t) as [r|] eqn:Er; [|done].
    apply lookup_key_Some in Er as [Hr _]. by rewrite (find_none _ _ E).
Qed.
(** An update of the single row [c]. *)
Lemma update_where_one (hit : R -> bool) f t c :
  keys_unique t -> In c t -> (forall r, In r t -> hit r = true <-> r = c) ->
  exists t1 t2, t = t1 ++ c :: t2 /\ update_where hit f t = t1 ++ f c :: t2.
Proof.
  intros Hu Hin Hh. apply in_split in Hin as (t1 & t2 & ->). exists t1, t2. split; [done|].
  unfold keys_unique in Hu. rewrite map_app in Hu. apply NoDup_remove_2 in Hu.
  rewrite <- map_app in Hu.
  assert (forall r, In r (t1 ++ t2) -> hit r = false) as Hout.
  { intros r Hr. destruct (hit r) eqn:E; [|done]. apply Hh in E; [|apply in_app_or in Hr;
      apply in_or_app; simpl; tauto]. subst r. exfalso. by apply Hu, in_map. }
  assert (hit c = true) as Hc by (apply Hh; [apply in_or_app; right; by left|done]).
  unfold update_where. rewrite map_app. simpl. rewrite Hc. f_equal; [|f_equal].
  - rewrite <- (map_id t1) at 2. apply map_ext_in. intros r Hr. rewrite Hout; [done|].
    apply in_or_app. by left.
  - rewrite <- (map_id t2) at 2. apply map_ext_in. intros r Hr. rewrite Hout; [done|].
    apply in_or_app. by right.
Qed.

(** A statement that pins the key leaves the rows of other keys alone. *)
Lemma lookup_update_ne (cond : R -> bool) f t k k' :
  (forall r, cond r = true -> key r = k) -> (forall r, key (f r) = key r) -> k' <> k ->
  lookup_key k' (update_where cond f t) = lookup_key k' t.
Proof.
  intros Hc Hf Hne. rewrite lookup_update by done.
  destruct (lookup_key k' t) as [r|] eqn:E; [|done]. simpl.
  destruct (cond r) eqn:Ec; [|done]. apply Hc in Ec. apply lookup_key_Some in E as [_ E]. congruence.
Qed.
End KeyFacts.

#[export] Hint Resolve keys_unique_nil keys_unique_single keys_unique_update keys_unique_snoc keys_unique_filter : control.
