(* ===== verification/Admission.v ===== *)
(** * Admission snapshots ([internal/control/run_admission.go])

    The authority a Run or a queued request was admitted with, as it is
    normalised, validated, stored and read back.

    The stored column is modelled by what its text is: empty ([SNone]), one JSON
    object with only known fields ([SJson], holding the fields it decodes to), or
    anything else ([SUnreadable]). *)

From stdpp Require Import base tactics list strings.
From Stdlib Require Import ZArith Lia Bool Ascii String List.
From S2P Require Import Prelude GoLib.

(** ** Data *)

Record AdmissionStrategy := mkAdmissionStrategy {
  st_class : string;
  st_tool_mode : string;
  st_plan_policy : string;
  st_web_policy : string;
  st_channel_mode : string;
  st_verification_only : bool
}.

Record AdmissionOrigin := mkAdmissionOrigin { or_kind : string; or_id : string }.

Record AdmissionInput := mkAdmissionInput { in_kind : string; in_id : string; in_summary : string }.

Record AdmissionSnapshot := mkAdmissionSnapshot {
  ad_version : Z;
  ad_strategy : AdmissionStrategy;
  ad_recovery_mode : string;
  ad_execution_profile : string;
  ad_watch_id : string;
  ad_approval_mode : string;
  ad_origin : AdmissionOrigin;
  ad_standing_grants_authorized_at : Z;
  ad_admitted_at : Z;
  ad_input : AdmissionInput
}.

#[export] Instance AdmissionStrategy_eq_dec : EqDecision AdmissionStrategy.
Proof. solve_decision. Defined.
#[export] Instance AdmissionOrigin_eq_dec : EqDecision AdmissionOrigin.
Proof. solve_decision. Defined.
#[export] Instance AdmissionInput_eq_dec : EqDecision AdmissionInput.
Proof. solve_decision. Defined.
#[export] Instance AdmissionSnapshot_eq_dec : EqDecision AdmissionSnapshot.
Proof. solve_decision. Defined.

(** The zero value, which means "no snapshot". *)
Definition zeroSnapshot : AdmissionSnapshot :=
  mkAdmissionSnapshot 0 (mkAdmissionStrategy "" "" "" "" "" false) "" "" "" ""
    (mkAdmissionOrigin "" "") 0 0 (mkAdmissionInput "" "" "").

Definition snapshotIsZero (a : AdmissionSnapshot) : bool := bool_decide (a = zeroSnapshot).

Inductive stored_admission : Type :=
| SNone
| SJson (a : AdmissionSnapshot)
| SUnreadable (raw : string).

(** ** Known values *)

Definition AdmissionSnapshotVersion : Z := 1.
Definition admissionSummaryMaxRunes : nat := 240.
Definition admissionIdentifierMaxBytes : Z := 256.

Definition admissionTaskClasses : list string :=
  ["simple_answer"; "coding_example"; "stable_advice"; "external_lookup"; "repo_task";
   "debug_task"; "ci_cd_task"; "general_task"].
Definition admissionToolModes : list string := ["none"; "web"; "local_read"; "local_write"; "full"].
Definition admissionPlanPolicies : list string := ["disabled"; "optional"; "required"].
Definition admissionWebPolicies : list string := ["disabled"; "explicit_only"; "enabled"].
Definition admissionApprovalModes : list string :=
  ["on-request"; "read-only"; "auto-edit"; "full-auto"; "smart"].
Definition admissionExecutionProfiles : list string := [""; "watch-finalization"].
Definition admissionRecoveryModes : list string := [""; "continue"; "verify_only"].
Definition admissionOriginKinds : list string :=
  [""; "cron"; "watch"; "approval"; "recovery"; "resource"; "provider_wait"].
Definition admissionInputKinds : list string := [""; "event"; "channel_message"; "queue"].

Definition known (set : list string) (v : string) : bool := existsb (String.eqb v) set.

(** ** Normalisation *)

Definition normField (s : string) : string := TrimSpace (ToValidUTF8 s).

Definition normSummary (s : string) : string :=
  let s := normField s in
  if (admissionSummaryMaxRunes <? RuneCount s)%nat
  then TrimSpace (take_runes admissionSummaryMaxRunes s) else s.

Definition normalized (a : AdmissionSnapshot) : AdmissionSnapshot :=
  let s := ad_strategy a in
  mkAdmissionSnapshot (ad_version a)
    (mkAdmissionStrategy (normField (st_class s)) (normField (st_tool_mode s))
       (normField (st_plan_policy s)) (normField (st_web_policy s))
       (normField (st_channel_mode s)) (st_verification_only s))
    (normField (ad_recovery_mode a)) (normField (ad_execution_profile a))
    (normField (ad_watch_id a)) (normField (ad_approval_mode a))
    (mkAdmissionOrigin (normField (or_kind (ad_origin a))) (normField (or_id (ad_origin a))))
    (ad_standing_grants_authorized_at a) (ad_admitted_at a)
    (mkAdmissionInput (normField (in_kind (ad_input a))) (normField (in_id (ad_input a)))
       (normSummary (in_summary (ad_input a)))).

(** ** Validation *)

Definition checkShape (a : AdmissionSnapshot) : option error :=
  if negb (ad_version a =? AdmissionSnapshotVersion)%Z
  then Some (Errorf "unsupported admission snapshot version") else
  let s := ad_strategy a in
  if (st_class s =? "")%string || (st_tool_mode s =? "")%string || (st_plan_policy s =? "")%string
     || (st_web_policy s =? "")%string || (st_channel_mode s =? "")%string
     || (ad_approval_mode a =? "")%string
  then Some (Errorf "admission snapshot lacks its strategy or approval mode")
  else None.

(** The first field whose value is outside its known set. *)
Fixpoint unknownField (fields : list (string * list string)) : option error :=
  match fields with
  | [] => None
  | (v, set) :: rest =>
      if known set v then unknownField rest else Some (Errorf "unsupported admission value")
  end.

Definition validate (a : AdmissionSnapshot) : option error :=
  match checkShape a with
  | Some e => Some e
  | None =>
    let s := ad_strategy a in
    match unknownField
      [(st_class s, admissionTaskClasses); (st_tool_mode s, admissionToolModes);
       (st_plan_policy s, admissionPlanPolicies); (st_web_policy s, admissionWebPolicies);
       (ad_approval_mode a, admissionApprovalModes);
       (ad_execution_profile a, admissionExecutionProfiles);
       (ad_recovery_mode a, admissionRecoveryModes);
       (or_kind (ad_origin a), admissionOriginKinds);
       (in_kind (ad_input a), admissionInputKinds)] with
    | Some e => Some e
    | None =>
      if negb (Bool.eqb (in_kind (ad_input a) =? "")%string (in_id (ad_input a) =? "")%string)
      then Some (Errorf "admission input reference needs both its record kind and id")
      else if (or_kind (ad_origin a) =? "")%string && negb (or_id (ad_origin a) =? "")%string
      then Some (Errorf "admission origin source has no kind")
      else if (ad_standing_grants_authorized_at a <? 0)%Z
      then Some (Errorf "admission standing-grant cutoff is negative")
      else if (ad_admitted_at a <? 0)%Z
      then Some (Errorf "admission time is negative")
      else if existsb (fun f => (admissionIdentifierMaxBytes <? Z.of_nat (String.length f))%Z)
                [st_channel_mode s; ad_watch_id a; or_id (ad_origin a); in_id (ad_input a)]
      then Some (Errorf "admission snapshot value exceeds 256 bytes")
      else None
    end
  end.

(** ** Storage *)

Definition ErrAdmissionSnapshotUnreadable : string := "admission snapshot is unreadable".
Definition ErrResumeAdmissionMismatch : string :=
  "a resume row carries only the parked run's own admission snapshot".
Definition ErrQueuedAdmissionMismatch : string :=
  "a claimed run carries only its queue row's admission snapshot".

Definition decodeAdmissionSnapshot (raw : stored_admission) : res AdmissionSnapshot :=
  match raw with
  | SNone => Ok zeroSnapshot
  | SUnreadable _ => Err (Wrap "decode" (Sentinel ErrAdmissionSnapshotUnreadable))
  | SJson a =>
      match checkShape a with
      | Some _ => Err (Wrap "shape" (Sentinel ErrAdmissionSnapshotUnreadable))
      | None => Ok a
      end
  end.

Definition encodeAdmissionSnapshot (a : AdmissionSnapshot)
  : res (AdmissionSnapshot * stored_admission) :=
  if snapshotIsZero a then Ok (a, SNone) else
  let a := normalized a in
  match validate a with
  | Some e => Err e
  | None =>
      match decodeAdmissionSnapshot (SJson a) with
      | Ok read =>
          if bool_decide (read = a) then Ok (a, SJson a)
          else Err (Errorf "admission snapshot does not read back as written")
      | Err _ => Err (Errorf "admission snapshot does not read back as written")
      end
  end.

Definition parkedRunAdmissionJSON (supplied : AdmissionSnapshot) (parkedRaw : stored_admission)
  : res stored_admission :=
  if snapshotIsZero supplied then Ok parkedRaw else
  match encodeAdmissionSnapshot supplied with
  | Err e => Err e
  | Ok (norm, _) =>
      match decodeAdmissionSnapshot parkedRaw with
      | Err _ => Err (Sentinel ErrResumeAdmissionMismatch)
      | Ok parked =>
          if bool_decide (normalized parked = norm) then Ok parkedRaw
          else Err (Sentinel ErrResumeAdmissionMismatch)
      end
  end.

Definition queuedRunAdmissionJSON (supplied : AdmissionSnapshot) (queuedRaw : stored_admission)
  : res stored_admission :=
  match queuedRaw with
  | SNone =>
      match encodeAdmissionSnapshot supplied with
      | Ok (_, raw) => Ok raw
      | Err e => Err (Wrap "encode run admission snapshot" e)
      end
  | _ =>
      match decodeAdmissionSnapshot queuedRaw with
      | Err e => Err e
      | Ok queued =>
          if snapshotIsZero supplied then Ok queuedRaw else
          match encodeAdmissionSnapshot supplied with
          | Err _ => Err (Sentinel ErrQueuedAdmissionMismatch)
          | Ok (norm, _) =>
              if bool_decide (norm = normalized queued) then Ok queuedRaw
              else Err (Sentinel ErrQueuedAdmissionMismatch)
          end
      end
  end.
