(* ===== verification/Store.v ===== *)
(** * Shared parts of the control store

    The rows and helpers several components of [internal/control] use: the
    normalisation of names and tenants ([store.go]), the columns stored as JSON,
    root bindings ([executionenv/root_binding.go]), Run rows and Run events.

    A JSON column is modelled by the value its text encodes: [JVal v] for a text
    that decodes to [v], [JBad] for one that does not decode. *)

From stdpp Require Import base tactics list strings.
From Stdlib Require Import ZArith Lia Bool String List.
From S2P Require Import Prelude GoLib Sql Admission.

(** ** Names *)

Definition DefaultTenantID : string := "default".

Definition normalizeName (value fallback : string) : string :=
  let value := TrimSpace value in
  if (value =? "")%string then fallback else value.

Definition normalizeTenant (tenantID : string) : string := normalizeName tenantID DefaultTenantID.

(** [strings.TrimSpace(s) == ""], the guard on required arguments. *)
Definition blank (s : string) : bool := (TrimSpace s =? "")%string.

(** ** JSON columns *)

Inductive jcol (A : Type) : Type :=
| JVal (v : A)
| JBad (raw : string).
Arguments JVal {A} v.
Arguments JBad {A} raw.

(** ** Execution roots *)

Record GitBaseline := mkGitBaseline { gb_root : string; gb_common_dir : string; gb_commit : string }.

Record RootBinding := mkRootBinding {
  rb_path : string;
  rb_role : string;
  rb_access_cap : string;
  rb_source : string;
  rb_context_root : bool;
  rb_git_baseline : option GitBaseline
}.

(** [CloneRootBindings] copies the slice and the baselines it points to; values
    are unshared here, so the clone is the list itself. *)
Definition CloneRootBindings (l : list RootBinding) : list RootBinding := l.

(** ** Attachments *)

Record AttachmentRef := mkAttachmentRef {
  at_kind : string;
  at_path : string;
  at_mime_type : string;
  at_name : string;
  at_size : Z
}.

(** ** Runs *)

(** A [runs] row; NULL text columns read as the empty string, as every
    statement coalesces them. *)
Record Run := mkRun {
  run_id : string;
  run_execution_class : string;
  run_thread_id : string;
  run_tenant_id : string;
  run_person_id : string;
  run_workspace_id : string;
  run_execution_roots : jcol (list RootBinding);
  run_channel : string;
  run_input_summary : string;
  run_work_key : string;
  run_resumes_run_id : string;
  run_resumed_by_run_id : string;
  run_recovery_contract_version : Z;
  run_status : string;
  run_started_at : Z;
  run_finished_at : option Z;
  run_heartbeat_at : option Z;
  run_cancel_requested : bool;
  run_attention_dismissed_at : Z;
  run_last_error : string;
  run_admission : stored_admission
}.

#[export] Instance Run_eta : Eta Run := fun r =>
  mkRun (run_id r) (run_execution_class r) (run_thread_id r) (run_tenant_id r) (run_person_id r)
    (run_workspace_id r) (run_execution_roots r) (run_channel r) (run_input_summary r)
    (run_work_key r) (run_resumes_run_id r) (run_resumed_by_run_id r)
    (run_recovery_contract_version r) (run_status r) (run_started_at r) (run_finished_at r)
    (run_heartbeat_at r) (run_cancel_requested r) (run_attention_dismissed_at r)
    (run_last_error r) (run_admission r).

#[export] Instance run_keyed : Keyed Run string := run_id.

(** ** Events

    The values [json.Marshal] encodes into an event's payload column. *)
Inductive json : Type :=
| JNull
| JStr (s : string)
| JBool (b : bool)
| JInt (n : Z)
| JArr (items : list json)
| JObj (fields : list (string * json)).

(** A [task_events] row. *)
Record Event := mkEvent {
  ev_id : string;
  ev_cursor : Z;
  ev_thread_id : string;
  ev_run_id : string;
  ev_type : string;
  ev_visibility : string;
  ev_channel : string;
  ev_payload : json;
  ev_idempotency_key : string;
  ev_created_at : Z
}.

#[export] Instance Event_keyed : Keyed Event string := ev_id.

(** [GetRun]: an unreadable roots column is an error, a missing row is none. *)
Definition GetRun (runs : list Run) (tenantID runID : string) : res (option Run) :=
  if blank runID then Ok None else
  match query_row (fun r => (run_tenant_id r =? normalizeTenant tenantID)%string
                            && (run_id r =? runID)%string) runs with
  | None => Ok None
  | Some r =>
      match run_execution_roots r with
      | JVal _ => Ok (Some r)
      | JBad _ => Err (Errorf "decode run execution roots")
      end
  end.

(** The roots of a Run [GetRun] returned. *)
Definition run_roots (r : Run) : list RootBinding :=
  match run_execution_roots r with JVal l => l | JBad _ => [] end.

Definition resumableRunStatus (status : string) : bool :=
  existsb (String.eqb status) ["interrupted"; "waiting_user"; "verification_partial"; "blocked"].

Definition RunAcceptsQueuedContinuation (status : string) : bool :=
  existsb (String.eqb status)
    ["interrupted"; "waiting_user"; "waiting_external"; "verification_partial"; "blocked"].

(** [ORDER BY started_at DESC, id DESC]. *)
Definition run_newest_first (a b : Run) : bool :=
  (run_started_at b <? run_started_at a)%Z
  || (run_started_at a =? run_started_at b)%Z && (String.leb (run_id b) (run_id a)).

Definition ListUnresolvedRuns (runs : list Run) (tenantID personID taskID : string) (limit : Z)
  : list Run :=
  if blank personID || blank taskID then [] else
  let limit := if (limit <=? 0)%Z || (20 <? limit)%Z then 10%Z else limit in
  sql_limit limit
    (order_by run_newest_first
      (select_where (fun r =>
         (run_tenant_id r =? normalizeTenant tenantID)%string
         && (run_person_id r =? personID)%string
         && (run_thread_id r =? taskID)%string
         && (run_execution_class r =? "work")%string
         && resumableRunStatus (run_status r)
         && (run_resumed_by_run_id r =? "")%string
         && negb (existsb (fun child => (run_tenant_id child =? run_tenant_id r)%string
                                        && (run_resumes_run_id child =? run_id r)%string) runs))
       runs)).

(** ** Admission of a Run *)

Definition ErrAdmissionRunNotFound : string := "run is not available for this admission read".

Definition readRunAdmission (runs : list Run) (cond : Run -> bool) : res AdmissionSnapshot :=
  match query_row cond runs with
  | None => Err (Sentinel ErrAdmissionRunNotFound)
  | Some r => decodeAdmissionSnapshot (run_admission r)
  end.

Definition RunAdmissionSnapshot (runs : list Run) (tenantID runID : string) : res AdmissionSnapshot :=
  readRunAdmission runs (fun r => (run_tenant_id r =? normalizeTenant tenantID)%string
                                  && (run_id r =? TrimSpace runID)%string).

Definition ExactParentAdmissionSnapshot (runs : list Run) (tenantID personID parentRunID : string)
  : res AdmissionSnapshot :=
  let personID := TrimSpace personID in
  if (personID =? "")%string then Err (Sentinel ErrAdmissionRunNotFound) else
  readRunAdmission runs (fun r => (run_tenant_id r =? normalizeTenant tenantID)%string
                                  && (run_id r =? TrimSpace parentRunID)%string
                                  && (run_person_id r =? personID)%string).

(** ** Lemmas *)

Lemma normalizeName_idemp v f :
  TrimSpace f = f -> f <> "" -> normalizeName (normalizeName v f) f = normalizeName v f.
Proof.
  intros Hf Hne. unfold normalizeName.
  destruct (TrimSpace v =? "")%string eqn:E.
  - rewrite Hf. case_if; [|done]. done.
  - rewrite TrimSpace_idemp, E. done.
Qed.

Lemma normalizeTenant_idemp t : normalizeTenant (normalizeTenant t) = normalizeTenant t.
Proof. by apply normalizeName_idemp. Qed.

Lemma normalizeTenant_not_empty t : normalizeTenant t <> "".
Proof.
  unfold normalizeTenant, normalizeName. case_if; reflect_bools; [done|done].
Qed.

Lemma normalizeTenant_not_blank t : blank (normalizeTenant t) = false.
Proof.
  unfold blank, normalizeTenant, normalizeName. case_if; [by vm_compute|].
  by rewrite TrimSpace_idemp.
Qed.

Lemma GetRun_Some runs tenant rid r :
  GetRun runs tenant rid = Ok (Some r) ->
  In r runs /\ run_tenant_id r = normalizeTenant tenant /\ run_id r = rid.
Proof.
  unfold GetRun. case_if; [done|]. destruct (query_row _ runs) as [x|] eqn:E; [|done].
  apply find_some in E as [Hx Hp]. reflect_bools. case_match; [|done]. intros; by simplify_eq.
Qed.

#[export] Hint Rewrite normalizeTenant_idemp TrimSpace_idemp : control.
