(* ===== verification/Queue.v ===== *)
(** * Durable per-person task queue ([internal/control/queue.go])

    The [task_queue] table is a list of [QueueRow]s; [QueuedTask] is the struct
    the Go code reads rows into.  Every statement of the file is a definition on
    the table; the clock, generated identifiers and the tables a statement only
    reads are arguments.  The last part defines histories of queue operations
    and proves what holds across every history. *)

From stdpp Require Import base tactics list strings.
From Stdlib Require Import ZArith Lia Bool Ascii String List Permutation.
From S2P Require Import Prelude GoLib Sql Admission Store.

(** ** Constants *)

Definition QueueStatusQueued : string := "queued".
Definition QueueStatusStarted : string := "started".
Definition QueueStatusDone : string := "done".
Definition QueueStatusFailed : string := "failed".
Definition QueueStatusCancelled : string := "cancelled".

Definition QueueClassForeground : string := "foreground".
Definition QueueClassFinalization : string := "finalization".
Definition QueueClassRecovery : string := "recovery".
Definition QueueClassBackground : string := "background".
Definition QueueClassCron : string := "cron".

Definition QueuePriorityForeground : Z := 100.
Definition QueuePriorityFinalization : Z := 80.
Definition QueuePriorityRecovery : Z := 60.
Definition QueuePriorityBackground : Z := 50.
Definition QueuePriorityCron : Z := 20.

Definition normalizeQueueClass (class : string) : string :=
  let c := ToLower (TrimSpace class) in
  if (c =? QueueClassFinalization)%string then QueueClassFinalization
  else if (c =? QueueClassRecovery)%string then QueueClassRecovery
  else if (c =? QueueClassBackground)%string then QueueClassBackground
  else if (c =? QueueClassCron)%string then QueueClassCron
  else QueueClassForeground.

Definition queuePriorityForClass (class : string) : Z :=
  let c := normalizeQueueClass class in
  if (c =? QueueClassFinalization)%string then QueuePriorityFinalization
  else if (c =? QueueClassRecovery)%string then QueuePriorityRecovery
  else if (c =? QueueClassBackground)%string then QueuePriorityBackground
  else if (c =? QueueClassCron)%string then QueuePriorityCron
  else QueuePriorityForeground.

(** ** Rows and structs *)

Record QueueRow := mkQueueRow {
  q_id : string;
  q_tenant_id : string;
  q_person_id : string;
  q_channel : string;
  q_platform : string;
  q_platform_user_id : string;
  q_content : string;
  q_approval_mode : string;
  q_workspace_id : string;
  q_execution_roots_json : jcol (list RootBinding);
  q_thread_id : string;
  q_run_id : string;
  q_reply_to_run_id : string;
  q_approval_id : string;
  q_clarify_id : string;
  q_idempotency_key : string;
  q_class : string;
  q_priority : Z;
  q_not_before : Z;
  q_status : string;
  q_restarts : Z;
  q_claim_token : string;
  q_lease_until : Z;
  q_attempt_generation : Z;
  q_created_at : Z;
  q_attachments_json : jcol (list AttachmentRef);
  q_admission_json : stored_admission
}.

#[export] Instance QueueRow_eta : Eta QueueRow := fun r =>
  mkQueueRow (q_id r) (q_tenant_id r) (q_person_id r) (q_channel r) (q_platform r)
    (q_platform_user_id r) (q_content r) (q_approval_mode r) (q_workspace_id r)
    (q_execution_roots_json r) (q_thread_id r) (q_run_id r) (q_reply_to_run_id r)
    (q_approval_id r) (q_clarify_id r) (q_idempotency_key r) (q_class r) (q_priority r)
    (q_not_before r) (q_status r) (q_restarts r) (q_claim_token r) (q_lease_until r)
    (q_attempt_generation r) (q_created_at r) (q_attachments_json r) (q_admission_json r).

#[export] Instance QueueRow_keyed : Keyed QueueRow string := q_id.

Record QueuedTask := mkQueuedTask {
  t_ID : string;
  t_TenantID : string;
  t_PersonID : string;
  t_Channel : string;
  t_Platform : string;
  t_PlatformUserID : string;
  t_Content : string;
  t_ApprovalMode : string;
  t_WorkspaceID : string;
  t_ExecutionRoots : list RootBinding;
  t_Attachments : list AttachmentRef;
  t_TaskID : string;
  t_ReplyToRunID : string;
  t_ApprovalID : string;
  t_ClarifyID : string;
  t_RunID : string;
  t_IdempotencyKey : string;
  t_Class : string;
  t_Priority : Z;
  t_NotBefore : Time;
  t_Status : string;
  t_Restarts : Z;
  t_ClaimToken : string;
  t_LeaseUntil : Time;
  t_AttemptGeneration : Z;
  t_CreatedAt : Time;
  t_Admission : AdmissionSnapshot;
  t_AdmissionError : option error
}.

#[export] Instance QueuedTask_eta : Eta QueuedTask := fun q =>
  mkQueuedTask (t_ID q) (t_TenantID q) (t_PersonID q) (t_Channel q) (t_Platform q)
    (t_PlatformUserID q) (t_Content q) (t_ApprovalMode q) (t_WorkspaceID q) (t_ExecutionRoots q)
    (t_Attachments q) (t_TaskID q) (t_ReplyToRunID q) (t_ApprovalID q) (t_ClarifyID q) (t_RunID q)
    (t_IdempotencyKey q) (t_Class q) (t_Priority q) (t_NotBefore q) (t_Status q) (t_Restarts q)
    (t_ClaimToken q) (t_LeaseUntil q) (t_AttemptGeneration q) (t_CreatedAt q) (t_Admission q)
    (t_AdmissionError q).

(** [queueSourceKey]: platform, account and channel, separated by NUL bytes. *)
Definition nul : string := String Ascii.zero "".
Definition queueSourceKey (q : QueuedTask) : string :=
  (t_Platform q +:+ nul +:+ t_PlatformUserID q +:+ nul +:+ t_Channel q).

(** [setStoredAdmission]: an unreadable snapshot leaves the field zero and
    records a [QueuedAdmissionError]. *)
Definition setStoredAdmission (raw : stored_admission) : AdmissionSnapshot * option error :=
  match decodeAdmissionSnapshot raw with
  | Ok a => (a, None)
  | Err e => (zeroSnapshot, Some (Wrap "queued work" e))
  end.

(** [scanQueuedTask] with [queueSelectColumns]. *)
Definition scanQueuedTask (r : QueueRow) : res QueuedTask :=
  match q_execution_roots_json r with
  | JBad _ => Err (Errorf "decode queue execution roots")
  | JVal roots =>
      match q_attachments_json r with
      | JBad _ => Err (Errorf "decode attachments")
      | JVal attachments =>
          let '(admission, admissionError) := setStoredAdmission (q_admission_json r) in
          Ok (mkQueuedTask (q_id r) (q_tenant_id r) (q_person_id r) (q_channel r) (q_platform r)
                (q_platform_user_id r) (q_content r) (q_approval_mode r) (q_workspace_id r)
                roots attachments (q_thread_id r) (q_reply_to_run_id r) (q_approval_id r)
                (q_clarify_id r) (q_run_id r) (q_idempotency_key r) (q_class r) (q_priority r)
                (if (0 <? q_not_before r)%Z then TimeOfUnix (q_not_before r) else ZeroTime)
                (q_status r) (q_restarts r) (q_claim_token r)
                (if (0 <? q_lease_until r)%Z then TimeOfUnix (q_lease_until r) else ZeroTime)
                (q_attempt_generation r) (TimeOfUnix (q_created_at r)) admission admissionError)
      end
  end.

(** Rows read in a loop that stops at the first row that does not scan. *)
Fixpoint scanAll (rows : list QueueRow) : res (list QueuedTask) :=
  match rows with
  | [] => Ok []
  | r :: rest =>
      match scanQueuedTask r with
      | Err e => Err e
      | Ok q => match scanAll rest with Ok l => Ok (q :: l) | Err e => Err e end
      end
  end.

(** ** Conditions shared by the statements *)

(** [tenant_id = ? AND id = ?]. *)
Definition at_row (tenantID id : string) (r : QueueRow) : bool :=
  (q_tenant_id r =? normalizeTenant tenantID)%string && (q_id r =? id)%string.

(** [tenant_id = ? AND person_id = ?]. *)
Definition of_person (tenantID personID : string) (r : QueueRow) : bool :=
  (q_tenant_id r =? normalizeTenant tenantID)%string && (q_person_id r =? personID)%string.

Definition has_status (s : string) (r : QueueRow) : bool := (q_status r =? s)%string.
Definition unbound (r : QueueRow) : bool := (q_run_id r =? "")%string.
Definition due (now : Time) (r : QueueRow) : bool := (q_not_before r <=? Unix now)%Z.

(** [ORDER BY priority DESC, created_at ASC, rowid ASC]. *)
Definition scheduler_order (a b : QueueRow) : bool :=
  (q_priority b <? q_priority a)%Z
  || (q_priority a =? q_priority b)%Z && (q_created_at a <=? q_created_at b)%Z.

(** ** Admission-time queries *)

Definition HasPendingQueuedSource (now : Time)
    (tenantID personID platform platformUserID channel : string) (t : list QueueRow) : bool :=
  existsb (fun r => of_person tenantID personID r
    && (q_platform r =? platform)%string && (q_platform_user_id r =? platformUserID)%string
    && (q_channel r =? channel)%string
    && (has_status QueueStatusQueued r || has_status QueueStatusStarted r)
    && unbound r && due now r) t.

Definition HasDueQueuedWork (now : Time) (tenantID personID : string) (t : list QueueRow)
  : res bool :=
  if blank personID then Err (Errorf "person id is required") else
  Ok (existsb (fun r => of_person tenantID personID r
        && (has_status QueueStatusQueued r || has_status QueueStatusStarted r)
        && unbound r && due now r) t).

Record DueQueuedRoute := mkDueQueuedRoute {
  dr_TenantID : string; dr_PersonID : string; dr_Channel : string; dr_Platform : string }.

(** [GROUP BY tenant_id, person_id] with [MIN(rowid)]: the first row of each
    owner, in rowid order. *)
Fixpoint first_per_owner (seen : list (string * string)) (l : list QueueRow) : list QueueRow :=
  match l with
  | [] => []
  | r :: rest =>
      let owner := (q_tenant_id r, q_person_id r) in
      if existsb (fun o => bool_decide (o = owner)) seen then first_per_owner seen rest
      else r :: first_per_owner (owner :: seen) rest
  end.

Definition ListDueQueuedRoutes (now : Time) (limit : Z) (t : list QueueRow) : list DueQueuedRoute :=
  let limit := if (limit <? 1)%Z then (-1)%Z else limit in
  map (fun r => mkDueQueuedRoute (q_tenant_id r) (q_person_id r) (q_channel r) (q_platform r))
    (sql_limit limit
      (order_by (fun a b => (q_created_at a <=? q_created_at b)%Z)
        (first_per_owner []
          (select_where (fun r => has_status QueueStatusQueued r && due now r) t)))).

(** ** Enqueue *)

(** The stored deadline: whole seconds, rounded up. *)
Definition storedNotBefore (notBefore : Time) : Z :=
  if IsZero notBefore then 0%Z
  else if (NanosecondOf notBefore =? 0)%Z then Unix notBefore else (Unix notBefore + 1)%Z.

(** The struct as [EnqueueQueued] completes it before the insert. *)
Definition prepareQueued (uuid : string) (now : Time) (q : QueuedTask)
    (admission : AdmissionSnapshot) : QueuedTask :=
  let platform := normalizeName (t_Platform q) "cli" in
  let class := normalizeQueueClass (t_Class q) in
  mkQueuedTask
    (if (t_ID q =? "")%string then "queue_" +:+ uuid else t_ID q)
    (normalizeTenant (t_TenantID q)) (t_PersonID q)
    (normalizeName (t_Channel q) platform) platform (t_PlatformUserID q) (t_Content q)
    (t_ApprovalMode q) (t_WorkspaceID q) (t_ExecutionRoots q) (t_Attachments q) (t_TaskID q)
    (t_ReplyToRunID q) (t_ApprovalID q) (t_ClarifyID q) (t_RunID q)
    (TrimSpace (t_IdempotencyKey q)) class
    (if (t_Priority q =? 0)%Z then queuePriorityForClass class else t_Priority q)
    (t_NotBefore q) QueueStatusQueued (t_Restarts q) (t_ClaimToken q) (t_LeaseUntil q)
    (t_AttemptGeneration q) now admission (t_AdmissionError q).

(** The inserted row: columns the statement does not name take their defaults. *)
Definition queuedRow (q : QueuedTask) (admissionJSON : stored_admission) : QueueRow :=
  mkQueueRow (t_ID q) (t_TenantID q) (t_PersonID q) (t_Channel q) (t_Platform q)
    (t_PlatformUserID q) (t_Content q) (t_ApprovalMode q) (t_WorkspaceID q)
    (JVal (t_ExecutionRoots q)) (t_TaskID q) "" (t_ReplyToRunID q) (t_ApprovalID q)
    (t_ClarifyID q) (t_IdempotencyKey q) (t_Class q) (t_Priority q)
    (storedNotBefore (t_NotBefore q)) (t_Status q) 0 "" 0 0 (Unix (t_CreatedAt q))
    (JVal (t_Attachments q)) admissionJSON.

(** The unique index [(tenant_id, idempotency_key) WHERE idempotency_key != '']. *)
Definition same_idempotency (tenantID k : string) (r : QueueRow) : bool :=
  (q_tenant_id r =? tenantID)%string && (q_idempotency_key r =? k)%string.

Definition EnqueueQueued (uuid : string) (now : Time) (q : QueuedTask) (t : list QueueRow)
  : list QueueRow * res QueuedTask :=
  if blank (t_PersonID q) then (t, Err (Errorf "person id is required")) else
  if blank (t_Content q) then (t, Err (Errorf "content is required")) else
  match encodeAdmissionSnapshot (t_Admission q) with
  | Err e => (t, Err (Wrap "encode queue admission snapshot" e))
  | Ok (admission, admissionJSON) =>
      let q := prepareQueued uuid now q admission in
      if negb (t_IdempotencyKey q =? "")%string
         && existsb (same_idempotency (t_TenantID q) (t_IdempotencyKey q)) t
      then
        match query_row (same_idempotency (t_TenantID q) (t_IdempotencyKey q)) t with
        | Some dup =>
            match scanQueuedTask dup with
            | Ok d => (t, Ok d)
            | Err e => (t, Err (Wrap "load duplicate queued task" e))
            end
        | None => (t, Err (Errorf "no rows"))
        end
      else if existsb (fun r => (q_id r =? t_ID q)%string) t
      then (t, Err (Errorf "UNIQUE constraint failed: task_queue.id"))
      else (t ++ [queuedRow q admissionJSON], Ok q)
  end.

(** ** Claims *)

Definition defaultQueueClaimLease : Duration := (2 * Minute)%Z.

Definition claimLease (leaseFor : Duration) : Duration :=
  if (leaseFor <=? 0)%Z then defaultQueueClaimLease else leaseFor.

Definition claimable (now : Time) (tenantID id : string) (r : QueueRow) : bool :=
  at_row tenantID id r && has_status QueueStatusQueued r && unbound r && due now r.

Definition ClaimQueued (uuid : string) (now : Time) (tenantID id : string) (leaseFor : Duration)
    (t : list QueueRow) : list QueueRow * res (string * bool) :=
  if blank id then (t, Err (Errorf "queue id is required")) else
  let token := "claim_" +:+ uuid in
  let cond := claimable now tenantID id in
  let t' := update_where cond (fun r =>
    r <| q_status := QueueStatusStarted |> <| q_claim_token := token |>
      <| q_lease_until := Unix (Add now (claimLease leaseFor)) |>
      <| q_attempt_generation := (q_attempt_generation r + 1)%Z |>) t in
  if negb (rows_affected cond t =? 1)%Z then (t', Ok ("", false)) else (t', Ok (token, true)).

(** [status = 'started' AND claim_token = ?]. *)
Definition claimed_by (tenantID id token : string) (r : QueueRow) : bool :=
  at_row tenantID id r && has_status QueueStatusStarted r && (q_claim_token r =? token)%string.

Definition RenewQueuedClaim (now : Time) (tenantID id token : string) (leaseFor : Duration)
    (t : list QueueRow) : list QueueRow * res bool :=
  if blank id || blank token then (t, Ok false) else
  let cond := claimed_by tenantID id token in
  (update_where cond (fun r => r <| q_lease_until := Unix (Add now (claimLease leaseFor)) |>) t,
   Ok (rows_affected cond t =? 1)%Z).

Definition RequeueUnboundClaim (tenantID id token : string) (t : list QueueRow)
  : list QueueRow * res bool :=
  if blank id || blank token then (t, Err (Errorf "queue id and claim token are required")) else
  let cond := fun r => claimed_by tenantID id token r && unbound r in
  (update_where cond (fun r => r <| q_status := QueueStatusQueued |> <| q_claim_token := "" |>
                                 <| q_lease_until := 0%Z |>) t,
   Ok (rows_affected cond t =? 1)%Z).

Definition FailUnboundQueued (tenantID id token : string) (t : list QueueRow)
  : list QueueRow * res bool :=
  if blank id then (t, Err (Errorf "queue id is required")) else
  let status := if (token =? "")%string then QueueStatusQueued else QueueStatusStarted in
  let cond := fun r => at_row tenantID id r && has_status status r
                       && (q_claim_token r =? token)%string && unbound r in
  (update_where cond (fun r => r <| q_status := QueueStatusFailed |> <| q_claim_token := "" |>
                                 <| q_lease_until := 0%Z |>) t,
   Ok (rows_affected cond t =? 1)%Z).

Definition FinishQueuedClaim (tenantID id token status : string) (t : list QueueRow)
  : list QueueRow * res bool :=
  if blank id || blank token then (t, Err (Errorf "queue id and claim token are required")) else
  let cond := claimed_by tenantID id token in
  (update_where cond (fun r => r <| q_status := status |>) t,
   Ok (rows_affected cond t =? 1)%Z).

(** ** Listing and selection *)

Definition ListQueued (tenantID personID status : string) (t : list QueueRow)
  : res (list QueuedTask) :=
  if blank personID then Err (Errorf "person id is required") else
  let status := normalizeName status QueueStatusQueued in
  scanAll (order_by scheduler_order
    (select_where (fun r => of_person tenantID personID r && has_status status r) t)).

Definition ListDueQueuedContinuations (now : Time) (tenantID personID : string)
    (t : list QueueRow) : res (list QueuedTask) :=
  if blank personID then Err (Errorf "person id is required") else
  scanAll (select_where (fun r => of_person tenantID personID r
    && has_status QueueStatusQueued r && unbound r
    && negb (q_reply_to_run_id r =? "")%string && due now r) t).

(** The [NOT EXISTS] clause of [NextQueuedWhere]: an unbound claim of the same
    source. *)
Definition source_claimed (t : list QueueRow) (r : QueueRow) : bool :=
  existsb (fun held => (q_tenant_id held =? q_tenant_id r)%string
    && (q_person_id held =? q_person_id r)%string && (q_platform held =? q_platform r)%string
    && (q_platform_user_id held =? q_platform_user_id r)%string
    && (q_channel held =? q_channel r)%string && has_status QueueStatusStarted held
    && unbound held) t.

(** The rows [NextQueuedWhere] selects, before ordering. *)
Definition selectable (now : Time) (tenantID personID : string) (t : list QueueRow) (r : QueueRow)
  : bool :=
  of_person tenantID personID r && has_status QueueStatusQueued r && unbound r && due now r
  && negb (source_claimed t r).

(** The scan loop; [held] is the set of sources behind an unreadable row. *)
Fixpoint next_scan (eligible : option (QueuedTask -> bool)) (held : list string)
    (rows : list QueueRow) : res (option QueuedTask) :=
  match rows with
  | [] => Ok None
  | r :: rest =>
      match scanQueuedTask r with
      | Err e => Err e
      | Ok q =>
          let source := queueSourceKey q in
          if existsb (String.eqb source) held then next_scan eligible held rest
          else match t_AdmissionError q with
               | Some _ => next_scan eligible (source :: held) rest
               | None =>
                   if (match eligible with None => true | Some f => f q end) then Ok (Some q)
                   else next_scan eligible held rest
               end
      end
  end.

Definition NextQueuedWhere (now : Time) (tenantID personID : string)
    (eligible : option (QueuedTask -> bool)) (t : list QueueRow) : res (option QueuedTask) :=
  if blank personID then Err (Errorf "person id is required") else
  next_scan eligible [] (order_by scheduler_order
    (select_where (selectable now tenantID personID t) t)).

Definition NextQueued (now : Time) (tenantID personID : string) (t : list QueueRow)
  : res (option QueuedTask) := NextQueuedWhere now tenantID personID None t.

Definition scanRow (o : option QueueRow) : res (option QueuedTask) :=
  match o with
  | None => Ok None
  | Some r => match scanQueuedTask r with Ok q => Ok (Some q) | Err e => Err e end
  end.

Definition GetQueued (tenantID id : string) (t : list QueueRow) : res (option QueuedTask) :=
  scanRow (query_row (at_row tenantID id) t).

Definition GetQueuedByIdempotencyKey (tenantID k : string) (t : list QueueRow)
  : res (option QueuedTask) :=
  let k := TrimSpace k in
  if (k =? "")%string then Ok None
  else scanRow (query_row (same_idempotency (normalizeTenant tenantID) k) t).

Definition CountQueued (tenantID personID status : string) (t : list QueueRow) : res Z :=
  if blank personID then Err (Errorf "person id is required") else
  Ok (rows_affected (fun r => of_person tenantID personID r
        && has_status (normalizeName status QueueStatusQueued) r) t).

Definition ListAllQueued (now : Time) (status : string) (t : list QueueRow)
  : res (list QueuedTask) :=
  let status := normalizeName status QueueStatusQueued in
  scanAll (order_by scheduler_order (select_where (fun r => has_status status r && due now r) t)).

(** ** System rows and Run binding *)

Definition UpdateSystemQueuedContent (tenantID id content : string) (t : list QueueRow)
  : list QueueRow * res bool :=
  if blank id then (t, Err (Errorf "queue id is required")) else
  let cond := fun r => at_row tenantID id r && negb (q_idempotency_key r =? "")%string
                       && negb (has_status QueueStatusCancelled r) in
  (update_where cond (fun r => r <| q_content := content |>) t,
   Ok (rows_affected cond t =? 1)%Z).

Definition RequeueSystemQueued (now : Time) (tenantID id : string) (maxRestarts : Z)
    (t : list QueueRow) : list QueueRow * res bool :=
  if blank id then (t, Err (Errorf "queue id is required")) else
  let maxRestarts := if (maxRestarts <? 1)%Z then 1%Z else maxRestarts in
  let cond := fun r => at_row tenantID id r && negb (q_idempotency_key r =? "")%string
    && unbound r
    && (has_status QueueStatusFailed r
        || has_status QueueStatusStarted r && (q_lease_until r <=? Unix now)%Z)
    && (q_restarts r <? maxRestarts)%Z in
  (update_where cond (fun r => r <| q_status := QueueStatusQueued |> <| q_run_id := "" |>
      <| q_restarts := (q_restarts r + 1)%Z |> <| q_claim_token := "" |>
      <| q_lease_until := 0%Z |>) t,
   Ok (rows_affected cond t =? 1)%Z).

Definition BindQueuedRun (tenantID id runID : string) (t : list QueueRow)
  : list QueueRow * res unit :=
  if blank id || blank runID then (t, Err (Errorf "queue id and run id are required")) else
  let cond := fun r => at_row tenantID id r && has_status QueueStatusStarted r
    && ((q_run_id r =? "")%string || (q_run_id r =? runID)%string) in
  (update_where cond (fun r => r <| q_run_id := runID |>) t,
   if negb (rows_affected cond t =? 1)%Z
   then Err (Errorf "queue row is not started or is already bound to another run")
   else Ok tt).

Definition BindQueuedRunClaimed (tenantID id runID token : string) (t : list QueueRow)
  : list QueueRow * res unit :=
  if blank id || blank runID || blank token
  then (t, Err (Errorf "queue id, run id, and claim token are required")) else
  let cond := fun r => at_row tenantID id r && has_status QueueStatusStarted r
    && (q_claim_token r =? token)%string
    && ((q_run_id r =? "")%string || (q_run_id r =? runID)%string) in
  (update_where cond (fun r => r <| q_run_id := runID |>) t,
   if negb (rows_affected cond t =? 1)%Z
   then Err (Errorf "queue claim is stale or already bound to another run")
   else Ok tt).

Definition RunHasSuccessfulTerminalEvent (runID : string) (events : list Event) : bool :=
  let runID := TrimSpace runID in
  if (runID =? "")%string then false else
  (0 <? rows_affected (fun e => (ev_run_id e =? runID)%string
                                && (ev_type e =? "run.finished")%string) events)%Z.

Definition MarkQueued (tenantID id status : string) (t : list QueueRow)
  : list QueueRow * res unit :=
  if blank id then (t, Err (Errorf "queue id is required")) else
  (update_where (at_row tenantID id)
     (fun r => r <| q_status := normalizeName status QueueStatusQueued |>
                 <| q_claim_token := "" |> <| q_lease_until := 0%Z |>) t, Ok tt).

Definition MarkQueuedIfStatus (tenantID id fromStatus toStatus : string) (t : list QueueRow)
  : list QueueRow * res bool :=
  if blank id then (t, Err (Errorf "queue id is required")) else
  let cond := fun r => at_row tenantID id r
                       && has_status (normalizeName fromStatus QueueStatusQueued) r in
  (update_where cond (fun r => r <| q_status := normalizeName toStatus QueueStatusQueued |>
                                 <| q_claim_token := "" |> <| q_lease_until := 0%Z |>) t,
   Ok (rows_affected cond t =? 1)%Z).

(** ** Boot recovery *)

Definition maxQueueRestarts : Z := 1.

(** [EXISTS (SELECT 1 FROM task_events e WHERE e.run_id = ... AND e.type = 'run.finished')]. *)
Definition run_finished (events : list Event) (r : QueueRow) : bool :=
  existsb (fun e => (ev_run_id e =? q_run_id r)%string && (ev_type e =? "run.finished")%string)
    events.

(** [EXISTS (SELECT 1 FROM runs r WHERE ... AND r.status = 'running')]. *)
Definition run_live (runs : list Run) (r : QueueRow) : bool :=
  existsb (fun x => (run_tenant_id x =? q_tenant_id r)%string && (run_id x =? q_run_id r)%string
                    && (run_status x =? "running")%string) runs.

Definition boot_settled (events : list Event) (r : QueueRow) : bool :=
  (has_status QueueStatusStarted r || has_status QueueStatusQueued r)
  && negb (unbound r) && run_finished events r.

Definition boot_replayable (r : QueueRow) : bool :=
  has_status QueueStatusStarted r && (q_restarts r <? maxQueueRestarts)%Z
  && negb (sql_like_prefix (q_idempotency_key r) "run-recovery:") && unbound r.

Definition boot_dropped (runs : list Run) (r : QueueRow) : bool :=
  (has_status QueueStatusStarted r || has_status QueueStatusQueued r && negb (unbound r))
  && negb (run_live runs r).

Definition RequeueStartedQueued (events : list Event) (runs : list Run) (t : list QueueRow)
  : list QueueRow * (Z * Z) :=
  let t1 := update_where (boot_settled events) (fun r => r <| q_status := QueueStatusDone |>) t in
  let t2 := update_where boot_replayable (fun r => r <| q_status := QueueStatusQueued |>
      <| q_run_id := "" |> <| q_restarts := (q_restarts r + 1)%Z |> <| q_claim_token := "" |>
      <| q_lease_until := 0%Z |>) t1 in
  let t3 := update_where (boot_dropped runs) (fun r => r <| q_status := QueueStatusFailed |>) t2 in
  (t3, (rows_affected boot_replayable t1, rows_affected (boot_dropped runs) t2)).

(** ** Histories

    A history is a sequence of the state-changing operations above, in the order
    their statements commit. *)

Inductive queue_op : Type :=
| OpEnqueue (uuid : string) (now : Time) (q : QueuedTask)
| OpClaim (uuid : string) (now : Time) (tenantID id : string) (leaseFor : Duration)
| OpRenew (now : Time) (tenantID id token : string) (leaseFor : Duration)
| OpRequeueClaim (tenantID id token : string)
| OpFailUnbound (tenantID id token : string)
| OpFinishClaim (tenantID id token status : string)
| OpUpdateContent (tenantID id content : string)
| OpRequeueSystem (now : Time) (tenantID id : string) (maxRestarts : Z)
| OpBind (tenantID id runID : string)
| OpBindClaimed (tenantID id runID token : string)
| OpMark (tenantID id status : string)
| OpMarkIf (tenantID id fromStatus toStatus : string)
| OpBoot (events : list Event) (runs : list Run).

Definition exec_op (op : queue_op) (t : list QueueRow) : list QueueRow :=
  match op with
  | OpEnqueue uuid now q => fst (EnqueueQueued uuid now q t)
  | OpClaim uuid now tn id d => fst (ClaimQueued uuid now tn id d t)
  | OpRenew now tn id tok d => fst (RenewQueuedClaim now tn id tok d t)
  | OpRequeueClaim tn id tok => fst (RequeueUnboundClaim tn id tok t)
  | OpFailUnbound tn id tok => fst (FailUnboundQueued tn id tok t)
  | OpFinishClaim tn id tok s => fst (FinishQueuedClaim tn id tok s t)
  | OpUpdateContent tn id c => fst (UpdateSystemQueuedContent tn id c t)
  | OpRequeueSystem now tn id m => fst (RequeueSystemQueued now tn id m t)
  | OpBind tn id rid => fst (BindQueuedRun tn id rid t)
  | OpBindClaimed tn id rid tok => fst (BindQueuedRunClaimed tn id rid tok t)
  | OpMark tn id s => fst (MarkQueued tn id s t)
  | OpMarkIf tn id f s => fst (MarkQueuedIfStatus tn id f s t)
  | OpBoot ev runs => fst (RequeueStartedQueued ev runs t)
  end.

Definition exec_ops (ops : list queue_op) (t : list QueueRow) : list QueueRow :=
  fold_left (fun t op => exec_op op t) ops t.

(** What no operation of the queue ever changes in a stored row. *)
Record row_frozen (r r' : QueueRow) : Prop := {
  fr_id : q_id r' = q_id r;
  fr_tenant : q_tenant_id r' = q_tenant_id r;
  fr_person : q_person_id r' = q_person_id r;
  fr_key : q_idempotency_key r' = q_idempotency_key r;
  fr_not_before : q_not_before r' = q_not_before r;
  fr_roots : q_execution_roots_json r' = q_execution_roots_json r;
  fr_attachments : q_attachments_json r' = q_attachments_json r;
  fr_admission : q_admission_json r' = q_admission_json r;
  fr_thread : q_thread_id r' = q_thread_id r;
  fr_reply : q_reply_to_run_id r' = q_reply_to_run_id r;
  fr_approval : q_approval_id r' = q_approval_id r;
  fr_clarify : q_clarify_id r' = q_clarify_id r;
  fr_created : q_created_at r' = q_created_at r
}.

(** What one operation may do to one row: the frozen columns are kept, a bound
    Run stays bound, the attempt generation and the restart count never
    decrease, and a claim token is kept, cleared, or replaced by the token of a
    claim. *)
Record row_step (op : queue_op) (r r' : QueueRow) : Prop := {
  rs_frozen : row_frozen r r';
  rs_run : q_run_id r <> "" -> q_run_id r' = q_run_id r;
  rs_generation : (q_attempt_generation r <= q_attempt_generation r')%Z;
  rs_restarts : (q_restarts r <= q_restarts r')%Z;
  rs_token : q_claim_token r' = q_claim_token r \/ q_claim_token r' = "" \/
             exists uuid now tn id d, op = OpClaim uuid now tn id d /\
               q_claim_token r' = "claim_" +:+ uuid
}.

(** Each operation maps the rows one by one and may append one new row. *)
Definition appended (t : list QueueRow) (new : list QueueRow) : Prop :=
  new = [] \/ exists uuid now q0 adm q a,
    q = prepareQueued uuid now q0 adm /\ new = [queuedRow q a] /\ (forall r, In r t -> q_id r <> t_ID q) /\
    (t_IdempotencyKey q = "" \/
     forall r, In r t -> ~ (q_tenant_id r = t_TenantID q /\
                            q_idempotency_key r = t_IdempotencyKey q)).

Lemma row_frozen_refl r : row_frozen r r.
Proof. by constructor. Qed.

Lemma row_step_refl op r : row_step op r r.
Proof. constructor; [apply row_frozen_refl|done|lia|lia|by left]. Qed.

Lemma row_frozen_trans a b c : row_frozen a b -> row_frozen b c -> row_frozen a c.
Proof. intros [] []. constructor; congruence. Qed.

Lemma row_step_trans op a b c : row_step op a b -> row_step op b c -> row_step op a c.
Proof.
  intros [F1 R1 G1 N1 T1] [F2 R2 G2 N2 T2]. constructor.
  - by eapply row_frozen_trans.
  - intros H. rewrite R2; [auto|]. by rewrite R1.
  - lia.
  - lia.
  - destruct T2 as [T2|[T2|T2]]; [rewrite T2|..]; auto.
Qed.

#[export] Hint Resolve row_frozen_refl row_step_refl : control.

(** An [UPDATE] whose row change is a [row_step] is a row-wise step. *)
Lemma update_where_step op cond f t :
  (forall r, cond r = true -> row_step op r (f r)) ->
  exists g, update_where cond f t = map g t /\ forall r, row_step op r (g r).
Proof.
  intros H. exists (fun r => if cond r then f r else r). split; [done|].
  intros r. destruct (cond r) eqn:E; auto with control.
Qed.

Lemma appends_nothing t : exists new, t = t ++ new /\ appended t new.
Proof. exists []. rewrite app_nil_r. split; [done|by left]. Qed.

Lemma enqueue_appends uuid now q t :
  exists new, fst (EnqueueQueued uuid now q t) = t ++ new /\ appended t new.
Proof.
  unfold EnqueueQueued. case_if; [apply appends_nothing|]. case_if; [apply appends_nothing|].
  destruct (encodeAdmissionSnapshot _) as [[a raw]|e]; [|apply appends_nothing].
  set (p := prepareQueued _ _ _ _). cbv zeta.
  destruct (negb _ && _) eqn:Ek; [repeat case_match; apply appends_nothing|].
  destruct (existsb (fun r => (q_id r =? t_ID p)%string) t) eqn:Ei; [apply appends_nothing|].
  exists [queuedRow p raw]. split; [done|]. right.
  exists uuid, now, q, a, p, raw. split; [done|]. split; [done|]. split.
  - intros r Hr Heq. eapply existsb_false_In in Ei; [|done]. simpl in Ei.
    by rewrite Heq, String.eqb_refl in Ei.
  - apply andb_false_iff in Ek as [?|Hk]; reflect_bools; [by left|right].
    intros r Hr [Ht Hi]. eapply existsb_false_In in Hk; [|done].
    unfold same_idempotency in Hk. rewrite Ht, Hi, !String.eqb_refl in Hk. done.
Qed.

(** A row change that only sets mutable columns other than the Run and the claim
    is a step. *)
Ltac solve_row_step :=
  constructor; [by constructor|intros ?; reflect_bools; simpl; try congruence; try done
               |simpl; lia|simpl; lia|simpl; auto].

(** Boot recovery, row by row: the three statements of its transaction. *)
Definition boot_settle (ev : list Event) (r : QueueRow) : QueueRow :=
  if boot_settled ev r then r <| q_status := QueueStatusDone |> else r.
Definition boot_replay (r : QueueRow) : QueueRow :=
  if boot_replayable r then r <| q_status := QueueStatusQueued |>
      <| q_run_id := "" |> <| q_restarts := (q_restarts r + 1)%Z |> <| q_claim_token := "" |>
      <| q_lease_until := 0%Z |> else r.
Definition boot_drop (runs : list Run) (r : QueueRow) : QueueRow :=
  if boot_dropped runs r then r <| q_status := QueueStatusFailed |> else r.

Lemma boot_rows ev runs t :
  fst (RequeueStartedQueued ev runs t) =
    map (fun r => boot_drop runs (boot_replay (boot_settle ev r))) t.
Proof. unfold RequeueStartedQueued, update_where. simpl. by rewrite !map_map. Qed.

Lemma boot_step ev runs r :
  row_step (OpBoot ev runs) r (boot_drop runs (boot_replay (boot_settle ev r))).
Proof.
  eapply row_step_trans; [|eapply row_step_trans].
  - instantiate (1 := boot_settle ev r). unfold boot_settle.
    case_if; [solve_row_step|apply row_step_refl].
  - instantiate (1 := boot_replay (boot_settle ev r)). generalize (boot_settle ev r). clear r.
    intros r. unfold boot_replay. case_if; [|apply row_step_refl].
    unfold boot_replayable, unbound in *. solve_row_step.
  - generalize (boot_replay (boot_settle ev r)). clear r. intros r. unfold boot_drop.
    case_if; [solve_row_step|apply row_step_refl].
Qed.

Lemma exec_op_rows op t :
  exists g new, exec_op op t = map g t ++ new /\ (forall r, row_step op r (g r)) /\
    appended t new.
Proof.
  assert (forall t', (exists g, t' = map g t /\ forall r, row_step op r (g r)) ->
            exists g new, t' = map g t ++ new /\ (forall r, row_step op r (g r)) /\
              appended t new) as Hmap.
  { intros t' (g & -> & Hg). exists g, []. rewrite app_nil_r. split; [done|]. by split; [|left]. }
  assert (exists g, t = map g t /\ forall r, row_step op r (g r)) as Hid.
  { exists id. rewrite map_id. split; [done|]. intros. apply row_step_refl. }
  destruct op; cbn [exec_op].
  - destruct (enqueue_appends uuid now q t) as (new & -> & Hnew).
    exists id, new. rewrite map_id. split; [done|]. split; [|done]. intros. apply row_step_refl.
  - apply Hmap. unfold ClaimQueued. case_if; [done|]. cbv zeta. case_if; apply update_where_step.
    all: intros r Hr; solve_row_step; right; right; eauto 10.
  - apply Hmap. unfold RenewQueuedClaim. case_if; [done|]. apply update_where_step.
    intros r Hr. solve_row_step.
  - apply Hmap. unfold RequeueUnboundClaim. case_if; [done|]. apply update_where_step.
    intros r Hr. solve_row_step.
  - apply Hmap. unfold FailUnboundQueued. case_if; [done|]. apply update_where_step.
    intros r Hr. solve_row_step.
  - apply Hmap. unfold FinishQueuedClaim. case_if; [done|]. apply update_where_step.
    intros r Hr. solve_row_step.
  - apply Hmap. unfold UpdateSystemQueuedContent. case_if; [done|]. apply update_where_step.
    intros r Hr. solve_row_step.
  - apply Hmap. unfold RequeueSystemQueued. case_if; [done|]. apply update_where_step.
    unfold unbound. intros r Hr. solve_row_step.
  - apply Hmap. unfold BindQueuedRun. case_if; [done|]. apply update_where_step.
    intros r Hr. solve_row_step. destruct_or!; reflect_bools; congruence.
  - apply Hmap. unfold BindQueuedRunClaimed. case_if; [done|]. apply update_where_step.
    intros r Hr. solve_row_step. destruct_or!; reflect_bools; congruence.
  - apply Hmap. unfold MarkQueued. case_if; [done|]. apply update_where_step.
    intros r Hr. solve_row_step.
  - apply Hmap. unfold MarkQueuedIfStatus. case_if; [done|]. apply update_where_step.
    intros r Hr. solve_row_step.
  - apply Hmap. rewrite boot_rows. eexists. split; [reflexivity|]. intros r. apply boot_step.
Qed.
