(* ===== verification/QueueTheory.v ===== *)
(** * Properties of the task queue

    Well-formedness across every history, permanence of a Run binding, inertness
    of stale claim tokens, exclusive claims, idempotent enqueue, deadlines, boot
    recovery, and the selection order. *)

From stdpp Require Import base tactics list strings.
From Stdlib Require Import ZArith Lia Bool Ascii String List Permutation Sorted.
From S2P Require Import Prelude GoLib Sql Admission Store Queue.

(** ** Histories act row by row *)

Lemma row_step_key op r r' : row_step op r r' -> key r' = key r.
Proof. by intros [[] _ _ _ _]. Qed.

Lemma lookup_exec_op op t k r :
  lookup_key k t = Some r ->
  exists r', lookup_key k (exec_op op t) = Some r' /\ row_step op r r'.
Proof.
  intros Hr. destruct (exec_op_rows op t) as (g & new & -> & Hg & _).
  exists (g r). split; [|apply Hg].
  rewrite lookup_app, lookup_map, Hr; [done|]. intros x. eapply row_step_key, Hg.
Qed.

(** A reflexive and transitive row property that every operation respects holds
    between a row and its descendant after any history. *)
Lemma lookup_exec_ops (P : QueueRow -> QueueRow -> Prop) (ok : queue_op -> Prop) :
  (forall r, P r r) -> (forall a b c, P a b -> P b c -> P a c) ->
  (forall op r r', ok op -> row_step op r r' -> P r r') ->
  forall ops t k r, Forall ok ops -> lookup_key k t = Some r ->
    exists r', lookup_key k (exec_ops ops t) = Some r' /\ P r r'.
Proof.
  intros Hrefl Htrans Hstep ops. induction ops as [|op ops IH]; intros t k r Hok Hr; simpl.
  - eauto.
  - inversion Hok as [|? ? Hop Hops]; subst.
    destruct (lookup_exec_op op t k r Hr) as (r1 & Hr1 & Hs).
    destruct (IH (exec_op op t) k r1 Hops Hr1) as (r2 & Hr2 & HP).
    exists r2. split; [done|]. eapply Htrans; [|done]. by eapply Hstep.
Qed.

Lemma Forall_true (ops : list queue_op) : Forall (fun _ => True) ops.
Proof. by apply Forall_forall. Qed.

Lemma frozen_exec_ops ops t k r :
  lookup_key k t = Some r ->
  exists r', lookup_key k (exec_ops ops t) = Some r' /\ row_frozen r r' /\
    (q_run_id r <> "" -> q_run_id r' = q_run_id r) /\ (q_restarts r <= q_restarts r')%Z.
Proof.
  intros Hr.
  apply (lookup_exec_ops (fun r r' => row_frozen r r' /\
    (q_run_id r <> "" -> q_run_id r' = q_run_id r) /\ (q_restarts r <= q_restarts r')%Z)
    (fun _ => True)) with (t := t); auto using Forall_true.
  - intros x. split; [apply row_frozen_refl|]. split; [done|lia].
  - intros a b c (F1 & R1 & N1) (F2 & R2 & N2). split; [by eapply row_frozen_trans|].
    split; [|lia]. intros H. rewrite R2; [auto|]. by rewrite R1.
  - intros op x y _ []. auto.
Qed.

(** ** Well-formedness *)

Record queue_wf (t : list QueueRow) : Prop := {
  wf_ids : keys_unique t;
  wf_keys : forall r r', In r t -> In r' t -> q_idempotency_key r <> "" ->
    q_tenant_id r = q_tenant_id r' -> q_idempotency_key r = q_idempotency_key r' -> r = r';
  wf_tenants : forall r, In r t -> normalizeTenant (q_tenant_id r) = q_tenant_id r
}.

Lemma queue_wf_nil : queue_wf [].
Proof. constructor; [constructor|done|done]. Qed.

Lemma queue_wf_map op (g : QueueRow -> QueueRow) t :
  (forall r, row_step op r (g r)) -> queue_wf t -> queue_wf (map g t).
Proof.
  intros Hg [Hi Hk Ht]. constructor.
  - unfold keys_unique. rewrite map_map.
    rewrite (map_ext (fun x => key (g x)) key); [done|]. intros r. eapply row_step_key, Hg.
  - intros r r' (x & <- & Hx)%in_map_iff (y & <- & Hy)%in_map_iff.
    destruct (Hg x) as [[] _ _ _ _], (Hg y) as [[] _ _ _ _].
    intros. f_equal. apply Hk; congruence.
  - intros r (x & <- & Hx)%in_map_iff. destruct (Hg x) as [[] _ _ _ _].
    rewrite fr_tenant. auto.
Qed.

Lemma queue_wf_append t new : queue_wf t -> appended t new -> queue_wf (t ++ new).
Proof.
  intros [Hi Hk Ht] [->|(uuid & now & q0 & adm & q & a & -> & -> & Hid & Hkey)];
    [by rewrite app_nil_r|].
  constructor.
  - apply keys_unique_snoc; [done|]. apply lookup_key_None. intros r Hr. by apply Hid.
  - assert (forall r, In r t -> q_idempotency_key r <> "" ->
        q_tenant_id r = q_tenant_id (queuedRow (prepareQueued uuid now q0 adm) a) ->
        q_idempotency_key r = q_idempotency_key (queuedRow (prepareQueued uuid now q0 adm) a) ->
        False) as Hnew.
    { intros r Hr Hne H1 H2. destruct Hkey as [He|Hkey].
      - apply Hne. rewrite H2. apply He.
      - by apply (Hkey r Hr). }
    intros r r' [Hr|[<-|[]]]%in_app_or [Hr'|[<-|[]]]%in_app_or Hne H1 H2; auto.
    + exfalso. by apply (Hnew r).
    + exfalso. apply (Hnew r'); congruence.
  - intros r [Hr|[<-|[]]]%in_app_or; [by apply Ht|]. simpl. apply normalizeTenant_idemp.
Qed.

Lemma queue_wf_exec_op op t : queue_wf t -> queue_wf (exec_op op t).
Proof.
  intros Hw. destruct (exec_op_rows op t) as (g & new & -> & Hg & Hnew).
  assert (queue_wf (map g t)) as Hm by by eapply queue_wf_map.
  apply queue_wf_append; [done|].
  destruct Hnew as [->|(uuid & now & q0 & adm & q & a & -> & -> & Hid & Hkey)]; [by left|].
  right. exists uuid, now, q0, adm, (prepareQueued uuid now q0 adm), a.
  split; [done|]. split; [done|]. split.
  - intros r (x & <- & Hx)%in_map_iff. destruct (Hg x) as [[] _ _ _ _]. rewrite fr_id. by apply Hid.
  - destruct Hkey as [He|Hkey]; [by left|]. right.
    intros r (x & <- & Hx)%in_map_iff. destruct (Hg x) as [[] _ _ _ _].
    rewrite fr_tenant, fr_key. by apply Hkey.
Qed.

Lemma queue_wf_exec_ops ops t : queue_wf t -> queue_wf (exec_ops ops t).
Proof.
  revert t. induction ops as [|op ops IH]; intros t Hw; simpl; [done|].
  apply IH. by apply queue_wf_exec_op.
Qed.

#[export] Hint Resolve queue_wf_nil queue_wf_exec_op queue_wf_exec_ops : control.

(** ** Guarded statements *)

(** The conditions of the row statements pin the row id. *)
Lemma at_row_key tn id r : at_row tn id r = true -> key r = id.
Proof. unfold at_row. intros. reflect_bools. done. Qed.

(** A condition that pins the id of a row it does not hold of changes nothing. *)
Lemma guarded_nop id (cond : QueueRow -> bool) f t :
  keys_unique t -> (forall r, cond r = true -> key r = id) ->
  (forall r, lookup_key id t = Some r -> cond r = false) ->
  update_where cond f t = t /\ rows_affected cond t = 0%Z.
Proof.
  intros Hu Hc Hl. split.
  - apply update_where_nop. intros r Hr. destruct (cond r) eqn:E; [|done].
    rewrite <- (Hl r); [done|]. rewrite <- (Hc r E). by apply lookup_key_In.
  - rewrite (rows_affected_key id); [|done|done].
    destruct (lookup_key id t) as [r|] eqn:E; [|done]. by rewrite Hl.
Qed.

(** Every history of queue operations, from an empty table, keeps row ids
    unique, keeps at most one row per tenant and non-empty idempotency key, and
    stores normalised tenants only. *)
Theorem queue_history_wf (ops : list queue_op) : queue_wf (exec_ops ops []).
Proof. auto with control. Qed.

(** C4: A Run binding is permanent.  Once a row is bound to a Run, no history of
    queue operations unbinds or rebinds it, and no later claim of the row ever
    succeeds or changes the table: finished work is never claimed again. *)
Theorem bound_run_permanent (t : list QueueRow) (id : string) (r : QueueRow)
    (ops : list queue_op) (uuid : string) (now : Time) (tenant : string) (lease : Duration) :
  queue_wf t -> lookup_key id t = Some r -> q_run_id r <> "" ->
  let t' := exec_ops ops t in
  (exists r', lookup_key id t' = Some r' /\ q_run_id r' = q_run_id r) /\
  fst (ClaimQueued uuid now tenant id lease t') = t' /\
  snd (ClaimQueued uuid now tenant id lease t') <> Ok ("claim_" +:+ uuid, true).
Proof.
  intros Hw Hr Hb t'. destruct (frozen_exec_ops ops t id r Hr) as (r' & Hr' & _ & Hrun & _).
  specialize (Hrun Hb). split; [eauto|].
  destruct (guarded_nop id (claimable now tenant id) (fun r =>
    r <| q_status := QueueStatusStarted |> <| q_claim_token := "claim_" +:+ uuid |>
      <| q_lease_until := Unix (Add now (claimLease lease)) |>
      <| q_attempt_generation := (q_attempt_generation r + 1)%Z |>) t') as [Hu Ha].
  - apply wf_ids. unfold t'. auto with control.
  - unfold claimable. intros x Hx. reflect_bools. by eapply at_row_key.
  - intros x Hx. unfold t' in Hx. rewrite Hr' in Hx. injection Hx as <-.
    unfold claimable, unbound. rewrite Hrun. apply String.eqb_neq in Hb. rewrite Hb.
    by rewrite andb_false_r, andb_false_l.
  - unfold ClaimQueued. case_if; [done|]. cbv zeta. rewrite Ha. simpl. split; [exact Hu|done].
Qed.

(** ** Claim tokens *)

(** The operation is not a claim that issues [token]. *)
Definition not_issuing (token : string) (op : queue_op) : Prop :=
  match op with OpClaim uuid _ _ _ _ => "claim_" +:+ uuid <> token | _ => True end.

Lemma token_exec_ops token ops t k r :
  token <> "" -> Forall (not_issuing token) ops ->
  lookup_key k t = Some r -> q_claim_token r <> token ->
  exists r', lookup_key k (exec_ops ops t) = Some r' /\ q_claim_token r' <> token.
Proof.
  intros Hne Hops Hr Htok.
  destruct (lookup_exec_ops (fun r r' => q_claim_token r <> token -> q_claim_token r' <> token)
    (not_issuing token)) with (ops := ops) (t := t) (k := k) (r := r)
    as (r' & Hr' & HP); auto; [|eauto].
  intros op x y Hop [_ _ _ _ [->|[->|(? & ? & ? & ? & ? & -> & ->)]]]; auto.
Qed.

(** The operations a worker performs under its claim token. *)
Definition under_token (tenant id token : string) (op : queue_op) : Prop :=
  match op with
  | OpRenew _ tn i tok _ | OpRequeueClaim tn i tok | OpFailUnbound tn i tok
  | OpFinishClaim tn i tok _ | OpBindClaimed tn i _ tok => tn = tenant /\ i = id /\ tok = token
  | _ => False
  end.

Lemma under_other_token_inert tenant id token op t r :
  keys_unique t -> token <> "" -> under_token tenant id token op ->
  lookup_key id t = Some r -> q_claim_token r <> token -> exec_op op t = t.
Proof.
  intros Hu Hne Hop Hr Htok.
  assert (forall x, lookup_key id t = Some x -> (q_claim_token x =? token)%string = false) as Hx.
  { intros x Hx. rewrite Hr in Hx. injection Hx as <-. by apply String.eqb_neq. }
  destruct op; try done; destruct Hop as (-> & -> & ->); cbn [exec_op];
    unfold RenewQueuedClaim, RequeueUnboundClaim, FailUnboundQueued, FinishQueuedClaim,
      BindQueuedRunClaimed; (case_if; [done|]); simpl;
    (eapply guarded_nop; [exact Hu|unfold claimed_by; intros y Hy; reflect_bools;
       eapply at_row_key; eassumption|]);
    intros y Hy; unfold claimed_by; rewrite (Hx y Hy), ?andb_false_r; done.
Qed.

(** A stale claim token is inert.  After a row is owned under another token
    (or none), every history that does not issue the old token again leaves every
    operation under the old token - renewal, release, failure, completion,
    binding a Run - without any effect on the table. *)
Theorem stale_token_inert (t : list QueueRow) (tenant id token : string) (r : QueueRow)
    (ops : list queue_op) (op : queue_op) :
  queue_wf t -> token <> "" -> lookup_key id t = Some r -> q_claim_token r <> token ->
  Forall (not_issuing token) ops -> under_token tenant id token op ->
  exec_op op (exec_ops ops t) = exec_ops ops t.
Proof.
  intros Hw Hne Hr Htok Hops Hop.
  destruct (token_exec_ops token ops t id r) as (r' & Hr' & Htok'); auto.
  eapply under_other_token_inert; eauto. apply wf_ids. auto with control.
Qed.

(** ** Exclusive claims *)

(** A race: claim attempts on one row, each with its own token, time and lease. *)
Fixpoint race_claims (tenant id : string) (attempts : list (string * Time * Duration))
    (t : list QueueRow) : list bool :=
  match attempts with
  | [] => []
  | (uuid, now, lease) :: rest =>
      match ClaimQueued uuid now tenant id lease t with
      | (t', Ok (_, won)) => won :: race_claims tenant id rest t'
      | (t', Err _) => false :: race_claims tenant id rest t'
      end
  end.

Lemma ClaimQueued_won uuid now tenant id lease t t' tok :
  queue_wf t -> ClaimQueued uuid now tenant id lease t = (t', Ok (tok, true)) ->
  exists r, lookup_key id t = Some r /\ claimable now tenant id r = true /\
    tok = "claim_" +:+ uuid /\
    lookup_key id t' = Some (r <| q_status := QueueStatusStarted |> <| q_claim_token := tok |>
      <| q_lease_until := Unix (Add now (claimLease lease)) |>
      <| q_attempt_generation := (q_attempt_generation r + 1)%Z |>).
Proof.
  intros Hw. unfold ClaimQueued. case_if; [done|]. cbv zeta.
  rewrite (rows_affected_key id); [|by apply wf_ids|].
  2: { unfold claimable. intros r Hr. reflect_bools. by eapply at_row_key. }
  destruct (lookup_key id t) as [r|] eqn:Er; [|done].
  destruct (claimable now tenant id r) eqn:Ec; [|done].
  intros [= <- <-]. exists r. split; [done|]. split; [done|]. split; [done|].
  rewrite lookup_update by done. rewrite Er. simpl. by rewrite Ec.
Qed.

Lemma ClaimQueued_lost uuid now tenant id lease t r :
  queue_wf t -> lookup_key id t = Some r -> claimable now tenant id r = false ->
  fst (ClaimQueued uuid now tenant id lease t) = t /\
  forall tok, snd (ClaimQueued uuid now tenant id lease t) <> Ok (tok, true).
Proof.
  intros Hw Hr Hc. unfold ClaimQueued. case_if; [done|]. cbv zeta.
  destruct (guarded_nop id (claimable now tenant id) (fun r =>
    r <| q_status := QueueStatusStarted |> <| q_claim_token := "claim_" +:+ uuid |>
      <| q_lease_until := Unix (Add now (claimLease lease)) |>
      <| q_attempt_generation := (q_attempt_generation r + 1)%Z |>) t) as [Hu Ha].
  - by apply wf_ids.
  - unfold claimable. intros x Hx. reflect_bools. by eapply at_row_key.
  - intros x Hx. rewrite Hr in Hx. by injection Hx as <-.
  - rewrite Ha. simpl. split; [exact Hu|done].
Qed.

(** The expected outcome: the first attempt at which the row is due wins. *)
Fixpoint first_due (r : QueueRow) (attempts : list (string * Time * Duration)) : list bool :=
  match attempts with
  | [] => []
  | (_, now, _) :: rest =>
      if due now r then true :: map (fun _ => false) rest else false :: first_due r rest
  end.

Lemma ClaimQueued_result uuid now tenant id lease t :
  exists t' tok won, ClaimQueued uuid now tenant id lease t = (t', Ok (tok, won)) \/
    exists e, ClaimQueued uuid now tenant id lease t = (t', Err e).
Proof. unfold ClaimQueued. repeat case_if; eauto 10. Unshelve. all: exact "" || exact false. Qed.

Lemma race_lost tenant id attempts t r :
  queue_wf t -> lookup_key id t = Some r -> q_status r = QueueStatusStarted ->
  race_claims tenant id attempts t = map (fun _ => false) attempts.
Proof.
  intros Hw Hr Hs. induction attempts as [|[[uuid now] lease] rest IH]; simpl; [done|].
  destruct (ClaimQueued_lost uuid now tenant id lease t r) as [Hf Hl]; [done|done| |].
  { unfold claimable, has_status. rewrite Hs. simpl. by rewrite andb_false_r. }
  destruct (ClaimQueued uuid now tenant id lease t) as [t' [[tok [|]]|e]]; simpl in *; subst t'.
  - by destruct (Hl tok).
  - by rewrite IH.
  - by rewrite IH.
Qed.

(** Claims of one queued row are exclusive and live.  Whatever tokens, leases
    and clock readings racing workers use, exactly the first attempt made at or
    after the row's deadline wins and every other attempt loses. *)
Theorem claim_race_one_winner (t : list QueueRow) (tenant id : string) (r : QueueRow)
    (attempts : list (string * Time * Duration)) :
  queue_wf t -> blank id = false -> lookup_key id t = Some r ->
  at_row tenant id r = true -> q_status r = QueueStatusQueued -> q_run_id r = "" ->
  race_claims tenant id attempts t = first_due r attempts.
Proof.
  intros Hw Hb Hr Ha Hs Hrun.
  induction attempts as [|[[uuid now] lease] rest IH]; simpl; [done|].
  assert (claimable now tenant id r = due now r) as Hc.
  { unfold claimable, has_status, unbound. rewrite Ha, Hs, Hrun. done. }
  destruct (due now r) eqn:Ed.
  - destruct (ClaimQueued uuid now tenant id lease t) as [t' res] eqn:E.
    assert (res = Ok ("claim_" +:+ uuid, true)) as ->.
    { unfold ClaimQueued in E. rewrite Hb in E. cbv zeta in E.
      rewrite (rows_affected_key id), Hr, Hc in E; [simpl in E; by simplify_eq|by apply wf_ids|].
      unfold claimable. intros x Hx. reflect_bools. by eapply at_row_key. }
    f_equal. destruct (ClaimQueued_won _ _ _ _ _ _ _ _ Hw E) as (r0 & Hr0 & _ & _ & Hr').
    eapply race_lost; [|exact Hr'|done].
    change t' with (fst (t', Ok ("claim_" +:+ uuid, true))). rewrite <- E.
    change (queue_wf (exec_op (OpClaim uuid now tenant id lease) t)). auto with control.
  - destruct (ClaimQueued_lost uuid now tenant id lease t r Hw Hr Hc) as [Hf Hl].
    destruct (ClaimQueued uuid now tenant id lease t) as [t' [[tok [|]]|e]]; simpl in *; subst t'.
    + by destruct (Hl tok).
    + by rewrite IH.
    + by rewrite IH.
Qed.

(** ** Idempotent enqueue *)

Lemma query_row_Some_In {R} (p : R -> bool) t r : query_row p t = Some r -> In r t /\ p r = true.
Proof. apply find_some. Qed.

Lemma scan_frozen r r' q :
  row_frozen r r' -> scanQueuedTask r = Ok q -> exists q', scanQueuedTask r' = Ok q'.
Proof.
  intros [] Hs. unfold scanQueuedTask in *. rewrite fr_roots, fr_attachments, fr_admission.
  destruct (q_execution_roots_json r); [|done]. destruct (q_attachments_json r); [|done].
  destruct (setStoredAdmission _). eauto.
Qed.

Lemma scan_fields r q :
  scanQueuedTask r = Ok q ->
  t_ID q = q_id r /\ t_Attachments q = match q_attachments_json r with JVal l => l | _ => [] end.
Proof.
  unfold scanQueuedTask. destruct (q_execution_roots_json r); [|done].
  destruct (q_attachments_json r); [|done]. destruct (setStoredAdmission _).
  intros. by simplify_eq.
Qed.

(** After an enqueue with a non-empty idempotency key succeeds, the row of that
    key is in the table and scans to the returned id. *)
Lemma enqueue_key_row uuid now q t t1 d :
  EnqueueQueued uuid now q t = (t1, Ok d) -> TrimSpace (t_IdempotencyKey q) <> "" ->
  exists r d', In r t1 /\ q_tenant_id r = normalizeTenant (t_TenantID q) /\
    q_idempotency_key r = TrimSpace (t_IdempotencyKey q) /\
    scanQueuedTask r = Ok d' /\ q_id r = t_ID d.
Proof.
  unfold EnqueueQueued. intros H Hk. do 2 (case_if; [done|]).
  destruct (encodeAdmissionSnapshot _) as [[a raw]|e] eqn:Ea; [|done]. cbv zeta in H.
  set (p := prepareQueued uuid now q a) in *.
  assert (t_TenantID p = normalizeTenant (t_TenantID q)) as Ht by done.
  assert (t_IdempotencyKey p = TrimSpace (t_IdempotencyKey q)) as Hi by done.
  destruct (negb _ && _) eqn:Eb in H.
  - destruct (query_row _ t) as [dup|] eqn:Eq; [|done].
    apply query_row_Some_In in Eq as [Hin Hp]. unfold same_idempotency in Hp. reflect_bools.
    destruct (scanQueuedTask dup) as [d'|] eqn:Es; [|done]. simplify_eq.
    exists dup, d. repeat split; try done; try congruence.
    symmetry. apply (scan_fields dup d Es).
  - case_if; [done|]. injection H as <- <-. exists (queuedRow p raw).
    destruct (setStoredAdmission raw) as [x y] eqn:E. eexists.
    split; [apply in_or_app; right; by left|]. split; [done|]. split; [done|]. split; [|done].
    unfold scanQueuedTask. simpl. rewrite E. done.
Qed.

(** After an enqueue with a key, and any history, the row of that key is the one
    first stored and it still scans. *)
Lemma enqueue_settled t uuid now q t1 d ops :
  queue_wf t -> EnqueueQueued uuid now q t = (t1, Ok d) -> TrimSpace (t_IdempotencyKey q) <> "" ->
  let t' := exec_ops ops t1 in
  exists r d', query_row (same_idempotency (normalizeTenant (t_TenantID q))
                            (TrimSpace (t_IdempotencyKey q))) t' = Some r /\
    scanQueuedTask r = Ok d' /\ t_ID d' = t_ID d.
Proof.
  intros Hw He Hk t'.
  destruct (enqueue_key_row _ _ _ _ _ _ He Hk) as (r & d0 & Hin & Hrt & Hrk & Hs & Hid).
  assert (queue_wf t1) as Hw1.
  { change t1 with (fst (t1, Ok d)). rewrite <- He.
    change (queue_wf (exec_op (OpEnqueue uuid now q) t)). auto with control. }
  assert (queue_wf t') as Hw' by (unfold t'; auto with control).
  destruct (frozen_exec_ops ops t1 (key r) r) as (r' & Hr' & Hf & _);
    [by apply lookup_key_In; [apply wf_ids|]|].
  fold t' in Hr'. apply lookup_key_Some in Hr' as [Hin' Hkr].
  destruct (scan_frozen r r' d0 Hf Hs) as [d2 Hd2].
  set (same := same_idempotency (normalizeTenant (t_TenantID q)) (TrimSpace (t_IdempotencyKey q))).
  assert (same r' = true) as Hsame.
  { unfold same, same_idempotency. destruct Hf. rewrite fr_tenant, fr_key, Hrt, Hrk.
    by rewrite !String.eqb_refl. }
  exists r', d2. split; [|split; [done|]].
  - destruct (query_row same t') as [x|] eqn:Ex.
    + apply query_row_Some_In in Ex as [Hx Hpx]. f_equal.
      unfold same, same_idempotency in *. reflect_bools. apply (wf_keys _ Hw'); auto; congruence.
    + exfalso. eapply find_none in Ex; [|exact Hin']. congruence.
  - rewrite (proj1 (scan_fields _ _ Hd2)). destruct Hf. congruence.
Qed.

(** A replayed enqueue that finds the row of its key returns it. *)
Lemma enqueue_duplicate t uuid now q r d :
  blank (t_PersonID q) = false -> blank (t_Content q) = false ->
  is_ok (encodeAdmissionSnapshot (t_Admission q)) = true -> TrimSpace (t_IdempotencyKey q) <> "" ->
  query_row (same_idempotency (normalizeTenant (t_TenantID q)) (TrimSpace (t_IdempotencyKey q))) t
    = Some r -> scanQueuedTask r = Ok d ->
  EnqueueQueued uuid now q t = (t, Ok d).
Proof.
  intros Hp Hc Ha Hk Hq Hd. unfold EnqueueQueued. rewrite Hp, Hc.
  destruct (encodeAdmissionSnapshot (t_Admission q)) as [[a raw]|]; [|done]. cbv zeta. simpl.
  apply String.eqb_neq in Hk. rewrite Hk. simpl.
  rewrite (proj2 (existsb_exists _ _)); [by rewrite Hq, Hd|].
  apply query_row_Some_In in Hq as [Hin Hs]. eauto.
Qed.

(** Enqueue is idempotent on its key, across any history in between.  Once an
    enqueue with a non-empty idempotency key has succeeded, replaying an enqueue
    with that tenant and key leaves the table as it is and returns the row first
    stored, whatever queue operations ran since. *)
Theorem enqueue_replay_converges (t : list QueueRow) (uuid1 uuid2 : string) (now1 now2 : Time)
    (q1 q2 : QueuedTask) (t1 : list QueueRow) (d1 : QueuedTask) (ops : list queue_op) :
  queue_wf t -> EnqueueQueued uuid1 now1 q1 t = (t1, Ok d1) ->
  TrimSpace (t_IdempotencyKey q1) <> "" ->
  normalizeTenant (t_TenantID q2) = normalizeTenant (t_TenantID q1) ->
  TrimSpace (t_IdempotencyKey q2) = TrimSpace (t_IdempotencyKey q1) ->
  blank (t_PersonID q2) = false -> blank (t_Content q2) = false ->
  is_ok (encodeAdmissionSnapshot (t_Admission q2)) = true ->
  let t' := exec_ops ops t1 in
  exists d2, EnqueueQueued uuid2 now2 q2 t' = (t', Ok d2) /\ t_ID d2 = t_ID d1.
Proof.
  intros Hw He Hk Htn Hkey Hp Hc Ha t'.
  destruct (enqueue_settled _ _ _ _ _ _ ops Hw He Hk) as (r & d2 & Hq & Hs & Hid).
  exists d2. split; [|done]. eapply enqueue_duplicate; rewrite ?Hkey, ?Htn; eauto.
Qed.

(** ** Deadlines *)

(** A row is never claimed before its deadline.  If an enqueue with a non-zero
    [NotBefore] stored a new row, then after any history a claim of that row that
    succeeds happens at a time not before the requested one, to the nanosecond,
    although the column holds whole seconds. *)
Theorem claim_after_not_before (t : list QueueRow) (uuid : string) (now : Time) (q d : QueuedTask)
    (t1 : list QueueRow) (ops : list queue_op) (uuid' tenant : string) (now' : Time)
    (lease : Duration) (t2 : list QueueRow) (tok : string) :
  queue_wf t -> EnqueueQueued uuid now q t = (t1, Ok d) -> length t1 = S (length t) ->
  IsZero (t_NotBefore q) = false ->
  ClaimQueued uuid' now' tenant (t_ID d) lease (exec_ops ops t1) = (t2, Ok (tok, true)) ->
  (t_NotBefore q <= now')%Z.
Proof.
  intros Hw He Hlen Hz Hc.
  assert (queue_wf t1) as Hw1.
  { change t1 with (fst (t1, Ok d)). rewrite <- He.
    change (queue_wf (exec_op (OpEnqueue uuid now q) t)). auto with control. }
  assert (exists r, In r t1 /\ key r = t_ID d /\ q_not_before r = storedNotBefore (t_NotBefore q))
    as (r & Hin & Hid & Hnb).
  { unfold EnqueueQueued in He. do 2 (case_if; [done|]).
    destruct (encodeAdmissionSnapshot _) as [[a raw]|e]; [|done]. cbv zeta in He.
    set (p := prepareQueued uuid now q a) in *.
    destruct (negb _ && _) eqn:Eb in He.
    { repeat case_match; simplify_eq; lia. }
    case_if; [simplify_eq|]. injection He as <- <-.
    exists (queuedRow p raw). split; [apply in_or_app; right; by left|done]. }
  destruct (ClaimQueued_won _ _ _ _ _ _ _ _ (queue_wf_exec_ops ops t1 Hw1) Hc)
    as (r' & Hr' & Hcl & _).
  destruct (frozen_exec_ops ops t1 (key r) r) as (r'' & Hr'' & [] & _);
    [by apply lookup_key_In; [apply wf_ids|]|].
  rewrite Hid, Hr' in Hr''. injection Hr'' as <-.
  unfold claimable, due in Hcl. reflect_bools. apply Unix_ceil_reached.
  rewrite fr_not_before, Hnb in *. unfold storedNotBefore in *. rewrite Hz in *.
  destruct (NanosecondOf (t_NotBefore q) =? 0)%Z; done.
Qed.

(** ** Boot recovery *)

(** The decision table of boot recovery. *)
Definition boot_verdict (ev : list Event) (runs : list Run) (r : QueueRow) : QueueRow :=
  if boot_settled ev r then r <| q_status := QueueStatusDone |>
  else if boot_replayable r then
    r <| q_status := QueueStatusQueued |> <| q_run_id := "" |>
      <| q_restarts := (q_restarts r + 1)%Z |> <| q_claim_token := "" |> <| q_lease_until := 0%Z |>
  else if boot_dropped runs r then r <| q_status := QueueStatusFailed |>
  else r.

Lemma boot_verdict_spec ev runs r :
  boot_drop runs (boot_replay (boot_settle ev r)) = boot_verdict ev runs r.
Proof.
  unfold boot_verdict, boot_settle. destruct (boot_settled ev r) eqn:E1.
  { unfold boot_replay, boot_drop, boot_replayable, boot_dropped, has_status. simpl. done. }
  unfold boot_replay. destruct (boot_replayable r) eqn:E2.
  { unfold boot_drop, boot_dropped, has_status, unbound. simpl. done. }
  done.
Qed.

Lemma boot_verdict_started ev runs r :
  q_status (boot_verdict ev runs r) = QueueStatusStarted -> boot_verdict ev runs r = r /\
    run_live runs r = true /\ boot_replayable r = false.
Proof.
  unfold boot_verdict. destruct (boot_settled ev r); [done|].
  destruct (boot_replayable r) eqn:Er; [done|]. destruct (boot_dropped runs r) eqn:Ed; [done|].
  intros Hs. split; [done|]. split; [|done].
  unfold boot_dropped, has_status in Ed. rewrite Hs in Ed. simpl in Ed.
  by apply negb_false_iff in Ed.
Qed.

Lemma boot_verdict_fixed ev runs r :
  q_status r <> QueueStatusStarted -> (q_status r <> QueueStatusQueued \/ q_run_id r = "") ->
  boot_verdict ev runs r = r.
Proof.
  intros Hs Hq. apply String.eqb_neq in Hs. unfold boot_verdict, boot_settled, boot_replayable,
    boot_dropped, unbound, has_status. rewrite Hs. simpl.
  destruct Hq as [Hq|Hq]; [apply String.eqb_neq in Hq|]; rewrite Hq; simpl;
    by rewrite ?andb_false_r, ?andb_false_l.
Qed.

Lemma boot_verdict_idemp ev runs r :
  boot_verdict ev runs (boot_verdict ev runs r) = boot_verdict ev runs r.
Proof.
  assert (boot_verdict ev runs r = r \/ q_status (boot_verdict ev runs r) = QueueStatusDone \/
    q_status (boot_verdict ev runs r) = QueueStatusFailed \/
    (q_status (boot_verdict ev runs r) = QueueStatusQueued /\
     q_run_id (boot_verdict ev runs r) = "")) as [H|[H|[H|[H1 H2]]]].
  { unfold boot_verdict. repeat case_if; auto. }
  - by rewrite !H.
  - apply boot_verdict_fixed; rewrite H; [done|by left].
  - apply boot_verdict_fixed; rewrite H; [done|by left].
  - apply boot_verdict_fixed; [by rewrite H1|by right].
Qed.

(** Boot recovery is the per-row decision table: a row whose Run finished is
    settled as done; an unbound claim with a restart left is queued again; any
    other started or bound row with no live Run is failed with its binding kept;
    every other row is untouched.  Afterwards a started row has a live Run, no
    bound row was put back to be claimed, and running recovery again with the
    same facts changes nothing. *)
Theorem boot_recovery_decides (events : list Event) (runs : list Run) (t : list QueueRow) :
  let t' := fst (RequeueStartedQueued events runs t) in
  t' = map (boot_verdict events runs) t /\
  (forall r, In r t' -> q_status r = QueueStatusStarted -> run_live runs r = true) /\
  (forall r, In r t -> q_run_id r <> "" ->
     q_run_id (boot_verdict events runs r) = q_run_id r /\
     (q_status (boot_verdict events runs r) = QueueStatusQueued -> run_live runs r = true)) /\
  fst (RequeueStartedQueued events runs t') = t'.
Proof.
  assert (forall l, fst (RequeueStartedQueued events runs l) = map (boot_verdict events runs) l)
    as Hmap.
  { intros l. rewrite boot_rows. apply map_ext. intros r. apply boot_verdict_spec. }
  intros t'. unfold t'. rewrite !Hmap. split; [done|]. split; [|split].
  - intros r (x & <- & Hx)%in_map_iff Hs.
    destruct (boot_verdict_started events runs x Hs) as (-> & Hl & _). done.
  - intros r Hr Hne. pose proof (boot_step events runs r) as [_ Hrun _ _ _].
    rewrite boot_verdict_spec in Hrun. split; [by apply Hrun|].
    unfold boot_verdict. destruct (boot_settled events r); [done|].
    destruct (boot_replayable r) eqn:Er.
    { unfold boot_replayable, unbound in Er. reflect_bools. congruence. }
    destruct (boot_dropped runs r) eqn:Ed; [done|]. intros Hs.
    unfold boot_dropped, has_status, unbound in Ed. rewrite Hs in Ed.
    apply String.eqb_neq in Hne. rewrite Hne in Ed. simpl in Ed. by apply negb_false_iff in Ed.
  - rewrite map_map. apply map_ext. intros r. apply boot_verdict_idemp.
Qed.

(** Boot recovery resurrects a row at most once.  A row it replayed is never
    replayable again, after any further history. *)
Theorem boot_replays_once (t : list QueueRow) (events : list Event) (runs : list Run)
    (id : string) (r : QueueRow) (ops : list queue_op) :
  lookup_key id t = Some r -> boot_replayable (boot_settle events r) = true ->
  (0 <= q_restarts r)%Z ->
  exists r', lookup_key id (exec_ops ops (exec_op (OpBoot events runs) t)) = Some r' /\
    boot_replayable r' = false.
Proof.
  intros Hr Hb H0. cbn [exec_op]. rewrite boot_rows.
  assert (boot_settled events r = false) as Hs.
  { unfold boot_settle in Hb. destruct (boot_settled events r); [|done].
    unfold boot_replayable, has_status in Hb. done. }
  edestruct (frozen_exec_ops ops) as (r' & Hr' & _ & _ & Hn).
  { rewrite lookup_map, Hr; [reflexivity|]. intros x.
    eapply row_step_key, (boot_step events runs). }
  exists r'. split; [exact Hr'|]. cbv beta in Hn. rewrite boot_verdict_spec in Hn.
  unfold boot_verdict in Hn.
  unfold boot_settle in Hb. rewrite Hs in Hn, Hb. rewrite Hb in Hn. simpl in Hn.
  unfold boot_replayable, maxQueueRestarts.
  replace (q_restarts r' <? 1)%Z with false; [by rewrite andb_false_r|].
  symmetry. apply Z.ltb_ge. lia.
Qed.

(** ** Selection *)

(** The source an unreadable row holds. *)
Definition held_source (r : QueueRow) : list string :=
  match scanQueuedTask r with
  | Ok q => match t_AdmissionError q with Some _ => [queueSourceKey q] | None => [] end
  | Err _ => []
  end.

(** A row read as [q] may be launched after the rows [before] it were passed over:
    it is readable, the caller finds it eligible, and no unreadable row of its
    source comes before it. *)
Definition launchable (eligible : option (QueuedTask -> bool)) (before : list QueueRow)
    (r : QueueRow) (q : QueuedTask) : Prop :=
  scanQueuedTask r = Ok q /\ t_AdmissionError q = None /\
  (match eligible with None => true | Some f => f q end) = true /\
  ~ In (queueSourceKey q) (flat_map held_source before).

(** Every row of [rows] scans and none is launchable at its place. *)
Definition none_launchable (eligible : option (QueuedTask -> bool)) (before rows : list QueueRow)
  : Prop :=
  forall a x b, rows = a ++ x :: b ->
    exists q, scanQueuedTask x = Ok q /\ ~ launchable eligible (before ++ a) x q.

Lemma none_launchable_cons el before x rows q :
  scanQueuedTask x = Ok q -> ~ launchable el before x q ->
  none_launchable el (before ++ [x]) rows -> none_launchable el before (x :: rows).
Proof.
  intros Hs Hn Hr [|a0 a] y b Heq; simpl in Heq; injection Heq as -> ->.
  - exists q. by rewrite app_nil_r.
  - destruct (Hr a y b eq_refl) as (qy & Hqy & Hl). exists qy.
    by rewrite <- app_assoc in Hl.
Qed.

Lemma next_scan_spec el rows : forall held before,
  (forall s, In s held <-> In s (flat_map held_source before)) ->
  match next_scan el held rows with
  | Ok (Some q) => exists l1 r l2, rows = l1 ++ r :: l2 /\
      launchable el (before ++ l1) r q /\ none_launchable el before l1
  | Ok None => none_launchable el before rows
  | Err _ => exists l1 r l2 e, rows = l1 ++ r :: l2 /\ scanQueuedTask r = Err e /\
      none_launchable el before l1
  end.
Proof.
  induction rows as [|r rows IH]; intros held before Hh; simpl.
  { intros a x b Heq. by destruct a. }
  destruct (scanQueuedTask r) as [q|e] eqn:Es.
  2: { exists [], r, rows, e. split; [done|]. split; [done|]. intros a x b Heq. by destruct a. }
  assert (forall held', ~ launchable el before r q ->
    (forall s, In s held' <-> In s (flat_map held_source (before ++ [r]))) ->
    match next_scan el held' rows with
    | Ok (Some q0) => exists l1 r0 l2, r :: rows = l1 ++ r0 :: l2 /\
        launchable el (before ++ l1) r0 q0 /\ none_launchable el before l1
    | Ok None => none_launchable el before (r :: rows)
    | Err _ => exists l1 r0 l2 e, r :: rows = l1 ++ r0 :: l2 /\ scanQueuedTask r0 = Err e /\
        none_launchable el before l1
    end) as Hskip.
  { intros held' Hn Hh'. specialize (IH held' (before ++ [r]) Hh').
    destruct (next_scan el held' rows) as [[q0|]|e].
    - destruct IH as (l1 & r0 & l2 & -> & Hl & Hnl). exists (r :: l1), r0, l2.
      rewrite <- app_assoc in Hl. split; [done|]. split; [done|]. by eapply none_launchable_cons.
    - by eapply none_launchable_cons.
    - destruct IH as (l1 & r0 & l2 & e0 & -> & Hl & Hnl). exists (r :: l1), r0, l2, e0.
      split; [done|]. split; [done|]. by eapply none_launchable_cons. }
  assert (flat_map held_source (before ++ [r]) = flat_map held_source before ++ held_source r) as Hf.
  { rewrite flat_map_app. simpl. by rewrite app_nil_r. }
  unfold held_source in Hf at 3. rewrite Es in Hf.
  destruct (existsb (String.eqb (queueSourceKey q)) held) eqn:Eh.
  - assert (In (queueSourceKey q) (flat_map held_source before)) as Hin.
    { apply existsb_exists in Eh as (s & Hs & He). apply String.eqb_eq in He as <-. by apply Hh. }
    apply Hskip; [by intros (_ & _ & _ & ?)|]. intros s. rewrite Hf, in_app_iff, <- Hh.
    destruct (t_AdmissionError q); simpl; [|tauto].
    split; [tauto|]. intros [?|[<-|[]]]; [done|]. by apply Hh.
  - assert (~ In (queueSourceKey q) (flat_map held_source before)) as Hnin.
    { rewrite <- Hh. intros Hin. eapply existsb_false_In in Eh; [|done].
      by rewrite String.eqb_refl in Eh. }
    destruct (t_AdmissionError q) as [e|] eqn:Ee.
    + apply Hskip; [by intros (_ & ? & _); congruence|]. intros s.
      rewrite Hf, in_app_iff, <- Hh. simpl. tauto.
    + destruct (match el with None => true | Some f => f q end) eqn:El.
      * exists [], r, rows. rewrite app_nil_r. split; [done|]. split; [done|].
        intros a x b Heq. by destruct a.
      * apply Hskip; [intros (_ & _ & ? & _); congruence|]. intros s.
        rewrite Hf, app_nil_r. apply Hh.
Qed.

Lemma scheduler_order_total a b : scheduler_order a b = true \/ scheduler_order b a = true.
Proof.
  unfold scheduler_order.
  destruct (Z.lt_trichotomy (q_priority a) (q_priority b)) as [H|[H|H]].
  - right. apply orb_true_iff. left. by apply Z.ltb_lt.
  - destruct (Z.le_ge_cases (q_created_at a) (q_created_at b)) as [H'|H'];
      [left|right]; apply orb_true_iff; right; solve_bools.
  - left. apply orb_true_iff. left. by apply Z.ltb_lt.
Qed.

Lemma scheduler_order_trans a b c :
  scheduler_order a b = true -> scheduler_order b c = true -> scheduler_order a c = true.
Proof.
  unfold scheduler_order. intros H1 H2. reflect_bools.
  destruct H1 as [H1|H1], H2 as [H2|H2]; reflect_bools; apply orb_true_iff;
    first [left; apply Z.ltb_lt; lia | right; solve_bools].
Qed.

(** The selector returns the right row.  [NextQueuedWhere] reads the person's
    due, queued, unbound rows whose source has no unbound claim, in scheduler
    order; the row it returns is readable, eligible, not behind an unreadable row
    of its source, and every row before it fails one of these; when it returns
    none, every selected row fails one of these; it fails only at a row whose
    columns do not decode, with nothing launchable before it. *)
Theorem next_queued_where_selects (now : Time) (tenant person : string)
    (eligible : option (QueuedTask -> bool)) (t : list QueueRow) :
  blank person = false ->
  exists rows,
    Permutation rows (List.filter (selectable now tenant person t) t) /\
    StronglySorted (fun a b => scheduler_order a b = true) rows /\
    match NextQueuedWhere now tenant person eligible t with
    | Ok (Some q) => exists l1 r l2, rows = l1 ++ r :: l2 /\ launchable eligible l1 r q /\
        none_launchable eligible [] l1
    | Ok None => none_launchable eligible [] rows
    | Err _ => exists l1 r l2 e, rows = l1 ++ r :: l2 /\ scanQueuedTask r = Err e /\
        none_launchable eligible [] l1
    end.
Proof.
  intros Hb. unfold NextQueuedWhere, select_where. rewrite Hb.
  exists (order_by scheduler_order (List.filter (selectable now tenant person t) t)).
  split; [apply order_by_perm|]. split.
  - apply order_by_sorted; [apply scheduler_order_total|apply scheduler_order_trans].
  - pose proof (next_scan_spec eligible
      (order_by scheduler_order (List.filter (selectable now tenant person t) t)) [] []) as H.
    simpl in H. apply H. done.
Qed.

Lemma NextQueued_head now tenant person t :
  blank person = false ->
  (forall r, In r t -> selectable now tenant person t r = true ->
     exists q, scanQueuedTask r = Ok q /\ t_AdmissionError q = None) ->
  NextQueued now tenant person t =
    match List.find (selectable now tenant person t) (order_by scheduler_order t) with
    | Some r => scanRow (Some r)
    | None => Ok None
    end.
Proof.
  intros Hb Hread. unfold NextQueued, NextQueuedWhere, select_where. rewrite Hb.
  rewrite order_by_filter by (apply scheduler_order_total || apply scheduler_order_trans).
  rewrite find_filter_head.
  destruct (List.filter _ (order_by scheduler_order t)) as [|r l] eqn:E; [done|]. simpl.
  assert (In r t /\ selectable now tenant person t r = true) as [Hin Hs].
  { rewrite <- (In_order_by scheduler_order). apply filter_In. rewrite E. by left. }
  destruct (Hread r Hin Hs) as (q & -> & ->). done.
Qed.

(** Without quarantined rows the queue is priority first, then FIFO.  If every
    selectable row is readable, [NextQueued] returns the selectable row that comes
    before every other one: strictly before those stored earlier, and not after
    those stored later; it returns none exactly when no row is selectable. *)
Theorem next_queued_priority_fifo (now : Time) (tenant person : string) (t : list QueueRow) :
  blank person = false ->
  (forall r, In r t -> selectable now tenant person t r = true ->
     exists q, scanQueuedTask r = Ok q /\ t_AdmissionError q = None) ->
  (NextQueued now tenant person t = Ok None /\
   forall r, In r t -> selectable now tenant person t r = false) \/
  (exists t1 r t2 q, NextQueued now tenant person t = Ok (Some q) /\ scanQueuedTask r = Ok q /\
     t = t1 ++ r :: t2 /\ selectable now tenant person t r = true /\
     (forall y, In y t1 -> selectable now tenant person t y = true ->
        scheduler_order y r = false) /\
     (forall y, In y t2 -> selectable now tenant person t y = true ->
        scheduler_order r y = true)).
Proof.
  intros Hb Hread. rewrite NextQueued_head by done.
  destruct (List.find _ _) as [r|] eqn:E.
  - right. apply find_order_by in E as (t1 & t2 & Ht & Hs & H1 & H2);
      [|apply scheduler_order_total|apply scheduler_order_trans].
    destruct (Hread r) as (q & Hq & _); [rewrite Ht; apply in_or_app; right; by left|done|].
    exists t1, r, t2, q. unfold scanRow. rewrite Hq. done.
  - left. split; [done|]. exact (proj1 (find_order_by_None scheduler_order _ t) E).
Qed.

(** What the selector offers can be claimed.  A row [NextQueuedWhere] returns
    is claimed by [ClaimQueued] at the same time, with the caller's token, and
    [HasDueQueuedWork] reports it. *)
Theorem next_queued_claim_succeeds (now : Time) (tenant person : string)
    (eligible : option (QueuedTask -> bool)) (t : list QueueRow) (q : QueuedTask)
    (uuid : string) (lease : Duration) :
  queue_wf t -> NextQueuedWhere now tenant person eligible t = Ok (Some q) ->
  blank (t_ID q) = false ->
  snd (ClaimQueued uuid now tenant (t_ID q) lease t) = Ok ("claim_" +:+ uuid, true) /\
  HasDueQueuedWork now tenant person t = Ok true.
Proof.
  intros Hw Hn Hb.
  assert (blank person = false) as Hp by (unfold NextQueuedWhere in Hn; by destruct (blank person)).
  assert (exists r, In r t /\ selectable now tenant person t r = true /\ scanQueuedTask r = Ok q)
    as (r & Hin & Hs & Hq).
  { unfold NextQueuedWhere in Hn. rewrite Hp in Hn.
    match type of Hn with next_scan _ _ ?rows = _ =>
      pose proof (next_scan_spec eligible rows [] []) as H end.
    rewrite Hn in H. destruct H as (l1 & r & l2 & Hl & Hla & _); [done|].
    exists r. assert (In r (List.filter (selectable now tenant person t) t)) as Hr.
    { apply (In_order_by scheduler_order). unfold select_where in Hl. rewrite Hl.
      apply in_or_app. right. by left. }
    apply filter_In in Hr as [? ?]. split; [done|]. split; [done|]. apply Hla. }
  destruct (scan_fields r q Hq) as [Hid _].
  unfold selectable, of_person in Hs. reflect_bools.
  assert (claimable now tenant (t_ID q) r = true) as Hc.
  { unfold claimable, at_row. rewrite Hid. solve_bools. }
  split.
  - unfold ClaimQueued. rewrite Hb. cbv zeta.
    rewrite (rows_affected_key (t_ID q)); [|by apply wf_ids|].
    2: { unfold claimable. intros x Hx. reflect_bools. by eapply at_row_key. }
    rewrite Hid. change (q_id r) with (key r). rewrite lookup_key_In; [|by apply wf_ids|done].
    change (key r) with (q_id r). rewrite <- Hid, Hc. done.
  - unfold HasDueQueuedWork. rewrite Hp. f_equal. apply existsb_exists. exists r.
    split; [done|]. unfold of_person. apply andb_true_iff. split; [|done].
    apply andb_true_iff. split; [|done]. apply andb_true_iff. split; [solve_bools|].
    apply orb_true_iff. by left.
Qed.

(** ** Concrete instances

    A request, and a table with one queued row of it. *)

Definition sample_task : QueuedTask :=
  mkQueuedTask "" "" "alice" "" "" "acct" "deploy the service" "" "" [] [] "" "" "" "" "" "key-1" ""
    0 (TimeOfUnix 50 + 1)%Z "" 0 "" 0%Z 0 0%Z zeroSnapshot None.

Definition sample_table : list QueueRow :=
  fst (EnqueueQueued "u1" (TimeOfUnix 10) sample_task []).

Definition sample_row : QueueRow :=
  queuedRow (prepareQueued "u1" (TimeOfUnix 10) sample_task zeroSnapshot) SNone.

Lemma sample_table_wf : queue_wf sample_table.
Proof. apply (queue_wf_exec_ops [OpEnqueue "u1" (TimeOfUnix 10) sample_task] []), queue_wf_nil. Qed.

Lemma bound_run_permanent_witness :
  let t := exec_ops [OpClaim "c" (TimeOfUnix 60) "" "queue_u1" 0%Z;
                     OpBind "" "queue_u1" "run_1"] sample_table in
  let t' := exec_ops [OpMark "" "queue_u1" "queued"; OpBoot [] []] t in
  fst (ClaimQueued "d" (TimeOfUnix 90) "" "queue_u1" 0%Z t') = t'.
Proof.
  apply (bound_run_permanent _ "queue_u1"
    (sample_row <| q_status := "started" |> <| q_claim_token := "claim_c" |>
      <| q_lease_until := 180%Z |> <| q_attempt_generation := 1%Z |> <| q_run_id := "run_1" |>)).
  - apply queue_wf_exec_ops, sample_table_wf.
  - vm_compute. reflexivity.
  - discriminate.
Defined.

Lemma stale_token_inert_witness :
  let ops := [OpRequeueClaim "" "queue_u1" "claim_c"; OpClaim "d" (TimeOfUnix 61) "" "queue_u1" 0%Z] in
  exec_op (OpFinishClaim "" "queue_u1" "claim_old" "done") (exec_ops ops sample_table)
    = exec_ops ops sample_table.
Proof.
  apply (stale_token_inert _ "" "queue_u1" "claim_old" sample_row).
  - apply sample_table_wf.
  - discriminate.
  - vm_compute. reflexivity.
  - discriminate.
  - repeat constructor; discriminate.
  - repeat split.
Defined.

Lemma claim_race_one_winner_witness :
  race_claims "" "queue_u1" [("a", TimeOfUnix 50, 0%Z); ("b", TimeOfUnix 51, 0%Z);
                             ("c", TimeOfUnix 900, 0%Z)] sample_table = [false; true; false].
Proof.
  rewrite (claim_race_one_winner _ "" "queue_u1" sample_row).
  - vm_compute. reflexivity.
  - apply sample_table_wf.
  - reflexivity.
  - vm_compute. reflexivity.
  - reflexivity.
  - reflexivity.
  - reflexivity.
Defined.

Lemma enqueue_replay_converges_witness :
  let t' := exec_ops [OpClaim "c" (TimeOfUnix 60) "" "queue_u1" 0%Z] sample_table in
  exists d, EnqueueQueued "u2" (TimeOfUnix 70) sample_task t' = (t', Ok d) /\ t_ID d = "queue_u1".
Proof.
  apply (enqueue_replay_converges [] "u1" "u2" (TimeOfUnix 10) (TimeOfUnix 70) sample_task sample_task
    sample_table (prepareQueued "u1" (TimeOfUnix 10) sample_task zeroSnapshot)).
  - apply queue_wf_nil.
  - vm_compute. reflexivity.
  - discriminate.
  - reflexivity.
  - reflexivity.
  - reflexivity.
  - reflexivity.
  - reflexivity.
Defined.

Lemma claim_after_not_before_witness : (t_NotBefore sample_task <= TimeOfUnix 51)%Z.
Proof.
  apply (claim_after_not_before [] "u1" (TimeOfUnix 10) sample_task
    (prepareQueued "u1" (TimeOfUnix 10) sample_task zeroSnapshot) sample_table [] "c" ""
    (TimeOfUnix 51) 0%Z
    (exec_op (OpClaim "c" (TimeOfUnix 51) "" "queue_u1" 0%Z) sample_table) "claim_c").
  - apply queue_wf_nil.
  - vm_compute. reflexivity.
  - reflexivity.
  - reflexivity.
  - vm_compute. reflexivity.
Defined.

Lemma boot_replays_once_witness :
  let t := exec_ops [OpClaim "c" (TimeOfUnix 60) "" "queue_u1" 0%Z] sample_table in
  exists r, lookup_key "queue_u1" (exec_ops [OpClaim "d" (TimeOfUnix 99) "" "queue_u1" 0%Z]
      (exec_op (OpBoot [] []) t)) = Some r /\ boot_replayable r = false.
Proof.
  eapply boot_replays_once.
  - vm_compute. reflexivity.
  - reflexivity.
  - discriminate.
Defined.

Lemma next_queued_where_selects_witness :
  exists rows, Permutation rows
    (List.filter (selectable (TimeOfUnix 60) "" "alice" sample_table) sample_table).
Proof.
  destruct (next_queued_where_selects (TimeOfUnix 60) "" "alice" None sample_table) as (rows & H & _).
  - reflexivity.
  - exists rows. exact H.
Defined.

Lemma next_queued_priority_fifo_witness :
  exists q, NextQueued (TimeOfUnix 60) "" "alice" sample_table = Ok (Some q).
Proof.
  destruct (next_queued_priority_fifo (TimeOfUnix 60) "" "alice" sample_table)
    as [[H _]|(t1 & r & t2 & q & H & _)].
  - reflexivity.
  - intros r [<-|[]] _. eexists. split; reflexivity.
  - vm_compute in H. discriminate.
  - exists q. exact H.
Defined.

Lemma next_queued_claim_succeeds_witness :
  HasDueQueuedWork (TimeOfUnix 60) "" "alice" sample_table = Ok true.
Proof.
  eapply (next_queued_claim_succeeds (TimeOfUnix 60) "" "alice" None sample_table _ "c" 0%Z).
  - apply sample_table_wf.
  - vm_compute. reflexivity.
  - reflexivity.
Defined.
