(* ===== verification/Maintenance.v ===== *)
(** * Maintenance jobs and provider circuits
      ([internal/control/maintenance_jobs.go], [provider_route_health.go])

    Post-run maintenance is a table of jobs, one row per run and analyzer
    version, an append-only table of attempts, and a table of provider routes
    whose quota circuits pause and release jobs.  A [MaintState] holds the three
    tables; every method is a definition on it, statement by statement.  The
    clock and the [runs] table are arguments. *)

From stdpp Require Import base tactics list strings.
From Stdlib Require Import ZArith Lia Bool Ascii String List Permutation.
From S2P Require Import Prelude GoLib Sql Admission Store.

(** ** Constants *)

Definition MaintenanceJobPending : string := "pending".
Definition MaintenanceJobRunning : string := "running".
Definition MaintenanceJobSucceeded : string := "succeeded".
Definition MaintenanceJobFailed : string := "failed".
Definition MaintenanceJobSkipped : string := "skipped".
Definition MaintenanceJobBlockedProvider : string := "blocked_provider".
Definition MaintenanceJobBlockedPromptRevision : string := "blocked_prompt_revision".

Definition maintenanceRetryLimitRouteID : string := "policy:retry-limit".
Definition maintenanceLegacyProbeRouteID : string := "policy:legacy-restart-probe".
Definition maintenanceUnclassifiedProviderRouteID : string := "policy:provider-unclassified".
Definition maintenanceNetworkRoutePrefix : string := "network:".

Definition MaintenanceNetworkRouteID (fingerprint : string) : string :=
  let fingerprint := TrimSpace fingerprint in
  if (fingerprint =? "")%string then "" else maintenanceNetworkRoutePrefix +:+ fingerprint.

Definition isMaintenanceNetworkRouteID (routeID : string) : bool :=
  HasPrefix (TrimSpace routeID) maintenanceNetworkRoutePrefix.

(** ** Rows and structs *)

Record JobRow := mkJobRow {
  j_run_id : string;
  j_analyzer_version : Z;
  j_tenant_id : string;
  j_status : string;
  j_attempts : Z;
  j_next_retry_at : Z;
  j_result_hash : string;
  j_payload_json : string;
  j_proposal_json : string;
  j_blocked_route_id : string;
  j_last_error : string;
  j_created_at : Z;
  j_updated_at : Z
}.

#[export] Instance JobRow_eta : Eta JobRow := fun r =>
  mkJobRow (j_run_id r) (j_analyzer_version r) (j_tenant_id r) (j_status r) (j_attempts r)
    (j_next_retry_at r) (j_result_hash r) (j_payload_json r) (j_proposal_json r)
    (j_blocked_route_id r) (j_last_error r) (j_created_at r) (j_updated_at r).

(** [PRIMARY KEY (run_id, analyzer_version)]. *)
#[export] Instance JobRow_keyed : Keyed JobRow (string * Z) :=
  fun r => (j_run_id r, j_analyzer_version r).

Record MaintenanceJob := mkMaintenanceJob {
  mj_RunID : string;
  mj_AnalyzerVersion : Z;
  mj_TenantID : string;
  mj_Status : string;
  mj_Attempts : Z;
  mj_NextRetryAt : Time;
  mj_ResultHash : string;
  mj_PayloadJSON : string;
  mj_ProposalJSON : string;
  mj_BlockedRouteID : string;
  mj_LastError : string;
  mj_CreatedAt : Time;
  mj_UpdatedAt : Time
}.

(** The [rows.Scan] of the listing queries. *)
Definition scanJob (r : JobRow) : MaintenanceJob :=
  mkMaintenanceJob (j_run_id r) (j_analyzer_version r) (j_tenant_id r) (j_status r) (j_attempts r)
    (TimeOfUnix (j_next_retry_at r)) (j_result_hash r) (j_payload_json r) (j_proposal_json r)
    (j_blocked_route_id r) (j_last_error r) (TimeOfUnix (j_created_at r))
    (TimeOfUnix (j_updated_at r)).

Record MaintenanceAttempt := mkMaintenanceAttempt {
  ma_RunID : string;
  ma_AnalyzerVersion : Z;
  ma_tenant_id : string;
  ma_Attempt : Z;
  ma_Outcome : string;
  ma_Error : string;
  ma_RouteID : string;
  ma_CreatedAt : Z
}.

Definition ProviderRouteClosed : string := "closed".
Definition ProviderRouteOpen : string := "open".

Record RouteRow := mkRouteRow {
  pr_tenant_id : string;
  pr_route_id : string;
  pr_provider : string;
  pr_model : string;
  pr_state : string;
  pr_failure_class : string;
  pr_consecutive_failures : Z;
  pr_opened_at : Z;
  pr_next_probe_at : Z;
  pr_probe_lease_until : Z;
  pr_last_error : string;
  pr_last_request_id : string;
  pr_updated_at : Z
}.

#[export] Instance RouteRow_eta : Eta RouteRow := fun r =>
  mkRouteRow (pr_tenant_id r) (pr_route_id r) (pr_provider r) (pr_model r) (pr_state r)
    (pr_failure_class r) (pr_consecutive_failures r) (pr_opened_at r) (pr_next_probe_at r)
    (pr_probe_lease_until r) (pr_last_error r) (pr_last_request_id r) (pr_updated_at r).

(** [PRIMARY KEY (tenant_id, route_id)]. *)
#[export] Instance RouteRow_keyed : Keyed RouteRow (string * string) :=
  fun r => (pr_tenant_id r, pr_route_id r).

(** The three tables.  Rows of [attempts] are in insertion order, so a later row
    has a larger [id]. *)
Record MaintState := mkMaintState {
  jobs : list JobRow;
  attempts : list MaintenanceAttempt;
  routes : list RouteRow
}.

#[export] Instance MaintState_eta : Eta MaintState := fun s =>
  mkMaintState (jobs s) (attempts s) (routes s).

(** ** Conditions shared by the statements *)

Definition normVersion (analyzerVersion : Z) : Z :=
  if (analyzerVersion <=? 0)%Z then 1%Z else analyzerVersion.

(** [tenant_id = ? AND run_id = ? AND analyzer_version = ?]. *)
Definition at_job (tenantID runID : string) (version : Z) (r : JobRow) : bool :=
  (j_tenant_id r =? normalizeTenant tenantID)%string && (j_run_id r =? runID)%string
  && (j_analyzer_version r =? version)%Z.

Definition job_is (s : string) (r : JobRow) : bool := (j_status r =? s)%string.

(** [status IN (...)]. *)
Definition job_in (l : list string) (r : JobRow) : bool := existsb (String.eqb (j_status r)) l.

Definition same_job (a b : JobRow) : bool := bool_decide (key a = key b).

(** [SELECT MAX(analyzer_version) ... WHERE p]: NULL without rows. *)
Definition max_version (p : JobRow -> bool) (t : list JobRow) : option Z :=
  fold_right (fun r acc =>
    if p r then Some (match acc with Some m => Z.max (j_analyzer_version r) m
                                   | None => j_analyzer_version r end)
    else acc) None t.

(** [analyzer_version = (SELECT MAX ...)]: false against NULL. *)
Definition is_version (v : Z) (m : option Z) : bool :=
  match m with Some x => (v =? x)%Z | None => false end.

(** The newest generation of the row's run. *)
Definition latest_generation (t : list JobRow) (r : JobRow) : bool :=
  is_version (j_analyzer_version r)
    (max_version (fun l => (j_tenant_id l =? j_tenant_id r)%string
                           && (j_run_id l =? j_run_id r)%string) t).

(** ** Attempts *)

Definition recordMaintenanceAttempt (now : Time) (tenantID runID : string) (version : Z)
    (outcome errText routeID : string) (s : MaintState) : MaintState :=
  let errText := boundedText errText 500 in
  let attempt := match query_row (at_job tenantID runID version) (jobs s) with
                 | Some r => j_attempts r
                 | None => 0%Z
                 end in
  s <| attempts := (attempts s ++ [mkMaintenanceAttempt runID version (normalizeTenant tenantID)
                                     attempt outcome errText routeID (Unix now)])%list |>.

(** [ORDER BY created_at DESC, id DESC]: the later of two rows of one second comes
    first. *)
Definition RecentMaintenanceAttempts (tenantID : string) (since : Time) (limit : Z) (s : MaintState)
  : list MaintenanceAttempt :=
  let limit := if (limit <=? 0)%Z || (100 <? limit)%Z then 20%Z else limit in
  sql_limit limit
    (order_by (fun a b => (ma_CreatedAt b <=? ma_CreatedAt a)%Z)
      (rev (select_where (fun a => (ma_tenant_id a =? normalizeTenant tenantID)%string
                                   && (Unix since <=? ma_CreatedAt a)%Z) (attempts s)))).

Definition PruneMaintenanceAttempts (now : Time) (olderThan : Duration) (s : MaintState)
  : MaintState * Z :=
  let olderThan := if (olderThan <=? 0)%Z then (30 * 24 * Hour)%Z else olderThan in
  let cond := fun a => (ma_CreatedAt a <? Unix (Add now (- olderThan)))%Z in
  (s <| attempts := delete_where cond (attempts s) |>, rows_affected cond (attempts s)).

(** ** Creation *)

(** The columns the short [INSERT] does not name take their defaults. *)
Definition newJob (runID : string) (version : Z) (tenant payload : string) (now : Time) : JobRow :=
  mkJobRow runID version tenant MaintenanceJobPending 0 0 "" payload "" "" "" (Unix now) (Unix now).

Definition EnqueueMaintenanceJob (now : Time) (tenantID k : string) (version : Z) (payload : string)
    (s : MaintState) : MaintState * bool :=
  let '(t, n) := insert_or_ignore same_job (newJob k version (normalizeTenant tenantID) payload now)
                   (jobs s) in
  (s <| jobs := t |>, (0 <? n)%Z).

Definition createMaintenanceJobTx (now : Time) (tenantID runID : string) (analyzerVersion : Z)
    (payload : string) (s : MaintState) : MaintState :=
  if (runID =? "")%string then s else
  let version := normVersion analyzerVersion in
  let tenant := normalizeTenant tenantID in
  let '(t, _) := insert_or_ignore same_job (newJob runID version tenant payload now) (jobs s) in
  if (payload =? "")%string then s <| jobs := t |> else
  s <| jobs := update_where (fun r =>
         (j_tenant_id r =? tenant)%string && (j_run_id r =? runID)%string
         && (j_analyzer_version r =? version)%Z
         && job_in [MaintenanceJobPending; MaintenanceJobFailed] r
         && (sql_trim (j_payload_json r) =? "")%string)
       (fun r => r <| j_payload_json := payload |> <| j_updated_at := Unix now |>) t |>.

Record MaintenanceVersionMigration := mkMigration {
  mg_Eligible : Z; mg_Migrated : Z; mg_AlreadyCurrent : Z; mg_MissingEvidence : Z }.

#[export] Instance MaintenanceVersionMigration_eta : Eta MaintenanceVersionMigration := fun m =>
  mkMigration (mg_Eligible m) (mg_Migrated m) (mg_AlreadyCurrent m) (mg_MissingEvidence m).

Definition unfinishedStatuses : list string :=
  [MaintenanceJobPending; MaintenanceJobFailed; MaintenanceJobRunning;
   MaintenanceJobBlockedProvider; MaintenanceJobBlockedPromptRevision].

(** [ORDER BY created_at ASC, analyzer_version DESC]. *)
Definition migration_order (a b : JobRow) : bool :=
  (j_created_at a <? j_created_at b)%Z
  || (j_created_at a =? j_created_at b)%Z && (j_analyzer_version b <=? j_analyzer_version a)%Z.

(** The row inserted for a job under the target version. *)
Definition migratedRow (now : Time) (targetVersion : Z) (job : MaintenanceJob) : JobRow :=
  let status := if (mj_Status job =? MaintenanceJobRunning)%string then MaintenanceJobPending
                else mj_Status job in
  mkJobRow (mj_RunID job) targetVersion (normalizeTenant (mj_TenantID job)) status (mj_Attempts job)
    (Unix (mj_NextRetryAt job)) (mj_ResultHash job) (mj_PayloadJSON job) (mj_ProposalJSON job)
    (mj_BlockedRouteID job) (mj_LastError job) (Unix (mj_CreatedAt job)) (Unix now).

(** The loop over the selected jobs; [seenRuns] holds the runs already handled. *)
Fixpoint migrate_loop (now : Time) (targetVersion : Z) (seenRuns : list string)
    (selected : list MaintenanceJob) (t : list JobRow) (result : MaintenanceVersionMigration)
  : list JobRow * MaintenanceVersionMigration :=
  match selected with
  | [] => (t, result)
  | job :: rest =>
      let k := normalizeTenant (mj_TenantID job) +:+ String Ascii.zero "" +:+ mj_RunID job in
      if existsb (String.eqb k) seenRuns
      then migrate_loop now targetVersion seenRuns rest t result
      else if blank (mj_PayloadJSON job) && blank (mj_ProposalJSON job)
      then migrate_loop now targetVersion (k :: seenRuns) rest t
             (result <| mg_MissingEvidence := (mg_MissingEvidence result + 1)%Z |>)
      else
        let result := result <| mg_Eligible := (mg_Eligible result + 1)%Z |> in
        let '(t', n) := insert_or_ignore same_job (migratedRow now targetVersion job) t in
        migrate_loop now targetVersion (k :: seenRuns) rest t'
          (if (n =? 0)%Z
           then result <| mg_AlreadyCurrent := (mg_AlreadyCurrent result + 1)%Z |>
           else result <| mg_Migrated := (mg_Migrated result + 1)%Z |>)
  end.

Definition migration_selected (targetVersion : Z) (t : list JobRow) : list JobRow :=
  order_by migration_order
    (select_where (fun r => (j_analyzer_version r <? targetVersion)%Z && job_in unfinishedStatuses r) t).

Definition MigrateMaintenanceJobsToVersion (now : Time) (targetVersion : Z) (s : MaintState)
  : MaintState * res MaintenanceVersionMigration :=
  if (targetVersion <=? 0)%Z then (s, Err (Errorf "target analyzer version must be positive")) else
  let '(t, result) := migrate_loop now targetVersion []
    (map scanJob (migration_selected targetVersion (jobs s))) (jobs s) (mkMigration 0 0 0 0) in
  (s <| jobs := t |>, Ok result).

(** ** Updates of one job *)

Definition SetMaintenanceJobPayload (now : Time) (tenantID runID : string) (analyzerVersion : Z)
    (payload : string) (s : MaintState) : MaintState :=
  s <| jobs := update_where (fun r => at_job tenantID runID (normVersion analyzerVersion) r
                                      && job_in [MaintenanceJobPending; MaintenanceJobFailed] r)
    (fun r => r <| j_payload_json := payload |> <| j_updated_at := Unix now |>) (jobs s) |>.

Definition SaveMaintenanceProposal (now : Time) (tenantID runID : string) (analyzerVersion : Z)
    (proposal resultHash : string) (s : MaintState) : MaintState :=
  s <| jobs := update_where (fun r => at_job tenantID runID (normVersion analyzerVersion) r
                                      && job_is MaintenanceJobRunning r)
    (fun r => r <| j_proposal_json := proposal |> <| j_result_hash := resultHash |>
                <| j_updated_at := Unix now |>) (jobs s) |>.

Definition SkipMaintenanceJob (now : Time) (tenantID runID : string) (analyzerVersion : Z)
    (reason : string) (s : MaintState) : MaintState :=
  let version := normVersion analyzerVersion in
  let reason := boundedText reason 500 in
  recordMaintenanceAttempt now tenantID runID version "skipped" reason ""
    (s <| jobs := update_where (fun r => at_job tenantID runID version r
           && job_in [MaintenanceJobPending; MaintenanceJobFailed; MaintenanceJobRunning] r)
         (fun r => r <| j_status := MaintenanceJobSkipped |> <| j_last_error := reason |>
                     <| j_updated_at := Unix now |>) (jobs s) |>).

Definition CompleteMaintenanceJob (now : Time) (tenantID runID : string) (analyzerVersion : Z)
    (resultHash : string) (s : MaintState) : MaintState :=
  s <| jobs := update_where (fun r => at_job tenantID runID (normVersion analyzerVersion) r
                                      && job_is MaintenanceJobRunning r)
    (fun r => r <| j_status := MaintenanceJobSucceeded |> <| j_result_hash := resultHash |>
                <| j_last_error := "" |> <| j_updated_at := Unix now |>) (jobs s) |>.

Definition FailMaintenanceJobForRoute (now : Time) (tenantID runID : string) (analyzerVersion : Z)
    (routeID lastError : string) (retryAfter : Duration) (s : MaintState) : MaintState :=
  let version := normVersion analyzerVersion in
  let lastError := boundedText lastError 500 in
  recordMaintenanceAttempt now tenantID runID version "failed" lastError routeID
    (s <| jobs := update_where (fun r => at_job tenantID runID version r
                                         && job_is MaintenanceJobRunning r)
         (fun r => r <| j_status := MaintenanceJobFailed |> <| j_blocked_route_id := routeID |>
                     <| j_last_error := lastError |>
                     <| j_next_retry_at := Unix (Add now retryAfter) |>
                     <| j_updated_at := Unix now |>) (jobs s) |>).

Definition FailMaintenanceJob (now : Time) (tenantID runID : string) (analyzerVersion : Z)
    (lastError : string) (retryAfter : Duration) (s : MaintState) : MaintState :=
  FailMaintenanceJobForRoute now tenantID runID analyzerVersion "" lastError retryAfter s.

(** The attempt is recorded when the statement changed a row. *)
Definition record_if (n : Z) (now : Time) (tenantID runID : string) (version : Z)
    (outcome errText routeID : string) (s : MaintState) : MaintState * bool :=
  if (0 <? n)%Z
  then (recordMaintenanceAttempt now tenantID runID version outcome errText routeID s, true)
  else (s, false).

Definition BlockMaintenanceJobForRoute (now : Time) (tenantID runID : string) (analyzerVersion : Z)
    (routeID lastError : string) (s : MaintState) : MaintState * bool :=
  let version := normVersion analyzerVersion in
  let lastError := boundedText lastError 500 in
  let routeID := if (routeID =? "")%string then maintenanceUnclassifiedProviderRouteID
                 else routeID in
  let cond := fun r => at_job tenantID runID version r && job_is MaintenanceJobRunning r in
  record_if (rows_affected cond (jobs s)) now tenantID runID version "blocked_provider" lastError
    routeID
    (s <| jobs := update_where cond (fun r =>
         r <| j_status := MaintenanceJobBlockedProvider |> <| j_blocked_route_id := routeID |>
           <| j_last_error := lastError |> <| j_next_retry_at := 0%Z |>
           <| j_updated_at := Unix now |>) (jobs s) |>).

Definition BlockMaintenanceJob (now : Time) (tenantID runID : string) (analyzerVersion : Z)
    (lastError : string) (s : MaintState) : MaintState * bool :=
  BlockMaintenanceJobForRoute now tenantID runID analyzerVersion "" lastError s.

Definition BlockMaintenanceJobForPromptRevision (now : Time) (tenantID runID : string)
    (analyzerVersion : Z) (lastError : string) (s : MaintState) : MaintState * bool :=
  let version := normVersion analyzerVersion in
  let lastError := boundedText lastError 500 in
  let cond := fun r => at_job tenantID runID version r && job_is MaintenanceJobRunning r in
  record_if (rows_affected cond (jobs s)) now tenantID runID version "blocked_prompt_revision"
    lastError ""
    (s <| jobs := update_where cond (fun r =>
         r <| j_status := MaintenanceJobBlockedPromptRevision |> <| j_blocked_route_id := "" |>
           <| j_last_error := lastError |> <| j_next_retry_at := 0%Z |>
           <| j_updated_at := Unix now |>) (jobs s) |>).

Definition blockMaintenanceJobAfterRetriesForRoute (now : Time) (tenantID runID : string)
    (analyzerVersion : Z) (routeID lastError : string) (s : MaintState) : MaintState * bool :=
  let version := normVersion analyzerVersion in
  let lastError := boundedText lastError 500 in
  let lastError := if (lastError =? "")%string
    then "maintenance retries exhausted without a recorded provider error" else lastError in
  let routeID := if isMaintenanceNetworkRouteID routeID then routeID
                 else maintenanceRetryLimitRouteID in
  let cond := fun r => at_job tenantID runID version r
                       && job_in [MaintenanceJobPending; MaintenanceJobFailed] r in
  record_if (rows_affected cond (jobs s)) now tenantID runID version
    (if isMaintenanceNetworkRouteID routeID then "blocked_network" else "blocked_retry_limit")
    lastError routeID
    (s <| jobs := update_where cond (fun r =>
         r <| j_status := MaintenanceJobBlockedProvider |> <| j_blocked_route_id := routeID |>
           <| j_last_error := (if (sql_trim (j_last_error r) =? "")%string then lastError
                               else j_last_error r) |>
           <| j_next_retry_at := 0%Z |> <| j_updated_at := Unix now |>) (jobs s) |>).

Definition BlockMaintenanceJobAfterRetries (now : Time) (tenantID runID : string)
    (analyzerVersion : Z) (lastError : string) (s : MaintState) : MaintState * bool :=
  blockMaintenanceJobAfterRetriesForRoute now tenantID runID analyzerVersion
    maintenanceRetryLimitRouteID lastError s.

(** ** Claims *)

(** [status = 'pending' OR (status = 'failed' AND next_retry_at <= now)]. *)
Definition job_due (now : Time) (r : JobRow) : bool :=
  job_is MaintenanceJobPending r
  || job_is MaintenanceJobFailed r && (j_next_retry_at r <=? Unix now)%Z.

Definition claimable_job (now : Time) (tenantID runID : string) (version maxAttempts : Z)
    (r : JobRow) : bool :=
  at_job tenantID runID version r && job_due now r
  && (if (0 <? maxAttempts)%Z then (j_attempts r <? maxAttempts)%Z else true).

(** The claim statement: the new table and the rows affected. *)
Definition claimUpdate (now : Time) (tenantID runID : string) (version maxAttempts : Z)
    (s : MaintState) : MaintState * Z :=
  let cond := claimable_job now tenantID runID version maxAttempts in
  (s <| jobs := update_where cond (fun r =>
       r <| j_status := MaintenanceJobRunning |> <| j_attempts := (j_attempts r + 1)%Z |>
         <| j_updated_at := Unix now |>) (jobs s) |>,
   rows_affected cond (jobs s)).

(** The result is the pair (claimed, exhausted). *)
Definition ClaimMaintenanceJobWithLimit (now : Time) (tenantID runID : string)
    (analyzerVersion maxAttempts : Z) (s : MaintState) : MaintState * (bool * bool) :=
  let version := normVersion analyzerVersion in
  let '(s, n) := claimUpdate now tenantID runID version maxAttempts s in
  if (0 <? n)%Z || (maxAttempts <=? 0)%Z then (s, ((0 <? n)%Z, false)) else
  match query_row (at_job tenantID runID version) (jobs s) with
  | None => (s, (false, false))
  | Some r =>
      if (j_attempts r <? maxAttempts)%Z
         || negb (job_is MaintenanceJobPending r) && negb (job_is MaintenanceJobFailed r)
      then (s, (false, false))
      else
        let blockedRouteID := if isMaintenanceNetworkRouteID (j_blocked_route_id r)
                              then j_blocked_route_id r else maintenanceRetryLimitRouteID in
        let '(s, blocked) := blockMaintenanceJobAfterRetriesForRoute now tenantID runID version
                               blockedRouteID (j_last_error r) s in
        (s, (false, blocked || job_is MaintenanceJobBlockedProvider r))
  end.

Definition ClaimMaintenanceJob (now : Time) (tenantID runID : string) (analyzerVersion : Z)
    (s : MaintState) : MaintState * bool :=
  let '(s, (claimed, _)) := ClaimMaintenanceJobWithLimit now tenantID runID analyzerVersion 0 s in
  (s, claimed).

Definition ListRunnableMaintenanceJobs (now : Time) (analyzerVersion limit : Z) (s : MaintState)
  : list MaintenanceJob :=
  let limit := if (limit <=? 0)%Z || (500 <? limit)%Z then 20%Z else limit in
  map scanJob (sql_limit limit
    (order_by (fun a b => (j_created_at a <=? j_created_at b)%Z)
      (select_where (fun r => (j_analyzer_version r =? normVersion analyzerVersion)%Z
                              && job_due now r) (jobs s)))).

Definition GetMaintenanceJob (tenantID runID : string) (analyzerVersion : Z) (s : MaintState)
  : option MaintenanceJob :=
  match query_row (at_job tenantID runID (normVersion analyzerVersion)) (jobs s) with
  | None => None
  | Some r =>
      Some (mkMaintenanceJob (j_run_id r) (j_analyzer_version r) (j_tenant_id r) (j_status r)
              (j_attempts r)
              (if (0 <? j_next_retry_at r)%Z then TimeOfUnix (j_next_retry_at r) else ZeroTime)
              (j_result_hash r) (j_payload_json r) (j_proposal_json r) (j_blocked_route_id r)
              (j_last_error r) (TimeOfUnix (j_created_at r)) (TimeOfUnix (j_updated_at r)))
  end.

(** ** Sweeps *)

(** [status = pending, attempts = 0, next_retry_at = 0, blocked_route_id = '',
    last_error = '', updated_at = ?]: a job released with a fresh budget. *)
Definition released (now : Time) (r : JobRow) : JobRow :=
  r <| j_status := MaintenanceJobPending |> <| j_attempts := 0%Z |> <| j_next_retry_at := 0%Z |>
    <| j_blocked_route_id := "" |> <| j_last_error := "" |> <| j_updated_at := Unix now |>.

Definition release_where (now : Time) (cond : JobRow -> bool) (s : MaintState) : MaintState * Z :=
  (s <| jobs := update_where cond (released now) (jobs s) |>, rows_affected cond (jobs s)).

Definition network_parked (r : JobRow) : bool :=
  job_in [MaintenanceJobFailed; MaintenanceJobBlockedProvider] r
  && sql_like_prefix (j_blocked_route_id r) maintenanceNetworkRoutePrefix.

Definition RequeueNetworkBlockedMaintenanceJobs (currentFingerprint : string) (now : Time)
    (s : MaintState) : MaintState * Z :=
  let currentRouteID := MaintenanceNetworkRouteID currentFingerprint in
  if (currentRouteID =? "")%string then (s, 0%Z) else
  release_where now (fun r => network_parked r
                              && negb (j_blocked_route_id r =? currentRouteID)%string) s.

Definition ResetNetworkBlockedMaintenanceJobs (now : Time) (s : MaintState) : MaintState * Z :=
  release_where now network_parked s.

Definition ResetLegacyBlockedMaintenanceJobs (now : Time) (s : MaintState) : MaintState * Z :=
  let cond := fun r => job_is MaintenanceJobBlockedProvider r
                       && (sql_trim (j_blocked_route_id r) =? "")%string in
  (s <| jobs := update_where cond (fun r =>
       r <| j_status := MaintenanceJobPending |>
         <| j_blocked_route_id := maintenanceLegacyProbeRouteID |> <| j_next_retry_at := 0%Z |>
         <| j_updated_at := Unix now |>) (jobs s) |>,
   rows_affected cond (jobs s)).

Definition ResetBlockedMaintenanceJobs (now : Time) (s : MaintState) : MaintState * Z :=
  let cond := job_is MaintenanceJobBlockedProvider in
  (s <| jobs := update_where cond (fun r =>
       r <| j_status := MaintenanceJobPending |> <| j_blocked_route_id := "" |>
         <| j_next_retry_at := 0%Z |> <| j_updated_at := Unix now |>) (jobs s) |>,
   rows_affected cond (jobs s)).

(** [cutoff] and [updated_at] come from two readings of the clock. *)
Definition ResetStaleMaintenanceJobs (now now' : Time) (olderThan : Duration) (s : MaintState)
  : MaintState * Z :=
  let cutoff := Unix (Add now (- olderThan)%Z) in
  let cond := fun r => job_is MaintenanceJobRunning r && (j_updated_at r <=? cutoff)%Z in
  (s <| jobs := update_where cond (fun r =>
       r <| j_status := MaintenanceJobPending |> <| j_updated_at := Unix now' |>) (jobs s) |>,
   rows_affected cond (jobs s)).

(** [ORDER BY updated_at ASC, run_id ASC]. *)
Definition replay_order (a b : JobRow) : bool :=
  (j_updated_at a <? j_updated_at b)%Z
  || (j_updated_at a =? j_updated_at b)%Z && String.leb (j_run_id a) (j_run_id b).

(** [UPDATE ... WHERE rowid IN (SELECT ... WHERE cond ORDER BY ... LIMIT limit)]:
    the rows of the selected keys go back to pending. *)
Definition replay_where (now : Time) (limit : Z) (cond : JobRow -> bool) (s : MaintState)
  : MaintState * Z :=
  let limit := if (limit <=? 0)%Z || (500 <? limit)%Z then 100%Z else limit in
  let selected := sql_limit limit (order_by replay_order (select_where cond (jobs s))) in
  let hit := fun r => existsb (same_job r) selected in
  (s <| jobs := update_where hit (fun r =>
       r <| j_status := MaintenanceJobPending |> <| j_attempts := 0%Z |> <| j_next_retry_at := 0%Z |>
         <| j_last_error := "" |> <| j_updated_at := Unix now |>) (jobs s) |>,
   rows_affected hit (jobs s)).

(** The newest generation of the tenant's jobs that belong to a Run. *)
Definition tenant_generation (runs : list Run) (t : list JobRow) (tenant : string) : option Z :=
  max_version (fun c => (j_tenant_id c =? tenant)%string
    && existsb (fun x => (run_tenant_id x =? j_tenant_id c)%string
                         && (run_id x =? j_run_id c)%string) runs) t.

Definition retry_limited (runs : list Run) (tenantID : string) (t : list JobRow) (r : JobRow) : bool :=
  (j_tenant_id r =? normalizeTenant tenantID)%string
  && is_version (j_analyzer_version r) (tenant_generation runs t (j_tenant_id r))
  && latest_generation t r
  && (job_is MaintenanceJobBlockedProvider r
        && (j_blocked_route_id r =? maintenanceRetryLimitRouteID)%string
      || job_is MaintenanceJobSkipped r
        && (j_last_error r =? "maintenance retry limit reached")%string)
  && negb (sql_trim (j_payload_json r) =? "")%string.

Definition ReplayRetryLimitedMaintenanceJobs (now : Time) (runs : list Run) (tenantID : string)
    (limit : Z) (s : MaintState) : MaintState * Z :=
  replay_where now limit (retry_limited runs tenantID (jobs s)) s.

Definition CountBlockedPromptRevisionMaintenanceJobs (tenantID : string) (s : MaintState) : Z :=
  rows_affected (fun r => (j_tenant_id r =? normalizeTenant tenantID)%string
    && job_is MaintenanceJobBlockedPromptRevision r && latest_generation (jobs s) r) (jobs s).

Definition prompt_parked (tenantID : string) (t : list JobRow) (r : JobRow) : bool :=
  (j_tenant_id r =? normalizeTenant tenantID)%string
  && job_is MaintenanceJobBlockedPromptRevision r
  && latest_generation t r
  && (negb (sql_trim (j_payload_json r) =? "")%string
      || negb (sql_trim (j_proposal_json r) =? "")%string).

Definition ReplayPromptRevisionMaintenanceJobs (now : Time) (tenantID : string) (limit : Z)
    (s : MaintState) : MaintState * Z :=
  replay_where now limit (prompt_parked tenantID (jobs s)) s.

(** ** Provider circuits *)

Definition unixTime (value : Z) : Time := if (value <=? 0)%Z then ZeroTime else TimeOfUnix value.

(** [tenant_id = ? AND route_id = ?]; the tenant is already normalised. *)
Definition at_route (tenant routeID : string) (r : RouteRow) : bool :=
  (pr_tenant_id r =? tenant)%string && (pr_route_id r =? routeID)%string.

Definition route_open (r : RouteRow) : bool := (pr_state r =? ProviderRouteOpen)%string.

(** The result is (allowed, probe, nextProbe). *)
Definition ClaimProviderRoute (tenantID routeID provider model : string) (now : Time)
    (probeLease : Duration) (s : MaintState) : MaintState * (bool * bool * Time) :=
  if (routeID =? "")%string then (s, (true, false, ZeroTime)) else
  let probeLease := if (probeLease <=? 0)%Z then (2 * Minute)%Z else probeLease in
  let tenant := normalizeTenant tenantID in
  match query_row (at_route tenant routeID) (routes s) with
  | None =>
      (s <| routes := (routes s ++ [mkRouteRow tenant routeID provider model ProviderRouteClosed ""
                                      0 0 0 0 "" "" (Unix now)])%list |>,
       (true, false, ZeroTime))
  | Some r =>
      if negb (route_open r) then (s, (true, false, ZeroTime)) else
      let nextProbe := unixTime (pr_next_probe_at r) in
      if (Unix now <? pr_next_probe_at r)%Z || (Unix now <? pr_probe_lease_until r)%Z
      then (s, (false, false, nextProbe))
      else
        let cond := fun r => at_route tenant routeID r && route_open r
                             && (pr_probe_lease_until r <=? Unix now)%Z in
        let n := rows_affected cond (routes s) in
        (s <| routes := update_where cond (fun r =>
             r <| pr_probe_lease_until := Unix (Add now probeLease) |>
               <| pr_updated_at := Unix now |>) (routes s) |>,
         ((0 <? n)%Z, (0 <? n)%Z, nextProbe))
  end.

(** Durations are 64-bit: [delay *= 2] wraps. *)
Definition wrap64 (z : Z) : Z := ((z + 2 ^ 63) mod 2 ^ 64 - 2 ^ 63)%Z.

(** [for i := 1; i < failures && delay < maximum; i++]: at most [failures - 1]
    iterations. *)
Fixpoint backoff_loop (n : nat) (delay maximum : Duration) : Duration :=
  match n with
  | O => delay
  | S n =>
      if (delay <? maximum)%Z
      then if (maximum / 2 <? delay)%Z then maximum
           else backoff_loop n (wrap64 (delay * 2)) maximum
      else delay
  end.

Definition openDelay (failures : Z) (initial maximum : Duration) : Duration :=
  let delay := backoff_loop (Z.to_nat (failures - 1)) initial maximum in
  if (maximum <? delay)%Z then maximum else delay.

Definition OpenProviderRoute (tenantID routeID provider model failureClass lastError requestID : string)
    (now : Time) (initial maximum : Duration) (s : MaintState) : MaintState * Time :=
  if (routeID =? "")%string then (s, ZeroTime) else
  let initial := if (initial <=? 0)%Z then (15 * Minute)%Z else initial in
  let maximum := if (maximum <? initial)%Z then initial else maximum in
  let lastError := boundedText lastError 500 in
  let requestID := boundedText requestID 160 in
  let tenant := normalizeTenant tenantID in
  let '(failures, openedAt) := match query_row (at_route tenant routeID) (routes s) with
                               | Some r => (pr_consecutive_failures r, pr_opened_at r)
                               | None => (0%Z, 0%Z)
                               end in
  let failures := (failures + 1)%Z in
  let openedAt := if (openedAt =? 0)%Z then Unix now else openedAt in
  let next := Add now (openDelay failures initial maximum) in
  let row := mkRouteRow tenant routeID provider model ProviderRouteOpen failureClass failures
               openedAt (Unix next) 0 lastError requestID (Unix now) in
  (if existsb (at_route tenant routeID) (routes s)
   then s <| routes := update_where (at_route tenant routeID) (fun _ => row) (routes s) |>
   else s <| routes := (routes s ++ [row])%list |>, next).

(** The jobs a route holds. *)
Definition held_by (tenant routeID : string) (r : JobRow) : bool :=
  (j_tenant_id r =? tenant)%string && job_is MaintenanceJobBlockedProvider r
  && (j_blocked_route_id r =? routeID)%string.

Definition CloseProviderRoute (tenantID routeID : string) (now : Time) (s : MaintState)
  : MaintState * Z :=
  if (routeID =? "")%string then (s, 0%Z) else
  let tenant := normalizeTenant tenantID in
  let s := s <| routes := update_where (at_route tenant routeID) (fun r =>
      r <| pr_state := ProviderRouteClosed |> <| pr_failure_class := "" |>
        <| pr_consecutive_failures := 0%Z |> <| pr_next_probe_at := 0%Z |>
        <| pr_probe_lease_until := 0%Z |> <| pr_last_error := "" |> <| pr_last_request_id := "" |>
        <| pr_updated_at := Unix now |>) (routes s) |> in
  release_where now (held_by tenant routeID) s.

Definition DeferProviderRouteProbe (tenantID routeID : string) (now : Time) (delay : Duration)
    (s : MaintState) : MaintState :=
  if (routeID =? "")%string then s else
  let delay := if (delay <=? 0)%Z then (15 * Minute)%Z else delay in
  s <| routes := update_where (fun r => at_route (normalizeTenant tenantID) routeID r && route_open r)
    (fun r => r <| pr_next_probe_at := Unix (Add now delay) |> <| pr_probe_lease_until := 0%Z |>
                <| pr_updated_at := Unix now |>) (routes s) |>.

Definition probe_due (now : Time) (r : RouteRow) : bool :=
  route_open r && (pr_next_probe_at r <=? Unix now)%Z && (pr_probe_lease_until r <=? Unix now)%Z.

(** The job a due route's probe uses: its oldest one by [updated_at]. *)
Definition probe_candidate (tenant routeID : string) (t : list JobRow) : option JobRow :=
  hd_error (order_by (fun a b => (j_updated_at a <=? j_updated_at b)%Z)
              (select_where (held_by tenant routeID) t)).

(** [UPDATE ... WHERE rowid = (SELECT rowid ... ORDER BY updated_at ASC LIMIT 1)]. *)
Definition promoteOne (now : Time) (tenant routeID : string) (s : MaintState) : MaintState * Z :=
  let hit := fun r => match probe_candidate tenant routeID (jobs s) with
                      | Some c => same_job r c
                      | None => false
                      end in
  (s <| jobs := update_where hit (fun r =>
       r <| j_status := MaintenanceJobPending |> <| j_next_retry_at := 0%Z |>
         <| j_updated_at := Unix now |>) (jobs s) |>,
   rows_affected hit (jobs s)).

Fixpoint promoteDue (now : Time) (due : list RouteRow) (s : MaintState) : MaintState * Z :=
  match due with
  | [] => (s, 0%Z)
  | r :: rest =>
      let '(s, n) := promoteOne now (pr_tenant_id r) (pr_route_id r) s in
      let '(s, total) := promoteDue now rest s in
      (s, (n + total)%Z)
  end.

Definition RequeueDueProviderRouteProbes (now : Time) (s : MaintState) : MaintState * Z :=
  promoteDue now (select_where (probe_due now) (routes s)) s.

(** The trimmed, non-empty route ids, each at its first occurrence. *)
Fixpoint uniqueRoutes (seen : list string) (ids : list string) : list string :=
  match ids with
  | [] => []
  | x :: rest =>
      let x := TrimSpace x in
      if (x =? "")%string || existsb (String.eqb x) seen then uniqueRoutes seen rest
      else x :: uniqueRoutes (x :: seen) rest
  end.

Definition RequeueBlockedJobsForInactiveProviderRoutes (tenantID : string)
    (activeRouteIDs : list string) (now : Time) (s : MaintState) : MaintState * Z :=
  let unique := uniqueRoutes [] activeRouteIDs in
  match unique with
  | [] => (s, 0%Z)
  | _ =>
      release_where now (fun r => (j_tenant_id r =? normalizeTenant tenantID)%string
        && job_is MaintenanceJobBlockedProvider r
        && negb (sql_trim (j_blocked_route_id r) =? "")%string
        && negb (sql_like_prefix (j_blocked_route_id r) "policy:")
        && negb (sql_like_prefix (j_blocked_route_id r) "network:")
        && negb (existsb (String.eqb (j_blocked_route_id r)) unique)) s
  end.

Record ProviderRouteHealth := mkProviderRouteHealth {
  ph_TenantID : string;
  ph_RouteID : string;
  ph_Provider : string;
  ph_Model : string;
  ph_State : string;
  ph_FailureClass : string;
  ph_ConsecutiveFailure : Z;
  ph_OpenedAt : Time;
  ph_NextProbeAt : Time;
  ph_ProbeLeaseUntil : Time;
  ph_LastError : string;
  ph_LastRequestID : string;
  ph_UpdatedAt : Time
}.

Definition GetProviderRouteHealth (tenantID routeID : string) (s : MaintState)
  : option ProviderRouteHealth :=
  match query_row (at_route (normalizeTenant tenantID) routeID) (routes s) with
  | None => None
  | Some r =>
      Some (mkProviderRouteHealth (pr_tenant_id r) (pr_route_id r) (pr_provider r) (pr_model r)
              (pr_state r) (pr_failure_class r) (pr_consecutive_failures r)
              (unixTime (pr_opened_at r)) (unixTime (pr_next_probe_at r))
              (unixTime (pr_probe_lease_until r)) (pr_last_error r) (pr_last_request_id r)
              (unixTime (pr_updated_at r)))
  end.

(** A route is healthy unless its circuit is recorded as open. *)
Definition route_healthy (tenantID : string) (s : MaintState) (routeID : string) : bool :=
  match GetProviderRouteHealth tenantID routeID s with
  | None => true
  | Some h => negb (ph_State h =? ProviderRouteOpen)%string
  end.

Definition requeueBlockedJobsForHealthyProviderRoutes (healthTenantID jobTenantID : string)
    (analyzerVersion : Z) (routeIDs : list string) (now : Time) (s : MaintState) : MaintState * Z :=
  if (analyzerVersion <=? 0)%Z then (s, 0%Z) else
  let unique := uniqueRoutes [] routeIDs in
  if negb (existsb (route_healthy healthTenantID s) unique) then (s, 0%Z) else
  release_where now (fun r => (j_analyzer_version r =? analyzerVersion)%Z
    && job_is MaintenanceJobBlockedProvider r
    && (if blank jobTenantID then true
        else (j_tenant_id r =? normalizeTenant jobTenantID)%string)
    && existsb (String.eqb (j_blocked_route_id r)) unique) s.

Definition RequeueBlockedJobsForHealthyProviderRoutes (tenantID : string) (analyzerVersion : Z)
    (routeIDs : list string) (now : Time) (s : MaintState) : MaintState * Z :=
  requeueBlockedJobsForHealthyProviderRoutes tenantID tenantID analyzerVersion routeIDs now s.

Definition RequeueBlockedJobsForHealthyProviderRoutesAcrossTenants (healthTenantID : string)
    (analyzerVersion : Z) (routeIDs : list string) (now : Time) (s : MaintState) : MaintState * Z :=
  requeueBlockedJobsForHealthyProviderRoutes healthTenantID "" analyzerVersion routeIDs now s.
