(* ===== verification/MaintenanceTheory.v ===== *)
(** * Properties of maintenance jobs and provider circuits

    Histories of the statements of [Maintenance] and what they preserve: keys and
    statuses, finality of a succeeded job, exclusive claims, the retry budget,
    frozen replay payloads, generation migration, and the provider circuit. *)

From stdpp Require Import base tactics list strings.
From Stdlib Require Import ZArith Lia Bool Ascii String List Permutation Sorted.
From S2P Require Import Prelude GoLib Sql Admission Store Maintenance.

(** ** Histories

    One constructor per statement or transaction that changes a table, in the
    order they commit; a handler of several statements is several steps, so every
    interleaving of handlers is a history. *)

Inductive maint_op : Type :=
| MMigrate (now : Time) (targetVersion : Z)
| MEnqueue (now : Time) (tenantID k : string) (version : Z) (payload : string)
| MCreate (now : Time) (tenantID runID : string) (version : Z) (payload : string)
| MSetPayload (now : Time) (tenantID runID : string) (version : Z) (payload : string)
| MSaveProposal (now : Time) (tenantID runID : string) (version : Z) (proposal hash : string)
| MSkip (now : Time) (tenantID runID : string) (version : Z) (reason : string)
| MComplete (now : Time) (tenantID runID : string) (version : Z) (hash : string)
| MFail (now : Time) (tenantID runID : string) (version : Z) (route err : string) (retry : Duration)
| MBlock (now : Time) (tenantID runID : string) (version : Z) (route err : string)
| MBlockPrompt (now : Time) (tenantID runID : string) (version : Z) (err : string)
| MBlockRetries (now : Time) (tenantID runID : string) (version : Z) (route err : string)
| MClaim (now : Time) (tenantID runID : string) (version maxAttempts : Z)
| MPrune (now : Time) (olderThan : Duration)
| MRequeueNetwork (fingerprint : string) (now : Time)
| MResetNetwork (now : Time)
| MResetLegacy (now : Time)
| MResetBlocked (now : Time)
| MResetStale (now now' : Time) (olderThan : Duration)
| MReplayRetry (now : Time) (runs : list Run) (tenantID : string) (limit : Z)
| MReplayPrompt (now : Time) (tenantID : string) (limit : Z)
| MClaimRoute (tenantID routeID provider model : string) (now : Time) (lease : Duration)
| MOpenRoute (tenantID routeID provider model class err req : string) (now : Time)
    (initial maximum : Duration)
| MCloseRoute (tenantID routeID : string) (now : Time)
| MDeferRoute (tenantID routeID : string) (now : Time) (delay : Duration)
| MPromote (now : Time) (tenant routeID : string)
| MInactive (tenantID : string) (active : list string) (now : Time)
| MHealthy (healthTenantID jobTenantID : string) (version : Z) (ids : list string) (now : Time).

Definition exec_maint (op : maint_op) (s : MaintState) : MaintState :=
  match op with
  | MMigrate now v => fst (MigrateMaintenanceJobsToVersion now v s)
  | MEnqueue now tn k v p => fst (EnqueueMaintenanceJob now tn k v p s)
  | MCreate now tn rid v p => createMaintenanceJobTx now tn rid v p s
  | MSetPayload now tn rid v p => SetMaintenanceJobPayload now tn rid v p s
  | MSaveProposal now tn rid v p h => SaveMaintenanceProposal now tn rid v p h s
  | MSkip now tn rid v e => SkipMaintenanceJob now tn rid v e s
  | MComplete now tn rid v h => CompleteMaintenanceJob now tn rid v h s
  | MFail now tn rid v rt e d => FailMaintenanceJobForRoute now tn rid v rt e d s
  | MBlock now tn rid v rt e => fst (BlockMaintenanceJobForRoute now tn rid v rt e s)
  | MBlockPrompt now tn rid v e => fst (BlockMaintenanceJobForPromptRevision now tn rid v e s)
  | MBlockRetries now tn rid v rt e =>
      fst (blockMaintenanceJobAfterRetriesForRoute now tn rid v rt e s)
  | MClaim now tn rid v m => fst (claimUpdate now tn rid (normVersion v) m s)
  | MPrune now d => fst (PruneMaintenanceAttempts now d s)
  | MRequeueNetwork fp now => fst (RequeueNetworkBlockedMaintenanceJobs fp now s)
  | MResetNetwork now => fst (ResetNetworkBlockedMaintenanceJobs now s)
  | MResetLegacy now => fst (ResetLegacyBlockedMaintenanceJobs now s)
  | MResetBlocked now => fst (ResetBlockedMaintenanceJobs now s)
  | MResetStale now now' d => fst (ResetStaleMaintenanceJobs now now' d s)
  | MReplayRetry now runs tn l => fst (ReplayRetryLimitedMaintenanceJobs now runs tn l s)
  | MReplayPrompt now tn l => fst (ReplayPromptRevisionMaintenanceJobs now tn l s)
  | MClaimRoute tn rt p m now d => fst (ClaimProviderRoute tn rt p m now d s)
  | MOpenRoute tn rt p m c e rq now i x => fst (OpenProviderRoute tn rt p m c e rq now i x s)
  | MCloseRoute tn rt now => fst (CloseProviderRoute tn rt now s)
  | MDeferRoute tn rt now d => DeferProviderRouteProbe tn rt now d s
  | MPromote now tn rt => fst (promoteOne now tn rt s)
  | MInactive tn l now => fst (RequeueBlockedJobsForInactiveProviderRoutes tn l now s)
  | MHealthy ht jt v l now => fst (requeueBlockedJobsForHealthyProviderRoutes ht jt v l now s)
  end.

Definition exec_maints (ops : list maint_op) (s : MaintState) : MaintState :=
  fold_left (fun s op => exec_maint op s) ops s.

(** ** What one step may do to one job *)

Definition knownStatuses : list string :=
  [MaintenanceJobPending; MaintenanceJobRunning; MaintenanceJobSucceeded; MaintenanceJobFailed;
   MaintenanceJobSkipped; MaintenanceJobBlockedProvider; MaintenanceJobBlockedPromptRevision].

(** The steps that may end the claim on the job of key [k]: the owner settling it,
    and the sweep of crashed workers. *)
Definition may_end_claim (k : string * Z) (op : maint_op) : bool :=
  match op with
  | MSkip _ _ rid v _ | MComplete _ _ rid v _ | MFail _ _ rid v _ _ _ | MBlock _ _ rid v _ _
  | MBlockPrompt _ _ rid v _ => bool_decide ((rid, normVersion v) = k)
  | MResetStale _ _ _ => true
  | _ => false
  end.

(** The steps by which an operator, or a sweep that names the retry-limit policy as
    if it were a provider route, releases a retry-exhausted job. *)
Definition may_release_exhausted (op : maint_op) : bool :=
  match op with
  | MReplayRetry _ _ _ _ | MResetBlocked _ => true
  | MCloseRoute _ rt _ | MPromote _ _ rt => (rt =? maintenanceRetryLimitRouteID)%string
  | MHealthy _ _ _ ids _ => existsb (String.eqb maintenanceRetryLimitRouteID) (uniqueRoutes [] ids)
  | _ => false
  end.

Definition exhausted (r : JobRow) : Prop :=
  j_status r = MaintenanceJobBlockedProvider /\ j_blocked_route_id r = maintenanceRetryLimitRouteID.

Record job_step (op : maint_op) (r r' : JobRow) : Prop := {
  js_key : key r' = key r;
  js_tenant : j_tenant_id r' = j_tenant_id r;
  js_status : j_status r' = j_status r \/ In (j_status r') knownStatuses;
  js_succeeded : j_status r = MaintenanceJobSucceeded -> r' = r;
  js_running : j_status r = MaintenanceJobRunning ->
    j_status r' = MaintenanceJobRunning /\ j_attempts r' = j_attempts r
    \/ may_end_claim (key r) op = true;
  js_attempts : j_attempts r' = j_attempts r \/ j_attempts r' = 0%Z \/
    exists now tn rid v m, op = MClaim now tn rid v m /\ j_attempts r' = (j_attempts r + 1)%Z /\
      ((0 < m)%Z -> (j_attempts r < m)%Z);
  js_payload : sql_trim (j_payload_json r) <> "" -> j_payload_json r' = j_payload_json r \/
    exists now tn rid v p, op = MSetPayload now tn rid v p;
  js_exhausted : exhausted r -> r' = r \/ may_release_exhausted op = true
}.

Lemma job_step_refl op r : job_step op r r.
Proof. constructor; auto. Qed.
#[export] Hint Resolve job_step_refl : control.

(** What a step may append: pending work with a key of its own. *)
Record job_new (t : list JobRow) (x : JobRow) : Prop := {
  jn_key : lookup_key (key x) t = None;
  jn_tenant : exists tn, j_tenant_id x = normalizeTenant tn;
  jn_attempts : j_attempts x = 0%Z \/ exists r, In r t /\ j_attempts x = j_attempts r;
  jn_status : In (j_status x) knownStatuses \/ exists r, In r t /\ j_status x = j_status r
}.

Definition jobs_step (op : maint_op) (t t' : list JobRow) : Prop :=
  exists g new, t' = map g t ++ new /\ (forall r, key (g r) = key r) /\
    (forall r, In r t -> job_step op r (g r)) /\
    Forall (job_new t) new /\ keys_unique new.

Lemma at_job_key tn rid v r : at_job tn rid v r = true -> key r = (rid, v).
Proof. unfold at_job. intros. reflect_bools. unfold key, JobRow_keyed. by f_equal. Qed.

Lemma job_in_In l r : job_in l r = true <-> In (j_status r) l.
Proof.
  unfold job_in. rewrite existsb_exists. split.
  - intros (x & Hx & Heq). reflect_bools. by subst.
  - intros H. exists (j_status r). split; [done|]. apply String.eqb_refl.
Qed.

Lemma jobs_step_refl op t : jobs_step op t t.
Proof.
  exists id, []. rewrite map_id, app_nil_r. split; [done|]. split; [done|].
  split; [|split; [constructor|constructor]]. intros. apply job_step_refl.
Qed.

(** An [UPDATE] that keeps keys and whose row change is a step. *)
Lemma update_jobs_step op cond f t :
  (forall r, key (f r) = key r) ->
  (forall r, In r t -> cond r = true -> job_step op r (f r)) ->
  jobs_step op t (update_where cond f t).
Proof.
  intros Hk H. exists (fun r => if cond r then f r else r), []. rewrite app_nil_r.
  split; [done|]. split; [intros r; destruct (cond r); auto|].
  split; [|split; [constructor|constructor]].
  intros r Hr. destruct (cond r) eqn:E; auto with control.
Qed.

(** Case analysis on the status a condition fixes. *)
Ltac status_cases :=
  unfold job_is in *; reflect_bools;
  repeat match goal with
    | H : job_in _ _ = true |- _ => apply job_in_In in H; simpl in H
    | H : _ \/ _ |- _ => destruct H
    | H : False |- _ => destruct H
    | H : false = true |- _ => discriminate H
    | _ => progress reflect_bools
    end.

Ltac status_clash :=
  exfalso; unfold exhausted in *;
  repeat match goal with H : _ /\ _ |- _ => destruct H end;
  match goal with
  | H1 : j_status ?r = _, H2 : j_status ?r = _ |- _ => rewrite H1 in H2; discriminate H2
  | H1 : _ = j_status ?r, H2 : j_status ?r = _ |- _ => rewrite <- H1 in H2; discriminate H2
  end.

(** The step obligations of a statement that leaves tenant and key alone. *)
Ltac solve_job_step :=
  constructor; simpl;
  [ done | done | first [by left | right; simpl; tauto]
  | intros; first [done | status_clash]
  | intros; first [left; done | status_clash
                  | right; apply bool_decide_eq_true; symmetry; eapply at_job_key; eassumption
                  | right; reflexivity]
  | first [by left | right; left; done]
  | intros; first [left; done | congruence | right; eauto 10]
  | intros; first [left; done | status_clash | right; simpl; done | idtac] ].

Lemma released_step op now t r :
  j_status r = MaintenanceJobBlockedProvider \/ j_status r = MaintenanceJobFailed -> In r t ->
  (exhausted r -> may_release_exhausted op = true) -> job_step op r (released now r).
Proof.
  intros Hs _ Hx. destruct Hs as [Hs|Hs]; constructor; simpl; try done; auto 8.
  all: intros; try status_clash; auto.
Qed.

(** ** Creation and migration *)

Lemma same_job_false a b : same_job a b = false -> key b <> key a.
Proof. unfold same_job. intros H%bool_decide_eq_false_1. congruence. Qed.

Lemma insert_job x t :
  exists new, fst (insert_or_ignore same_job x t) = t ++ new /\
    (new = [] \/ new = [x] /\ lookup_key (key x) t = None).
Proof.
  destruct (insert_or_ignore same_job x t) as [t' n] eqn:E.
  apply insert_or_ignore_cases in E as [(-> & -> & _)|(-> & -> & Hc)]; simpl.
  - exists []. rewrite app_nil_r. auto.
  - exists [x]. split; [done|]. right. split; [done|]. apply lookup_key_None.
    intros r Hr Hk. specialize (Hc r Hr). apply same_job_false in Hc. congruence.
Qed.

Lemma newJob_new t rid v tn payload now :
  lookup_key (rid, v) t = None -> job_new t (newJob rid v (normalizeTenant tn) payload now).
Proof. intros H. constructor; simpl; eauto. Qed.

Lemma insert_new_step op t rid v tn payload now :
  jobs_step op t (fst (insert_or_ignore same_job (newJob rid v (normalizeTenant tn) payload now) t)).
Proof.
  destruct (insert_job (newJob rid v (normalizeTenant tn) payload now) t) as (new & -> & Hn).
  exists id, new. rewrite map_id. split; [done|]. split; [done|].
  split; [intros; apply job_step_refl|]. destruct Hn as [->|[-> Hn]].
  - split; constructor.
  - split; [|apply keys_unique_single]. constructor; [|constructor]. by apply newJob_new.
Qed.

Lemma create_step now tn rid v payload s :
  jobs_step (MCreate now tn rid v payload) (jobs s)
    (jobs (createMaintenanceJobTx now tn rid v payload s)).
Proof.
  unfold createMaintenanceJobTx. case_if; [apply jobs_step_refl|]. cbv zeta.
  set (x := newJob rid (normVersion v) (normalizeTenant tn) payload now).
  pose proof (insert_new_step (MCreate now tn rid v payload) (jobs s) rid (normVersion v) tn payload
    now) as Hi.
  destruct (insert_job x (jobs s)) as (new & Hn & Hc). unfold x in Hn.
  destruct (insert_or_ignore _ _ (jobs s)) as [t n]; simpl in Hn, Hi. subst t.
  case_if; [done|]. simpl.
  set (cond := fun r : JobRow => _ : bool). set (f := fun r : JobRow => _ : JobRow).
  exists (fun r => if cond r then f r else r), new. unfold update_where. rewrite map_app.
  split; [f_equal; destruct Hc as [->|[-> _]]; [done|simpl; by destruct (cond _)]|].
  split; [intros r; by destruct (cond r)|]. split.
  - intros r Hr. destruct (cond r) eqn:Ec; [|apply job_step_refl]. unfold cond in Ec.
    clear Hi Hc. status_cases; solve_job_step.
  - destruct Hc as [->|[-> Hl]]; [split; constructor|].
    split; [|apply keys_unique_single]. constructor; [|constructor]. by apply newJob_new.
Qed.

(** A row the migration of [sel] to version [v] adds. *)
Definition migrated_from (now : Time) (v : Z) (sel : list JobRow) (x : JobRow) : Prop :=
  exists r, In r sel /\ x = migratedRow now v (scanJob r) /\
    ~ (blank (j_payload_json r) = true /\ blank (j_proposal_json r) = true).

Lemma migrate_loop_spec now v t0 sel0 sel : forall seen acc result,
  (forall r, In r sel -> In r sel0) ->
  Forall (fun x => migrated_from now v sel0 x /\ lookup_key (key x) t0 = None) acc ->
  keys_unique acc ->
  exists acc', fst (migrate_loop now v seen (map scanJob sel) (t0 ++ acc) result) = t0 ++ acc' /\
    Forall (fun x => migrated_from now v sel0 x /\ lookup_key (key x) t0 = None) acc' /\
    keys_unique acc'.
Proof.
  induction sel as [|r sel IH]; intros seen acc result Hsel Hacc Hu; [by exists acc|].
  simpl. case_if; [by apply IH; [intros; apply Hsel; right|..]|].
  destruct (blank (j_payload_json r) && blank (j_proposal_json r)) eqn:Eb.
  { by apply IH; [intros; apply Hsel; right|..]. }
  set (x := migratedRow now v (scanJob r)).
  destruct (insert_or_ignore same_job x (t0 ++ acc)) as [t' n] eqn:Ei.
  apply insert_or_ignore_cases in Ei as [(-> & -> & _)|(-> & -> & Hc)].
  { by apply IH; [intros; apply Hsel; right|..]. }
  rewrite <- app_assoc.
  assert (forall y, In y (t0 ++ acc) -> key y <> key x) as Hk.
  { intros y Hy. by apply same_job_false, Hc. }
  apply IH; [intros; apply Hsel; by right| |].
  - apply Forall_app. split; [done|]. constructor; [|constructor]. split.
    + exists r. split; [apply Hsel; by left|]. split; [done|]. intros [H1 H2].
      by rewrite H1, H2 in Eb.
    + apply lookup_key_None. intros y Hy. apply Hk, in_or_app. by left.
  - apply keys_unique_snoc; [done|]. apply lookup_key_None. intros y Hy.
    apply Hk, in_or_app. by right.
Qed.

Lemma migration_rows now v s :
  exists new, jobs (fst (MigrateMaintenanceJobsToVersion now v s)) = jobs s ++ new /\
    Forall (fun x => migrated_from now v (migration_selected v (jobs s)) x /\
                     lookup_key (key x) (jobs s) = None) new /\ keys_unique new.
Proof.
  unfold MigrateMaintenanceJobsToVersion. case_if.
  { exists []. rewrite app_nil_r. split; [done|]. split; constructor. }
  destruct (migrate_loop_spec now v (jobs s) (migration_selected v (jobs s))
    (migration_selected v (jobs s)) [] [] (mkMigration 0 0 0 0)) as (new & Hn & Hf & Hu);
    [done|constructor|constructor|].
  rewrite app_nil_r in Hn. destruct (migrate_loop _ _ _ _ _ _) as [t result]. simpl in *. eauto.
Qed.

Lemma In_migration_selected v t r :
  In r (migration_selected v t) <->
  In r t /\ (j_analyzer_version r < v)%Z /\ In (j_status r) unfinishedStatuses.
Proof.
  unfold migration_selected, select_where. rewrite In_order_by, filter_In, andb_true_iff,
    Z.ltb_lt, job_in_In. done.
Qed.

Lemma migrate_step now v s :
  jobs_step (MMigrate now v) (jobs s) (jobs (fst (MigrateMaintenanceJobsToVersion now v s))).
Proof.
  destruct (migration_rows now v s) as (new & -> & Hf & Hu).
  exists id, new. rewrite map_id. split; [done|]. split; [done|].
  split; [intros; apply job_step_refl|]. split; [|done].
  eapply List.Forall_impl; [|exact Hf]. intros x [(r & Hr & -> & _) Hk].
  apply In_migration_selected in Hr as (Hr & _ & Hs). constructor; simpl; eauto.
  destruct (j_status r =? MaintenanceJobRunning)%string; [left; by left|right; eauto].
Qed.

(** ** Replays *)

Lemma replay_step op now limit cond s :
  keys_unique (jobs s) ->
  (forall r, In r (jobs s) -> cond r = true ->
     (j_status r = MaintenanceJobBlockedProvider \/ j_status r = MaintenanceJobSkipped \/
      j_status r = MaintenanceJobBlockedPromptRevision) /\
     (exhausted r -> may_release_exhausted op = true)) ->
  jobs_step op (jobs s) (jobs (fst (replay_where now limit cond s))).
Proof.
  intros Hu Hc. unfold replay_where. simpl. apply update_jobs_step; [done|].
  intros r Hr Hh. apply existsb_exists in Hh as (x & Hx & Hk).
  assert (In x (jobs s) /\ cond x = true) as [Hx' Hcx].
  { apply filter_In, (In_order_by replay_order). unfold sql_limit, select_where in Hx.
    case_if; [done|]. rewrite <- (firstn_skipn) at 1. apply in_or_app. by left. }
  assert (r = x) as ->.
  { apply (keys_unique_inj (jobs s)); [done..|]. by apply bool_decide_eq_true in Hk. }
  destruct (Hc x Hr Hcx) as [[Hs|[Hs|Hs]] He]; constructor; simpl; try done; auto 8.
  all: intros; try status_clash; auto.
Qed.

Lemma In_insert_head {R} (le : R -> R -> bool) x t : hd_error (order_by le t) = Some x -> In x t.
Proof.
  intros H. apply (In_order_by le). destruct (order_by le t); simplify_eq/=. by left.
Qed.

Lemma promote_step now tn rt s :
  keys_unique (jobs s) ->
  jobs_step (MPromote now tn rt) (jobs s) (jobs (fst (promoteOne now tn rt s))).
Proof.
  intros Hu. unfold promoteOne. simpl. apply update_jobs_step; [done|].
  intros r Hr. unfold probe_candidate, select_where.
  destruct (hd_error _) as [x|] eqn:Ex; [|done]. intros Hk.
  apply In_insert_head, filter_In in Ex as [Hx Hh].
  assert (r = x) as ->.
  { apply (keys_unique_inj (jobs s)); [done..|]. by apply bool_decide_eq_true in Hk. }
  unfold held_by, job_is in Hh. reflect_bools.
  constructor; simpl; try done; auto 8; intros Hs; try status_clash.
  right. destruct Hs as [_ Hs]. apply String.eqb_eq. congruence.
Qed.

(** ** Every step *)

Lemma release_step op now cond s :
  (forall r, In r (jobs s) -> cond r = true ->
     (j_status r = MaintenanceJobBlockedProvider \/ j_status r = MaintenanceJobFailed) /\
     (exhausted r -> may_release_exhausted op = true)) ->
  jobs_step op (jobs s) (jobs (fst (release_where now cond s))).
Proof.
  intros H. unfold release_where. simpl. apply update_jobs_step; [done|].
  intros r Hr Hc. destruct (H r Hr Hc). by eapply released_step.
Qed.

Lemma record_if_jobs n now tn rid v o e rt s :
  jobs (fst (record_if n now tn rid v o e rt s)) = jobs s.
Proof. unfold record_if. by case_if. Qed.
#[export] Hint Rewrite record_if_jobs : control.

(** A route id [LIKE 'network:%'], or one of the policy ids, is not the retry-limit
    policy. *)
Lemma retry_limit_not_network : sql_like_prefix maintenanceRetryLimitRouteID "network:" = false.
Proof. reflexivity. Qed.

Lemma retry_limit_policy : sql_like_prefix maintenanceRetryLimitRouteID "policy:" = true.
Proof. reflexivity. Qed.

Lemma network_parked_step op now cond s :
  (forall r, cond r = true -> network_parked r = true) ->
  jobs_step op (jobs s) (jobs (fst (release_where now cond s))).
Proof.
  intros H. apply release_step. intros r _ Hc. apply H in Hc. unfold network_parked in Hc.
  status_cases; split; auto; intros [_ Hx];
    unfold maintenanceNetworkRoutePrefix in *; pose proof retry_limit_not_network; congruence.
Qed.

Lemma claim_step now tn rid v m s :
  jobs_step (MClaim now tn rid v m) (jobs s) (jobs (fst (claimUpdate now tn rid (normVersion v) m s))).
Proof.
  unfold claimUpdate. simpl. apply update_jobs_step; [done|]. intros r _ Hc.
  unfold claimable_job, job_due in Hc. reflect_bools.
  assert ((0 < m)%Z -> (j_attempts r < m)%Z) as Hm.
  { intros Hm. apply Z.ltb_lt in Hm. rewrite Hm in *. by reflect_bools. }
  constructor; simpl; auto; try (right; right; by eauto 10).
  all: intros Hs; status_cases; status_clash.
Qed.

Lemma exec_maint_jobs op s :
  keys_unique (jobs s) -> jobs_step op (jobs s) (jobs (exec_maint op s)).
Proof.
  intros Hu. destruct op; cbn [exec_maint].
  - apply migrate_step.
  - unfold EnqueueMaintenanceJob.
    pose proof (insert_new_step (MEnqueue now tenantID k version payload) (jobs s) k version tenantID
      payload now) as H.
    by destruct (insert_or_ignore _ _ _).
  - apply create_step.
  - apply update_jobs_step; [done|]. intros r _ Hc. status_cases; solve_job_step.
  - apply update_jobs_step; [done|]. intros r _ Hc. status_cases; solve_job_step.
  - apply update_jobs_step; [done|]. intros r _ Hc. status_cases; solve_job_step.
  - apply update_jobs_step; [done|]. intros r _ Hc. status_cases; solve_job_step.
  - apply update_jobs_step; [done|]. intros r _ Hc. status_cases; solve_job_step.
  - unfold BlockMaintenanceJobForRoute. rewrite record_if_jobs.
    apply update_jobs_step; [done|]. intros r _ Hc. status_cases; solve_job_step.
  - unfold BlockMaintenanceJobForPromptRevision. rewrite record_if_jobs.
    apply update_jobs_step; [done|]. intros r _ Hc. status_cases; solve_job_step.
  - unfold blockMaintenanceJobAfterRetriesForRoute. rewrite record_if_jobs.
    apply update_jobs_step; [done|]. intros r _ Hc. status_cases; solve_job_step.
  - apply claim_step.
  - apply jobs_step_refl.
  - unfold RequeueNetworkBlockedMaintenanceJobs. case_if; [apply jobs_step_refl|].
    apply network_parked_step. intros r Hc. by reflect_bools.
  - by apply network_parked_step.
  - apply update_jobs_step; [done|]. intros r _ Hc. status_cases. solve_job_step.
    left. exfalso. destruct H1 as [_ Hx]. by rewrite Hx in *.
  - apply update_jobs_step; [done|]. intros r _ Hc. status_cases. solve_job_step.
  - apply update_jobs_step; [done|]. intros r _ Hc. status_cases. solve_job_step.
  - apply replay_step; [done|]. intros r _ Hc. unfold retry_limited in Hc.
    status_cases; split; auto.
  - apply replay_step; [done|]. intros r _ Hc. unfold prompt_parked in Hc.
    status_cases; split; auto; intros; status_clash.
  - unfold ClaimProviderRoute. repeat (case_if || case_match); apply jobs_step_refl.
  - unfold OpenProviderRoute. repeat (case_if || case_match); apply jobs_step_refl.
  - unfold CloseProviderRoute. case_if; [apply jobs_step_refl|].
    match goal with |- context [release_where _ _ ?s1] => change (jobs s) with (jobs s1) at 1 end.
    apply release_step. simpl. intros r _ Hc. unfold held_by in Hc. status_cases. split; [auto|]. intros [_ Hx].
    apply String.eqb_eq. congruence.
  - unfold DeferProviderRouteProbe. case_if; apply jobs_step_refl.
  - by apply promote_step.
  - unfold RequeueBlockedJobsForInactiveProviderRoutes. case_match; [apply jobs_step_refl|].
    apply release_step. intros r _ Hc. status_cases. split; [auto|]. intros [_ Hx].
    pose proof retry_limit_policy. congruence.
  - unfold requeueBlockedJobsForHealthyProviderRoutes.
    case_if; [apply jobs_step_refl|]. case_if; [apply jobs_step_refl|].
    apply release_step. simpl. intros r _ Hc. reflect_bools. status_cases. split; [auto|].
    intros [_ Hx]. by rewrite Hx in *.
Qed.

(** ** Histories act job by job *)

Lemma jobs_step_keys op t t' : keys_unique t -> jobs_step op t t' -> keys_unique t'.
Proof.
  intros Hu (g & new & -> & Hk & _ & Hf & Hn). unfold keys_unique.
  rewrite map_app, map_map. erewrite map_ext by exact Hk.
  apply List.NoDup_app; [exact Hu|exact Hn|]. intros k Hin1 Hin2.
  apply in_map_iff in Hin2 as (x & <- & Hx). apply in_map_iff in Hin1 as (r & Hr & Hin).
  rewrite List.Forall_forall in Hf. destruct (Hf x Hx) as [Hl _ _ _].
  rewrite lookup_key_None in Hl. by apply (Hl r).
Qed.

Lemma keys_exec_maints ops s : keys_unique (jobs s) -> keys_unique (jobs (exec_maints ops s)).
Proof.
  revert s. induction ops as [|op ops IH]; intros s Hu; [done|]. simpl. apply IH.
  eapply jobs_step_keys; [done|]. by apply exec_maint_jobs.
Qed.
#[export] Hint Resolve keys_exec_maints : control.

Lemma lookup_exec_maint op s k r :
  keys_unique (jobs s) -> lookup_key k (jobs s) = Some r ->
  exists r', lookup_key k (jobs (exec_maint op s)) = Some r' /\ job_step op r r'.
Proof.
  intros Hu Hr. destruct (exec_maint_jobs op s Hu) as (g & new & -> & Hk & Hg & _).
  exists (g r). rewrite lookup_app, (lookup_map _ _ _ Hk), Hr. split; [done|].
  apply Hg. by apply lookup_key_Some in Hr as [? _].
Qed.

(** A preorder on rows that every admitted step respects holds between a row and
    its descendant after any history of admitted steps. *)
Lemma lookup_exec_maints (P : JobRow -> JobRow -> Prop) (ok : maint_op -> Prop) :
  (forall r, P r r) -> (forall a b c, P a b -> P b c -> P a c) ->
  (forall op r r', ok op -> job_step op r r' -> P r r') ->
  forall ops s k r, keys_unique (jobs s) -> Forall ok ops -> lookup_key k (jobs s) = Some r ->
    exists r', lookup_key k (jobs (exec_maints ops s)) = Some r' /\ P r r'.
Proof.
  intros Hrefl Htrans Hstep ops. induction ops as [|op ops IH]; intros s k r Hu Hok Hr; simpl.
  - eauto.
  - inversion Hok as [|? ? Hop Hops]; subst.
    destruct (lookup_exec_maint op s k r Hu Hr) as (r1 & Hr1 & Hs).
    destruct (IH (exec_maint op s) k r1) as (r2 & Hr2 & HP); [|done..|].
    + eapply jobs_step_keys; [exact Hu|]. by apply exec_maint_jobs.
    + exists r2. split; [done|]. eapply Htrans; [|done]. by eapply Hstep.
Qed.

Lemma Forall_trivial {A} (l : list A) : Forall (fun _ => True) l.
Proof. by apply List.Forall_forall. Qed.
#[export] Hint Resolve Forall_trivial : control.

(** An invariant of single rows, kept by every admitted step and by every
    appended row. *)
Lemma rows_invariant (I : JobRow -> Prop) (ok : maint_op -> Prop) :
  (forall op r r', ok op -> job_step op r r' -> I r -> I r') ->
  (forall t x, job_new t x -> (forall r, In r t -> I r) -> I x) ->
  forall ops s, keys_unique (jobs s) -> Forall ok ops -> (forall r, In r (jobs s) -> I r) ->
    forall r, In r (jobs (exec_maints ops s)) -> I r.
Proof.
  intros Hstep Hnew ops. induction ops as [|op ops IH]; intros s Hu Hok HI; simpl; [done|].
  inversion Hok as [|? ? Hop Hops]; subst. apply IH; [|done|].
  - eapply jobs_step_keys; [exact Hu|]. by apply exec_maint_jobs.
  - destruct (exec_maint_jobs op s Hu) as (g & new & -> & _ & Hg & Hf & _).
    intros r [(x & <- & Hx)%in_map_iff|Hr]%in_app_or; [by eapply Hstep; eauto|].
    rewrite List.Forall_forall in Hf. eapply Hnew; eauto.
Qed.

(** ** Well-formedness *)

Record maint_wf (s : MaintState) : Prop := {
  mw_keys : keys_unique (jobs s);
  mw_tenants : forall r, In r (jobs s) -> normalizeTenant (j_tenant_id r) = j_tenant_id r;
  mw_status : forall r, In r (jobs s) -> In (j_status r) knownStatuses
}.

Definition emptyMaint : MaintState := mkMaintState [] [] [].

Lemma maint_wf_exec ops s : maint_wf s -> maint_wf (exec_maints ops s).
Proof.
  intros [Hk Ht Hs]. constructor; [by auto with control|..].
  - apply rows_invariant with (ok := fun _ => True); auto with control.
    + intros op r r' _ [] H. congruence.
    + intros t x [] _. destruct jn_tenant0 as [tn ->]. apply normalizeTenant_idemp.
  - apply rows_invariant with (ok := fun _ => True); auto with control.
    + intros op r r' _ [] H. destruct js_status0 as [->|]; auto.
    + intros t x [] H. destruct jn_status0 as [|(r & Hr & ->)]; auto.
Qed.
#[export] Hint Resolve maint_wf_exec mw_keys : control.

Lemma maint_wf_empty : maint_wf emptyMaint.
Proof. constructor; simpl; [apply keys_unique_nil|done|done]. Qed.
#[export] Hint Resolve maint_wf_empty : control.

(** Every history of maintenance and provider-route statements, from an empty
    store, keeps one row per run and analyzer version, stores normalised tenants
    only, and leaves every job in one of the seven documented statuses. *)
Theorem maintenance_history_wf (ops : list maint_op) : maint_wf (exec_maints ops emptyMaint).
Proof. auto with control. Qed.

(** ** Claims of one job *)

Lemma set_jobs_same s : s <| jobs := jobs s |> = s.
Proof. by destruct s. Qed.

Lemma claimable_job_key now tn rid v m r : claimable_job now tn rid v m r = true -> key r = (rid, v).
Proof. unfold claimable_job. intros. reflect_bools. by eapply at_job_key. Qed.

(** A claim statement against a row it does not match changes nothing. *)
Lemma claimUpdate_nop now tn rid v m s :
  keys_unique (jobs s) ->
  (forall r, lookup_key (rid, v) (jobs s) = Some r -> claimable_job now tn rid v m r = false) ->
  claimUpdate now tn rid v m s = (s, 0%Z).
Proof.
  intros Hu Hl. unfold claimUpdate.
  rewrite update_where_nop, set_jobs_same.
  - rewrite (rows_affected_key (rid, v)); [|done|by apply claimable_job_key].
    destruct (lookup_key (rid, v) (jobs s)) as [r|] eqn:E; [|done]. by rewrite (Hl r).
  - intros r Hr. destruct (claimable_job now tn rid v m r) eqn:E; [|done].
    rewrite <- E. apply Hl. rewrite <- (claimable_job_key _ _ _ _ _ _ E). by apply lookup_key_In.
Qed.

Lemma query_at_job tn rid v s :
  keys_unique (jobs s) ->
  query_row (at_job tn rid v) (jobs s) =
    match lookup_key (rid, v) (jobs s) with
    | Some r => if at_job tn rid v r then Some r else None
    | None => None
    end.
Proof. intros Hu. apply query_row_key; [done|]. apply at_job_key. Qed.

(** A job that is neither pending nor failed is never claimed. *)
Lemma claim_refused now tn rid v m s r :
  keys_unique (jobs s) -> lookup_key (rid, normVersion v) (jobs s) = Some r ->
  j_status r <> MaintenanceJobPending -> j_status r <> MaintenanceJobFailed ->
  ClaimMaintenanceJobWithLimit now tn rid v m s = (s, (false, false)).
Proof.
  intros Hu Hr Hp Hf. apply String.eqb_neq in Hp, Hf. unfold ClaimMaintenanceJobWithLimit.
  rewrite claimUpdate_nop; [|done|].
  2: { intros x Hx. rewrite Hr in Hx. injection Hx as <-.
       unfold claimable_job, job_due, job_is. rewrite Hp, Hf. simpl. by rewrite andb_false_r. }
  simpl. case_if; [done|]. rewrite query_at_job, Hr by done.
  destruct (at_job tn rid (normVersion v) r); [|done].
  unfold job_is. rewrite Hp, Hf. simpl. by rewrite orb_true_r.
Qed.

(** A maintenance result is final.  Once a job has succeeded, no history of
    statements - duplicate finalisation, claims, retries, sweeps, replays,
    migrations, provider recovery - changes any column of its row, and no later
    claim of it succeeds or touches the store. *)
Theorem succeeded_job_final (s : MaintState) (rid : string) (v : Z) (r : JobRow)
    (ops : list maint_op) (now : Time) (tenant : string) (limit : Z) :
  maint_wf s -> lookup_key (rid, normVersion v) (jobs s) = Some r ->
  j_status r = MaintenanceJobSucceeded ->
  let s' := exec_maints ops s in
  lookup_key (rid, normVersion v) (jobs s') = Some r /\
  ClaimMaintenanceJobWithLimit now tenant rid v limit s' = (s', (false, false)).
Proof.
  intros Hw Hr Hs s'.
  destruct (lookup_exec_maints (fun a b => j_status a = MaintenanceJobSucceeded -> b = a)
    (fun _ => True)) with (ops := ops) (s := s) (k := (rid, normVersion v)) (r := r)
    as (r' & Hr' & HP); auto with control.
  { intros a b c H1 H2 Ha. rewrite H2, H1; auto. by rewrite H1. }
  { intros op a b _ []. done. }
  specialize (HP Hs). subst r'. split; [done|].
  eapply claim_refused; [unfold s'; by auto with control|exact Hr'|by rewrite Hs..].
Qed.

(** A claim is exclusive.  While a job is running, every history that contains
    neither a settlement of that job nor the sweep of crashed workers keeps it
    running with the same attempt number, and every further claim of it, with or
    without a retry limit, is refused without touching the store. *)
Theorem running_claim_exclusive (s : MaintState) (rid : string) (v : Z) (r : JobRow)
    (ops : list maint_op) (now : Time) (tenant : string) (limit : Z) :
  maint_wf s -> lookup_key (rid, normVersion v) (jobs s) = Some r ->
  j_status r = MaintenanceJobRunning ->
  Forall (fun op => may_end_claim (rid, normVersion v) op = false) ops ->
  let s' := exec_maints ops s in
  (exists r', lookup_key (rid, normVersion v) (jobs s') = Some r' /\
     j_status r' = MaintenanceJobRunning /\ j_attempts r' = j_attempts r) /\
  ClaimMaintenanceJobWithLimit now tenant rid v limit s' = (s', (false, false)).
Proof.
  intros Hw Hr Hs Hops s'. set (k := (rid, normVersion v)) in *.
  destruct (lookup_exec_maints (fun a b => key b = key a /\ (key a = k ->
      j_status a = MaintenanceJobRunning ->
      j_status b = MaintenanceJobRunning /\ j_attempts b = j_attempts a))
    (fun op => may_end_claim k op = false)) with (ops := ops) (s := s) (k := k) (r := r)
    as (r' & Hr' & _ & HP); auto with control.
  { intros a b c [K1 H1] [K2 H2]. split; [congruence|]. intros Ha Hb.
    destruct (H1 Ha Hb) as [Hb1 Hb2]. rewrite <- Hb2. apply H2; [congruence|done]. }
  { intros op a b Hop []. split; [done|]. intros Ha Hb.
    destruct (js_running0 Hb) as [|Hc]; [done|]. rewrite Ha in Hc. congruence. }
  destruct HP as [Hs' Ha']; [by apply lookup_key_Some in Hr as [_ ?]|done|].
  split; [eauto|].
  eapply claim_refused; [unfold s'; by auto with control|exact Hr'|by rewrite Hs'..].
Qed.

(** The retry budget bounds attempts.  In every history from an empty store in
    which every claim carries a limit between 1 and [m], no job ever has more than
    [m] attempts. *)
Theorem attempts_within_budget (m : Z) (ops : list maint_op) (r : JobRow) :
  (1 <= m)%Z ->
  Forall (fun op => match op with MClaim _ _ _ _ l => (1 <= l <= m)%Z | _ => True end) ops ->
  In r (jobs (exec_maints ops emptyMaint)) -> (0 <= j_attempts r <= m)%Z.
Proof.
  intros Hm Hops Hr. revert r Hr.
  eapply rows_invariant; [| |apply keys_unique_nil|exact Hops|done]; simpl.
  - intros op r r' Hop [] H.
    destruct js_attempts0 as [->|[->|(now & tn & rid & v & l & -> & -> & Hl)]]; lia.
  - intros t x [] H. destruct jn_attempts0 as [->|(r & Hr & ->)]; [lia|auto].
Qed.

(** A retry-exhausted job stays parked.  Once a job is blocked under the
    retry-limit policy, no history without an explicit operator replay (or a sweep
    told that the policy id is a provider route) changes its row: daemon restarts,
    network changes, provider recovery and migrations do not replay it. *)
Theorem retry_exhausted_stays_blocked (s : MaintState) (k : string * Z) (r : JobRow)
    (ops : list maint_op) :
  maint_wf s -> lookup_key k (jobs s) = Some r -> exhausted r ->
  Forall (fun op => may_release_exhausted op = false) ops ->
  lookup_key k (jobs (exec_maints ops s)) = Some r.
Proof.
  intros Hw Hr Hx Hops.
  destruct (lookup_exec_maints (fun a b => exhausted a -> b = a)
    (fun op => may_release_exhausted op = false)) with (ops := ops) (s := s) (k := k) (r := r)
    as (r' & Hr' & HP); auto with control.
  { intros a b c H1 H2 Ha. rewrite H2, H1; auto. by rewrite H1. }
  { intros op a b Hop [] Ha. destruct (js_exhausted0 Ha); [done|congruence]. }
  by rewrite Hr', (HP Hx).
Qed.

(** Replay evidence is never overwritten.  A non-blank payload survives every
    history that does not use the legacy payload setter; in particular duplicate
    finalisations ([createMaintenanceJobTx]) with other payloads keep the first. *)
Theorem payload_frozen (s : MaintState) (k : string * Z) (r : JobRow) (ops : list maint_op) :
  maint_wf s -> lookup_key k (jobs s) = Some r -> sql_trim (j_payload_json r) <> "" ->
  Forall (fun op => match op with MSetPayload _ _ _ _ _ => False | _ => True end) ops ->
  exists r', lookup_key k (jobs (exec_maints ops s)) = Some r' /\
    j_payload_json r' = j_payload_json r.
Proof.
  intros Hw Hr Hp Hops.
  destruct (lookup_exec_maints (fun a b => sql_trim (j_payload_json a) <> "" ->
      j_payload_json b = j_payload_json a)
    (fun op => match op with MSetPayload _ _ _ _ _ => False | _ => True end))
    with (ops := ops) (s := s) (k := k) (r := r) as (r' & Hr' & HP); auto with control; [| |eauto].
  { intros a b c H1 H2 Ha. rewrite H2, H1; auto. by rewrite H1. }
  { intros op a b Hop [] Ha. destruct (js_payload0 Ha) as [|(? & ? & ? & ? & ? & ->)]; done. }
Qed.

(** ** The claim policy *)

Lemma normVersion_idemp v : normVersion (normVersion v) = normVersion v.
Proof. unfold normVersion. repeat case_if; reflect_bools; lia. Qed.
#[export] Hint Rewrite normVersion_idemp : control.

(** The job after its retry budget is exhausted. *)
Definition blocked_after_retries (r r' : JobRow) : Prop :=
  key r' = key r /\ j_status r' = MaintenanceJobBlockedProvider /\
  j_blocked_route_id r' = (if isMaintenanceNetworkRouteID (j_blocked_route_id r)
                           then j_blocked_route_id r else maintenanceRetryLimitRouteID) /\
  j_attempts r' = j_attempts r /\ j_payload_json r' = j_payload_json r /\
  j_proposal_json r' = j_proposal_json r /\
  (sql_trim (j_last_error r) <> "" -> j_last_error r' = j_last_error r).

Lemma isNetwork_retry_limit : isMaintenanceNetworkRouteID maintenanceRetryLimitRouteID = false.
Proof. reflexivity. Qed.

Lemma block_after_retries now tn rid v rt s r :
  keys_unique (jobs s) -> lookup_key (rid, normVersion v) (jobs s) = Some r ->
  at_job tn rid (normVersion v) r = true ->
  job_in [MaintenanceJobPending; MaintenanceJobFailed] r = true ->
  rt = (if isMaintenanceNetworkRouteID (j_blocked_route_id r)
        then j_blocked_route_id r else maintenanceRetryLimitRouteID) ->
  exists s', blockMaintenanceJobAfterRetriesForRoute now tn rid v rt (j_last_error r) s = (s', true) /\
    (exists r', lookup_key (rid, normVersion v) (jobs s') = Some r' /\ blocked_after_retries r r') /\
    (forall k, k <> (rid, normVersion v) -> lookup_key k (jobs s') = lookup_key k (jobs s)) /\
    (exists a, attempts s' = attempts s ++ [a] /\ ma_RunID a = rid /\ ma_RouteID a = rt) /\
    routes s' = routes s.
Proof.
  intros Hu Hr Ha Hin Hrt. unfold blockMaintenanceJobAfterRetriesForRoute. cbv zeta.
  assert ((if isMaintenanceNetworkRouteID rt then rt else maintenanceRetryLimitRouteID) = rt) as ->.
  { subst rt. destruct (isMaintenanceNetworkRouteID (j_blocked_route_id r)) eqn:E;
      [by rewrite E|done]. }
  set (cond := fun r => at_job _ _ _ r && _).
  assert (forall x, cond x = true -> key x = (rid, normVersion v)) as Hk.
  { intros x Hx. unfold cond in Hx. reflect_bools. by eapply at_job_key. }
  assert (rows_affected cond (jobs s) = 1%Z) as ->.
  { rewrite (rows_affected_key (rid, normVersion v)), Hr by done. unfold cond. by rewrite Ha, Hin. }
  eexists. split; [reflexivity|]. split; [|split; [|split]].
  - eexists. split.
    + unfold recordMaintenanceAttempt. simpl. rewrite lookup_update, Hr by done. simpl.
      unfold cond at 1. rewrite Ha, Hin. reflexivity.
    + subst rt. repeat split; try done. simpl. intros Hne%String.eqb_neq. by rewrite Hne.
  - intros k Hne. by apply (lookup_update_ne cond _ _ (rid, normVersion v)).
  - eexists. split; [reflexivity|]. done.
  - done.
Qed.

(** The claim policy, on every branch.  With a retry limit [m], a claim of a due
    job with attempts left takes it (running, one more attempt); a pending or
    failed job at or over the limit is parked visibly instead, reported as
    exhausted and recorded once in the attempt history, keeping its evidence and
    its last concrete error; otherwise nothing changes.  Other jobs and the
    provider routes are never touched. *)
Theorem claim_with_limit_decides (s : MaintState) (now : Time) (tenant rid : string) (v m : Z)
    (r : JobRow) :
  maint_wf s -> lookup_key (rid, normVersion v) (jobs s) = Some r ->
  at_job tenant rid (normVersion v) r = true -> (0 < m)%Z ->
  let '(s', out) := ClaimMaintenanceJobWithLimit now tenant rid v m s in
  (forall k, k <> (rid, normVersion v) -> lookup_key k (jobs s') = lookup_key k (jobs s)) /\
  routes s' = routes s /\
  if job_due now r && (j_attempts r <? m)%Z then
    out = (true, false) /\ attempts s' = attempts s /\
    lookup_key (rid, normVersion v) (jobs s') =
      Some (r <| j_status := MaintenanceJobRunning |> <| j_attempts := (j_attempts r + 1)%Z |>
              <| j_updated_at := Unix now |>)
  else if job_in [MaintenanceJobPending; MaintenanceJobFailed] r && (m <=? j_attempts r)%Z then
    out = (false, true) /\ (exists a, attempts s' = attempts s ++ [a] /\ ma_RunID a = rid) /\
    exists r', lookup_key (rid, normVersion v) (jobs s') = Some r' /\ blocked_after_retries r r'
  else out = (false, false) /\ s' = s.
Proof.
  intros Hw Hr Ha Hm. pose proof (mw_keys _ Hw) as Hu.
  assert ((0 <? m)%Z = true) as Hm1 by by apply Z.ltb_lt.
  assert ((m <=? 0)%Z = false) as Hm2 by by apply Z.leb_gt.
  unfold ClaimMaintenanceJobWithLimit.
  assert (claimable_job now tenant rid (normVersion v) m r = job_due now r && (j_attempts r <? m)%Z)
    as Hc by (unfold claimable_job; by rewrite Ha, Hm1).
  destruct (job_due now r && (j_attempts r <? m)%Z) eqn:Ed.
  - unfold claimUpdate. cbv zeta.
    rewrite (rows_affected_key (rid, normVersion v)), Hr, Hc by (done || apply claimable_job_key).
    simpl. split; [|split; [done|]].
    + intros k Hne. apply (lookup_update_ne _ _ _ (rid, normVersion v)); [|done|done].
      apply claimable_job_key.
    + split; [done|]. split; [done|]. rewrite lookup_update, Hr by done. simpl. by rewrite Hc.
  - rewrite claimUpdate_nop; [|done|intros x Hx; rewrite Hr in Hx; by injection Hx as <-].
    assert (job_in [MaintenanceJobPending; MaintenanceJobFailed] r =
            job_is MaintenanceJobPending r || job_is MaintenanceJobFailed r) as Hj.
    { unfold job_in, job_is. simpl. by rewrite orb_false_r. }
    destruct (job_in [MaintenanceJobPending; MaintenanceJobFailed] r) eqn:Ein;
      simpl; rewrite Hm2, query_at_job, Hr, Ha by done;
      destruct (m <=? j_attempts r)%Z eqn:El; simpl.
    + assert ((j_attempts r <? m)%Z = false) as -> by (apply Z.ltb_ge; by apply Z.leb_le).
      rewrite <- negb_orb, <- Hj. simpl.
      destruct (block_after_retries now tenant rid (normVersion v)
        (if isMaintenanceNetworkRouteID (j_blocked_route_id r) then j_blocked_route_id r
         else maintenanceRetryLimitRouteID) s r) as (s' & -> & Hr' & Ho & (a & Ha1 & Ha2 & _) & Hrt);
        rewrite ?normVersion_idemp in *; [done..|].
      split; [done|]. split; [done|]. eauto.
    + assert ((j_attempts r <? m)%Z = true) as -> by (apply Z.ltb_lt; by apply Z.leb_gt). done.
    + rewrite <- negb_orb, <- Hj. simpl. by rewrite orb_true_r.
    + rewrite <- negb_orb, <- Hj. simpl. by rewrite orb_true_r.
Qed.

(** ** Generation migration *)

(** The entry of [seenRuns] for a job. *)
Definition run_entry (job : MaintenanceJob) : string :=
  normalizeTenant (mj_TenantID job) +:+ String Ascii.zero "" +:+ mj_RunID job.

Definition has_evidence (job : MaintenanceJob) : bool :=
  negb (blank (mj_PayloadJSON job) && blank (mj_ProposalJSON job)).

(** The jobs the loop inserts: the first one of each run, if it has evidence.  The
    choice does not depend on the table. *)
Fixpoint copied (seen : list string) (sel : list MaintenanceJob) : list MaintenanceJob :=
  match sel with
  | [] => []
  | job :: rest =>
      if existsb (String.eqb (run_entry job)) seen then copied seen rest
      else if has_evidence job then job :: copied (run_entry job :: seen) rest
      else copied (run_entry job :: seen) rest
  end.

(** The inserts, with the number of rows added. *)
Fixpoint insert_copies (now : Time) (v : Z) (l : list MaintenanceJob) (t : list JobRow) (n : Z)
  : list JobRow * Z :=
  match l with
  | [] => (t, n)
  | job :: rest =>
      let '(t', k) := insert_or_ignore same_job (migratedRow now v job) t in
      insert_copies now v rest t' (n + k)%Z
  end.

Lemma migrate_loop_copies now v sel : forall seen t result,
  let '(t', result') := migrate_loop now v seen sel t result in
  insert_copies now v (copied seen sel) t (mg_Migrated result) = (t', mg_Migrated result') /\
  (mg_Eligible result' - (mg_Migrated result' + mg_AlreadyCurrent result') =
   mg_Eligible result - (mg_Migrated result + mg_AlreadyCurrent result))%Z.
Proof.
  induction sel as [|job sel IH]; intros seen t result; [done|].
  cbn [migrate_loop copied]. fold (run_entry job). unfold has_evidence at 1.
  case_if; [apply IH|].
  destruct (blank (mj_PayloadJSON job) && blank (mj_ProposalJSON job)).
  { simpl. specialize (IH (run_entry job :: seen) t
      (result <| mg_MissingEvidence := (mg_MissingEvidence result + 1)%Z |>)). exact IH. }
  cbn [negb insert_copies]. cbv zeta.
  destruct (insert_or_ignore same_job (migratedRow now v job) t) as [t' k] eqn:E.
  apply insert_or_ignore_cases in E as [(-> & -> & _)|(-> & -> & _)]; simpl.
  - match goal with |- context [migrate_loop _ _ _ _ _ ?r] => specialize (IH (run_entry job :: seen) t r) end.
    destruct (migrate_loop _ _ _ _ _ _) as [t' r']. simpl in IH. rewrite Z.add_0_r.
    destruct IH as [-> IH]. split; [done|]. lia.
  - match goal with |- context [migrate_loop _ _ _ _ ?t1 ?r] => specialize (IH (run_entry job :: seen) t1 r) end.
    destruct (migrate_loop _ _ _ _ _ _) as [t' r']. simpl in IH. destruct IH as [-> IH].
    split; [done|]. lia.
Qed.

(** Inserts only add rows, count them, and leave every copied run with a row of
    the target version; repeated, they add nothing. *)
Lemma insert_copies_adds now v l : forall t n,
  let '(t', n') := insert_copies now v l t n in
  (exists new, t' = t ++ new /\ n' = (n + Z.of_nat (length new))%Z) /\
  forall job, In job l -> lookup_key (mj_RunID job, v) t' <> None.
Proof.
  induction l as [|job l IH]; intros t n; simpl.
  { split; [exists []; rewrite app_nil_r; split; [done|simpl; lia]|done]. }
  destruct (insert_or_ignore same_job (migratedRow now v job) t) as [t1 k] eqn:E.
  specialize (IH t1 (n + k)%Z). destruct (insert_copies now v l t1 (n + k)) as [t' n'].
  destruct IH as [(new & -> & ->) IH].
  apply insert_or_ignore_cases in E as [(-> & -> & r0 & Hr0 & Hs)|(-> & -> & _)].
  - split; [exists new; split; [done|lia]|]. intros j [<-|Hj]; [|by apply IH].
    apply bool_decide_eq_true in Hs. rewrite lookup_key_None. intros Hn.
    apply (Hn r0); [apply in_or_app; by left|]. by rewrite <- Hs.
  - split.
    + exists (migratedRow now v job :: new). rewrite <- app_assoc. split; [done|].
      simpl. lia.
    + intros j [<-|Hj]; [|by apply IH]. rewrite lookup_key_None. intros Hn.
      apply (Hn (migratedRow now v job)); [|done]. apply in_or_app. left. apply in_or_app. right. by left.
Qed.

Lemma insert_copies_nop now v l : forall t n,
  (forall job, In job l -> lookup_key (mj_RunID job, v) t <> None) ->
  insert_copies now v l t n = (t, n).
Proof.
  induction l as [|job l IH]; intros t n H; simpl; [done|].
  destruct (insert_or_ignore same_job (migratedRow now v job) t) as [t1 k] eqn:E.
  apply insert_or_ignore_cases in E as [(-> & -> & _)|(-> & -> & Hc)].
  - rewrite Z.add_0_r. apply IH. intros j Hj. apply H. by right.
  - exfalso. apply (H job (or_introl eq_refl)), lookup_key_None. intros r Hr Hk.
    apply (same_job_false _ _ (Hc r Hr)). by rewrite Hk.
Qed.

Lemma copied_complete sel : forall seen job,
  In job sel -> (forall j, In j sel -> run_entry j = run_entry job -> has_evidence j = true) ->
  ~ In (run_entry job) seen ->
  exists j, In j (copied seen sel) /\ run_entry j = run_entry job.
Proof.
  induction sel as [|a sel IH]; intros seen job Hin Hev Hns; [done|]. simpl.
  destruct (decide (run_entry a = run_entry job)) as [Ha|Ha].
  - destruct (existsb (String.eqb (run_entry a)) seen) eqn:Es.
    { apply existsb_exists in Es as (x & Hx & Heq). reflect_bools. subst x. by rewrite Ha in Hx. }
    rewrite (Hev a) by (by left || done). exists a. split; [by left|done].
  - assert (In job sel) as Hin' by (destruct Hin as [->|]; done).
    assert (forall j, In j sel -> run_entry j = run_entry job -> has_evidence j = true) as Hev'
      by (intros j Hj; apply Hev; by right).
    destruct (existsb (String.eqb (run_entry a)) seen); [by apply IH|].
    destruct (IH (run_entry a :: seen) job Hin' Hev') as (j & Hj & Hr).
    { intros [?|?]; done. }
    exists j. split; [|done]. case_if; [by right|done].
Qed.

Lemma copied_subset sel : forall seen job, In job (copied seen sel) -> In job sel.
Proof.
  induction sel as [|a sel IH]; intros seen job; simpl; [done|].
  repeat case_if; simpl; [| |]; intros H; destruct_or?; eauto.
Qed.

Lemma selected_app_new v t new :
  Forall (fun x => j_analyzer_version x = v) new ->
  migration_selected v (t ++ new) = migration_selected v t.
Proof.
  intros Hn. unfold migration_selected, select_where. rewrite List.filter_app.
  rewrite (filter_all_false _ new), app_nil_r; [done|].
  intros x Hx. rewrite List.Forall_forall in Hn. by rewrite (Hn x Hx), Z.ltb_irrefl.
Qed.

(** Generation cutover copies forward and is replay-safe.  Migrating to version
    [v] keeps every existing row as it is and only adds rows of version [v], each a
    copy (same run, evidence, attempts, error; running becomes pending) of an
    unfinished older job with evidence; it counts what it added; a run all of whose
    unfinished older jobs have evidence ends up with a row of version [v]; and
    running the migration again changes nothing and reports no migrated job. *)
Theorem migration_replay_safe (s : MaintState) (now now' : Time) (v : Z) :
  maint_wf s -> (0 < v)%Z ->
  exists new result result',
    MigrateMaintenanceJobsToVersion now v s = (s <| jobs := jobs s ++ new |>, Ok result) /\
    MigrateMaintenanceJobsToVersion now' v (s <| jobs := jobs s ++ new |>) =
      (s <| jobs := jobs s ++ new |>, Ok result') /\ mg_Migrated result' = 0%Z /\
    Forall (migrated_from now v (migration_selected v (jobs s))) new /\
    mg_Migrated result = Z.of_nat (length new) /\
    mg_Eligible result = (mg_Migrated result + mg_AlreadyCurrent result)%Z /\
    (forall r, In r (migration_selected v (jobs s)) ->
       (forall x, In x (migration_selected v (jobs s)) ->
          run_entry (scanJob x) = run_entry (scanJob r) -> has_evidence (scanJob x) = true) ->
       exists x, In x (migration_selected v (jobs s)) /\
         run_entry (scanJob x) = run_entry (scanJob r) /\
         lookup_key (j_run_id x, v) (jobs s ++ new) <> None).
Proof.
  intros Hw Hv. destruct (migration_rows now v s) as (new & Hnew & Hf & _).
  assert (Forall (fun x => j_analyzer_version x = v) new) as Hver.
  { eapply List.Forall_impl; [|exact Hf]. by intros x [(r & _ & -> & _) _]. }
  unfold MigrateMaintenanceJobsToVersion in *. apply Z.leb_gt in Hv. rewrite Hv in *. simpl.
  set (sel := map scanJob (migration_selected v (jobs s))) in *.
  pose proof (migrate_loop_copies now v sel [] (jobs s) (mkMigration 0 0 0 0)) as Hl.
  pose proof (insert_copies_adds now v (copied [] sel) (jobs s) 0) as Ha.
  destruct (migrate_loop now v [] sel (jobs s) _) as [t result]. simpl in Hnew, Hl. subst t.
  destruct Hl as [Hl Hcount]. rewrite Hl in Ha. destruct Ha as [(new0 & Happ & Hlen) Hkeys].
  apply app_inv_head in Happ. subst new0.
  pose proof (migrate_loop_copies now' v sel [] (jobs s ++ new) (mkMigration 0 0 0 0)) as Hl'.
  rewrite insert_copies_nop in Hl' by done. pose proof (selected_app_new v (jobs s) new Hver) as Hsel.
  destruct (migrate_loop now' v [] sel (jobs s ++ new) _) as [t' result'] eqn:Eloop.
  destruct Hl' as [Hl' _]. injection Hl' as <- Hm. simpl in Hm, Hcount, Hlen.
  exists new, result, result'. split; [done|].
  split; [simpl; rewrite Hsel; fold sel; by rewrite Eloop|]. split; [done|].
  split; [eapply List.Forall_impl; [|exact Hf]; by intros x []|]. split; [lia|]. split; [lia|].
  intros r Hr Hev.
  destruct (copied_complete sel [] (scanJob r)) as (j & Hj & Heq); [by apply in_map| |by intros []|].
  { intros j (x & <- & Hx)%in_map_iff. by apply Hev. }
  assert (In j sel) as (x & <- & Hx)%in_map_iff by by eapply copied_subset.
  exists x. split; [done|]. split; [done|]. apply (Hkeys _ Hj).
Qed.

(** A run whose newest generation succeeded is replayed by a later cutover, if
    an older generation was left unfinished: the rows the first cutover copied stay
    unfinished, and the second cutover selects them without looking at the
    generations in between.  (The documentation of the migration says that it never
    replays succeeded history.) *)
Theorem migration_replays_succeeded_run :
  let s := exec_maints
    [MCreate (TimeOfUnix 10) "" "run_1" 1 "evidence"; MMigrate (TimeOfUnix 20) 2;
     MClaim (TimeOfUnix 30) "" "run_1" 2 3; MComplete (TimeOfUnix 40) "" "run_1" 2 "hash"]
    emptyMaint in
  let s' := exec_maint (MMigrate (TimeOfUnix 50) 3) s in
  option_map j_status (lookup_key ("run_1", 2%Z) (jobs s)) = Some MaintenanceJobSucceeded /\
  lookup_key ("run_1", 3%Z) (jobs s) = None /\
  option_map j_status (lookup_key ("run_1", 3%Z) (jobs s')) = Some MaintenanceJobPending.
Proof. vm_compute. repeat split. Qed.

(** ** Concrete instances *)

(** One job of one run, claimed once. *)
Definition one_running : MaintState :=
  exec_maints [MCreate (TimeOfUnix 10) "" "run_1" 1 "evidence"; MClaim (TimeOfUnix 20) "" "run_1" 1 3]
    emptyMaint.

Definition one_job (status : string) (att : Z) (updated : Z) : JobRow :=
  mkJobRow "run_1" 1 "default" status att 0 "" "evidence" "" "" "" 10 updated.

Lemma one_running_wf : maint_wf one_running.
Proof. apply maint_wf_exec, maint_wf_empty. Qed.

Lemma maint_wf_exec1 op s : maint_wf s -> maint_wf (exec_maint op s).
Proof. apply (maint_wf_exec [op]). Qed.

Lemma succeeded_job_final_witness :
  let s := exec_maint (MComplete (TimeOfUnix 30) "" "run_1" 1 "hash") one_running in
  let s' := exec_maints [MCreate (TimeOfUnix 40) "" "run_1" 1 "other"; MMigrate (TimeOfUnix 50) 1] s in
  ClaimMaintenanceJobWithLimit (TimeOfUnix 60) "" "run_1" 1 3 s' = (s', (false, false)).
Proof.
  apply (succeeded_job_final _ "run_1" 1%Z ((one_job "succeeded" 1 30) <| j_result_hash := "hash" |>)).
  - apply maint_wf_exec1, one_running_wf.
  - vm_compute. reflexivity.
  - reflexivity.
Defined.

Lemma running_claim_exclusive_witness :
  let s' := exec_maints [MSaveProposal (TimeOfUnix 30) "" "run_1" 1 "p" "h";
                         MClaim (TimeOfUnix 31) "" "run_1" 1 3] one_running in
  ClaimMaintenanceJobWithLimit (TimeOfUnix 60) "" "run_1" 1 3 s' = (s', (false, false)).
Proof.
  apply (running_claim_exclusive _ "run_1" 1%Z (one_job "running" 1 20)).
  - apply one_running_wf.
  - vm_compute. reflexivity.
  - reflexivity.
  - repeat constructor.
Defined.

Lemma attempts_within_budget_witness : (0 <= j_attempts (one_job "running" 1 20) <= 3)%Z.
Proof.
  apply (attempts_within_budget 3 [MCreate (TimeOfUnix 10) "" "run_1" 1 "evidence";
    MClaim (TimeOfUnix 20) "" "run_1" 1 3]).
  - lia.
  - repeat constructor; lia.
  - left. reflexivity.
Defined.

(** The job after one failed attempt, parked with its budget exhausted. *)
Definition one_exhausted : MaintState :=
  exec_maints [MFail (TimeOfUnix 30) "" "run_1" 1 "" "quota" 0%Z;
               MBlockRetries (TimeOfUnix 40) "" "run_1" 1 "" "quota"] one_running.

Lemma claim_with_limit_decides_witness :
  snd (ClaimMaintenanceJobWithLimit (TimeOfUnix 40) "" "run_1" 1 1
         (exec_maint (MFail (TimeOfUnix 30) "" "run_1" 1 "" "quota" 0%Z) one_running)) = (false, true).
Proof.
  set (s := exec_maint (MFail (TimeOfUnix 30) "" "run_1" 1 "" "quota" 0%Z) one_running).
  assert (Hw : maint_wf s) by apply maint_wf_exec1, one_running_wf.
  pose proof (claim_with_limit_decides s (TimeOfUnix 40) "" "run_1" 1 1
    ((one_job "failed" 1 30) <| j_next_retry_at := 30%Z |> <| j_last_error := "quota" |>)
    Hw eq_refl eq_refl eq_refl) as H.
  destruct (ClaimMaintenanceJobWithLimit (TimeOfUnix 40) "" "run_1" 1 1 s) as [s' out].
  destruct H as (_ & _ & H & _). exact H.
Defined.

Lemma retry_exhausted_stays_blocked_witness :
  lookup_key ("run_1", 1%Z) (jobs (exec_maints [MResetNetwork (TimeOfUnix 50);
    MResetLegacy (TimeOfUnix 51); MInactive "" ["route"] (TimeOfUnix 52)] one_exhausted)) =
  Some ((one_job "blocked_provider" 1 40) <| j_blocked_route_id := "policy:retry-limit" |>
          <| j_last_error := "quota" |>).
Proof.
  apply retry_exhausted_stays_blocked.
  - apply maint_wf_exec, one_running_wf.
  - vm_compute. reflexivity.
  - split; reflexivity.
  - repeat constructor.
Defined.

Lemma payload_frozen_witness :
  exists r, lookup_key ("run_1", 1%Z) (jobs (exec_maints
    [MFail (TimeOfUnix 30) "" "run_1" 1 "" "quota" 0%Z; MCreate (TimeOfUnix 40) "" "run_1" 1 "other"]
    one_running)) = Some r /\ j_payload_json r = "evidence".
Proof.
  apply (payload_frozen one_running ("run_1", 1%Z) (one_job "running" 1 20)).
  - apply one_running_wf.
  - vm_compute. reflexivity.
  - vm_compute. discriminate.
  - repeat constructor.
Defined.

Lemma migration_replay_safe_witness :
  exists new result, MigrateMaintenanceJobsToVersion (TimeOfUnix 50) 2 one_running =
    (one_running <| jobs := jobs one_running ++ new |>, Ok result).
Proof.
  destruct (migration_replay_safe one_running (TimeOfUnix 50) (TimeOfUnix 60) 2)
    as (new & result & _ & H & _).
  - apply one_running_wf.
  - lia.
  - exists new, result. exact H.
Defined.
