(* ===== verification/RouteTheory.v ===== *)
(** * Properties of the provider circuit

    Backoff of an open route, exclusivity of its half-open probe, what closing a
    route releases, and how many jobs a due route promotes. *)

From stdpp Require Import base tactics list strings.
From Stdlib Require Import ZArith Lia Bool Ascii String List Permutation Sorted.
From S2P Require Import Prelude GoLib Sql Admission Store Maintenance MaintenanceTheory.

(** ** Backoff *)

Lemma wrap64_small z : (0 <= z < 2 ^ 63)%Z -> wrap64 z = z.
Proof. intros H. unfold wrap64. rewrite Z.mod_small; lia. Qed.

(** The doubling loop computes the doubled delay capped at the maximum, and no
    product in it overflows. *)
Lemma backoff_loop_min n : forall delay maximum,
  (0 < delay <= maximum)%Z -> (maximum < 2 ^ 63)%Z ->
  backoff_loop n delay maximum = Z.min (delay * 2 ^ Z.of_nat n) maximum.
Proof.
  induction n as [|n IH]; intros delay maximum Hd Hm; cbn [backoff_loop].
  { change (2 ^ Z.of_nat 0)%Z with 1%Z. lia. }
  rewrite Nat2Z.inj_succ, Z.pow_succ_r by lia.
  assert (1 <= 2 ^ Z.of_nat n)%Z as Hp by (pose proof (Z.pow_pos_nonneg 2 (Z.of_nat n)); lia).
  destruct (Z.ltb_spec delay maximum); [|nia].
  destruct (Z.ltb_spec (maximum / 2) delay) as [Hh|Hh].
  - assert (maximum < 2 * delay)%Z by (pose proof (Z.mod_pos_bound maximum 2);
      pose proof (Z.div_mod maximum 2); lia). nia.
  - assert (2 * delay <= maximum)%Z by (pose proof (Z.mod_pos_bound maximum 2);
      pose proof (Z.div_mod maximum 2); lia).
    rewrite wrap64_small by lia. rewrite IH by lia. f_equal. ring.
Qed.

Lemma openDelay_min f initial maximum :
  (1 <= f)%Z -> (0 < initial <= maximum)%Z -> (maximum < 2 ^ 63)%Z ->
  openDelay f initial maximum = Z.min (initial * 2 ^ (f - 1)) maximum.
Proof.
  intros Hf Hi Hm. unfold openDelay. rewrite backoff_loop_min by done.
  rewrite Z2Nat.id by lia. destruct (Z.ltb_spec maximum (Z.min (initial * 2 ^ (f - 1)) maximum)); lia.
Qed.

(** ** Routes are keyed by tenant and id *)

Lemma at_route_key tn rt r : at_route tn rt r = true <-> key r = (tn, rt).
Proof.
  unfold at_route, key, RouteRow_keyed. split; intros H.
  - reflect_bools. by f_equal.
  - injection H as -> ->. by rewrite !String.eqb_refl.
Qed.

Lemma query_at_route tn rt t : query_row (at_route tn rt) t = lookup_key (tn, rt) t.
Proof.
  unfold query_row, lookup_key. induction t as [|r t IH]; simpl; [done|].
  rewrite IH. destruct (at_route tn rt r) eqn:E.
  - apply at_route_key in E. by rewrite bool_decide_eq_true_2.
  - case_bool_decide as Hk; [|done]. apply at_route_key in Hk. congruence.
Qed.

Lemma existsb_at_route tn rt t :
  existsb (at_route tn rt) t = match lookup_key (tn, rt) t with Some _ => true | None => false end.
Proof.
  rewrite <- query_at_route. unfold query_row. induction t as [|r t IH]; simpl; [done|].
  by destruct (at_route tn rt r).
Qed.

(** The claim of an open route before its cooldown, or under another probe's
    lease, is refused and changes nothing. *)
Lemma claim_route_refused tn rt p m now d s r :
  rt <> "" -> lookup_key (normalizeTenant tn, rt) (routes s) = Some r -> route_open r = true ->
  (Unix now < pr_next_probe_at r)%Z \/ (Unix now < pr_probe_lease_until r)%Z ->
  ClaimProviderRoute tn rt p m now d s = (s, (false, false, unixTime (pr_next_probe_at r))).
Proof.
  intros Hne Hr Ho Hb. unfold ClaimProviderRoute. apply String.eqb_neq in Hne. rewrite Hne.
  cbv zeta. rewrite query_at_route, Hr, Ho. simpl.
  assert ((Unix now <? pr_next_probe_at r)%Z || (Unix now <? pr_probe_lease_until r)%Z = true) as ->;
    [|done].
  apply orb_true_iff. destruct Hb; [left|right]; by apply Z.ltb_lt.
Qed.

(** Quota failures back off exponentially.  After [f] recorded consecutive
    failures of a route, one more opens its circuit until [initial * 2^f] later,
    capped at [maximum], with no 64-bit overflow for any number of failures; until
    that moment every call on the route is refused without touching the store. *)
Theorem open_route_backoff (s : MaintState) (tn rt p m class err req : string) (now : Time)
    (initial maximum : Duration) (f : Z) :
  rt <> "" -> (0 < initial <= maximum)%Z -> (maximum < 2 ^ 63)%Z ->
  f = match lookup_key (normalizeTenant tn, rt) (routes s) with
      | Some r => pr_consecutive_failures r | None => 0%Z end -> (0 <= f)%Z ->
  let '(s', next) := OpenProviderRoute tn rt p m class err req now initial maximum s in
  next = (now + Z.min (initial * 2 ^ f) maximum)%Z /\
  (exists r', lookup_key (normalizeTenant tn, rt) (routes s') = Some r' /\ route_open r' = true /\
     pr_consecutive_failures r' = (f + 1)%Z /\ pr_next_probe_at r' = Unix next) /\
  jobs s' = jobs s /\
  forall p' m' now' d, (Unix now' < Unix next)%Z ->
    ClaimProviderRoute tn rt p' m' now' d s' = (s', (false, false, unixTime (Unix next))).
Proof.
  intros Hne Hi Hm Hf H0. destruct (OpenProviderRoute _ _ _ _ _ _ _ _ _ _ s) as [s' next] eqn:E.
  assert (next = (now + Z.min (initial * 2 ^ f) maximum)%Z /\ jobs s' = jobs s /\
    exists r', lookup_key (normalizeTenant tn, rt) (routes s') = Some r' /\ route_open r' = true /\
     pr_consecutive_failures r' = (f + 1)%Z /\ pr_next_probe_at r' = Unix next)
    as (Hn & Hj & r' & Hr' & Ho & Hc & Hp).
  { unfold OpenProviderRoute in E. apply String.eqb_neq in Hne. rewrite Hne in E. cbv zeta in E.
    assert ((initial <=? 0)%Z = false) as Hi1 by (apply Z.leb_gt; lia).
    assert ((maximum <? initial)%Z = false) as Hi2 by (apply Z.ltb_ge; lia).
    rewrite Hi1, Hi2, query_at_route, existsb_at_route in E.
    destruct (lookup_key (normalizeTenant tn, rt) (routes s)) as [r|] eqn:Er.
    - rewrite <- Hf, openDelay_min in E by lia.
      replace (f + 1 - 1)%Z with f in E by lia. injection E as <- <-.
      split; [done|]. split; [done|]. eexists. split.
      + simpl. unfold update_where. rewrite lookup_map.
        * rewrite Er. simpl. apply lookup_key_Some in Er as [_ Hk]. apply at_route_key in Hk.
          rewrite Hk. reflexivity.
        * intros x. destruct (at_route (normalizeTenant tn) rt x) eqn:Ex; [|done].
          apply at_route_key in Ex. by rewrite Ex.
      + done.
    - rewrite <- Hf, openDelay_min in E by lia.
      replace (f + 1 - 1)%Z with f in E by lia. injection E as <- <-.
      split; [done|]. split; [done|]. eexists. split.
      + simpl. rewrite lookup_snoc, Er. rewrite bool_decide_eq_true_2 by done. reflexivity.
      + done. }
  split; [done|]. split; [eauto|]. split; [done|]. intros p' m' now' d Hlt. rewrite <- Hp.
  eapply claim_route_refused; [done|done|done|]. left. lia.
Qed.

(** ** The half-open probe *)

(** The steps that settle or reopen the route of key [k]. *)
Definition settles_route (k : string * string) (op : maint_op) : bool :=
  match op with
  | MOpenRoute tn rt _ _ _ _ _ _ _ _ | MCloseRoute tn rt _ | MDeferRoute tn rt _ _ =>
      bool_decide ((normalizeTenant tn, rt) = k)
  | _ => false
  end.

(** The step is not a call on the route of key [k] at or after second [until]. *)
Definition call_before (k : string * string) (until : Z) (op : maint_op) : Prop :=
  match op with
  | MClaimRoute tn rt _ _ now _ => (normalizeTenant tn, rt) = k -> (Unix now < until)%Z
  | _ => True
  end.

Lemma lookup_update_route cond f (t : list RouteRow) k r :
  (forall x, cond x = true -> key (f x) = key x) -> lookup_key k t = Some r -> cond r = false ->
  lookup_key k (update_where cond f t) = Some r.
Proof.
  intros Hf Hr Hc. unfold update_where. rewrite lookup_map, Hr; simpl; [by rewrite Hc|].
  intros x. destruct (cond x) eqn:E; auto.
Qed.

Lemma at_route_other tn rt k (r : RouteRow) : key r = k -> (tn, rt) <> k -> at_route tn rt r = false.
Proof.
  intros Hk Hne. destruct (at_route tn rt r) eqn:E; [|done]. apply at_route_key in E. congruence.
Qed.

(** A leased open route is not changed by calls within the lease, nor by any step
    that does not settle it. *)
Lemma leased_route_step k until r op s :
  lookup_key k (routes s) = Some r -> route_open r = true -> pr_probe_lease_until r = until ->
  settles_route k op = false -> call_before k until op ->
  lookup_key k (routes (exec_maint op s)) = Some r.
Proof.
  intros Hr Ho Hl Hs Hc. pose proof (lookup_key_Some _ _ _ Hr) as [_ Hk].
  assert (forall n now tn rid v o e rt s0,
    routes (fst (record_if n now tn rid v o e rt s0)) = routes s0) as Hrec.
  { intros. unfold record_if. by case_if. }
  destruct op; cbn [exec_maint]; cbn [settles_route call_before] in Hs, Hc; try done.
  - unfold MigrateMaintenanceJobsToVersion. case_if; [done|]. by case_match.
  - unfold EnqueueMaintenanceJob. by case_match.
  - unfold createMaintenanceJobTx. case_if; [done|]. case_match. by case_if.
  - unfold BlockMaintenanceJobForRoute. by rewrite Hrec.
  - unfold BlockMaintenanceJobForPromptRevision. by rewrite Hrec.
  - unfold blockMaintenanceJobAfterRetriesForRoute. by rewrite Hrec.
  - unfold RequeueNetworkBlockedMaintenanceJobs. by case_if.
  - destruct (decide (routeID = "")) as [->|Hne]; [done|].
    destruct (decide ((normalizeTenant tenantID, routeID) = k)) as [Heq|Hneq].
    + rewrite <- Heq in Hr. rewrite (claim_route_refused _ _ _ _ _ _ _ r Hne Hr Ho); [by rewrite <- Heq|].
      right. rewrite Hl. auto.
    + unfold ClaimProviderRoute. case_if; [done|]. cbv zeta. rewrite query_at_route.
      case_match; [case_if; [done|]; case_if; [done|]|].
      * simpl. apply lookup_update_route; [done|done|]. by rewrite (at_route_other _ _ k).
      * simpl. by rewrite lookup_snoc, Hr.
  - unfold OpenProviderRoute. case_if; [done|]. cbv zeta. case_match.
    apply bool_decide_eq_false in Hs. case_if; simpl.
    + apply lookup_update_route; [|done|by apply (at_route_other _ _ k)].
      intros x Hx. apply at_route_key in Hx. by rewrite Hx.
    + by rewrite lookup_snoc, Hr.
  - unfold CloseProviderRoute. case_if; [done|]. apply bool_decide_eq_false in Hs. simpl.
    apply lookup_update_route; [done|done|by apply (at_route_other _ _ k)].
  - unfold DeferProviderRouteProbe. case_if; [done|]. apply bool_decide_eq_false in Hs. simpl.
    apply lookup_update_route; [done|done|]. by rewrite (at_route_other _ _ k).
  - unfold RequeueBlockedJobsForInactiveProviderRoutes. by case_match.
  - unfold requeueBlockedJobsForHealthyProviderRoutes. by repeat case_if.
Qed.

(** One probe at a time.  If a call on an open route is let through as its
    half-open probe, then until the probe's lease ends or the route is settled
    (opened again, closed or deferred), every other call on that route is refused
    without touching the store, whatever other statements run in between. *)
Theorem half_open_probe_exclusive (s s1 : MaintState) (tn rt p m : string) (now : Time)
    (lease : Duration) (next : Time) (ops : list maint_op) (p' m' : string) (now' : Time)
    (lease' : Duration) :
  (0 < lease)%Z -> ClaimProviderRoute tn rt p m now lease s = (s1, (true, true, next)) ->
  let until := Unix (Add now lease) in
  Forall (fun op => settles_route (normalizeTenant tn, rt) op = false /\
                    call_before (normalizeTenant tn, rt) until op) ops ->
  (Unix now' < until)%Z ->
  let s' := exec_maints ops s1 in
  exists t, ClaimProviderRoute tn rt p' m' now' lease' s' = (s', (false, false, t)).
Proof.
  intros Hlease Hc until Hops Hlt s'.
  assert (rt <> "") as Hne.
  { intros ->. unfold ClaimProviderRoute in Hc. done. }
  assert (exists r, lookup_key (normalizeTenant tn, rt) (routes s1) = Some r /\
    route_open r = true /\ pr_probe_lease_until r = until) as (r & Hr & Ho & Hu).
  { unfold ClaimProviderRoute in Hc. pose proof Hne as Hne'. apply String.eqb_neq in Hne'.
    rewrite Hne' in Hc. cbv zeta in Hc. rewrite query_at_route in Hc.
    assert ((lease <=? 0)%Z = false) as El by by apply Z.leb_gt. rewrite El in Hc.
    destruct (lookup_key _ (routes s)) as [r|] eqn:Er; [|done].
    destruct (route_open r) eqn:Eo; [|done]. simpl in Hc.
    destruct ((Unix now <? pr_next_probe_at r)%Z || _) eqn:Eb in Hc; [done|].
    injection Hc as <- _ _ _. simpl. eexists. split.
    { rewrite lookup_update, Er by done. simpl. pose proof (lookup_key_Some _ _ _ Er) as [_ Hk].
      apply at_route_key in Hk. rewrite Hk, Eo. reflect_bools.
      assert ((pr_probe_lease_until r <=? Unix now)%Z = true) as -> by (apply Z.leb_le; lia).
      reflexivity. }
    done. }
  assert (forall ops s0, Forall (fun op => settles_route (normalizeTenant tn, rt) op = false /\
      call_before (normalizeTenant tn, rt) until op) ops ->
    lookup_key (normalizeTenant tn, rt) (routes s0) = Some r ->
    lookup_key (normalizeTenant tn, rt) (routes (exec_maints ops s0)) = Some r) as Hkeep.
  { clear -Ho Hu. induction ops as [|op ops IH]; intros s0 Hf Hr; [done|].
    inversion Hf as [|? ? [H1 H2] Hf']; subst. simpl. apply IH; [done|].
    by eapply leased_route_step. }
  eexists. eapply claim_route_refused; [done|by apply Hkeep|done|]. right. by rewrite Hu.
Qed.

(** ** Closing a route *)

Lemma claim_taken now tn rid v m s r :
  keys_unique (jobs s) -> lookup_key (rid, normVersion v) (jobs s) = Some r ->
  claimable_job now tn rid (normVersion v) m r = true ->
  snd (ClaimMaintenanceJobWithLimit now tn rid v m s) = (true, false).
Proof.
  intros Hu Hr Hc. unfold ClaimMaintenanceJobWithLimit, claimUpdate. cbv zeta.
  rewrite (rows_affected_key (rid, normVersion v)), Hr, Hc by (done || apply claimable_job_key). done.
Qed.

Lemma held_released tn rt now r : rt <> "" -> held_by tn rt (released now r) = false.
Proof. intros H. unfold held_by. simpl. by rewrite andb_false_r. Qed.

(** Closing a route releases exactly its jobs.  The jobs of the tenant that the
    route had parked (and their number is what the call reports) are no longer
    parked and can be claimed at once with a full retry budget; every other job is
    untouched; and calls on the route are allowed again. *)
Theorem close_route_releases (s : MaintState) (tn rt : string) (now : Time) :
  rt <> "" -> maint_wf s ->
  let '(s', n) := CloseProviderRoute tn rt now s in
  let held := held_by (normalizeTenant tn) rt in
  n = rows_affected held (jobs s) /\
  (forall r, In r (jobs s') -> held r = false) /\
  (forall r, In r (jobs s) -> held r = false -> lookup_key (key r) (jobs s') = Some r) /\
  (forall r now' m, In r (jobs s) -> held r = true -> (0 < j_analyzer_version r)%Z -> (0 < m)%Z ->
     snd (ClaimMaintenanceJobWithLimit now' tn (j_run_id r) (j_analyzer_version r) m s') =
       (true, false)) /\
  (forall p m now' d, snd (ClaimProviderRoute tn rt p m now' d s') = (true, false, ZeroTime)).
Proof.
  intros Hne Hw. destruct (CloseProviderRoute tn rt now s) as [s' n] eqn:E.
  unfold CloseProviderRoute in E. pose proof Hne as Hne'. apply String.eqb_neq in Hne'.
  rewrite Hne' in E. injection E as <- <-. simpl.
  set (held := held_by (normalizeTenant tn) rt).
  assert (forall r, In r (jobs s) -> lookup_key (key r) (update_where held (released now) (jobs s)) =
    Some (if held r then released now r else r)) as Hl.
  { intros r Hr. rewrite lookup_update by done. by rewrite (lookup_key_In _ _ (mw_keys _ Hw) Hr). }
  split; [done|]. split; [|split; [|split]].
  - intros r (r0 & _ & ->)%In_update_where. destruct (held r0) eqn:Eh; [|done].
    by apply held_released.
  - intros r Hr Hh. by rewrite Hl, Hh.
  - intros r now' m Hr Hh Hv Hm.
    assert (normVersion (j_analyzer_version r) = j_analyzer_version r) as Hnv.
    { unfold normVersion. case_if; reflect_bools; lia. }
    apply claim_taken with (r := released now r); rewrite ?Hnv.
    + apply keys_unique_update; [done|]. by apply mw_keys.
    + change (j_run_id r, j_analyzer_version r) with (key r). simpl. by rewrite Hl, Hh.
    + unfold held, held_by in Hh. unfold claimable_job, at_job, job_due, job_is. reflect_bools.
      apply Z.ltb_lt in Hm. simpl. rewrite H, Hm, !String.eqb_refl, Z.eqb_refl. done.
  - intros p m now' d. unfold ClaimProviderRoute. rewrite Hne'. cbv zeta.
    rewrite query_at_route. simpl. rewrite lookup_update by done.
    destruct (lookup_key (normalizeTenant tn, rt) (routes s)) as [r|] eqn:Er; [|done]. simpl.
    apply lookup_key_Some in Er as [_ Hk%at_route_key]. by rewrite Hk.
Qed.

(** ** Promotion of due routes *)

Definition held_count (tn rt : string) (s : MaintState) : Z := rows_affected (held_by tn rt) (jobs s).

Lemma held_by_route tn rt tn' rt' r :
  held_by tn rt r = true -> held_by tn' rt' r = true -> (tn, rt) = (tn', rt').
Proof. unfold held_by. intros. reflect_bools. by subst. Qed.

(** Promoting the oldest job of one route. *)
Lemma promoteOne_counts now tn rt s s' n :
  keys_unique (jobs s) -> promoteOne now tn rt s = (s', n) ->
  keys_unique (jobs s') /\ routes s' = routes s /\ n = Z.min 1 (held_count tn rt s) /\
  held_count tn rt s' = (held_count tn rt s - n)%Z /\
  forall tn' rt', (tn', rt') <> (tn, rt) -> held_count tn' rt' s' = held_count tn' rt' s.
Proof.
  intros Hu E. unfold promoteOne, probe_candidate, select_where in E. injection E as <- <-.
  unfold held_count. simpl.
  destruct (hd_error (order_by _ (List.filter (held_by tn rt) (jobs s)))) as [c|] eqn:Ec.
  - apply In_insert_head, filter_In in Ec as [Hc Hh].
    assert (forall r, In r (jobs s) -> same_job r c = true <-> r = c) as Hhit.
    { intros r Hr. unfold same_job. rewrite bool_decide_eq_true. split; [|by intros ->].
      by apply (keys_unique_inj (jobs s)). }
    set (f := fun r : JobRow => _ : JobRow).
    destruct (update_where_one (fun r => same_job r c) f (jobs s) c Hu Hc Hhit)
      as (t1 & t2 & Ht & Hupd). rewrite Hupd.
    assert (rows_affected (fun r => same_job r c) (jobs s) = 1%Z) as ->.
    { rewrite (rows_affected_key (key c)); [|done|by intros r Hr%bool_decide_eq_true].
      rewrite lookup_key_In by done. by rewrite (proj2 (Hhit c Hc) eq_refl). }
    assert (forall tn' rt', held_by tn' rt' (f c) = false) as Hf.
    { intros. unfold held_by. simpl. by rewrite andb_false_r. }
    split; [rewrite <- Hupd; by apply keys_unique_update|]. split; [done|].
    rewrite Ht. unfold rows_affected. repeat setoid_rewrite List.filter_app. simpl.
    setoid_rewrite Hf. rewrite Hh. repeat setoid_rewrite length_app. simpl.
    split; [lia|]. split; [lia|]. intros tn' rt' Hne.
    destruct (held_by tn' rt' c) eqn:Ec'; [|done].
    destruct Hne. by eapply held_by_route.
  - assert (List.filter (held_by tn rt) (jobs s) = []) as Hnil.
    { destruct (List.filter _ _) as [|x l]; [done|]. exfalso.
      assert (In x (order_by (fun a b => (j_updated_at a <=? j_updated_at b)%Z) (x :: l))) as Hx
        by (apply In_order_by; by left).
      destruct (order_by _ (x :: l)); done. }
    rewrite update_where_nop by done.
    assert (rows_affected (held_by tn rt) (jobs s) = 0%Z) as -> by (unfold rows_affected; by rewrite Hnil).
    assert (rows_affected (fun _ : JobRow => false) (jobs s) = 0%Z) as ->
      by (unfold rows_affected; by rewrite filter_all_false).
    done.
Qed.

Lemma promoteDue_counts now due : forall s,
  keys_unique (jobs s) -> keys_unique due ->
  let '(s', total) := promoteDue now due s in
  (0 <= total <= Z.of_nat (length due))%Z /\ routes s' = routes s /\
  (forall r, In r due -> held_count (pr_tenant_id r) (pr_route_id r) s' =
     Z.max 0 (held_count (pr_tenant_id r) (pr_route_id r) s - 1)) /\
  (forall tn rt, ~ In (tn, rt) (map key due) -> held_count tn rt s' = held_count tn rt s).
Proof.
  induction due as [|r due IH]; intros s Hu Hd; [by simpl|]. cbn [promoteDue].
  destruct (promoteOne now (pr_tenant_id r) (pr_route_id r) s) as [s1 n] eqn:E1.
  destruct (promoteOne_counts _ _ _ _ _ _ Hu E1) as (Hu1 & Hr1 & Hn & Hc & Ho).
  apply NoDup_cons_iff in Hd as [Hni Hd].
  specialize (IH s1 Hu1 Hd). destruct (promoteDue now due s1) as [s' total].
  destruct IH as (Ht & Hr & Hin & Hout).
  pose proof (rows_affected_nonneg (held_by (pr_tenant_id r) (pr_route_id r)) (jobs s)).
  unfold held_count in Hn. split; [simpl; lia|]. split; [congruence|]. split.
  - intros x [<-|Hx].
    + rewrite Hout by done. rewrite Hc. unfold held_count in *. lia.
    + rewrite Hin by done. rewrite Ho; [done|]. intros Heq. apply Hni.
      change (key x = key r) in Heq. rewrite <- Heq. by apply in_map.
  - intros tn rt Hx. simpl in Hx. rewrite Hout by tauto. apply Ho. intros Heq. apply Hx. left.
    by rewrite Heq.
Qed.

(** One job per due route.  A probe sweep takes exactly one parked job off each
    due route that has one, none off any other route, changes no circuit, and so
    promotes at most as many jobs as there are due routes. *)
Theorem due_routes_promote_one (s : MaintState) (now : Time) :
  maint_wf s -> keys_unique (routes s) ->
  let '(s', total) := RequeueDueProviderRouteProbes now s in
  (0 <= total <= rows_affected (probe_due now) (routes s))%Z /\ routes s' = routes s /\
  forall r, In r (routes s) ->
    held_count (pr_tenant_id r) (pr_route_id r) s' =
      if probe_due now r then Z.max 0 (held_count (pr_tenant_id r) (pr_route_id r) s - 1)
      else held_count (pr_tenant_id r) (pr_route_id r) s.
Proof.
  intros Hw Hr. unfold RequeueDueProviderRouteProbes, select_where.
  pose proof (promoteDue_counts now (List.filter (probe_due now) (routes s)) s (mw_keys _ Hw)
    (keys_unique_filter _ _ Hr)) as H.
  destruct (promoteDue _ _ s) as [s' total]. destruct H as (Ht & Hrt & Hin & Hout).
  split; [done|]. split; [done|]. intros r Hx. destruct (probe_due now r) eqn:Ed.
  - apply Hin. by apply filter_In.
  - apply Hout. intros (x & Hk & [Hx' Hd]%filter_In)%in_map_iff.
    assert (x = r) as -> by by apply (keys_unique_inj (routes s)). congruence.
Qed.

(** ** Concrete instances *)

(** A route opened at second 100 by one quota failure, holding one job. *)
Definition one_parked : MaintState :=
  exec_maints [MCreate (TimeOfUnix 10) "" "run_1" 1 "evidence"; MClaim (TimeOfUnix 20) "" "run_1" 1 3;
               MBlock (TimeOfUnix 30) "" "run_1" 1 "rt" "quota";
               MOpenRoute "" "rt" "p" "m" "quota" "403" "req" (TimeOfUnix 100) Minute Hour]
    emptyMaint.

Lemma one_parked_wf : maint_wf one_parked.
Proof. apply maint_wf_exec, maint_wf_empty. Qed.

Lemma open_route_backoff_witness :
  snd (OpenProviderRoute "" "rt" "p" "m" "quota" "403" "req" (TimeOfUnix 200) Minute Hour one_parked)
    = (TimeOfUnix 200 + 2 * Minute)%Z.
Proof.
  pose proof (open_route_backoff one_parked "" "rt" "p" "m" "quota" "403" "req" (TimeOfUnix 200)
    Minute Hour 1%Z) as H.
  destruct (OpenProviderRoute _ _ _ _ _ _ _ _ _ _ one_parked) as [s' next].
  destruct H as (H & _).
  - discriminate.
  - vm_compute. split; congruence.
  - reflexivity.
  - vm_compute. reflexivity.
  - lia.
  - rewrite H. vm_compute. reflexivity.
Defined.

Lemma half_open_probe_exclusive_witness :
  let s1 := fst (ClaimProviderRoute "" "rt" "p" "m" (TimeOfUnix 160) Minute one_parked) in
  exists t, ClaimProviderRoute "" "rt" "p" "m" (TimeOfUnix 219) Minute
    (exec_maints [MPromote (TimeOfUnix 170) "default" "rt"] s1) =
    (exec_maints [MPromote (TimeOfUnix 170) "default" "rt"] s1, (false, false, t)).
Proof.
  apply (half_open_probe_exclusive one_parked _ "" "rt" "p" "m" (TimeOfUnix 160) Minute (TimeOfUnix 160)).
  - reflexivity.
  - vm_compute. reflexivity.
  - repeat constructor.
  - reflexivity.
Defined.

Lemma close_route_releases_witness :
  snd (CloseProviderRoute "" "rt" (TimeOfUnix 300) one_parked) = 1%Z.
Proof.
  pose proof (close_route_releases one_parked "" "rt" (TimeOfUnix 300)) as H.
  destruct (CloseProviderRoute "" "rt" (TimeOfUnix 300) one_parked) as [s' n].
  destruct H as (H & _); [discriminate|apply one_parked_wf|].
  rewrite H. vm_compute. reflexivity.
Defined.

Lemma due_routes_promote_one_witness :
  (snd (RequeueDueProviderRouteProbes (TimeOfUnix 200) one_parked) <= 1)%Z.
Proof.
  pose proof (due_routes_promote_one one_parked (TimeOfUnix 200)) as H.
  destruct (RequeueDueProviderRouteProbes (TimeOfUnix 200) one_parked) as [s' total].
  destruct H as (H & _); [apply one_parked_wf|apply keys_unique_single|]. apply H.
Defined.
