(* ===== verification/Inbound.v ===== *)
(** * Inbound receipts ([internal/control/inbound_dedup.go])

    Every message an adapter receives is stored as a receipt before it is
    acknowledged; a dispatcher claims the receipt, under a generation of its own,
    before it calls the gateway.  The first part models the table and its
    operations, the second one proves, over every history of operations, that a
    receipt is dispatched by one claim at a time, that a transition sent late
    changes nothing, and that unresolved input is never lost. *)

From stdpp Require Import base tactics list strings.
From Stdlib Require Import ZArith Lia Bool Ascii String List Permutation.
From S2P Require Import Prelude GoLib Sql.

(** ** Data *)

Definition inboundDedupRetention : Duration := (48 * Hour)%Z.

Definition InboundPending : string := "pending".
Definition InboundDispatching : string := "dispatching".
Definition InboundAccepted : string := "accepted".

Record InboundOwner := mkInboundOwner {
  ow_TenantID : string; ow_PersonID : string; ow_Preview : string }.

Record InboundRow := mkInboundRow {
  i_platform : string;
  i_message_id : string;
  i_created_at : Z;
  i_state : string;
  i_payload : string;
  i_updated_at : Z;
  i_last_error : string;
  i_tenant_id : string;
  i_person_id : string;
  i_preview : string;
  i_claim_generation : Z
}.

#[export] Instance InboundRow_eta : Eta InboundRow := fun r =>
  mkInboundRow (i_platform r) (i_message_id r) (i_created_at r) (i_state r) (i_payload r)
    (i_updated_at r) (i_last_error r) (i_tenant_id r) (i_person_id r) (i_preview r)
    (i_claim_generation r).

(** [PRIMARY KEY (platform, message_id)]. *)
#[export] Instance InboundRow_keyed : Keyed InboundRow (string * string) :=
  fun r => (i_platform r, i_message_id r).

Record UncertainInbound := mkUncertainInbound {
  ui_Platform : string;
  ui_MessageID : string;
  ui_State : string;
  ui_Preview : string;
  ui_LastError : string;
  ui_UpdatedAt : Time;
  ui_ClaimGeneration : Z
}.

Definition ErrInboundConflict : string := "inbound redelivery conflicts with its saved receipt".
Definition ErrInboundNotOwned : string := "inbound receipt is not held by this claim".

(** [string([]rune(s)[:n])]: at most [n] runes; each byte that starts no valid
    encoding becomes the replacement character. *)
Definition replacement : list ascii := map ascii_of_N [0xEF; 0xBF; 0xBD]%N.

Fixpoint decoded_runes (fuel : nat) (l : list ascii) : list (list ascii) :=
  match fuel, l with
  | S n, _ :: l1 =>
      match rune_len l with
      | Some k => firstn k l :: decoded_runes n (skipn k l)
      | None => replacement :: decoded_runes n l1
      end
  | _, _ => []
  end.

Definition first_runes (n : nat) (s : string) : string :=
  let l := list_ascii_of_string s in
  string_of_list_ascii (concat (firstn n (decoded_runes (length l) l))).

(** ** Operations *)

(** [platform = ? AND message_id = ?]. *)
Definition at_receipt (platform messageID : string) (r : InboundRow) : bool :=
  (i_platform r =? platform)%string && (i_message_id r =? messageID)%string.

Definition in_state (s : string) (r : InboundRow) : bool := (i_state r =? s)%string.

(** An adapter's reduction of a payload to the fields that identify it. *)
Definition InboundEssential := string -> res string.

Definition sameInboundMessage (stored incoming : string) (essential : option InboundEssential) : bool :=
  if (stored =? incoming)%string then true else
  match essential with
  | None => false
  | Some f =>
      match f stored with
      | Err _ => false
      | Ok saved =>
          match f incoming with
          | Err _ => false
          | Ok redelivered => (saved =? redelivered)%string
          end
      end
  end.

Definition expired (now : Time) (r : InboundRow) : bool :=
  in_state InboundAccepted r && (i_created_at r <? Unix now - inboundDedupRetention / Second)%Z.

Definition same_receipt (a b : InboundRow) : bool := bool_decide (key a = key b).

Definition newReceipt (now : Time) (platform messageID payload : string) (owner : InboundOwner)
  : InboundRow :=
  mkInboundRow platform messageID (Unix now) InboundPending payload (Unix now) ""
    (ow_TenantID owner) (ow_PersonID owner) (first_runes 120 (TrimSpace (ow_Preview owner))) 0.

Definition BeginInboundMatching (now : Time) (platform messageID payload : string)
    (owner : InboundOwner) (essential : option InboundEssential) (t : list InboundRow)
  : list InboundRow * res string :=
  let platform := TrimSpace platform in
  let messageID := TrimSpace messageID in
  if (platform =? "")%string || (messageID =? "")%string || (payload =? "")%string
     || (ow_TenantID owner =? "")%string || (ow_PersonID owner =? "")%string
  then (t, Err (Errorf "inbound platform, message id, payload, and owner are required")) else
  let t := delete_where (expired now) t in
  let '(t, _) := insert_or_ignore same_receipt (newReceipt now platform messageID payload owner) t in
  match query_row (at_receipt platform messageID) t with
  | None => (t, Err (Errorf "no rows"))
  | Some r =>
      if negb (i_tenant_id r =? "")%string
         && (negb (i_tenant_id r =? ow_TenantID owner)%string
             || negb (i_person_id r =? ow_PersonID owner)%string)
      then (t, Err (Wrap "inbound message belongs to another identity" (Sentinel ErrInboundConflict)))
      else if negb (in_state InboundPending r) || (i_payload r =? "")%string
              || sameInboundMessage (i_payload r) payload essential
      then (t, Ok (i_state r))
      else
        (update_where (fun r => at_receipt platform messageID r && in_state InboundPending r)
           (fun r => r <| i_last_error := "redelivery rejected: content changed" |>
                       <| i_updated_at := Unix now |>) t,
         Err (Wrap "inbound message changed payload on redelivery" (Sentinel ErrInboundConflict)))
  end.

Definition BeginInbound (now : Time) (platform messageID payload : string) (owner : InboundOwner)
    (t : list InboundRow) : list InboundRow * res string :=
  BeginInboundMatching now platform messageID payload owner None t.

(** [ORDER BY updated_at DESC, platform, message_id]. *)
Definition uncertain_order (a b : InboundRow) : bool :=
  (i_updated_at b <? i_updated_at a)%Z
  || (i_updated_at a =? i_updated_at b)%Z
     && (String.ltb (i_platform a) (i_platform b)
         || (i_platform a =? i_platform b)%string && String.leb (i_message_id a) (i_message_id b)).

Definition ListUncertainInboundForPerson (tenantID personID : string) (limit : Z)
    (t : list InboundRow) : res (list UncertainInbound) :=
  if (tenantID =? "")%string || (personID =? "")%string
  then Err (Errorf "inbound owner is required") else
  let limit := if (limit <=? 0)%Z || (20 <? limit)%Z then 20%Z else limit in
  Ok (map (fun r => mkUncertainInbound (i_platform r) (i_message_id r) (i_state r) (i_preview r)
                      (i_last_error r) (TimeOfUnix (i_updated_at r)) (i_claim_generation r))
    (sql_limit limit (order_by uncertain_order
      (select_where (fun r => (i_tenant_id r =? tenantID)%string && (i_person_id r =? personID)%string
                              && negb (in_state InboundAccepted r)) t)))).

(** [UPDATE ... RETURNING claim_generation]: 0 when no row matched. *)
Definition ClaimInbound (now : Time) (platform messageID : string) (t : list InboundRow)
  : list InboundRow * Z :=
  let cond := fun r => at_receipt platform messageID r && in_state InboundPending r in
  (update_where cond (fun r => r <| i_state := InboundDispatching |> <| i_updated_at := Unix now |>
       <| i_claim_generation := (i_claim_generation r + 1)%Z |>) t,
   match query_row cond t with Some r => (i_claim_generation r + 1)%Z | None => 0%Z end).

Definition InboundReceiptClaim (platform messageID : string) (t : list InboundRow)
  : res (string * Z) :=
  match query_row (at_receipt platform messageID) t with
  | Some r => Ok (i_state r, i_claim_generation r)
  | None => Err (Errorf "no rows")
  end.

Definition InboundReceipt (platform messageID : string) (t : list InboundRow)
  : res (string * string) :=
  match query_row (at_receipt platform messageID) t with
  | Some r => Ok (i_state r, i_payload r)
  | None => Err (Errorf "no rows")
  end.

(** [inboundClaimHolds]. *)
Definition inboundClaimHolds (platform messageID : string) (generation : Z) (r : InboundRow) : bool :=
  at_receipt platform messageID r && in_state InboundDispatching r
  && (i_claim_generation r =? generation)%Z.

Definition transitionInboundClaim (platform messageID : string) (generation : Z)
    (update : InboundRow -> InboundRow) (t : list InboundRow) : list InboundRow * res unit :=
  if (generation <=? 0)%Z
  then (t, Err (Wrap "generation names no claim" (Sentinel ErrInboundNotOwned))) else
  let cond := inboundClaimHolds platform messageID generation in
  (update_where cond update t,
   if negb (rows_affected cond t =? 1)%Z
   then Err (Wrap "not dispatching under claim" (Sentinel ErrInboundNotOwned)) else Ok tt).

Definition AcceptInbound (now : Time) (platform messageID : string) (generation : Z)
    (t : list InboundRow) : list InboundRow * res unit :=
  transitionInboundClaim platform messageID generation
    (fun r => r <| i_state := InboundAccepted |> <| i_last_error := "" |>
                <| i_updated_at := Unix now |>) t.

Definition ReleaseInbound (now : Time) (platform messageID : string) (generation : Z)
    (reason : string) (t : list InboundRow) : list InboundRow * res unit :=
  let reason := first_runes 240 (TrimSpace reason) in
  transitionInboundClaim platform messageID generation
    (fun r => r <| i_state := InboundPending |> <| i_last_error := reason |>
                <| i_updated_at := Unix now |>) t.

Definition inboundReason (failure : string) : string := boundedText failure 240.

(** A failure is its message; [None] is a nil error. *)
Definition NoteInboundFailure (now : Time) (platform messageID : string) (generation : Z)
    (failure : option string) (t : list InboundRow) : list InboundRow * res unit :=
  match failure with
  | None => (t, Ok tt)
  | Some m =>
      transitionInboundClaim platform messageID generation
        (fun r => r <| i_last_error := inboundReason m |> <| i_updated_at := Unix now |>) t
  end.

Definition NoteUnexplainedInbound (now : Time) (platform messageID : string) (generation : Z)
    (failure : option string) (t : list InboundRow) : list InboundRow * res unit :=
  match failure with
  | None => (t, Ok tt)
  | Some m =>
      if (generation <=? 0)%Z then (t, Ok tt) else
      (update_where (fun r => inboundClaimHolds platform messageID generation r
                              && (i_last_error r =? "")%string)
         (fun r => r <| i_last_error := inboundReason m |> <| i_updated_at := Unix now |>) t, Ok tt)
  end.

(** ** Histories *)

Inductive inbound_op : Type :=
| IBegin (now : Time) (platform messageID payload : string) (owner : InboundOwner)
    (essential : option InboundEssential)
| IClaim (now : Time) (platform messageID : string)
| IAccept (now : Time) (platform messageID : string) (generation : Z)
| IRelease (now : Time) (platform messageID : string) (generation : Z) (reason : string)
| INote (now : Time) (platform messageID : string) (generation : Z) (failure : option string)
| INoteUnexplained (now : Time) (platform messageID : string) (generation : Z)
    (failure : option string).

Definition exec_inbound (op : inbound_op) (t : list InboundRow) : list InboundRow :=
  match op with
  | IBegin now p m pl ow es => fst (BeginInboundMatching now p m pl ow es t)
  | IClaim now p m => fst (ClaimInbound now p m t)
  | IAccept now p m g => fst (AcceptInbound now p m g t)
  | IRelease now p m g why => fst (ReleaseInbound now p m g why t)
  | INote now p m g e => fst (NoteInboundFailure now p m g e t)
  | INoteUnexplained now p m g e => fst (NoteUnexplainedInbound now p m g e t)
  end.

Definition exec_inbounds (ops : list inbound_op) (t : list InboundRow) : list InboundRow :=
  fold_left (fun t op => exec_inbound op t) ops t.

(** What one operation may do to one receipt. *)
Record receipt_step (op : inbound_op) (r r' : InboundRow) : Prop := {
  is_key : key r' = key r;
  is_payload : i_payload r' = i_payload r;
  is_owner : i_tenant_id r' = i_tenant_id r /\ i_person_id r' = i_person_id r;
  is_created : i_created_at r' = i_created_at r;
  is_generation : (i_claim_generation r <= i_claim_generation r')%Z;
  is_accepted : i_state r = InboundAccepted -> r' = r;
  is_dispatching : i_state r = InboundDispatching ->
    i_claim_generation r' = i_claim_generation r /\
    (i_state r' = InboundDispatching
     \/ (i_state r' = InboundAccepted /\
         exists now, op = IAccept now (i_platform r) (i_message_id r) (i_claim_generation r))
     \/ (i_state r' = InboundPending /\
         exists now why, op = IRelease now (i_platform r) (i_message_id r) (i_claim_generation r) why));
  is_pending : i_state r = InboundPending -> In (i_state r') [InboundPending; InboundDispatching]
}.

(** Two different states of one receipt. *)
Ltac receipt_clash :=
  exfalso; match goal with
  | H1 : i_state ?r = _, H2 : i_state ?r = _ |- _ => rewrite H1 in H2; discriminate H2
  | H1 : _ = i_state ?r, H2 : i_state ?r = _ |- _ => rewrite <- H1 in H2; discriminate H2
  end.

Lemma receipt_step_refl op r : receipt_step op r r.
Proof.
  constructor; try done; try lia; intros H; [split; [done|by left]|left; by rewrite H].
Qed.

(** The receipt is old enough for the retention sweep of the operation, should it
    be accepted. *)
Definition sweeps (op : inbound_op) (r : InboundRow) : bool :=
  match op with
  | IBegin now _ _ _ _ _ => (i_created_at r <? Unix now - inboundDedupRetention / Second)%Z
  | _ => false
  end.

Lemma at_receipt_key p m r : at_receipt p m r = true <-> key r = (p, m).
Proof.
  unfold at_receipt, key, InboundRow_keyed. split; intros H.
  - reflect_bools. by f_equal.
  - injection H as -> ->. by rewrite !String.eqb_refl.
Qed.

(** An [UPDATE] whose row change is a step. *)
Lemma update_receipts op cond f t k r :
  (forall x, key (f x) = key x) -> (forall x, cond x = true -> receipt_step op x (f x)) ->
  lookup_key k t = Some r ->
  exists r', lookup_key k (update_where cond f t) = Some r' /\ receipt_step op r r'.
Proof.
  intros Hk Hs Hr. exists (if cond r then f r else r). split.
  - by rewrite lookup_update, Hr.
  - destruct (cond r) eqn:E; [auto|apply receipt_step_refl].
Qed.

(** The statements of a begin that keep an unexpired receipt. *)
Lemma begin_step now p m pl ow es t k r :
  keys_unique t -> lookup_key k t = Some r -> expired now r = false ->
  exists r', lookup_key k (exec_inbound (IBegin now p m pl ow es) t) = Some r' /\
    receipt_step (IBegin now p m pl ow es) r r'.
Proof.
  intros Hu Hr He. cbn [exec_inbound]. unfold BeginInboundMatching. cbv zeta.
  case_if; [exists r; split; [done|apply receipt_step_refl]|].
  set (t1 := delete_where (expired now) t).
  assert (lookup_key k t1 = Some r) as H1.
  { unfold t1, delete_where. rewrite lookup_filter, Hr by done. by rewrite He. }
  destruct (insert_or_ignore same_receipt _ t1) as [t2 n] eqn:Ei.
  assert (lookup_key k t2 = Some r) as H2.
  { apply insert_or_ignore_cases in Ei as [(-> & _ & _)|(-> & _ & _)]; [done|].
    by rewrite lookup_app, H1. }
  assert (exists r', lookup_key k t2 = Some r' /\ receipt_step (IBegin now p m pl ow es) r r') as Hid.
  { exists r. split; [done|apply receipt_step_refl]. }
  destruct (query_row _ t2) as [x|]; [|done]. case_if; [done|]. case_if; [done|]. simpl.
  apply (update_receipts _ _ _ t2); [done| |done]. intros y Hy. unfold in_state in Hy. reflect_bools.
  constructor; simpl; try done; try lia.
  all: intros Hs; first [receipt_clash|left; congruence].
Qed.

Lemma transition_step op p m g f t k r :
  (forall x, key (f x) = key x) ->
  (forall x, i_state x = InboundDispatching -> i_platform x = p -> i_message_id x = m ->
     i_claim_generation x = g -> receipt_step op x (f x)) ->
  lookup_key k t = Some r ->
  exists r', lookup_key k (fst (transitionInboundClaim p m g f t)) = Some r' /\ receipt_step op r r'.
Proof.
  intros Hk Hs Hr. unfold transitionInboundClaim. case_if.
  { exists r. split; [done|apply receipt_step_refl]. }
  simpl. apply update_receipts; [done| |done]. intros x Hx.
  unfold inboundClaimHolds, at_receipt, in_state in Hx. reflect_bools. by apply Hs.
Qed.

Lemma exec_inbound_step op t k r :
  keys_unique t -> lookup_key k t = Some r ->
  (i_state r = InboundAccepted -> sweeps op r = false) ->
  exists r', lookup_key k (exec_inbound op t) = Some r' /\ receipt_step op r r'.
Proof.
  intros Hu Hr Hsw. destruct op; cbn [exec_inbound].
  - apply begin_step; [done|done|]. unfold expired, in_state.
    destruct (i_state r =? InboundAccepted)%string eqn:E; [|done]. reflect_bools. simpl.
    by apply Hsw.
  - unfold ClaimInbound. simpl. apply update_receipts; [done| |done]. intros x Hx.
    unfold in_state in Hx. reflect_bools. constructor; simpl; try done; try lia; intros; try receipt_clash. right. by left.
  - apply transition_step; [done| |done]. intros x Hs <- <- <-.
    constructor; simpl; try done; try lia; [intros; receipt_clash| |intros; receipt_clash].
    intros _. split; [done|]. right. left. eauto.
  - apply transition_step; [done| |done]. intros x Hs <- <- <-.
    constructor; simpl; try done; try lia; [intros; receipt_clash| |intros; receipt_clash].
    intros _. split; [done|]. right. right. eauto.
  - unfold NoteInboundFailure. destruct failure as [e|].
    2: { exists r. split; [done|apply receipt_step_refl]. }
    apply transition_step; [done| |done]. intros x Hs <- <- <-.
    constructor; simpl; try done; try lia; [intros; receipt_clash| |intros; receipt_clash].
    intros _. split; [done|by left].
  - unfold NoteUnexplainedInbound. destruct failure as [e|].
    2: { exists r. split; [done|apply receipt_step_refl]. }
    case_if. { exists r. split; [done|apply receipt_step_refl]. }
    simpl. apply update_receipts; [done| |done]. intros x Hx.
    unfold inboundClaimHolds, in_state in Hx. reflect_bools.
    constructor; simpl; try done; try lia; [intros; receipt_clash| |intros; receipt_clash].
    intros _. split; [done|by left].
Qed.

(** ** Preservation *)

Lemma keys_transition p m g f t :
  (forall x, key (f x) = key x) -> keys_unique t ->
  keys_unique (fst (transitionInboundClaim p m g f t)).
Proof.
  intros Hk Hu. unfold transitionInboundClaim. case_if; [done|]. by apply keys_unique_update.
Qed.

Lemma keys_insert_receipt x t : keys_unique t -> keys_unique (fst (insert_or_ignore same_receipt x t)).
Proof.
  intros Hu. destruct (insert_or_ignore same_receipt x t) as [t' n] eqn:E.
  apply insert_or_ignore_cases in E as [(-> & _ & _)|(-> & _ & Hc)]; [done|].
  apply keys_unique_snoc; [done|]. apply lookup_key_None. intros y Hy Hk.
  apply Hc in Hy. apply bool_decide_eq_false in Hy. congruence.
Qed.

Lemma keys_exec_inbound op t : keys_unique t -> keys_unique (exec_inbound op t).
Proof.
  intros Hu. destruct op; cbn [exec_inbound].
  - unfold BeginInboundMatching. cbv zeta. case_if; [done|].
    pose proof (keys_insert_receipt (newReceipt now (TrimSpace platform) (TrimSpace messageID)
      payload owner) (delete_where (expired now) t) (keys_unique_filter _ _ Hu)) as H.
    destruct (insert_or_ignore _ _ _) as [t2 n].
    repeat case_match; try done. by apply keys_unique_update.
  - by apply keys_unique_update.
  - by apply keys_transition.
  - by apply keys_transition.
  - unfold NoteInboundFailure. case_match; [by apply keys_transition|done].
  - unfold NoteUnexplainedInbound. case_match; [|done]. case_if; [done|]. by apply keys_unique_update.
Qed.

Lemma keys_exec_inbounds ops t : keys_unique t -> keys_unique (exec_inbounds ops t).
Proof.
  revert t. induction ops as [|op ops IH]; intros t Hu; [done|]. by apply IH, keys_exec_inbound.
Qed.

(** An invariant of one receipt that every admitted step keeps. *)
Lemma receipt_invariant (I : InboundRow -> Prop) (ok : inbound_op -> Prop) :
  (forall op r, I r -> ok op -> i_state r = InboundAccepted -> sweeps op r = false) ->
  (forall op r r', I r -> ok op -> receipt_step op r r' -> I r') ->
  forall ops t k r, keys_unique t -> Forall ok ops -> lookup_key k t = Some r -> I r ->
    exists r', lookup_key k (exec_inbounds ops t) = Some r' /\ I r'.
Proof.
  intros Hsw Hstep ops. induction ops as [|op ops IH]; intros t k r Hu Hok Hr HI; simpl; [eauto|].
  inversion Hok as [|? ? Hop Hops]; subst.
  destruct (exec_inbound_step op t k r Hu Hr) as (r1 & Hr1 & Hs1); [by apply Hsw|].
  apply (IH (exec_inbound op t) k r1); [by apply keys_exec_inbound|done|done|by eapply Hstep].
Qed.

Lemma query_receipt p m t : query_row (at_receipt p m) t = lookup_key (p, m) t.
Proof.
  unfold query_row, lookup_key. induction t as [|r t IH]; simpl; [done|].
  rewrite IH. destruct (at_receipt p m r) eqn:E.
  - apply at_receipt_key in E. by rewrite bool_decide_eq_true_2.
  - case_bool_decide as Hk; [|done]. apply at_receipt_key in Hk. congruence.
Qed.

(** A claim of a receipt that is not pending. *)
Lemma claim_not_pending now p m t r :
  keys_unique t -> lookup_key (p, m) t = Some r -> i_state r <> InboundPending ->
  ClaimInbound now p m t = (t, 0%Z).
Proof.
  intros Hu Hr Hs. unfold ClaimInbound. apply String.eqb_neq in Hs.
  assert (forall x, at_receipt p m x && in_state InboundPending x = true -> key x = (p, m)) as Hk.
  { intros x Hx. reflect_bools. by apply at_receipt_key. }
  rewrite (query_row_key (p, m)), Hr by done. unfold in_state at 2. rewrite Hs, andb_false_r.
  f_equal. apply update_where_nop. intros x Hx.
  destruct (at_receipt p m x && in_state InboundPending x) eqn:E; [|done].
  apply Hk in E as Hkx. rewrite <- Hkx, (lookup_key_In t x Hu Hx) in Hr. injection Hr as ->.
  unfold in_state in E. by rewrite Hs, andb_false_r in E.
Qed.

Lemma claim_won now p m t t1 g :
  keys_unique t -> ClaimInbound now p m t = (t1, g) -> (0 < g)%Z ->
  exists r, lookup_key (p, m) t = Some r /\ lookup_key (p, m) t1 =
    Some (r <| i_state := InboundDispatching |> <| i_updated_at := Unix now |>
            <| i_claim_generation := g |>).
Proof.
  intros Hu E Hg. unfold ClaimInbound in E. injection E as <- Eg.
  assert (forall x, at_receipt p m x && in_state InboundPending x = true -> key x = (p, m)) as Hk.
  { intros x Hx. reflect_bools. by apply at_receipt_key. }
  rewrite (query_row_key (p, m)) in Eg by done.
  destruct (lookup_key (p, m) t) as [r|] eqn:Er; [|lia].
  destruct (at_receipt p m r && in_state InboundPending r) eqn:Ec; [|lia].
  exists r. split; [done|]. rewrite lookup_update, Er by done. cbn [option_map]. by rewrite Ec, Eg.
Qed.

(** ** Properties *)

(** One dispatcher per receipt.  After a claim of a receipt succeeded under
    generation [g], no history lets another claim of that message through, unless
    the holder itself releases the receipt (or the accepted receipt ages out of the
    retention window): a redelivered message is never dispatched a second time,
    also when the first dispatcher crashed. *)
Theorem inbound_dispatch_exclusive (t t1 : list InboundRow) (p m : string) (now now' : Time) (g : Z)
    (r : InboundRow) (ops : list inbound_op) :
  keys_unique t -> lookup_key (p, m) t = Some r ->
  ClaimInbound now p m t = (t1, g) -> (0 < g)%Z ->
  Forall (fun op => sweeps op r = false /\
                    match op with IRelease _ p' m' g' _ => (p', m', g') <> (p, m, g) | _ => True end) ops ->
  ClaimInbound now' p m (exec_inbounds ops t1) = (exec_inbounds ops t1, 0%Z).
Proof.
  intros Hu Hr Hc Hg Hops.
  destruct (claim_won _ _ _ _ _ _ Hu Hc Hg) as (r0 & Hr0 & Hr1). rewrite Hr in Hr0.
  injection Hr0 as <-.
  assert (keys_unique t1) as Hu1.
  { change t1 with (fst (t1, g)). rewrite <- Hc. by apply (keys_exec_inbound (IClaim now p m)). }
  destruct (receipt_invariant
    (fun x => key x = (p, m) /\ i_created_at x = i_created_at r /\ i_claim_generation x = g /\
       (i_state x = InboundDispatching \/ i_state x = InboundAccepted))
    (fun op => sweeps op r = false /\
       match op with IRelease _ p' m' g' _ => (p', m', g') <> (p, m, g) | _ => True end))
    with (ops := ops) (t := t1) (k := (p, m))
         (r := r <| i_state := InboundDispatching |> <| i_updated_at := Unix now |>
                 <| i_claim_generation := g |>) as (r' & Hr' & _ & _ & _ & Hs); [| |done|done|done| |].
  - intros op x (_ & Hcr & _ & _) [Hsw _] _. destruct op; try done. simpl in *. by rewrite Hcr.
  - intros op x y (Hk & Hcr & Hgx & Hsx) [_ Hrel] []. split; [congruence|]. split; [congruence|].
    destruct Hsx as [Hsx|Hsx]; [|rewrite (is_accepted0 Hsx); auto].
    destruct (is_dispatching0 Hsx) as [Hgy Hcase]. split; [congruence|].
    destruct Hcase as [?|[[? _]|(_ & n & why & ->)]]; [auto|auto|].
    exfalso. apply Hrel. rewrite Hgx. f_equal. exact Hk.
  - simpl. pose proof (lookup_key_Some _ _ _ Hr) as [_ Hk]. auto.
  - apply (claim_not_pending now' p m _ r'); [by apply keys_exec_inbounds|done|].
    destruct Hs as [-> | ->]; done.
Qed.

(** A late transition is inert.  Once a later claim holds a receipt, accepting,
    releasing or annotating it under an earlier generation changes nothing and
    reports that the receipt is not owned, after any further history (within the
    retention window of the receipt). *)
Theorem inbound_stale_generation_inert (t : list InboundRow) (p m : string) (r : InboundRow)
    (ops : list inbound_op) (g : Z) (update : InboundRow -> InboundRow) :
  keys_unique t -> lookup_key (p, m) t = Some r -> (g < i_claim_generation r)%Z ->
  Forall (fun op => sweeps op r = false) ops ->
  let t' := exec_inbounds ops t in
  exists e, transitionInboundClaim p m g update t' = (t', Err e) /\
    errors_is e ErrInboundNotOwned = true.
Proof.
  intros Hu Hr Hg Hops t'.
  destruct (receipt_invariant
    (fun x => i_created_at x = i_created_at r /\ (g < i_claim_generation x)%Z)
    (fun op => sweeps op r = false)) with (ops := ops) (t := t) (k := (p, m)) (r := r)
    as (r' & Hr' & _ & Hg'); auto.
  { intros op x [Hcr _] Hsw _. destruct op; try done. simpl in *. by rewrite Hcr. }
  { intros op x y [Hcr Hgx] _ []. split; [congruence|lia]. }
  unfold transitionInboundClaim. case_if; [by eexists|].
  assert (keys_unique t') as Hu' by by apply keys_exec_inbounds.
  assert (forall x, In x t' -> inboundClaimHolds p m g x = false) as Hno.
  { intros x Hx. destruct (inboundClaimHolds p m g x) eqn:E; [|done].
    unfold inboundClaimHolds in E. reflect_bools. exfalso.
    assert (key x = (p, m)) as Hk by by apply at_receipt_key.
    fold t' in Hr'. rewrite <- Hk, (lookup_key_In t' x Hu' Hx) in Hr'. injection Hr' as ->. lia. }
  rewrite update_where_nop by done. unfold rows_affected. rewrite filter_all_false by done.
  by eexists.
Qed.

(** Unresolved input is never lost.  A receipt that is not accepted keeps its
    original bytes, owner and creation time through every history in which it is
    not accepted, of any length and age. *)
Theorem inbound_unresolved_kept (t : list InboundRow) (p m : string) (r : InboundRow)
    (ops : list inbound_op) :
  keys_unique t -> lookup_key (p, m) t = Some r -> In (i_state r) [InboundPending; InboundDispatching] ->
  Forall (fun op => match op with IAccept _ p' m' _ => (p', m') <> (p, m) | _ => True end) ops ->
  exists r', lookup_key (p, m) (exec_inbounds ops t) = Some r' /\
    In (i_state r') [InboundPending; InboundDispatching] /\
    i_payload r' = i_payload r /\ i_tenant_id r' = i_tenant_id r /\ i_person_id r' = i_person_id r /\
    i_created_at r' = i_created_at r.
Proof.
  intros Hu Hr Hs Hops. pose proof (lookup_key_Some _ _ _ Hr) as [_ Hk].
  destruct (receipt_invariant
    (fun x => key x = (p, m) /\ In (i_state x) [InboundPending; InboundDispatching] /\
       i_payload x = i_payload r /\ i_tenant_id x = i_tenant_id r /\ i_person_id x = i_person_id r /\
       i_created_at x = i_created_at r)
    (fun op => match op with IAccept _ p' m' _ => (p', m') <> (p, m) | _ => True end))
    with (ops := ops) (t := t) (k := (p, m)) (r := r) as (r' & Hr' & _ & HI); [| |done..|eauto].
  - intros op x (_ & [Hp|[Hd|[]]] & _) _ Ha; receipt_clash.
  - intros op x y (Hkx & Hsx & Hrest) Hop []. destruct is_owner0.
    split; [congruence|]. split; [|intuition congruence].
    destruct Hsx as [Hp|[Hd|[]]]; [by apply is_pending0|].
    destruct (is_dispatching0 (eq_sym Hd)) as [_ [->|[(_ & n & ->)|[-> _]]]]; simpl; auto.
Qed.

(** What a delivery of a message reports, on every branch.  The table is swept
    of accepted receipts past retention; then a new message is stored as pending
    with its bytes; a receipt of another identity is a conflict; an accepted or
    dispatching receipt answers with its state whatever the redelivery carries; a
    pending one answers pending for the same message and otherwise is a conflict
    that is noted on it and changes neither its bytes nor its state. *)
Theorem begin_inbound_decides (t : list InboundRow) (now : Time) (p m payload : string)
    (owner : InboundOwner) (es : option InboundEssential) :
  keys_unique t -> TrimSpace p <> "" -> TrimSpace m <> "" -> payload <> "" ->
  ow_TenantID owner <> "" -> ow_PersonID owner <> "" ->
  let k := (TrimSpace p, TrimSpace m) in
  let '(t', out) := BeginInboundMatching now p m payload owner es t in
  match lookup_key k (delete_where (expired now) t) with
  | None => out = Ok InboundPending /\
      lookup_key k t' = Some (newReceipt now (TrimSpace p) (TrimSpace m) payload owner)
  | Some r =>
      if negb (i_tenant_id r =? "")%string
         && (negb (i_tenant_id r =? ow_TenantID owner)%string
             || negb (i_person_id r =? ow_PersonID owner)%string)
      then lookup_key k t' = Some r /\ exists e, out = Err e /\ errors_is e ErrInboundConflict = true
      else if in_state InboundPending r && negb (i_payload r =? "")%string
              && negb (sameInboundMessage (i_payload r) payload es)
      then (exists e, out = Err e /\ errors_is e ErrInboundConflict = true) /\
        lookup_key k t' = Some (r <| i_last_error := "redelivery rejected: content changed" |>
                                  <| i_updated_at := Unix now |>)
      else out = Ok (i_state r) /\ lookup_key k t' = Some r
  end.
Proof.
  intros Hu Hp Hm Hpl Hot Hop k. unfold BeginInboundMatching. cbv zeta.
  apply String.eqb_neq in Hp, Hm, Hpl, Hot, Hop. rewrite Hp, Hm, Hpl, Hot, Hop. simpl.
  set (x := newReceipt now (TrimSpace p) (TrimSpace m) payload owner).
  set (t1 := delete_where (expired now) t).
  assert (keys_unique t1) as Hu1 by by apply keys_unique_filter.
  destruct (insert_or_ignore same_receipt x t1) as [t2 n] eqn:Ei.
  rewrite query_receipt. fold k.
  apply insert_or_ignore_cases in Ei as [(-> & _ & y & Hy & Hs)|(-> & _ & Hc)].
  - apply bool_decide_eq_true in Hs. change (key x) with k in Hs.
    assert (lookup_key k t1 = Some y) as Hky by (rewrite Hs; by apply lookup_key_In).
    rewrite Hky. case_if; [by eauto|].
    destruct (in_state InboundPending y) eqn:Est, (i_payload y =? "")%string eqn:Epl,
      (sameInboundMessage (i_payload y) payload es); simpl; try done.
    split; [by eauto|]. rewrite lookup_update, Hky by done. simpl. rewrite Est.
    rewrite (proj2 (at_receipt_key _ _ y)) by done. done.
  - assert (lookup_key k t1 = None) as ->.
    { apply lookup_key_None. intros y Hy Hky. apply Hc in Hy. apply bool_decide_eq_false in Hy.
      by destruct Hy. }
    assert (lookup_key k (t1 ++ [x]) = Some x) as Hkx.
    { rewrite lookup_snoc, (proj2 (lookup_key_None k t1)); [by rewrite bool_decide_eq_true_2|].
      intros y Hy Hky. apply Hc in Hy. apply bool_decide_eq_false in Hy. by destruct Hy. }
    rewrite Hkx. simpl. rewrite Hot, !String.eqb_refl. simpl. rewrite Hpl. simpl.
    unfold sameInboundMessage. rewrite String.eqb_refl. done.
Qed.

(** ** Concrete instances *)

Definition sample_owner : InboundOwner := mkInboundOwner "default" "alice" "hello".

Definition one_receipt : list InboundRow :=
  exec_inbounds [IBegin (TimeOfUnix 1000) "im" "msg-1" "hello" sample_owner None] [].

Definition receipt_row (state err : string) (updated g : Z) : InboundRow :=
  mkInboundRow "im" "msg-1" 1000 state "hello" updated err "default" "alice" "hello" g.

Lemma one_receipt_keys : keys_unique one_receipt.
Proof. apply keys_exec_inbounds, keys_unique_nil. Qed.

Lemma inbound_dispatch_exclusive_witness :
  let t := exec_inbounds [IAccept (TimeOfUnix 1002) "im" "msg-1" 1;
      IBegin (TimeOfUnix 1003) "im" "msg-1" "hello" sample_owner None]
    (fst (ClaimInbound (TimeOfUnix 1001) "im" "msg-1" one_receipt)) in
  ClaimInbound (TimeOfUnix 1004) "im" "msg-1" t = (t, 0%Z).
Proof.
  apply (inbound_dispatch_exclusive one_receipt _ "im" "msg-1" (TimeOfUnix 1001) (TimeOfUnix 1004) 1
    (receipt_row "pending" "" 1000 0)).
  - apply one_receipt_keys.
  - vm_compute. reflexivity.
  - vm_compute. reflexivity.
  - reflexivity.
  - repeat constructor.
Defined.

(** The receipt released by its first claim and claimed again. *)
Definition twice_claimed : list InboundRow :=
  exec_inbounds [IClaim (TimeOfUnix 1001) "im" "msg-1";
    IRelease (TimeOfUnix 1002) "im" "msg-1" 1 "busy"; IClaim (TimeOfUnix 1003) "im" "msg-1"]
    one_receipt.

Lemma inbound_stale_generation_inert_witness :
  let t := exec_inbounds [INote (TimeOfUnix 1004) "im" "msg-1" 2 (Some "slow")] twice_claimed in
  exists e, transitionInboundClaim "im" "msg-1" 1 (fun r => r) t = (t, Err e) /\
    errors_is e ErrInboundNotOwned = true.
Proof.
  apply (inbound_stale_generation_inert twice_claimed "im" "msg-1"
    (receipt_row "dispatching" "busy" 1003 2)).
  - apply keys_exec_inbounds, one_receipt_keys.
  - vm_compute. reflexivity.
  - reflexivity.
  - repeat constructor.
Defined.

Lemma inbound_unresolved_kept_witness :
  exists r, lookup_key ("im", "msg-1") (exec_inbounds [IClaim (TimeOfUnix 1001) "im" "msg-1";
      IBegin (TimeOfUnix 9000000) "im" "msg-2" "x" sample_owner None] one_receipt) = Some r /\
    i_payload r = "hello".
Proof.
  destruct (inbound_unresolved_kept one_receipt "im" "msg-1" (receipt_row "pending" "" 1000 0)
    [IClaim (TimeOfUnix 1001) "im" "msg-1";
     IBegin (TimeOfUnix 9000000) "im" "msg-2" "x" sample_owner None]) as (r & H1 & _ & H2 & _).
  - apply one_receipt_keys.
  - vm_compute. reflexivity.
  - left. reflexivity.
  - repeat constructor.
  - exists r. split; [exact H1|exact H2].
Defined.

Lemma begin_inbound_decides_witness :
  snd (BeginInboundMatching (TimeOfUnix 1005) " im" "msg-1" "other" sample_owner None
         (fst (ClaimInbound (TimeOfUnix 1001) "im" "msg-1" one_receipt))) = Ok InboundDispatching.
Proof.
  set (t := fst (ClaimInbound (TimeOfUnix 1001) "im" "msg-1" one_receipt)).
  assert (Hu : keys_unique t)
    by apply (keys_exec_inbound (IClaim (TimeOfUnix 1001) "im" "msg-1")), one_receipt_keys.
  pose proof (begin_inbound_decides t (TimeOfUnix 1005) " im" "msg-1" "other" sample_owner None Hu) as H.
  destruct (BeginInboundMatching (TimeOfUnix 1005) " im" "msg-1" "other" sample_owner None t) as [t' out].
  destruct H as [H _]; try discriminate. exact H.
Defined.
