(* ===== verification/Sha256.v ===== *)
(** * SHA-256 ([crypto/sha256]) and hexadecimal encoding ([encoding/hex])

    The digest the steering mailbox matches consumed guidance by, on byte strings,
    with 32-bit words as integers reduced modulo 2^32. *)

From stdpp Require Import base tactics list strings.
From Stdlib Require Import ZArith Lia Bool Ascii String List.
From S2P Require Import Prelude GoLib.

Definition w32 (z : Z) : Z := (z mod 2 ^ 32)%Z.
Definition add32 (a b : Z) : Z := w32 (a + b).
Definition rotr (n x : Z) : Z := Z.lor (Z.shiftr x n) (w32 (Z.shiftl x (32 - n))).
Definition not32 (x : Z) : Z := (2 ^ 32 - 1 - x)%Z.

Definition big_sigma0 (x : Z) : Z := Z.lxor (rotr 2 x) (Z.lxor (rotr 13 x) (rotr 22 x)).
Definition big_sigma1 (x : Z) : Z := Z.lxor (rotr 6 x) (Z.lxor (rotr 11 x) (rotr 25 x)).
Definition small_sigma0 (x : Z) : Z := Z.lxor (rotr 7 x) (Z.lxor (rotr 18 x) (Z.shiftr x 3)).
Definition small_sigma1 (x : Z) : Z := Z.lxor (rotr 17 x) (Z.lxor (rotr 19 x) (Z.shiftr x 10)).
Definition choose (x y z : Z) : Z := Z.lxor (Z.land x y) (Z.land (not32 x) z).
Definition majority (x y z : Z) : Z := Z.lxor (Z.land x y) (Z.lxor (Z.land x z) (Z.land y z)).

(** The constants by their definition in FIPS 180-4: 32 bits of the fractional parts of
    the cube roots and the square roots of the first primes. *)
Definition prime (n : nat) : bool :=
  (1 <? n)%nat && forallb (fun d => negb (n mod d =? 0)%nat) (seq 2 (n - 2)).

(** The largest [r] below [2 ^ bits] with [r ^ k <= n], bit by bit. *)
Fixpoint int_root (k : Z) (bits : nat) (r n : Z) : Z :=
  match bits with
  | O => r
  | S bits =>
      let r' := (r + 2 ^ Z.of_nat bits)%Z in
      int_root k bits (if (r' ^ k <=? n)%Z then r' else r) n
  end.

Definition root_fraction (k : Z) (p : nat) : Z := w32 (int_root k 40 0 (Z.of_nat p * 2 ^ (32 * k))).

Definition round_constants : list Z :=
  Eval vm_compute in map (root_fraction 3) (List.filter prime (seq 0 312)).

Record digest := mkDigest { dA : Z; dB : Z; dC : Z; dD : Z; dE : Z; dF : Z; dG : Z; dH : Z }.

Definition initial_digest : digest :=
  Eval vm_compute in
    match map (root_fraction 2) (List.filter prime (seq 0 20)) with
    | [a; b; c; d; e; f; g; h] => mkDigest a b c d e f g h
    | _ => mkDigest 0 0 0 0 0 0 0 0
    end.

Definition compress_round (s : digest) (kw : Z * Z) : digest :=
  let t1 := add32 (dH s) (add32 (big_sigma1 (dE s))
              (add32 (choose (dE s) (dF s) (dG s)) (add32 (fst kw) (snd kw)))) in
  let t2 := add32 (big_sigma0 (dA s)) (majority (dA s) (dB s) (dC s)) in
  mkDigest (add32 t1 t2) (dA s) (dB s) (dC s) (add32 (dD s) t1) (dE s) (dF s) (dG s).

(** The message schedule; [w] holds the words so far, newest first. *)
Fixpoint schedule (n : nat) (w : list Z) : list Z :=
  match n with
  | O => rev w
  | S n =>
      let at_ i := nth i w 0%Z in
      schedule n (add32 (small_sigma1 (at_ 1%nat)) (add32 (at_ 6%nat)
                   (add32 (small_sigma0 (at_ 14%nat)) (at_ 15%nat))) :: w)
  end.

Definition compress (s : digest) (block : list Z) : digest :=
  let r := fold_left compress_round (combine round_constants (schedule 48 (rev block))) s in
  mkDigest (add32 (dA s) (dA r)) (add32 (dB s) (dB r)) (add32 (dC s) (dC r)) (add32 (dD s) (dD r))
    (add32 (dE s) (dE r)) (add32 (dF s) (dF r)) (add32 (dG s) (dG r)) (add32 (dH s) (dH r)).

(** Big-endian bytes of an integer. *)
Fixpoint be_bytes (n : nat) (z : Z) : list Z :=
  match n with
  | O => []
  | S n => Z.land (Z.shiftr z (8 * Z.of_nat n)) 0xFF :: be_bytes n z
  end.

Fixpoint words (fuel : nat) (l : list Z) : list Z :=
  match fuel, l with
  | S n, a :: b :: c :: d :: rest => (((a * 256 + b) * 256 + c) * 256 + d)%Z :: words n rest
  | _, _ => []
  end.

Definition padded (msg : list Z) : list Z :=
  let n := Z.of_nat (length msg) in
  let zeros := Z.to_nat ((55 - n) mod 64) in
  msg ++ 0x80%Z :: repeat 0%Z zeros ++ be_bytes 8 (n * 8).

Fixpoint blocks (fuel : nat) (l : list Z) : list (list Z) :=
  match fuel, l with
  | S n, _ :: _ => firstn 16 l :: blocks n (skipn 16 l)
  | _, _ => []
  end.

Definition sha256_Sum256 (msg : list Z) : list Z :=
  let p := padded msg in
  let ws := words (length p) p in
  let s := fold_left compress (blocks (length ws) ws) initial_digest in
  flat_map (be_bytes 4) [dA s; dB s; dC s; dD s; dE s; dF s; dG s; dH s].

Definition hex_digit (z : Z) : ascii := ascii_of_Z (if (z <? 10)%Z then 48 + z else 87 + z).

Definition hex_EncodeToString (l : list Z) : string :=
  string_of_list_ascii (flat_map (fun b => [hex_digit (b / 16); hex_digit (b mod 16)]%Z) l).

Definition bytes_of (s : string) : list Z :=
  map (fun a => Z.of_N (code a)) (list_ascii_of_string s).

(** The test vectors of FIPS 180-2: the empty message, one block, two blocks. *)
Example sha256_empty :
  hex_EncodeToString (sha256_Sum256 (bytes_of "")) =
  "e3b0c44298fc1c149afbf4c8996fb92427ae41e4649b934ca495991b7852b855".
Proof. vm_compute. reflexivity. Qed.

Example sha256_abc :
  hex_EncodeToString (sha256_Sum256 (bytes_of "abc")) =
  "ba7816bf8f01cfea414140de5dae2223b00361a396177a9cb410ff61f20015ad".
Proof. vm_compute. reflexivity. Qed.

Example sha256_two_blocks :
  hex_EncodeToString (sha256_Sum256 (bytes_of "abcdbcdecdefdefgefghfghighijhijkijkljklmklmnlmnomnopnopq")) =
  "248d6a61d20638b8e5c026930c3e6039a33ce45964ff2167f6ecedd419db06c1".
Proof. vm_compute. reflexivity. Qed.
