(* ===== verification/QueueInterface.v ===== *)
(** * What the task queue promises to its clients

    [TaskQueue] is the queue as the steering mailbox uses it: enqueue, and lookup by
    idempotency key.  [TaskQueueLaws] is the contract the mailbox relies on: an
    enqueue with a key converges, through any later history of the queue, on the
    row first stored, which has the request's content when the key was new, and what
    is found under any other key stays.  The table of [Queue] implements both. *)

From stdpp Require Import base tactics list strings.
From Stdlib Require Import ZArith Lia Bool Ascii String List.
From S2P Require Import Prelude GoLib Sql Admission Store Queue QueueTheory.

Class TaskQueue (Q : Type) := {
  tq_enqueue : string -> Time -> QueuedTask -> Q -> Q * res QueuedTask;
  tq_by_key : string -> string -> Q -> res (option QueuedTask)
}.

(** Two requests with the same tenant and idempotency key. *)
Definition same_request (a b : QueuedTask) : Prop :=
  normalizeTenant (t_TenantID a) = normalizeTenant (t_TenantID b) /\
  TrimSpace (t_IdempotencyKey a) = TrimSpace (t_IdempotencyKey b).

Definition valid_request (q : QueuedTask) : Prop :=
  blank (t_PersonID q) = false /\ blank (t_Content q) = false /\
  is_ok (encodeAdmissionSnapshot (t_Admission q)) = true.

(** What a stored request carries over. *)
Definition same_payload (t d : QueuedTask) : Prop :=
  t_PersonID d = t_PersonID t /\ t_Content d = t_Content t /\ t_Attachments d = t_Attachments t.

Class TaskQueueLaws (Q : Type) `{TaskQueue Q} := {
  tq_ok : Q -> Prop;
  tq_later : Q -> Q -> Prop;
  tq_later_refl q : tq_later q q;
  tq_later_trans a b c : tq_later a b -> tq_later b c -> tq_later a c;
  tq_ok_later q q' : tq_ok q -> tq_later q q' -> tq_ok q';
  tq_enqueue_later uuid now t q : tq_ok q -> tq_later q (fst (tq_enqueue uuid now t q));
  tq_converges uuid uuid' now now' t t' q q1 q2 d :
    tq_ok q -> tq_enqueue uuid now t q = (q1, Ok d) -> TrimSpace (t_IdempotencyKey t) <> "" ->
    tq_later q1 q2 -> same_request t' t -> valid_request t' ->
    exists d', tq_enqueue uuid' now' t' q2 = (q2, Ok d') /\ t_ID d' = t_ID d;
  tq_finds uuid now t q q1 q2 d :
    tq_ok q -> tq_enqueue uuid now t q = (q1, Ok d) -> TrimSpace (t_IdempotencyKey t) <> "" ->
    tq_later q1 q2 ->
    exists d', tq_by_key (t_TenantID t) (t_IdempotencyKey t) q2 = Ok (Some d') /\ t_ID d' = t_ID d;
  tq_stores uuid now t q q1 d :
    tq_ok q -> tq_by_key (t_TenantID t) (t_IdempotencyKey t) q = Ok None -> TrimSpace (t_IdempotencyKey t) <> "" ->
    tq_enqueue uuid now t q = (q1, Ok d) ->
    exists d', tq_by_key (t_TenantID t) (t_IdempotencyKey t) q1 = Ok (Some d') /\ same_payload t d';
  tq_frame uuid now t q q1 out tenant k :
    tq_ok q -> tq_enqueue uuid now t q = (q1, out) ->
    TrimSpace (t_IdempotencyKey t) <> TrimSpace k \/ tq_by_key tenant k q <> Ok None \/ is_ok out = false ->
    tq_by_key tenant k q1 = tq_by_key tenant k q
}.

(** ** The table implements the interface *)

#[export] Instance table_queue : TaskQueue (list QueueRow) := {
  tq_enqueue := EnqueueQueued;
  tq_by_key := GetQueuedByIdempotencyKey
}.

Lemma exec_ops_app a b t : exec_ops (a ++ b) t = exec_ops b (exec_ops a t).
Proof. unfold exec_ops. by rewrite fold_left_app. Qed.

(** An enqueue leaves the table or appends a row whose key, if it has one, is new. *)
Lemma enqueue_cases uuid now t q : let '(q1, out) := EnqueueQueued uuid now t q in
  q1 = q \/ exists row, q1 = q ++ [row] /\ is_ok out = true /\ q_tenant_id row = normalizeTenant (t_TenantID t) /\
    q_idempotency_key row = TrimSpace (t_IdempotencyKey t) /\ (exists d, scanQueuedTask row = Ok d /\ same_payload t d) /\
    (TrimSpace (t_IdempotencyKey t) <> "" ->
     query_row (same_idempotency (normalizeTenant (t_TenantID t)) (TrimSpace (t_IdempotencyKey t))) q = None).
Proof.
  unfold EnqueueQueued. do 2 (case_if; [by left|]). destruct (encodeAdmissionSnapshot _) as [[a raw]|]; [|by left]. cbv zeta.
  set (p := prepareQueued uuid now t a). destruct (negb _ && _) eqn:E.
  - destruct (query_row _ q) as [x|]; [destruct (scanQueuedTask x)|]; by left.
  - case_if; [by left|]. right. exists (queuedRow p raw). do 4 (split; [done|]). split.
    + unfold scanQueuedTask. simpl. destruct (setStoredAdmission raw). by eexists.
    + intros N%String.eqb_neq. unfold p in E. simpl in E. rewrite N in E. simpl in E.
      destruct (query_row _ q) as [x|] eqn:Q; [|done]. apply query_row_Some_In in Q as [Hx Px].
      assert (existsb (same_idempotency (normalizeTenant (t_TenantID t)) (TrimSpace (t_IdempotencyKey t))) q = true) by (apply existsb_exists; eauto).
      congruence.
Qed.

Lemma query_row_snoc {R} (p : R -> bool) l x :
  query_row p (l ++ [x]) = match query_row p l with Some y => Some y | None => if p x then Some x else None end.
Proof. unfold query_row. induction l as [|y l IH]; simpl; [done|]. by destruct (p y). Qed.

#[export] Program Instance table_queue_laws : TaskQueueLaws (list QueueRow) := {
  tq_ok := queue_wf;
  tq_later t t' := exists ops, t' = exec_ops ops t
}.
Next Obligation. by exists []. Qed.
Next Obligation. intros a b c [o1 ->] [o2 ->]. exists (o1 ++ o2). by rewrite exec_ops_app. Qed.
Next Obligation. intros q q' Hw [ops ->]. auto with control. Qed.
Next Obligation. intros uuid now t q _. by exists [OpEnqueue uuid now t]. Qed.
Next Obligation.
  intros uuid uuid' now now' t t' q q1 q2 d Hw He Hk [ops ->] [Htn Hkey] (Hp & Hc & Ha).
  destruct (enqueue_settled _ _ _ _ _ _ ops Hw He Hk) as (r & d' & Hq & Hs & Hid).
  exists d'. split; [|done]. simpl. eapply enqueue_duplicate; rewrite ?Hkey, ?Htn; eauto.
Qed.
Next Obligation.
  intros uuid now t q q1 q2 d Hw He Hk [ops ->].
  destruct (enqueue_settled _ _ _ _ _ _ ops Hw He Hk) as (r & d' & Hq & Hs & Hid).
  exists d'. split; [|done]. simpl. unfold GetQueuedByIdempotencyKey. cbv zeta.
  apply String.eqb_neq in Hk. rewrite Hk, Hq. simpl. by rewrite Hs.
Qed.
Next Obligation.
  intros uuid now t q q1 d Hw N Hk He. pose proof (enqueue_settled _ _ _ _ _ _ [] Hw He Hk) as (r & d' & Hq & Hs & _).
  pose proof (enqueue_cases uuid now t q) as C. simpl in He. rewrite He in C. simpl in N |- *. unfold GetQueuedByIdempotencyKey in *. cbv zeta in *.
  rewrite (proj2 (String.eqb_neq _ _) Hk) in *. simpl in Hq. rewrite Hq. destruct C as [->|(row & -> & _ & T & K & (x & S & P) & F)].
  - rewrite Hq in N. simpl in N. by rewrite Hs in N.
  - rewrite query_row_snoc, (F Hk) in Hq. unfold same_idempotency in Hq. rewrite T, K, !String.eqb_refl in Hq. simpl in Hq.
    injection Hq as <-. simpl. rewrite S. eauto.
Qed.
Next Obligation.
  intros uuid now t q q1 out tenant k Hw He A. pose proof (enqueue_cases uuid now t q) as C. simpl in He. rewrite He in C.
  destruct C as [->|(row & -> & O & T & K & _ & F)]; [done|]. simpl in *. unfold GetQueuedByIdempotencyKey in *. cbv zeta in *.
  destruct (TrimSpace k =? "")%string; [done|]. rewrite query_row_snoc. destruct (query_row _ q) as [x|] eqn:Q; [done|].
  destruct (same_idempotency _ _ row) eqn:S; [|done]. unfold same_idempotency in S. reflect_bools. destruct A as [A|[A|A]]; [|done|].
  - congruence.
  - by rewrite O in A.
Qed.
