(* ===== verification/Steering.v ===== *)
(** * Steering mailbox ([internal/control/steering_mailbox.go])

    Guidance a person sends into a live Run is stored in a mailbox before it is
    acknowledged; what the Run does not consume is re-homed into the task queue.
    The mailbox is defined over any [TaskQueue]; the [runs] table, the clock and
    generated identifiers are arguments. *)

From stdpp Require Import base tactics list strings.
From Stdlib Require Import ZArith Lia Bool Ascii String List Permutation.
From S2P Require Import Prelude GoLib Sql Admission Store Queue QueueTheory Sha256 QueueInterface.

(** ** Data *)

Definition SteeringAccepted : string := "accepted".
Definition SteeringClaimed : string := "claimed".
Definition SteeringConsumed : string := "consumed".
Definition SteeringDeferred : string := "deferred".
Definition SteeringExpired : string := "expired".

(** The roots column is NULL when the request recorded none. *)
Record SteeringRow := mkSteeringRow {
  s_id : string;
  s_tenant_id : string;
  s_person_id : string;
  s_run_id : string;
  s_thread_id : string;
  s_channel : string;
  s_platform : string;
  s_platform_user_id : string;
  s_workspace_id : string;
  s_approval_mode : string;
  s_content : string;
  s_content_hash : string;
  s_status : string;
  s_created_at : Z;
  s_updated_at : Z;
  s_attachments_json : jcol (list AttachmentRef);
  s_execution_roots_json : option (jcol (list RootBinding))
}.

#[export] Instance SteeringRow_eta : Eta SteeringRow := fun r =>
  mkSteeringRow (s_id r) (s_tenant_id r) (s_person_id r) (s_run_id r) (s_thread_id r) (s_channel r)
    (s_platform r) (s_platform_user_id r) (s_workspace_id r) (s_approval_mode r) (s_content r)
    (s_content_hash r) (s_status r) (s_created_at r) (s_updated_at r) (s_attachments_json r)
    (s_execution_roots_json r).

#[export] Instance SteeringRow_keyed : Keyed SteeringRow string := s_id.

Record SteeringMessage := mkSteeringMessage {
  m_ID : string;
  m_TenantID : string;
  m_PersonID : string;
  m_RunID : string;
  m_TaskID : string;
  m_Channel : string;
  m_Platform : string;
  m_PlatformUserID : string;
  m_WorkspaceID : string;
  m_ApprovalMode : string;
  m_Content : string;
  m_ContentHash : string;
  m_ExactTarget : bool;
  m_Attachments : list AttachmentRef;
  m_ExecutionRoots : list RootBinding;
  m_RootsRecorded : bool;
  m_Status : string;
  m_CreatedAt : Time;
  m_UpdatedAt : Time
}.

#[export] Instance SteeringMessage_eta : Eta SteeringMessage := fun m =>
  mkSteeringMessage (m_ID m) (m_TenantID m) (m_PersonID m) (m_RunID m) (m_TaskID m) (m_Channel m)
    (m_Platform m) (m_PlatformUserID m) (m_WorkspaceID m) (m_ApprovalMode m) (m_Content m)
    (m_ContentHash m) (m_ExactTarget m) (m_Attachments m) (m_ExecutionRoots m) (m_RootsRecorded m)
    (m_Status m) (m_CreatedAt m) (m_UpdatedAt m).

Definition queuedExecutionRoots (m : SteeringMessage) (steeredInto : option Run) : list RootBinding :=
  if m_RootsRecorded m then CloneRootBindings (m_ExecutionRoots m)
  else match steeredInto with
       | Some run => CloneRootBindings (run_roots run)
       | None => []
       end.

(** The first 16 bytes of the digest, in hexadecimal. *)
Definition SteeringContentHash (content : string) : string :=
  hex_EncodeToString (firstn 16 (sha256_Sum256 (bytes_of (TrimSpace content)))).

Definition exactSteeringTarget (id : string) : bool :=
  HasPrefix id "steer_exact_" || HasPrefix id "steer_choice_choice_".

Definition scanSteering (r : SteeringRow) : res SteeringMessage :=
  match s_attachments_json r with
  | JBad _ => Err (Errorf "decode attachments")
  | JVal attachments =>
      let message roots recorded :=
        mkSteeringMessage (s_id r) (s_tenant_id r) (s_person_id r) (s_run_id r) (s_thread_id r)
          (s_channel r) (s_platform r) (s_platform_user_id r) (s_workspace_id r)
          (s_approval_mode r) (s_content r) (s_content_hash r) (exactSteeringTarget (s_id r))
          attachments roots recorded (s_status r) (TimeOfUnix (s_created_at r))
          (TimeOfUnix (s_updated_at r)) in
      match s_execution_roots_json r with
      | None => Ok (message [] false)
      | Some (JVal roots) => Ok (message roots true)
      | Some (JBad _) => Err (Errorf "decode steering execution roots")
      end
  end.

(** [tenant_id = ? AND id = ?]. *)
Definition at_steering (tenantID id : string) (r : SteeringRow) : bool :=
  (s_tenant_id r =? normalizeTenant tenantID)%string && (s_id r =? id)%string.

Definition steering_in (l : list string) (r : SteeringRow) : bool :=
  existsb (String.eqb (s_status r)) l.

(** [status IN (accepted, claimed)]. *)
Definition live_steering : SteeringRow -> bool := steering_in [SteeringAccepted; SteeringClaimed].

(** ** The mailbox table *)

Definition AcceptSteering (uuid : string) (now : Time) (runs : list Run) (m : SteeringMessage)
    (t : list SteeringRow) : list SteeringRow * res SteeringMessage :=
  let m := m <| m_TenantID := normalizeTenant (m_TenantID m) |>
             <| m_PersonID := TrimSpace (m_PersonID m) |> <| m_Content := TrimSpace (m_Content m) |> in
  if (m_PersonID m =? "")%string || (m_Content m =? "")%string
  then (t, Err (Errorf "person id and content are required")) else
  let target :=
    if m_ExactTarget m then
      match GetRun runs (m_TenantID m) (m_RunID m) with
      | Err e => Err e
      | Ok None => Err (Errorf "exact steering target is unavailable for its owner")
      | Ok (Some run) =>
          if negb (run_person_id run =? m_PersonID m)%string
          then Err (Errorf "exact steering target is unavailable for its owner")
          else Ok (m <| m_TaskID := run_thread_id run |> <| m_ID := "steer_exact_" +:+ uuid |>)
      end
    else Ok (m <| m_ID := "steer_" +:+ uuid |>) in
  match target with
  | Err e => (t, Err e)
  | Ok m =>
      let recorded := match m_ExecutionRoots m with [] => false | _ => true end in
      let m := m <| m_ContentHash := SteeringContentHash (m_Content m) |>
                 <| m_Status := SteeringAccepted |> <| m_CreatedAt := now |> <| m_UpdatedAt := now |>
                 <| m_RootsRecorded := recorded |> in
      if existsb (fun r => (s_id r =? m_ID m)%string) t
      then (t, Err (Errorf "UNIQUE constraint failed: steering_mailbox.id"))
      else
        (t ++ [mkSteeringRow (m_ID m) (m_TenantID m) (m_PersonID m) (m_RunID m) (m_TaskID m)
                 (m_Channel m) (m_Platform m) (m_PlatformUserID m) (m_WorkspaceID m)
                 (m_ApprovalMode m) (m_Content m) (m_ContentHash m) (m_Status m) (Unix now) (Unix now)
                 (JVal (m_Attachments m))
                 (if recorded then Some (JVal (m_ExecutionRoots m)) else None)],
         Ok m)
  end.

(** [SET status = ?, updated_at = ?]. *)
Definition set_status (status : string) (now : Time) (r : SteeringRow) : SteeringRow :=
  r <| s_status := status |> <| s_updated_at := Unix now |>.

Definition MarkSteeringClaimed (now : Time) (tenantID id : string) (t : list SteeringRow)
  : list SteeringRow :=
  update_where (fun r => at_steering tenantID id r && steering_in [SteeringAccepted] r)
    (set_status SteeringClaimed now) t.

Definition MarkSteeringExpired (now : Time) (tenantID id : string) (t : list SteeringRow)
  : list SteeringRow * bool :=
  let cond := fun r => at_steering tenantID id r && live_steering r in
  (update_where cond (set_status SteeringExpired now) t, (rows_affected cond t =? 1)%Z).

(** [ORDER BY created_at ASC]. *)
Definition oldest_first (a b : SteeringRow) : bool := (s_created_at a <=? s_created_at b)%Z.

Definition ConsumeSteeringByHash (now : Time) (tenantID runID contentHash : string)
    (t : list SteeringRow) : list SteeringRow * bool :=
  if blank runID || blank contentHash then (t, false) else
  let candidate := hd_error (order_by oldest_first (select_where (fun r =>
      (s_tenant_id r =? normalizeTenant tenantID)%string && (s_run_id r =? runID)%string
      && (s_content_hash r =? contentHash)%string && live_steering r) t)) in
  let cond := fun r => match candidate with Some c => (s_id r =? s_id c)%string | None => false end in
  (update_where cond (set_status SteeringConsumed now) t, (rows_affected cond t =? 1)%Z).

Definition ConsumeSteeringByID (now : Time) (tenantID runID id : string) (t : list SteeringRow)
  : list SteeringRow * bool :=
  if blank runID || blank id then (t, false) else
  let cond := fun r => (s_tenant_id r =? normalizeTenant tenantID)%string
    && (s_run_id r =? runID)%string && (s_id r =? id)%string && live_steering r in
  (update_where cond (set_status SteeringConsumed now) t, (rows_affected cond t =? 1)%Z).

Fixpoint scanAllSteering (rows : list SteeringRow) : res (list SteeringMessage) :=
  match rows with
  | [] => Ok []
  | r :: rest =>
      match scanSteering r with
      | Err e => Err e
      | Ok m => match scanAllSteering rest with Ok l => Ok (m :: l) | Err e => Err e end
      end
  end.

Definition ListUnconsumedSteering (tenantID runID : string) (limit : Z) (t : list SteeringRow)
  : res (list SteeringMessage) :=
  let limit := if (limit <=? 0)%Z || (200 <? limit)%Z then 50%Z else limit in
  scanAllSteering (sql_limit limit (order_by oldest_first (select_where (fun r =>
    live_steering r
    && (if blank tenantID then true else (s_tenant_id r =? normalizeTenant tenantID)%string)
    && (if blank runID then true else (s_run_id r =? runID)%string)) t))).

(** ** Re-homing into the queue *)

Section Rehoming.
Context {Q : Type} `{TaskQueue Q}.

Record SteerState := mkSteerState { mail : list SteeringRow; queue : Q }.

#[local] Instance SteerState_eta : Eta SteerState := fun s => mkSteerState (mail s) (queue s).

(** The request both hand-offs build; the fields they leave out are zero. *)
Definition steeringTask (tenantID personID taskID replyToRunID : string) (m : SteeringMessage)
    (workspaceID : string) (executionRoots : list RootBinding) (attachments : list AttachmentRef)
    (idempotencyKey : string) : QueuedTask :=
  mkQueuedTask "" tenantID personID (m_Channel m) (m_Platform m) (m_PlatformUserID m) (m_Content m)
    (m_ApprovalMode m) workspaceID executionRoots attachments taskID replyToRunID "" "" ""
    idempotencyKey QueueClassForeground 0 ZeroTime "" 0 "" ZeroTime 0 ZeroTime zeroSnapshot None.

(** The request [DeferSteering] enqueues, decided from the Run it was steered into. *)
Definition deferRequest (runs : list Run) (m : SteeringMessage) : res QueuedTask :=
  match GetRun runs (m_TenantID m) (m_RunID m) with
  | Err e => Err e
  | Ok run =>
      let k := "steering:" +:+ m_ID m in
      if exactSteeringTarget (m_ID m) then
        match run with
        | None => Err (Errorf "exact steering target is unavailable for its owner")
        | Some run =>
            if negb (run_person_id run =? m_PersonID m)%string
            then Err (Errorf "exact steering target is unavailable for its owner")
            else
              Ok (steeringTask (m_TenantID m) (m_PersonID m) (run_thread_id run)
                    (if RunAcceptsQueuedContinuation (run_status run) then run_id run else "") m
                    (run_workspace_id run) (CloneRootBindings (run_roots run)) (m_Attachments m) k)
        end
      else
        Ok (steeringTask (m_TenantID m) (m_PersonID m) "" "" m (m_WorkspaceID m)
              (queuedExecutionRoots m run) (m_Attachments m) k)
  end.

(** The two durable effects of [DeferSteering], in order: the enqueue, and the
    mailbox transition that only follows a successful enqueue. *)
Definition deferEnqueue (uuid : string) (now : Time) (runs : list Run) (m : SteeringMessage)
    (s : SteerState) : SteerState * res QueuedTask :=
  match deferRequest runs m with
  | Err e => (s, Err e)
  | Ok task =>
      let '(q, out) := tq_enqueue uuid now task (queue s) in
      (s <| queue := q |>, out)
  end.

Definition deferMark (now : Time) (m : SteeringMessage) (s : SteerState) : SteerState :=
  s <| mail := update_where (fun r => at_steering (m_TenantID m) (m_ID m) r && live_steering r)
                 (set_status SteeringDeferred now) (mail s) |>.

Definition DeferSteering (uuid : string) (now now' : Time) (runs : list Run) (m : SteeringMessage)
    (s : SteerState) : SteerState * res unit :=
  match deferEnqueue uuid now runs m s with
  | (s, Err e) => (s, Err e)
  | (s, Ok _) => (deferMark now' m s, Ok tt)
  end.

Definition continuationKey (m : SteeringMessage) (resumesRunID : string) : string :=
  if blank resumesRunID then "steering-independent:" +:+ m_ID m
  else "steering-continuation:" +:+ m_ID m +:+ ":" +:+ TrimSpace resumesRunID.

(** The request [queueSteeringAsWork] enqueues for a queueable input. *)
Definition workRequest (runs : list Run) (tenantID personID runID resumesRunID : string)
    (m : SteeringMessage) : res QueuedTask :=
  match GetRun runs tenantID runID with
  | Err e => Err e
  | Ok None => Err (Errorf "active run is no longer available")
  | Ok (Some active) =>
      if negb (run_person_id active =? personID)%string
      then Err (Errorf "active run is no longer available") else
      if blank resumesRunID then
        Ok (steeringTask tenantID personID "" "" m (m_WorkspaceID m)
              (queuedExecutionRoots m (Some active)) [] (continuationKey m resumesRunID))
      else
        match GetRun runs tenantID resumesRunID with
        | Err e => Err e
        | Ok None => Err (Errorf "continuation parent is unavailable for the current person")
        | Ok (Some parent) =>
            if negb (run_person_id parent =? personID)%string
            then Err (Errorf "continuation parent is unavailable for the current person") else
            if existsb (fun c => (run_id c =? run_id parent)%string)
                 (ListUnresolvedRuns runs tenantID personID (run_thread_id parent) 20)
            then Ok (steeringTask tenantID personID (run_thread_id parent) (run_id parent) m
                       (run_workspace_id parent) (CloneRootBindings (run_roots parent)) []
                       (continuationKey m resumesRunID))
            else Err (Errorf "continuation parent is no longer resumable")
        end
  end.

Definition queueSteeringAsWork (uuid : string) (now now' : Time) (runs : list Run)
    (tenantID personID runID steeringID resumesRunID : string) (s : SteerState)
  : SteerState * res QueuedTask :=
  let tenantID := normalizeTenant tenantID in
  let personID := TrimSpace personID in
  let runID := TrimSpace runID in
  let steeringID := TrimPrefix (TrimSpace steeringID) "steering:" in
  if HasPrefix steeringID "run_input:"
  then (s, Err (Errorf "input is this run's active initial prompt")) else
  if (personID =? "")%string || (runID =? "")%string || (steeringID =? "")%string
  then (s, Err (Errorf "person id, run id, and input id are required")) else
  match query_row (fun r => (s_tenant_id r =? tenantID)%string && (s_id r =? steeringID)%string)
          (mail s) with
  | None => (s, Err (Errorf "live input not found in steering mailbox"))
  | Some row =>
      match scanSteering row with
      | Err e => (s, Err (Wrap "load live input" e))
      | Ok m =>
          if negb (m_PersonID m =? personID)%string || negb (m_RunID m =? runID)%string
          then (s, Err (Errorf "live input does not belong to this run")) else
          if (m_Status m =? SteeringDeferred)%string then
            match tq_by_key tenantID (continuationKey m resumesRunID) (queue s) with
            | Err e => (s, Err e)
            | Ok (Some queued) => (s, Ok queued)
            | Ok None => (s, Err (Errorf "live input was already transferred as next-turn work"))
            end
          else if negb (existsb (String.eqb (m_Status m))
                          [SteeringAccepted; SteeringClaimed; SteeringConsumed])
          then (s, Err (Errorf "live input is no longer queueable"))
          else
            match workRequest runs tenantID personID runID resumesRunID m with
            | Err e => (s, Err e)
            | Ok task =>
                match tq_enqueue uuid now task (queue s) with
                | (q, Err e) => (s <| queue := q |>, Err e)
                | (q, Ok queued) =>
                    (s <| queue := q |> <| mail := update_where (fun r =>
                       (s_tenant_id r =? tenantID)%string && (s_id r =? m_ID m)%string
                       && (s_person_id r =? personID)%string && (s_run_id r =? runID)%string
                       && steering_in [SteeringAccepted; SteeringClaimed; SteeringConsumed] r)
                       (set_status SteeringDeferred now') (mail s) |>,
                     Ok queued)
                end
            end
      end
  end.

Definition QueueSteeringAsIndependent (uuid : string) (now now' : Time) (runs : list Run)
    (tenantID personID runID steeringID : string) (s : SteerState) : SteerState * res QueuedTask :=
  queueSteeringAsWork uuid now now' runs tenantID personID runID steeringID "" s.

Definition QueueSteeringAsContinuation (uuid : string) (now now' : Time) (runs : list Run)
    (tenantID personID runID steeringID resumesRunID : string) (s : SteerState)
  : SteerState * res QueuedTask :=
  if blank resumesRunID then (s, Err (Errorf "parent run id is required")) else
  queueSteeringAsWork uuid now now' runs tenantID personID runID steeringID resumesRunID s.

(** ** Boot recovery

    [env i] is what the [i]-th hand-off of the recovery reads: a fresh identifier
    and two clock readings. *)

Fixpoint deferAll (env : nat -> string * Time * Time) (i : nat) (runs : list Run)
    (pending : list SteeringMessage) (s : SteerState) : SteerState * nat * option error :=
  match pending with
  | [] => (s, i, None)
  | m :: rest =>
      let '(uuid, now, now') := env i in
      match DeferSteering uuid now now' runs m s with
      | (s, Err e) => (s, i, Some e)
      | (s, Ok _) => deferAll env (S i) runs rest s
      end
  end.

(** The outer loop; [None] when the fuel runs out.  The result is the final state,
    the number of deferred rows and the error, if any. *)
Fixpoint recover_loop (fuel : nat) (env : nat -> string * Time * Time) (i : nat) (runs : list Run)
    (s : SteerState) : option (SteerState * nat * option error) :=
  match fuel with
  | O => None
  | S fuel =>
      match ListUnconsumedSteering "" "" 200 (mail s) with
      | Err e => Some (s, i, Some e)
      | Ok [] => Some (s, i, None)
      | Ok pending =>
          match deferAll env i runs pending s with
          | (s, i, Some e) => Some (s, i, Some e)
          | (s, i, None) => recover_loop fuel env i runs s
          end
      end
  end.

Definition live_count (s : SteerState) : nat := length (List.filter live_steering (mail s)).

Definition RecoverSteeringAtBoot (env : nat -> string * Time * Time) (runs : list Run)
    (s : SteerState) : option (SteerState * nat * option error) :=
  recover_loop (S (live_count s)) env 0 runs s.
End Rehoming.

Arguments SteerState Q : clear implicits.
#[export] Existing Instance SteerState_eta.
