(* ===== verification/SteeringTheory.v ===== *)
(** * Properties of the steering mailbox

    The lifecycle of a message, the hand-off to the queue under crashes and
    retries (proved against the queue interface), and boot recovery. *)

From stdpp Require Import base tactics list strings relations.
From Stdlib Require Import ZArith Lia Bool Ascii String List Permutation.
From S2P Require Import Prelude GoLib Sql Admission Store Queue QueueTheory Sha256 QueueInterface Steering.

(** ** Lifecycle *)

Inductive mail_op : Type :=
| SAccept (uuid : string) (now : Time) (runs : list Run) (m : SteeringMessage)
| SClaimed (now : Time) (tenantID id : string)
| SExpired (now : Time) (tenantID id : string)
| SConsumeHash (now : Time) (tenantID runID hash : string)
| SConsumeID (now : Time) (tenantID runID id : string)
| SDefer (now : Time) (m : SteeringMessage)
| SWork (now : Time) (tenant person run id : string).

(** The mailbox statement of [queueSteeringAsWork]. *)
Definition workMark (now : Time) (tenant person run id : string) (t : list SteeringRow)
  : list SteeringRow :=
  update_where (fun r => (s_tenant_id r =? tenant)%string && (s_id r =? id)%string
    && (s_person_id r =? person)%string && (s_run_id r =? run)%string
    && steering_in [SteeringAccepted; SteeringClaimed; SteeringConsumed] r)
    (set_status SteeringDeferred now) t.

Definition exec_mail (op : mail_op) (t : list SteeringRow) : list SteeringRow :=
  match op with
  | SAccept uuid now runs m => fst (AcceptSteering uuid now runs m t)
  | SClaimed now tn id => MarkSteeringClaimed now tn id t
  | SExpired now tn id => fst (MarkSteeringExpired now tn id t)
  | SConsumeHash now tn rid h => fst (ConsumeSteeringByHash now tn rid h t)
  | SConsumeID now tn rid id => fst (ConsumeSteeringByID now tn rid id t)
  | SDefer now m => mail (deferMark (Q := unit) now m (mkSteerState t tt))
  | SWork now tn p rid id => workMark now tn p rid id t
  end.

Definition exec_mails (ops : list mail_op) (t : list SteeringRow) : list SteeringRow :=
  fold_left (fun t op => exec_mail op t) ops t.

(** The documented edges of the lifecycle. *)
Inductive steering_edge : string -> string -> Prop :=
| edge_claim : steering_edge SteeringAccepted SteeringClaimed
| edge_consume s : In s [SteeringAccepted; SteeringClaimed] -> steering_edge s SteeringConsumed
| edge_expire s : In s [SteeringAccepted; SteeringClaimed] -> steering_edge s SteeringExpired
| edge_defer s : In s [SteeringAccepted; SteeringClaimed; SteeringConsumed] ->
    steering_edge s SteeringDeferred.

(** The columns no operation changes. *)
Definition same_message (r r' : SteeringRow) : Prop :=
  exists status updated, r' = r <| s_status := status |> <| s_updated_at := updated |>.

Definition mail_step (r r' : SteeringRow) : Prop :=
  same_message r r' /\ rtc steering_edge (s_status r) (s_status r').

Lemma mail_step_refl r : mail_step r r.
Proof. split; [exists (s_status r), (s_updated_at r); by destruct r|done]. Qed.

Lemma mail_step_trans a b c : mail_step a b -> mail_step b c -> mail_step a c.
Proof.
  intros [(s1 & u1 & ->) H1] [(s2 & u2 & ->) H2]. split; [by exists s2, u2|]. by etrans.
Qed.

Lemma set_status_step st now r : steering_edge (s_status r) st -> mail_step r (set_status st now r).
Proof. intros H. split; [by exists st, (Unix now)|]. by apply rtc_once. Qed.

Lemma steering_in_In l r : steering_in l r = true <-> In (s_status r) l.
Proof.
  unfold steering_in. rewrite existsb_exists. split.
  - intros (x & Hx & ->%String.eqb_eq). done.
  - intros H. exists (s_status r). by rewrite String.eqb_refl.
Qed.

(** The status condition of a statement, as membership. *)
Ltac status_of :=
  match goal with
  | H : live_steering _ = true |- _ => apply steering_in_In in H
  | H : steering_in _ _ = true |- _ => apply steering_in_In in H
  end.

Lemma update_mail_step cond st now t k r :
  (forall x, In x t -> cond x = true -> steering_edge (s_status x) st) -> lookup_key k t = Some r ->
  exists r', lookup_key k (update_where cond (set_status st now) t) = Some r' /\ mail_step r r'.
Proof.
  intros H Hr. exists (if cond r then set_status st now r else r). rewrite lookup_update, Hr by done.
  split; [done|]. destruct (cond r) eqn:E; [|apply mail_step_refl].
  apply set_status_step, H; [by apply lookup_key_Some in Hr as [? _]|done].
Qed.

Lemma AcceptSteering_app uuid now runs m t :
  exists new, fst (AcceptSteering uuid now runs m t) = t ++ new /\
    (new = [] \/ exists x, new = [x] /\ lookup_key (key x) t = None /\
       normalizeTenant (s_tenant_id x) = s_tenant_id x).
Proof.
  unfold AcceptSteering. cbv zeta.
  assert (exists new, t = t ++ new /\ (new = [] \/ exists x, new = [x] /\
    lookup_key (key x) t = None /\ normalizeTenant (s_tenant_id x) = s_tenant_id x)) as Hnil.
  { exists []. rewrite app_nil_r. auto. }
  case_if; [done|].
  match goal with |- context [match ?e with Ok _ => _ | Err _ => _ end] => destruct e as [m1|] eqn:E end;
    [|done].
  case_if; [done|]. simpl. eexists. split; [reflexivity|]. right. eexists. split; [reflexivity|].
  split.
  - apply lookup_key_None. intros x Hx Hk. eapply existsb_false_In in Heqb0; [|done].
    apply String.eqb_neq in Heqb0. by apply Heqb0.
  - assert (m_TenantID m1 = normalizeTenant (m_TenantID m)) as Ht.
    { revert E. clear. cbn. repeat case_match; intros E; try discriminate E; injection E as <-; reflexivity. }
    simpl. rewrite Ht. apply normalizeTenant_idemp.
Qed.

Record mail_wf (t : list SteeringRow) : Prop := {
  mail_ids : keys_unique t;
  mail_tenants : forall r, In r t -> normalizeTenant (s_tenant_id r) = s_tenant_id r
}.

Lemma mail_wf_update cond st now t : mail_wf t -> mail_wf (update_where cond (set_status st now) t).
Proof.
  intros [Hi Ht]. constructor; [by apply keys_unique_update|].
  intros r (x & Hx & ->)%In_update_where. destruct (cond x); apply (Ht x Hx).
Qed.

Lemma exec_mail_step op t k r :
  mail_wf t -> lookup_key k t = Some r ->
  exists r', lookup_key k (exec_mail op t) = Some r' /\ mail_step r r'.
Proof.
  intros Hw Hr.
  assert (exists r', lookup_key k t = Some r' /\ mail_step r r') as Hid.
  { exists r. split; [done|apply mail_step_refl]. }
  destruct op; cbn [exec_mail].
  - destruct (AcceptSteering_app uuid now runs m t) as (new & -> & _).
    exists r. rewrite lookup_app, Hr. split; [done|apply mail_step_refl].
  - apply update_mail_step; [|done]. intros x _ Hx. reflect_bools.
    apply steering_in_In in H0 as [<-|[]]. constructor.
  - apply update_mail_step; [|done]. intros x _ Hx. reflect_bools.
    status_of. by constructor.
  - unfold ConsumeSteeringByHash. case_if; [done|]. apply update_mail_step; [|done].
    intros x Hx Hc. destruct (hd_error _) as [c|] eqn:Ec; [|done]. reflect_bools.
    destruct (order_by _ _) as [|y l] eqn:Eo; [done|]. simplify_eq/=.
    assert (In c (c :: l)) as Hin by by left. rewrite <- Eo in Hin.
    apply In_order_by, filter_In in Hin as [Hin Hp]. reflect_bools.
    assert (x = c) as -> by (apply (keys_unique_inj t); [apply Hw|done..]).
    status_of. by constructor.
  - unfold ConsumeSteeringByID. case_if; [done|]. apply update_mail_step; [|done].
    intros x _ Hx. reflect_bools. status_of. by constructor.
  - apply update_mail_step; [|done]. intros x _ Hx. reflect_bools.
    status_of. constructor. simpl in *. tauto.
  - apply update_mail_step; [|done]. intros x _ Hx. reflect_bools.
    status_of. by constructor.
Qed.

Lemma exec_mail_wf op t : mail_wf t -> mail_wf (exec_mail op t).
Proof.
  intros Hw. destruct op; cbn [exec_mail]; try by apply mail_wf_update.
  - destruct (AcceptSteering_app uuid now runs m t) as (new & -> & [->|(x & -> & Hx & Hn)]).
    + by rewrite app_nil_r.
    + destruct Hw. constructor; [by apply keys_unique_snoc|].
      intros r [Hr|[<-|[]]]%in_app_or; auto.
  - unfold ConsumeSteeringByHash. case_if; [done|]. by apply mail_wf_update.
  - unfold ConsumeSteeringByID. case_if; [done|]. by apply mail_wf_update.
Qed.

Lemma mail_wf_nil : mail_wf [].
Proof. constructor; [apply keys_unique_nil|done]. Qed.

Lemma exec_mails_wf ops t : mail_wf t -> mail_wf (exec_mails ops t).
Proof. revert t. induction ops as [|op ops IH]; intros t Hw; [done|]. by apply IH, exec_mail_wf. Qed.

Lemma edge_final s s' :
  In s [SteeringDeferred; SteeringExpired] -> rtc steering_edge s s' -> s' = s.
Proof.
  intros Hs H. inversion H as [|? y ? He _]; [done|]. subst. exfalso.
  destruct Hs as [<-|[<-|[]]]; inversion He; simpl in *; destruct_or?; done.
Qed.

(** The message lifecycle.  Through every history of mailbox operations an
    accepted message keeps its identity, owner, target, content, files and roots;
    its status only moves along the documented edges; and a deferred or expired
    message never changes status again, so that it is not replayed. *)
Theorem steering_lifecycle (t : list SteeringRow) (k : string) (r : SteeringRow)
    (ops : list mail_op) :
  mail_wf t -> lookup_key k t = Some r ->
  exists r', lookup_key k (exec_mails ops t) = Some r' /\ same_message r r' /\
    rtc steering_edge (s_status r) (s_status r') /\
    (In (s_status r) [SteeringDeferred; SteeringExpired] -> s_status r' = s_status r).
Proof.
  intros Hw Hr.
  assert (exists r', lookup_key k (exec_mails ops t) = Some r' /\ mail_step r r') as (r' & Hr' & Hm & He).
  { revert t r Hw Hr. induction ops as [|op ops IH]; intros t r Hw Hr.
    - exists r. split; [done|apply mail_step_refl].
    - destruct (exec_mail_step op t k r Hw Hr) as (r1 & Hr1 & Hs1).
      destruct (IH (exec_mail op t) r1) as (r2 & Hr2 & Hs2); [by apply exec_mail_wf|done|].
      exists r2. split; [done|]. by eapply mail_step_trans. }
  exists r'. split; [done|]. split; [done|]. split; [done|]. intros Hf. by apply edge_final.
Qed.

(** ** Hand-off to the queue *)

Lemma scanSteering_fields r m :
  scanSteering r = Ok m ->
  m_ID m = s_id r /\ m_TenantID m = s_tenant_id r /\ m_PersonID m = s_person_id r /\
  m_RunID m = s_run_id r /\ m_Content m = s_content r /\ m_Status m = s_status r.
Proof. unfold scanSteering. intros. repeat case_match; simplify_eq; done. Qed.

Lemma scan_attachments r m : scanSteering r = Ok m -> s_attachments_json r = JVal (m_Attachments m).
Proof. unfold scanSteering. intros. repeat case_match; simplify_eq; done. Qed.

Lemma scan_set_status r m st now :
  scanSteering r = Ok m ->
  scanSteering (set_status st now r) =
    Ok (m <| m_Status := st |> <| m_UpdatedAt := TimeOfUnix (Unix now) |>).
Proof. unfold scanSteering, set_status. simpl. intros. repeat case_match; simplify_eq; done. Qed.

Lemma steering_key_not_blank id : TrimSpace ("steering:" +:+ id) <> "".
Proof.
  destruct (TrimSpace_graphic "s" ("teering:" +:+ id)) as [s Hs]; [done|].
  change ("steering:" +:+ id) with (String "s" ("teering:" +:+ id)). by rewrite Hs.
Qed.

Lemma deferRequest_fields runs m task :
  deferRequest runs m = Ok task ->
  t_TenantID task = m_TenantID m /\ t_PersonID task = m_PersonID m /\
  t_IdempotencyKey task = "steering:" +:+ m_ID m /\ t_Content task = m_Content m /\
  t_Attachments task = m_Attachments m /\ t_Admission task = zeroSnapshot.
Proof. unfold deferRequest. intros. repeat case_match; simplify_eq; done. Qed.

Lemma zero_admission_ok : is_ok (encodeAdmissionSnapshot zeroSnapshot) = true.
Proof. reflexivity. Qed.

Section Handoff.
Context {Q : Type} `{TaskQueueLaws Q}.
Implicit Types (s : SteerState Q) (r : SteeringRow) (m : SteeringMessage).

(** The message of a row has been enqueued in the past of queue [q]. *)
Definition homed r (q : Q) : Prop :=
  exists uuid now task q0 q1 d, tq_ok q0 /\ tq_enqueue uuid now task q0 = (q1, Ok d) /\
    tq_later q1 q /\ t_TenantID task = s_tenant_id r /\
    t_IdempotencyKey task = "steering:" +:+ s_id r.

Lemma homed_later r q q' : homed r q -> tq_later q q' -> homed r q'.
Proof.
  intros (u & n & task & q0 & q1 & d & ? & ? & ? & ? & ?) Hl. exists u, n, task, q0, q1, d.
  split_and!; auto. by eapply tq_later_trans.
Qed.

(** The queue finds it by its key. *)
Lemma homed_found r q :
  homed r q -> exists d, tq_by_key (s_tenant_id r) ("steering:" +:+ s_id r) q = Ok (Some d).
Proof.
  intros (u & n & task & q0 & q1 & d & Hok & He & Hl & <- & Hk).
  destruct (tq_finds u n task q0 q1 q d Hok He) as (d' & Hd & _); [|done|].
  - rewrite Hk. apply steering_key_not_blank.
  - rewrite Hk in Hd. eauto.
Qed.

Lemma at_steering_key tn id r : at_steering tn id r = true -> key r = id.
Proof. unfold at_steering. intros. by reflect_bools. Qed.

(** The mailbox transition of a hand-off, on a live row. *)
Lemma deferMark_row now s r m :
  mail_wf (mail s) -> lookup_key (s_id r) (mail s) = Some r -> live_steering r = true ->
  scanSteering r = Ok m ->
  let s' := deferMark now m s in
  mail_wf (mail s') /\ lookup_key (s_id r) (mail s') = Some (set_status SteeringDeferred now r) /\
  S (live_count s') = live_count s /\
  forall k, k <> s_id r -> lookup_key k (mail s') = lookup_key k (mail s).
Proof.
  intros Hw Hr Hl Hm s'. destruct (scanSteering_fields r m Hm) as (Hid & Htn & _).
  pose proof (lookup_key_Some _ _ _ Hr) as [Hin _].
  set (cond := fun x => at_steering (m_TenantID m) (m_ID m) x && live_steering x).
  assert (forall x, cond x = true -> key x = s_id r) as Hck.
  { intros x Hx. unfold cond in Hx. reflect_bools. rewrite <- Hid. by eapply at_steering_key. }
  assert (cond r = true) as Hcr.
  { unfold cond, at_steering. rewrite Htn, Hid, (mail_tenants _ Hw r Hin), !String.eqb_refl. done. }
  split; [by apply mail_wf_update|]. split; [|split].
  - unfold s', deferMark. simpl. rewrite lookup_update, Hr by done. cbn [option_map].
    change (at_steering (m_TenantID m) (m_ID m) r && live_steering r) with (cond r). by rewrite Hcr.
  - unfold live_count, s', deferMark. cbn [mail]. change (mail (s <| mail := ?t |>)) with t.
    destruct (update_where_one cond (set_status SteeringDeferred now) (mail s) r)
      as (t1 & t2 & Ht & Hu); [apply Hw|done| |].
    { intros x Hx. split; [|by intros ->]. intros Hcx%Hck.
      apply (keys_unique_inj (mail s)); [apply Hw|done..]. }
    fold cond. simpl. fold cond. rewrite Hu, Ht, !List.filter_app, !length_app. cbn [List.filter].
    rewrite Hl. change (live_steering (set_status SteeringDeferred now r)) with false. simpl. lia.
  - intros k Hk. apply (lookup_update_ne cond _ _ (s_id r)); done.
Qed.

(** One hand-off of a live row. *)
Lemma DeferSteering_row uuid now now' runs m s r s' out :
  mail_wf (mail s) -> tq_ok (queue s) -> lookup_key (s_id r) (mail s) = Some r ->
  live_steering r = true -> scanSteering r = Ok m ->
  DeferSteering uuid now now' runs m s = (s', out) ->
  tq_later (queue s) (queue s') /\
  match out with
  | Err _ => mail s' = mail s
  | Ok _ => mail_wf (mail s') /\ homed r (queue s') /\
      lookup_key (s_id r) (mail s') = Some (set_status SteeringDeferred now' r) /\
      S (live_count s') = live_count s /\
      forall k, k <> s_id r -> lookup_key k (mail s') = lookup_key k (mail s)
  end.
Proof.
  intros Hw Hok Hr Hl Hm. unfold DeferSteering, deferEnqueue.
  destruct (deferRequest runs m) as [task|e] eqn:Et.
  2: { intros [= <- <-]. split; [apply tq_later_refl|done]. }
  destruct (deferRequest_fields _ _ _ Et) as (Htn & _ & Hk & _).
  destruct (scanSteering_fields r m Hm) as (Hid & Hmt & _).
  pose proof (tq_enqueue_later uuid now task (queue s) Hok) as Hlat.
  destruct (tq_enqueue uuid now task (queue s)) as [q [d|e]] eqn:Ee; intros [= <- <-];
    [|by split].
  split; [done|].
  destruct (deferMark_row now' (s <| queue := q |>) r m) as (H1 & H2 & H3 & H4); [done..|].
  split_and!; try done.
  exists uuid, now, task, (queue s), q, d. split_and!; try done.
  - apply tq_later_refl.
  - congruence.
  - congruence.
Qed.

(** Crash replay of a hand-off converges.  If a daemon dies after the queue
    accepted a message but before its mailbox row was marked, then after any queue
    history the repeated hand-off adds nothing to the queue and marks the row
    deferred: the guidance is queued exactly once. *)
Theorem defer_crash_replay (s s1 : SteerState Q) (r : SteeringRow) (m : SteeringMessage)
    (uuid uuid' : string) (now1 now2 now3 : Time) (runs runs' : list Run) (d task : QueuedTask)
    (q2 : Q) :
  mail_wf (mail s) -> tq_ok (queue s) -> lookup_key (s_id r) (mail s) = Some r ->
  live_steering r = true -> scanSteering r = Ok m ->
  blank (s_person_id r) = false -> blank (s_content r) = false ->
  deferEnqueue uuid now1 runs m s = (s1, Ok d) -> tq_later (queue s1) q2 ->
  deferRequest runs' m = Ok task ->
  let '(s3, out) := DeferSteering uuid' now2 now3 runs' m (mkSteerState (mail s1) q2) in
  out = Ok tt /\ queue s3 = q2 /\
  lookup_key (s_id r) (mail s3) = Some (set_status SteeringDeferred now3 r).
Proof.
  intros Hw Hok Hr Hl Hm Hp Hc He Hlat Ht.
  destruct (scanSteering_fields r m Hm) as (_ & _ & Hmp & _ & Hmc & _).
  unfold deferEnqueue in He. destruct (deferRequest runs m) as [task0|] eqn:E0; [|done].
  destruct (deferRequest_fields _ _ _ E0) as (Htn0 & _ & Hk0 & _).
  destruct (deferRequest_fields _ _ _ Ht) as (Htn & Hpt & Hk & Hct & _ & Hadm).
  destruct (tq_enqueue uuid now1 task0 (queue s)) as [q out] eqn:Ee.
  injection He as <- ->. simpl in Hlat.
  destruct (tq_converges uuid uuid' now1 now2 task0 task (queue s) q q2 d Hok Ee)
    as (d' & Hd' & _).
  - rewrite Hk0. apply steering_key_not_blank.
  - done.
  - split; congruence.
  - split_and!; [by rewrite Hpt, Hmp|by rewrite Hct, Hmc|]. rewrite Hadm. apply zero_admission_ok.
  - unfold DeferSteering, deferEnqueue. rewrite Ht. simpl. rewrite Hd'.
    destruct (deferMark_row now3 (mkSteerState (mail s) q2) r m) as (_ & H2 & _); [done..|].
    split_and!; done.
Qed.

(** ** Queueing an input the model classified *)

Lemma continuationKey_not_blank m res : TrimSpace (continuationKey m res) <> "".
Proof.
  unfold continuationKey. case_if.
  - destruct (TrimSpace_graphic "s" ("teering-independent:" +:+ m_ID m)) as [x Hx]; [done|].
    change ("steering-independent:" +:+ m_ID m)
      with (String "s" ("teering-independent:" +:+ m_ID m)). by rewrite Hx.
  - set (rest := m_ID m +:+ ":" +:+ TrimSpace res).
    destruct (TrimSpace_graphic "s" ("teering-continuation:" +:+ rest)) as [x Hx]; [done|].
    change ("steering-continuation:" +:+ rest)
      with (String "s" ("teering-continuation:" +:+ rest)). by rewrite Hx.
Qed.

Lemma workRequest_fields runs tn p rid res m task :
  workRequest runs tn p rid res m = Ok task ->
  t_TenantID task = tn /\ t_IdempotencyKey task = continuationKey m res.
Proof. unfold workRequest. intros. repeat case_match; simplify_eq; done. Qed.

(** Retrying a classified hand-off converges.  Once an input has been queued as
    independent work or as a continuation, repeating the call - after any queue
    history, with other identifiers, clocks and Run facts - changes neither mailbox
    nor queue and returns the queue row already created. *)
Theorem queue_work_retry (s s1 : SteerState Q) (uuid uuid' : string) (now now' now2 now3 : Time)
    (runs runs' : list Run) (tn p rid sid res : string) (d : QueuedTask) (q2 : Q) :
  mail_wf (mail s) -> tq_ok (queue s) ->
  (forall r, In r (mail s) -> s_status r <> SteeringDeferred) ->
  queueSteeringAsWork uuid now now' runs tn p rid sid res s = (s1, Ok d) ->
  tq_later (queue s1) q2 ->
  exists d', queueSteeringAsWork uuid' now2 now3 runs' tn p rid sid res (mkSteerState (mail s1) q2) =
    (mkSteerState (mail s1) q2, Ok d') /\ t_ID d' = t_ID d.
Proof.
  intros Hw Hok Hnd E Hlat. unfold queueSteeringAsWork in *. cbv zeta in *.
  set (id := TrimPrefix (TrimSpace sid) "steering:") in *.
  case_if; [done|]. case_if; [done|].
  set (at_id := fun r => (s_tenant_id r =? normalizeTenant tn)%string && (s_id r =? id)%string) in *.
  assert (forall x, at_id x = true -> key x = id) as Hkey.
  { unfold at_id. intros x Hx. by reflect_bools. }
  rewrite (query_row_key id) in E by (done || apply Hw).
  destruct (lookup_key id (mail s)) as [r|] eqn:Er; [|done].
  destruct (at_id r) eqn:Ea; [|done].
  destruct (scanSteering r) as [m|] eqn:Em; [|done].
  destruct (scanSteering_fields r m Em) as (Hid & Htn & Hp & Hr & _ & Hst).
  pose proof (lookup_key_Some _ _ _ Er) as [Hin Hk].
  destruct (negb (m_PersonID m =? TrimSpace p)%string || negb (m_RunID m =? TrimSpace rid)%string)
    eqn:Eown; [done|].
  assert ((m_Status m =? SteeringDeferred)%string = false) as Hnd'.
  { apply String.eqb_neq. rewrite Hst. by apply Hnd. }
  rewrite Hnd' in E.
  destruct (existsb (String.eqb (m_Status m)) [SteeringAccepted; SteeringClaimed; SteeringConsumed])
    eqn:Eq; [|done]. cbn [negb] in E.
  destruct (workRequest runs (normalizeTenant tn) (TrimSpace p) (TrimSpace rid) res m) as [task|] eqn:Ew;
    [|done].
  destruct (workRequest_fields _ _ _ _ _ _ _ Ew) as [Htt Htk].
  destruct (tq_enqueue uuid now task (queue s)) as [q [d0|]] eqn:Ee; [|done].
  injection E as <- ->. simpl in Hlat.
  destruct (tq_finds uuid now task (queue s) q q2 d Hok Ee) as (d' & Hd' & Hdid); [|done|].
  { rewrite Htk. apply continuationKey_not_blank. }
  exists d'. split; [|done].
  match goal with |- context [mkSteerState ?t q2] => set (mail1 := t) end.
  assert (keys_unique mail1) as Hu1 by (apply keys_unique_update; [done|apply Hw]).
  assert (lookup_key id mail1 = Some (set_status SteeringDeferred now' r)) as Hr1.
  { change mail1 with (workMark now' (normalizeTenant tn) (TrimSpace p) (TrimSpace rid) (m_ID m) (mail s)).
    unfold workMark. rewrite lookup_update, Er by done. cbn [option_map].
    replace (steering_in _ r) with true by (unfold steering_in; by rewrite <- Hst, Eq).
    unfold at_id in Ea. rewrite Hid, <- Hp, <- Hr. clear Hkey. clearbody mail1. reflect_bools.
    rewrite H1, H3, H4, !String.eqb_refl. done. }
  cbn [mail queue]. rewrite (query_row_key id) by done. rewrite Hr1. change (at_id (set_status _ _ r)) with (at_id r).
  rewrite Ea, (scan_set_status _ _ _ _ Em). cbn [m_PersonID m_RunID m_Status].
  simpl. rewrite Eown. simpl. rewrite Htt, Htk in Hd'.
  change (continuationKey _ res) with (continuationKey m res). by rewrite Hd'.
Qed.

(** ** Boot recovery *)

(** The message of a row is in the queue and its row marked. *)
Definition rehomed r s : Prop :=
  homed r (queue s) /\
  exists now, lookup_key (s_id r) (mail s) = Some (set_status SteeringDeferred now r).

(** What a sequence of hand-offs does to a live row. *)
Definition settled r s : Prop := rehomed r s \/ lookup_key (s_id r) (mail s) = Some r.

Lemma scanAllSteering_rows rows : forall ms,
  scanAllSteering rows = Ok ms -> Forall2 (fun r m => scanSteering r = Ok m) rows ms.
Proof.
  induction rows as [|r rows IH]; intros ms E; simpl in E; [by simplify_eq|].
  destruct (scanSteering r) as [m|] eqn:Em; [|done].
  destruct (scanAllSteering rows) as [l|]; [|done]. simplify_eq. constructor; auto.
Qed.

Lemma defer_keeps_rehomed uuid now now' runs m s r s' out r0 :
  mail_wf (mail s) -> tq_ok (queue s) -> lookup_key (s_id r) (mail s) = Some r ->
  live_steering r = true -> scanSteering r = Ok m ->
  DeferSteering uuid now now' runs m s = (s', out) -> rehomed r0 s -> rehomed r0 s'.
Proof.
  intros Hw Hok Hr Hl Hm E [Hh (n & Hn)].
  destruct (DeferSteering_row _ _ _ _ _ _ _ _ _ Hw Hok Hr Hl Hm E) as [Hlat Hout].
  split; [by eapply homed_later|]. exists n. destruct out as [u|e]; [|by rewrite Hout].
  destruct Hout as (_ & _ & _ & _ & Hother). rewrite Hother; [done|]. intros Heq.
  rewrite Heq, Hr in Hn. injection Hn as Hn. rewrite Hn in Hl. done.
Qed.

(** The key of a message in the queue, and the message under it. *)
Definition steering_key r : string := "steering:" +:+ s_id r.

Definition carries r (q : Q) : Prop :=
  exists d, tq_by_key (s_tenant_id r) (steering_key r) q = Ok (Some d) /\ t_Content d = s_content r /\
    t_PersonID d = s_person_id r /\ s_attachments_json r = JVal (t_Attachments d).

Definition carried r (q : Q) : Prop := tq_by_key (s_tenant_id r) (steering_key r) q = Ok None \/ carries r q.

(** No other message has its key. *)
Definition apart r (t : list SteeringRow) : Prop :=
  forall x, In x t -> TrimSpace (steering_key x) = TrimSpace (steering_key r) -> s_id x = s_id r.

Lemma apart_update r cond f t : (forall x, s_id (f x) = s_id x) -> apart r t -> apart r (update_where cond f t).
Proof.
  intros F A x (y & Hy & ->)%In_update_where K. destruct (cond y); [rewrite F|]; apply (A y Hy); unfold steering_key in *; [by rewrite <- F|done].
Qed.

Lemma DeferSteering_apart uuid now now' runs m s r : apart r (mail s) -> apart r (mail (fst (DeferSteering uuid now now' runs m s))).
Proof.
  intros A. unfold DeferSteering, deferEnqueue. destruct (deferRequest runs m); [|done]. destruct (tq_enqueue _ _ _ _) as [q [|]]; [|done].
  simpl. by apply apart_update.
Qed.

Lemma defer_carried uuid now now' runs m s r s' out x :
  mail_wf (mail s) -> tq_ok (queue s) -> lookup_key (s_id r) (mail s) = Some r ->
  live_steering r = true -> scanSteering r = Ok m -> DeferSteering uuid now now' runs m s = (s', out) ->
  live_steering x = true -> apart x (mail s) -> settled x s -> carried x (queue s) ->
  settled x s' /\ carried x (queue s').
Proof.
  intros Hw Hok Hr Hl Hm E Lx A Sx C.
  destruct (DeferSteering_row _ _ _ _ _ _ _ _ _ Hw Hok Hr Hl Hm E) as [_ Hout].
  assert (s_id x = s_id r -> x = r) as Eq.
  { intros I. destruct Sx as [[_ [n Hn]]|Hn]; rewrite I, Hr in Hn; injection Hn as Hn; [|done]. by rewrite Hn in Hl. }
  split.
  - destruct Sx as [Sx|Sx]; [left; by eapply defer_keeps_rehomed|]. destruct out as [[]|e]; [|right; by rewrite Hout].
    destruct Hout as (_ & Hh & Hr1 & _ & Hother). destruct (decide (s_id x = s_id r)) as [I|I].
    + rewrite (Eq I). left. split; eauto.
    + right. by rewrite Hother.
  - unfold DeferSteering, deferEnqueue in E. destruct (deferRequest runs m) as [task|e0] eqn:Et; [|by injection E as <- _].
    destruct (deferRequest_fields _ _ _ Et) as (Htn & Hp & Hk & Hc & Ha & _). destruct (scanSteering_fields r m Hm) as (Hid & Hmt & Hmp & _ & Hmc & _).
    pose proof (scan_attachments _ _ Hm) as Hma.
    destruct (tq_enqueue uuid now task (queue s)) as [q out0] eqn:Ee. assert (queue s' = q) as -> by (by destruct out0; injection E as <- _).
    assert (TrimSpace (t_IdempotencyKey task) <> TrimSpace (steering_key x) \/ tq_by_key (s_tenant_id x) (steering_key x) (queue s) <> Ok None \/
      is_ok out0 = false \/ x = r /\ tq_by_key (s_tenant_id x) (steering_key x) (queue s) = Ok None /\ exists d, out0 = Ok d) as K.
    { destruct (decide (TrimSpace (t_IdempotencyKey task) = TrimSpace (steering_key x))) as [K|K]; [|by left]. right.
      destruct C as [C|(d & C & _)]; [|left; congruence]. right. destruct out0 as [d|e0]; [right|by left]. split; [|eauto]. symmetry. symmetry. apply Eq.
      symmetry. apply A; [by apply lookup_key_Some in Hr as [? _]|]. unfold steering_key at 1. by rewrite <- Hid, <- Hk. }
    destruct K as [K|[K|[K|(-> & N & d & ->)]]]; [| | |right].
    1-3: unfold carried, carries; rewrite (tq_frame _ _ _ _ _ _ (s_tenant_id x) (steering_key x) Hok Ee) by auto; exact C.
    assert (t_IdempotencyKey task = steering_key r) as Hk' by (unfold steering_key; congruence). rewrite <- Hmt, <- Htn, <- Hk' in N.
    destruct (tq_stores _ _ _ _ _ _ Hok N ltac:(rewrite Hk; apply steering_key_not_blank) Ee) as (d' & F & P1 & P2 & P3).
    exists d'. rewrite <- Hmt, <- Htn, <- Hk', P1, P2, P3, Hma. split_and!; congruence.
Qed.

Lemma deferAll_rows env runs rows : forall ms i s s' i' err,
  Forall2 (fun r m => scanSteering r = Ok m) rows ms -> List.NoDup (map s_id rows) ->
  (forall r, In r rows -> lookup_key (s_id r) (mail s) = Some r /\ live_steering r = true) ->
  mail_wf (mail s) -> tq_ok (queue s) -> deferAll env i runs ms s = (s', i', err) ->
  mail_wf (mail s') /\ tq_ok (queue s') /\ (i' + live_count s' = i + live_count s)%nat /\
  (err = None -> i' = (i + length rows)%nat) /\
  (forall r, lookup_key (s_id r) (mail s) = Some r -> live_steering r = true -> settled r s') /\
  (forall r, rehomed r s -> rehomed r s') /\
  (forall x, live_steering x = true -> apart x (mail s) -> settled x s -> carried x (queue s) ->
     apart x (mail s') /\ settled x s' /\ carried x (queue s')).
Proof.
  induction rows as [|r rows IH]; intros ms i s s' i' err Hf Hnd Hin Hw Hok E.
  { inversion Hf; subst. simpl in E. simplify_eq. split_and!; auto; try (simpl; lia). intros. by right. }
  inversion Hf as [|? m ? ms' Hm Hf']; subst. apply NoDup_cons_iff in Hnd as [Hni Hnd].
  destruct (Hin r) as [Hr Hl]; [by left|]. cbn [deferAll] in E. destruct (env i) as [[u n] n'].
  destruct (DeferSteering u n n' runs m s) as [s1 out] eqn:Ed.
  destruct (DeferSteering_row _ _ _ _ _ _ _ _ _ Hw Hok Hr Hl Hm Ed) as [Hlat Hout].
  assert (tq_ok (queue s1)) as Hok1 by by eapply tq_ok_later.
  pose proof (fun r0 => defer_keeps_rehomed _ _ _ _ _ _ _ _ _ r0 Hw Hok Hr Hl Hm Ed) as Hkeep.
  pose proof (fun x => defer_carried _ _ _ _ _ _ _ _ _ x Hw Hok Hr Hl Hm Ed) as Hcar.
  pose proof (fun x A => DeferSteering_apart u n n' runs m s x A) as Hap. rewrite Ed in Hap. simpl in Hap.
  destruct out as [[]|e].
  - destruct Hout as (Hw1 & Hh & Hr1 & Hcnt & Hother).
    assert (rehomed r s1) as Hre by (split; eauto).
    edestruct (IH ms' (S i) s1 s' i' err) as (H1 & H2 & H3 & H4 & H5 & H6 & H7); [done|done| |done..|].
    { intros x Hx. destruct (Hin x) as [Hx1 Hx2]; [by right|]. split; [|done].
      rewrite Hother; [done|]. intros Heq. apply Hni. rewrite <- Heq. by apply in_map. }
    split_and!; auto; try lia; [intros He; simpl; rewrite H4; [lia|done]| |].
    2: { intros x Lx A Sx C. destruct (Hcar x Lx A Sx C). by apply H7; [|apply Hap|..]. }
    intros x Hx Hlx. destruct (decide (s_id x = s_id r)) as [Heq|Hne].
    + rewrite Heq, Hr in Hx. injection Hx as <-. left. by apply H6.
    + apply H5; [by rewrite Hother|done].
  - injection E as <- <- <-. unfold live_count. rewrite Hout. split_and!; auto; try done.
    intros x Hx _. right. by rewrite Hout.
Qed.

Lemma live_count_zero s r :
  live_count s = 0%nat -> lookup_key (s_id r) (mail s) = Some r -> live_steering r = true -> False.
Proof.
  unfold live_count. intros Hz [Hin _]%lookup_key_Some Hl.
  assert (In r (List.filter live_steering (mail s))) as Hf by by apply filter_In.
  destruct (List.filter live_steering (mail s)); done.
Qed.

Lemma firstn_In {A} (n : nat) (l : list A) x : In x (firstn n l) -> In x l.
Proof. intros Hx. rewrite <- (firstn_skipn n l). apply in_or_app. by left. Qed.

(** The rows one pass of the recovery lists. *)
Lemma list_pending s ms :
  mail_wf (mail s) -> ListUnconsumedSteering "" "" 200 (mail s) = Ok ms ->
  exists rows, Forall2 (fun r m => scanSteering r = Ok m) rows ms /\ List.NoDup (map s_id rows) /\
    (forall r, In r rows -> lookup_key (s_id r) (mail s) = Some r /\ live_steering r = true) /\
    (rows = [] -> live_count s = 0%nat).
Proof.
  intros Hw E. unfold ListUnconsumedSteering in E.
  change (blank "") with true in E. cbn [orb Z.leb Z.ltb Z.compare Pos.compare Pos.compare_cont] in E.
  set (p := fun r => live_steering r && true && true) in E.
  unfold select_where, sql_limit in E. change (200 <? 0)%Z with false in E.
  set (sorted := order_by oldest_first (List.filter p (mail s))) in E.
  apply scanAllSteering_rows in E. eexists. split; [exact E|].
  assert (forall r, p r = live_steering r) as Hp.
  { intros r. unfold p. by rewrite !andb_true_r. }
  assert (List.NoDup (map s_id sorted)) as Hnd.
  { apply (Permutation_NoDup (l := map s_id (List.filter p (mail s)))).
    - apply Permutation_map. symmetry. apply order_by_perm.
    - apply (keys_unique_filter p _ (mail_ids _ Hw)). }
  split; [|split].
  - rewrite <- (firstn_skipn (Z.to_nat 200) sorted), map_app in Hnd. by apply NoDup_app_remove_r in Hnd.
  - intros r Hr%firstn_In. apply In_order_by, filter_In in Hr as [Hr Hl].
    split; [|by rewrite <- Hp]. apply (lookup_key_In (mail s) r); [apply Hw|done].
  - intros Hnil. unfold live_count. rewrite <- (filter_ext_In p) by (intros; apply Hp).
    apply (f_equal length) in Hnil. rewrite length_firstn in Hnil.
    pose proof (Permutation_length (order_by_perm oldest_first (List.filter p (mail s)))) as Hlen.
    fold sorted in Hlen. simpl in Hnil. destruct (length sorted); [congruence|lia].
Qed.

Lemma recover_loop_total env runs fuel : forall i s,
  mail_wf (mail s) -> tq_ok (queue s) -> (live_count s < fuel)%nat ->
  exists s' n err, recover_loop fuel env i runs s = Some (s', n, err) /\
    (n + live_count s' = i + live_count s)%nat /\ (err = None -> live_count s' = 0%nat) /\
    (forall r, lookup_key (s_id r) (mail s) = Some r -> live_steering r = true -> settled r s') /\
    (forall r, rehomed r s -> rehomed r s') /\
    (forall x, live_steering x = true -> apart x (mail s) -> settled x s -> carried x (queue s) -> carried x (queue s')).
Proof.
  induction fuel as [|fuel IH]; intros i s Hw Hok Hlt; [lia|]. cbn [recover_loop].
  destruct (ListUnconsumedSteering "" "" 200 (mail s)) as [ms|e] eqn:El.
  2: { exists s, i, (Some e). split_and!; auto; try done. intros. by right. }
  destruct (list_pending s ms Hw El) as (rows & Hf & Hnd & Hin & Hempty).
  destruct ms as [|m0 ms].
  { inversion Hf; subst. exists s, i, None. split_and!; auto. intros. by right. }
  destruct (deferAll env i runs (m0 :: ms) s) as [[s1 i1] err] eqn:Ed.
  destruct (deferAll_rows env runs rows _ _ _ _ _ _ Hf Hnd Hin Hw Hok Ed)
    as (Hw1 & Hok1 & Hcnt & Hlen & Hset & Hre & Hcar).
  destruct err as [e|]; [exists s1, i1, (Some e); split_and!; auto; try done; intros; by apply Hcar|].
  destruct (IH i1 s1) as (s' & n & err & Hrun & Hn & Hz & Hset' & Hre' & Hcar'); [done|done| |].
  { inversion Hf; subst. specialize (Hlen eq_refl). simpl in Hlen. lia. }
  exists s', n, err. split; [exact Hrun|]. split; [lia|]. split; [done|]. split; [|split; [auto|]].
  2: { intros x Lx A Sx C. destruct (Hcar x Lx A Sx C) as (A1 & S1 & C1). by apply Hcar'. }
  intros r Hr Hl. destruct (Hset r Hr Hl) as [H1|H1]; [left; by apply Hre'|by apply Hset'].
Qed.

(** C37: Boot recovery returns and loses nothing.  The recovery loop always ends:
    either without error, and then no live message, however old, is left, every message
    that was live is marked deferred and found in the queue under its own key, and the
    reported count is their number; or with an error, and then every live message
    is either re-homed in that way or still live and unchanged in the mailbox.  What the
    queue holds under the key is the message, with its person, text and files, unless
    the queue had a row under the key before; the keys of two messages differ, as the
    random ids [AcceptSteering] gives do. *)
Theorem steering_boot_recovery (env : nat -> string * Time * Time) (runs : list Run)
    (s : SteerState Q) :
  mail_wf (mail s) -> tq_ok (queue s) ->
  exists s' n err, RecoverSteeringAtBoot env runs s = Some (s', n, err) /\
    (err = None -> live_count s' = 0%nat /\ n = live_count s) /\
    forall r, lookup_key (s_id r) (mail s) = Some r -> live_steering r = true ->
      (exists now d, lookup_key (s_id r) (mail s') = Some (set_status SteeringDeferred now r) /\
         tq_by_key (s_tenant_id r) ("steering:" +:+ s_id r) (queue s') = Ok (Some d) /\
         ((forall x, In x (mail s) -> TrimSpace ("steering:" +:+ s_id x) = TrimSpace ("steering:" +:+ s_id r) -> s_id x = s_id r) ->
          tq_by_key (s_tenant_id r) ("steering:" +:+ s_id r) (queue s) = Ok None ->
          t_Content d = s_content r /\ t_PersonID d = s_person_id r /\ s_attachments_json r = JVal (t_Attachments d))) \/
      (err <> None /\ lookup_key (s_id r) (mail s') = Some r).
Proof.
  intros Hw Hok. unfold RecoverSteeringAtBoot.
  destruct (recover_loop_total env runs (S (live_count s)) 0 s Hw Hok) as
    (s' & n & err & Hrun & Hn & Hz & Hset & _ & Hcar); [lia|].
  exists s', n, err. split; [done|]. split; [intros He; specialize (Hz He); lia|].
  intros r Hr Hl. destruct (Hset r Hr Hl) as [[Hh [now Hm]]|Hk].
  - left. destruct (homed_found r _ Hh) as [d Hd]. exists now, d. split; [done|]. split; [done|]. intros A N.
    destruct (Hcar r Hl A (or_intror Hr) (or_introl N)) as [C|(d' & C & P)]; unfold steering_key in C; rewrite Hd in C; [done|].
    by injection C as ->.
  - right. split; [|done]. intros He. by eapply live_count_zero; [apply Hz|..].
Qed.
End Handoff.

(** ** Concrete instances *)

Definition steered_run : Run :=
  mkRun "run_1" "work" "thread_1" "default" "alice" "ws" (JVal []) "cli" "" "" "" "" 3 "running" 5
    None (Some 5%Z) false 0 "" SNone.

Definition photo : AttachmentRef := mkAttachmentRef "image" "/tmp/a.png" "image/png" "a.png" 10.

Definition sample_guidance : SteeringMessage :=
  mkSteeringMessage "" "" "alice" "run_1" "" "cli" "cli" "acct" "ws" "" "use the second file" "" false
    [photo] [] false "" ZeroTime ZeroTime.

Definition guided : SteerState (list QueueRow) :=
  mkSteerState (exec_mails [SAccept "u1" (TimeOfUnix 10) [steered_run] sample_guidance] []) [].

Definition guidance_row (status : string) (updated : Z) : SteeringRow :=
  mkSteeringRow "steer_u1" "default" "alice" "run_1" "" "cli" "cli" "acct" "ws" ""
    "use the second file" "4bc62eb52eecd41617d932cce0a7790d" status 10 updated (JVal [photo]) None.

Lemma guided_wf : mail_wf (mail guided).
Proof. apply exec_mails_wf, mail_wf_nil. Qed.

Lemma guided_mail : mail guided = [guidance_row "accepted" 10].
Proof. vm_compute. reflexivity. Qed.

(** The files in the queue rows of a state. *)
Definition queued_files (s : SteerState (list QueueRow)) : list (jcol (list AttachmentRef)) :=
  map q_attachments_json (queue s).

(** Queueing a classified input drops its files.  For one accepted message with
    an attachment, the deferral of the unconsumed message enqueues the attachment
    with it, while the model's own hand-off of the same message as independent work
    enqueues it without. *)
Theorem queued_steering_drops_attachments :
  let '(s1, out1) := QueueSteeringAsIndependent "u2" (TimeOfUnix 20) (TimeOfUnix 20) [steered_run]
                       "" "alice" "run_1" "steer_u1" guided in
  let '(s2, out2) := DeferSteering "u2" (TimeOfUnix 20) (TimeOfUnix 20) [steered_run]
    (sample_guidance <| m_ID := "steer_u1" |> <| m_TenantID := "default" |>) guided in
  option_map s_attachments_json (lookup_key "steer_u1" (mail guided)) = Some (JVal [photo]) /\
  is_ok out1 = true /\ queued_files s1 = [JVal []] /\
  is_ok out2 = true /\ queued_files s2 = [JVal [photo]].
Proof. vm_compute. repeat split. Qed.

Lemma steering_lifecycle_witness :
  exists r, lookup_key "steer_u1" (exec_mails [SClaimed (TimeOfUnix 20) "" "steer_u1";
    SConsumeID (TimeOfUnix 30) "" "run_1" "steer_u1"] (mail guided)) = Some r /\
    same_message (guidance_row "accepted" 10) r.
Proof.
  destruct (steering_lifecycle (mail guided) "steer_u1" (guidance_row "accepted" 10)
    [SClaimed (TimeOfUnix 20) "" "steer_u1"; SConsumeID (TimeOfUnix 30) "" "run_1" "steer_u1"])
    as (r & H1 & H2 & _).
  - apply guided_wf.
  - vm_compute. reflexivity.
  - exists r. split; [exact H1|exact H2].
Defined.

(** The message as the mailbox reads it back. *)
Definition guidance_message : SteeringMessage :=
  mkSteeringMessage "steer_u1" "default" "alice" "run_1" "" "cli" "cli" "acct" "ws" ""
    "use the second file" "4bc62eb52eecd41617d932cce0a7790d" false [photo] [] false "accepted"
    (TimeOfUnix 10) (TimeOfUnix 10).

Definition deferred_task : QueuedTask :=
  steeringTask "default" "alice" "" "" guidance_message "ws" [] [photo] "steering:steer_u1".

Lemma defer_crash_replay_witness :
  let s1 := fst (deferEnqueue "u2" (TimeOfUnix 20) [steered_run] guidance_message guided) in
  let q2 := exec_ops [OpClaim "c" (TimeOfUnix 30) "" "queue_u2" 0%Z] (queue s1) in
  queue (fst (DeferSteering "u3" (TimeOfUnix 40) (TimeOfUnix 41) [] guidance_message
    (mkSteerState (mail s1) q2))) = q2.
Proof.
  intros s1 q2.
  pose proof (defer_crash_replay guided s1 (guidance_row "accepted" 10) guidance_message "u2" "u3"
    (TimeOfUnix 20) (TimeOfUnix 40) (TimeOfUnix 41) [steered_run] []
    (prepareQueued "u2" (TimeOfUnix 20) deferred_task zeroSnapshot) deferred_task q2) as H.
  destruct (DeferSteering "u3" (TimeOfUnix 40) (TimeOfUnix 41) [] guidance_message
    (mkSteerState (mail s1) q2)) as [s3 out].
  apply H.
  - apply guided_wf.
  - apply queue_wf_nil.
  - vm_compute. reflexivity.
  - reflexivity.
  - reflexivity.
  - reflexivity.
  - reflexivity.
  - vm_compute. reflexivity.
  - eexists. reflexivity.
  - vm_compute. reflexivity.
Defined.

Lemma queue_work_retry_witness :
  let s1 := fst (queueSteeringAsWork "u2" (TimeOfUnix 20) (TimeOfUnix 20) [steered_run]
                   "" "alice" "run_1" "steer_u1" "" guided) in
  exists d, queueSteeringAsWork "u3" (TimeOfUnix 30) (TimeOfUnix 30) [] "" "alice" "run_1" "steer_u1" ""
      (mkSteerState (mail s1) (queue s1)) = (mkSteerState (mail s1) (queue s1), Ok d) /\
    t_ID d = "queue_u2".
Proof.
  intros s1.
  apply (queue_work_retry guided s1 "u2" "u3" (TimeOfUnix 20) (TimeOfUnix 20) (TimeOfUnix 30)
    (TimeOfUnix 30) [steered_run] [] "" "alice" "run_1" "steer_u1" ""
    (prepareQueued "u2" (TimeOfUnix 20)
       (steeringTask "default" "alice" "" "" guidance_message "ws" [] []
          "steering-independent:steer_u1") zeroSnapshot)).
  - apply guided_wf.
  - apply queue_wf_nil.
  - rewrite guided_mail. intros r [<-|[]]. discriminate.
  - vm_compute. reflexivity.
  - apply tq_later_refl.
Defined.

Lemma steering_boot_recovery_witness :
  exists s' n err d, RecoverSteeringAtBoot (fun i => ("u2", TimeOfUnix 20, TimeOfUnix 20)) [steered_run]
    guided = Some (s', n, err) /\ tq_by_key "default" "steering:steer_u1" (queue s') = Ok (Some d) /\
    t_Content d = "use the second file" /\ t_Attachments d = [photo].
Proof.
  destruct (steering_boot_recovery (fun i => ("u2", TimeOfUnix 20, TimeOfUnix 20)) [steered_run] guided)
    as (s' & n & err & H & _ & K).
  - apply guided_wf.
  - apply queue_wf_nil.
  - assert (match RecoverSteeringAtBoot (fun i => ("u2", TimeOfUnix 20, TimeOfUnix 20)) [steered_run] guided with
            | Some (_, _, None) => true | _ => false end = true) as E by (by vm_compute).
    rewrite H in E. destruct err as [e|]; [discriminate E|].
    destruct (K (guidance_row "accepted" 10)) as [(now & d & _ & F & P)|[N _]]; [by rewrite guided_mail|done| |done].
    destruct P as (P1 & _ & P3); [intros x; rewrite guided_mail; by intros [<-|[]]|done|].
    exists s', n, None, d. split; [exact H|]. split; [exact F|]. split; [exact P1|]. by injection P3 as <-.
Defined.
