(* ===== verification/Paths.v ===== *)
(** * Filesystem roots of the worker pool
      ([internal/runpool/pool.go], [physical_path.go])

    A path is its cleaned form: rooted or relative, and its components.  What the
    operating system answers is an argument of the definitions that ask for it:
    the working directory, [os.Stat] (the identity of an existing file) and
    [filepath.EvalSymlinks]. *)

From stdpp Require Import base tactics list strings.
From Stdlib Require Import ZArith Lia Bool Ascii String List Permutation.
From S2P Require Import Prelude GoLib Sql.

(** ** [path/filepath] on cleaned paths *)

Record path := mkPath { p_abs : bool; p_comps : list string }.

#[export] Instance path_eq_dec : EqDecision path.
Proof. solve_decision. Defined.

(** The slash-separated elements of a string. *)
Fixpoint split_slash (s : string) : list string :=
  match s with
  | EmptyString => [EmptyString]
  | String c rest =>
      if Ascii.eqb c "/" then EmptyString :: split_slash rest
      else match split_slash rest with
           | [] => [String c EmptyString]
           | e :: l => String c e :: l
           end
  end.

(** [filepath.Clean], element by element; [out] is the result so far, reversed. *)
Fixpoint clean_elems (rooted : bool) (out : list string) (l : list string) : list string :=
  match l with
  | [] => rev out
  | e :: rest =>
      if (e =? "")%string || (e =? ".")%string then clean_elems rooted out rest
      else if (e =? "..")%string then
        match out with
        | prev :: out' =>
            if (prev =? "..")%string then clean_elems rooted (".." :: out) rest
            else clean_elems rooted out' rest
        | [] => if rooted then clean_elems rooted [] rest else clean_elems rooted [".."] rest
        end
      else clean_elems rooted (e :: out) rest
  end.

Definition Clean (s : string) : path :=
  let rooted := HasPrefix s "/" in
  mkPath rooted (clean_elems rooted [] (split_slash s)).

Fixpoint join_elems (l : list string) : string :=
  match l with
  | [] => ""
  | [e] => e
  | e :: rest => e +:+ "/" +:+ join_elems rest
  end.

(** The string of a cleaned path. *)
Definition path_string (p : path) : string :=
  match p_abs p, p_comps p with
  | true, l => "/" +:+ join_elems l
  | false, [] => "."
  | false, l => join_elems l
  end.

(** [filepath.Abs] from the working directory [cwd]. *)
Definition Abs (cwd : path) (s : string) : path :=
  let p := Clean s in
  if p_abs p then p
  else mkPath (p_abs cwd) (clean_elems (p_abs cwd) [] (p_comps cwd ++ p_comps p)).

Definition Dir (p : path) : path := mkPath (p_abs p) (removelast (p_comps p)).

(** [filepath.Join] of a cleaned path and relative elements. *)
Definition Join (p : path) (tail : list string) : path :=
  mkPath (p_abs p) (clean_elems (p_abs p) [] (p_comps p ++ tail)).

(** What is left of [target] after the elements of [root], if those are a prefix. *)
Fixpoint strip_prefix (root target : list string) : option (list string) :=
  match root, target with
  | [], _ => Some target
  | a :: root, b :: target => if (a =? b)%string then strip_prefix root target else None
  | _ :: _, [] => None
  end.

(** [filepath.Rel] succeeds with a result that does not climb out of the root: the
    root's elements are a prefix of the target's, and the rest does not start with
    "..". *)
Definition pathWithin (root target : path) : bool :=
  Bool.eqb (p_abs root) (p_abs target)
  && match strip_prefix (p_comps root) (p_comps target) with
     | Some (e :: _) => negb (e =? "..")%string
     | Some [] => true
     | None => false
     end.

Section Filesystem.
(** [os.Stat]: the identity of the file a path names, as [os.SameFile] compares it. *)
Context (stat : path -> option Z) (evalSymlinks : path -> option path) (cwd : path).

(** The parents of a path, nearest first, each with the elements below it; the
    path itself comes first. *)
Fixpoint anchors (fuel : nat) (p : path) (tail : list string) : list (path * list string) :=
  match fuel with
  | O => []
  | S fuel =>
      (p, tail) ::
      match p_comps p with
      | [] => []
      | l => anchors fuel (Dir p) (last l "" :: tail)
      end
  end.

Definition ancestry (p : path) : list (path * list string) := anchors (S (length (p_comps p))) p [].

(** The deepest existing ancestor, the elements below it, and its identity. *)
Definition existingPathAnchor (p : path) : option (path * list string * Z) :=
  head (omap (fun a => match stat (fst a) with Some i => Some (a, i) | None => None end) (ancestry p)).

Definition relative (tail : list string) : path := mkPath false (clean_elems false [] tail).

(** The walk from the target's anchor upwards; it stops at the first ancestor that
    is the root's anchor, and when an ancestor cannot be read. *)
Fixpoint anchor_walk (rootInfo : Z) (rootTail : list string) (l : list (path * list string)) : bool :=
  match l with
  | [] => false
  | (p, tail) :: rest =>
      match stat p with
      | None => false
      | Some info =>
          if (rootInfo =? info)%Z then pathWithin (relative rootTail) (relative tail)
          else anchor_walk rootInfo rootTail rest
      end
  end.

(** The ancestry from the first path that exists. *)
Fixpoint from_existing (l : list (path * list string)) : list (path * list string) :=
  match l with
  | [] => []
  | a :: rest => match stat (fst a) with Some _ => a :: rest | None => from_existing rest end
  end.

Definition physicalPathWithin (root target : path) : bool :=
  match existingPathAnchor root with
  | None => false
  | Some (_, rootTail, rootInfo) => anchor_walk rootInfo rootTail (from_existing (ancestry target))
  end.

Definition pathsOverlap (a b : path) : bool :=
  pathWithin a b || pathWithin b a || physicalPathWithin a b || physicalPathWithin b a.

(** The first ancestor whose links resolve, with the elements below it put back;
    the path itself when none does. *)
Definition canonicalClaimPath (p : path) : path :=
  match head (omap (fun a => match evalSymlinks (fst a) with
                             | Some r => Some (Join r (snd a)) | None => None end) (ancestry p)) with
  | Some q => q
  | None => p
  end.

Fixpoint normalize_loop (seen : list path) (paths : list string) : list path :=
  match paths with
  | [] => []
  | s :: rest =>
      let s := TrimSpace s in
      if (s =? "")%string then normalize_loop seen rest else
      let p := canonicalClaimPath (Abs cwd s) in
      if existsb (fun q => bool_decide (q = p)) seen then normalize_loop seen rest
      else p :: normalize_loop (p :: seen) rest
  end.

(** [sort.Strings] of the distinct canonical paths. *)
Definition normalizePaths (paths : list string) : list path :=
  order_by (fun a b => String.leb (path_string a) (path_string b)) (normalize_loop [] paths).

Definition paths_conflict (a b : list path) : bool :=
  existsb (fun left => existsb (fun right => pathsOverlap left right) b) a.

Definition PathsConflict (a b : list string) : bool :=
  paths_conflict (normalizePaths a) (normalizePaths b).

(** ** Lemmas *)

Lemma pathsOverlap_sym a b : pathsOverlap a b = pathsOverlap b a.
Proof.
  unfold pathsOverlap.
  destruct (pathWithin a b), (pathWithin b a), (physicalPathWithin a b), (physicalPathWithin b a); done.
Qed.

Lemma paths_conflict_spec a b :
  paths_conflict a b = true <-> exists x y, In x a /\ In y b /\ pathsOverlap x y = true.
Proof.
  unfold paths_conflict. rewrite existsb_exists. split.
  - intros (x & Hx & (y & Hy & Ho)%existsb_exists). eauto.
  - intros (x & y & Hx & Hy & Ho). exists x. split; [done|]. apply existsb_exists. eauto.
Qed.

Lemma paths_conflict_sym a b : paths_conflict a b = paths_conflict b a.
Proof.
  apply eq_true_iff_eq. rewrite !paths_conflict_spec.
  split; intros (x & y & Hx & Hy & Ho); exists y, x; rewrite pathsOverlap_sym; done.
Qed.

Lemma strip_prefix_app a b : strip_prefix a (a ++ b) = Some b.
Proof. induction a as [|x a IH]; simpl; [done|]. by rewrite String.eqb_refl. Qed.

Lemma strip_prefix_Some a b c : strip_prefix a b = Some c -> b = a ++ c.
Proof.
  revert b. induction a as [|x a IH]; intros [|y b]; simpl; intros E; simplify_eq; try done.
  case_if; [|done]. reflect_bools. subst. f_equal. by apply IH.
Qed.

(** Two prefixes of one list are prefixes of one another. *)
Lemma prefixes_comparable {A} (a b x y : list A) :
  a ++ x = b ++ y -> (exists z, b = a ++ z) \/ (exists z, a = b ++ z).
Proof.
  revert b. induction a as [|h a IH]; intros [|g b] E; simpl in E; simplify_eq; eauto.
  destruct (IH b) as [[z ->]|[z ->]]; [done|left|right]; by exists z.
Qed.

Lemma pathWithin_prefix root target :
  ~ In ".." (p_comps target) ->
  pathWithin root target = true <->
  p_abs root = p_abs target /\ exists rest, p_comps target = p_comps root ++ rest.
Proof.
  intros Hdd. unfold pathWithin. rewrite andb_true_iff, Bool.eqb_true_iff. split.
  - intros [Ha Hs]. split; [done|].
    destruct (strip_prefix _ _) as [l|] eqn:E; [|done]. exists l. by apply strip_prefix_Some.
  - intros [Ha [rest Hr]]. split; [done|]. rewrite Hr, strip_prefix_app.
    destruct rest as [|e rest]; [done|]. apply negb_true_iff, String.eqb_neq. intros ->.
    apply Hdd. rewrite Hr. apply in_or_app. right. by left.
Qed.

(** Roots that do not overlap share no path.  If a cleaned path lies lexically
    under two roots, the pool treats the two roots as overlapping; so writers the
    pool lets run at the same time on given roots cannot name a common file. *)
Theorem shared_path_overlaps (a b x : path) :
  ~ In ".." (p_comps x) -> pathWithin a x = true -> pathWithin b x = true ->
  pathsOverlap a b = true.
Proof.
  intros Hx [Ha [ra Hra]]%pathWithin_prefix [Hb [rb Hrb]]%pathWithin_prefix; [|done..].
  rewrite Hra in Hrb.
  assert (~ In ".." (p_comps a) /\ ~ In ".." (p_comps b)) as [Hda Hdb].
  { split; intros Hin; apply Hx; [rewrite Hra|rewrite Hra, Hrb]; apply in_or_app; by left. }
  unfold pathsOverlap.
  destruct (prefixes_comparable _ _ _ _ Hrb) as [[z Hz]|[z Hz]].
  - assert (pathWithin a b = true) as ->; [|done]. apply pathWithin_prefix; [done|]. split; [congruence|eauto].
  - assert (pathWithin b a = true) as ->; [|by rewrite orb_true_r].
    apply pathWithin_prefix; [done|]. split; [congruence|eauto].
Qed.
End Filesystem.

(** An operating system on which only the root directory exists. *)
Definition bare_stat (p : path) : option Z := match p_comps p with [] => Some 1%Z | _ => None end.

Example clean_dotdot : Clean "/repo//a/./../packages/" = mkPath true ["repo"; "packages"].
Proof. reflexivity. Qed.

Example add_dir_overlaps :
  PathsConflict bare_stat (fun _ => None) (mkPath true []) ["/repo"] ["/repo/packages/shared"] = true.
Proof. vm_compute. reflexivity. Qed.

Example siblings_do_not_overlap :
  PathsConflict bare_stat (fun _ => None) (mkPath true []) ["/repo/a"; "/x"] ["/repo/ab"; "y"] = false.
Proof. vm_compute. reflexivity. Qed.

Lemma shared_path_overlaps_witness :
  pathsOverlap bare_stat (Clean "/repo") (Clean "/repo/packages") = true.
Proof.
  apply (shared_path_overlaps bare_stat _ _ (Clean "/repo/packages/shared")).
  - simpl. intuition discriminate.
  - reflexivity.
  - reflexivity.
Defined.
