(* ===== verification/RunPool.v ===== *)
(** * Worker pool ([internal/runpool/pool.go])

    Goroutines that call [Run] or [RunObservedPaths] share the pool's semaphore, its
    key locks (heap objects reached through a map, reference counted) and its path
    claims.  A [World] is that shared state and the program counter of every
    goroutine; a step runs one goroutine up to its next blocking point or critical
    section, so every interleaving is a sequence of steps.  A step that cannot run
    (a full channel, an empty one, no wake-up yet) is not enabled. *)

From stdpp Require Import base tactics list strings gmap.
From Stdlib Require Import ZArith Lia Bool Ascii String List.
From S2P Require Import Prelude Sql Paths.

Record keyLock := mkKeyLock {
  kl_full : bool;    (* the 1-capacity channel holds its token *)
  kl_refs : Z
}.

(** [pathChanged] is the number of times the channel was closed and replaced. *)
Record Pool := mkPool {
  workers : nat;
  sem : nat;
  heap : gmap nat keyLock;
  nextPtr : nat;
  keyLocks : gmap string nat;
  pathClaims : gmap N (list path);
  pathChanged : nat;
  nextPathClaim : N
}.

#[export] Instance Pool_eta : Eta Pool := fun p =>
  mkPool (workers p) (sem p) (heap p) (nextPtr p) (keyLocks p) (pathClaims p) (pathChanged p)
    (nextPathClaim p).

Definition New (n : Z) : Pool :=
  mkPool (Z.to_nat (if (n <? 1)%Z then 1 else n)) 0 ∅ 0 ∅ ∅ 0 0.

(** What a goroutine asked for: [Run] with a key, or [RunObservedPaths] with its
    normalised paths. *)
Inductive resource : Type :=
| RKey (k : string)
| RPaths (ps : list path).

(** Where it is.  [claim] is the path claim it holds, 0 for none. *)
Inductive pc : Type :=
| Start
| TryKey (ptr : nat)
| WaitKey (ptr : nat)
| CancelKey
| WaitPaths (changed : nat)
| HaveResource (claim : N)
| WaitWorker (claim : N)
| Running (claim : N)
| Unlock (claim : N)
| Done.

#[export] Instance pc_eq_dec : EqDecision pc.
Proof. solve_decision. Defined.

Record job := mkJob { job_res : resource; job_pc : pc }.

Record World := mkWorld { pool : Pool; jobs : list job }.

#[export] Instance World_eta : Eta World := fun w => mkWorld (pool w) (jobs w).

Section Pool.
Context (stat : path -> option Z).

Definition pathsConflictLocked (p : Pool) (candidate : list path) : bool :=
  existsb (fun held => paths_conflict stat candidate (snd held)) (map_to_list (pathClaims p)).

(** The critical section of [lockKey]: find or make the key's lock, take a reference. *)
Definition lockKey_enter (k : string) (p : Pool) : Pool * nat :=
  match keyLocks p !! k with
  | Some ptr =>
      match heap p !! ptr with
      | Some kl => (p <| heap := <[ptr := mkKeyLock (kl_full kl) (kl_refs kl + 1)]> (heap p) |>, ptr)
      | None => (p, ptr)
      end
  | None =>
      let ptr := nextPtr p in
      (p <| heap := <[ptr := mkKeyLock false 1]> (heap p) |> <| nextPtr := S ptr |>
         <| keyLocks := <[k := ptr]> (keyLocks p) |>, ptr)
  end.

(** [kl.ch <- struct{}{}]: [None] when the channel is full. *)
Definition send_key (ptr : nat) (p : Pool) : option Pool :=
  match heap p !! ptr with
  | Some kl => if kl_full kl then None
               else Some (p <| heap := <[ptr := mkKeyLock true (kl_refs kl)]> (heap p) |>)
  | None => None
  end.

(** Drop one reference of the lock at [ptr], with the channel set to [full]. *)
Definition drop_ref (k : string) (ptr : nat) (full : bool) (kl : keyLock) (p : Pool) : Pool :=
  let p := p <| heap := <[ptr := mkKeyLock full (kl_refs kl - 1)]> (heap p) |> in
  if (kl_refs kl - 1 =? 0)%Z then p <| keyLocks := delete k (keyLocks p) |> else p.

Definition releaseRef (k : string) (p : Pool) : Pool :=
  match keyLocks p !! k with
  | Some ptr => match heap p !! ptr with
                | Some kl => drop_ref k ptr (kl_full kl) kl p
                | None => p
                end
  | None => p
  end.

(** [unlockKey] receives from the channel inside its critical section: [None] when
    the channel is empty, that is, when the mutex would be held forever. *)
Definition unlockKey (k : string) (p : Pool) : option Pool :=
  match keyLocks p !! k with
  | Some ptr => match heap p !! ptr with
                | Some kl => if kl_full kl then Some (drop_ref k ptr false kl p) else None
                | None => Some p
                end
  | None => Some p
  end.

(** One pass of the loop of [lockPaths]: a claim, or the channel to wait on. *)
Definition lockPaths_try (ps : list path) (p : Pool) : Pool * pc :=
  match ps with
  | [] => (p, HaveResource 0)
  | _ =>
      if pathsConflictLocked p ps then (p, WaitPaths (pathChanged p))
      else
        let id := (nextPathClaim p + 1)%N in
        (p <| nextPathClaim := id |> <| pathClaims := <[id := ps]> (pathClaims p) |>, HaveResource id)
  end.

Definition unlockPaths (id : N) (p : Pool) : Pool :=
  if (id =? 0)%N then p
  else p <| pathClaims := delete id (pathClaims p) |> <| pathChanged := S (pathChanged p) |>.

(** [p.sem <- struct{}{}] and [<-p.sem]. *)
Definition take_slot (p : Pool) : option Pool :=
  if (sem p <? workers p)%nat then Some (p <| sem := S (sem p) |>) else None.

Definition free_slot (p : Pool) : option Pool :=
  match sem p with O => None | S n => Some (p <| sem := n |>) end.

(** The next step of a goroutine that is not cancelled; [None] when it is blocked. *)
Definition go (j : job) (p : Pool) : option (Pool * pc) :=
  match job_pc j with
  | Start =>
      match job_res j with
      | RKey k => if (k =? "")%string then Some (p, HaveResource 0)
                  else let '(p, ptr) := lockKey_enter k p in Some (p, TryKey ptr)
      | RPaths ps => Some (lockPaths_try ps p)
      end
  | TryKey ptr =>
      match send_key ptr p with
      | Some p => Some (p, HaveResource 0)
      | None => Some (p, WaitKey ptr)
      end
  | WaitKey ptr => option_map (fun p => (p, HaveResource 0)) (send_key ptr p)
  | CancelKey =>
      match job_res j with RKey k => Some (releaseRef k p, Done) | RPaths _ => Some (p, Done) end
  | WaitPaths changed =>
      if (changed =? pathChanged p)%nat then None
      else match job_res j with RPaths ps => Some (lockPaths_try ps p) | RKey _ => None end
  | HaveResource c =>
      match take_slot p with
      | Some p => Some (p, Running c)
      | None => Some (p, WaitWorker c)
      end
  | WaitWorker c => option_map (fun p => (p, Running c)) (take_slot p)
  | Running c => option_map (fun p => (p, Unlock c)) (free_slot p)
  | Unlock c =>
      match job_res j with
      | RKey k => if (k =? "")%string then Some (p, Done)
                  else option_map (fun p => (p, Done)) (unlockKey k p)
      | RPaths _ => Some (unlockPaths c p, Done)
      end
  | Done => None
  end.

(** [ctx.Done()] is taken at a blocking point. *)
Definition cancel (j : job) : option pc :=
  match job_pc j with
  | WaitKey _ => Some CancelKey
  | WaitPaths _ => Some Done
  | WaitWorker c => Some (Unlock c)
  | _ => None
  end.

Inductive event : Type :=
| Spawn (r : resource)
| Go (i : nat)
| Cancel (i : nat).

Definition step (e : event) (w : World) : option World :=
  match e with
  | Spawn r => Some (w <| jobs := jobs w ++ [mkJob r Start] |>)
  | Go i =>
      match jobs w !! i with
      | Some j => option_map (fun o => mkWorld (fst o) (<[i := mkJob (job_res j) (snd o)]> (jobs w)))
                    (go j (pool w))
      | None => None
      end
  | Cancel i =>
      match jobs w !! i with
      | Some j => option_map (fun c => w <| jobs := <[i := mkJob (job_res j) c]> (jobs w) |>) (cancel j)
      | None => None
      end
  end.

Fixpoint run (es : list event) (w : World) : option World :=
  match es with
  | [] => Some w
  | e :: es => match step e w with Some w => run es w | None => None end
  end.

(** The worlds a pool of [n] workers can reach. *)
Definition reachable (n : Z) (w : World) : Prop := exists es, run es (mkWorld (New n) []) = Some w.
End Pool.

(** ** Counting goroutines *)

Definition total (f : job -> nat) (l : list job) : nat := fold_right (fun j n => (f j + n)%nat) 0%nat l.

Lemma total_insert f l i x y :
  l !! i = Some x -> (total f (<[i := y]> l) + f x = total f l + f y)%nat.
Proof.
  revert i. induction l as [|a l IH]; intros [|i] E; simplify_eq/=; [lia|].
  specialize (IH i E). lia.
Qed.

Lemma total_snoc f l x : total f (l ++ [x]) = (total f l + f x)%nat.
Proof. induction l as [|a l IH]; simpl; [lia|]. rewrite IH. lia. Qed.

Lemma total_pos f l i x : l !! i = Some x -> (f x <= total f l)%nat.
Proof.
  revert i. induction l as [|a l IH]; intros [|i] E; simplify_eq/=; [lia|].
  specialize (IH i E). lia.
Qed.

Lemma total_two f l i j x y :
  i <> j -> l !! i = Some x -> l !! j = Some y -> (f x + f y <= total f l)%nat.
Proof.
  revert i j. induction l as [|a l IH]; intros [|i] [|j] Hne Ei Ej; simplify_eq/=; try done.
  - pose proof (total_pos f l j y Ej). lia.
  - pose proof (total_pos f l i x Ei). lia.
  - specialize (IH i j ltac:(lia) Ei Ej). lia.
Qed.

Lemma total_find f l : (0 < total f l)%nat -> exists i x, l !! i = Some x /\ (0 < f x)%nat.
Proof.
  induction l as [|a l IH]; simpl; [lia|]. intros H. destruct (f a) as [|n] eqn:E.
  - destruct IH as (i & x & ? & ?); [lia|]. by exists (S i), x.
  - exists 0%nat, a. split; [done|lia].
Qed.

(** The goroutine occupies a worker slot. *)
Definition slots (j : job) : nat := match job_pc j with Running _ => 1 | _ => 0 end.

(** It holds a reference to the lock of key [k]. *)
Definition refs (k : string) (j : job) : nat :=
  match job_res j with
  | RKey k' =>
      if bool_decide (k' = k) then
        match job_pc j with
        | Start | WaitPaths _ | Done => 0
        | _ => 1
        end
      else 0
  | RPaths _ => 0
  end.

(** It holds the key [k] itself. *)
Definition holds (k : string) (j : job) : nat :=
  match job_res j with
  | RKey k' =>
      if bool_decide (k' = k) then
        match job_pc j with
        | HaveResource _ | WaitWorker _ | Running _ | Unlock _ => 1
        | _ => 0
        end
      else 0
  | RPaths _ => 0
  end.

(** The path claim it holds. *)
Definition claim_of (j : job) : option (N * list path) :=
  match job_res j, job_pc j with
  | RPaths ps, (HaveResource c | WaitWorker c | Running c | Unlock c) =>
      if (c =? 0)%N then None else Some (c, ps)
  | _, _ => None
  end.

(** The lock pointer it waits on. *)
Definition waits_on (j : job) : option nat :=
  match job_pc j with TryKey p | WaitKey p => Some p | _ => None end.
