(* ===== verification/RunPoolTheory.v ===== *)
(** * Properties of the worker pool

    An invariant of every reachable world - slots, key locks and their reference
    counts, path claims - and what follows from it: the worker bound, exclusion of
    writers that share a key or overlap in paths, unlocks that never block, freedom
    from deadlock, and that nothing leaks. *)

From stdpp Require Import base tactics list strings gmap.
From Stdlib Require Import ZArith Lia Bool Ascii String List.
From S2P Require Import Prelude Sql Paths RunPool.

(** ** Slots *)

Record slot_inv (w : World) : Prop := {
  slot_sem : sem (pool w) = total slots (jobs w);
  slot_cap : (sem (pool w) <= workers (pool w))%nat;
  slot_workers : (1 <= workers (pool w))%nat
}.

(** ** Key locks *)

(** The lock of key [k], as the goroutines [l] hold it. *)
Definition lock_matches (l : list job) (k : string) (kl : keyLock) : Prop :=
  kl_refs kl = Z.of_nat (total (refs k) l) /\ (0 < total (refs k) l)%nat /\
  total (holds k) l = (if kl_full kl then 1 else 0)%nat.

Record key_inv (w : World) : Prop := {
  key_locked : forall k ptr, keyLocks (pool w) !! k = Some ptr ->
    (ptr < nextPtr (pool w))%nat /\ k <> "" /\
    exists kl, heap (pool w) !! ptr = Some kl /\ lock_matches (jobs w) k kl;
  key_unlocked : forall k, k <> "" -> keyLocks (pool w) !! k = None -> total (refs k) (jobs w) = 0%nat;
  key_inj : forall k k' ptr, keyLocks (pool w) !! k = Some ptr -> keyLocks (pool w) !! k' = Some ptr -> k = k';
  key_wait : forall i j ptr, jobs w !! i = Some j -> waits_on j = Some ptr ->
    exists k, job_res j = RKey k /\ k <> "" /\ keyLocks (pool w) !! k = Some ptr
}.

Lemma holds_le_refs k j : (holds k j <= refs k j)%nat.
Proof. unfold holds, refs. repeat case_match; lia. Qed.

(** A change of one goroutine that moves no key reference. *)
Lemma key_inv_same w p' i x y :
  key_inv w -> jobs w !! i = Some x ->
  heap p' = heap (pool w) -> keyLocks p' = keyLocks (pool w) -> nextPtr p' = nextPtr (pool w) ->
  job_res y = job_res x ->
  (forall k, k <> "" -> refs k y = refs k x /\ holds k y = holds k x) ->
  (waits_on y = None \/ waits_on y = waits_on x) ->
  key_inv (mkWorld p' (<[i := y]> (jobs w))).
Proof.
  intros [Hl Hu Hi Hw] Hx Hh Hk Hn Hr Hs Hwy. constructor; simpl; rewrite ?Hh, ?Hk, ?Hn; try done.
  - intros k ptr Hp. destruct (Hl k ptr Hp) as (H1 & H2 & kl & H3 & H4 & H5 & H6).
    split; [done|]. split; [done|]. exists kl. split; [done|].
    pose proof (total_insert (refs k) _ _ _ y Hx). pose proof (total_insert (holds k) _ _ _ y Hx).
    destruct (Hs k H2) as [E1 E2]. rewrite E1 in *. rewrite E2 in *.
    unfold lock_matches.
    replace (total (refs k) (<[i:=y]> (jobs w))) with (total (refs k) (jobs w)) by lia.
    replace (total (holds k) (<[i:=y]> (jobs w))) with (total (holds k) (jobs w)) by lia. done.
  - intros k Hne Hp. pose proof (total_insert (refs k) _ _ _ y Hx).
    destruct (Hs k Hne) as [E1 _]. rewrite E1 in *. specialize (Hu k Hne Hp). lia.
  - intros i' j ptr Hj Hwait. apply list_lookup_insert_Some in Hj as [(-> & <- & _)|[_ Hj]].
    + destruct Hwy as [E|E]; rewrite E in Hwait; [done|]. rewrite Hr. by eapply Hw.
    + by eapply Hw.
Qed.

(** The totals of key [k'] do not change when a goroutine of key [k] moves. *)
Lemma other_key_totals (l : list job) i x y k k' :
  l !! i = Some x -> job_res x = RKey k -> job_res y = RKey k -> k' <> k ->
  total (refs k') (<[i := y]> l) = total (refs k') l /\
  total (holds k') (<[i := y]> l) = total (holds k') l.
Proof.
  intros Hx Hrx Hry Hne.
  pose proof (total_insert (refs k') _ _ _ y Hx) as H1.
  pose proof (total_insert (holds k') _ _ _ y Hx) as H2.
  assert (forall j, job_res j = RKey k -> refs k' j = 0%nat /\ holds k' j = 0%nat) as Hz.
  { intros j Hj. unfold refs, holds. by rewrite Hj, bool_decide_eq_false_2 by congruence. }
  destruct (Hz x Hrx), (Hz y Hry). lia.
Qed.

(** A change of the lock of key [k] by a goroutine of that key. *)
Lemma key_inv_locked w i x y k ptr kl' p' :
  key_inv w -> jobs w !! i = Some x -> job_res x = RKey k -> job_res y = RKey k ->
  keyLocks (pool w) !! k = Some ptr ->
  heap p' = <[ptr := kl']> (heap (pool w)) -> keyLocks p' = keyLocks (pool w) ->
  nextPtr p' = nextPtr (pool w) ->
  lock_matches (<[i := y]> (jobs w)) k kl' ->
  (waits_on y = None \/ waits_on y = Some ptr) ->
  key_inv (mkWorld p' (<[i := y]> (jobs w))).
Proof.
  intros [Hl Hu Hi Hw] Hx Hrx Hry Hk Hh Hkl Hn Hm Hwy.
  constructor; simpl; rewrite ?Hh, ?Hkl, ?Hn; try done.
  - intros k' ptr' Hp'. destruct (Hl k' ptr' Hp') as (H1 & H2 & kl & H3 & H4).
    split; [done|]. split; [done|]. destruct (decide (k' = k)) as [->|Hne].
    + rewrite Hk in Hp'. injection Hp' as <-. exists kl'. by rewrite lookup_insert_eq.
    + assert (ptr' <> ptr) by (intros ->; apply Hne; by eapply Hi).
      exists kl. rewrite lookup_insert_ne by done. split; [done|]. unfold lock_matches.
      destruct (other_key_totals _ _ _ _ _ _ Hx Hrx Hry Hne) as [-> ->]. done.
  - intros k' Hne Hp'. assert (k' <> k) by congruence.
    destruct (other_key_totals _ _ _ _ _ _ Hx Hrx Hry H) as [-> _]. auto.
  - intros i' j ptr' Hj Hwait. apply list_lookup_insert_Some in Hj as [(-> & <- & _)|[_ Hj]].
    + destruct Hwy as [E|E]; rewrite E in Hwait; [done|]. injection Hwait as <-.
      exists k. split; [done|]. split; [|done]. by destruct (Hl k ptr Hk) as (_ & ? & _).
    + by eapply Hw.
Qed.

(** The reference of a goroutine keeps its lock in the map. *)
Lemma referenced_lock w i j k :
  key_inv w -> jobs w !! i = Some j -> job_res j = RKey k -> k <> "" -> refs k j = 1%nat ->
  exists ptr kl, keyLocks (pool w) !! k = Some ptr /\ heap (pool w) !! ptr = Some kl /\
    lock_matches (jobs w) k kl.
Proof.
  intros Hinv Hj Hr Hne Href. destruct (keyLocks (pool w) !! k) as [ptr|] eqn:E.
  - destruct (key_locked _ Hinv k ptr E) as (_ & _ & kl & ? & ?). eauto.
  - pose proof (key_unlocked _ Hinv k Hne E). pose proof (total_pos (refs k) _ _ _ Hj). lia.
Qed.

(** The reference counts of a goroutine at each program point. *)
Lemma refs_at k j : job_res j = RKey k ->
  refs k j = (match job_pc j with Start | WaitPaths _ | Done => 0 | _ => 1 end)%nat /\
  holds k j = (match job_pc j with
               | HaveResource _ | WaitWorker _ | Running _ | Unlock _ => 1 | _ => 0 end)%nat.
Proof. intros Hr. unfold refs, holds. rewrite Hr, bool_decide_eq_true_2 by done. done. Qed.

(** Entering [lockKey]. *)
Lemma key_inv_enter w i x k p' ptr :
  key_inv w -> jobs w !! i = Some x -> job_res x = RKey k -> job_pc x = Start -> k <> "" ->
  lockKey_enter k (pool w) = (p', ptr) ->
  key_inv (mkWorld p' (<[i := mkJob (RKey k) (TryKey ptr)]> (jobs w))).
Proof.
  intros Hinv Hx Hr Hpc Hne E. set (y := mkJob (RKey k) (TryKey ptr)).
  destruct (refs_at k x Hr) as [Rx Hx']. rewrite Hpc in Rx, Hx'.
  destruct (refs_at k y eq_refl) as [Ry Hy]. simpl in Ry, Hy.
  pose proof (total_insert (refs k) _ _ _ y Hx) as Tr.
  pose proof (total_insert (holds k) _ _ _ y Hx) as Th.
  unfold lockKey_enter in E. destruct (keyLocks (pool w) !! k) as [ptr0|] eqn:Ek.
  - destruct (key_locked _ Hinv k ptr0 Ek) as (_ & _ & kl & Hh & H1 & H2 & H3). rewrite Hh in E.
    injection E as <- <-.
    eapply (key_inv_locked w i x y k ptr0); try done; [|by right].
    unfold lock_matches. simpl. split; [lia|]. split; [lia|]. rewrite <- H3. lia.
  - injection E as <- <-. pose proof (key_unlocked _ Hinv k Hne Ek) as Hz.
    destruct Hinv as [Hl Hu Hi Hw].
    assert (total (holds k) (jobs w) = 0%nat) as Hz'.
    { destruct (total (holds k) (jobs w)) eqn:Et; [done|].
      destruct (total_find (holds k) (jobs w)) as (i' & j' & Hj' & Hpos); [lia|].
      pose proof (total_pos (refs k) _ _ _ Hj'). pose proof (holds_le_refs k j'). lia. }
    constructor; simpl.
    + intros k' ptr' Hp'. apply lookup_insert_Some in Hp' as [[<- <-]|[Hne' Hp']].
      * split; [lia|]. split; [done|]. eexists. rewrite lookup_insert_eq. split; [done|].
        unfold lock_matches. simpl. split; [lia|]. split; [lia|]. lia.
      * destruct (Hl k' ptr' Hp') as (H1 & H2 & kl & H3 & H4). split; [lia|]. split; [done|].
        exists kl. rewrite lookup_insert_ne by lia. split; [done|]. unfold lock_matches.
        destruct (other_key_totals _ _ _ y _ k' Hx Hr eq_refl) as [-> ->]; [done|done].
    + intros k' Hne' Hp'. apply lookup_insert_None in Hp' as [Hp' Hkk].
      destruct (other_key_totals _ _ _ y _ k' Hx Hr eq_refl) as [-> _]; [done|]. auto.
    + intros k1 k2 q Hk1 Hk2.
      apply lookup_insert_Some in Hk1 as [[<- <-]|[? Hk1]];
        apply lookup_insert_Some in Hk2 as [[<- ?]|[? Hk2]]; try done.
      * destruct (Hl _ _ Hk2). lia.
      * subst. destruct (Hl _ _ Hk1). lia.
      * by eapply Hi.
    + intros i' j ptr' Hj Hwait. apply list_lookup_insert_Some in Hj as [(-> & <- & _)|[_ Hj]].
      * injection Hwait as <-. exists k. rewrite lookup_insert_eq. done.
      * destruct (Hw i' j ptr' Hj Hwait) as (k' & H1 & H2 & H3). exists k'. split; [done|].
        split; [done|]. rewrite lookup_insert_ne; [done|]. congruence.
Qed.

(** Taking the key. *)
Lemma key_inv_send w i x ptr p' c :
  key_inv w -> jobs w !! i = Some x -> waits_on x = Some ptr -> send_key ptr (pool w) = Some p' ->
  key_inv (mkWorld p' (<[i := mkJob (job_res x) (HaveResource c)]> (jobs w))).
Proof.
  intros Hinv Hx Hwait E. destruct (key_wait _ Hinv _ _ _ Hx Hwait) as (k & Hr & Hne & Hk).
  destruct (key_locked _ Hinv k ptr Hk) as (_ & _ & kl & Hh & H1 & H2 & H3).
  unfold send_key in E. rewrite Hh in E. destruct (kl_full kl); [done|]. injection E as <-.
  set (y := mkJob (job_res x) (HaveResource c)).
  destruct (refs_at k x Hr) as [Rx Hx']. destruct (refs_at k y Hr) as [Ry Hy].
  assert (refs k x = 1%nat /\ holds k x = 0%nat) as [Rx1 Hx1].
  { rewrite Rx, Hx'. unfold waits_on in Hwait. by destruct (job_pc x). }
  simpl in Ry, Hy.
  pose proof (total_insert (refs k) _ _ _ y Hx). pose proof (total_insert (holds k) _ _ _ y Hx).
  eapply (key_inv_locked w i x y k ptr); try done; [|by left].
  unfold lock_matches. simpl. split; [lia|]. split; [lia|lia].
Qed.

(** Dropping a reference, with or without the key. *)
Lemma key_inv_drop w i x k ptr kl (full : bool) :
  key_inv w -> jobs w !! i = Some x -> job_res x = RKey k -> refs k x = 1%nat ->
  keyLocks (pool w) !! k = Some ptr -> heap (pool w) !! ptr = Some kl -> lock_matches (jobs w) k kl ->
  (if full then kl_full kl = true /\ holds k x = 0%nat
   else holds k x = 1%nat \/ kl_full kl = false) ->
  key_inv (mkWorld (drop_ref k ptr full kl (pool w)) (<[i := mkJob (RKey k) Done]> (jobs w))).
Proof.
  intros Hinv Hx Hr Rx Hk Hh (H1 & H2 & H3) Hfull. set (y := mkJob (RKey k) Done).
  destruct (refs_at k y eq_refl) as [Ry Hy]. simpl in Ry, Hy.
  pose proof (total_insert (refs k) _ _ _ y Hx) as Tr. pose proof (total_insert (holds k) _ _ _ y Hx) as Th.
  pose proof (holds_le_refs k x) as Hle.
  assert (total (holds k) (<[i:=y]> (jobs w)) = (if full then 1 else 0)%nat) as Hholds.
  { pose proof (total_pos (holds k) _ _ _ Hx) as Hpos.
    destruct full; [destruct Hfull as [Hf Hx0]; rewrite Hf in H3; lia|].
    destruct Hfull as [Hx1|Hf]; [destruct (kl_full kl); lia|rewrite Hf in H3; lia]. }
  unfold drop_ref. destruct (kl_refs kl - 1 =? 0)%Z eqn:Ez; reflect_bools.
  - destruct Hinv as [Hl Hu Hi Hw]. constructor; simpl.
    + intros k' ptr' Hp'. apply lookup_delete_Some in Hp' as [Hne' Hp'].
      destruct (Hl k' ptr' Hp') as (G1 & G2 & kl' & G3 & G4). split; [done|]. split; [done|].
      assert (ptr' <> ptr) by (intros ->; apply Hne'; by eapply Hi).
      exists kl'. rewrite lookup_insert_ne by done. split; [done|]. unfold lock_matches.
      destruct (other_key_totals _ _ _ y _ k' Hx Hr eq_refl) as [-> ->]; [done|done].
    + intros k' Hne' Hp'. destruct (decide (k' = k)) as [->|Hkk]; [lia|].
      rewrite lookup_delete_ne in Hp' by done.
      destruct (other_key_totals _ _ _ y _ k' Hx Hr eq_refl Hkk) as [-> _]. auto.
    + intros k1 k2 q [_ Hk1]%lookup_delete_Some [_ Hk2]%lookup_delete_Some. by eapply Hi.
    + intros i' j ptr' Hj Hwait. apply list_lookup_insert_Some in Hj as [(-> & <- & _)|[Hii Hj]]; [done|].
      destruct (Hw i' j ptr' Hj Hwait) as (k' & G1 & G2 & G3). exists k'. split; [done|].
      split; [done|]. rewrite lookup_delete_ne; [done|]. intros <-.
      assert (refs k j = 1%nat) as Rj.
      { destruct (refs_at k j G1) as [-> _]. unfold waits_on in Hwait. by destruct (job_pc j). }
      pose proof (total_two (refs k) _ _ _ _ _ Hii Hx Hj). lia.
  - eapply (key_inv_locked w i x y k ptr); try done; [|by left].
    unfold lock_matches. simpl. split; [lia|]. split; [lia|done].
Qed.

(** ** Path claims *)

Section Theory.
Context (stat : path -> option Z).

Record path_inv (w : World) : Prop := {
  path_held : forall i j c ps, jobs w !! i = Some j -> claim_of j = Some (c, ps) ->
    pathClaims (pool w) !! c = Some ps;
  path_unique : forall i i' j j' c ps ps', jobs w !! i = Some j -> jobs w !! i' = Some j' ->
    claim_of j = Some (c, ps) -> claim_of j' = Some (c, ps') -> i = i';
  path_owned : forall c ps, pathClaims (pool w) !! c = Some ps ->
    exists i j, jobs w !! i = Some j /\ claim_of j = Some (c, ps);
  path_range : forall c ps, pathClaims (pool w) !! c = Some ps -> (0 < c <= nextPathClaim (pool w))%N;
  path_disjoint : forall c c' ps ps', c <> c' -> pathClaims (pool w) !! c = Some ps ->
    pathClaims (pool w) !! c' = Some ps' -> paths_conflict stat ps ps' = false;
  path_wait : forall i j g, jobs w !! i = Some j -> job_pc j = WaitPaths g ->
    (g <= pathChanged (pool w))%nat /\ exists ps, job_res j = RPaths ps /\
      (g = pathChanged (pool w) -> pathsConflictLocked stat (pool w) ps = true)
}.

Lemma conflict_spec p ps :
  pathsConflictLocked stat p ps = true <->
  exists c held, pathClaims p !! c = Some held /\ paths_conflict stat ps held = true.
Proof.
  unfold pathsConflictLocked. rewrite existsb_exists. split.
  - intros ([c held] & Hin & Hc). exists c, held. split; [|done].
    apply elem_of_map_to_list. by apply list_elem_of_In.
  - intros (c & held & Hc & Hp). exists (c, held). split; [|done].
    apply list_elem_of_In. by apply elem_of_map_to_list.
Qed.

(** A change of one goroutine that moves no claim. *)
Lemma path_inv_same w p' i x y :
  path_inv w -> jobs w !! i = Some x ->
  pathClaims p' = pathClaims (pool w) -> pathChanged p' = pathChanged (pool w) ->
  nextPathClaim p' = nextPathClaim (pool w) ->
  claim_of y = claim_of x ->
  (forall g, job_pc y = WaitPaths g -> (g <= pathChanged (pool w))%nat /\
     exists ps, job_res y = RPaths ps /\ (g = pathChanged (pool w) -> pathsConflictLocked stat (pool w) ps = true)) ->
  path_inv (mkWorld p' (<[i := y]> (jobs w))).
Proof.
  intros [Hh Hu Ho Hr Hd Hw] Hx Hc Hg Hn Hy Hwy.
  assert (forall ps, pathsConflictLocked stat p' ps = pathsConflictLocked stat (pool w) ps) as Hcl.
  { intros ps. unfold pathsConflictLocked. by rewrite Hc. }
  constructor; simpl; rewrite ?Hc, ?Hg, ?Hn; try done.
  - intros i' j c ps Hj Hcl'. apply list_lookup_insert_Some in Hj as [(-> & <- & _)|[_ Hj]]; [|eauto].
    rewrite Hy in Hcl'. eauto.
  - intros i1 i2 j1 j2 c ps ps' Hj1 Hj2 Hc1 Hc2.
    apply list_lookup_insert_Some in Hj1 as [(-> & <- & _)|[Hn1 Hj1]];
      apply list_lookup_insert_Some in Hj2 as [(-> & <- & _)|[Hn2 Hj2]]; try done; rewrite ?Hy in *;
      by eapply Hu.
  - intros c ps Hp. destruct (Ho c ps Hp) as (i' & j & Hj & Hcj).
    destruct (decide (i' = i)) as [->|Hne].
    + exists i, y. rewrite Hx in Hj. injection Hj as <-. rewrite Hy. split; [|done].
      apply list_lookup_insert_eq. by eapply lookup_lt_Some.
    + exists i', j. by rewrite list_lookup_insert_ne.
  - intros i' j g Hj Hpc. setoid_rewrite Hcl.
    apply list_lookup_insert_Some in Hj as [(-> & <- & _)|[_ Hj]]; eauto.
Qed.

(** Taking a claim. *)
Lemma path_inv_claim w i x ps id :
  path_inv w -> jobs w !! i = Some x -> job_res x = RPaths ps -> claim_of x = None ->
  pathsConflictLocked stat (pool w) ps = false -> id = (nextPathClaim (pool w) + 1)%N ->
  path_inv (mkWorld ((pool w) <| nextPathClaim := id |> <| pathClaims := <[id := ps]> (pathClaims (pool w)) |>)
    (<[i := mkJob (RPaths ps) (HaveResource id)]> (jobs w))).
Proof.
  intros [Hh Hu Ho Hr Hd Hw] Hx Hrx Hcx Hnc Hid.
  set (y := mkJob (RPaths ps) (HaveResource id)).
  assert (claim_of y = Some (id, ps)) as Hy.
  { unfold claim_of. simpl. assert ((id =? 0)%N = false) as -> by (apply N.eqb_neq; lia). done. }
  assert (forall c ps', pathClaims (pool w) !! c = Some ps' -> c <> id) as Hfresh.
  { intros c ps' Hc ->. apply Hr in Hc. lia. }
  assert (forall ps', pathsConflictLocked stat (pool w) ps' = true ->
    pathsConflictLocked stat ((pool w) <| nextPathClaim := id |>
      <| pathClaims := <[id := ps]> (pathClaims (pool w)) |>) ps' = true) as Hmono.
  { intros ps' (c & held & Hc & Hcf)%conflict_spec. apply conflict_spec. exists c, held.
    split; [|done]. simpl. rewrite lookup_insert_ne; [done|]. intros <-. by apply Hfresh in Hc. }
  assert (forall c held, pathClaims (pool w) !! c = Some held -> paths_conflict stat ps held = false)
    as Hfree.
  { intros c held Hc. destruct (paths_conflict stat ps held) eqn:E; [|done].
    assert (pathsConflictLocked stat (pool w) ps = true); [apply conflict_spec; eauto|congruence]. }
  constructor; simpl.
  - intros i' j c ps' Hj Hc. apply list_lookup_insert_Some in Hj as [(-> & <- & _)|[_ Hj]].
    + rewrite Hy in Hc. injection Hc as <- <-. apply lookup_insert_eq.
    + apply Hh with (i := i') in Hc; [|done]. rewrite lookup_insert_ne; [done|]. intros <-.
      by apply Hfresh in Hc.
  - intros i1 i2 j1 j2 c ps1 ps2 Hj1 Hj2 Hc1 Hc2.
    apply list_lookup_insert_Some in Hj1 as [(-> & <- & _)|[Hn1 Hj1]];
      apply list_lookup_insert_Some in Hj2 as [(-> & <- & _)|[Hn2 Hj2]]; try done.
    + rewrite Hy in Hc1. injection Hc1 as <- <-. apply (Hh _ _ _ _ Hj2) in Hc2. by apply Hfresh in Hc2.
    + rewrite Hy in Hc2. injection Hc2 as <- <-. apply (Hh _ _ _ _ Hj1) in Hc1. by apply Hfresh in Hc1.
    + by eapply Hu.
  - intros c ps' Hc. apply lookup_insert_Some in Hc as [[<- <-]|[Hne Hc]].
    + exists i, y. split; [|done]. apply list_lookup_insert_eq. by eapply lookup_lt_Some.
    + destruct (Ho c ps' Hc) as (i' & j & Hj & Hcj). exists i', j. split; [|done].
      rewrite list_lookup_insert_ne; [done|]. intros <-. rewrite Hx in Hj. injection Hj as <-. congruence.
  - intros c ps' Hc. apply lookup_insert_Some in Hc as [[<- <-]|[Hne Hc]]; [lia|]. apply Hr in Hc. lia.
  - intros c c' ps1 ps2 Hne Hc Hc'.
    apply lookup_insert_Some in Hc as [[<- <-]|[? Hc]];
      apply lookup_insert_Some in Hc' as [[<- <-]|[? Hc']]; try done; eauto.
    rewrite paths_conflict_sym. eauto.
  - intros i' j g Hj Hpc. apply list_lookup_insert_Some in Hj as [(-> & <- & _)|[_ Hj]]; [done|].
    destruct (Hw i' j g Hj Hpc) as (H0 & ps' & H1 & H2). split; [done|]. exists ps'. split; [done|]. auto.
Qed.

(** Releasing a claim. *)
Lemma path_inv_unlock w i x ps c :
  path_inv w -> jobs w !! i = Some x -> job_res x = RPaths ps -> job_pc x = Unlock c ->
  path_inv (mkWorld (unlockPaths c (pool w)) (<[i := mkJob (RPaths ps) Done]> (jobs w))).
Proof.
  intros Hinv Hx Hr Hpc. unfold unlockPaths. destruct (c =? 0)%N eqn:Ec.
  { apply (path_inv_same w _ i x); try done. unfold claim_of. simpl. by rewrite Hr, Hpc, Ec. }
  destruct Hinv as [Hh Hu Ho Hrg Hd Hw].
  assert (claim_of x = Some (c, ps)) as Hcx by (unfold claim_of; by rewrite Hr, Hpc, Ec).
  constructor; simpl.
  - intros i' j c' ps' Hj Hc. apply list_lookup_insert_Some in Hj as [(-> & <- & _)|[Hne Hj]]; [done|].
    rewrite lookup_delete_ne; [eauto|]. intros <-. apply Hne. by eapply Hu.
  - intros i1 i2 j1 j2 c' ps1 ps2 Hj1 Hj2 Hc1 Hc2.
    apply list_lookup_insert_Some in Hj1 as [(-> & <- & _)|[Hn1 Hj1]];
      apply list_lookup_insert_Some in Hj2 as [(-> & <- & _)|[Hn2 Hj2]]; try done. by eapply Hu.
  - intros c' ps' [Hne Hc]%lookup_delete_Some. destruct (Ho c' ps' Hc) as (i' & j & Hj & Hcj).
    exists i', j. split; [|done]. rewrite list_lookup_insert_ne; [done|]. intros <-.
    rewrite Hx in Hj. injection Hj as <-. rewrite Hcx in Hcj. congruence.
  - intros c' ps' [_ Hc]%lookup_delete_Some. eauto.
  - intros c1 c2 ps1 ps2 Hne [_ H1]%lookup_delete_Some [_ H2]%lookup_delete_Some. eauto.
  - intros i' j g Hj Hpc'. apply list_lookup_insert_Some in Hj as [(-> & <- & _)|[_ Hj]]; [done|].
    destruct (Hw i' j g Hj Hpc') as (H0 & ps' & H1 & _). split; [lia|]. exists ps'. split; [done|lia].
Qed.

(** ** Every step *)

Record pool_inv (w : World) : Prop := {
  inv_slots : slot_inv w;
  inv_keys : key_inv w;
  inv_paths : path_inv w
}.

Lemma pool_inv_init n : pool_inv (mkWorld (New n) []).
Proof.
  constructor.
  - constructor; simpl; try done; [lia|]. destruct (n <? 1)%Z eqn:E; reflect_bools; lia.
  - constructor; simpl; [intros ?? H; by rewrite lookup_empty in H|done| |done].
    intros ??? H; by rewrite lookup_empty in H.
  - constructor; simpl; intros; by simplify_map_eq.
Qed.

Lemma lookup_snoc_Some (l : list job) x i j : (l ++ [x]) !! i = Some j ->
  l !! i = Some j \/ (i = length l /\ j = x).
Proof.
  intros H. apply lookup_app_Some in H as [H|[Hle H]]; [by left|right].
  apply list_lookup_singleton_Some in H as [H ->]. split; [lia|done].
Qed.

Lemma spawn_inv r w : pool_inv w -> pool_inv (w <| jobs := jobs w ++ [mkJob r Start] |>).
Proof.
  intros [[S1 S2 S3] [K1 K2 K3 K4] [P1 P2 P3 P4 P5 P6]].
  assert (forall k, refs k (mkJob r Start) = 0%nat /\ holds k (mkJob r Start) = 0%nat) as Hz.
  { intros k. unfold refs, holds. simpl. destruct r; [case_bool_decide|]; done. }
  assert (claim_of (mkJob r Start) = None) as Hc by (unfold claim_of; simpl; by destruct r).
  constructor; constructor; simpl; try done.
  - rewrite total_snoc, S1. change (slots (mkJob r Start)) with 0%nat. lia.
  - intros k ptr Hk. destruct (K1 k ptr Hk) as (H1 & H2 & kl & H3 & H4). split; [done|].
    split; [done|]. exists kl. split; [done|]. unfold lock_matches. rewrite !total_snoc.
    destruct (Hz k) as [-> ->]. rewrite !Nat.add_0_r. done.
  - intros k Hne Hk. rewrite total_snoc. destruct (Hz k) as [-> _]. rewrite K2; done.
  - intros i j ptr [Hj|[_ ->]]%lookup_snoc_Some Hw; [eauto|done].
  - intros i j c ps [Hj|[_ ->]]%lookup_snoc_Some H; [eauto|congruence].
  - intros i i' j j' c ps ps' [Hj|[_ ->]]%lookup_snoc_Some [Hj'|[_ ->]]%lookup_snoc_Some H H';
      [eauto|congruence..].
  - intros c ps H. destruct (P3 c ps H) as (i & j & Hj & Hcj). exists i, j. split; [|done].
    by apply lookup_app_l_Some.
  - intros i j g [Hj|[_ ->]]%lookup_snoc_Some H; [eauto|done].
Qed.

(** A goroutine that keeps its key references and its claim. *)
Lemma same_moves j c c' pc pc' :
  job_pc j = pc ->
  (pc = HaveResource c \/ pc = WaitWorker c \/ pc = Running c) ->
  (pc' = WaitWorker c' \/ pc' = Running c' \/ pc' = Unlock c') -> c' = c ->
  (forall k, refs k (mkJob (job_res j) pc') = refs k j /\ holds k (mkJob (job_res j) pc') = holds k j) /\
  claim_of (mkJob (job_res j) pc') = claim_of j /\ waits_on (mkJob (job_res j) pc') = None /\
  (forall g, pc' <> WaitPaths g).
Proof.
  intros Hj Hpc Hpc' ->. unfold refs, holds, claim_of, waits_on. rewrite Hj. simpl.
  destruct Hpc as [-> | [-> | ->]], Hpc' as [-> | [-> | ->]]; (split; [|split; [|split]]); try done;
    destruct (job_res j); done.
Qed.

(** A goroutine whose resource is a set of paths touches no key. *)
Lemma path_job_keeps_keys w i x ps p' c :
  key_inv w -> jobs w !! i = Some x -> job_res x = RPaths ps ->
  heap p' = heap (pool w) -> keyLocks p' = keyLocks (pool w) -> nextPtr p' = nextPtr (pool w) ->
  waits_on (mkJob (RPaths ps) c) = None ->
  key_inv (mkWorld p' (<[i := mkJob (RPaths ps) c]> (jobs w))).
Proof.
  intros Hk Hx Er H1 H2 H3 Hw. apply (key_inv_same w _ i x); try done; [|by left].
  intros k' _. unfold refs, holds. simpl. by rewrite Er.
Qed.

Lemma try_keeps_keys w i x ps p' c :
  key_inv w -> jobs w !! i = Some x -> job_res x = RPaths ps ->
  lockPaths_try stat ps (pool w) = (p', c) ->
  key_inv (mkWorld p' (<[i := mkJob (RPaths ps) c]> (jobs w))).
Proof.
  intros Hk Hx Er E. unfold lockPaths_try in E.
  repeat case_match; simplify_eq; by apply (path_job_keeps_keys w i x).
Qed.

(** A goroutine with the empty key touches no lock either. *)
Lemma keyless_keeps_keys w i x c :
  key_inv w -> jobs w !! i = Some x -> job_res x = RKey "" -> waits_on (mkJob (RKey "") c) = None ->
  key_inv (mkWorld (pool w) (<[i := mkJob (RKey "") c]> (jobs w))).
Proof.
  intros Hk Hx Er Hw. apply (key_inv_same w _ i x); try done; [|by left].
  intros k' Hne. unfold refs, holds. simpl. by rewrite Er, bool_decide_eq_false_2 by congruence.
Qed.

Lemma cancelled_keeps_keys w i x k :
  key_inv w -> jobs w !! i = Some x -> job_res x = RKey k -> job_pc x = CancelKey ->
  key_inv (mkWorld (releaseRef k (pool w)) (<[i := mkJob (RKey k) Done]> (jobs w))).
Proof.
  intros Hk Hx Er Epc. destruct (refs_at k x Er) as [Rx Hx']. rewrite Epc in Rx, Hx'.
  unfold releaseRef. destruct (decide (k = "")) as [->|Hne].
  - assert (keyLocks (pool w) !! "" = None) as ->; [|by apply (keyless_keeps_keys w i x)].
    destruct (keyLocks (pool w) !! "") eqn:E0; [|done]. by destruct (key_locked _ Hk _ _ E0) as (_ & ? & _).
  - destruct (referenced_lock w i x k Hk Hx Er Hne Rx) as (ptr & kl & Hl & Hh & Hm).
    rewrite Hl, Hh. eapply key_inv_drop; try done. destruct (kl_full kl); [done|by right].
Qed.

Lemma unlocked_keeps_keys w i x k c p' :
  key_inv w -> jobs w !! i = Some x -> job_res x = RKey k -> job_pc x = Unlock c -> k <> "" ->
  unlockKey k (pool w) = Some p' ->
  key_inv (mkWorld p' (<[i := mkJob (RKey k) Done]> (jobs w))).
Proof.
  intros Hk Hx Er Epc Hne E. destruct (refs_at k x Er) as [Rx Hx']. rewrite Epc in Rx, Hx'.
  destruct (referenced_lock w i x k Hk Hx Er Hne Rx) as (ptr & kl & Hl & Hh & Hm).
  unfold unlockKey in E. rewrite Hl, Hh in E. destruct (kl_full kl) eqn:Ef; [|done].
  injection E as <-. eapply key_inv_drop; try done. by left.
Qed.

(** A goroutine that keeps what it holds. *)
Lemma holder_keeps_keys w i x c p' q :
  key_inv w -> jobs w !! i = Some x ->
  (job_pc x = HaveResource c \/ job_pc x = WaitWorker c \/ job_pc x = Running c) ->
  (q = WaitWorker c \/ q = Running c \/ q = Unlock c) ->
  heap p' = heap (pool w) -> keyLocks p' = keyLocks (pool w) -> nextPtr p' = nextPtr (pool w) ->
  key_inv (mkWorld p' (<[i := mkJob (job_res x) q]> (jobs w))).
Proof.
  intros Hk Hx Hpc Hq H1 H2 H3.
  destruct (same_moves x c c _ q eq_refl Hpc Hq eq_refl) as (E1 & _ & E3 & _).
  apply (key_inv_same w _ i x); try done. by left.
Qed.

Lemma go_keeps_keys w i x p' pc' :
  pool_inv w -> jobs w !! i = Some x -> go stat x (pool w) = Some (p', pc') ->
  key_inv (mkWorld p' (<[i := mkJob (job_res x) pc']> (jobs w))).
Proof.
  intros [_ Hk _] Hx E. unfold go in E. destruct (job_pc x) eqn:Epc.
  - destruct (job_res x) as [k|ps] eqn:Er; [|injection E as E; by eapply try_keeps_keys].
    destruct (k =? "")%string eqn:Ek; reflect_bools.
    + injection E as <- <-. subst k. by apply (keyless_keeps_keys w i x).
    + destruct (lockKey_enter k (pool w)) as [p1 ptr] eqn:El. injection E as <- <-. by eapply key_inv_enter.
  - destruct (send_key ptr (pool w)) as [p1|] eqn:Es; injection E as <- <-.
    + eapply key_inv_send; try done. unfold waits_on. by rewrite Epc.
    + apply (key_inv_same w _ i x); try done; [|right; unfold waits_on; by rewrite Epc].
      intros k' _. unfold refs, holds. by rewrite Epc.
  - destruct (send_key ptr (pool w)) as [p1|] eqn:Es; simplify_eq/=.
    eapply key_inv_send; try done. unfold waits_on. by rewrite Epc.
  - destruct (job_res x) as [k|ps] eqn:Er; injection E as <- <-; [by eapply cancelled_keeps_keys|].
    by apply (path_job_keeps_keys w i x).
  - case_if; [done|]. destruct (job_res x) as [k|ps] eqn:Er; [done|]. injection E as E. by eapply try_keeps_keys.
  - unfold take_slot in E. case_if; injection E as <- <-; eapply holder_keeps_keys; eauto.
  - unfold take_slot in E. case_if; [|done]. injection E as <- <-. eapply holder_keeps_keys; eauto.
  - unfold free_slot in E. destruct (sem (pool w)); [done|]. injection E as <- <-. eapply holder_keeps_keys; eauto.
  - destruct (job_res x) as [k|ps] eqn:Er.
    + destruct (k =? "")%string eqn:Ek; reflect_bools.
      * injection E as <- <-. subst k. by apply (keyless_keeps_keys w i x).
      * destruct (unlockKey k (pool w)) as [p1|] eqn:Eu; simplify_eq/=. by eapply unlocked_keeps_keys.
    + injection E as <- <-. apply (path_job_keeps_keys w i x ps); try done; unfold unlockPaths; by case_if.
  - done.
Qed.

(** A move of one goroutine changes the slots by what it takes or gives. *)
Lemma slot_inv_move w i x y p' :
  slot_inv w -> jobs w !! i = Some x ->
  workers p' = workers (pool w) -> (sem p' <= workers (pool w))%nat ->
  (sem p' + slots x = sem (pool w) + slots y)%nat ->
  slot_inv (mkWorld p' (<[i := y]> (jobs w))).
Proof.
  intros [S1 S2 S3] Hx Hwk Hle Hs. pose proof (total_insert slots _ _ _ y Hx).
  constructor; simpl; lia.
Qed.

Lemma lockKey_enter_slots k p p' ptr :
  lockKey_enter k p = (p', ptr) -> sem p' = sem p /\ workers p' = workers p.
Proof. unfold lockKey_enter. intros E. repeat case_match; by simplify_eq/=. Qed.

Lemma send_key_slots ptr p p' : send_key ptr p = Some p' -> sem p' = sem p /\ workers p' = workers p.
Proof. unfold send_key. intros E. repeat case_match; by simplify_eq/=. Qed.

Lemma drop_ref_slots k ptr b kl p :
  sem (drop_ref k ptr b kl p) = sem p /\ workers (drop_ref k ptr b kl p) = workers p.
Proof. unfold drop_ref. by case_match. Qed.

Lemma releaseRef_slots k p : sem (releaseRef k p) = sem p /\ workers (releaseRef k p) = workers p.
Proof. unfold releaseRef. repeat case_match; try done. apply drop_ref_slots. Qed.

Lemma unlockKey_slots k p p' : unlockKey k p = Some p' -> sem p' = sem p /\ workers p' = workers p.
Proof.
  unfold unlockKey. intros E. repeat case_match; simplify_eq; try done. apply drop_ref_slots.
Qed.

Lemma lockPaths_try_slots ps p p' c :
  lockPaths_try stat ps p = (p', c) -> sem p' = sem p /\ workers p' = workers p /\
  (forall r, slots (mkJob r c) = 0%nat).
Proof. unfold lockPaths_try. intros E. repeat case_match; by simplify_eq/=. Qed.

Lemma unlockPaths_slots c p : sem (unlockPaths c p) = sem p /\ workers (unlockPaths c p) = workers p.
Proof. unfold unlockPaths. by case_match. Qed.

Lemma go_slots x p p' c :
  go stat x p = Some (p', c) -> (sem p <= workers p)%nat ->
  workers p' = workers p /\ (sem p' <= workers p)%nat /\
  (sem p' + slots x = sem p + slots (mkJob (job_res x) c))%nat.
Proof.
  unfold go, slots. intros E Hc. simpl. destruct (job_pc x) eqn:Epc; try done.
  - destruct (job_res x) as [k|ps].
    + case_match; [by simplify_eq|]. destruct (lockKey_enter k p) as [p1 ptr] eqn:El. simplify_eq.
      apply lockKey_enter_slots in El as [-> ->]. done.
    + injection E as E. apply lockPaths_try_slots in E as (-> & -> & Hz). specialize (Hz (RPaths ps)).
      unfold slots in Hz. simpl in Hz. rewrite Hz. done.
  - destruct (send_key ptr p) eqn:Es; simplify_eq; [|done]. apply send_key_slots in Es as [-> ->]. done.
  - destruct (send_key ptr p) eqn:Es; simplify_eq/=. apply send_key_slots in Es as [-> ->]. done.
  - destruct (job_res x) as [k|ps]; simplify_eq; [|done]. destruct (releaseRef_slots k p) as [-> ->]. done.
  - case_match; [done|]. destruct (job_res x) as [k|ps]; [done|]. injection E as E.
    apply lockPaths_try_slots in E as (-> & -> & Hz). specialize (Hz (RPaths ps)).
    unfold slots in Hz. simpl in Hz. rewrite Hz. done.
  - unfold take_slot in E. destruct (Nat.ltb_spec (sem p) (workers p)); simplify_eq/=; lia.
  - unfold take_slot in E. destruct (Nat.ltb_spec (sem p) (workers p)); simplify_eq/=; lia.
  - unfold free_slot in E. destruct (sem p) eqn:El; simplify_eq/=; lia.
  - destruct (job_res x) as [k|ps]; simplify_eq; [|destruct (unlockPaths_slots claim p) as [-> ->]; done].
    case_match; [by simplify_eq|]. destruct (unlockKey k p) eqn:Eu; simplify_eq/=.
    apply unlockKey_slots in Eu as [-> ->]. done.
Qed.

Lemma go_keeps_slots w i x p' c :
  pool_inv w -> jobs w !! i = Some x -> go stat x (pool w) = Some (p', c) ->
  slot_inv (mkWorld p' (<[i := mkJob (job_res x) c]> (jobs w))).
Proof.
  intros [Hs _ _] Hx E. destruct (go_slots _ _ _ _ E (slot_cap _ Hs)) as (H1 & H2 & H3).
  by eapply slot_inv_move.
Qed.

(** One pass of the path loop. *)
Lemma path_inv_try w i x ps p' c :
  path_inv w -> jobs w !! i = Some x -> job_res x = RPaths ps -> claim_of x = None ->
  lockPaths_try stat ps (pool w) = (p', c) ->
  path_inv (mkWorld p' (<[i := mkJob (RPaths ps) c]> (jobs w))).
Proof.
  intros Hp Hx Hr Hc E. unfold lockPaths_try in E. destruct ps as [|a ps].
  { injection E as <- <-. apply (path_inv_same w _ i x); try done. }
  destruct (pathsConflictLocked stat (pool w) (a :: ps)) eqn:Ec; injection E as <- <-.
  - apply (path_inv_same w _ i x); try done. intros g Hg. injection Hg as <-. split; [done|].
    by exists (a :: ps).
  - by eapply path_inv_claim.
Qed.

Lemma path_fields_enter k p p' ptr : lockKey_enter k p = (p', ptr) ->
  pathClaims p' = pathClaims p /\ pathChanged p' = pathChanged p /\ nextPathClaim p' = nextPathClaim p.
Proof. unfold lockKey_enter. intros E. repeat case_match; by simplify_eq/=. Qed.

Lemma path_fields_send ptr p p' : send_key ptr p = Some p' ->
  pathClaims p' = pathClaims p /\ pathChanged p' = pathChanged p /\ nextPathClaim p' = nextPathClaim p.
Proof. unfold send_key. intros E. repeat case_match; by simplify_eq/=. Qed.

Lemma path_fields_drop k ptr b kl p :
  pathClaims (drop_ref k ptr b kl p) = pathClaims p /\
  pathChanged (drop_ref k ptr b kl p) = pathChanged p /\
  nextPathClaim (drop_ref k ptr b kl p) = nextPathClaim p.
Proof. unfold drop_ref. by case_match. Qed.

(** A goroutine that holds no path claim and moves between places without one. *)
Lemma path_inv_still w i x c p' :
  path_inv w -> jobs w !! i = Some x ->
  pathClaims p' = pathClaims (pool w) -> pathChanged p' = pathChanged (pool w) ->
  nextPathClaim p' = nextPathClaim (pool w) ->
  claim_of (mkJob (job_res x) c) = claim_of x -> (forall g, c <> WaitPaths g) ->
  path_inv (mkWorld p' (<[i := mkJob (job_res x) c]> (jobs w))).
Proof.
  intros Hp Hx H1 H2 H3 H4 H5. apply (path_inv_same w _ i x); try done.
  simpl. intros g Hg. by apply H5 in Hg.
Qed.

Lemma go_keeps_paths w i x p' c :
  pool_inv w -> jobs w !! i = Some x -> go stat x (pool w) = Some (p', c) ->
  path_inv (mkWorld p' (<[i := mkJob (job_res x) c]> (jobs w))).
Proof.
  intros [_ _ Hp] Hx E. unfold go in E. destruct (job_pc x) eqn:Epc; try done.
  - destruct (job_res x) as [k|ps] eqn:Er; rewrite <- Er.
    + case_match; [|destruct (lockKey_enter k (pool w)) as [p1 ptr] eqn:El;
        apply path_fields_enter in El as (? & ? & ?)]; injection E as <- <-;
        apply path_inv_still; try done; unfold claim_of; by rewrite Er.
    + injection E as E. rewrite Er. eapply path_inv_try; try done. unfold claim_of. by rewrite Er, Epc.
  - assert (forall c', claim_of (mkJob (job_res x) (HaveResource 0)) = claim_of x /\
                claim_of (mkJob (job_res x) (WaitKey c')) = claim_of x) as Hc.
    { intros c'. unfold claim_of. rewrite Epc. by destruct (job_res x). }
    destruct (send_key ptr (pool w)) as [p1|] eqn:Es; injection E as <- <-;
      [apply path_fields_send in Es as (? & ? & ?)|]; apply path_inv_still; try done; apply (Hc ptr).
  - destruct (send_key ptr (pool w)) as [p1|] eqn:Es; simplify_eq/=.
    apply path_fields_send in Es as (? & ? & ?). apply path_inv_still; try done.
    unfold claim_of. rewrite Epc. by destruct (job_res x).
  - assert (claim_of (mkJob (job_res x) Done) = claim_of x) as Hc.
    { unfold claim_of. rewrite Epc. by destruct (job_res x). }
    destruct (job_res x) as [k|ps] eqn:Er; injection E as <- <-; rewrite <- Er in Hc |- *;
      apply path_inv_still; try done; unfold releaseRef; repeat case_match; try done; apply path_fields_drop.
  - case_match; [done|]. destruct (job_res x) as [k|ps] eqn:Er; [done|]. injection E as E.
    eapply path_inv_try; try done. unfold claim_of. by rewrite Er, Epc.
  - destruct (same_moves x claim claim _ (WaitWorker claim) Epc) as (_ & H1 & _); auto.
    destruct (same_moves x claim claim _ (Running claim) Epc) as (_ & H2 & _); auto.
    unfold take_slot in E. destruct (sem (pool w) <? workers (pool w))%nat; injection E as <- <-;
      by apply path_inv_still.
  - destruct (same_moves x claim claim _ (Running claim) Epc) as (_ & H2 & _); auto.
    unfold take_slot in E. destruct (sem (pool w) <? workers (pool w))%nat; simplify_eq/=;
      by apply path_inv_still.
  - destruct (same_moves x claim claim _ (Unlock claim) Epc) as (_ & H2 & _); auto.
    unfold free_slot in E. destruct (sem (pool w)); simplify_eq/=; by apply path_inv_still.
  - destruct (job_res x) as [k|ps] eqn:Er.
    + assert (claim_of (mkJob (job_res x) Done) = claim_of x) as Hc by (unfold claim_of; by rewrite Er).
      rewrite <- Er. case_match; simplify_eq/=; [by apply path_inv_still|].
      destruct (unlockKey k (pool w)) as [p1|] eqn:Eu; simplify_eq/=. unfold unlockKey in Eu.
      apply path_inv_still; try done; repeat case_match; simplify_eq; try done; apply path_fields_drop.
    + injection E as <- <-. by eapply path_inv_unlock.
Qed.

Lemma cancel_inv w i x c :
  pool_inv w -> jobs w !! i = Some x -> cancel x = Some c ->
  pool_inv (w <| jobs := <[i := mkJob (job_res x) c]> (jobs w) |>).
Proof.
  intros [Hs Hk Hp] Hx E.
  assert (slots x = 0%nat /\ slots (mkJob (job_res x) c) = 0%nat /\
    (forall k, refs k (mkJob (job_res x) c) = refs k x /\ holds k (mkJob (job_res x) c) = holds k x) /\
    claim_of (mkJob (job_res x) c) = claim_of x /\ waits_on (mkJob (job_res x) c) = None /\
    (forall g, c <> WaitPaths g)) as (H1 & H2 & H3 & H4 & H5 & H6).
  { unfold cancel in E. unfold slots, refs, holds, claim_of, waits_on.
    destruct (job_pc x); simplify_eq; simpl; split_and?; try done; by destruct (job_res x). }
  change (w <| jobs := <[i := mkJob (job_res x) c]> (jobs w) |>) with
    (mkWorld (pool w) (<[i := mkJob (job_res x) c]> (jobs w))).
  constructor.
  - apply (slot_inv_move w i x); try done; [apply (slot_cap _ Hs)|lia].
  - apply (key_inv_same w _ i x); try done. by left.
  - by apply path_inv_still.
Qed.

Lemma step_inv e w w' : pool_inv w -> step stat e w = Some w' -> pool_inv w'.
Proof.
  intros Hi E. destruct e as [r|i|i]; simpl in E.
  - injection E as <-. by apply spawn_inv.
  - destruct (jobs w !! i) as [x|] eqn:Hx; [|done].
    destruct (go stat x (pool w)) as [[p' c]|] eqn:Eg; simplify_eq/=.
    constructor; [by eapply go_keeps_slots|by eapply go_keeps_keys|by eapply go_keeps_paths].
  - destruct (jobs w !! i) as [x|] eqn:Hx; [|done].
    destruct (cancel x) as [c|] eqn:Ec; simplify_eq/=. by apply cancel_inv.
Qed.

Lemma run_inv es w w' : pool_inv w -> run stat es w = Some w' -> pool_inv w'.
Proof.
  revert w. induction es as [|e es IH]; intros w Hi E; simpl in E; [by simplify_eq|].
  destruct (step stat e w) eqn:Es; [|done]. eauto using step_inv.
Qed.

Lemma reachable_inv n w : reachable stat n w -> pool_inv w.
Proof. intros [es E]. eapply run_inv; [apply pool_inv_init|done]. Qed.

(** ** Facts of every reachable world *)

(** A property that no step of [Go], [Cancel] or [Spawn] breaks. *)
Lemma reachable_ind' (P : World -> Prop) n :
  P (mkWorld (New n) []) -> (forall e w w', pool_inv w -> P w -> step stat e w = Some w' -> P w') ->
  forall w, reachable stat n w -> P w.
Proof.
  intros H0 Hs w [es E]. revert E. generalize (pool_inv_init n) H0.
  generalize (mkWorld (New n) []). induction es as [|e es IH]; intros w0 Hi HP E; simpl in E; [by simplify_eq|].
  destruct (step stat e w0) eqn:Es; [|done]. eapply IH; [| |done]; eauto using step_inv.
Qed.

Lemma reachable_workers n w : reachable stat n w -> workers (pool w) = Z.to_nat (Z.max 1 n).
Proof.
  apply (reachable_ind' (fun w => workers (pool w) = Z.to_nat (Z.max 1 n))).
  - simpl. destruct (n <? 1)%Z eqn:E; reflect_bools; f_equal; lia.
  - intros e v v' Hi HP E. destruct e as [r|i|i]; simpl in E.
    + by injection E as <-.
    + destruct (jobs v !! i) as [x|]; [|done].
      destruct (go stat x (pool v)) as [[p' c]|] eqn:Eg; simplify_eq/=.
      destruct (go_slots _ _ _ _ Eg (slot_cap _ (inv_slots _ Hi))) as (-> & _). done.
    + destruct (jobs v !! i) as [x|]; [|done]. destruct (cancel x); by simplify_eq/=.
Qed.

(** Only a claim on no paths at all has the number 0. *)
Definition zero_ok (j : job) : Prop :=
  forall ps, job_res j = RPaths ps ->
  job_pc j = HaveResource 0 \/ job_pc j = WaitWorker 0 \/ job_pc j = Running 0 -> ps = [].

Lemma go_zero_ok x p p' c :
  zero_ok x -> (forall ptr, waits_on x = Some ptr -> exists k, job_res x = RKey k) ->
  go stat x p = Some (p', c) -> zero_ok (mkJob (job_res x) c).
Proof.
  intros Hz Hw E ps Hr Hc. simpl in Hr, Hc. unfold go in E. rewrite Hr in E.
  assert (forall q, lockPaths_try stat ps q = (p', c) -> ps = []) as Ht.
  { intros q Eq. unfold lockPaths_try in Eq. destruct ps; [done|]. case_match; simplify_eq.
    - by destruct Hc as [?|[?|?]].
    - destruct Hc as [Hc|[?|?]]; [injection Hc; lia|done..]. }
  specialize (Hz ps Hr). unfold waits_on in Hw. destruct (job_pc x) eqn:Epc; try done.
  - injection E as E. eauto.
  - destruct (Hw _ eq_refl) as [k ?]; congruence.
  - destruct (Hw _ eq_refl) as [k ?]; congruence.
  - injection E as <- <-. naive_solver.
  - case_match; [done|]. injection E as E. eauto.
  - apply Hz. destruct (take_slot p); injection E as <- <-; naive_solver.
  - apply Hz. destruct (take_slot p); simplify_eq/=; naive_solver.
  - destruct (free_slot p); simplify_eq/=; naive_solver.
  - simplify_eq/=. naive_solver.
Qed.

Lemma reachable_zero n w : reachable stat n w -> forall i j, jobs w !! i = Some j -> zero_ok j.
Proof.
  apply (reachable_ind' (fun w => forall i j, jobs w !! i = Some j -> zero_ok j)); [done|].
  intros e v v' Hi HP E. destruct e as [r|i|i]; simpl in E.
  - injection E as <-. simpl. intros i j [Hj|[_ ->]]%lookup_snoc_Some; [eauto|].
    intros ps _ H. by destruct H as [?|[?|?]].
  - destruct (jobs v !! i) as [x|] eqn:Hx; [|done].
    destruct (go stat x (pool v)) as [[p' c]|] eqn:Eg; simplify_eq/=.
    intros i' j [(-> & <- & _)|[_ Hj]]%list_lookup_insert_Some; [|eauto].
    eapply go_zero_ok; eauto. intros ptr Hw.
    destruct (key_wait _ (inv_keys _ Hi) _ _ _ Hx Hw) as (k & ? & _). eauto.
  - destruct (jobs v !! i) as [x|] eqn:Hx; [|done].
    destruct (cancel x) as [c|] eqn:Ec; simplify_eq/=.
    intros i' j [(-> & <- & _)|[_ Hj]]%list_lookup_insert_Some; [|eauto].
    intros ps _ H. unfold cancel in Ec. simpl in H. destruct (job_pc x); simplify_eq;
      by destruct H as [?|[?|?]].
Qed.

(** ** Progress *)

(** The key of a goroutine that unlocks is held, so the receive does not block. *)
Lemma unlock_enabled w i x c :
  pool_inv w -> jobs w !! i = Some x -> job_pc x = Unlock c -> is_Some (go stat x (pool w)).
Proof.
  intros [_ Hk _] Hx Epc. unfold go. rewrite Epc. destruct (job_res x) as [k|ps] eqn:Er; [|done].
  destruct (k =? "")%string eqn:Ek; reflect_bools; [done|].
  destruct (refs_at k x Er) as [Rx Hx']. rewrite Epc in Rx, Hx'.
  destruct (referenced_lock w i x k Hk Hx Er Ek Rx) as (ptr & kl & Hl & Hh & Hm).
  unfold unlockKey. rewrite Hl, Hh. destruct (kl_full kl) eqn:Ef; [done|].
  destruct Hm as (_ & _ & Hm). rewrite Ef in Hm. pose proof (total_pos (holds k) _ _ _ Hx). lia.
Qed.

Lemma running_enabled w i x c :
  pool_inv w -> jobs w !! i = Some x -> job_pc x = Running c -> is_Some (go stat x (pool w)).
Proof.
  intros [Hs _ _] Hx Epc. unfold go, free_slot. rewrite Epc.
  pose proof (total_pos slots _ _ _ Hx) as Hp. rewrite <- (slot_sem _ Hs) in Hp.
  unfold slots in Hp. rewrite Epc in Hp. destruct (sem (pool w)); [lia|done].
Qed.

(** Some goroutine can move. *)
Definition can_move (w : World) : Prop := exists i x, jobs w !! i = Some x /\ is_Some (go stat x (pool w)).

Lemma holder_moves w i x :
  pool_inv w -> jobs w !! i = Some x ->
  (exists c, job_pc x = HaveResource c \/ job_pc x = WaitWorker c \/ job_pc x = Running c \/ job_pc x = Unlock c) ->
  can_move w.
Proof.
  intros Hi Hx (c & [E|[E|[E|E]]]).
  - exists i, x. split; [done|]. unfold go. rewrite E. by destruct (take_slot (pool w)).
  - destruct (decide (sem (pool w) < workers (pool w))%nat) as [Hlt|Hge].
    + exists i, x. split; [done|]. unfold go, take_slot. rewrite E.
      apply Nat.ltb_lt in Hlt. by rewrite Hlt.
    + pose proof (slot_workers _ (inv_slots _ Hi)). pose proof (slot_sem _ (inv_slots _ Hi)) as Es.
      destruct (total_find slots (jobs w)) as (i' & x' & Hx' & Hs); [lia|].
      exists i', x'. split; [done|]. unfold slots in Hs. destruct (job_pc x') eqn:E'; try lia.
      by eapply running_enabled.
  - exists i, x. split; [done|]. by eapply running_enabled.
  - exists i, x. split; [done|]. by eapply unlock_enabled.
Qed.

Lemma waiting_key_moves w i x ptr :
  pool_inv w -> jobs w !! i = Some x -> job_pc x = WaitKey ptr -> can_move w.
Proof.
  intros Hi Hx E. destruct (key_wait _ (inv_keys _ Hi) i x ptr Hx) as (k & Er & Hne & Hl).
  { unfold waits_on. by rewrite E. }
  destruct (key_locked _ (inv_keys _ Hi) k ptr Hl) as (_ & _ & kl & Hh & _ & _ & Hm).
  destruct (kl_full kl) eqn:Ef.
  - destruct (total_find (holds k) (jobs w)) as (i' & x' & Hx' & Hs); [lia|].
    apply (holder_moves w i' x' Hi Hx'). unfold holds in Hs.
    destruct (job_res x'); [|lia]. case_bool_decide; [|lia]. destruct (job_pc x'); try lia; eauto.
  - exists i, x. split; [done|]. unfold go, send_key. by rewrite E, Hh, Ef.
Qed.

Lemma waiting_paths_moves w i x g :
  pool_inv w -> jobs w !! i = Some x -> job_pc x = WaitPaths g -> can_move w.
Proof.
  intros Hi Hx E. destruct (path_wait _ (inv_paths _ Hi) i x g Hx E) as (Hle & ps & Er & Hc).
  destruct (decide (g = pathChanged (pool w))) as [Eg|Ne].
  - apply conflict_spec in Hc as (c & held & Hcl & _); [|done].
    destruct (path_owned _ (inv_paths _ Hi) c held Hcl) as (i' & x' & Hx' & Hcx).
    apply (holder_moves w i' x' Hi Hx'). unfold claim_of in Hcx.
    destruct (job_res x'); [done|]. destruct (job_pc x'); try done; eauto.
  - exists i, x. split; [done|]. unfold go. rewrite E, Er.
    apply Nat.eqb_neq in Ne. by rewrite Ne.
Qed.

Lemma unfinished_moves w i x :
  pool_inv w -> jobs w !! i = Some x -> job_pc x <> Done -> can_move w.
Proof.
  intros Hi Hx Hd. destruct (job_pc x) eqn:E; try done;
    try (by eapply waiting_key_moves); try (by eapply waiting_paths_moves);
    try (by eapply holder_moves; eauto);
    exists i, x; (split; [done|]); unfold go; rewrite E; repeat case_match; done.
Qed.

(** ** Termination *)

Definition rank (j : job) : nat :=
  match job_pc j with
  | Start => 8 | TryKey _ => 7 | WaitKey _ => 6 | WaitPaths _ => 5 | HaveResource _ => 4
  | WaitWorker _ => 3 | Running _ => 2 | Unlock _ => 1 | CancelKey => 1 | Done => 0
  end.

(** A path waiter whose channel was closed since it last looked. *)
Definition stale (changed : nat) (j : job) : nat :=
  match job_pc j with WaitPaths g => if (g =? changed)%nat then 0 else 1 | _ => 0 end.

(** A bound on the steps that are left: a release wakes every path waiter once. *)
Definition steps_left (w : World) : nat :=
  (total rank (jobs w) * (length (jobs w) + 1) + total (stale (pathChanged (pool w))) (jobs w))%nat.

Lemma stale_le_length g l : (total (stale g) l <= length l)%nat.
Proof.
  induction l as [|a l IH]; simpl; [lia|].
  assert (stale g a <= 1)%nat by (unfold stale; repeat case_match; lia). lia.
Qed.

Lemma rank_drop w i x y p' :
  jobs w !! i = Some x -> (rank y < rank x)%nat ->
  (steps_left (mkWorld p' (<[i := y]> (jobs w))) < steps_left w)%nat.
Proof.
  intros Hx Hr. unfold steps_left. simpl. rewrite length_insert.
  pose proof (total_insert rank _ _ _ y Hx).
  pose proof (stale_le_length (pathChanged p') (<[i := y]> (jobs w))) as Hl.
  rewrite length_insert in Hl. nia.
Qed.

Lemma go_rank x p p' c :
  go stat x p = Some (p', c) ->
  (rank (mkJob (job_res x) c) < rank x)%nat \/
  (exists g, job_pc x = WaitPaths g /\ g <> pathChanged p /\ c = WaitPaths (pathChanged p) /\ p' = p).
Proof.
  unfold go, rank. simpl. intros E. destruct (job_pc x) eqn:Epc; try done.
  - left. destruct (job_res x); [case_match; [|destruct (lockKey_enter k p)]; simplify_eq; lia|].
    injection E as E. unfold lockPaths_try in E. repeat case_match; simplify_eq; lia.
  - left. destruct (send_key ptr p); simplify_eq; lia.
  - left. destruct (send_key ptr p); simplify_eq/=; lia.
  - left. destruct (job_res x); simplify_eq; lia.
  - destruct (Nat.eqb_spec changed (pathChanged p)); [done|]. destruct (job_res x) as [|ps]; [done|].
    injection E as E. unfold lockPaths_try in E. destruct ps as [|a ps]; [simplify_eq; left; lia|].
    destruct (pathsConflictLocked stat p (a :: ps)); simplify_eq; [|left; lia]. right. by exists changed.
  - left. destruct (take_slot p); simplify_eq; lia.
  - left. destruct (take_slot p); simplify_eq/=; lia.
  - left. destruct (free_slot p); simplify_eq/=; lia.
  - left. destruct (job_res x); [case_match; [|destruct (unlockKey k p)]|]; simplify_eq/=; lia.
Qed.

Definition is_spawn (e : event) : bool := match e with Spawn _ => true | _ => false end.

Lemma step_left e w w' :
  is_spawn e = false -> step stat e w = Some w' -> (steps_left w' < steps_left w)%nat.
Proof.
  intros Hs E. destruct e as [r|i|i]; [done| |]; simpl in E; destruct (jobs w !! i) as [x|] eqn:Hx; try done.
  - destruct (go stat x (pool w)) as [[p' c]|] eqn:Eg; simplify_eq/=.
    destruct (go_rank _ _ _ _ Eg) as [Hr|(g & Epc & Hne & -> & ->)]; [by eapply rank_drop|].
    unfold steps_left. simpl. rewrite length_insert. set (y := mkJob _ _).
    pose proof (total_insert rank _ _ _ y Hx) as Hr.
    pose proof (total_insert (stale (pathChanged (pool w))) _ _ _ y Hx) as Hst.
    assert (rank y = rank x) as Hrk by (unfold rank, y; by rewrite Epc).
    assert (stale (pathChanged (pool w)) y = 0%nat) as H0.
    { unfold stale, y. simpl. by rewrite Nat.eqb_refl. }
    assert (stale (pathChanged (pool w)) x = 1%nat) as H1.
    { unfold stale. rewrite Epc. apply Nat.eqb_neq in Hne. by rewrite Hne. }
    replace (total rank (<[i:=y]> (jobs w))) with (total rank (jobs w)) by lia. lia.
  - destruct (cancel x) as [c|] eqn:Ec; simplify_eq/=. unfold cancel in Ec.
    apply (rank_drop w i x _ (pool w) Hx). unfold rank. simpl. destruct (job_pc x); simplify_eq; lia.
Qed.

Lemma run_left es w w' :
  forallb (fun e => negb (is_spawn e)) es = true -> run stat es w = Some w' ->
  (length es + steps_left w' <= steps_left w)%nat.
Proof.
  revert w. induction es as [|e es IH]; intros w Hs E; simpl in *; [simplify_eq; lia|].
  apply andb_true_iff in Hs as [H1 H2]. apply negb_true_iff in H1.
  destruct (step stat e w) as [v|] eqn:Es; [|done]. specialize (IH v H2 E).
  apply step_left in Es; [|done]. lia.
Qed.

Lemma total_zero (f : job -> nat) l : (forall i x, l !! i = Some x -> f x = 0%nat) -> total f l = 0%nat.
Proof.
  intros H. destruct (decide (total f l = 0%nat)) as [|Hne]; [done|].
  destruct (total_find f l) as (i & x & Hx & Hp); [lia|]. rewrite (H i x Hx) in Hp. lia.
Qed.

Lemma quiescent_clean w :
  pool_inv w -> (forall i x, jobs w !! i = Some x -> job_pc x = Done) ->
  sem (pool w) = 0%nat /\ keyLocks (pool w) = ∅ /\ pathClaims (pool w) = ∅.
Proof.
  intros Hi Hd. split; [|split].
  - rewrite (slot_sem _ (inv_slots _ Hi)). apply total_zero. intros i x Hx. unfold slots. by rewrite (Hd i x Hx).
  - apply map_empty. intros k. destruct (keyLocks (pool w) !! k) as [ptr|] eqn:E; [exfalso|done].
    destruct (key_locked _ (inv_keys _ Hi) k ptr E) as (_ & _ & kl & _ & _ & Hp & _).
    rewrite total_zero in Hp; [lia|]. intros i x Hx. unfold refs. rewrite (Hd i x Hx).
    destruct (job_res x); [|done]. by case_bool_decide.
  - apply map_empty. intros c. destruct (pathClaims (pool w) !! c) as [ps|] eqn:E; [exfalso|done].
    destruct (path_owned _ (inv_paths _ Hi) c ps E) as (i & x & Hx & Hc).
    unfold claim_of in Hc. rewrite (Hd i x Hx) in Hc. by destruct (job_res x).
Qed.

Lemma reachable_run n w es w' : reachable stat n w -> run stat es w = Some w' -> reachable stat n w'.
Proof.
  intros [es0 E0] E. exists (es0 ++ es). revert E0 E. generalize (mkWorld (New n) []).
  induction es0 as [|e es0 IH]; intros v E0 E; simpl in *; [by simplify_eq|].
  destruct (step stat e v); [|done]. eauto.
Qed.

(** ** Properties *)

(** C16: In every interleaving of calls, cancellations and releases, at most
    [max(1, n)] jobs run; two running jobs never share a non-empty key; and the
    claims of two running path jobs never overlap. *)
Theorem pool_exclusion n w :
  reachable stat n w ->
  (total slots (jobs w) <= Z.to_nat (Z.max 1 n))%nat /\
  (forall i i' x x' c c' k, jobs w !! i = Some x -> jobs w !! i' = Some x' -> i <> i' ->
     job_pc x = Running c -> job_pc x' = Running c' -> job_res x = RKey k -> k <> "" ->
     job_res x' <> RKey k) /\
  (forall i i' x x' c c' ps ps', jobs w !! i = Some x -> jobs w !! i' = Some x' -> i <> i' ->
     job_pc x = Running c -> job_pc x' = Running c' -> job_res x = RPaths ps -> job_res x' = RPaths ps' ->
     paths_conflict stat ps ps' = false).
Proof.
  intros Hr. pose proof (reachable_inv n w Hr) as Hi. split; [|split].
  - rewrite <- (slot_sem _ (inv_slots _ Hi)), <- (reachable_workers n w Hr). apply (slot_cap _ (inv_slots _ Hi)).
  - intros i i' x x' c c' k Hx Hx' Hne Hp Hp' Hk Hke Hk'.
    destruct (refs_at k x Hk) as [R H]. destruct (refs_at k x' Hk') as [R' H'].
    rewrite Hp in R, H. rewrite Hp' in R', H'. simpl in *.
    destruct (referenced_lock w i x k (inv_keys _ Hi) Hx Hk Hke R) as (ptr & kl & _ & _ & _ & _ & Hm).
    pose proof (total_two (holds k) _ _ _ _ _ Hne Hx Hx'). destruct (kl_full kl); lia.
  - intros i i' x x' c c' ps ps' Hx Hx' Hne Hp Hp' Hk Hk'.
    assert (forall i x c ps, jobs w !! i = Some x -> job_pc x = Running c -> job_res x = RPaths ps ->
      ps = [] \/ claim_of x = Some (c, ps)) as Hcl.
    { clear -Hr. intros i x c ps Hx Hp Hk. destruct (N.eqb_spec c 0) as [Ec|Ec].
      - left. subst. apply (reachable_zero n w Hr i x Hx ps Hk). auto.
      - right. unfold claim_of. rewrite Hk, Hp. apply N.eqb_neq in Ec. by rewrite Ec. }
    destruct (Hcl i x c ps Hx Hp Hk) as [->|Hc]; [done|].
    destruct (Hcl i' x' c' ps' Hx' Hp' Hk') as [->|Hc']; [by rewrite paths_conflict_sym|].
    pose proof (path_held _ (inv_paths _ Hi) i x c ps Hx Hc).
    pose proof (path_held _ (inv_paths _ Hi) i' x' c' ps' Hx' Hc').
    apply (path_disjoint _ (inv_paths _ Hi) c c'); try done. intros <-. apply Hne.
    by eapply (path_unique _ (inv_paths _ Hi)).
Qed.

(** C21: The pool always drains.  From any reachable world and with no new caller, every
    schedule - cancellations included - is finite, bounded by [steps_left]; and
    when no goroutine can move, every one has returned, no worker slot is taken,
    and no key lock or path claim is left behind.  So there is no deadlock, and no
    release blocks, whatever the interleaving. *)
Theorem pool_drains n w es w' :
  reachable stat n w -> forallb (fun e => negb (is_spawn e)) es = true -> run stat es w = Some w' ->
  (length es <= steps_left w)%nat /\
  ((forall i, step stat (Go i) w' = None) ->
     Forall (fun j => job_pc j = Done) (jobs w') /\
     sem (pool w') = 0%nat /\ keyLocks (pool w') = ∅ /\ pathClaims (pool w') = ∅).
Proof.
  intros Hr Hs E. split; [pose proof (run_left es w w' Hs E); lia|]. intros Hstuck.
  pose proof (reachable_inv n w' (reachable_run n w es w' Hr E)) as Hi.
  assert (forall i x, jobs w' !! i = Some x -> job_pc x = Done) as Hd.
  { intros i x Hx. destruct (decide (job_pc x = Done)) as [|Hne]; [done|exfalso].
    destruct (unfinished_moves w' i x Hi Hx Hne) as (i' & x' & Hx' & [o Eo]).
    specialize (Hstuck i'). simpl in Hstuck. by rewrite Hx', Eo in Hstuck. }
  split; [|by apply quiescent_clean]. apply Forall_lookup. eauto.
Qed.

(** A goroutine that runs, or that must give back what it took, is never blocked: the
    receive of [<-p.sem] finds a token, and the one inside [unlockKey]'s critical
    section finds the key held, so the pool's mutex is never held forever. *)
Theorem pool_release_never_blocks n w i x :
  reachable stat n w -> jobs w !! i = Some x ->
  (exists c, job_pc x = Running c) \/ (exists c, job_pc x = Unlock c) \/ job_pc x = CancelKey ->
  is_Some (step stat (Go i) w).
Proof.
  intros Hr Hx Hp. pose proof (reachable_inv n w Hr) as Hi.
  assert (is_Some (go stat x (pool w))) as [o Eo].
  { destruct Hp as [[c E]|[[c E]|E]]; [by eapply running_enabled|by eapply unlock_enabled|].
    unfold go. rewrite E. by destruct (job_res x). }
  simpl. by rewrite Hx, Eo.
Qed.
End Theory.

(** ** A concrete schedule

    Two workers; two jobs with the key [a], two path jobs of which one claims a
    subtree of the other. *)

Definition busy_events : list event :=
  [Spawn (RKey "a"); Spawn (RKey "a"); Spawn (RPaths [Clean "/repo"]); Spawn (RPaths [Clean "/repo/packages"]);
   Go 0; Go 0; Go 0; Go 1; Go 1; Go 2; Go 3; Go 2].

Definition after (es : list event) (w : World) : World :=
  match run bare_stat es w with Some w' => w' | None => w end.

Definition busy_world : World := after busy_events (mkWorld (New 2) []).

(** Both running jobs finish, the key waiter is cancelled, the path waiter wakes up. *)
Definition drain_events : list event :=
  [Cancel 1; Go 0; Go 2; Go 1; Go 0; Go 2; Go 3; Go 3; Go 3; Go 3].

Example busy_world_pcs :
  map job_pc (jobs busy_world) = [Running 0; WaitKey 0; Running 1; WaitPaths 0].
Proof. vm_compute. reflexivity. Qed.

Lemma busy_reachable : reachable bare_stat 2 busy_world.
Proof. exists busy_events. vm_compute. reflexivity. Qed.

Lemma pool_exclusion_witness : (total slots (jobs busy_world) <= 2)%nat.
Proof. apply (pool_exclusion bare_stat 2 busy_world busy_reachable). Defined.

Lemma pool_drains_witness :
  (length drain_events <= steps_left busy_world)%nat /\
  keyLocks (pool (after drain_events busy_world)) = ∅.
Proof.
  destruct (pool_drains bare_stat 2 busy_world drain_events (after drain_events busy_world) busy_reachable)
    as [H1 H2]; [vm_compute; reflexivity..|].
  split; [exact H1|]. apply H2. intros [|[|[|[|i]]]]; vm_compute; reflexivity.
Defined.

Lemma pool_release_never_blocks_witness :
  is_Some (step bare_stat (Go 1) (after [Cancel 1] busy_world)).
Proof.
  apply (pool_release_never_blocks bare_stat 2 _ 1 (mkJob (RKey "a") CancelKey)).
  - exists (busy_events ++ [Cancel 1]). vm_compute. reflexivity.
  - vm_compute. reflexivity.
  - right. right. reflexivity.
Defined.
