(* ===== verification/ExecLane.v ===== *)
(** * Execution lane ([internal/tools/execution_lane.go])

    One lane per person gates managed execution: a host command excludes every other
    command and file edit, isolated calls share the lane until a host call waits.
    Host calls whose Run was parked keep their place in a queue ([queuedHosts] in
    [queuedOrder]).  The world of one lane is its state and the callers of
    [acquire]; a step is one critical section, so every interleaving of callers,
    releases and queue changes is a sequence of steps. *)

From stdpp Require Import base tactics list strings gmap.
From Stdlib Require Import ZArith Lia Bool Ascii String List.
From S2P Require Import Prelude.

(** The maps to [bool] hold only [true]: they are sets.  [changed] is the number of
    times the channel was closed and replaced. *)
Record executionLane := mkLane {
  readers : Z;
  writers : Z;
  host : bool;
  changed : nat;
  queuedHosts : gset string;
  queuedOrder : list string;
  yieldedHosts : gset string
}.

#[export] Instance executionLane_eta : Eta executionLane := fun l =>
  mkLane (readers l) (writers l) (host l) (changed l) (queuedHosts l) (queuedOrder l) (yieldedHosts l).

Definition new_lane : executionLane := mkLane 0 0 false 0 ∅ [] ∅.

Definition notify (l : executionLane) : executionLane := l <| changed := S (changed l) |>.

Definition firstQueuedHost (l : executionLane) : string :=
  match base.filter (fun ref => ref ∈ queuedHosts l) (queuedOrder l) with
  | ref :: _ => ref
  | [] => ""
  end.

Definition yieldHost (ref : string) (l : executionLane) : executionLane :=
  if (ref =? "")%string then l
  else l <| queuedHosts := queuedHosts l ∖ {[ref]} |> <| yieldedHosts := yieldedHosts l ∪ {[ref]} |>.

Definition PreserveQueuedHostExecution (ref : string) (l : executionLane) : executionLane :=
  if (ref =? "")%string then l
  else
    let l := if bool_decide (ref ∈ queuedHosts l) then l
             else l <| queuedOrder := queuedOrder l ++ [ref] |> in
    notify (l <| queuedHosts := queuedHosts l ∪ {[ref]} |>).

Definition YieldQueuedHostExecution (ref : string) (l : executionLane) : executionLane :=
  if (ref =? "")%string then l else notify (yieldHost ref l).

Definition ReconcileQueuedHostExecution (refs : list string) (l : executionLane) : executionLane :=
  let present : gset string := list_to_set refs in
  let yielded := yieldedHosts l ∩ present in
  let queued := present ∖ yielded in
  let moved := negb (size queued =? size (queuedHosts l))%nat ||
               negb (bool_decide (queued ⊆ queuedHosts l)) in
  let l := l <| yieldedHosts := yielded |> <| queuedHosts := queued |> <| queuedOrder := refs |> in
  if moved then notify l else l.

(** [hostRef] is [""] when the caller gives none. *)
Definition ExecutionLaneReady (hostRef : string) (l : executionLane) : bool :=
  if negb (hostRef =? "")%string
  then negb (host l) && (readers l =? 0)%Z &&
       ((firstQueuedHost l =? "")%string || (firstQueuedHost l =? hostRef)%string)
  else negb (host l) && (readers l =? 0)%Z && (writers l =? 0)%Z && (size (queuedHosts l) =? 0)%nat.

(** ** [acquire] *)

(** Where a caller is: not yet in, waiting on a generation of the channel, holding the
    lane, or out of it (released, cancelled or refused). *)
Inductive lane_pc : Type :=
| LStart
| LWait (seen : nat)
| LHeld
| LDone.

Record caller := mkCaller {
  c_host : bool;       (* [host] *)
  c_ref : string;      (* [option.ref] *)
  c_refresh : bool;    (* [option.refresh != nil] *)
  c_pc : lane_pc
}.

#[export] Instance caller_eta : Eta caller := fun c => mkCaller (c_host c) (c_ref c) (c_refresh c) (c_pc c).

(** The guard of the loop. *)
Definition grant (c : caller) (l : executionLane) : bool :=
  let queued := (0 <? size (queuedHosts l))%nat in
  let hostTurn := negb queued || (negb (c_ref c =? "")%string && (c_ref c =? firstQueuedHost l)%string) in
  negb (host l) &&
  ((negb (c_host c) && (writers l =? 0)%Z && negb queued) ||
   (c_host c && (readers l =? 0)%Z && hostTurn)).

(** Leaving without the lane: a host caller takes its intent back. *)
Definition leave (c : caller) (l : executionLane) : executionLane :=
  if c_host c then notify (l <| writers := (writers l - 1)%Z |>) else l.

(** One pass of the loop, under the mutex; [cancelled] is [ctx.Err() != nil]. *)
Definition pass (cancelled : bool) (c : caller) (l : executionLane) : executionLane * lane_pc :=
  if cancelled then (leave c l, LDone)
  else if grant c l then
    (if c_host c
     then (let l := l <| writers := (writers l - 1)%Z |> <| host := true |> in
           if negb (c_ref c =? "")%string then yieldHost (c_ref c) l else l)
     else l <| readers := (readers l + 1)%Z |>, LHeld)
  else (l, LWait (changed l)).

(** The call itself: the first [refresh], then the first pass. *)
Definition acquire_enter (refresh_err cancelled : bool) (c : caller) (l : executionLane)
  : executionLane * lane_pc :=
  if c_refresh c && refresh_err then (l, LDone)
  else pass cancelled c (if c_host c then l <| writers := (writers l + 1)%Z |> else l).

(** After the [select]: [None] when none of its cases is ready. *)
Definition acquire_wake (seen : nat) (refresh_err cancelled poll : bool) (c : caller) (l : executionLane)
  : option (executionLane * lane_pc) :=
  if cancelled || negb (seen =? changed l)%nat || (c_refresh c && poll) then
    Some (if negb cancelled && c_refresh c && refresh_err then (leave c l, LDone) else pass cancelled c l)
  else None.

(** The release function; [sync.Once] makes a second call do nothing. *)
Definition release (c : caller) (l : executionLane) : executionLane :=
  notify (if c_host c then l <| host := false |> else l <| readers := (readers l - 1)%Z |>).

(** ** The world of one lane *)

Record Lanes := mkLanes { lane : executionLane; callers : list caller }.

#[export] Instance Lanes_eta : Eta Lanes := fun w => mkLanes (lane w) (callers w).

Inductive lane_event : Type :=
| LArrive (host : bool) (ref : string) (refresh : bool)
| LEnter (i : nat) (refresh_err cancelled : bool)
| LWake (i : nat) (refresh_err cancelled poll : bool)
| LRelease (i : nat)
| LPreserve (ref : string)
| LYield (ref : string)
| LReconcile (refs : list string).

Definition move (i : nat) (c : caller) (o : executionLane * lane_pc) (w : Lanes) : Lanes :=
  mkLanes (fst o) (<[i := c <| c_pc := snd o |>]> (callers w)).

Definition lane_step (e : lane_event) (w : Lanes) : option Lanes :=
  match e with
  | LArrive h ref refresh => Some (w <| callers := callers w ++ [mkCaller h ref refresh LStart] |>)
  | LEnter i rerr cancelled =>
      match callers w !! i with
      | Some c => match c_pc c with
                  | LStart => Some (move i c (acquire_enter rerr cancelled c (lane w)) w)
                  | _ => None
                  end
      | None => None
      end
  | LWake i rerr cancelled poll =>
      match callers w !! i with
      | Some c => match c_pc c with
                  | LWait seen => option_map (fun o => move i c o w)
                                    (acquire_wake seen rerr cancelled poll c (lane w))
                  | _ => None
                  end
      | None => None
      end
  | LRelease i =>
      match callers w !! i with
      | Some c => match c_pc c with
                  | LHeld => Some (move i c (release c (lane w), LDone) w)
                  | LDone => Some w
                  | _ => None
                  end
      | None => None
      end
  | LPreserve ref => Some (w <| lane := PreserveQueuedHostExecution ref (lane w) |>)
  | LYield ref => Some (w <| lane := YieldQueuedHostExecution ref (lane w) |>)
  | LReconcile refs => Some (w <| lane := ReconcileQueuedHostExecution refs (lane w) |>)
  end.

Fixpoint lane_run (es : list lane_event) (w : Lanes) : option Lanes :=
  match es with
  | [] => Some w
  | e :: es => match lane_step e w with Some w => lane_run es w | None => None end
  end.

Definition lane_reachable (w : Lanes) : Prop := exists es, lane_run es (mkLanes new_lane []) = Some w.

(** ** Counting callers *)

Definition count (f : caller -> bool) (l : list caller) : nat := length (List.filter f l).

Definition b2n (b : bool) : nat := if b then 1 else 0.

Lemma count_insert f l i x y :
  l !! i = Some x -> (count f (<[i := y]> l) + b2n (f x) = count f l + b2n (f y))%nat.
Proof.
  revert i. induction l as [|a l IH]; intros [|i] E; simplify_eq/=.
  - unfold count. simpl. destruct (f x), (f y); simpl; lia.
  - specialize (IH i E). unfold count in *. simpl. destruct (f a); simpl; lia.
Qed.

Lemma count_snoc f l x : count f (l ++ [x]) = (count f l + b2n (f x))%nat.
Proof. unfold count. rewrite List.filter_app, length_app. simpl. by destruct (f x). Qed.

Lemma count_in f l i x : l !! i = Some x -> f x = true -> (1 <= count f l)%nat.
Proof.
  revert i. unfold count. induction l as [|a l IH]; intros [|i] E Hf; simplify_eq/=.
  - rewrite Hf. simpl. lia.
  - specialize (IH i E Hf). destruct (f a); simpl; lia.
Qed.

Lemma count_two f l i j x y :
  i <> j -> l !! i = Some x -> l !! j = Some y -> f x = true -> f y = true -> (2 <= count f l)%nat.
Proof.
  revert i j. unfold count. induction l as [|a l IH]; intros [|i] [|j] Hne Ei Ej Hx Hy; simplify_eq/=.
  - rewrite Hx. simpl. pose proof (count_in f l j y Ej Hy). unfold count in *. lia.
  - rewrite Hy. simpl. pose proof (count_in f l i x Ei Hx). unfold count in *. lia.
  - specialize (IH i j ltac:(lia) Ei Ej Hx Hy). destruct (f a); simpl; lia.
Qed.

Lemma count_find f l : (1 <= count f l)%nat -> exists i x, l !! i = Some x /\ f x = true.
Proof.
  unfold count. induction l as [|a l IH]; simpl; [lia|]. intros H. destruct (f a) eqn:E.
  - by exists 0%nat, a.
  - destruct (IH H) as (i & x & ? & ?). by exists (S i), x.
Qed.

Definition held (h : bool) (c : caller) : bool :=
  Bool.eqb (c_host c) h && match c_pc c with LHeld => true | _ => false end.

Definition waiting_host (c : caller) : bool :=
  c_host c && match c_pc c with LWait _ => true | _ => false end.
