(* ===== verification/ExecLaneTheory.v ===== *)
(** * Properties of the execution lane

    An invariant of every reachable world of a lane - the counters are exactly the
    callers, a host owner is alone, and a waiter that could be admitted has been
    woken - and what follows: exclusion, the order of admission, no lost wake-up,
    and the meaning of readiness and of reconciliation. *)

From stdpp Require Import base tactics list strings gmap.
From Stdlib Require Import ZArith Lia Bool Ascii String List.
From S2P Require Import Prelude ExecLane.

(** ** The guard *)

Lemma size_empty_iff (X : gset string) : (0 <? size X)%nat = false <-> X = ∅.
Proof.
  rewrite Nat.ltb_ge. split; [|intros ->; by rewrite size_empty].
  intros H. apply leibniz_equiv, size_empty_inv. lia.
Qed.

Lemma grant_spec c l :
  grant c l = true <->
  host l = false /\
  (if c_host c
   then readers l = 0%Z /\ (queuedHosts l = ∅ \/ (c_ref c <> "" /\ c_ref c = firstQueuedHost l))
   else writers l = 0%Z /\ queuedHosts l = ∅).
Proof.
  unfold grant. rewrite andb_true_iff, negb_true_iff.
  assert ((negb (0 <? size (queuedHosts l))%nat = true) <-> queuedHosts l = ∅) as Hq.
  { by rewrite negb_true_iff, size_empty_iff. }
  apply and_iff_compat_l. destruct (c_host c); simpl.
  - rewrite andb_true_iff, orb_true_iff, Hq, andb_true_iff, negb_true_iff, Z.eqb_eq, String.eqb_neq,
      String.eqb_eq. done.
  - rewrite orb_false_r, andb_true_iff, Z.eqb_eq, Hq. done.
Qed.

(** The lane changed without a notification, and only against the waiters. *)
Definition tighter (l l' : executionLane) : Prop :=
  changed l' = changed l /\
  (host l' = true \/
   (host l' = host l /\ (writers l' = 0 -> writers l = 0)%Z /\ (readers l' = 0 -> readers l = 0)%Z /\
    (queuedHosts l' = ∅ -> queuedHosts l = ∅))).

(** A waiter without a queue reference that was not woken cannot be admitted. *)
Definition seen_ok (l : executionLane) (c : caller) : Prop :=
  match c_pc c with
  | LWait g => (g <= changed l)%nat /\ (g = changed l -> c_ref c = "" -> grant c l = false)
  | _ => True
  end.

Lemma seen_ok_later l l' c :
  seen_ok l c -> (changed l < changed l')%nat \/ tighter l l' -> seen_ok l' c.
Proof.
  unfold seen_ok. destruct (c_pc c) as [|g| |]; try done. intros [Hle Hg] [Hlt|[Hc Ht]]; [split; lia|].
  rewrite Hc. split; [done|]. intros Hgc Hr. specialize (Hg Hgc Hr).
  destruct (grant c l') eqn:E; [|done]. rewrite <- Hg. symmetry. apply grant_spec.
  apply grant_spec in E as [Eh Er]. destruct Ht as [Ht|(Hh & Hw & Hrd & Hq)]; [congruence|].
  split; [congruence|]. destruct (c_host c).
  - destruct Er as [H1 [H2|[H2 _]]]; [|done]. auto.
  - destruct Er; auto.
Qed.

Lemma tighter_refl l : tighter l l.
Proof. split; [done|]. by right. Qed.

(** ** The invariant *)

Record lane_inv (w : Lanes) : Prop := {
  li_writers : writers (lane w) = Z.of_nat (count waiting_host (callers w));
  li_readers : readers (lane w) = Z.of_nat (count (held false) (callers w));
  li_host : count (held true) (callers w) = b2n (host (lane w));
  li_excl : host (lane w) = true -> readers (lane w) = 0%Z;
  li_seen : forall i c, callers w !! i = Some c -> seen_ok (lane w) c;
  li_order : forall ref, ref ∈ queuedHosts (lane w) -> ref ∈ queuedOrder (lane w)
}.

(** One caller moves and the lane with it. *)
Lemma lane_inv_move w i x y l' :
  lane_inv w -> callers w !! i = Some x ->
  (writers l' = writers (lane w) + Z.of_nat (b2n (waiting_host y)) - Z.of_nat (b2n (waiting_host x)))%Z ->
  (readers l' = readers (lane w) + Z.of_nat (b2n (held false y)) - Z.of_nat (b2n (held false x)))%Z ->
  (b2n (host l') + b2n (held true x) = b2n (host (lane w)) + b2n (held true y))%nat ->
  (host l' = true -> readers l' = 0%Z) ->
  (changed (lane w) < changed l')%nat \/ tighter (lane w) l' ->
  seen_ok l' y ->
  queuedHosts l' ⊆ queuedHosts (lane w) -> queuedOrder l' = queuedOrder (lane w) ->
  lane_inv (mkLanes l' (<[i := y]> (callers w))).
Proof.
  intros [Iw Ir Ih Ie Is Io] Hx Hw Hr Hh He Hl Hy Hq Ho.
  pose proof (count_insert waiting_host _ _ _ y Hx). pose proof (count_insert (held false) _ _ _ y Hx).
  pose proof (count_insert (held true) _ _ _ y Hx).
  constructor; simpl; [lia|lia|lia|done| |].
  - intros j c [(-> & <- & _)|[_ Hj]]%list_lookup_insert_Some; [done|].
    eapply seen_ok_later; [by eapply Is|done].
  - rewrite Ho. set_solver.
Qed.

(** The lane changes and no caller moves. *)
Lemma lane_inv_queue w l' :
  lane_inv w -> writers l' = writers (lane w) -> readers l' = readers (lane w) -> host l' = host (lane w) ->
  (changed (lane w) < changed l')%nat \/ tighter (lane w) l' ->
  (forall ref, ref ∈ queuedHosts l' -> ref ∈ queuedOrder l') ->
  lane_inv (mkLanes l' (callers w)).
Proof.
  intros [Iw Ir Ih Ie Is Io] Hw Hr Hh Hl Hq. constructor; simpl; rewrite ?Hw, ?Hr, ?Hh; try done.
  intros i c Hc. eapply seen_ok_later; [by eapply Is|done].
Qed.

Lemma yieldHost_fields ref l :
  writers (yieldHost ref l) = writers l /\ readers (yieldHost ref l) = readers l /\
  host (yieldHost ref l) = host l /\ changed (yieldHost ref l) = changed l /\
  queuedOrder (yieldHost ref l) = queuedOrder l /\ queuedHosts (yieldHost ref l) ⊆ queuedHosts l.
Proof. unfold yieldHost. case_match; simpl; split_and!; try done. set_solver. Qed.

(** The lane of a host caller that is counted as a writer. *)
Definition counted (c : caller) (l : executionLane) : executionLane :=
  if c_host c then l <| writers := (writers l + 1)%Z |> else l.

(** A caller that is in the loop counts as a writer if it wants the host lane: the pass
    from the lane [counted c l] leaves it waiting, holding, or gone. *)
Lemma pass_spec cancelled c l l' q :
  pass cancelled c (counted c l) = (l', q) ->
  (q = LDone /\ writers l' = writers l /\ readers l' = readers l /\ host l' = host l /\
   queuedHosts l' = queuedHosts l /\ queuedOrder l' = queuedOrder l /\
   ((changed l < changed l')%nat \/ (c_host c = false /\ l' = l))) \/
  (q = LHeld /\ cancelled = false /\ grant c (counted c l) = true /\ writers l' = writers l /\
   queuedHosts l' ⊆ queuedHosts l /\ queuedOrder l' = queuedOrder l /\ changed l' = changed l /\
   if c_host c then readers l' = readers l /\ host l' = true
   else readers l' = (readers l + 1)%Z /\ host l' = false /\ queuedHosts l' = queuedHosts l) \/
  (q = LWait (changed l) /\ l' = counted c l /\ grant c (counted c l) = false).
Proof.
  unfold pass, leave, counted. intros E. destruct cancelled.
  { left. destruct (c_host c); simplify_eq/=; split_and!; try done; [lia|left; lia|by right]. }
  destruct (grant c (if c_host c then _ else _)) eqn:Eg; [right; left|right; right].
  - destruct (c_host c) eqn:Eh; simplify_eq/=.
    + case_match; simpl; [|split_and!; try done; lia].
      match goal with |- context [yieldHost _ ?l1] =>
        destruct (yieldHost_fields (c_ref c) l1) as (-> & -> & -> & -> & -> & Hq) end.
      split_and!; try done. simpl. lia.
    + apply grant_spec in Eg as [Eg _]. split_and!; done.
  - destruct (c_host c); by simplify_eq/=.
Qed.

(** Where a caller goes, as the invariant counts it. *)
Lemma moved_fields c q :
  waiting_host (c <| c_pc := q |>) = c_host c && match q with LWait _ => true | _ => false end /\
  held true (c <| c_pc := q |>) = c_host c && match q with LHeld => true | _ => false end /\
  held false (c <| c_pc := q |>) = negb (c_host c) && match q with LHeld => true | _ => false end /\
  c_pc (c <| c_pc := q |>) = q /\ forall l, grant (c <| c_pc := q |>) l = grant c l.
Proof. unfold waiting_host, held. simpl. split_and!; try done; by destruct (c_host c), q. Qed.

(** The caller enters from outside, or was waiting and is already counted. *)
Definition in_loop (w : Lanes) (c : caller) (l : executionLane) : Prop :=
  c_pc c = LStart /\ l = lane w \/ (exists g, c_pc c = LWait g) /\ lane w = counted c l.

Lemma in_loop_fields w c l :
  in_loop w c l ->
  held true c = false /\ held false c = false /\
  (writers l + Z.of_nat (b2n (waiting_host c)) = writers (lane w))%Z /\ readers (lane w) = readers l /\
  host (lane w) = host l /\ changed (lane w) = changed l /\ queuedHosts (lane w) = queuedHosts l /\
  queuedOrder (lane w) = queuedOrder l.
Proof.
  unfold in_loop, held, waiting_host, counted. intros [[-> ->]|[[g ->] ->]];
    rewrite ?andb_false_r, ?andb_true_r; [split_and!; try done; simpl; lia|].
  destruct (c_host c); simpl; split_and!; try done; lia.
Qed.

(** The caller moves to where the pass leaves it. *)
Lemma pass_inv w i c cancelled l l' q :
  lane_inv w -> callers w !! i = Some c -> pass cancelled c (counted c l) = (l', q) ->
  in_loop w c l ->
  lane_inv (mkLanes l' (<[i := c <| c_pc := q |>]> (callers w))).
Proof.
  intros Hi Hc E Hl. destruct (in_loop_fields w c l Hl) as (Ht & Hf & Lw & Lr & Lh & Lc & Lq & Lo).
  pose proof (li_excl _ Hi) as Hex. pose proof (li_readers _ Hi) as Hrd.
  pose proof (li_writers _ Hi) as Hwr. rewrite Lr in *. rewrite Lh in *.
  destruct (moved_fields c q) as (Y1 & Y2 & Y3 & Y4 & Y5). set (y := c <| c_pc := q |>) in *.
  clearbody y.
  apply pass_spec in E as [(-> & E1 & E2 & E3 & E4 & E5 & E6)|[(-> & _ & Eg & E1 & E2 & E3 & E4 & E5)|(-> & -> & Eg)]].
  - rewrite !andb_false_r in *.
    apply (lane_inv_move w i c); try done; rewrite ?Ht, ?Hf, ?Lr, ?Lh, ?Y1, ?Y2, ?Y3, ?E2, ?E3; simpl; try lia; try done.
    + destruct E6 as [E6|[Ehc ->]]; [left; lia|]. right. split; [done|].
      right. split; [done|]. rewrite Lr, Lq. split_and!; try done. unfold waiting_host in Lw.
      rewrite Ehc in Lw. simpl in Lw. lia.
    + unfold seen_ok. by rewrite Y4.
    + by rewrite E4, Lq.
    + congruence.
  - apply grant_spec in Eg as [Eh Eg].
    rewrite andb_false_r in Y1. rewrite !andb_true_r in *.
    assert (host (counted c l) = host l /\ readers (counted c l) = readers l /\
      queuedHosts (counted c l) = queuedHosts l) as (G1 & G2 & G3).
    { unfold counted. by destruct (c_host c). }
    rewrite G1 in Eh. rewrite G2, G3 in Eg.
    assert (seen_ok l' y) as Hs by (unfold seen_ok; by rewrite Y4).
    destruct (c_host c) eqn:Ehc; simpl in Y1, Y2, Y3; destruct Eg as [Eg Eq].
    + destruct E5 as [E5 E6].
      apply (lane_inv_move w i c); try done; rewrite ?Ht, ?Hf, ?Lr, ?Lh, ?Lc, ?Lq, ?Y1, ?Y2, ?Y3, ?Eh, ?E6; simpl;
        try lia; try done; [|congruence]. right. split; [congruence|]. by left.
    + destruct E5 as (E5 & E6 & E7).
      apply (lane_inv_move w i c); try done; rewrite ?Ht, ?Hf, ?Lr, ?Lh, ?Lc, ?Lq, ?Y1, ?Y2, ?Y3, ?Eh, ?E6, ?E7; simpl;
        try lia; try done; [|congruence].
      right. split; [congruence|]. right. rewrite Lq, Lr, Lh. split_and!; try congruence; [intros _|lia].
      rewrite <- Lw. unfold counted in Eg. rewrite Ehc in Eg. unfold waiting_host. rewrite Ehc. simpl. lia.
  - rewrite !andb_false_r in *. rewrite andb_true_r in Y1.
    assert (seen_ok (counted c l) y) as Hs.
    { unfold seen_ok. rewrite Y4, Y5. split; [|done]. unfold counted. by destruct (c_host c). }
    apply (lane_inv_move w i c); try done; rewrite ?Ht, ?Hf, ?Lr, ?Lh, ?Lc, ?Lq, ?Lo, ?Y1, ?Y2, ?Y3;
      unfold counted in *; destruct (c_host c) eqn:Ehc; simpl; try lia; try done.
    + right. split; [done|]. right. rewrite Lh, Lr, Lq. simpl. split_and!; try done.
      destruct (waiting_host c); simpl in Lw; lia.
    + right. split; [done|]. right. rewrite Lh, Lr, Lq. split_and!; try done.
      unfold waiting_host in Lw. rewrite Ehc in Lw. simpl in Lw. lia.
Qed.

(** ** Every step *)

(** The lane of a waiting caller counts it. *)
Lemma waiting_counted c l : exists l0, l = counted c l0.
Proof.
  unfold counted. destruct (c_host c); [|by exists l].
  exists (l <| writers := (writers l - 1)%Z |>). destruct l. simpl. f_equal. lia.
Qed.

Lemma leave_pass c l : (leave c l, LDone) = pass true c l.
Proof. done. Qed.

Lemma enter_inv w i c rerr cancelled :
  lane_inv w -> callers w !! i = Some c -> c_pc c = LStart ->
  lane_inv (move i c (acquire_enter rerr cancelled c (lane w)) w).
Proof.
  intros Hi Hc Hp. unfold acquire_enter, move. case_match.
  - simpl. apply (lane_inv_move w i c); try done; unfold waiting_host, held; simpl; rewrite ?Hp, ?andb_false_r;
      simpl; try lia; [apply (li_excl _ Hi)|right; apply tighter_refl].
  - destruct (pass cancelled c _) as [l' q] eqn:E. simpl. eapply (pass_inv w i c cancelled (lane w)); try done. by left.
Qed.

Lemma wake_inv w i c g rerr cancelled poll o :
  lane_inv w -> callers w !! i = Some c -> c_pc c = LWait g ->
  acquire_wake g rerr cancelled poll c (lane w) = Some o -> lane_inv (move i c o w).
Proof.
  intros Hi Hc Hp E. unfold acquire_wake in E. case_match; [|done]. injection E as <-.
  destruct (waiting_counted c (lane w)) as [l0 Hl0]. unfold move. case_match.
  - simpl. rewrite Hl0. eapply (pass_inv w i c true l0); try done. right. eauto.
  - destruct (pass cancelled c (lane w)) as [l' q] eqn:E. simpl. rewrite Hl0 in E.
    eapply (pass_inv w i c cancelled l0); try done. right. eauto.
Qed.

Lemma release_inv w i c :
  lane_inv w -> callers w !! i = Some c -> c_pc c = LHeld ->
  lane_inv (move i c (release c (lane w), LDone) w).
Proof.
  intros Hi Hc Hp. unfold release, move. simpl.
  pose proof (li_readers _ Hi). pose proof (li_host _ Hi) as Hh. pose proof (li_excl _ Hi) as Hx.
  destruct (c_host c) eqn:Ehc; (apply (lane_inv_move w i c); try done); unfold waiting_host, held; simpl;
    rewrite ?Hp, ?Ehc, ?andb_false_r; simpl; try lia.
  - pose proof (count_in (held true) _ _ _ Hc) as Hn. unfold held in Hn. rewrite Hp, Ehc in Hn. simpl in Hn.
    specialize (Hn eq_refl). fold (held true) in Hn. rewrite Hh in Hn. destruct (host (lane w)); simpl in *; lia.
  - intros Ht. rewrite Ht in *. pose proof (count_in (held false) _ _ _ Hc) as Hn. unfold held in Hn.
    rewrite Hp, Ehc in Hn. simpl in Hn. specialize (Hn eq_refl). fold (held false) in Hn. lia.
Qed.

Lemma reconcile_unmoved (queued old : gset string) :
  negb (size queued =? size old)%nat || negb (bool_decide (queued ⊆ old)) = false -> queued = old.
Proof.
  intros [H1 H2]%orb_false_iff. apply negb_false_iff in H1, H2. apply Nat.eqb_eq in H1.
  apply bool_decide_eq_true in H2. apply set_subseteq_size_eq; [done|lia].
Qed.

Lemma reconcile_inv w refs :
  lane_inv w -> lane_inv (mkLanes (ReconcileQueuedHostExecution refs (lane w)) (callers w)).
Proof.
  intros Hi. unfold ReconcileQueuedHostExecution. case_match eqn:E.
  - apply lane_inv_queue; simpl; try done; [left; lia|]. set_solver.
  - apply reconcile_unmoved in E. apply lane_inv_queue; simpl; try done; [|set_solver].
    right. split; [done|]. right. simpl. rewrite E. split_and!; done.
Qed.


Lemma preserve_inv w ref :
  lane_inv w -> lane_inv (mkLanes (PreserveQueuedHostExecution ref (lane w)) (callers w)).
Proof.
  intros Hi. pose proof (li_order _ Hi) as Ho. unfold PreserveQueuedHostExecution.
  destruct (ref =? "")%string; [by destruct w|].
  case_bool_decide; apply lane_inv_queue; simpl; try done; try (left; lia); set_solver.
Qed.

Lemma yield_inv w ref :
  lane_inv w -> lane_inv (mkLanes (YieldQueuedHostExecution ref (lane w)) (callers w)).
Proof.
  intros Hi. pose proof (li_order _ Hi) as Ho. unfold YieldQueuedHostExecution.
  destruct (ref =? "")%string; [by destruct w|].
  destruct (yieldHost_fields ref (lane w)) as (H1 & H2 & H3 & H4 & H5 & H6).
  apply lane_inv_queue; simpl; try done; [left; lia|]. rewrite H5. set_solver.
Qed.

Lemma lane_step_inv e w w' : lane_inv w -> lane_step e w = Some w' -> lane_inv w'.
Proof.
  intros Hi E. destruct e as [h ref rf|i rerr ca|i rerr ca po|i|ref|ref|refs]; simpl in E.
  - injection E as <-. destruct Hi as [Iw Ir Ih Ie Is Io].
    constructor; simpl; rewrite ?count_snoc; try done; unfold waiting_host, held in *; simpl;
      rewrite ?andb_false_r; simpl; try lia.
    intros i c [Hc|[_ Hc]]%lookup_app_Some; [eauto|].
    apply list_lookup_singleton_Some in Hc as [_ <-]. done.
  - destruct (callers w !! i) as [c|] eqn:Hc; [|done]. destruct (c_pc c) eqn:Hp; try done.
    injection E as <-. by apply enter_inv.
  - destruct (callers w !! i) as [c|] eqn:Hc; [|done]. destruct (c_pc c) as [|g| |] eqn:Hp; try done.
    destruct (acquire_wake _ _ _ _ _ _) eqn:Ew; simplify_eq/=. by eapply wake_inv.
  - destruct (callers w !! i) as [c|] eqn:Hc; [|done]. destruct (c_pc c) as [|g| |] eqn:Hp; simplify_eq/=; [|done].
    by apply release_inv.
  - injection E as <-. by apply preserve_inv.
  - injection E as <-. by apply yield_inv.
  - injection E as <-. by apply reconcile_inv.
Qed.

Lemma lane_reachable_inv w : lane_reachable w -> lane_inv w.
Proof.
  intros [es E]. assert (lane_inv (mkLanes new_lane [])) as Hi.
  { by constructor. }
  revert Hi E. generalize (mkLanes new_lane []). induction es as [|e es IH]; intros v Hi E; simpl in E; [by simplify_eq|].
  destruct (lane_step e v) eqn:Es; [|done]. eapply IH; [|done]. by eapply lane_step_inv.
Qed.

(** ** Properties *)

Lemma held_of c : c_pc c = LHeld -> held (c_host c) c = true.
Proof. intros Hp. unfold held. by rewrite Hp, Bool.eqb_reflx. Qed.

(** C38: In every interleaving of calls, cancellations, refresh failures, releases and
    queue changes, a host command that holds the lane is the only holder; and the
    counters are exact: [readers] is the number of isolated holders, [writers] the
    number of host calls that wait, [host] says whether a host call holds. *)
Theorem lane_exclusion w :
  lane_reachable w ->
  (forall i j x y, callers w !! i = Some x -> callers w !! j = Some y -> i <> j ->
     c_pc x = LHeld -> c_host x = true -> c_pc y <> LHeld) /\
  readers (lane w) = Z.of_nat (count (held false) (callers w)) /\
  writers (lane w) = Z.of_nat (count waiting_host (callers w)) /\
  b2n (host (lane w)) = count (held true) (callers w).
Proof.
  intros Hr. pose proof (lane_reachable_inv w Hr) as [Iw Ir Ih Ie Is Io].
  split_and!; try done. intros i j x y Hx Hy Hne Hpx Hhx Hpy.
  pose proof (held_of x Hpx) as Gx. pose proof (held_of y Hpy) as Gy. rewrite Hhx in Gx.
  destruct (c_host y).
  - pose proof (count_two (held true) _ _ _ _ _ Hne Hx Hy Gx Gy). destruct (host (lane w)); simpl in Ih; lia.
  - pose proof (count_in (held true) _ _ _ Hx Gx). pose proof (count_in (held false) _ _ _ Hy Gy).
    destruct (host (lane w)); simpl in Ih; [specialize (Ie eq_refl)|]; lia.
Qed.

(** The lane a pass admits from. *)
Lemma pass_held cancelled c l l' :
  pass cancelled c l = (l', LHeld) -> cancelled = false /\ grant c l = true /\
  (c_host c = true -> c_ref c <> "" ->
     (c_ref c ∉ queuedHosts l') /\ (c_ref c ∈ yieldedHosts l')).
Proof.
  unfold pass. intros E. destruct cancelled; [done|]. destruct (grant c l); [|done].
  split_and!; try done. intros Hh Hr. apply String.eqb_neq in Hr. rewrite Hh, Hr in E. simpl in E.
  injection E as <-. unfold yieldHost. rewrite Hr. simpl. set_solver.
Qed.

(** The step that admits a caller is a pass of its own. *)
Lemma admitted_by e w w' i x y :
  lane_step e w = Some w' -> callers w !! i = Some x -> callers w' !! i = Some y ->
  c_pc x <> LHeld -> c_pc y = LHeld ->
  exists l l', pass false x l = (l', LHeld) /\ lane w' = l' /\
    (l = lane w /\ (exists g, c_pc x = LWait g) \/ l = counted x (lane w) /\ c_pc x = LStart).
Proof.
  intros E Hx Hy Hnx Hp.
  assert (forall c o, (mkLanes (fst o) (<[i := c <| c_pc := snd o |>]> (callers w))) = w' ->
    c_pc y = snd o /\ lane w' = fst o) as Hm.
  { intros c o <-. simpl in Hy. rewrite list_lookup_insert_eq in Hy by (by eapply lookup_lt_Some).
    by injection Hy as <-. }
  assert (forall j c o, j <> i -> move j c o w <> w') as Hother.
  { intros j c o Hne <-. unfold move in Hy. simpl in Hy. rewrite list_lookup_insert_ne in Hy by done. congruence. }
  destruct e as [h ref rf|j rerr ca|j rerr ca po|j|ref|ref|refs]; simpl in E;
    try (injection E as <-; simpl in Hy; congruence).
  - injection E as <-. simpl in Hy. rewrite lookup_app_l in Hy by (by eapply lookup_lt_Some). congruence.
  - destruct (callers w !! j) as [c|] eqn:Hc; [|done]. destruct (c_pc c) eqn:Hpc; simplify_eq.
    destruct (decide (j = i)) as [->|Hne]; [|by destruct (Hother j c _ Hne eq_refl)].
    destruct (Hm c _ eq_refl) as [Hq Hl]. rewrite Hx in Hc. injection Hc as <-. rewrite Hp in Hq. unfold acquire_enter in Hq, Hl.
    case_match; [done|]. destruct (pass ca x _) as [l' q] eqn:Ep. simpl in Hq, Hl. subst q.
    destruct (pass_held _ _ _ _ Ep) as [-> _]. exists (counted x (lane w)), l'.
    split; [done|]. split; [|by right]. simpl. unfold acquire_enter. by rewrite H, Ep.
  - destruct (callers w !! j) as [c|] eqn:Hc; [|done]. destruct (c_pc c) as [|g| |] eqn:Hpc; simplify_eq.
    destruct (acquire_wake _ _ _ _ _ _) as [o|] eqn:Ew; [|done]. injection E as <-.
    destruct (decide (j = i)) as [->|Hne]; [|by destruct (Hother j c o Hne eq_refl)].
    destruct (Hm c o eq_refl) as [Hq Hl]. rewrite Hx in Hc. injection Hc as <-. unfold acquire_wake in Ew. case_match; [|done].
    injection Ew as <-. case_match; [simpl in *; congruence|].
    destruct (pass ca x (lane w)) as [l' q] eqn:Ep. simpl in Hq, Hl. rewrite Hp in Hq. subst q.
    destruct (pass_held _ _ _ _ Ep) as [-> _]. exists (lane w), l'.
    split; [done|]. split; [done|]. left. eauto.
  - destruct (callers w !! j) as [c|] eqn:Hc; [|done]. destruct (c_pc c) eqn:Hpc; [done|done| |injection E as <-; congruence].
    injection E as <-.
    destruct (decide (j = i)) as [->|Hne]; [simplify_eq; congruence|by destruct (Hother j c _ Hne eq_refl)].
Qed.

Lemma count_zero f l i x : count f l = 0%nat -> l !! i = Some x -> f x = false.
Proof.
  intros H0 Hx. destruct (f x) eqn:E; [|done]. pose proof (count_in f l i x Hx E). lia.
Qed.

Lemma firstQueuedHost_in l : firstQueuedHost l <> "" -> firstQueuedHost l ∈ queuedHosts l.
Proof.
  unfold firstQueuedHost. destruct (base.filter _ _) as [|a r] eqn:E; [done|]. intros _.
  assert (a ∈ base.filter (fun ref => ref ∈ queuedHosts l) (queuedOrder l)) as Hin
    by (rewrite E; apply list_elem_of_here).
  by apply list_elem_of_filter in Hin as [? _].
Qed.

(** Who a step may admit.  An isolated call is admitted only when no host call holds the
    lane, waits for it, or is queued for it; a host call only when nobody holds it,
    and while parked host calls are queued only the first of them in queue order.
    The admitted reference leaves the queue and is remembered as yielded. *)
Theorem lane_admission_order e w w' i x y :
  lane_reachable w -> lane_step e w = Some w' ->
  callers w !! i = Some x -> callers w' !! i = Some y -> c_pc x <> LHeld -> c_pc y = LHeld ->
  (c_host x = false ->
     queuedHosts (lane w) = ∅ /\
     forall j c, callers w !! j = Some c -> waiting_host c = false /\ held true c = false) /\
  (c_host x = true ->
     (queuedHosts (lane w) = ∅ \/ c_ref x = firstQueuedHost (lane w)) /\
     (forall j c, callers w !! j = Some c -> c_pc c <> LHeld) /\
     (c_ref x <> "" -> (c_ref x ∉ queuedHosts (lane w')) /\ (c_ref x ∈ yieldedHosts (lane w')))).
Proof.
  intros Hr E Hx Hy Hnx Hp. destruct (admitted_by e w w' i x y E Hx Hy Hnx Hp) as (l & l' & Ep & Hl' & Hl).
  apply pass_held in Ep as (_ & Eg & Hy'). apply grant_spec in Eg as [Eh Eg].
  pose proof (lane_reachable_inv w Hr) as [Iw Ir Ih Ie Is Io].
  assert (host (lane w) = host l /\ readers (lane w) = readers l /\ queuedHosts (lane w) = queuedHosts l /\
    firstQueuedHost (lane w) = firstQueuedHost l /\ (c_host x = false -> lane w = l))
    as (L1 & L2 & L3 & L4 & L5).
  { destruct Hl as [[-> _]|[-> _]]; [done|]. unfold counted. by destruct (c_host x). }
  rewrite L1, Eh in Ih. split; intros Hh; rewrite Hh in Eg.
  - destruct Eg as [Ew Eq]. rewrite <- (L5 Hh) in *. split; [done|]. intros j c Hc.
    split; eapply count_zero; try done; lia.
  - destruct Eg as [Er Eq]. rewrite L2, Er in Ir. rewrite L3, L4. split_and!.
    + destruct Eq as [?|[_ ?]]; [by left|by right].
    + intros j c Hc Hpc. apply held_of in Hpc. destruct (c_host c).
      * pose proof (count_in _ _ _ _ Hc Hpc). simpl in Ih. lia.
      * pose proof (count_in _ _ _ _ Hc Hpc). lia.
    + rewrite Hl'. auto.
Qed.

(** Waking a caller that may be admitted admits it. *)
Lemma wake_admits w i c g :
  callers w !! i = Some c -> c_pc c = LWait g -> grant c (lane w) = true ->
  (g <> changed (lane w) \/ c_refresh c = true) ->
  exists w' y, lane_step (LWake i false false true) w = Some w' /\ callers w' !! i = Some y /\ c_pc y = LHeld.
Proof.
  intros Hc Hp Hg Hen. simpl. rewrite Hc, Hp. unfold acquire_wake, pass.
  rewrite Hg, !andb_false_r. simpl.
  assert (negb (g =? changed (lane w))%nat || c_refresh c && true = true) as ->.
  { destruct Hen as [Hne| ->]; [|by rewrite orb_true_r]. apply Nat.eqb_neq in Hne. by rewrite Hne. }
  simpl. eexists _, (c <| c_pc := LHeld |>). split; [done|]. split; [|done]. unfold move. simpl.
  rewrite list_lookup_insert_eq; [done|]. by eapply lookup_lt_Some.
Qed.

(** No wake-up is lost.  When nobody holds the lane and no parked call is queued, some
    waiting call is admitted by its next step: a waiting host call if there is one,
    otherwise any waiting call; and a waiting call whose reference is the first of
    the queue is admitted too.  Waiters with a queue reference refresh (they poll
    every 200 ms), as every caller that sets one does. *)
Theorem lane_no_lost_wakeup w i c g :
  lane_reachable w -> callers w !! i = Some c -> c_pc c = LWait g ->
  (forall j d, callers w !! j = Some d -> c_ref d <> "" -> c_refresh d = true) ->
  (forall j d, callers w !! j = Some d -> c_pc d <> LHeld) ->
  (queuedHosts (lane w) = ∅ ->
     exists j w' y, lane_step (LWake j false false true) w = Some w' /\
       callers w' !! j = Some y /\ c_pc y = LHeld /\ (c_host c = true -> c_host y = true)) /\
  (c_host c = true -> c_ref c <> "" -> c_ref c = firstQueuedHost (lane w) ->
     exists w' y, lane_step (LWake i false false true) w = Some w' /\
       callers w' !! i = Some y /\ c_pc y = LHeld).
Proof.
  intros Hr Hc Hp Href Hnone. pose proof (lane_reachable_inv w Hr) as [Iw Ir Ih Ie Is Io].
  assert (forall h, count (held h) (callers w) = 0%nat) as Hz.
  { intros h. destruct (count (held h) (callers w)) eqn:E; [done|].
    destruct (count_find (held h) (callers w)) as (j & d & Hd & Hh); [lia|]. apply Hnone in Hd.
    unfold held in Hh. apply andb_true_iff in Hh as [_ Hh]. by destruct (c_pc d). }
  rewrite Hz in Ih, Ir. assert (host (lane w) = false) as Hhost by (by destruct (host (lane w))).
  assert (forall j d g', callers w !! j = Some d -> c_pc d = LWait g' -> grant d (lane w) = true ->
    g' <> changed (lane w) \/ c_refresh d = true) as Hen.
  { intros j d g' Hd Hpd Hg. destruct (decide (c_ref d = "")) as [E|E]; [left|right; by eapply Href].
    specialize (Is j d Hd). unfold seen_ok in Is. rewrite Hpd in Is. destruct Is as [_ Is].
    intros Eg. specialize (Is Eg E). congruence. }
  split.
  - intros Hq. destruct (count waiting_host (callers w)) eqn:Ew.
    + assert (c_host c = false) as Hh.
      { pose proof (count_zero _ _ _ _ Ew Hc) as Hw. unfold waiting_host in Hw. rewrite Hp in Hw. by destruct (c_host c). }
      assert (grant c (lane w) = true) as Hg by (apply grant_spec; rewrite Hh; auto with lia).
      destruct (wake_admits w i c g Hc Hp Hg) as (w' & y & ? & ? & ?); [by eapply Hen|].
      exists i, w', y. rewrite Hh. done.
    + destruct (count_find waiting_host (callers w)) as (j & d & Hd & Hw); [lia|].
      unfold waiting_host in Hw. apply andb_true_iff in Hw as [Hh Hw]. destruct (c_pc d) as [|g'| |] eqn:Hpd; try done.
      assert (grant d (lane w) = true) as Hg by (apply grant_spec; rewrite Hh; auto).
      destruct (wake_admits w j d g' Hd Hpd Hg) as (w' & y & Hs & Hy & Hpy); [by eapply Hen|].
      exists j, w', y. split_and!; try done. intros _. simpl in Hs. rewrite Hd, Hpd in Hs.
      destruct (acquire_wake _ _ _ _ _ _) as [o|]; [|done]. injection Hs as <-. unfold move in Hy. simpl in Hy.
      rewrite list_lookup_insert_eq in Hy by (by eapply lookup_lt_Some). by injection Hy as <-.
  - intros Hh Hne Hf. apply (wake_admits w i c g); try done; [apply grant_spec; rewrite Hh; auto|right; by eapply Href].
Qed.

(** [ReconcileQueuedHostExecution] makes the queue exactly the durable waits that have not
    been yielded, in their order; it forgets the yields whose wait is gone, wakes the
    waiters exactly when the set of queued calls changed, and repeating it changes
    nothing. *)
Theorem reconcile_queue refs l :
  let l' := ReconcileQueuedHostExecution refs l in
  (forall ref, ref ∈ queuedHosts l' <-> ref ∈ refs /\ ref ∉ yieldedHosts l) /\
  (forall ref, ref ∈ yieldedHosts l' <-> ref ∈ refs /\ ref ∈ yieldedHosts l) /\
  firstQueuedHost l' = hd "" (base.filter (fun ref => ref ∉ yieldedHosts l) refs) /\
  (changed l' = changed l <-> queuedHosts l' = queuedHosts l) /\
  ReconcileQueuedHostExecution refs l' = l'.
Proof.
  intros l'.
  assert (queuedHosts l' = list_to_set refs ∖ (yieldedHosts l ∩ list_to_set refs) /\
    yieldedHosts l' = yieldedHosts l ∩ list_to_set refs /\ queuedOrder l' = refs /\
    (changed l' = changed l <-> queuedHosts l' = queuedHosts l)) as (Hq & Hy & Ho & Hc).
  { unfold l', ReconcileQueuedHostExecution. case_match eqn:E; simpl; split_and!; try done.
    - split; [lia|]. intros Heq. exfalso. rewrite Heq in E.
      rewrite Nat.eqb_refl, bool_decide_eq_true_2 in E by done. done.
    - by apply reconcile_unmoved in E. }
  assert (forall ref, ref ∈ queuedHosts l' <-> ref ∈ refs /\ ref ∉ yieldedHosts l) as Hq'.
  { intros ref. rewrite Hq. set_solver. }
  split_and!; try done.
  - intros ref. rewrite Hy. set_solver.
  - unfold firstQueuedHost. rewrite Ho.
    assert (forall r : list string, (forall ref, ref ∈ r -> ref ∈ refs) ->
      base.filter (fun ref => ref ∈ queuedHosts l') r = base.filter (fun ref => ref ∉ yieldedHosts l) r) as Hf.
    { intros r. induction r as [|a r IH]; intros Hr; [done|]. rewrite !filter_cons.
      rewrite IH by (intros ref Hin; apply Hr; by apply list_elem_of_further).
      assert (a ∈ refs) as Ha by (apply Hr, list_elem_of_here). specialize (Hq' a).
      repeat case_decide; try done; tauto. }
    rewrite Hf by done. by destruct (base.filter _ refs).
  - unfold ReconcileQueuedHostExecution at 1. rewrite Hy, Hq.
    replace (list_to_set refs ∖ (yieldedHosts l ∩ list_to_set refs ∩ list_to_set refs))
      with (list_to_set refs ∖ (yieldedHosts l ∩ list_to_set refs) : gset string) by set_solver.
    rewrite Nat.eqb_refl, bool_decide_eq_true_2 by done. simpl.
    destruct l' as [r wr h ch q o y]. simpl in *. subst. f_equal. set_solver.
Qed.

Lemma firstQueuedHost_empty w :
  lane_inv w -> "" ∉ queuedHosts (lane w) -> firstQueuedHost (lane w) = "" -> queuedHosts (lane w) = ∅.
Proof.
  intros Hi Hne Hf. apply leibniz_equiv, elem_of_equiv_empty. intros ref Hin.
  pose proof (li_order _ Hi ref Hin) as Ho. unfold firstQueuedHost in Hf.
  assert (ref ∈ base.filter (fun ref => ref ∈ queuedHosts (lane w)) (queuedOrder (lane w))) as Hr
    by (by apply list_elem_of_filter).
  destruct (base.filter _ _) as [|a r] eqn:E; [by apply elem_of_nil in Hr|]. subst.
  assert ("" ∈ base.filter (fun ref => ref ∈ queuedHosts (lane w)) (queuedOrder (lane w))) as H0
    by (rewrite E; apply list_elem_of_here).
  by apply list_elem_of_filter in H0 as [? _].
Qed.

(** Readiness is not optimistic: when [ExecutionLaneReady] answers true for a parked host
    call, that call would be admitted at once, and when it answers true without a
    reference, any call would.  (Queue references are not empty.) *)
Theorem lane_ready_admits w hostRef c :
  lane_reachable w -> "" ∉ queuedHosts (lane w) -> ExecutionLaneReady hostRef (lane w) = true ->
  (hostRef <> "" -> c_host c = true /\ c_ref c = hostRef) ->
  snd (acquire_enter false false c (lane w)) = LHeld.
Proof.
  intros Hr Hne E Hc. pose proof (lane_reachable_inv w Hr) as Hi.
  assert (grant c (counted c (lane w)) = true) as Hg.
  { apply grant_spec. unfold ExecutionLaneReady in E. destruct (negb (hostRef =? "")%string) eqn:Eh; reflect_bools.
    - destruct (Hc Eh) as [Hh Href]. unfold counted. rewrite Hh. simpl. split_and!; try done.
      destruct H0 as [H0|H0]; reflect_bools; [left; by apply firstQueuedHost_empty|].
      right. rewrite Href, <- H0. split; [congruence|done].
    - apply Nat.eqb_eq in H0. assert (queuedHosts (lane w) = ∅) as Hq by (apply size_empty_iff, Nat.ltb_ge; lia).
      unfold counted. destruct (c_host c); simpl; auto. }
  unfold acquire_enter. rewrite andb_false_r. unfold counted in Hg. unfold pass. by rewrite Hg.
Qed.

(** ** A concrete lane

    An isolated call holds the lane; a host call and a second isolated call wait; then
    the first call releases it. *)

Definition lane_events : list lane_event :=
  [LArrive false "" false; LArrive true "" false; LArrive false "" false;
   LEnter 0 false false; LEnter 1 false false; LEnter 2 false false].

Definition lane_after (es : list lane_event) : Lanes :=
  match lane_run es (mkLanes new_lane []) with Some w => w | None => mkLanes new_lane [] end.

Definition busy_lane : Lanes := lane_after lane_events.
Definition idle_lane : Lanes := lane_after (lane_events ++ [LRelease 0]).

Example busy_lane_pcs : map c_pc (callers busy_lane) = [LHeld; LWait 0; LWait 0].
Proof. vm_compute. reflexivity. Qed.

Lemma busy_lane_reachable : lane_reachable busy_lane.
Proof. exists lane_events. vm_compute. reflexivity. Qed.

Lemma idle_lane_reachable : lane_reachable idle_lane.
Proof. exists (lane_events ++ [LRelease 0]). vm_compute. reflexivity. Qed.

Lemma lane_exclusion_witness : writers (lane busy_lane) = Z.of_nat (count waiting_host (callers busy_lane)).
Proof. apply (lane_exclusion busy_lane busy_lane_reachable). Defined.

(** The host call is admitted, so no isolated call holds the lane. *)
Lemma lane_admission_order_witness :
  Forall (fun c => c_pc c <> LHeld) (callers idle_lane).
Proof.
  apply Forall_lookup. apply (lane_admission_order (LWake 1 false false false) idle_lane
           (lane_after (lane_events ++ [LRelease 0; LWake 1 false false false])) 1
           (mkCaller true "" false (LWait 0)) (mkCaller true "" false LHeld) idle_lane_reachable);
    try (vm_compute; reflexivity); simpl; discriminate.
Defined.

(** The second isolated call waits behind the host call, which its release wakes. *)
Lemma lane_no_lost_wakeup_witness :
  exists j w' y, lane_step (LWake j false false true) idle_lane = Some w' /\
    callers w' !! j = Some y /\ c_pc y = LHeld /\ (false = true -> c_host y = true).
Proof.
  apply (lane_no_lost_wakeup idle_lane 2 (mkCaller false "" false (LWait 0)) 0 idle_lane_reachable).
  - vm_compute. reflexivity.
  - reflexivity.
  - intros [|[|[|j]]] d Hd; vm_compute in Hd; simplify_eq; by intros [].
  - intros [|[|[|j]]] d Hd; vm_compute in Hd; by simplify_eq.
  - vm_compute. reflexivity.
Defined.

(** A parked host call is queued on an otherwise free lane. *)
Definition parked_lane : Lanes := lane_after [LPreserve "run-7"; LPreserve "run-9"].

Lemma lane_ready_admits_witness :
  snd (acquire_enter false false (mkCaller true "run-7" true LStart) (lane parked_lane)) = LHeld.
Proof.
  apply (lane_ready_admits parked_lane "run-7").
  - exists [LPreserve "run-7"; LPreserve "run-9"]. vm_compute. reflexivity.
  - apply (bool_decide_unpack _). vm_compute. exact I.
  - vm_compute. reflexivity.
  - intros _. split; reflexivity.
Defined.
