(* ===== verification/Watchdog.v ===== *)
(** * Run watchdog ([internal/runpool/watchdog.go])

    A run is cancelled with [ErrStalled] when it makes no progress within an idle
    window, unless it waits on a person or for admission.  The state is the
    controller, its two 1-capacity channels, the timer and the watch goroutine's
    [armed] flag; a step is one critical section of a caller, one iteration of the
    goroutine's [select], the expiry of the timer, or the passing of time.  A phase
    change and its signal are two steps, as in the code: [inflight] counts the
    callers between them. *)

From stdpp Require Import base tactics list strings.
From Stdlib Require Import ZArith Lia Bool String List.
From S2P Require Import Prelude.

Definition PhaseRunning : string := "running".
Definition PhaseWaitingApproval : string := "waiting_approval".
Definition PhaseWaitingClarify : string := "waiting_clarify".
Definition phaseWaitingAdmission : string := "waiting_admission".

Definition phasePausesWatchdog (phase : string) : bool :=
  (phase =? PhaseWaitingApproval)%string || (phase =? PhaseWaitingClarify)%string ||
  (phase =? phaseWaitingAdmission)%string.

(** A [time.Timer]: stopped (and its channel drained), running to a deadline, or expired
    with its value in the channel. *)
Inductive timer_state : Type :=
| TStopped
| TRunning (deadline : Z)
| TFired.

Inductive cause : Type := ErrStalled | Canceled | ParentCause.

Record Watchdog := mkWatchdog {
  idle : Z;
  phase : string;
  waitDepth : Z;
  waits : list bool;          (* for each [beginWait], whether its resume has run *)
  changed : bool;             (* [control.changed] holds its token *)
  reset : bool;               (* [reset] holds its token *)
  inflight : nat;
  stopCh : bool;              (* closed *)
  parentDone : bool;
  now : Z;
  timer : timer_state;
  armed : bool;
  armedAt : Z;                (* when the timer was last started; read by no step *)
  cancelled : option cause    (* the goroutine has returned *)
}.

#[export] Instance Watchdog_eta : Eta Watchdog := fun w =>
  mkWatchdog (idle w) (phase w) (waitDepth w) (waits w) (changed w) (reset w) (inflight w) (stopCh w)
    (parentDone w) (now w) (timer w) (armed w) (armedAt w) (cancelled w).

(** [WithWatchdog] at time [t]; [None] when the watchdog is disabled. *)
Definition WithWatchdog (d t : Z) : option Watchdog :=
  if (d <=? 0)%Z then None
  else Some (mkWatchdog d PhaseRunning 0 [] false false 0 false false t (TRunning (t + d)) true t None).

Definition set_phase (p : string) (w : Watchdog) : Watchdog :=
  if (p =? "")%string then w else w <| phase := p |> <| inflight := S (inflight w) |>.

(** The handle of the resume function is its position in [waits]; [None] is the no-op. *)
Definition beginWait (p : string) (w : Watchdog) : Watchdog * option nat :=
  if negb (phasePausesWatchdog p) then (w, None)
  else (w <| waitDepth := (waitDepth w + 1)%Z |> <| phase := p |> <| inflight := S (inflight w) |>
          <| waits := waits w ++ [false] |>, Some (length (waits w))).

Definition resume (h : nat) (w : Watchdog) : Watchdog :=
  match waits w !! h with
  | Some false =>
      let w := w <| waits := <[h := true]> (waits w) |> in
      let w := if (0 <? waitDepth w)%Z then w <| waitDepth := (waitDepth w - 1)%Z |> else w in
      let w := if (waitDepth w =? 0)%Z then w <| phase := PhaseRunning |> else w in
      w <| inflight := S (inflight w) |>
  | _ => w
  end.

Definition signalChanged (w : Watchdog) : option Watchdog :=
  match inflight w with
  | O => None
  | S n => Some (w <| inflight := n |> <| changed := true |>)
  end.

Definition activity (w : Watchdog) : Watchdog := w <| reset := true |>.
Definition stop (w : Watchdog) : Watchdog := w <| stopCh := true |>.

Definition resetTimer (w : Watchdog) : Watchdog :=
  w <| timer := TRunning (now w + idle w) |> <| armed := true |> <| armedAt := now w |>.

Definition pauseTimer (w : Watchdog) : Watchdog :=
  (if armed w then w <| timer := TStopped |> else w) <| armed := false |>.

(** One iteration of the [select] loop, by the case taken; [None] when that case is not
    ready. *)
Definition on_timer (w : Watchdog) : option Watchdog :=
  match timer w with
  | TFired =>
      let w := w <| timer := TStopped |> <| armed := false |> in
      Some (if negb (phasePausesWatchdog (phase w)) then w <| cancelled := Some ErrStalled |> else w)
  | _ => None
  end.

Definition on_reset (w : Watchdog) : option Watchdog :=
  if reset w then
    let w := w <| reset := false |> in
    Some (if negb (phasePausesWatchdog (phase w)) then resetTimer w else w)
  else None.

Definition on_changed (w : Watchdog) : option Watchdog :=
  if changed w then
    let w := w <| changed := false |> in
    Some (if phasePausesWatchdog (phase w) then pauseTimer w else resetTimer w)
  else None.

Definition on_stop (w : Watchdog) : option Watchdog :=
  if stopCh w then Some (w <| cancelled := Some Canceled |>) else None.

Definition on_parent (w : Watchdog) : option Watchdog :=
  if parentDone w then Some (w <| cancelled := Some ParentCause |>) else None.

(** The timer expires on its own. *)
Definition expire (w : Watchdog) : option Watchdog :=
  match timer w with
  | TRunning d => if (d <=? now w)%Z then Some (w <| timer := TFired |>) else None
  | _ => None
  end.

Inductive wd_event : Type :=
| WSet (p : string)
| WBegin (p : string)
| WResume (h : nat)
| WSignal
| WActivity
| WStop
| WParent
| WTick (d : Z)
| WExpire
| WOnTimer
| WOnReset
| WOnChanged
| WOnStop
| WOnParent.

(** A loop step needs the goroutine to be alive. *)
Definition alive (o : Watchdog -> option Watchdog) (w : Watchdog) : option Watchdog :=
  match cancelled w with None => o w | Some _ => None end.

Definition wd_step (e : wd_event) (w : Watchdog) : option Watchdog :=
  match e with
  | WSet p => Some (set_phase p w)
  | WBegin p => Some (fst (beginWait p w))
  | WResume h => Some (resume h w)
  | WSignal => signalChanged w
  | WActivity => Some (activity w)
  | WStop => Some (stop w)
  | WParent => Some (w <| parentDone := true |>)
  | WTick d => if (d <? 0)%Z then None else Some (w <| now := (now w + d)%Z |>)
  | WExpire => alive expire w
  | WOnTimer => alive on_timer w
  | WOnReset => alive on_reset w
  | WOnChanged => alive on_changed w
  | WOnStop => alive on_stop w
  | WOnParent => alive on_parent w
  end.

Fixpoint wd_run (es : list wd_event) (w : Watchdog) : option Watchdog :=
  match es with
  | [] => Some w
  | e :: es => match wd_step e w with Some w => wd_run es w | None => None end
  end.

(** The states a watchdog of window [d] started at [t] reaches by events [P] allows. *)
Definition wd_reachable (P : wd_event -> Prop) (d t : Z) (w : Watchdog) : Prop :=
  exists w0 es, WithWatchdog d t = Some w0 /\ Forall P es /\ wd_run es w0 = Some w.

(** No caller sets the phase directly. *)
Definition only_waits (e : wd_event) : Prop := match e with WSet _ => False | _ => True end.

(** The run makes no progress: no activity, no wait begins or ends, nobody stops it. *)
Definition silent (e : wd_event) : bool :=
  match e with WSignal | WTick _ | WExpire | WOnTimer | WOnChanged | WOnReset => true | _ => false end.
