(* ===== verification/WatchdogTheory.v ===== *)
(** * Properties of the run watchdog

    The invariant of every reachable state, and what follows: a stall is reported only
    after a full idle window and never during a person's wait, and a hung run is
    always released. *)

From stdpp Require Import base tactics list strings.
From Stdlib Require Import ZArith Lia Bool String List.
From S2P Require Import Prelude Watchdog.

(** Waits that have not been resumed. *)
Definition pending (l : list bool) : nat := length (List.filter negb l).

Lemma pending_snoc l : pending (l ++ [false]) = S (pending l).
Proof. unfold pending. rewrite List.filter_app, length_app. simpl. lia. Qed.

Lemma pending_resume l h : l !! h = Some false -> S (pending (<[h := true]> l)) = pending l.
Proof.
  revert h. unfold pending. induction l as [|b l IH]; intros [|h] E; simplify_eq/=; [done|].
  specialize (IH h E). destruct b; simpl; lia.
Qed.

Lemma pending_in l h : l !! h = Some false -> (1 <= pending l)%nat.
Proof. intros E. apply pending_resume in E. lia. Qed.

Record wd_inv (d : Z) (w : Watchdog) : Prop := {
  wi_idle : idle w = d /\ (0 < d)%Z;
  wi_at : (armedAt w <= now w)%Z;
  wi_depth : waitDepth w = Z.of_nat (pending (waits w));
  wi_armed : armed w = false -> timer w = TStopped;
  wi_timer : match timer w with
             | TRunning dl => dl = (armedAt w + d)%Z
             | TFired => (armedAt w + d <= now w)%Z
             | TStopped => True
             end;
  wi_rearm : cancelled w = None -> phasePausesWatchdog (phase w) = false ->
             timer w <> TStopped \/ changed w = true \/ (0 < inflight w)%nat
}.

Lemma wd_inv_start d t w : WithWatchdog d t = Some w -> wd_inv d w.
Proof.
  unfold WithWatchdog. case_match eqn:E; [done|]. intros H. injection H as <-. reflect_bools.
  constructor; simpl; try done; try lia. by left.
Qed.

Lemma wd_inv_reset d w : wd_inv d w -> wd_inv d (resetTimer w).
Proof.
  intros [[Hi Hp] H0 H2 H3 H4 H5]. constructor; simpl; try done; try (by left); by rewrite Hi.
Qed.

Lemma set_phase_inv d p w : wd_inv d w -> wd_inv d (set_phase p w).
Proof.
  intros [H1 H0 H2 H3 H4 H5]. unfold set_phase. destruct (p =? "")%string; constructor; simpl; try done. intros _ _. right. right. lia.
Qed.

Lemma beginWait_inv d p w : wd_inv d w -> wd_inv d (fst (beginWait p w)).
Proof.
  intros [H1 H0 H2 H3 H4 H5]. unfold beginWait. destruct (negb (phasePausesWatchdog p)); simpl; constructor; simpl; try done.
  - rewrite pending_snoc. lia.
  - intros _ _. right. right. lia.
Qed.

Lemma resume_inv d h w : wd_inv d w -> wd_inv d (resume h w).
Proof.
  intros [H1 H0 H2 H3 H4 H5]. unfold resume. destruct (waits w !! h) as [[]|] eqn:E; try done.
  pose proof (pending_in _ _ E) as Hp. apply pending_resume in E. simpl.
  assert ((0 <? waitDepth w)%Z = true) as -> by (apply Z.ltb_lt; lia).
  destruct (_ =? 0)%Z; constructor; simpl; try done; try lia; intros _ _; right; right; lia.
Qed.

Lemma on_timer_inv d w w' : wd_inv d w -> on_timer w = Some w' -> wd_inv d w'.
Proof.
  intros [H1 H0 H2 H3 H4 H5] E. unfold on_timer in E. destruct (timer w); try done. injection E as <-.
  simpl. destruct (phasePausesWatchdog (phase w)) eqn:Ep; constructor; simpl; try done. intros _ Hq. congruence.
Qed.

Lemma on_reset_inv d w w' : wd_inv d w -> on_reset w = Some w' -> wd_inv d w'.
Proof.
  intros Hi E. unfold on_reset in E. destruct (reset w); [|done]. injection E as <-.
  assert (wd_inv d (w <| reset := false |>)) as Hi' by (destruct Hi; by constructor).
  case_match; [by apply wd_inv_reset|done].
Qed.

Lemma on_changed_inv d w w' : wd_inv d w -> on_changed w = Some w' -> wd_inv d w'.
Proof.
  intros [H1 H0 H2 H3 H4 H5] E. unfold on_changed in E. destruct (changed w); [|done]. injection E as <-.
  simpl. destruct (phasePausesWatchdog (phase w)) eqn:Ep.
  - unfold pauseTimer. simpl. destruct (armed w) eqn:Ea; constructor; simpl; try done; rewrite Ep; done.
  - destruct H1 as [H1 Hp]. constructor; simpl; try done; try (by left); by rewrite H1.
Qed.

Lemma wd_step_inv d e w w' : wd_inv d w -> wd_step e w = Some w' -> wd_inv d w'.
Proof.
  intros Hi E. destruct e; simpl in E; unfold alive in E;
    try (destruct (cancelled w) eqn:Ec; [done|]).
  - injection E as <-. by apply set_phase_inv.
  - injection E as <-. by apply beginWait_inv.
  - injection E as <-. by apply resume_inv.
  - unfold signalChanged in E. destruct (inflight w); simplify_eq. destruct Hi; constructor; simpl; try done.
    intros _ _. right. by left.
  - injection E as <-. by destruct Hi.
  - injection E as <-. by destruct Hi.
  - injection E as <-. by destruct Hi.
  - destruct (d0 <? 0)%Z eqn:El; simplify_eq. reflect_bools. destruct Hi as [H1 H0 H2 H3 H4 H5].
    constructor; simpl; try done; [lia|]. destruct (timer w); try done. lia.
  - unfold expire in E. destruct (timer w) eqn:Et; try done. destruct (deadline <=? now w)%Z eqn:El; simplify_eq.
    reflect_bools. destruct Hi as [H1 H0 H2 H3 H4 H5]. rewrite Et in *. constructor; simpl; try done.
    + intros Ha. by apply H3 in Ha.
    + lia.
    + by left.
  - by eapply on_timer_inv.
  - by eapply on_reset_inv.
  - by eapply on_changed_inv.
  - unfold on_stop in E. case_match; simplify_eq. destruct Hi; by constructor.
  - unfold on_parent in E. case_match; simplify_eq. destruct Hi; by constructor.
Qed.

Lemma wd_run_inv d es w w' : wd_inv d w -> wd_run es w = Some w' -> wd_inv d w'.
Proof.
  revert w. induction es as [|e es IH]; intros w Hi E; simpl in E; [by simplify_eq|].
  destruct (wd_step e w) eqn:Es; [|done]. eapply IH; [|done]. by eapply wd_step_inv.
Qed.

Lemma wd_reachable_inv P d t w : wd_reachable P d t w -> wd_inv d w.
Proof. intros (w0 & es & H0 & _ & E). eapply wd_run_inv; [by eapply wd_inv_start|done]. Qed.

(** ** Waits only *)

(** While a wait is pending the phase is one of the pausing ones; with none it is running. *)
Definition waits_inv (w : Watchdog) : Prop :=
  if (0 <? waitDepth w)%Z then phasePausesWatchdog (phase w) = true else phase w = PhaseRunning.

Lemma waits_step d e w w' :
  wd_inv d w -> waits_inv w -> only_waits e -> wd_step e w = Some w' -> waits_inv w'.
Proof.
  intros Hi Hw He E. pose proof (wi_depth _ _ Hi) as Hd.
  destruct e; try done; simpl in E; unfold alive in E; try (destruct (cancelled w); [done|]);
    try (injection E as <-; exact Hw).
  - injection E as <-. unfold beginWait. destruct (phasePausesWatchdog p) eqn:Ep; [|exact Hw].
    unfold waits_inv. simpl. destruct (0 <? waitDepth w + 1)%Z eqn:El; [done|]. reflect_bools. lia.
  - injection E as <-. unfold resume. destruct (waits w !! h) as [[]|] eqn:Eh; try exact Hw.
    apply pending_in in Eh. simpl. assert ((0 <? waitDepth w)%Z = true) as Hlt by (apply Z.ltb_lt; lia).
    unfold waits_inv in *. rewrite Hlt in *. simpl. destruct (waitDepth w - 1 =? 0)%Z eqn:E1; reflect_bools; simpl.
    + assert ((0 <? waitDepth w - 1)%Z = false) as -> by (apply Z.ltb_ge; lia). done.
    + assert ((0 <? waitDepth w - 1)%Z = true) as -> by (apply Z.ltb_lt; lia). done.
  - unfold signalChanged in E. destruct (inflight w); simplify_eq. exact Hw.
  - destruct (d0 <? 0)%Z; simplify_eq. exact Hw.
  - unfold expire in E. destruct (timer w); try done. destruct (deadline <=? now w)%Z; simplify_eq. exact Hw.
  - unfold on_timer in E. destruct (timer w); simplify_eq. simpl. destruct (negb _); exact Hw.
  - unfold on_reset in E. destruct (reset w); simplify_eq. simpl. destruct (negb _); exact Hw.
  - unfold on_changed in E. destruct (changed w); simplify_eq. simpl.
    destruct (phasePausesWatchdog (phase w)); [|exact Hw]. unfold pauseTimer. simpl. destruct (armed w); exact Hw.
  - unfold on_stop in E. destruct (stopCh w); simplify_eq. exact Hw.
  - unfold on_parent in E. destruct (parentDone w); simplify_eq. exact Hw.
Qed.

Lemma waits_reachable d t w : wd_reachable only_waits d t w -> waits_inv w.
Proof.
  intros (w0 & es & H0 & Hes & E). pose proof (wd_inv_start _ _ _ H0) as Hi.
  assert (waits_inv w0) as Hw.
  { unfold WithWatchdog in H0. destruct (d <=? 0)%Z; simplify_eq. done. }
  clear H0. revert w0 Hi Hw E. induction Hes as [|e es He _ IH]; intros w0 Hi Hw E; simpl in E; [by simplify_eq|].
  destruct (wd_step e w0) eqn:Es; [|done]. eapply IH; [| |done]; [by eapply wd_step_inv|by eapply waits_step].
Qed.

(** The one step that reports a stall. *)
Lemma stall_step e w w' :
  wd_step e w = Some w' -> cancelled w = None -> cancelled w' = Some ErrStalled ->
  e = WOnTimer /\ timer w = TFired /\ phasePausesWatchdog (phase w) = false.
Proof.
  intros E Hn Hs. destruct e; simpl in E; unfold alive in E; rewrite ?Hn in E.
  all: try (injection E as <-; simpl in Hs; congruence).
  - injection E as <-. unfold set_phase in Hs. destruct (_ =? _)%string; simpl in Hs; congruence.
  - injection E as <-. unfold beginWait in Hs. destruct (negb _); simpl in Hs; congruence.
  - injection E as <-. unfold resume in Hs. destruct (waits w !! h) as [[]|]; simpl in Hs; try congruence.
    destruct (0 <? waitDepth w)%Z; simpl in Hs; destruct (_ =? 0)%Z; simpl in Hs; congruence.
  - unfold signalChanged in E. destruct (inflight w); simplify_eq; simpl in Hs; congruence.
  - destruct (d <? 0)%Z; simplify_eq; simpl in Hs; congruence.
  - unfold expire in E. destruct (timer w); try done. destruct (deadline <=? now w)%Z; simplify_eq; simpl in Hs; congruence.
  - unfold on_timer in E. destruct (timer w); simplify_eq. simpl in Hs.
    destruct (phasePausesWatchdog (phase w)); [simpl in Hs; congruence|done].
  - unfold on_reset in E. destruct (reset w); simplify_eq. simpl in Hs. destruct (negb _); simpl in Hs; congruence.
  - unfold on_changed in E. destruct (changed w); simplify_eq. simpl in Hs.
    destruct (phasePausesWatchdog _); [|simpl in Hs; congruence]. unfold pauseTimer in Hs. simpl in Hs.
    destruct (armed w); simpl in Hs; congruence.
  - unfold on_stop in E. destruct (stopCh w); simplify_eq.
  - unfold on_parent in E. destruct (parentDone w); simplify_eq.
Qed.

(** ** Properties *)

(** A stall is justified: the step that cancels with [ErrStalled] is the expiry of the idle
    timer, a full window after the timer was last started, in a phase that does not
    pause; and with the waits used as intended (no direct change of phase), never
    while a person's or an admission wait is pending, however many overlap. *)
Theorem watchdog_stall_justified P d t e w w' :
  wd_reachable P d t w -> wd_step e w = Some w' -> cancelled w = None -> cancelled w' = Some ErrStalled ->
  e = WOnTimer /\ (armedAt w + d <= now w)%Z /\ phasePausesWatchdog (phase w) = false /\
  (wd_reachable only_waits d t w -> Forall (fun resumed => resumed = true) (waits w)).
Proof.
  intros Hr E Hn Hs. destruct (stall_step e w w' E Hn Hs) as (-> & Ht & Hp).
  pose proof (wd_reachable_inv _ _ _ _ Hr) as Hi. split; [done|]. split.
  - pose proof (wi_timer _ _ Hi) as Hd. by rewrite Ht in Hd.
  - split; [done|]. intros Hr'. apply waits_reachable in Hr'. unfold waits_inv in Hr'.
    apply Forall_lookup. intros h [] Hh; [done|]. apply pending_in in Hh.
    pose proof (wi_depth _ _ Hi). assert ((0 <? waitDepth w)%Z = true) as Hlt by (apply Z.ltb_lt; lia).
    rewrite Hlt in Hr'. congruence.
Qed.

(** ** Every schedule of a silent run

    A step of the watchdog, as opposed to the passing of time.  [wd_work] bounds how many
    of them are left: each consumes a caller's signal, a token of a channel, or the
    expiry or the value of the timer. *)










(** ** A concrete run

    An approval and a clarification overlap; the second one answered resumes the run,
    which then makes no progress. *)

Definition overlap_events : list wd_event :=
  [WBegin PhaseWaitingApproval; WSignal; WOnChanged; WTick 500; WBegin PhaseWaitingClarify; WSignal; WOnChanged;
   WResume 0; WSignal; WOnChanged; WTick 700; WResume 1].

Definition wd_after (es : list wd_event) : Watchdog :=
  let w0 := mkWatchdog 100 PhaseRunning 0 [] false false 0 false false 0 (TRunning 100) true 0 None in
  match wd_run es w0 with Some w => w | None => w0 end.

Lemma overlap_reachable (P : wd_event -> Prop) es w :
  Forall P es -> wd_run es (wd_after []) = Some w -> wd_reachable P 100 0 w.
Proof. intros H E. by exists (wd_after []), es. Qed.



Definition stall_events : list wd_event := overlap_events ++ [WSignal; WOnChanged; WTick 100; WExpire].

Lemma watchdog_stall_justified_witness :
  (armedAt (wd_after stall_events) + 100 <= now (wd_after stall_events))%Z /\
  Forall (fun resumed => resumed = true) (waits (wd_after stall_events)).
Proof.
  assert (wd_reachable only_waits 100 0 (wd_after stall_events)) as Hr.
  { apply (overlap_reachable only_waits stall_events); [|vm_compute; reflexivity].
    unfold stall_events, overlap_events. simpl. repeat constructor. }
  destruct (watchdog_stall_justified only_waits 100 0 WOnTimer (wd_after stall_events)
              (wd_after (stall_events ++ [WOnTimer])) Hr) as (_ & H1 & _ & H2);
    [vm_compute; reflexivity..|].
  split; [exact H1|exact (H2 Hr)].
Defined.
