(* ===== verification/Evolution.v ===== *)
(** * How a table evolves

    [evolves step new t t'] says that the table [t'] is reached from [t] by
    statements that change rows only as [step] allows, delete none and insert
    only rows that [new] allows.  A component proves once that each of its
    operations evolves its table; what holds of rows across every history then
    follows from the lemmas here. *)

From stdpp Require Import base tactics list strings.
From Stdlib Require Import ZArith Lia Bool List.
From S2P Require Import Prelude Sql.

Section Evolves.
Context {R : Type} (step : R -> R -> Prop) (new : list R -> R -> Prop).

Inductive evolves (t : list R) : list R -> Prop :=
| ev_refl : evolves t t
| ev_map g t' : evolves t t' -> (forall r, In r t' -> step r (g r)) -> evolves t (map g t')
| ev_insert r t' : evolves t t' -> new t' r -> evolves t (t' ++ [r]).

Lemma evolves_trans t1 t2 t3 : evolves t1 t2 -> evolves t2 t3 -> evolves t1 t3.
Proof. intros H12 H23. induction H23; [done|by constructor|by constructor]. Qed.

Lemma evolves_map g t : (forall r, In r t -> step r (g r)) -> evolves t (map g t).
Proof. intros H. constructor; [constructor|done]. Qed.

Lemma evolves_insert r t : new t r -> evolves t (t ++ [r]).
Proof. intros H. constructor; [constructor|done]. Qed.

Lemma evolves_eq t t' : t' = t -> evolves t t'.
Proof. intros ->. constructor. Qed.

Context (step_refl : forall r, step r r).

Lemma evolves_update c f t :
  (forall r, In r t -> c r = true -> step r (f r)) -> evolves t (update_where c f t).
Proof. intros H. apply evolves_map. intros r Hr. destruct (c r) eqn:E; auto. Qed.

(** Row predicates kept by steps and true of new rows hold throughout. *)
Lemma evolves_Forall (P : R -> Prop) t t' :
  (forall r r', step r r' -> P r -> P r') -> (forall t r, new t r -> P r) ->
  evolves t t' -> Forall P t -> Forall P t'.
Proof.
  intros Hs Hn Hev Ht. induction Hev as [|g t' _ IH Hg|r t' _ IH Hr]; [done| |].
  - apply List.Forall_forall. intros x Hx%in_map_iff. destruct Hx as (r & <- & Hr).
    eapply Hs; [by apply Hg|]. by eapply List.Forall_forall in IH.
  - apply Forall_app. split; [done|]. constructor; [eauto|done].
Qed.

(** Every row of the result comes from a row of the table, or was inserted. *)
Lemma evolves_origin t t' r' :
  (forall x y z, step x y -> step y z -> step x z) ->
  evolves t t' -> In r' t' ->
  (exists r, In r t /\ step r r') \/ (exists t0 r, new t0 r /\ step r r').
Proof.
  intros Htr Hev. revert r'. induction Hev as [|g t' _ IH Hg|r t' _ IH Hr]; intros r' Hin.
  - left. eauto.
  - apply in_map_iff in Hin as (x & <- & Hx).
    destruct (IH x Hx) as [(r & ? & ?)|(t0 & r & ? & ?)]; [left|right]; eauto 6.
  - apply in_app_or in Hin as [Hin|[<-|[]]]; [auto|]. right. eauto.
Qed.

Section Keyed.
Context {K : Type} `{Keyed R K}.
Context (step_key : forall r r', step r r' -> key r' = key r)
        (new_key : forall t r, new t r -> lookup_key (key r) t = None).

Lemma map_step_key g t : (forall r, In r t -> step r (g r)) -> map key (map g t) = map key t.
Proof. intros Hg. rewrite map_map. apply map_ext_in. intros r Hr. apply step_key, Hg, Hr. Qed.

Lemma evolves_keys_unique t t' : evolves t t' -> keys_unique t -> keys_unique t'.
Proof.
  intros Hev Ht. induction Hev as [|g t' _ IH Hg|r t' _ IH Hr]; [done| |].
  - unfold keys_unique. by rewrite map_step_key.
  - apply keys_unique_snoc; eauto.
Qed.

Lemma lookup_map_step g t k r :
  (forall r, In r t -> step r (g r)) -> lookup_key k t = Some r ->
  lookup_key k (map g t) = Some (g r).
Proof.
  unfold lookup_key. induction t as [|x t IH]; simpl; [done|]. intros Hg Hl.
  assert (key (g x) = key x) as -> by (apply step_key, Hg; by left).
  case_bool_decide; [by simplify_eq|]. apply IH; [|done]. intros y Hy. apply Hg. by right.
Qed.

(** A row stays under its key, changed only by steps. *)
Lemma evolves_lookup t t' k r :
  (forall x y z, step x y -> step y z -> step x z) ->
  evolves t t' -> lookup_key k t = Some r ->
  exists r', lookup_key k t' = Some r' /\ step r r'.
Proof.
  intros Htr Hev Hl. induction Hev as [|g t' _ IH Hg|x t' _ IH Hx]; [eauto| |].
  - destruct IH as (r' & Hl' & Hs). exists (g r'). split; [by apply lookup_map_step|].
    eapply Htr; [done|]. apply Hg. by apply lookup_key_Some in Hl' as [? _].
  - destruct IH as (r' & Hl' & Hs). exists r'. rewrite lookup_app, Hl'. done.
Qed.
End Keyed.
End Evolves.

Lemma evolves_weaken {R} (s1 s2 : R -> R -> Prop) (n1 n2 : list R -> R -> Prop) t t' :
  (forall r r', s1 r r' -> s2 r r') -> (forall t r, n1 t r -> n2 t r) ->
  evolves s1 n1 t t' -> evolves s2 n2 t t'.
Proof. intros Hs Hn. induction 1; constructor; auto. Qed.

#[export] Hint Constructors evolves : control.
#[export] Hint Resolve evolves_trans evolves_eq : control.
