(* ===== verification/Database.v ===== *)
(** * The control database

    The tables of [control.db] the Run lifecycle works on, as one record [DB]
    with a list of rows per table, and the helpers every component calls inside
    its transactions: events and their cursors ([store.go], [run_cancellation.go]),
    thread promotion ([work_timeline.go]), blockers, session resume selections
    and the capacity count ([active_runs.go]).

    A transaction body yields [Commit] with the new database or [Rollback]; the
    database a rolled back body started from is kept ([run_tx]).  A statement
    that violates a uniqueness constraint is an error of the body. *)

From stdpp Require Import base tactics list strings.
From Stdlib Require Import ZArith Lia Bool String List.
From S2P Require Import Prelude GoLib Sql Admission Store Queue Maintenance.

(** ** Rows *)

(** The fields of an approval's JSON payload that statements read. *)
Record ApprovalPayload := mkApprovalPayload { pl_tool : string; pl_tool_call_id : string }.

(** An [approval_requests] row.  [a_parked_at] and [a_notified_at] are nullable;
    the other NULL columns read as zero or the empty string. *)
Record ApprovalRow := mkApprovalRow {
  a_id : string;
  a_tenant_id : string;
  a_person_id : string;
  a_thread_id : string;
  a_run_id : string;
  a_action_type : string;
  a_payload : jcol ApprovalPayload;
  a_status : string;
  a_requested_channel : string;
  a_approved_channel : string;
  a_decision_scope : string;
  a_decision_id : string;
  a_decision_grant_key : string;
  a_decision_note : string;
  a_decision_recorded_at : Z;
  a_waiter_state : string;
  a_parked_at : option Z;
  a_park_reason : string;
  a_decision_claimed_at : Z;
  a_claimed_by_run_id : string;
  a_resume_queue_id : string;
  a_authorization_fingerprint : string;
  a_authorization_state : string;
  a_authorization_expires_at : Z;
  a_notified_at : option Z;
  a_created_at : Z;
  a_updated_at : Z
}.

#[export] Instance ApprovalRow_eta : Eta ApprovalRow := fun r =>
  mkApprovalRow (a_id r) (a_tenant_id r) (a_person_id r) (a_thread_id r) (a_run_id r)
    (a_action_type r) (a_payload r) (a_status r) (a_requested_channel r) (a_approved_channel r)
    (a_decision_scope r) (a_decision_id r) (a_decision_grant_key r) (a_decision_note r)
    (a_decision_recorded_at r) (a_waiter_state r) (a_parked_at r) (a_park_reason r)
    (a_decision_claimed_at r) (a_claimed_by_run_id r) (a_resume_queue_id r)
    (a_authorization_fingerprint r) (a_authorization_state r) (a_authorization_expires_at r)
    (a_notified_at r) (a_created_at r) (a_updated_at r).

#[export] Instance ApprovalRow_keyed : Keyed ApprovalRow string := a_id.

(** A [clarify_requests] row; [c_parked_at] is NOT NULL DEFAULT 0. *)
Record ClarifyRow := mkClarifyRow {
  c_id : string;
  c_tenant_id : string;
  c_person_id : string;
  c_thread_id : string;
  c_run_id : string;
  c_question : string;
  c_options : jcol (list string);
  c_status : string;
  c_answer : string;
  c_channel : string;
  c_created_at : Z;
  c_updated_at : Z;
  c_parked_at : Z;
  c_notified_at : option Z
}.

#[export] Instance ClarifyRow_eta : Eta ClarifyRow := fun r =>
  mkClarifyRow (c_id r) (c_tenant_id r) (c_person_id r) (c_thread_id r) (c_run_id r)
    (c_question r) (c_options r) (c_status r) (c_answer r) (c_channel r) (c_created_at r)
    (c_updated_at r) (c_parked_at r) (c_notified_at r).

#[export] Instance ClarifyRow_keyed : Keyed ClarifyRow string := c_id.

(** [LoopCheckpointRecord], the row of [loop_checkpoints] (primary key
    [run_id]). *)
Record LoopCheckpointRecord := mkCheckpoint {
  ck_TenantID : string;
  ck_PersonID : string;
  ck_TaskID : string;
  ck_RunID : string;
  ck_ContractVersion : Z;
  ck_Recovery : string;
  ck_Iteration : Z;
  ck_Outcome : string;
  ck_Detail : string;
  ck_Snapshot : string;
  ck_UpdatedAt : Z;
  ck_WaitKind : string;
  ck_WaitRef : string;
  ck_WaitToolCallID : string
}.

#[export] Instance LoopCheckpointRecord_eta : Eta LoopCheckpointRecord := fun r =>
  mkCheckpoint (ck_TenantID r) (ck_PersonID r) (ck_TaskID r) (ck_RunID r) (ck_ContractVersion r)
    (ck_Recovery r) (ck_Iteration r) (ck_Outcome r) (ck_Detail r) (ck_Snapshot r)
    (ck_UpdatedAt r) (ck_WaitKind r) (ck_WaitRef r) (ck_WaitToolCallID r).

#[export] Instance LoopCheckpointRecord_keyed : Keyed LoopCheckpointRecord string := ck_RunID.

(** The columns of the tables the modelled statements only read or touch. *)
Record WatchRow := mkWatchRow { w_id : string; w_tenant_id : string; w_run_id : string; w_status : string }.

Record ResourceWaitRow := mkResourceWaitRow {
  rw_tenant_id : string; rw_person_id : string; rw_run_id : string; rw_effect_id : string;
  rw_targets_json : jcol (list string); rw_status : string; rw_created_at : Z; rw_updated_at : Z }.

#[export] Instance ResourceWaitRow_eta : Eta ResourceWaitRow := fun r =>
  mkResourceWaitRow (rw_tenant_id r) (rw_person_id r) (rw_run_id r) (rw_effect_id r)
    (rw_targets_json r) (rw_status r) (rw_created_at r) (rw_updated_at r).

Record BlockerRow := mkBlockerRow {
  b_tenant_id : string; b_person_id : string; b_thread_id : string; b_origin_run_id : string; b_status : string;
  b_resolved_by_run_id : string; b_resolved_at : Z }.

#[export] Instance BlockerRow_eta : Eta BlockerRow := fun r =>
  mkBlockerRow (b_tenant_id r) (b_person_id r) (b_thread_id r) (b_origin_run_id r) (b_status r)
    (b_resolved_by_run_id r) (b_resolved_at r).

Record WorkUnitRow := mkWorkUnitRow {
  u_id : string; u_tenant_id : string; u_person_id : string; u_workspace_id : string;
  u_run_id : string; u_primary_task_id : string; u_related_task_id : string;
  u_goal_digest : string; u_plan_status : string; u_status : string; u_outcome_summary : string;
  u_verification_state : string; u_verification_refs : list string; u_started_at : Z;
  u_finished_at : option Z; u_finished_cursor : Z }.

#[export] Instance WorkUnitRow_eta : Eta WorkUnitRow := fun r =>
  mkWorkUnitRow (u_id r) (u_tenant_id r) (u_person_id r) (u_workspace_id r) (u_run_id r)
    (u_primary_task_id r) (u_related_task_id r) (u_goal_digest r) (u_plan_status r) (u_status r)
    (u_outcome_summary r) (u_verification_state r) (u_verification_refs r) (u_started_at r)
    (u_finished_at r) (u_finished_cursor r).

Record ThreadRow := mkThreadRow {
  th_id : string; th_tenant_id : string; th_person_id : string; th_kind : string;
  th_visibility : string; th_summary : string; th_last_activity_at : Z; th_updated_at : Z }.

#[export] Instance ThreadRow_eta : Eta ThreadRow := fun r =>
  mkThreadRow (th_id r) (th_tenant_id r) (th_person_id r) (th_kind r) (th_visibility r)
    (th_summary r) (th_last_activity_at r) (th_updated_at r).

#[export] Instance ThreadRow_keyed : Keyed ThreadRow string := th_id.

(** A [person_settings] row; [st_value] carries the [run_id] field of the JSON
    text, when the text is JSON and has one. *)
Record SettingRow := mkSettingRow {
  st_tenant_id : string; st_person_id : string; st_key : string; st_value : jcol (option string) }.

(** Delivery accounts, and what a finalization commits beside the Run: the
    claimed effects, the assistant's message and the handoff. *)
Record AccountRow := mkAccountRow {
  ac_tenant_id : string; ac_person_id : string; ac_platform : string;
  ac_platform_user_id : string; ac_status : string }.

Record EffectRow := mkEffectRow {
  ef_effect_key : string; ef_tenant_id : string; ef_thread_id : string; ef_run_id : string;
  ef_kind : string; ef_delivery_enqueued : bool; ef_created_at : Z }.

#[export] Instance EffectRow_eta : Eta EffectRow := fun r =>
  mkEffectRow (ef_effect_key r) (ef_tenant_id r) (ef_thread_id r) (ef_run_id r) (ef_kind r)
    (ef_delivery_enqueued r) (ef_created_at r).

Record MessageRow := mkMessageRow {
  ms_id : string; ms_tenant_id : string; ms_person_id : string; ms_account_id : string;
  ms_channel : string; ms_thread_id : string; ms_role : string; ms_content : string;
  ms_created_at : Z }.

Record HandoffRow := mkHandoffRow {
  ho_id : string; ho_thread_id : string; ho_run_id : string; ho_summary : string;
  ho_done_items : list string; ho_next_steps : option (list string);
  ho_changed_files : list string; ho_test_status : string; ho_risks : list string;
  ho_created_at : Z }.

#[export] Instance HandoffRow_eta : Eta HandoffRow := fun r =>
  mkHandoffRow (ho_id r) (ho_thread_id r) (ho_run_id r) (ho_summary r) (ho_done_items r)
    (ho_next_steps r) (ho_changed_files r) (ho_test_status r) (ho_risks r) (ho_created_at r).

(** ** The database *)

Record DB := mkDB {
  db_runs : list Run;
  db_queue : list QueueRow;
  db_approvals : list ApprovalRow;
  db_clarifies : list ClarifyRow;
  db_checkpoints : list LoopCheckpointRecord;
  db_watches : list WatchRow;
  db_resource_waits : list ResourceWaitRow;
  db_blockers : list BlockerRow;
  db_work_units : list WorkUnitRow;
  db_threads : list ThreadRow;
  db_settings : list SettingRow;
  db_accounts : list AccountRow;
  db_effects : list EffectRow;
  db_messages : list MessageRow;
  db_handoffs : list HandoffRow;
  db_maintenance : MaintState;
  db_events : list Event;
  db_next_cursor : Z
}.

#[export] Instance DB_eta : Eta DB := fun d =>
  mkDB (db_runs d) (db_queue d) (db_approvals d) (db_clarifies d) (db_checkpoints d)
    (db_watches d) (db_resource_waits d) (db_blockers d) (db_work_units d) (db_threads d)
    (db_settings d) (db_accounts d) (db_effects d) (db_messages d) (db_handoffs d)
    (db_maintenance d) (db_events d) (db_next_cursor d).

(** ** Transactions *)

Inductive tx (A : Type) : Type :=
| Commit (a : A) (d : DB)
| Rollback (r : res A).
Arguments Commit {A} a d.
Arguments Rollback {A} r.

Definition run_tx {A} (d : DB) (t : tx A) : DB * res A :=
  match t with Commit a d' => (d', Ok a) | Rollback r => (d, r) end.

Definition one_of (set : list string) (s : string) : bool := existsb (String.eqb s) set.

(** ** Runs and threads *)

(** The row of a Run by its primary key, with the tenant the statement names. *)
Definition run_at (tenantID runID : string) (r : Run) : bool :=
  (run_tenant_id r =? tenantID)%string && (run_id r =? runID)%string.

(** [EXISTS (SELECT 1 FROM runs child WHERE child.tenant_id = ? AND
    child.resumes_run_id = ?)]. *)
Definition has_child (tenantID runID : string) (runs : list Run) : bool :=
  existsb (fun c => (run_tenant_id c =? tenantID)%string
                    && (run_resumes_run_id c =? runID)%string) runs.

Definition threadIDForRun (tenantID runID : string) (d : DB) : string :=
  if blank runID then "" else
  match query_row (run_at (normalizeTenant tenantID) (TrimSpace runID)) (db_runs d) with
  | Some r => TrimSpace (run_thread_id r)
  | None => ""
  end.

Definition TaskKindWork : string := "work".
Definition TaskVisibilityListed : string := "listed".
Definition TaskVisibilityArchived : string := "archived".

(** The updated threads and the rows affected. *)
Definition execPromoteThreadForRunTx (now : Time) (tenantID runID : string) (d : DB) : DB * Z :=
  let tenant := normalizeTenant tenantID in
  match query_row (run_at tenant (TrimSpace runID)) (db_runs d) with
  | None => (d, 0%Z)
  | Some r =>
      let cond := fun t => (th_tenant_id t =? tenant)%string
                           && negb (th_visibility t =? TaskVisibilityArchived)%string
                           && (th_id t =? run_thread_id r)%string in
      (d <| db_threads := update_where cond (fun t => t <| th_kind := TaskKindWork |>
              <| th_visibility := TaskVisibilityListed |> <| th_updated_at := Unix now |>)
              (db_threads d) |>,
       rows_affected cond (db_threads d))
  end.

Definition promoteThreadForControlObjectTx (now : Time) (tenantID runID : string) (d : DB) : DB :=
  if blank runID then d else fst (execPromoteThreadForRunTx now tenantID runID d).

Definition resolveOriginRunBlockersTx (now : Time)
    (tenantID taskID originRunID resolvedByRunID : string) (d : DB) : DB :=
  d <| db_blockers := update_where (fun b =>
        (b_tenant_id b =? tenantID)%string && (b_thread_id b =? taskID)%string
        && (b_origin_run_id b =? originRunID)%string && (b_status b =? "open")%string)
      (fun b => b <| b_status := "resolved" |> <| b_resolved_by_run_id := resolvedByRunID |>
                  <| b_resolved_at := Unix now |>) (db_blockers d) |>.

(** [substr(key,1,20)='resume_selection.v1.'] and the setting's [run_id]. *)
Definition clearRunResumeSelectionsTx (tenantID personID runID : string) (d : DB) : DB :=
  d <| db_settings := delete_where (fun s =>
        (st_tenant_id s =? tenantID)%string && (st_person_id s =? personID)%string
        && (String.substring 0 20 (st_key s) =? "resume_selection.v1.")%string
        && match st_value s with
           | JVal (Some rid) => (rid =? runID)%string
           | _ => false
           end) (db_settings d) |>.

(** [activeRunScopeSQL] and [countActiveRuns]. *)
Definition active_run (tenant person class channel : string) (r : Run) : bool :=
  (run_tenant_id r =? tenant)%string && (run_person_id r =? person)%string
  && (run_status r =? "running")%string && (run_execution_class r =? class)%string
  && ((channel =? "")%string || (run_channel r =? channel)%string).

Definition countActiveRuns (tenant person class channel : string) (runs : list Run) : Z :=
  Z.of_nat (length (select_where (active_run tenant person class channel) runs)).

(** ** Events *)

(** The fields of an [Event] a caller supplies. *)
Record EventIn := mkEventIn {
  ei_TenantID : string; ei_PersonID : string; ei_TaskID : string; ei_RunID : string;
  ei_Type : string; ei_Visibility : string; ei_Channel : string; ei_Payload : json;
  ei_IdempotencyKey : string }.

#[export] Instance EventIn_eta : Eta EventIn := fun e =>
  mkEventIn (ei_TenantID e) (ei_PersonID e) (ei_TaskID e) (ei_RunID e) (ei_Type e)
    (ei_Visibility e) (ei_Channel e) (ei_Payload e) (ei_IdempotencyKey e).

Definition eventOwnerForRun (runID : string) (d : DB) : res (string * string * string) :=
  let runID := TrimSpace runID in
  if (runID =? "")%string then Err (Errorf "run id is required") else
  match query_row (fun r => (run_id r =? runID)%string) (db_runs d) with
  | Some r => Ok (TrimSpace (run_thread_id r), run_tenant_id r, run_person_id r)
  | None => Err (Errorf "sql: no rows in result set")
  end.

Definition eventByIdempotencyKey (k : string) (d : DB) : option Event :=
  query_row (fun e => (ev_idempotency_key e =? k)%string) (db_events d).

(** The constraints of [task_events]: the primary key and the partial unique
    index on [idempotency_key]. *)
Definition event_id_taken (id : string) (d : DB) : bool :=
  existsb (fun e => (ev_id e =? id)%string) (db_events d).
Definition event_key_taken (k : string) (d : DB) : bool :=
  negb (k =? "")%string && existsb (fun e => (ev_idempotency_key e =? k)%string) (db_events d).

Definition uniqueViolation (column : string) : error := Errorf ("UNIQUE constraint failed: " +:+ column).

(** The stored row and the advanced sequence. *)
Definition store_event (e : Event) (d : DB) : DB :=
  d <| db_events := db_events d ++ [e] |> <| db_next_cursor := ev_cursor e |>.

Definition AppendEvent (uuid : string) (now : Time) (event : EventIn) (d : DB) : DB * res Event :=
  let event :=
    if (ei_RunID event =? "")%string then event else
    match eventOwnerForRun (ei_RunID event) d with
    | Ok (threadID, tenantID, personID) =>
        if (threadID =? "")%string then event else
        event <| ei_TaskID := threadID |> <| ei_TenantID := tenantID |> <| ei_PersonID := personID |>
    | Err _ => event
    end in
  if (ei_TaskID event =? "")%string
  then (d, Err (Errorf "event needs a thread id, or a run that has one")) else
  let type := if (ei_Type event =? "")%string then "note" else ei_Type event in
  let visibility := if (ei_Visibility event =? "")%string then "task" else ei_Visibility event in
  let k := TrimSpace (ei_IdempotencyKey event) in
  match (if (k =? "")%string then None else eventByIdempotencyKey k d) with
  | Some existing => (d, Ok existing)
  | None =>
      let owned := negb ((ei_TenantID event =? "")%string || (ei_PersonID event =? "")%string)
                   || existsb (fun t => (th_id t =? ei_TaskID event)%string) (db_threads d) in
      if negb owned then (d, Err (Errorf "sql: no rows in result set")) else
      let e := mkEvent ("event_" +:+ uuid) (db_next_cursor d + 1) (ei_TaskID event)
                 (ei_RunID event) type visibility (ei_Channel event) (ei_Payload event) k (Unix now) in
      if event_id_taken (ev_id e) d then (d, Err (uniqueViolation "task_events.id")) else
      (store_event e d, Ok e)
  end.

(** One event of [insertScopedEventsTx]: no [ON CONFLICT] clause, so a taken key
    fails the transaction. *)
Definition insertScopedEvent (id : string) (now : Time) (runID threadID channel : string)
    (event : EventIn) (d : DB) : res (DB * Event) :=
  let e := mkEvent ("event_" +:+ id) (db_next_cursor d + 1) threadID runID (ei_Type event) "task"
             channel (ei_Payload event) (ei_IdempotencyKey event) (Unix now) in
  if event_id_taken (ev_id e) d then Err (uniqueViolation "task_events.id") else
  if event_key_taken (ev_idempotency_key e) d
  then Err (uniqueViolation "task_events.idempotency_key") else
  Ok (store_event e d, e).

(** [ids i] is the identifier generated for the [i]-th event. *)
Fixpoint insertScopedEventsFrom (i : nat) (ids : nat -> string) (now : Time)
    (runID threadID channel : string) (events : list EventIn) (d : DB) : res (DB * list Event) :=
  match events with
  | [] => Ok (d, [])
  | event :: rest =>
      match insertScopedEvent (ids i) now runID threadID channel event d with
      | Err e => Err e
      | Ok (d1, e) =>
          match insertScopedEventsFrom (S i) ids now runID threadID channel rest d1 with
          | Err e => Err e
          | Ok (d2, es) => Ok (d2, e :: es)
          end
      end
  end.

Definition insertScopedEventsTx := insertScopedEventsFrom 0.
