(* ===== verification/RunStart.v ===== *)
(** * Creating and finishing Runs ([internal/control/store.go])

    [startRunOnce] is one transaction: the capacity of the person and of an
    exclusive channel, the claim of the parent Run it continues
    ([validateResumeClaimTx], [run_continuity.go]), the binding of the queue row
    it was started from, the insert, and the settlement of the parent's
    blockers.  Two things it calls are parameters, collected in [RunEnv]: the
    Unicode upper-case mapping of a work key, and the import of the parent's
    plan ([run_plan_inherit.go]), which may fail and which writes only plan
    tables, work units and evidence events.

    [SQLITE_BUSY] retries are not represented: transactions are atomic steps. *)

From stdpp Require Import base tactics list strings.
From Stdlib Require Import ZArith Lia Bool String List.
From S2P Require Import Prelude GoLib Sql Admission Store Queue Maintenance Database.

Class RunEnv := {
  ToUpper : string -> string;
  (** database, tenant, child, parent, [replace], [exact]: the new work units
      and the evidence events with their identifiers. *)
  inheritRunPlanTx : DB -> string -> string -> string -> bool -> bool ->
    res (list WorkUnitRow * list (string * EventIn))
}.

Definition ErrRunCapacity : string := "person run capacity is full".
Definition ErrQueueClaimLost : string := "queue claim is stale or already bound".
Definition ErrResumeTargetClaimed : string := "parent run is already claimed by another continuation".
Definition ErrResumeTargetNotResumable : string := "parent run is not in a resumable state".

Definition CurrentRunRecoveryContractVersion : Z := 4.

Record RunOwner := mkRunOwner {
  ow_ThreadID : string; ow_TenantID : string; ow_PersonID : string; ow_WorkspaceID : string }.

Record StartRunOptions := mkStartRunOptions {
  so_WorkKey : string;
  so_ExecutionClass : string;
  so_ExecutionRoots : list RootBinding;
  so_MaxActiveRuns : Z;
  so_ExclusiveChannel : bool;
  so_QueueID : string;
  so_QueueClaimToken : string;
  so_ResumesRunID : string;
  so_ExactContinuation : bool;
  so_Admission : AdmissionSnapshot
}.

#[export] Instance StartRunOptions_eta : Eta StartRunOptions := fun o =>
  mkStartRunOptions (so_WorkKey o) (so_ExecutionClass o) (so_ExecutionRoots o)
    (so_MaxActiveRuns o) (so_ExclusiveChannel o) (so_QueueID o) (so_QueueClaimToken o)
    (so_ResumesRunID o) (so_ExactContinuation o) (so_Admission o).

(** ** Claiming the parent *)

(** [status IN ('pending', 'running')] for the watches of one Run. *)
Definition live_watch (tenantID runID : string) (w : WatchRow) : bool :=
  (w_tenant_id w =? tenantID)%string && (w_run_id w =? runID)%string
  && one_of ["pending"; "running"] (w_status w).

Definition pending_resource_wait (tenantID runID : string) (w : ResourceWaitRow) : bool :=
  (rw_tenant_id w =? tenantID)%string && (rw_run_id w =? runID)%string
  && (rw_status w =? "pending")%string.

(** The unfinished wake-up row that owns a parked provider or lane wait. *)
Definition wake_row (tenantID personID runID : string) (q : QueueRow) : bool :=
  (q_tenant_id q =? tenantID)%string && (q_person_id q =? personID)%string
  && (q_reply_to_run_id q =? runID)%string
  && one_of ["provider-wait:" +:+ runID; "execution-lane:" +:+ runID] (q_idempotency_key q)
  && one_of [QueueStatusQueued; QueueStatusStarted] (q_status q).

Definition wakeQueueID (tenantID personID runID : string) (d : DB) : string :=
  match query_row (wake_row tenantID personID runID) (db_queue d) with
  | Some q => q_id q
  | None => ""
  end.

(** The child as the claim reads it: tenant, person, task and parent. *)
Record ResumeClaim := mkResumeClaim {
  rc_TenantID : string; rc_PersonID : string; rc_TaskID : string; rc_ResumesRunID : string }.

Definition validateResumeClaimTx (child : ResumeClaim) (queueID : option string) (d : DB)
  : option error :=
  let tenant := rc_TenantID child in
  let parentID := rc_ResumesRunID child in
  match query_row (run_at tenant parentID) (db_runs d) with
  | None => Some (Errorf ("parent run " +:+ parentID +:+ " not found"))
  | Some p =>
      if negb (run_execution_class p =? "work")%string
      then Some (Sentinel ErrResumeTargetNotResumable) else
      if negb (run_thread_id p =? rc_TaskID child)%string
         || negb (run_person_id p =? rc_PersonID child)%string
      then Some (Errorf ("parent run " +:+ parentID +:+ " belongs to a different task or person")) else
      let resumable :=
        if resumableRunStatus (run_status p) then true
        else if (run_status p =? "waiting_external")%string then
          negb (existsb (live_watch tenant parentID) (db_watches d))
          && negb (existsb (pending_resource_wait tenant parentID) (db_resource_waits d))
          && let providerQueueID := wakeQueueID tenant (rc_PersonID child) parentID d in
             (providerQueueID =? "")%string
             || match queueID with Some q => (q =? providerQueueID)%string | None => false end
        else false in
      if negb resumable then Some (Sentinel ErrResumeTargetNotResumable) else
      if negb (run_resumed_by_run_id p =? "")%string then Some (Sentinel ErrResumeTargetClaimed) else
      if has_child tenant parentID (db_runs d) then Some (Sentinel ErrResumeTargetClaimed) else
      None
  end.

(** ** Creating a Run *)

Section Start.
Context `{RunEnv}.

(** The inserted row; columns the statement does not name take their defaults. *)
Definition newRun (id : string) (now : Time) (owner : RunOwner) (channel inputSummary : string)
    (o : StartRunOptions) (admission : stored_admission) : Run :=
  mkRun id (so_ExecutionClass o) (TrimSpace (ow_ThreadID owner)) (ow_TenantID owner)
    (ow_PersonID owner) (ow_WorkspaceID owner) (JVal (CloneRootBindings (so_ExecutionRoots o)))
    (normalizeName channel "cli") inputSummary (ToUpper (TrimSpace (so_WorkKey o)))
    (TrimSpace (so_ResumesRunID o)) "" CurrentRunRecoveryContractVersion "running" (Unix now)
    None (Some (Unix now)) false 0 "" admission.

(** [INSERT INTO runs]: the primary key and the index that allows one child per
    parent; [isResumeEdgeUniqueViolation] recognises the second. *)
Definition insertRun (r : Run) (d : DB) : res DB :=
  if existsb (fun x => (run_id x =? run_id r)%string) (db_runs d)
  then Err (uniqueViolation "runs.id") else
  if negb (run_resumes_run_id r =? "")%string
     && has_child (run_tenant_id r) (run_resumes_run_id r) (db_runs d)
  then Err (Sentinel ErrResumeTargetClaimed) else
  Ok (d <| db_runs := db_runs d ++ [r] |>).

(** The row the Run is started from, as the admission read sees it. *)
Definition claimed_row (tenantID personID id token : string) (q : QueueRow) : bool :=
  (q_tenant_id q =? tenantID)%string && (q_person_id q =? personID)%string
  && (q_id q =? id)%string && has_status QueueStatusStarted q && (q_claim_token q =? token)%string.

Definition bindable_row (r : Run) (id token : string) (q : QueueRow) : bool :=
  claimed_row (run_tenant_id r) (run_person_id r) id token q
  && (q_channel q =? run_channel r)%string && unbound q.

Definition insertWorkUnit (wu : string) (now : Time) (r : Run) (d : DB) : res DB :=
  if negb (run_execution_class r =? "work")%string then Ok d else
  if existsb (fun u => (u_id u =? wu)%string) (db_work_units d)
  then Err (uniqueViolation "run_work_units.id") else
  Ok (d <| db_work_units := db_work_units d ++
        [mkWorkUnitRow wu (run_tenant_id r) (run_person_id r) (run_workspace_id r) (run_id r)
           (run_thread_id r) (run_thread_id r) (run_input_summary r) "in_progress" "active" ""
           "" [] (Unix now) None 0] |>).

(** What the plan import writes: work units, then evidence events. *)
Fixpoint importEvents (now : Time) (runID threadID channel : string)
    (events : list (string * EventIn)) (d : DB) : res DB :=
  match events with
  | [] => Ok d
  | (id, e) :: rest =>
      match insertScopedEvent id now runID threadID channel e d with
      | Err e => Err e
      | Ok (d1, _) => importEvents now runID threadID channel rest d1
      end
  end.

Definition importPlan (now : Time) (r : Run) (exact : bool) (d : DB) : res DB :=
  if (run_resumes_run_id r =? "")%string then Ok d else
  match inheritRunPlanTx d (run_tenant_id r) (run_id r) (run_resumes_run_id r) false exact with
  | Err e => Err e
  | Ok (units, events) =>
      importEvents now (run_id r) (run_thread_id r) (run_channel r) events
        (d <| db_work_units := units |>)
  end.

Definition touchThread (now : Time) (threadID : string) (d : DB) : DB :=
  if (threadID =? "")%string then d else
  d <| db_threads := update_where (fun t => (th_id t =? threadID)%string)
         (fun t => t <| th_last_activity_at := Unix now |> <| th_updated_at := Unix now |>)
         (db_threads d) |>.

(** The capacity checks. *)
Definition capacityError (owner : RunOwner) (channel : string) (o : StartRunOptions) (d : DB)
  : option error :=
  let limit := if (so_ExecutionClass o =? "coordination")%string then 1%Z else so_MaxActiveRuns o in
  if (0 <? limit)%Z
     && (limit <=? countActiveRuns (ow_TenantID owner) (ow_PersonID owner) (so_ExecutionClass o) ""
                     (db_runs d))%Z
  then Some (Sentinel ErrRunCapacity) else
  if so_ExclusiveChannel o
     && (0 <? countActiveRuns (ow_TenantID owner) (ow_PersonID owner) "work"
                (normalizeName channel "cli") (db_runs d))%Z
  then Some (Sentinel ErrRunCapacity) else None.

(** The admission the Run is created with: the options', or, for a queued Run,
    the one its row was accepted with. *)
Definition startAdmission (owner : RunOwner) (o : StartRunOptions) (own : stored_admission) (d : DB)
  : res stored_admission :=
  if (so_QueueID o =? "")%string then Ok own else
  match query_row (claimed_row (ow_TenantID owner) (ow_PersonID owner) (so_QueueID o)
                     (so_QueueClaimToken o)) (db_queue d) with
  | None => Err (Sentinel ErrQueueClaimLost)
  | Some q => queuedRunAdmissionJSON (so_Admission o) (q_admission_json q)
  end.

Definition bindQueuedRow (r : Run) (o : StartRunOptions) (d : DB) : res DB :=
  if (so_QueueID o =? "")%string then Ok d else
  let cond := bindable_row r (so_QueueID o) (so_QueueClaimToken o) in
  if negb (rows_affected cond (db_queue d) =? 1)%Z then Err (Sentinel ErrQueueClaimLost) else
  Ok (d <| db_queue := update_where cond (fun q => q <| q_run_id := run_id r |>) (db_queue d) |>).

(** The writes after the Run's admission is known. *)
Definition storeRun (wu : string) (now : Time) (r : Run) (o : StartRunOptions) (d : DB) : res DB :=
  (d1 <-? insertRun r d ;;
   d2 <-? bindQueuedRow r o d1 ;;
   let d3 := if (run_resumes_run_id r =? "")%string then d2
             else resolveOriginRunBlockersTx now (run_tenant_id r) (run_thread_id r)
                    (run_resumes_run_id r) (run_id r) d2 in
   d4 <-? insertWorkUnit wu now r d3 ;;
   d5 <-? importPlan now r (so_ExactContinuation o) d4 ;;
   Ok (touchThread now (run_thread_id r) d5))%go.

Definition startRunOnce (uuid wu : string) (now : Time) (owner : RunOwner)
    (channel inputSummary : string) (o : StartRunOptions) (d : DB) : tx Run :=
  match encodeAdmissionSnapshot (so_Admission o) with
  | Err e => Rollback (Err (Wrap "encode run admission snapshot" e))
  | Ok (_, own) =>
      match capacityError owner channel o d with
      | Some e => Rollback (Err e)
      | None =>
          let resumes := TrimSpace (so_ResumesRunID o) in
          match (if (resumes =? "")%string then None
                 else validateResumeClaimTx
                        (mkResumeClaim (ow_TenantID owner) (ow_PersonID owner)
                           (TrimSpace (ow_ThreadID owner)) resumes) (Some (so_QueueID o)) d) with
          | Some e => Rollback (Err e)
          | None =>
              match startAdmission owner o own d with
              | Err e => Rollback (Err e)
              | Ok admission =>
                  let r := newRun ("run_" +:+ uuid) now owner channel inputSummary o admission in
                  match storeRun ("wu_" +:+ wu) now r o d with
                  | Err e => Rollback (Err e)
                  | Ok d' => Commit r d'
                  end
              end
          end
      end
  end.

(** [startRun]: the guards on the owner and the options; the execution class
    defaults to [work]. *)
Definition startRun (uuid wu : string) (now : Time) (owner : RunOwner)
    (channel inputSummary : string) (o : StartRunOptions) (d : DB) : DB * res Run :=
  if blank (ow_TenantID owner) || blank (ow_PersonID owner)
  then (d, Err (Errorf "run owner requires a tenant and a person")) else
  if negb (Bool.eqb (blank (so_QueueID o)) (blank (so_QueueClaimToken o)))
  then (d, Err (Errorf "queued run requires both queue id and claim token")) else
  let o := if (so_ExecutionClass o =? "")%string then o <| so_ExecutionClass := "work" |> else o in
  if negb (so_ExecutionClass o =? "work")%string && negb (so_ExecutionClass o =? "coordination")%string
  then (d, Err (Errorf "unsupported run execution class")) else
  if (so_ExecutionClass o =? "coordination")%string
     && (negb (ow_ThreadID owner =? "")%string || negb (so_QueueID o =? "")%string
         || negb (so_ResumesRunID o =? "")%string
         || negb (match so_ExecutionRoots o with [] => true | _ => false end))
  then (d, Err (Errorf "coordination run cannot claim a work scope")) else
  run_tx d (startRunOnce uuid wu now owner channel inputSummary o d).

End Start.

(** ** Finishing a Run *)

Definition finishRun (now : Time) (tenantID runID status : string) (analyzerVersion : Z)
    (payload : string) (d : DB) : DB :=
  let status := if (status =? "")%string || (status =? "running")%string then "done" else status in
  let tenant := normalizeTenant tenantID in
  let d1 := d <| db_runs := update_where (run_at tenant runID)
                  (fun r => r <| run_status := status |> <| run_finished_at := Some (Unix now) |>
                              <| run_heartbeat_at := Some (Unix now) |>) (db_runs d) |> in
  let d2 :=
    match query_row (run_at tenant runID) (db_runs d1) with
    | None => d1
    | Some r =>
        d1 <| db_threads := update_where (fun t => (th_tenant_id t =? tenant)%string
                                                   && (th_id t =? run_thread_id r)%string)
               (fun t => t <| th_last_activity_at := Unix now |> <| th_updated_at := Unix now |>)
               (db_threads d1) |>
    end in
  if (0 <? analyzerVersion)%Z
  then d2 <| db_maintenance := createMaintenanceJobTx now tenant runID analyzerVersion payload
                                 (db_maintenance d2) |>
  else d2.

Definition FinishRun (now : Time) (tenantID runID status : string) (d : DB) : DB :=
  finishRun now tenantID runID status 0 "" d.

Definition FinishRunWithMaintenancePayload (now : Time) (tenantID runID status : string)
    (analyzerVersion : Z) (payload : string) (d : DB) : DB * option error :=
  if (analyzerVersion <=? 0)%Z then (d, Some (Errorf "maintenance analyzer version must be positive"))
  else (finishRun now tenantID runID status analyzerVersion payload d, None).

Definition UpdateRunHeartbeat (now : Time) (tenantID runID : string) (d : DB) : DB :=
  d <| db_runs := update_where (fun r => run_at (normalizeTenant tenantID) runID r
                                         && (run_status r =? "running")%string)
         (fun r => r <| run_heartbeat_at := Some (Unix now) |>) (db_runs d) |>.

Definition RunCancelRequested (tenantID runID : string) (d : DB) : bool :=
  match query_row (run_at (normalizeTenant tenantID) runID) (db_runs d) with
  | Some r => run_cancel_requested r
  | None => false
  end.
