(* ===== verification/Checkpoints.v ===== *)
(** * Loop checkpoints and live human waits

    [internal/control/loop_checkpoint.go] and the release half of
    [internal/control/human_wait.go].  A checkpoint may be bound to the exact
    wait it stopped in: a kind, a reference and the pending tool call, all three
    or none.  [SaveLoopCheckpoint] accepts a binding only when the request it
    names belongs to the same person and Run. *)

From stdpp Require Import base tactics list strings.
From Stdlib Require Import ZArith Lia Bool String List.
From S2P Require Import Prelude GoLib Sql Admission Store Queue Database.

Definition LoopCheckpointWaitExecutionLane : string := "execution_lane".
Definition LoopCheckpointWaitExecutionHostLane : string := "execution_host_lane".
Definition LoopCheckpointWaitApproval : string := "approval".
Definition LoopCheckpointWaitClarification : string := "clarification".

Definition ErrLoopCheckpointWaitBinding : string :=
  "loop checkpoint wait binding is not this run's wait".

Definition loopCheckpointToolCallMaxBytes : Z := 256.

Definition recoveryJSON (value : string) : string :=
  if (value =? "")%string then "{}" else value.

Definition bindingError (text : string) : error := Wrap text (Sentinel ErrLoopCheckpointWaitBinding).

(** The tool call the approval's payload records, when it is JSON. *)
Definition recordedToolCall (a : ApprovalRow) : string :=
  match a_payload a with JVal p => pl_tool_call_id p | JBad _ => "" end.

(** The row a binding names: [Some call] with the tool call it recorded. *)
Definition boundRequest (tenantID : string) (rec : LoopCheckpointRecord) (d : DB) : option string :=
  let kind := ck_WaitKind rec in
  if one_of [LoopCheckpointWaitExecutionLane; LoopCheckpointWaitExecutionHostLane] kind then
    match query_row (fun r => run_at tenantID (ck_WaitRef rec) r
                              && (run_person_id r =? ck_PersonID rec)%string
                              && (run_id r =? ck_RunID rec)%string
                              && (run_status r =? "running")%string) (db_runs d) with
    | Some _ => Some ""
    | None => None
    end
  else if (kind =? LoopCheckpointWaitApproval)%string then
    match query_row (fun a => (a_tenant_id a =? tenantID)%string
                              && (a_id a =? ck_WaitRef rec)%string
                              && (a_person_id a =? ck_PersonID rec)%string
                              && (a_run_id a =? ck_RunID rec)%string) (db_approvals d) with
    | Some a => Some (recordedToolCall a)
    | None => None
    end
  else
    match query_row (fun c => (c_tenant_id c =? tenantID)%string
                              && (c_id c =? ck_WaitRef rec)%string
                              && (c_person_id c =? ck_PersonID rec)%string
                              && (c_run_id c =? ck_RunID rec)%string) (db_clarifies d) with
    | Some _ => Some ""
    | None => None
    end.

Definition waitKinds : list string :=
  [LoopCheckpointWaitExecutionLane; LoopCheckpointWaitExecutionHostLane;
   LoopCheckpointWaitApproval; LoopCheckpointWaitClarification].

Definition checkLoopCheckpointWait (tenantID : string) (rec : LoopCheckpointRecord) (d : DB)
  : option error :=
  if (ck_WaitKind rec =? "")%string && (ck_WaitRef rec =? "")%string
     && (ck_WaitToolCallID rec =? "")%string then None else
  if (ck_WaitRef rec =? "")%string || (ck_WaitToolCallID rec =? "")%string
  then Some (bindingError "a binding needs its request and tool call") else
  if (loopCheckpointToolCallMaxBytes <? Z.of_nat (String.length (ck_WaitToolCallID rec)))%Z
  then Some (bindingError "tool call id is too long") else
  if one_of [LoopCheckpointWaitExecutionLane; LoopCheckpointWaitExecutionHostLane] (ck_WaitKind rec)
     && (negb (ck_Outcome rec =? "await_execution")%string
         || negb (ck_WaitRef rec =? ck_RunID rec)%string)
  then Some (bindingError "execution wait must name this Run") else
  if negb (one_of waitKinds (ck_WaitKind rec))
  then Some (bindingError "unknown wait kind") else
  match boundRequest tenantID rec d with
  | None => Some (bindingError "no such wait")
  | Some recordedCall =>
      if negb (recordedCall =? "")%string
         && negb (recordedCall =? ck_WaitToolCallID rec)%string
      then Some (bindingError "asked from another tool call") else None
  end.

(** [INSERT ... ON CONFLICT(run_id) DO UPDATE SET ...]: the owner columns of an
    existing checkpoint are kept. *)
Definition upsertCheckpoint (rec : LoopCheckpointRecord) (t : list LoopCheckpointRecord)
  : list LoopCheckpointRecord :=
  let cond := fun c => (ck_RunID c =? ck_RunID rec)%string in
  if existsb cond t then
    update_where cond (fun c =>
      c <| ck_ContractVersion := ck_ContractVersion rec |> <| ck_Recovery := ck_Recovery rec |>
        <| ck_Iteration := ck_Iteration rec |> <| ck_Outcome := ck_Outcome rec |>
        <| ck_Detail := ck_Detail rec |> <| ck_Snapshot := ck_Snapshot rec |>
        <| ck_UpdatedAt := ck_UpdatedAt rec |> <| ck_WaitKind := ck_WaitKind rec |>
        <| ck_WaitRef := ck_WaitRef rec |> <| ck_WaitToolCallID := ck_WaitToolCallID rec |>) t
  else t ++ [rec].

Definition SaveLoopCheckpoint (now : Time) (record : LoopCheckpointRecord) (d : DB)
  : DB * option error :=
  let tenantID := normalizeTenant (ck_TenantID record) in
  let record := record <| ck_WaitKind := TrimSpace (ck_WaitKind record) |>
                       <| ck_WaitRef := TrimSpace (ck_WaitRef record) |>
                       <| ck_WaitToolCallID := TrimSpace (ToValidUTF8 (ck_WaitToolCallID record)) |> in
  match checkLoopCheckpointWait tenantID record d with
  | Some e => (d, Some e)
  | None =>
      (d <| db_checkpoints := upsertCheckpoint
              (record <| ck_TenantID := tenantID |> <| ck_Recovery := recoveryJSON (ck_Recovery record) |>
                      <| ck_UpdatedAt := Unix now |>) (db_checkpoints d) |>, None)
  end.

Definition IncompleteLoopCheckpointForRun (tenantID runID : string) (d : DB)
  : option LoopCheckpointRecord :=
  if (runID =? "")%string then None else
  query_row (fun c => (ck_TenantID c =? normalizeTenant tenantID)%string
                      && (ck_RunID c =? runID)%string
                      && negb (ck_Outcome c =? "complete_turn")%string) (db_checkpoints d).

Definition CompletedLoopCheckpointForRun (tenantID personID runID : string) (d : DB)
  : option LoopCheckpointRecord :=
  if (runID =? "")%string || (personID =? "")%string then None else
  query_row (fun c => (ck_TenantID c =? normalizeTenant tenantID)%string
                      && (ck_PersonID c =? personID)%string && (ck_RunID c =? runID)%string
                      && (ck_Outcome c =? "complete_turn")%string) (db_checkpoints d).

(** ** Releasing a live wait *)

(** [WaitRelease]: the checkpoint the wait overwrote, or none. *)
Record WaitRelease := mkWaitRelease { wr_Prior : option LoopCheckpointRecord }.

(** [liveHumanWaitBinding]: the checkpoint still bound to this request, of a Run
    that is not parked. *)
Definition liveHumanWaitBinding (tenantID personID runID kind ref : string) (runs : list Run)
    (c : LoopCheckpointRecord) : bool :=
  (ck_TenantID c =? tenantID)%string && (ck_PersonID c =? personID)%string
  && (ck_RunID c =? runID)%string && (ck_Outcome c =? "await_human")%string
  && (ck_WaitKind c =? kind)%string && (ck_WaitRef c =? ref)%string
  && existsb (fun r => run_at (ck_TenantID c) (ck_RunID c) r
                       && negb (run_status r =? "waiting_user")%string) runs.

Definition releaseHumanWait (now : Time) (tenantID personID runID kind ref : string)
    (release : WaitRelease) (d : DB) : res DB :=
  let tenantID := normalizeTenant tenantID in
  let personID := TrimSpace personID in
  let runID := TrimSpace runID in
  let kind := TrimSpace kind in
  let ref := TrimSpace ref in
  if (personID =? "")%string || (runID =? "")%string || (kind =? "")%string || (ref =? "")%string
  then Err (Errorf "releasing a human wait requires its person, Run and request") else
  let cond := liveHumanWaitBinding tenantID personID runID kind ref (db_runs d) in
  match wr_Prior release with
  | None => Ok (d <| db_checkpoints := delete_where cond (db_checkpoints d) |>)
  | Some prior =>
      Ok (d <| db_checkpoints := update_where cond (fun c =>
            c <| ck_ContractVersion := ck_ContractVersion prior |>
              <| ck_Recovery := recoveryJSON (ck_Recovery prior) |>
              <| ck_Iteration := ck_Iteration prior |> <| ck_Outcome := ck_Outcome prior |>
              <| ck_Detail := ck_Detail prior |> <| ck_Snapshot := ck_Snapshot prior |>
              <| ck_UpdatedAt := Unix now |> <| ck_WaitKind := ck_WaitKind prior |>
              <| ck_WaitRef := ck_WaitRef prior |>
              <| ck_WaitToolCallID := ck_WaitToolCallID prior |>) (db_checkpoints d) |>)
  end.

Definition ReleaseHumanWait (now : Time) (tenantID personID runID kind ref : string)
    (release : WaitRelease) (d : DB) : DB * option error :=
  match releaseHumanWait now tenantID personID runID kind ref release d with
  | Ok d' => (d', None)
  | Err e => (d, Some e)
  end.
