(* ===== verification/Approvals.v ===== *)
(** * Approval requests ([internal/control/approvals.go])

    A request is [pending] until a person decides it, it expires or it is
    archived.  Independently its waiter is [live] (the tool call is blocked on
    it), [parked] (the Run released its resources) or [claimed].  A parked
    request is answered together with the queue row that continues its Run, in
    one transaction. *)

From stdpp Require Import base tactics list strings.
From Stdlib Require Import ZArith Lia Bool String List.
From S2P Require Import Prelude GoLib Sql Admission Store Queue Database Checkpoints.

Definition ParkedApprovalRetention : Duration := (7 * 24 * Hour)%Z.

(** ** Rows *)

Definition approval_at (tenantID id : string) (a : ApprovalRow) : bool :=
  (a_tenant_id a =? tenantID)%string && (a_id a =? id)%string.

Definition a_pending (a : ApprovalRow) : bool := (a_status a =? "pending")%string.
Definition a_live (a : ApprovalRow) : bool := (a_waiter_state a =? "live")%string.
Definition a_parked (a : ApprovalRow) : bool := (a_waiter_state a =? "parked")%string.
Definition a_decided (a : ApprovalRow) : bool := one_of ["approved"; "rejected"] (a_status a).

(** [COALESCE(parked_at, created_at)]. *)
Definition parkedSince (a : ApprovalRow) : Z :=
  match a_parked_at a with Some t => t | None => a_created_at a end.

(** ** Creation *)

Definition CreateApprovalRequest (uuid : string) (now : Time) (req : ApprovalRow) (d : DB)
  : DB * res ApprovalRow :=
  let tenant := normalizeTenant (a_tenant_id req) in
  if (a_person_id req =? "")%string then (d, Err (Errorf "person id is required")) else
  let threadID := threadIDForRun tenant (a_run_id req) d in
  let req := req <| a_tenant_id := tenant |>
    <| a_action_type := normalizeName (a_action_type req) "tool_call" |>
    <| a_payload := match a_payload req with
                    | JBad "" => JVal (mkApprovalPayload "" "")
                    | p => p end |>
    <| a_status := if (a_status req =? "")%string then "pending" else a_status req |>
    <| a_waiter_state := if (a_waiter_state req =? "")%string then "live" else a_waiter_state req |>
    <| a_id := if (a_id req =? "")%string then "apr_" +:+ uuid else a_id req |>
    <| a_thread_id := if (threadID =? "")%string then a_thread_id req else threadID |>
    <| a_created_at := Unix now |> <| a_updated_at := Unix now |> in
  let row := mkApprovalRow (a_id req) (a_tenant_id req) (a_person_id req) (a_thread_id req)
    (a_run_id req) (a_action_type req) (a_payload req) (a_status req) (a_requested_channel req)
    (a_approved_channel req) "" "" "" "" 0 (a_waiter_state req) None "" 0 "" ""
    (a_authorization_fingerprint req) "" 0 None (a_created_at req) (a_updated_at req) in
  if existsb (fun a => (a_id a =? a_id row)%string) (db_approvals d)
  then (d, Err (uniqueViolation "approval_requests.id")) else
  (promoteThreadForControlObjectTx now (a_tenant_id req) (a_run_id req)
     (d <| db_approvals := db_approvals d ++ [row] |>), Ok req).

(** ** Reads *)

Definition GetApprovalRequest (tenantID approvalID : string) (d : DB) : res (option ApprovalRow) :=
  let approvalID := TrimSpace approvalID in
  if (approvalID =? "")%string then Err (Errorf "approval id is required") else
  Ok (query_row (approval_at (normalizeTenant tenantID) approvalID) (db_approvals d)).

Definition approval_newest_first (a b : ApprovalRow) : bool :=
  (a_created_at b <? a_created_at a)%Z
  || (a_created_at a =? a_created_at b)%Z && String.leb (a_id b) (a_id a).

Definition approval_oldest_first (a b : ApprovalRow) : bool :=
  (a_created_at a <? a_created_at b)%Z
  || (a_created_at a =? a_created_at b)%Z && String.leb (a_id a) (a_id b).

Definition ListApprovalRequests (tenantID personID status : string) (limit : Z) (d : DB)
  : res (list ApprovalRow) :=
  if (personID =? "")%string then Err (Errorf "person id is required") else
  let limit := if (limit <=? 0)%Z || (100 <? limit)%Z then 20%Z else limit in
  let status := normalizeName status "pending" in
  Ok (sql_limit limit (order_by approval_newest_first
        (select_where (fun a => (a_tenant_id a =? normalizeTenant tenantID)%string
                                && (a_person_id a =? personID)%string
                                && (a_status a =? status)%string) (db_approvals d)))).

Definition IsApprovalPending (tenantID personID approvalID : string) (d : DB) : bool :=
  let approvalID := TrimSpace approvalID in
  let personID := TrimSpace personID in
  if (approvalID =? "")%string || (personID =? "")%string then false else
  (rows_affected (fun a => approval_at (normalizeTenant tenantID) approvalID a
                           && (a_person_id a =? personID)%string && a_pending a)
     (db_approvals d) =? 1)%Z.

(** Live and parked requests of a person, and the oldest parked since. *)
Definition ApprovalBacklog (tenantID personID : string) (d : DB) : res (Z * Z * option Z) :=
  if blank personID then Err (Errorf "person id is required") else
  let rows := select_where (fun a => (a_tenant_id a =? normalizeTenant tenantID)%string
                                     && (a_person_id a =? TrimSpace personID)%string
                                     && a_pending a) (db_approvals d) in
  let parked := List.filter a_parked rows in
  let oldest := fold_left (fun m a => match m with
                             | None => Some (parkedSince a)
                             | Some t => Some (Z.min t (parkedSince a)) end) parked None in
  Ok (Z.of_nat (length (List.filter a_live rows)), Z.of_nat (length parked),
      match oldest with Some t => if (0 <? t)%Z then Some t else None | None => None end).

(** ** Transitions of one request *)

(** [UPDATE ... RETURNING]: the transitioned row, or the current one. *)
Definition returning (tenantID approvalID : string) (cond : ApprovalRow -> bool)
    (f : ApprovalRow -> ApprovalRow) (d : DB) : DB * res (option ApprovalRow * bool) :=
  let d' := d <| db_approvals := update_where cond f (db_approvals d) |> in
  match query_row cond (db_approvals d) with
  | Some a => (d', Ok (Some (f a), true))
  | None =>
      match GetApprovalRequest tenantID approvalID d with
      | Ok current => (d', Ok (current, false))
      | Err e => (d', Err e)
      end
  end.

Definition expireApproval (now : Time) (a : ApprovalRow) : ApprovalRow :=
  a <| a_status := "expired" |> <| a_updated_at := Unix now |>.

Definition ExpireApprovalRequest (now : Time) (tenantID approvalID : string) (d : DB)
  : DB * res (option ApprovalRow * bool) :=
  let tenantID := normalizeTenant tenantID in
  let approvalID := TrimSpace approvalID in
  if (approvalID =? "")%string then (d, Err (Errorf "approval id is required")) else
  returning tenantID approvalID (fun a => approval_at tenantID approvalID a && a_pending a)
    (expireApproval now) d.

Definition parkApproval (now : Time) (reason : string) (a : ApprovalRow) : ApprovalRow :=
  a <| a_waiter_state := "parked" |> <| a_parked_at := Some (Unix now) |>
    <| a_park_reason := reason |> <| a_updated_at := Unix now |>.

Definition ParkApprovalRequest (now : Time) (tenantID approvalID reason : string) (d : DB)
  : DB * res (option ApprovalRow * bool) :=
  returning tenantID approvalID
    (fun a => approval_at (normalizeTenant tenantID) (TrimSpace approvalID) a
              && a_pending a && a_live a)
    (parkApproval now (TrimSpace reason)) d.

Definition orphanReason : string := "approval waiter was lost during daemon recovery".

(** A live pending request whose Run is not running any more. *)
Definition orphaned_approval (runs : list Run) (a : ApprovalRow) : bool :=
  a_pending a && a_live a && negb (a_run_id a =? "")%string
  && negb (existsb (fun r => (run_id r =? a_run_id a)%string && (run_status r =? "running")%string) runs).

Definition parkOrphan (now : Time) (a : ApprovalRow) : ApprovalRow :=
  a <| a_waiter_state := "parked" |>
    <| a_parked_at := match a_parked_at a with Some t => Some t | None => Some (Unix now) end |>
    <| a_park_reason := if (a_park_reason a =? "")%string then orphanReason else a_park_reason a |>
    <| a_updated_at := Unix now |>.

Definition ParkOrphanedApprovals (now : Time) (d : DB) : DB * list ApprovalRow :=
  let cond := orphaned_approval (db_runs d) in
  (d <| db_approvals := update_where cond (parkOrphan now) (db_approvals d) |>,
   map (parkOrphan now) (select_where cond (db_approvals d))).

(** The live waiter consumes a recorded decision. *)
Definition claimable_decision (tenantID approvalID : string) (a : ApprovalRow) : bool :=
  approval_at tenantID approvalID a && a_decided a && a_live a && (a_decision_claimed_at a =? 0)%Z.

Definition claimDecision (now : Time) (runID : string) (a : ApprovalRow) : ApprovalRow :=
  a <| a_waiter_state := "claimed" |> <| a_decision_claimed_at := Unix now |>
    <| a_claimed_by_run_id := runID |> <| a_updated_at := Unix now |>.

Definition ClaimApprovalDecisionReleasing (now : Time) (tenantID approvalID runID : string)
    (release : option WaitRelease) (d : DB) : DB * res (option ApprovalRow * bool) :=
  let tenantID := normalizeTenant tenantID in
  let approvalID := TrimSpace approvalID in
  let cond := claimable_decision tenantID approvalID in
  let f := claimDecision now (TrimSpace runID) in
  match release with
  | None => returning tenantID approvalID cond f d
  | Some rel =>
      match query_row cond (db_approvals d) with
      | Some a =>
          let item := f a in
          match releaseHumanWait now (a_tenant_id item) (a_person_id item) (a_run_id item)
                  LoopCheckpointWaitApproval (a_id item) rel
                  (d <| db_approvals := update_where cond f (db_approvals d) |>) with
          | Ok d' => (d', Ok (Some item, true))
          | Err e => (d, Err e)
          end
      | None =>
          match GetApprovalRequest tenantID approvalID d with
          | Ok current => (d, Ok (current, false))
          | Err e => (d, Err e)
          end
      end
  end.

Definition ClaimApprovalDecision (now : Time) (tenantID approvalID runID : string) (d : DB)
  : DB * res (option ApprovalRow * bool) :=
  ClaimApprovalDecisionReleasing now tenantID approvalID runID None d.

(** ** One-shot authorizations *)

(** The parked approval a resumed Run may consume: its own, or the one of the
    Run it resumes.  [COALESCE(resumes_run_id, '')] of a Run that resumes none
    is the empty string. *)
Definition authorization_for (now : Time) (tenantID personID runID fingerprint : string)
    (runs : list Run) (a : ApprovalRow) : bool :=
  (a_tenant_id a =? tenantID)%string && (a_person_id a =? personID)%string
  && (a_status a =? "approved")%string && a_parked a
  && (a_authorization_state a =? "available")%string
  && (a_authorization_fingerprint a =? fingerprint)%string
  && (Unix now <=? a_authorization_expires_at a)%Z
  && ((a_run_id a =? runID)%string
      || match query_row (run_at tenantID runID) runs with
         | Some r => (a_run_id a =? run_resumes_run_id r)%string
         | None => false
         end).

Definition consumeAuthorization (now : Time) (runID : string) (a : ApprovalRow) : ApprovalRow :=
  a <| a_authorization_state := "consumed" |> <| a_decision_claimed_at := Unix now |>
    <| a_claimed_by_run_id := runID |> <| a_updated_at := Unix now |>.

(** The approval, its decision and its grant key, when one was consumed. *)
Definition ClaimApprovalResumeAuthorization (now : Time)
    (tenantID personID runID fingerprint : string) (d : DB)
  : DB * option (string * string * string) :=
  let tenantID := normalizeTenant tenantID in
  let personID := TrimSpace personID in
  let runID := TrimSpace runID in
  let fingerprint := TrimSpace fingerprint in
  if (personID =? "")%string || (runID =? "")%string || (fingerprint =? "")%string
  then (d, None) else
  let candidates := order_by approval_oldest_first
    (select_where (authorization_for now tenantID personID runID fingerprint (db_runs d))
       (db_approvals d)) in
  match candidates with
  | [] => (d, None)
  | a :: _ =>
      let cond := fun x => (a_id x =? a_id a)%string
                           && (a_authorization_state x =? "available")%string in
      (d <| db_approvals := update_where cond (consumeAuthorization now runID) (db_approvals d) |>,
       Some (a_id a, a_decision_id a, a_decision_grant_key a))
  end.

Definition stale_parked (cutoff : Z) (a : ApprovalRow) : bool :=
  a_pending a && a_parked a && (parkedSince a <=? cutoff)%Z.

Definition archiveApproval (now : Time) (a : ApprovalRow) : ApprovalRow :=
  a <| a_status := "archived" |> <| a_authorization_state := "" |> <| a_updated_at := Unix now |>.

Definition ArchiveStaleParkedApprovals (now : Time) (retention : Duration) (d : DB)
  : DB * list ApprovalRow :=
  let retention := if (retention <=? 0)%Z then ParkedApprovalRetention else retention in
  let cond := stale_parked (Unix (Add now (- retention)%Z)) in
  (d <| db_approvals := update_where cond (archiveApproval now) (db_approvals d) |>,
   map (archiveApproval now) (select_where cond (db_approvals d))).

Definition MarkApprovalNotified (now : Time) (tenantID approvalID : string) (d : DB) : DB :=
  d <| db_approvals := update_where (fun a => approval_at (normalizeTenant tenantID) approvalID a
                                              && a_pending a && bool_decide (a_notified_at a = None))
         (fun a => a <| a_notified_at := Some (Unix now) |>) (db_approvals d) |>.

Definition ListPendingApprovalsForEscrow (createdBefore : Time) (d : DB) : list ApprovalRow :=
  sql_limit 100 (order_by approval_oldest_first
    (select_where (fun a => a_pending a && bool_decide (a_notified_at a = None)
                            && (a_created_at a <=? Unix createdBefore)%Z) (db_approvals d))).

(** ** Decisions *)

Record ApprovalDecisionInput := mkDecisionInput {
  di_GrantScope : string; di_DecisionID : string; di_GrantKey : string; di_Note : string }.

Definition normalizeGrantScope (scope : string) : string :=
  let s := ToLower (TrimSpace scope) in
  if (s =? "run")%string then "run"
  else if (s =? "workspace")%string then "workspace"
  else if one_of ["person"; "always"; "persistent"] s then "person"
  else "".

Definition normalizeApprovalDecision (decision : string) : res string :=
  let s := ToLower (TrimSpace decision) in
  if one_of ["approve"; "approved"; "yes"; "allow"; "ok"] s then Ok "approved"
  else if one_of ["reject"; "rejected"; "deny"; "denied"; "no"] s then Ok "rejected"
  else Err (Errorf "approval decision must be approved or rejected").

Record DecisionValues := mkDecisionValues {
  dv_status : string; dv_scope : string; dv_id : string; dv_grant_key : string; dv_note : string }.

Definition normalizeApprovalDecisionValues (decision : string) (input : ApprovalDecisionInput)
  : res DecisionValues :=
  match normalizeApprovalDecision decision with
  | Err e => Err e
  | Ok status =>
      let grantScope := normalizeGrantScope (di_GrantScope input) in
      let decisionID := TrimSpace (di_DecisionID input) in
      let grantKey := TrimSpace (di_GrantKey input) in
      let note := TrimSpace (di_Note input) in
      if negb (status =? "approved")%string then
        Ok (mkDecisionValues status "" (if (decisionID =? "")%string then "deny" else decisionID) "" note)
      else
        let decisionID :=
          if negb (decisionID =? "")%string then decisionID
          else if negb (grantKey =? "")%string then "rule"
          else if (grantScope =? "run")%string then "run"
          else if (grantScope =? "task")%string then "task"
          else if (grantScope =? "person")%string then "person"
          else "once" in
        Ok (mkDecisionValues status grantScope decisionID grantKey "")
  end.

Definition recordDecision (now : Time) (channel : string) (v : DecisionValues) (a : ApprovalRow)
  : ApprovalRow :=
  a <| a_status := dv_status v |> <| a_approved_channel := channel |>
    <| a_decision_scope := dv_scope v |> <| a_decision_id := dv_id v |>
    <| a_decision_grant_key := dv_grant_key v |> <| a_decision_note := dv_note v |>
    <| a_decision_recorded_at := Unix now |> <| a_updated_at := Unix now |>.

Definition RespondApprovalRequest (now : Time) (tenantID personID approvalID decision channel : string)
    (input : ApprovalDecisionInput) (d : DB) : DB * res (option ApprovalRow) :=
  let tenantID := normalizeTenant tenantID in
  if (personID =? "")%string then (d, Err (Errorf "person id is required")) else
  let approvalID := TrimSpace approvalID in
  if (approvalID =? "")%string then (d, Err (Errorf "approval id is required")) else
  match normalizeApprovalDecisionValues decision input with
  | Err e => (d, Err e)
  | Ok v =>
      let cond := fun a => approval_at tenantID approvalID a && (a_person_id a =? personID)%string
                           && a_pending a && a_live a in
      let d' := d <| db_approvals := update_where cond (recordDecision now channel v)
                                       (db_approvals d) |> in
      if (rows_affected cond (db_approvals d) =? 0)%Z then
        match GetApprovalRequest tenantID approvalID d' with
        | Err e => (d', Err e)
        | Ok None => (d', Err (Errorf ("approval request not found: " +:+ approvalID)))
        | Ok (Some existing) =>
            if negb (a_person_id existing =? personID)%string
            then (d', Err (Errorf ("approval request not found: " +:+ approvalID))) else
            if negb (a_pending existing)
            then (d', Err (Errorf ("approval request " +:+ approvalID +:+ " is already "
                                    +:+ a_status existing))) else
            (d', Err (Errorf ("approval request " +:+ approvalID +:+ " is "
                               +:+ a_waiter_state existing +:+ " and must be resumed transactionally")))
        end
      else (d', GetApprovalRequest tenantID approvalID d')
  end.

(** ** Continuation rows

    The insert both answering paths share: [ON CONFLICT(tenant_id,
    idempotency_key) ... DO NOTHING] keeps an existing row of the key, a taken
    identifier is an error, and the identifier of the key's row is read back. *)

Definition insertContinuation (row : QueueRow) (t : list QueueRow) : res (list QueueRow * string) :=
  let same := same_idempotency (q_tenant_id row) (q_idempotency_key row) in
  let inserted :=
    if negb (q_idempotency_key row =? "")%string && existsb same t then Ok t
    else if existsb (fun r => (q_id r =? q_id row)%string) t
    then Err (uniqueViolation "task_queue.id") else Ok (t ++ [row]) in
  match inserted with
  | Err e => Err e
  | Ok t' =>
      match query_row same t' with
      | Some r => Ok (t', q_id r)
      | None => Err (Errorf "sql: no rows in result set")
      end
  end.

(** The struct as the answering paths complete it: tenant, person, the request
    it answers and the defaults of an empty class, priority and identifier. *)
Definition prepareResume (uuid : string) (now : Time) (tenantID personID approvalID clarifyID : string)
    (key content taskID replyTo : string) (q : QueuedTask) : QueuedTask :=
  let platform := normalizeName (t_Platform q) "cli" in
  let class := normalizeQueueClass (t_Class q) in
  mkQueuedTask (if (t_ID q =? "")%string then "queue_" +:+ uuid else t_ID q) tenantID personID
    (normalizeName (t_Channel q) platform) platform (t_PlatformUserID q) content
    (t_ApprovalMode q) (t_WorkspaceID q) (t_ExecutionRoots q) (t_Attachments q) taskID replyTo
    approvalID clarifyID (t_RunID q) key class
    (if (t_Priority q =? 0)%Z then queuePriorityForClass class else t_Priority q)
    (t_NotBefore q) QueueStatusQueued (t_Restarts q) (t_ClaimToken q) (t_LeaseUntil q)
    (t_AttemptGeneration q) now (t_Admission q) (t_AdmissionError q).

(** The columns of the insert; the others take their defaults. *)
Definition resumeRow (q : QueuedTask) (replyTo : string) (notBefore : Z)
    (admissionJSON : stored_admission) : QueueRow :=
  mkQueueRow (t_ID q) (t_TenantID q) (t_PersonID q) (t_Channel q) (t_Platform q)
    (t_PlatformUserID q) (t_Content q) (t_ApprovalMode q) (t_WorkspaceID q)
    (JVal (t_ExecutionRoots q)) (t_TaskID q) "" replyTo (t_ApprovalID q) (t_ClarifyID q)
    (t_IdempotencyKey q) (t_Class q) (t_Priority q) notBefore (t_Status q) 0 "" 0 0
    (Unix (t_CreatedAt q)) (JVal []) admissionJSON.

(** The struct handed back: the stored row's identifier and admission. *)
Definition storedResume (q : QueuedTask) (id : string) (admissionJSON : stored_admission) : QueuedTask :=
  let '(adm, err) := setStoredAdmission admissionJSON in
  mkQueuedTask id (t_TenantID q) (t_PersonID q) (t_Channel q) (t_Platform q) (t_PlatformUserID q)
    (t_Content q) (t_ApprovalMode q) (t_WorkspaceID q) (t_ExecutionRoots q) (t_Attachments q)
    (t_TaskID q) (t_ReplyToRunID q) (t_ApprovalID q) (t_ClarifyID q) (t_RunID q)
    (t_IdempotencyKey q) (t_Class q) (t_Priority q) (t_NotBefore q) (t_Status q) (t_Restarts q)
    (t_ClaimToken q) (t_LeaseUntil q) (t_AttemptGeneration q) (t_CreatedAt q) adm err.

(** [q.NotBefore.Unix()], or 0 for the zero time. *)
Definition resumeNotBefore (t : Time) : Z := if IsZero t then 0%Z else Unix t.

(** The admission of the request's Run, as the answering statements read it. *)
Definition parkedAdmission (tenantID runID personID : string) (d : DB) : stored_admission :=
  match query_row (fun r => run_at tenantID runID r && (run_person_id r =? personID)%string)
          (db_runs d) with
  | Some r => run_admission r
  | None => SNone
  end.

(** ** Answering a parked request *)

Definition authorize (now : Time) (status : string) (a : ApprovalRow) : ApprovalRow :=
  if (status =? "approved")%string
  then a <| a_authorization_state := "available" |>
         <| a_authorization_expires_at := Unix (Add now ParkedApprovalRetention) |>
  else a <| a_authorization_state := "" |> <| a_authorization_expires_at := 0%Z |>.

Definition answerable (personID taskID : string) (a : ApprovalRow) : bool :=
  (a_person_id a =? personID)%string && a_pending a && a_parked a
  && (a_thread_id a =? taskID)%string.

Definition respondParkedTx (uuid : string) (now : Time)
    (tenantID personID approvalID channel key : string) (v : DecisionValues) (q : QueuedTask)
    (d : DB) : tx QueuedTask :=
  match query_row (approval_at tenantID approvalID) (db_approvals d) with
  | None => Rollback (Err (Errorf "sql: no rows in result set"))
  | Some a =>
      if negb (answerable personID (t_TaskID q) a)
      then Rollback (Err (Errorf ("approval request " +:+ approvalID
                                   +:+ " is not an answerable parked request"))) else
      if negb (t_ReplyToRunID q =? "")%string && negb (t_ReplyToRunID q =? a_run_id a)%string
      then Rollback (Err (Errorf "approval continuation cannot name a different Run")) else
      let q := prepareResume uuid now tenantID personID approvalID (t_ClarifyID q) key (t_Content q)
                 (t_TaskID q) (a_run_id a) q in
      match parkedRunAdmissionJSON (t_Admission q)
              (parkedAdmission (a_tenant_id a) (a_run_id a) (a_person_id a) d) with
      | Err e => Rollback (Err e)
      | Ok admissionJSON =>
          let row := (resumeRow q (t_ReplyToRunID q) (resumeNotBefore (t_NotBefore q)) admissionJSON)
                       <| q_clarify_id := "" |> in
          match insertContinuation row (db_queue d) with
          | Err e => Rollback (Err e)
          | Ok (queue, id) =>
              let cond := fun x => approval_at tenantID approvalID x
                                   && (a_person_id x =? personID)%string
                                   && a_pending x && a_parked x in
              if negb (rows_affected cond (db_approvals d) =? 1)%Z
              then Rollback (Err (Errorf ("approval request " +:+ approvalID
                                           +:+ " changed while it was being answered"))) else
              Commit (storedResume q id admissionJSON)
                (d <| db_queue := queue |>
                   <| db_approvals := update_where cond (fun x =>
                        authorize now (dv_status v) (recordDecision now channel v x)
                          <| a_resume_queue_id := id |>) (db_approvals d) |>)
          end
      end
  end.

Definition RespondParkedApprovalAndEnqueue (uuid : string) (now : Time)
    (tenantID personID approvalID decision channel : string) (input : ApprovalDecisionInput)
    (q : QueuedTask) (d : DB) : DB * res (option ApprovalRow * QueuedTask) :=
  let tenantID := normalizeTenant tenantID in
  let personID := TrimSpace personID in
  let approvalID := TrimSpace approvalID in
  match normalizeApprovalDecisionValues decision input with
  | Err e => (d, Err e)
  | Ok v =>
      if (personID =? "")%string || (approvalID =? "")%string || blank (t_Content q) || blank (t_TaskID q)
      then (d, Err (Errorf "parked approval resume requires person, approval, task, and content")) else
      let key := TrimSpace (t_IdempotencyKey q) in
      if (key =? "")%string
      then (d, Err (Errorf "parked approval resume requires an idempotency key")) else
      match run_tx d (respondParkedTx uuid now tenantID personID approvalID channel key v q d) with
      | (d', Err e) => (d', Err e)
      | (d', Ok queued) =>
          match GetApprovalRequest tenantID approvalID d' with
          | Err e => (d', Err e)
          | Ok approval => (d', Ok (approval, queued))
          end
      end
  end.

(** ** Recovering a decision whose waiter died *)

(** A decision recorded just before the waiter could claim it; the Run was
    interrupted. *)
Definition unclaimed_decision (runs : list Run) (a : ApprovalRow) : bool :=
  a_decided a && (a_resume_queue_id a =? "")%string && (0 <? a_decision_recorded_at a)%Z
  && a_live a && (a_decision_claimed_at a =? 0)%Z
  && existsb (fun r => (run_id r =? a_run_id a)%string && (run_status r =? "interrupted")%string) runs.

(** [ORDER BY a.updated_at ASC, a.id ASC]. *)
Definition approval_updated_first (a b : ApprovalRow) : bool :=
  (a_updated_at a <? a_updated_at b)%Z
  || (a_updated_at a =? a_updated_at b)%Z && String.leb (a_id a) (a_id b).

Definition ListRecoverableApprovalDecisions (limit : Z) (d : DB) : list ApprovalRow :=
  let limit := if (limit <=? 0)%Z || (100 <? limit)%Z then 100%Z else limit in
  sql_limit limit (order_by approval_updated_first
    (select_where (fun a => unclaimed_decision (db_runs d) a && negb (a_run_id a =? "")%string)
       (db_approvals d))).

Definition recoveredReason : string := "daemon restarted before the decision was fully consumed".

Definition recoverDecision (now : Time) (status id : string) (a : ApprovalRow) : ApprovalRow :=
  authorize now status
    (a <| a_waiter_state := "parked" |>
       <| a_parked_at := match a_parked_at a with Some t => Some t | None => Some (Unix now) end |>
       <| a_park_reason := recoveredReason |> <| a_resume_queue_id := id |>
       <| a_updated_at := Unix now |>).

(** The row the recovery inserts names the approval but no Run to reply to. *)
Definition EnqueueRecoveredApprovalContinuation (uuid : string) (now : Time) (approvalID : string)
    (q : QueuedTask) (d : DB) : DB * res (option QueuedTask) :=
  let approvalID := TrimSpace approvalID in
  if (approvalID =? "")%string || blank (t_Content q) || blank (t_IdempotencyKey q)
  then (d, Err (Errorf "recovered approval continuation requires approval, content, and idempotency key")) else
  let q := prepareResume uuid now (normalizeTenant (t_TenantID q)) (t_PersonID q) approvalID
             (t_ClarifyID q) (t_IdempotencyKey q) (t_Content q) (t_TaskID q) (t_ReplyToRunID q) q in
  match query_row (fun a => approval_at (t_TenantID q) approvalID a
                            && (a_person_id a =? t_PersonID q)%string
                            && (a_thread_id a =? t_TaskID q)%string
                            && unclaimed_decision (db_runs d) a) (db_approvals d) with
  | None => (d, Ok None)
  | Some a =>
      match parkedRunAdmissionJSON (t_Admission q)
              (parkedAdmission (a_tenant_id a) (a_run_id a) (a_person_id a) d) with
      | Err e => (d, Err e)
      | Ok admissionJSON =>
          match insertContinuation ((resumeRow q "" 0 admissionJSON) <| q_clarify_id := "" |>) (db_queue d) with
          | Err e => (d, Err e)
          | Ok (queue, id) =>
              let cond := fun x => approval_at (t_TenantID q) approvalID x
                                   && (a_resume_queue_id x =? "")%string in
              if negb (rows_affected cond (db_approvals d) =? 1)%Z then (d, Ok None) else
              (d <| db_queue := queue |>
                 <| db_approvals := update_where cond (recoverDecision now (a_status a) id)
                                       (db_approvals d) |>,
               Ok (Some (storedResume q id admissionJSON)))
          end
      end
  end.

(** ** Lifecycle events *)

Definition AppendApprovalParkedEvent (uuid : string) (now : Time) (approval : ApprovalRow)
    (channel reason : string) (d : DB) : DB * res (option Event) :=
  if blank (a_thread_id approval) then (d, Ok None) else
  let channel := if blank channel then a_requested_channel approval else channel in
  let '(d', r) := AppendEvent uuid now
    (mkEventIn "" "" (a_thread_id approval) (a_run_id approval) "approval.parked" "task" channel
       (JObj [("approval_id", JStr (a_id approval)); ("action_type", JStr (a_action_type approval));
              ("reason", JStr (TrimSpace reason))])
       ("approval:" +:+ a_id approval +:+ ":parked")) d in
  (d', match r with Ok e => Ok (Some e) | Err e => Err e end).

Definition AppendApprovalResolutionEvent (uuid : string) (now : Time) (approval : ApprovalRow)
    (channel reason : string) (d : DB) : DB * res (option Event) :=
  if blank (a_thread_id approval) then (d, Ok None) else
  let status := TrimSpace (a_status approval) in
  if negb (one_of ["approved"; "rejected"; "expired"; "archived"] status)
  then (d, Err (Errorf ("approval " +:+ a_id approval +:+ " has non-terminal status " +:+ status))) else
  let reason := TrimSpace reason in
  let channel := if blank channel then a_requested_channel approval else TrimSpace channel in
  let '(d', r) := AppendEvent uuid now
    (mkEventIn "" "" (a_thread_id approval) (a_run_id approval) ("approval." +:+ status) "task" channel
       (JObj ([("approval_id", JStr (a_id approval)); ("action_type", JStr (a_action_type approval));
               ("decision_id", JStr (a_decision_id approval)); ("scope", JStr (a_decision_scope approval))]
              ++ if (reason =? "")%string then [] else [("reason", JStr reason)]))
       ("approval:" +:+ a_id approval +:+ ":" +:+ status)) d in
  (d', match r with Ok e => Ok (Some e) | Err e => Err e end).
