(* ===== verification/Clarify.v ===== *)
(** * Clarification requests ([internal/control/clarifies.go])

    A question is [pending] until it is answered or expires.  An answer to a
    question whose Run is parked in a resumable state stores the queue row that
    continues that Run in the same transaction; a question whose Run can no
    longer be continued is expired instead. *)

From stdpp Require Import base tactics list strings.
From Stdlib Require Import ZArith Lia Bool Ascii String List.
From S2P Require Import Prelude GoLib Sql Admission Store Queue Database Approvals.

Definition ErrClarifyOriginUnavailable : string :=
  "clarification origin run is no longer available".

Definition clarify_at (tenantID id : string) (c : ClarifyRow) : bool :=
  (c_tenant_id c =? tenantID)%string && (c_id c =? id)%string.
Definition c_pending (c : ClarifyRow) : bool := (c_status c =? "pending")%string.

(** ** [strconv.Atoi] *)

Definition digit (a : ascii) : option Z :=
  let n := N_of_ascii a in
  if ((48 <=? n) && (n <=? 57))%N then Some (Z.of_N n - 48)%Z else None.

Fixpoint decimal (acc : Z) (l : list ascii) : option Z :=
  match l with
  | [] => Some acc
  | a :: l => match digit a with Some v => decimal (10 * acc + v) l | None => None end
  end.

(** An optional sign and at least one digit; a value outside [int] is an
    error. *)
Definition Atoi (s : string) : option Z :=
  let unsigned := fun l => match l with [] => None | _ => decimal 0 l end in
  let v := match list_ascii_of_string s with
           | a :: l => if (N_of_ascii a =? 45)%N then option_map Z.opp (unsigned l)
                       else if (N_of_ascii a =? 43)%N then unsigned l
                       else unsigned (a :: l)
           | [] => None
           end in
  match v with
  | Some z => if ((-2 ^ 63 <=? z) && (z <? 2 ^ 63))%Z then Some z else None
  | None => None
  end.

(** ** Options *)

Definition ClarifyChoices (options : jcol (list string)) : list string :=
  match options with
  | JBad _ => []
  | JVal raw => List.filter (fun s => negb (s =? "")%string) (map TrimSpace raw)
  end.

Definition ResolveClarifyOption (answer : string) (options : jcol (list string)) : string :=
  let trimmed := TrimSpace answer in
  if (trimmed =? "")%string then answer else
  let choices := ClarifyChoices options in
  match choices with
  | [] => trimmed
  | _ =>
      match Atoi trimmed with
      | Some idx =>
          if ((1 <=? idx) && (idx <=? Z.of_nat (length choices)))%Z
          then nth (Z.to_nat (idx - 1)) choices trimmed else trimmed
      | None => trimmed
      end
  end.

(** ** Creation and reads *)

Definition CreateClarifyRequest (uuid : string) (now : Time) (req : ClarifyRow) (d : DB)
  : DB * res ClarifyRow :=
  let tenant := normalizeTenant (c_tenant_id req) in
  if (c_person_id req =? "")%string then (d, Err (Errorf "person id is required")) else
  if blank (c_question req) then (d, Err (Errorf "question is required")) else
  let threadID := threadIDForRun tenant (c_run_id req) d in
  let req := req <| c_tenant_id := tenant |>
    <| c_options := match c_options req with JBad "" => JVal [] | o => o end |>
    <| c_status := if (c_status req =? "")%string then "pending" else c_status req |>
    <| c_id := if (c_id req =? "")%string then "clr_" +:+ uuid else c_id req |>
    <| c_thread_id := if (threadID =? "")%string then c_thread_id req else threadID |>
    <| c_created_at := Unix now |> <| c_updated_at := Unix now |> in
  let row := req <| c_parked_at := 0%Z |> <| c_notified_at := None |> in
  if existsb (fun c => (c_id c =? c_id row)%string) (db_clarifies d)
  then (d, Err (uniqueViolation "clarify_requests.id")) else
  (promoteThreadForControlObjectTx now (c_tenant_id req) (c_run_id req)
     (d <| db_clarifies := db_clarifies d ++ [row] |>), Ok req).

Definition clarify_oldest_first (a b : ClarifyRow) : bool :=
  (c_created_at a <? c_created_at b)%Z
  || (c_created_at a =? c_created_at b)%Z && String.leb (c_id a) (c_id b).

Definition clarify_newest_first (a b : ClarifyRow) : bool :=
  (c_created_at b <? c_created_at a)%Z
  || (c_created_at a =? c_created_at b)%Z && String.leb (c_id b) (c_id a).

Definition ListClarifyRequests (tenantID personID status : string) (limit : Z) (d : DB)
  : res (list ClarifyRow) :=
  if (personID =? "")%string then Err (Errorf "person id is required") else
  let limit := if (limit <=? 0)%Z || (100 <? limit)%Z then 20%Z else limit in
  let status := normalizeName status "pending" in
  Ok (sql_limit limit (order_by clarify_oldest_first
        (select_where (fun c => (c_tenant_id c =? normalizeTenant tenantID)%string
                                && (c_person_id c =? personID)%string
                                && (c_status c =? status)%string) (db_clarifies d)))).

Definition GetClarifyRequest (tenantID clarifyID : string) (d : DB) : res (option ClarifyRow) :=
  let clarifyID := TrimSpace clarifyID in
  if (clarifyID =? "")%string then Err (Errorf "clarify id is required") else
  Ok (query_row (clarify_at (normalizeTenant tenantID) clarifyID) (db_clarifies d)).

Definition PendingClarifyForRun (tenantID personID runID : string) (d : DB) : option ClarifyRow :=
  let personID := TrimSpace personID in
  let runID := TrimSpace runID in
  if (personID =? "")%string || (runID =? "")%string then None else
  hd_error (order_by clarify_newest_first
    (select_where (fun c => (c_tenant_id c =? normalizeTenant tenantID)%string
                            && (c_person_id c =? personID)%string && (c_run_id c =? runID)%string
                            && c_pending c) (db_clarifies d))).

(** ** Answers *)

Definition answerClarify (now : Time) (answer channel : string) (c : ClarifyRow) : ClarifyRow :=
  c <| c_status := "answered" |> <| c_answer := answer |> <| c_channel := channel |>
    <| c_updated_at := Unix now |>.

Definition expireClarify (now : Time) (c : ClarifyRow) : ClarifyRow :=
  c <| c_status := "expired" |> <| c_updated_at := Unix now |>.

(** Failures of the append are ignored, as the source does. *)
Definition appendClarifyAnsweredEvent (uuid : string) (now : Time) (clarify : option ClarifyRow)
    (channel : string) (d : DB) : DB :=
  match clarify with
  | None => d
  | Some c =>
      if blank (c_thread_id c) || negb (c_status c =? "answered")%string then d else
      let channel := if blank channel then c_channel c else TrimSpace channel in
      fst (AppendEvent uuid now
        (mkEventIn (c_tenant_id c) (c_person_id c) (c_thread_id c) (c_run_id c) "clarify.answered"
           "task" channel
           (JObj [("clarify_id", JStr (c_id c)); ("question", JStr (c_question c));
                  ("answer", JStr (c_answer c))])
           ("clarify:" +:+ c_id c +:+ ":answered")) d)
  end.

Definition own_pending (tenantID personID clarifyID : string) (c : ClarifyRow) : bool :=
  clarify_at tenantID clarifyID c && (c_person_id c =? personID)%string && c_pending c.

(** The error for a request that is not this person's pending one. *)
Definition unanswerable (clarifyID personID : string) (c : option ClarifyRow) : option error :=
  match c with
  | None => Some (Errorf ("clarify request not found: " +:+ clarifyID))
  | Some c =>
      if negb (c_person_id c =? personID)%string
      then Some (Errorf ("clarify request not found: " +:+ clarifyID)) else
      if negb (c_pending c)
      then Some (Errorf ("clarify request " +:+ clarifyID +:+ " is already " +:+ c_status c)) else None
  end.

Definition AnswerClarifyRequest (uuid : string) (now : Time)
    (tenantID personID clarifyID answer channel : string) (d : DB) : DB * res (option ClarifyRow) :=
  let tenantID := normalizeTenant tenantID in
  if (personID =? "")%string then (d, Err (Errorf "person id is required")) else
  let clarifyID := TrimSpace clarifyID in
  if (clarifyID =? "")%string then (d, Err (Errorf "clarify id is required")) else
  if blank answer then (d, Err (Errorf "answer is required")) else
  let existing := query_row (clarify_at tenantID clarifyID) (db_clarifies d) in
  match unanswerable clarifyID personID existing with
  | Some e => (d, Err e)
  | None =>
      let options := match existing with Some c => c_options c | None => JVal [] end in
      let answer := ResolveClarifyOption answer options in
      let cond := own_pending tenantID personID clarifyID in
      let d1 := d <| db_clarifies := update_where cond (answerClarify now answer channel)
                                       (db_clarifies d) |> in
      let latest := query_row (clarify_at tenantID clarifyID) (db_clarifies d1) in
      match (if (rows_affected cond (db_clarifies d) =? 0)%Z
             then unanswerable clarifyID personID latest else None) with
      | Some e => (d1, Err e)
      | None => (appendClarifyAnsweredEvent uuid now latest channel d1, Ok latest)
      end
  end.

(** *** Answer with its continuation *)

(** What the transaction ends with: the question expired, or answered with the
    continuation it enqueued, if any. *)
Inductive clarify_outcome : Type :=
| OriginUnavailable (reason : string)
| Answered (queued : option QueuedTask).

Definition expireUnavailable (now : Time) (tenantID personID clarifyID reason : string) (d : DB)
  : tx clarify_outcome :=
  let cond := own_pending tenantID personID clarifyID in
  if negb (rows_affected cond (db_clarifies d) =? 1)%Z
  then Rollback (Err (Errorf ("clarify request " +:+ clarifyID +:+ " changed while its origin was checked")))
  else Commit (OriginUnavailable reason)
         (d <| db_clarifies := update_where cond (expireClarify now) (db_clarifies d) |>).

(** The continuation of a question whose Run [r] is parked. *)
Definition enqueueClarifyResume (uuid : string) (now : Time)
    (tenantID personID taskID clarifyID answer : string) (r : Run) (q : QueuedTask) (d : DB)
  : res (list QueueRow * QueuedTask) :=
  if negb (t_ReplyToRunID q =? "")%string && negb (t_ReplyToRunID q =? run_id r)%string
  then Err (Errorf "clarification continuation cannot name a different Run") else
  let key := if blank (t_IdempotencyKey q) then "clarify-resume:" +:+ clarifyID else t_IdempotencyKey q in
  let q := prepareResume uuid now tenantID personID (t_ApprovalID q) clarifyID key answer taskID
             (run_id r) q in
  match parkedRunAdmissionJSON (t_Admission q) (run_admission r) with
  | Err e => Err e
  | Ok admissionJSON =>
      let row := (resumeRow q (t_ReplyToRunID q) (resumeNotBefore (t_NotBefore q)) admissionJSON)
                   <| q_approval_id := "" |> in
      match insertContinuation row (db_queue d) with
      | Err e => Err e
      | Ok (queue, id) => Ok (queue, storedResume q id admissionJSON)
      end
  end.

Definition settleAnswer (now : Time) (tenantID personID clarifyID answer channel : string)
    (queued : option QueuedTask) (d : DB) : tx clarify_outcome :=
  let cond := own_pending tenantID personID clarifyID in
  if negb (rows_affected cond (db_clarifies d) =? 1)%Z
  then Rollback (Err (Errorf ("clarify request " +:+ clarifyID +:+ " changed while it was being answered")))
  else Commit (Answered queued)
         (d <| db_clarifies := update_where cond (answerClarify now answer channel) (db_clarifies d) |>).

Definition answerWithResumeTx (uuid : string) (now : Time)
    (tenantID personID clarifyID answer channel : string) (q : QueuedTask) (d : DB)
  : tx clarify_outcome :=
  match query_row (clarify_at tenantID clarifyID) (db_clarifies d) with
  | None => Rollback (Err (Errorf ("clarify request not found: " +:+ clarifyID)))
  | Some c =>
      if negb (c_person_id c =? personID)%string || negb (c_pending c)
      then Rollback (Err (Errorf ("clarify request " +:+ clarifyID
                                   +:+ " is not an answerable pending request"))) else
      let answer := ResolveClarifyOption answer (c_options c) in
      let settle := fun queued d => settleAnswer now tenantID personID clarifyID answer channel queued d in
      let expire := fun reason => expireUnavailable now tenantID personID clarifyID reason d in
      if (c_run_id c =? "")%string then settle None d else
      match query_row (run_at (c_tenant_id c) (c_run_id c)) (db_runs d) with
      | None => expire "origin binding is invalid"
      | Some r =>
          if negb (run_person_id r =? personID)%string || (c_thread_id c =? "")%string
             || negb (run_thread_id r =? c_thread_id c)%string
          then expire "origin binding is invalid" else
          if (run_status r =? "running")%string then settle None d else
          if negb (resumableRunStatus (run_status r)) then expire "origin run is not resumable" else
          if has_child tenantID (c_run_id c) (db_runs d) || negb (run_resumed_by_run_id r =? "")%string
          then expire "origin run is already claimed" else
          match enqueueClarifyResume uuid now tenantID personID (c_thread_id c) clarifyID answer r q d with
          | Err e => Rollback (Err e)
          | Ok (queue, queued) => settle (Some queued) (d <| db_queue := queue |>)
          end
      end
  end.

Definition AnswerClarifyRequestWithResume (uuid evid : string) (now : Time)
    (tenantID personID clarifyID answer channel : string) (q : QueuedTask) (d : DB)
  : DB * res (option ClarifyRow * option QueuedTask) :=
  let tenantID := normalizeTenant tenantID in
  let personID := TrimSpace personID in
  let clarifyID := TrimSpace clarifyID in
  let answer := TrimSpace answer in
  if (personID =? "")%string || (clarifyID =? "")%string || (answer =? "")%string
  then (d, Err (Errorf "clarification answer requires person, clarify id, and answer")) else
  match run_tx d (answerWithResumeTx uuid now tenantID personID clarifyID answer channel q d) with
  | (d', Err e) => (d', Err e)
  | (d', Ok (OriginUnavailable reason)) =>
      (d', Err (Wrap reason (Sentinel ErrClarifyOriginUnavailable)))
  | (d', Ok (Answered queued)) =>
      let clarify := query_row (clarify_at tenantID clarifyID) (db_clarifies d') in
      (appendClarifyAnsweredEvent evid now clarify channel d', Ok (clarify, queued))
  end.

(** ** Notification and expiry *)

Definition MarkClarifyNotified (now : Time) (tenantID clarifyID : string) (d : DB) : DB :=
  d <| db_clarifies := update_where (fun c => clarify_at (normalizeTenant tenantID) clarifyID c
                                              && c_pending c && bool_decide (c_notified_at c = None))
         (fun c => c <| c_notified_at := Some (Unix now) |>) (db_clarifies d) |>.

Definition ListPendingClarifiesForEscrow (createdBefore : Time) (d : DB) : list ClarifyRow :=
  sql_limit 100 (order_by clarify_oldest_first
    (select_where (fun c => c_pending c && bool_decide (c_notified_at c = None)
                            && (c_created_at c <=? Unix createdBefore)%Z) (db_clarifies d))).

(** The tenant is compared as given, without normalisation. *)
Definition ExpireClarifyRequest (now : Time) (tenantID clarifyID : string) (d : DB) : DB :=
  d <| db_clarifies := update_where (fun c => clarify_at tenantID clarifyID c && c_pending c)
         (expireClarify now) (db_clarifies d) |>.

(** A Run that can still take the answer of a pending question. *)
Definition answerable_origin (runs : list Run) (r : Run) : bool :=
  (run_status r =? "running")%string
  || resumableRunStatus (run_status r) && (run_attention_dismissed_at r =? 0)%Z
     && (run_resumed_by_run_id r =? "")%string
     && negb (has_child (run_tenant_id r) (run_id r) runs).

Definition orphaned_clarify (runs : list Run) (c : ClarifyRow) : bool :=
  c_pending c && negb (c_run_id c =? "")%string
  && negb (existsb (fun r => run_at (c_tenant_id c) (c_run_id c) r && answerable_origin runs r) runs).

Definition ExpireOrphanedClarifies (now : Time) (d : DB) : DB * Z :=
  let cond := orphaned_clarify (db_runs d) in
  (d <| db_clarifies := update_where cond (expireClarify now) (db_clarifies d) |>,
   rows_affected cond (db_clarifies d)).
