(* ===== verification/Cancellation.v ===== *)
(** * Parking and stopping Runs

    [human_wait.go] ([ParkHumanWaitRun]), [run_cancellation.go],
    [parked_human_cancel.go], [parked_provider_cancel.go],
    [external_resource_cancel.go] and the recovery sweep of [runtime.go].  A stop
    closes the parked Run, its pending human requests, its one-shot
    authorizations, its unbound queue rows and the event ledger in one
    transaction. *)

From stdpp Require Import base tactics list strings.
From Stdlib Require Import ZArith Lia Bool String List.
From S2P Require Import Prelude GoLib Sql Admission Store Queue Database RunStart Checkpoints Approvals Clarify.

(** ** Parking a live human wait *)

Definition HumanWaitParkGrace : string := "grace".

(** The exact incomplete checkpoint of a running, uncancelled Run. *)
Definition boundHumanWait (tenantID personID runID kind ref : string) (d : DB) : bool :=
  existsb (fun c =>
      (ck_TenantID c =? tenantID)%string && (ck_PersonID c =? personID)%string
      && (ck_RunID c =? runID)%string && (ck_Outcome c =? "await_human")%string
      && (ck_WaitKind c =? kind)%string && (ck_WaitRef c =? ref)%string
      && negb (ck_WaitToolCallID c =? "")%string
      && existsb (fun r => run_at (ck_TenantID c) (ck_RunID c) r
                           && (run_person_id r =? personID)%string
                           && (run_status r =? "running")%string
                           && negb (run_cancel_requested r)) (db_runs d))
    (db_checkpoints d).

Definition waiting_approval (tenantID personID runID ref : string) (a : ApprovalRow) : bool :=
  (a_tenant_id a =? tenantID)%string && (a_person_id a =? personID)%string
  && (a_run_id a =? runID)%string && (a_id a =? ref)%string && a_pending a && a_live a.

Definition waiting_clarify (tenantID personID runID ref : string) (c : ClarifyRow) : bool :=
  (c_tenant_id c =? tenantID)%string && (c_person_id c =? personID)%string
  && (c_run_id c =? runID)%string && (c_id c =? ref)%string && c_pending c
  && (c_parked_at c =? 0)%Z.

(** The request half: the rows affected and the database after it. *)
Definition parkRequest (now : Time) (tenantID personID runID kind ref reason : string) (d : DB)
  : res (Z * DB) :=
  if (kind =? LoopCheckpointWaitApproval)%string then
    let cond := waiting_approval tenantID personID runID ref in
    Ok (rows_affected cond (db_approvals d),
        d <| db_approvals := update_where cond (parkApproval now reason) (db_approvals d) |>)
  else if (kind =? LoopCheckpointWaitClarification)%string then
    let cond := waiting_clarify tenantID personID runID ref in
    Ok (rows_affected cond (db_clarifies d),
        d <| db_clarifies := update_where cond (fun c =>
               c <| c_parked_at := Unix now |> <| c_updated_at := Unix now |>) (db_clarifies d) |>)
  else Err (Errorf "unknown human wait kind").

Definition running_of (tenantID personID runID : string) (r : Run) : bool :=
  run_at tenantID runID r && (run_person_id r =? personID)%string && (run_status r =? "running")%string.

Definition ParkHumanWaitRun (now : Time) (tenantID personID runID kind ref reason : string) (d : DB)
  : DB * res bool :=
  let tenantID := normalizeTenant tenantID in
  let reason := TrimSpace reason in
  let reason := if (reason =? "")%string then HumanWaitParkGrace else reason in
  if negb (boundHumanWait tenantID personID runID kind ref d)
  then (d, Err (Errorf "human wait has no exact incomplete checkpoint on a running Run")) else
  match parkRequest now tenantID personID runID kind ref reason d with
  | Err e => (d, Err e)
  | Ok (n, d1) =>
      if negb (n =? 1)%Z then (d, Ok false) else
      let cond := running_of tenantID personID runID in
      if negb (rows_affected cond (db_runs d1) =? 1)%Z
      then (d, Err (Errorf "human wait Run changed while parking")) else
      (d1 <| db_runs := update_where cond (fun r =>
               r <| run_status := "waiting_user" |> <| run_finished_at := Some (Unix now) |>
                 <| run_heartbeat_at := Some (Unix now) |>) (db_runs d1) |>, Ok true)
  end.

(** ** Withdrawing the requests and continuations of a Run *)

Definition approval_of (tenantID personID runID : string) (a : ApprovalRow) : bool :=
  (a_tenant_id a =? tenantID)%string && (a_person_id a =? personID)%string
  && (a_run_id a =? runID)%string.

Definition clarify_of (tenantID personID runID : string) (c : ClarifyRow) : bool :=
  (c_tenant_id c =? tenantID)%string && (c_person_id c =? personID)%string
  && (c_run_id c =? runID)%string.

Definition resolutionEvent (kind field id reason : string) : EventIn :=
  mkEventIn "" "" "" "" (kind +:+ ".expired") "" ""
    (JObj [(field, JStr id); ("reason", JStr reason)]) (kind +:+ ":" +:+ id +:+ ":expired").

(** The expired requests' events, and the database with no pending request and
    no unconsumed authorization of the Run left. *)
Definition expireRunHumanRequestsTx (now : Time) (tenantID personID runID reason : string) (d : DB)
  : list EventIn * DB :=
  let pa := fun a => approval_of tenantID personID runID a && a_pending a in
  let pc := fun c => clarify_of tenantID personID runID c && c_pending c in
  let approvals := update_where pa (expireApproval now) (db_approvals d) in
  let approvals := update_where (fun a => approval_of tenantID personID runID a
                                   && negb (a_authorization_state a =? "consumed")%string)
        (fun a => a <| a_authorization_state := "" |> <| a_authorization_expires_at := 0%Z |>
                    <| a_updated_at := Unix now |>) approvals in
  (map (fun a => resolutionEvent "approval" "approval_id" (a_id a) reason)
     (select_where pa (db_approvals d)) ++
   map (fun c => resolutionEvent "clarify" "clarify_id" (c_id c) reason)
     (select_where pc (db_clarifies d)),
   d <| db_approvals := approvals |>
     <| db_clarifies := update_where pc (expireClarify now) (db_clarifies d) |>).

(** A row that would continue the Run: it replies to it, or answers one of its
    requests. *)
Definition continues_run (tenantID personID runID : string) (d : DB) (q : QueueRow) : bool :=
  (q_reply_to_run_id q =? runID)%string
  || existsb (fun a => approval_of tenantID personID runID a && (q_approval_id q =? a_id a)%string)
       (db_approvals d)
  || existsb (fun c => clarify_of tenantID personID runID c && (q_clarify_id q =? c_id c)%string)
       (db_clarifies d).

Definition unstarted (q : QueueRow) : bool :=
  one_of [QueueStatusQueued; QueueStatusStarted] (q_status q) && unbound q.

Definition cancelRow (q : QueueRow) : QueueRow :=
  q <| q_status := "cancelled" |> <| q_claim_token := "" |> <| q_lease_until := 0%Z |>.

Definition unbound_continuation (tenantID personID runID : string) (d : DB) (q : QueueRow) : bool :=
  (q_tenant_id q =? tenantID)%string && (q_person_id q =? personID)%string
  && continues_run tenantID personID runID d q && unstarted q.

Definition cancelUnboundRunContinuationsTx (tenantID personID runID : string) (d : DB) : DB :=
  let d := clearRunResumeSelectionsTx tenantID personID runID d in
  d <| db_queue := update_where (unbound_continuation tenantID personID runID d) cancelRow (db_queue d) |>.

(** ** Closing an unclaimed parked Run *)

Definition cancelledOutcome : json :=
  JObj [("completion_reason", JStr "cancelled"); ("resumable", JBool false);
        ("status", JStr "cancelled");
        ("summary", JStr "The parked run was cancelled before continuation.")].

Definition cancelledEvents (runID : string) : list EventIn :=
  [mkEventIn "" "" "" "" "run.outcome" "" "" cancelledOutcome
     ("run:" +:+ runID +:+ ":cancelled:run.outcome");
   mkEventIn "" "" "" "" "run.cancelled" "" "" (JObj [("outcome", cancelledOutcome)])
     ("run:" +:+ runID +:+ ":cancelled:run.cancelled")].

Definition cancelParkedRunTx (ids : nat -> string) (now : Time)
    (tenantID personID runID threadID channel : string) (resolutions : list EventIn) (d : DB)
  : res (DB * list Event) :=
  let d1 := d <| db_runs := update_where (fun r => run_at tenantID runID r
                                                   && (run_person_id r =? personID)%string)
                 (fun r => r <| run_status := "cancelled" |> <| run_cancel_requested := true |>
                             <| run_finished_at := Some (Unix now) |>
                             <| run_heartbeat_at := Some (Unix now) |>) (db_runs d) |> in
  let d2 := cancelUnboundRunContinuationsTx tenantID personID runID d1 in
  insertScopedEventsTx ids now runID threadID channel (resolutions ++ cancelledEvents runID) d2.

(** [resourceWakeQueueCondition] for the Run [r]. *)
Definition resource_wake (d : DB) (r : Run) (q : QueueRow) : bool :=
  (q_class q =? QueueClassFinalization)%string
  && existsb (fun w => (rw_tenant_id w =? run_tenant_id r)%string
                       && (rw_person_id w =? run_person_id r)%string
                       && (rw_run_id w =? run_id r)%string && (rw_status w =? "queued")%string
                       && (q_idempotency_key q =? "external-resource:" +:+ run_id r +:+ ":"
                                                   +:+ rw_effect_id w)%string)
       (db_resource_waits d).

(** No continuation claimed the Run, on either edge. *)
Definition unclaimed_run (d : DB) (r : Run) : bool :=
  (run_resumed_by_run_id r =? "")%string
  && negb (has_child (run_tenant_id r) (run_id r) (db_runs d)).

Definition row_of_run (r : Run) (q : QueueRow) : bool :=
  (q_tenant_id q =? run_tenant_id r)%string && (q_person_id q =? run_person_id r)%string.

Definition parkedProviderCondition (d : DB) (r : Run) : bool :=
  (run_status r =? "waiting_external")%string && unclaimed_run d r
  && negb (existsb (fun a => (a_tenant_id a =? run_tenant_id r)%string
                             && (a_run_id a =? run_id r)%string && a_pending a) (db_approvals d))
  && negb (existsb (fun c => (c_tenant_id c =? run_tenant_id r)%string
                             && (c_run_id c =? run_id r)%string && c_pending c) (db_clarifies d))
  && negb (existsb (live_watch (run_tenant_id r) (run_id r)) (db_watches d))
  && existsb (fun q => row_of_run r q && (q_reply_to_run_id q =? run_id r)%string
                       && (one_of ["provider-wait:" +:+ run_id r; "execution-lane:" +:+ run_id r]
                             (q_idempotency_key q) || resource_wake d r q)
                       && unstarted q) (db_queue d).

(** [parkedHumanCondition], for a Run and its checkpoint. *)
Definition parkedHumanCondition (d : DB) (r : Run) (c : LoopCheckpointRecord) : bool :=
  (run_status r =? "waiting_user")%string && unclaimed_run d r
  && (ck_Outcome c =? "await_human")%string && negb (ck_WaitToolCallID c =? "")%string
  && ((ck_WaitKind c =? LoopCheckpointWaitApproval)%string
        && existsb (fun a => approval_of (run_tenant_id r) (run_person_id r) (run_id r) a
              && (a_id a =? ck_WaitRef c)%string
              && (one_of ["pending"; "archived"] (a_status a)
                  || existsb (fun q => row_of_run r q && (q_approval_id q =? a_id a)%string
                                       && unstarted q) (db_queue d))) (db_approvals d)
      || (ck_WaitKind c =? LoopCheckpointWaitClarification)%string
        && existsb (fun a => clarify_of (run_tenant_id r) (run_person_id r) (run_id r) a
              && (c_id a =? ck_WaitRef c)%string
              && (c_pending a
                  || existsb (fun q => row_of_run r q && (q_clarify_id q =? c_id a)%string
                                       && unstarted q) (db_queue d))) (db_clarifies d)).

(** [parkedHumanJoin]. *)
Definition own_checkpoint (r : Run) (c : LoopCheckpointRecord) : bool :=
  (ck_TenantID c =? run_tenant_id r)%string && (ck_PersonID c =? run_person_id r)%string
  && (ck_RunID c =? run_id r)%string.

Definition parkedHuman (d : DB) (r : Run) : bool :=
  existsb (fun c => own_checkpoint r c && parkedHumanCondition d r c) (db_checkpoints d).

Definition run_of (tenantID personID runID : string) (r : Run) : bool :=
  run_at tenantID runID r && (run_person_id r =? personID)%string.

Definition ParkedProviderRunIDs (tenantID personID : string) (d : DB) : list string :=
  map run_id (select_where (fun r => (run_tenant_id r =? normalizeTenant tenantID)%string
                                     && (run_person_id r =? personID)%string
                                     && parkedProviderCondition d r) (db_runs d)).

Definition ParkedHumanRunIDs (tenantID personID : string) (d : DB) : list string :=
  map run_id (select_where (fun r => (run_tenant_id r =? normalizeTenant tenantID)%string
                                     && (run_person_id r =? personID)%string
                                     && parkedHuman d r) (db_runs d)).

(** No event means the Run was not parked this way: nothing changed. *)
Definition cancelParkedProviderTx (ids : nat -> string) (now : Time)
    (tenantID personID runID : string) (d : DB) : res (DB * list Event) :=
  match query_row (fun r => run_of tenantID personID runID r && parkedProviderCondition d r)
          (db_runs d) with
  | None => Ok (d, [])
  | Some r => cancelParkedRunTx ids now tenantID personID runID (run_thread_id r) (run_channel r) [] d
  end.

Definition cancelParkedHumanTx (ids : nat -> string) (now : Time)
    (tenantID personID runID : string) (d : DB) : res (DB * list Event) :=
  match query_row (fun r => run_of tenantID personID runID r && parkedHuman d r) (db_runs d) with
  | None => Ok (d, [])
  | Some r =>
      let '(resolutions, d1) := expireRunHumanRequestsTx now tenantID personID runID
                                  "user cancelled parked run" d in
      cancelParkedRunTx ids now tenantID personID runID (run_thread_id r) (run_channel r) resolutions d1
  end.

Definition cancelled_any (r : res (DB * list Event)) (d : DB) : DB * res bool :=
  match r with
  | Err e => (d, Err e)
  | Ok (d', events) => (d', Ok (match events with [] => false | _ => true end))
  end.

Definition CancelParkedProviderRun (ids : nat -> string) (now : Time)
    (tenantID personID runID : string) (d : DB) : DB * res bool :=
  if blank personID || blank runID then (d, Err (Errorf "person and run ids are required")) else
  cancelled_any (cancelParkedProviderTx ids now (normalizeTenant tenantID) personID runID d) d.

Definition CancelParkedHumanRun (ids : nat -> string) (now : Time)
    (tenantID personID runID : string) (d : DB) : DB * res bool :=
  if blank personID || blank runID then (d, Err (Errorf "person and run ids are required")) else
  cancelled_any (cancelParkedHumanTx ids now (normalizeTenant tenantID) personID runID d) d.

(** ** The owner's stop *)

Definition cancelRequestedEvent (runID : string) : EventIn :=
  mkEventIn "" "" "" "" "run.cancel_requested" "" ""
    (JObj [("reason", JStr "user requested stop")]) ("run:" +:+ runID +:+ ":cancel_requested").

(** A Run that is not parked keeps executing until its body exits; its pending
    requests, its authorizations and its unbound continuations go at once. *)
Definition requestLiveCancel (ids : nat -> string) (now : Time) (r : Run) (d : DB)
  : res (DB * list Event) :=
  let tenantID := run_tenant_id r in
  let personID := run_person_id r in
  let runID := run_id r in
  let d1 := d <| db_runs := update_where (run_at tenantID runID)
                 (fun r => r <| run_cancel_requested := true |>) (db_runs d) |> in
  let '(resolutions, d2) := expireRunHumanRequestsTx now tenantID personID runID
                              "user requested stop" d1 in
  let resolutions := resolutions ++ (if run_cancel_requested r then [] else [cancelRequestedEvent runID]) in
  let d3 := cancelUnboundRunContinuationsTx tenantID personID runID d2 in
  insertScopedEventsTx ids now runID (run_thread_id r) (run_channel r) resolutions d3.

Definition RequestRunCancel (ids : nat -> string) (now : Time) (tenantID runID : string) (d : DB)
  : DB * option error :=
  let tenantID := normalizeTenant tenantID in
  let finish := fun r => match r with Ok (d', _) => (d', None) | Err e => (d, Some e) end in
  match query_row (run_at tenantID runID) (db_runs d) with
  | None => (d, None)
  | Some r =>
      match cancelParkedProviderTx ids now tenantID (run_person_id r) runID d with
      | Err e => (d, Some e)
      | Ok (d1, (_ :: _) as events) => finish (Ok (d1, events))
      | Ok (d1, []) =>
          match cancelParkedHumanTx ids now tenantID (run_person_id r) runID d1 with
          | Err e => (d, Some e)
          | Ok (d2, (_ :: _) as events) => finish (Ok (d2, events))
          | Ok (d2, []) => finish (requestLiveCancel ids now r d2)
          end
      end
  end.

(** ** Dropping queued items *)

Definition queuedHumanParentTx (tenantID personID queueID : string) (d : DB) : string :=
  let q_ok := fun q => at_row tenantID queueID q && (q_person_id q =? personID)%string && unstarted q in
  match query_row (fun r =>
      existsb (fun c => own_checkpoint r c && parkedHumanCondition d r c
        && existsb (fun q => q_ok q && row_of_run r q
             && ((ck_WaitKind c =? LoopCheckpointWaitApproval)%string
                   && (q_approval_id q =? ck_WaitRef c)%string
                 || (ck_WaitKind c =? LoopCheckpointWaitClarification)%string
                   && (q_clarify_id q =? ck_WaitRef c)%string)) (db_queue d))
        (db_checkpoints d)) (db_runs d) with
  | Some r => run_id r
  | None => ""
  end.

Definition queuedResourceWaitParentTx (tenantID personID queueID : string) (d : DB) : string :=
  match query_row (fun r => parkedProviderCondition d r
      && existsb (fun q => at_row tenantID queueID q && (q_person_id q =? personID)%string
                           && row_of_run r q && (q_reply_to_run_id q =? run_id r)%string
                           && unstarted q && resource_wake d r q) (db_queue d)) (db_runs d) with
  | Some r => run_id r
  | None => ""
  end.

Definition provider_wait (q : QueueRow) (resourceParent : string) : bool :=
  let parent := q_reply_to_run_id q in
  negb (parent =? "")%string
  && (one_of ["provider-wait:" +:+ parent; "execution-lane:" +:+ parent] (q_idempotency_key q)
      || (resourceParent =? parent)%string).

(** What the row owns: whether it is a candidate, and the parked Runs its
    removal closes. *)
Record Withdrawal := mkWithdrawal { wd_take : bool; wd_provider : option string; wd_human : option string }.

Definition withdrawal (tenantID personID : string) (q : QueueRow) (d : DB) : Withdrawal :=
  let humanParent := queuedHumanParentTx tenantID personID (q_id q) d in
  let providerWait := provider_wait q (queuedResourceWaitParentTx tenantID personID (q_id q) d) in
  mkWithdrawal
    (negb (has_status QueueStatusStarted q && negb providerWait && (humanParent =? "")%string))
    (if providerWait then Some (q_reply_to_run_id q) else None)
    (if (humanParent =? "")%string then None else Some humanParent).

Definition cancelOptional (f : string -> DB -> res (DB * list Event)) (o : option string) (d : DB)
  : res DB :=
  match o with
  | None => Ok d
  | Some runID => match f runID d with Ok (d', _) => Ok d' | Err e => Err e end
  end.

Definition CancelQueued (ids : string -> nat -> string) (now : Time)
    (tenantID personID queueID : string) (d : DB) : DB * res bool :=
  if blank personID || blank queueID then (d, Err (Errorf "person and queue ids are required")) else
  let tenantID := normalizeTenant tenantID in
  match query_row (fun q => at_row tenantID queueID q && (q_person_id q =? personID)%string
                            && unstarted q) (db_queue d) with
  | None => (d, Ok false)
  | Some q =>
      let w := withdrawal tenantID personID q d in
      if negb (wd_take w) then (d, Ok false) else
      match cancelOptional (fun r => cancelParkedProviderTx (ids r) now tenantID personID r)
              (wd_provider w) d with
      | Err e => (d, Err e)
      | Ok d1 =>
          match cancelOptional (fun r => cancelParkedHumanTx (ids r) now tenantID personID r)
                  (wd_human w) d1 with
          | Err e => (d, Err e)
          | Ok d2 =>
              (d2 <| db_queue := update_where (fun x => at_row tenantID queueID x
                                                        && (q_person_id x =? personID)%string)
                                   cancelRow (db_queue d2) |>, Ok true)
          end
      end
  end.

Fixpoint cancelEach (f : string -> DB -> res (DB * list Event)) (l : list string) (d : DB) : res DB :=
  match l with
  | [] => Ok d
  | r :: l => match f r d with Ok (d', _) => cancelEach f l d' | Err e => Err e end
  end.

Definition somes {A} (l : list (option A)) : list A :=
  flat_map (fun o => match o with Some a => [a] | None => [] end) l.

(** [order] is the iteration order of a Go map, whose keys it receives once
    each. *)
Definition clearQueuedAndParkedRuns (order : list string -> list string)
    (ids : string -> nat -> string) (now : Time) (tenantID personID : string) (d : DB)
  : DB * res Z :=
  let tenantID := normalizeTenant tenantID in
  let candidates := select_where (fun q => (q_tenant_id q =? tenantID)%string
                                           && (q_person_id q =? personID)%string && unstarted q)
                      (db_queue d) in
  let withdrawals := map (fun q => (q, withdrawal tenantID personID q d)) candidates in
  let taken := List.filter (fun x => wd_take (snd x)) withdrawals in
  let taken_ids := map (fun x => q_id (fst x)) taken in
  let parents := order (remove_dups (somes (map (fun x => wd_provider (snd x)) taken))) in
  let humanParents := order (remove_dups (somes (map (fun x => wd_human (snd x)) taken))) in
  match cancelEach (fun r => cancelParkedProviderTx (ids r) now tenantID personID r) parents d with
  | Err e => (d, Err e)
  | Ok d1 =>
      match cancelEach (fun r => cancelParkedHumanTx (ids r) now tenantID personID r) humanParents d1 with
      | Err e => (d, Err e)
      | Ok d2 =>
          (d2 <| db_queue := update_where (fun x => one_of taken_ids (q_id x)) cancelRow (db_queue d2) |>,
           Ok (Z.of_nat (length taken_ids)))
      end
  end.

Definition ClearQueued (order : list string -> list string) (ids : string -> nat -> string)
    (now : Time) (tenantID personID : string) (d : DB) : DB * res Z :=
  if blank personID then (d, Err (Errorf "person id is required"))
  else clearQueuedAndParkedRuns order ids now tenantID personID d.
