(* ===== verification/Continuation.v ===== *)
(** * Following a Run's continuations

    [queue_continuation.go], [execution_lane_waits.go] and the recovery sweep
    [MarkInterruptedRuns] of [runtime.go]. *)

From stdpp Require Import base tactics list strings.
From Stdlib Require Import ZArith Lia Bool String List.
From S2P Require Import Prelude GoLib Sql Admission Store Queue Database RunStart Checkpoints Approvals Clarify Cancellation.

(** ** Resolving an exact queued reply *)

(** [QueuedContinuationObsolete]. *)
Record ContinuationObsolete := mkObsolete {
  ob_ParentRunID : string; ob_ChildRunID : string; ob_Status : string }.

Inductive resolution : Type :=
| Resolved (q : QueuedTask) (wait : bool)
| Obsolete (e : ContinuationObsolete)
| ResolutionError (e : error).

Definition systemKeyPrefixes : list string :=
  ["external-watch:"; "external-resource:"; "provider-wait:"; "execution-lane:"; "run-recovery:";
   "approval-resume:"; "clarify-resume:"].

(** Rows that describe one exact effect boundary and never follow a lineage. *)
Definition systemExact (q : QueuedTask) : bool :=
  one_of [QueueClassFinalization; QueueClassRecovery] (t_Class q)
  || existsb (HasPrefix (t_IdempotencyKey q)) systemKeyPrefixes.

Definition IsRunExternalResourceWaitPending (tenantID runID : string) (d : DB) : bool :=
  let tenant := normalizeTenant tenantID in
  existsb (fun w => pending_resource_wait tenant runID w
    && existsb (fun r => run_at (rw_tenant_id w) (rw_run_id w) r
                         && (run_status r =? "waiting_external")%string) (db_runs d))
    (db_resource_waits d).

(** The continuation that claimed a Run, on the forward edge, else on the legacy
    one. *)
Definition continuedBy (tenantID : string) (r : Run) (d : DB) : string :=
  match query_row (fun c => (run_tenant_id c =? tenantID)%string
                            && (run_resumes_run_id c =? run_id r)%string) (db_runs d) with
  | Some c => if (run_id c =? "")%string then run_resumed_by_run_id r else run_id c
  | None => run_resumed_by_run_id r
  end.

(** The decision at a Run nothing has continued. *)
Definition resolveAt (tenantID : string) (r : Run) (q : QueuedTask) (d : DB) : resolution :=
  let current := run_id r in
  if (run_status r =? "running")%string then Resolved q true else
  if (run_status r =? "waiting_external")%string then
    if existsb (live_watch tenantID current) (db_watches d) then Resolved q true else
    if IsRunExternalResourceWaitPending tenantID current d then Resolved q true else
    let providerQueueID := wakeQueueID tenantID (t_PersonID q) current d in
    if negb (providerQueueID =? "")%string && negb (providerQueueID =? t_ID q)%string
    then Resolved q true
    else Resolved (q <| t_ReplyToRunID := current |>) false
  else if resumableRunStatus (run_status r) then Resolved (q <| t_ReplyToRunID := current |>) false
  else if systemExact q then Obsolete (mkObsolete current "" (run_status r))
  else Resolved (q <| t_ReplyToRunID := "" |>) false.

Fixpoint followLineage (depth : nat) (tenantID current : string) (q : QueuedTask) (d : DB)
  : resolution :=
  match depth with
  | O => ResolutionError (Errorf "queued continuation lineage is too deep")
  | S depth =>
      match query_row (run_at tenantID current) (db_runs d) with
      | None => ResolutionError (Errorf ("queued continuation parent " +:+ current +:+ " is missing"))
      | Some r =>
          if negb (run_person_id r =? t_PersonID q)%string
             || negb (t_TaskID q =? "")%string && negb (run_thread_id r =? t_TaskID q)%string
          then ResolutionError (Errorf ("queued continuation parent " +:+ current
                                         +:+ " changed owner or task")) else
          match run_execution_roots r with
          | JBad _ => ResolutionError (Errorf "invalid execution roots")
          | JVal roots =>
              let q := q <| t_TaskID := run_thread_id r |> <| t_WorkspaceID := run_workspace_id r |>
                         <| t_ExecutionRoots := roots |> in
              let childID := continuedBy tenantID r d in
              if negb (childID =? "")%string then
                if systemExact q then Obsolete (mkObsolete current childID (run_status r)) else
                if (childID =? current)%string
                then ResolutionError (Errorf ("queued continuation cycle at " +:+ current)) else
                followLineage depth tenantID childID q d
              else resolveAt tenantID r q d
          end
      end
  end.

Definition lineageDepth : nat := 64.

Definition ResolveQueuedContinuation (q : QueuedTask) (d : DB) : resolution :=
  if blank (t_ReplyToRunID q) then Resolved q false else
  if (t_PersonID q =? "")%string
  then ResolutionError (Errorf "exact queued continuation has no owner") else
  followLineage lineageDepth (normalizeTenant (t_TenantID q)) (TrimSpace (t_ReplyToRunID q)) q d.

(** ** Lane waiters stored in the queue *)

(** The Run a queued row re-enters the host lane for. *)
Definition host_wait (d : DB) (tenant personID : string) (q : QueueRow) : bool :=
  (q_tenant_id q =? tenant)%string && (q_person_id q =? personID)%string
  && existsb (fun parent =>
       run_at (q_tenant_id q) (q_reply_to_run_id q) parent
       && (run_person_id parent =? q_person_id q)%string
       && (q_idempotency_key q =? "execution-lane:" +:+ run_id parent)%string
       && (run_status parent =? "waiting_external")%string
       && existsb (fun c => (ck_TenantID c =? q_tenant_id q)%string
            && (ck_PersonID c =? q_person_id q)%string && (ck_RunID c =? q_reply_to_run_id q)%string
            && (ck_Outcome c =? "await_execution")%string
            && (ck_WaitKind c =? LoopCheckpointWaitExecutionHostLane)%string
            && (ck_WaitRef c =? run_id parent)%string
            && negb (ck_WaitToolCallID c =? "")%string) (db_checkpoints d)) (db_runs d)
  && (has_status QueueStatusQueued q
      || has_status QueueStatusStarted q
         && (unbound q
             || existsb (fun child => run_at (q_tenant_id q) (q_run_id q) child
                          && (run_person_id child =? q_person_id q)%string
                          && (run_status child =? "running")%string) (db_runs d))).

(** [ORDER BY q.created_at, q.rowid]: a stable sort on the creation time. *)
Definition QueuedHostExecutionWaits (tenantID personID : string) (d : DB) : list string :=
  map q_reply_to_run_id
    (order_by (fun a b => (q_created_at a <=? q_created_at b)%Z)
       (select_where (host_wait d (normalizeTenant tenantID) personID) (db_queue d))).

(** ** The recovery sweep *)

(** A running Run whose heartbeat, or else its start, is not after the cutoff. *)
Definition stale_run (cutoff : Z) (except : list string) (r : Run) : bool :=
  (run_status r =? "running")%string
  && (match run_heartbeat_at r with Some t => t | None => run_started_at r end <=? cutoff)%Z
  && negb (one_of except (run_id r)).

Definition interruptRun (now : Time) (r : Run) : Run :=
  r <| run_status := "interrupted" |> <| run_finished_at := Some (Unix now) |>
    <| run_last_error := "gateway restarted before run finished" |>.

Definition quote : string := String (Ascii.ascii_of_N 34) "".

Definition interruptedEvent (r : Run) : EventIn :=
  mkEventIn "" "" (run_thread_id r) (run_id r) "run.interrupted" "task" ""
    (JObj [("outcome", JObj [("completion_reason", JStr "daemon_recovery");
                             ("next_steps", JArr [JStr ("Reply " +:+ quote +:+ "continue" +:+ quote
                                                          +:+ " to resume from durable history.")]);
                             ("resumable", JBool true); ("status", JStr "interrupted");
                             ("summary", JStr "Interrupted by gateway restart.")]);
           ("reason", JStr "gateway restarted before run finished")]) "".

(** Events are best effort: a failed append is only logged. *)
Definition appendAll (ids : nat -> string) (now : Time) (events : list EventIn) (d : DB) : DB :=
  fst (fold_left (fun s e => (fst (AppendEvent (ids (snd s)) now e (fst s)), S (snd s))) events (d, 0%nat)).

Definition appendParked (ids : nat -> string) (now : Time) (parked : list ApprovalRow) (d : DB) : DB :=
  fst (fold_left (fun s a => (fst (AppendApprovalParkedEvent (ids (snd s)) now a
                                     (a_requested_channel a) orphanReason (fst s)), S (snd s)))
         parked (d, 0%nat)).

Definition MarkInterruptedRuns (ids1 ids2 : nat -> string) (now : Time) (olderThan : Duration)
    (exceptRunIDs : list string) (d : DB) : DB * Z :=
  let cutoff := if (olderThan <=? 0)%Z then Unix now else Unix (Add now (- olderThan)%Z) in
  let runs := select_where (stale_run cutoff exceptRunIDs) (db_runs d) in
  let d1 := d <| db_runs := fold_left (fun t r =>
                 update_where (fun x => run_at (run_tenant_id r) (run_id r) x
                                        && (run_status x =? "running")%string) (interruptRun now) t)
                 runs (db_runs d) |> in
  let d2 := appendAll ids1 now
    (map interruptedEvent (List.filter (fun r => negb (run_execution_class r =? "coordination")%string) runs)) d1 in
  let '(d3, parked) := ParkOrphanedApprovals now d2 in
  let d4 := appendParked ids2 now parked d3 in
  (fst (ExpireOrphanedClarifies now d4), Z.of_nat (length runs)).
