(* ===== verification/Finalization.v ===== *)
(** * Finalizing a Run

    [run_finalization.go]: [MaterializeRunFinalization] commits the result of a
    Run (its status, its handoff, message and maintenance slot, its next wake-up
    and its terminal event) in one transaction whose event key is the commit
    marker; with the finalization half of [skill_lifecycle.go] and
    [work_timeline.go].  What needs the plan and the tool ledger, the completion
    review and the blockers of external effects, are the fields of
    [FinalizeEnv]; the tables of the Skill library are not modelled. *)

From stdpp Require Import base tactics list strings.
From Stdlib Require Import ZArith Lia Bool String List.
From S2P Require Import Prelude GoLib Sql Admission Store Queue Maintenance Database RunStart Checkpoints Approvals Clarify Cancellation Continuation.

(** ** The input *)

(** [RunCompletionCandidate]: the identity and the status under review. *)
Record RunCompletionCandidate := mkCandidate {
  cc_tenant : string; cc_person : string; cc_runID : string; cc_Status : string }.

Record ExternalResourceWait := mkResourceWait {
  wt_TenantID : string; wt_PersonID : string; wt_RunID : string; wt_EffectID : string;
  wt_TargetKeys : list string }.

(** [NextSteps] distinguishes nil from the empty list. *)
Record Handoff := mkHandoff {
  hf_Summary : string; hf_DoneItems : list string; hf_NextSteps : option (list string);
  hf_ChangedFiles : list string; hf_TestStatus : string; hf_Risks : list string }.

(** [Identity] and [Event] are flattened into the fields the code reads; an
    empty payload is [None]. *)
Record RunFinalization := mkFinalization {
  fz_TenantID : string; fz_PersonID : string; fz_AccountID : string; fz_Platform : string;
  fz_RunID : string; fz_RunStatus : string; fz_TaskID : string;
  fz_Summary : string; fz_VerificationState : string; fz_VerificationRefs : list string;
  fz_ClaimMismatch : bool; fz_NextSteps : option (list string);
  fz_Channel : string; fz_AssistantContent : string; fz_Handoff : Handoff;
  fz_AnalyzerVersion : Z; fz_MaintenancePayload : string;
  fz_EventType : string; fz_EventVisibility : string; fz_EventChannel : string;
  fz_EventPayload : option json; fz_EventKey : string;
  fz_Continuation : option QueuedTask; fz_ExpectedRunStatus : string; fz_RequireCheckpoint : bool;
  fz_ResourceWait : option ExternalResourceWait;
  fz_ConsumedQueueID : string; fz_ConsumedQueueClaimToken : string; fz_EffectKey : string;
  fz_Completion : option RunCompletionCandidate
}.

#[export] Instance RunFinalization_eta : Eta RunFinalization := fun f =>
  mkFinalization (fz_TenantID f) (fz_PersonID f) (fz_AccountID f) (fz_Platform f) (fz_RunID f)
    (fz_RunStatus f) (fz_TaskID f) (fz_Summary f) (fz_VerificationState f)
    (fz_VerificationRefs f) (fz_ClaimMismatch f) (fz_NextSteps f) (fz_Channel f)
    (fz_AssistantContent f) (fz_Handoff f) (fz_AnalyzerVersion f) (fz_MaintenancePayload f)
    (fz_EventType f) (fz_EventVisibility f) (fz_EventChannel f) (fz_EventPayload f)
    (fz_EventKey f) (fz_Continuation f) (fz_ExpectedRunStatus f) (fz_RequireCheckpoint f)
    (fz_ResourceWait f) (fz_ConsumedQueueID f) (fz_ConsumedQueueClaimToken f) (fz_EffectKey f)
    (fz_Completion f).

(** What the components that are not modelled decide. *)
Class FinalizeEnv := {
  (** [applyRunCompletionTx] and the payload built from it: an error, or the
      plan's work units, the adopted events and the new event payload. *)
  completionTx : DB -> string -> RunFinalization ->
    res (list WorkUnitRow * list (string * EventIn) * option json);
  (** [externalResourceBlockers]: how many effects block the targets and whether
      one of them needs an observation. *)
  externalResourceBlockers : DB -> string -> string -> string -> list string -> res (nat * bool);
  (** The plan and tool-ledger clauses of [runWorkEvidenceSQL]. *)
  planOrLedgerEvidence : DB -> string -> string -> bool
}.

Definition ErrRunCancellationRequested : string := "Run cancellation was requested".

(** The defaults and trims before the commit marker is read. *)
Definition normalizeFinalization (f : RunFinalization) : RunFinalization :=
  let runID := TrimSpace (fz_RunID f) in
  let status := if one_of [""; "running"; "in_progress"] (fz_RunStatus f) then "done" else fz_RunStatus f in
  let key := TrimSpace (fz_EventKey f) in
  f <| fz_RunID := runID |> <| fz_TaskID := TrimSpace (fz_TaskID f) |> <| fz_RunStatus := status |>
    <| fz_EffectKey := TrimSpace (fz_EffectKey f) |>
    <| fz_EventType := if (fz_EventType f =? "")%string then "run.finished" else fz_EventType f |>
    <| fz_EventVisibility := if (fz_EventVisibility f =? "")%string then "task" else fz_EventVisibility f |>
    <| fz_EventChannel := if (fz_EventChannel f =? "")%string then fz_Channel f else fz_EventChannel f |>
    <| fz_EventKey := if (key =? "")%string then "run:" +:+ runID +:+ ":terminal" else key |>.

(** ** Payloads *)

(** [outcomeFromTerminalPayload]: the field a decoder matches without regard to
    case, the last one of its name, unless it is null. *)
Definition outcomeFromTerminalPayload (payload : option json) : option json :=
  match payload with
  | Some (JObj fields) =>
      match List.find (fun kv => (ToLower (fst kv) =? "outcome")%string) (rev fields) with
      | Some (_, JNull) => None
      | Some (_, v) => Some v
      | None => None
      end
  | _ => None
  end.

(** [json.Marshal] of a map: its keys in order. *)
Definition set_field (k : string) (v : json) (fields : list (string * json)) : list (string * json) :=
  order_by (fun a b => String.leb (fst a) (fst b))
    (List.filter (fun kv => negb (fst kv =? k)%string) fields ++ [(k, v)]).

Definition suppressedPayload (effectKey : string) (payload : option json) : json :=
  let fields := match payload with Some (JObj fields) => fields | _ => [] end in
  JObj (set_field "effect_key" (JStr effectKey) (set_field "effect_suppressed" (JBool true) fields)).

(** ** The guards *)

Definition finalizationOwner (tenant : string) (f : RunFinalization) (d : DB) : res (string * Run) :=
  match query_row (fun t => (th_tenant_id t =? tenant)%string && (th_id t =? fz_TaskID f)%string)
          (db_threads d) with
  | None => Err (Wrap "load finalization task" (Errorf "sql: no rows in result set"))
  | Some t =>
      let personID := th_person_id t in
      if negb (fz_PersonID f =? "")%string && negb (fz_PersonID f =? personID)%string
      then Err (Errorf "finalization identity does not own task") else
      match query_row (fun r => run_at tenant (fz_RunID f) r && (run_person_id r =? personID)%string
                                && (run_thread_id r =? fz_TaskID f)%string) (db_runs d) with
      | None => Err (Wrap "load finalization Run" (Errorf "sql: no rows in result set"))
      | Some r => Ok (personID, r)
      end
  end.

(** A stopped Run accepts no other result than its cancellation. *)
Definition stopRefuses (f : RunFinalization) (r : Run) : bool :=
  negb (fz_RunStatus f =? "cancelled")%string
  && (run_cancel_requested r || (run_status r =? "cancelled")%string).

Section Finalize.
Context `{FinalizeEnv}.

Definition materializeCompletionTx (now : Time) (tenant person : string) (f : RunFinalization) (d : DB)
  : res (DB * RunFinalization) :=
  match fz_Completion f with
  | None => Ok (d, f)
  | Some c =>
      if negb (cc_tenant c =? tenant)%string || negb (cc_person c =? person)%string
         || negb (cc_runID c =? fz_RunID f)%string || negb (cc_Status c =? fz_RunStatus f)%string
      then Err (Errorf "completion candidate does not match finalization owner or outcome") else
      match completionTx d person f with
      | Err e => Err e
      | Ok (units, events, payload) =>
          match importEvents now (fz_RunID f) (fz_TaskID f) (fz_Channel f) events
                  (d <| db_work_units := units |>) with
          | Err e => Err e
          | Ok d1 => Ok (d1, f <| fz_EventPayload := payload |>)
          end
      end
  end.

Definition withdrawCancelledTx (ids : nat -> string) (now : Time) (tenant person : string)
    (f : RunFinalization) (d : DB) : res DB :=
  if negb (fz_RunStatus f =? "cancelled")%string then Ok d else
  let '(resolutions, d1) := expireRunHumanRequestsTx now tenant person (fz_RunID f)
                              "Run execution was cancelled" d in
  let d2 := cancelUnboundRunContinuationsTx tenant person (fz_RunID f) d1 in
  match insertScopedEventsTx ids now (fz_RunID f) (fz_TaskID f) (fz_Channel f) resolutions d2 with
  | Err e => Err e
  | Ok (d3, _) => Ok d3
  end.

Definition requireCheckpointTx (tenant person : string) (f : RunFinalization) (d : DB) : res DB :=
  let count := length (select_where (fun c =>
      (ck_TenantID c =? tenant)%string && (ck_PersonID c =? person)%string
      && (ck_RunID c =? fz_RunID f)%string && negb (ck_Outcome c =? "complete_turn")%string)
    (db_checkpoints d)) in
  if fz_RequireCheckpoint f && negb (count =? 1)%nat
  then Err (Errorf "provider wait requires a durable model checkpoint") else Ok d.

(** The effect's first claim wins; [true] marks a duplicate. *)
Definition claimEffectTx (now : Time) (tenant : string) (f : RunFinalization) (d : DB) : DB * bool :=
  if (fz_EffectKey f =? "")%string then (d, false) else
  let '(t, n) := insert_or_ignore
       (fun a b => (ef_tenant_id a =? ef_tenant_id b)%string
                   && (ef_effect_key a =? ef_effect_key b)%string)
       (mkEffectRow (fz_EffectKey f) tenant (fz_TaskID f) (fz_RunID f) "run_finalization" false (Unix now))
       (db_effects d) in
  (d <| db_effects := t |>, (n =? 0)%Z).

(** ** The Run's row *)

Definition wait_row (tenant person runID effectID : string) (w : ResourceWaitRow) : bool :=
  (rw_tenant_id w =? tenant)%string && (rw_person_id w =? person)%string
  && (rw_run_id w =? runID)%string && (rw_effect_id w =? effectID)%string
  && (rw_status w =? "pending")%string.

Definition correctResourceWaitTx (now : Time) (tenant person : string) (f : RunFinalization) (d : DB)
  : res DB :=
  match fz_ResourceWait f with
  | None => Ok d
  | Some w =>
      if negb (fz_RunStatus f =? "blocked")%string
         || negb (fz_ExpectedRunStatus f =? "waiting_external")%string
         || negb (wt_RunID w =? fz_RunID f)%string || negb (wt_TenantID w =? tenant)%string
         || negb (wt_PersonID w =? person)%string
      then Err (Errorf "resource wait correction requires the exact parked owner") else
      let cond := wait_row tenant person (fz_RunID f) (wt_EffectID w) in
      match query_row cond (db_resource_waits d) with
      | None => Err (Errorf "sql: no rows in result set")
      | Some row =>
          if negb (match rw_targets_json row with
                   | JVal l => bool_decide (l = wt_TargetKeys w)
                   | JBad _ => false
                   end)
          then Err (Errorf "resource wait target set changed") else
          match externalResourceBlockers d tenant person (fz_RunID f) (wt_TargetKeys w) with
          | Err e => Err e
          | Ok (blockers, needsObservation) =>
              if (blockers =? 0)%nat || negb needsObservation
              then Err (Errorf "resource wait observation source changed") else
              if negb (rows_affected cond (db_resource_waits d) =? 1)%Z
              then Err (Errorf "resource wait changed before correction") else
              Ok (d <| db_resource_waits := update_where cond
                    (fun w => w <| rw_updated_at := Unix now |>) (db_resource_waits d) |>)
          end
      end
  end.

Definition finishable (tenant : string) (f : RunFinalization) (runs : list Run) (r : Run) : bool :=
  run_at tenant (fz_RunID f) r && (run_thread_id r =? fz_TaskID f)%string
  && ((fz_ExpectedRunStatus f =? "")%string || (run_status r =? fz_ExpectedRunStatus f)%string)
  && match fz_ResourceWait f with None => true | Some _ => negb (has_child tenant (fz_RunID f) runs) end.

Definition finished (now : Time) (status : string) (r : Run) : Run :=
  r <| run_status := status |> <| run_finished_at := Some (Unix now) |>
    <| run_heartbeat_at := Some (Unix now) |>.

Definition updateRunTx (now : Time) (tenant : string) (f : RunFinalization) (d : DB) : res DB :=
  let cond := finishable tenant f (db_runs d) in
  if negb (rows_affected cond (db_runs d) =? 1)%Z then Err (Errorf "finish run affected other rows") else
  Ok (d <| db_runs := update_where cond (finished now (fz_RunStatus f)) (db_runs d) |>).

(** ** The wake-up the parked Run owns *)

(** A plain insert: both unique indexes are errors. *)
Definition insertQueueRow (row : QueueRow) (t : list QueueRow) : res (list QueueRow) :=
  if existsb (fun r => (q_id r =? q_id row)%string) t then Err (uniqueViolation "task_queue.id") else
  if negb (q_idempotency_key row =? "")%string
     && existsb (same_idempotency (q_tenant_id row) (q_idempotency_key row)) t
  then Err (uniqueViolation "task_queue.tenant_id, task_queue.idempotency_key") else
  Ok (t ++ [row]).

Definition exactContinuation (tenant person : string) (f : RunFinalization) (q : QueuedTask) : bool :=
  (fz_RunStatus f =? "waiting_external")%string && (t_TenantID q =? tenant)%string
  && (t_PersonID q =? person)%string && (t_TaskID q =? fz_TaskID f)%string
  && (t_ReplyToRunID q =? fz_RunID f)%string
  && one_of ["provider-wait:" +:+ fz_RunID f; "execution-lane:" +:+ fz_RunID f] (t_IdempotencyKey q)
  && negb (blank (t_Content q)).

Definition boundExecutionWait (tenant person runID : string) (d : DB) : bool :=
  existsb (fun c => (ck_TenantID c =? tenant)%string && (ck_PersonID c =? person)%string
      && (ck_RunID c =? runID)%string && (ck_Outcome c =? "await_execution")%string
      && one_of [LoopCheckpointWaitExecutionLane; LoopCheckpointWaitExecutionHostLane] (ck_WaitKind c)
      && (ck_WaitRef c =? runID)%string && negb (ck_WaitToolCallID c =? "")%string)
    (db_checkpoints d).

(** The deadline in whole seconds, rounded up. *)
Definition wakeDeadline (t : Time) : Z := (Unix t + (if NanosecondOf t =? 0 then 0 else 1))%Z.

Definition wakeRow (qid : string) (now : Time) (tenant person : string) (q : QueuedTask) (r : Run)
    (admission : stored_admission) : QueueRow :=
  mkQueueRow (if (t_ID q =? "")%string then "queue_" +:+ qid else t_ID q) tenant person
    (run_channel r) (t_Platform q) (t_PlatformUserID q) (t_Content q) (t_ApprovalMode q)
    (run_workspace_id r) (run_execution_roots r) (t_TaskID q) "" (t_ReplyToRunID q) "" ""
    (t_IdempotencyKey q) QueueClassFinalization QueuePriorityFinalization
    (wakeDeadline (t_NotBefore q)) QueueStatusQueued 0 "" 0 0 (Unix now) (JVal []) admission.

(** The claimed row this Run was started from. *)
Definition consumed_row (tenant person : string) (f : RunFinalization) (q : QueueRow) : bool :=
  (q_tenant_id q =? tenant)%string && (q_person_id q =? person)%string
  && (q_thread_id q =? fz_TaskID f)%string && (q_id q =? fz_ConsumedQueueID f)%string
  && (q_run_id q =? fz_RunID f)%string && has_status QueueStatusStarted q
  && (q_claim_token q =? fz_ConsumedQueueClaimToken f)%string.

Definition consumeSourceRow (tenant person : string) (f : RunFinalization) (t : list QueueRow)
  : res (list QueueRow) :=
  let id := (fz_ConsumedQueueID f =? "")%string in
  let token := (fz_ConsumedQueueClaimToken f =? "")%string in
  if id && token then Ok t else
  if id || token then Err (Errorf "provider wait source queue requires its id and claim token") else
  if negb (rows_affected (consumed_row tenant person f) t =? 1)%Z
  then Err (Errorf "provider wait source queue claim changed") else
  Ok (update_where (consumed_row tenant person f) (fun q => q <| q_status := QueueStatusDone |>) t).

Definition enqueueWakeTx (qid : string) (now : Time) (tenant person : string) (f : RunFinalization)
    (d : DB) : res DB :=
  match fz_Continuation f with
  | None => Ok d
  | Some q =>
      if negb (exactContinuation tenant person f q)
      then Err (Errorf "exact resource continuation has invalid ownership or wait state") else
      if (t_IdempotencyKey q =? "execution-lane:" +:+ fz_RunID f)%string
         && negb (boundExecutionWait tenant person (fz_RunID f) d)
      then Err (Errorf "execution wait has no exact pending tool checkpoint") else
      match query_row (fun r => run_at tenant (fz_RunID f) r && (run_person_id r =? person)%string
                                && (run_thread_id r =? fz_TaskID f)%string) (db_runs d) with
      | None => Err (Wrap "load exact provider continuation scope" (Errorf "sql: no rows in result set"))
      | Some r =>
          match parkedRunAdmissionJSON (t_Admission q) (run_admission r) with
          | Err e => Err (Wrap "provider continuation admission" e)
          | Ok admission =>
              let accounts := rows_affected (fun a =>
                  (ac_tenant_id a =? tenant)%string && (ac_person_id a =? person)%string
                  && (ac_platform a =? t_Platform q)%string
                  && (ac_platform_user_id a =? t_PlatformUserID q)%string
                  && (ac_status a =? "active")%string) (db_accounts d) in
              if negb (accounts =? 1)%Z
              then Err (Errorf "provider continuation route must belong to run owner") else
              if IsZero (t_NotBefore q)
              then Err (Errorf "provider continuation requires a wake deadline") else
              match insertQueueRow (wakeRow qid now tenant person q r admission) (db_queue d) with
              | Err e => Err (Wrap "enqueue provider continuation" e)
              | Ok t =>
                  match consumeSourceRow tenant person f t with
                  | Err e => Err e
                  | Ok t => Ok (d <| db_queue := t |>)
                  end
              end
          end
      end
  end.

(** ** What is recorded beside the Run *)

Definition classifyEvolutionOutcome (status : string) : string :=
  let s := ToLower (TrimSpace status) in
  if one_of ["done"; "completed"; "succeeded"; "success"] s then "success" else
  if one_of ["waiting_user"; "waiting_external"; "waiting_finalization"] s then "parked" else
  if one_of ["cancelled"; "canceled"] s then "cancelled" else "failure".

Definition maxRunEventCursor (runID : string) (events : list Event) : Z :=
  fold_left Z.max (map ev_cursor (select_where (fun e => (ev_run_id e =? runID)%string) events)) 0%Z.

Definition workUnitState (f : RunFinalization) : string :=
  let verification := TrimSpace (fz_VerificationState f) in
  let clean := negb (fz_ClaimMismatch f)
               && negb (one_of ["failed"; "stale"; "blocked"; "partial"] verification) in
  let class := classifyEvolutionOutcome (fz_RunStatus f) in
  if (class =? "success")%string && clean then "completed" else
  if (class =? "parked")%string && clean then "parked" else
  if (class =? "cancelled")%string && negb (fz_ClaimMismatch f) then "cancelled" else "failed".

(** The work units; activations, candidate references and bindings of Skills are
    other tables. *)
Definition finalizeRunSkillLifecycleTx (now : Time) (f : RunFinalization) (d : DB) : DB :=
  let verification := TrimSpace (fz_VerificationState f) in
  let verification := if (verification =? "")%string then "not_applicable" else verification in
  let cursor := maxRunEventCursor (fz_RunID f) (db_events d) in
  d <| db_work_units := update_where (fun u =>
        (u_tenant_id u =? normalizeTenant (fz_TenantID f))%string && (u_run_id u =? fz_RunID f)%string
        && one_of ["pending"; "active"] (u_status u))
      (fun u => u <| u_status := workUnitState f |> <| u_outcome_summary := TrimSpace (fz_Summary f) |>
                  <| u_verification_state := verification |>
                  <| u_verification_refs := fz_VerificationRefs f |>
                  <| u_finished_at := Some (Unix now) |> <| u_finished_cursor := cursor |>)
      (db_work_units d) |>.

Definition touchFinishedThread (now : Time) (tenant : string) (duplicate : bool) (f : RunFinalization)
    (d : DB) : res DB :=
  let cond := fun t => (th_tenant_id t =? tenant)%string && (th_id t =? fz_TaskID f)%string in
  let touch := fun t => t <| th_last_activity_at := Unix now |> <| th_updated_at := Unix now |> in
  if duplicate then Ok (d <| db_threads := update_where cond touch (db_threads d) |>) else
  if negb (rows_affected cond (db_threads d) =? 1)%Z then Err (Errorf "update task affected other rows") else
  Ok (d <| db_threads := update_where cond (fun t =>
        let t := touch t in
        if (fz_Summary f =? "")%string then t else t <| th_summary := fz_Summary f |>) (db_threads d) |>).

Definition runStatusPromotesThread (status : string) : bool :=
  one_of ["waiting_user"; "verification_partial"; "blocked"] (ToLower (TrimSpace status)).

Definition nonempty {A} (l : list A) : bool := match l with [] => false | _ => true end.
Definition steps (l : option (list string)) : list string := match l with Some l => l | None => [] end.

(** [runWorkEvidenceSQL]. *)
Definition runHasWorkEvidenceTx (tenantID runID : string) (d : DB) : bool :=
  existsb (fun r => run_at (normalizeTenant tenantID) (TrimSpace runID) r
    && (negb (run_resumes_run_id r =? "")%string
        || existsb (fun q => row_of_run r q && (q_run_id q =? run_id r)%string
                             && one_of ["started"; "done"; "failed"] (q_status q)) (db_queue d)
        || planOrLedgerEvidence d (run_tenant_id r) (run_id r)
        || existsb (fun a => (a_tenant_id a =? run_tenant_id r)%string
                             && (a_run_id a =? run_id r)%string) (db_approvals d)
        || existsb (fun c => (c_tenant_id c =? run_tenant_id r)%string
                             && (c_run_id c =? run_id r)%string) (db_clarifies d)
        || existsb (fun w => (w_tenant_id w =? run_tenant_id r)%string
                             && (w_run_id w =? run_id r)%string) (db_watches d)
        || existsb (fun h => (ho_run_id h =? run_id r)%string
                             && (nonempty (steps (ho_next_steps h)) || nonempty (ho_changed_files h)))
             (db_handoffs d))) (db_runs d).

Definition shouldPromoteThreadAtFinalization (f : RunFinalization) (d : DB) : bool :=
  runStatusPromotesThread (fz_RunStatus f)
  || nonempty (steps (fz_NextSteps f)) || nonempty (steps (hf_NextSteps (fz_Handoff f)))
  || nonempty (hf_ChangedFiles (fz_Handoff f))
  || runHasWorkEvidenceTx (fz_TenantID f) (fz_RunID f) d.

Definition promoteThreadForRunTx (now : Time) (tenantID runID : string) (d : DB) : res DB :=
  let '(d1, rows) := execPromoteThreadForRunTx now tenantID runID d in
  if (rows =? 1)%Z then Ok d1 else
  let tenant := normalizeTenant tenantID in
  if existsb (fun r => run_at tenant (TrimSpace runID) r
       && existsb (fun t => (th_id t =? run_thread_id r)%string
                            && (th_tenant_id t =? run_tenant_id r)%string) (db_threads d1)) (db_runs d1)
  then Ok d1 else Err (Errorf ("run thread not found: " +:+ runID)).

Definition recordMessage (now : Time) (tenant person : string) (f : RunFinalization) (d : DB) : DB :=
  if blank (fz_AssistantContent f) then d else
  d <| db_messages := fst (insert_or_ignore (fun a b => (ms_id a =? ms_id b)%string)
        (mkMessageRow ("msg_run_" +:+ fz_RunID f +:+ "_assistant") tenant person (fz_AccountID f)
           (normalizeName (fz_Channel f) (fz_Platform f)) (fz_TaskID f) "assistant"
           (fz_AssistantContent f) (Unix now)) (db_messages d)) |>.

(** The handoff's summary and next steps default to the finalization's. *)
Definition handoffSummary (f : RunFinalization) : string :=
  if (hf_Summary (fz_Handoff f) =? "")%string then fz_Summary f else hf_Summary (fz_Handoff f).
Definition handoffNextSteps (f : RunFinalization) : option (list string) :=
  match hf_NextSteps (fz_Handoff f) with None => fz_NextSteps f | l => l end.

Definition handoffRow (now : Time) (f : RunFinalization) : HandoffRow :=
  mkHandoffRow ("handoff_run_" +:+ fz_RunID f) (fz_TaskID f) (fz_RunID f) (handoffSummary f)
    (hf_DoneItems (fz_Handoff f)) (handoffNextSteps f) (hf_ChangedFiles (fz_Handoff f))
    (hf_TestStatus (fz_Handoff f)) (hf_Risks (fz_Handoff f)) (Unix now).

Definition recordHandoff (now : Time) (duplicate : bool) (f : RunFinalization) (d : DB) : DB :=
  let t := if duplicate then db_handoffs d
           else fst (insert_or_ignore (fun a b => (ho_id a =? ho_id b)%string) (handoffRow now f)
                       (db_handoffs d)) in
  let t := match fz_ResourceWait f with
           | None => t
           | Some _ =>
               update_where (fun h => (ho_id h =? "handoff_run_" +:+ fz_RunID f)%string
                                      && (ho_run_id h =? fz_RunID f)%string)
                 (fun h => h <| ho_summary := handoffSummary f |> <| ho_next_steps := handoffNextSteps f |>
                             <| ho_risks := hf_Risks (fz_Handoff f) |>) t
           end in
  d <| db_handoffs := t |>.

(** ** The terminal events *)

(** [INSERT ... ON CONFLICT(idempotency_key) DO NOTHING] after the cursor was
    taken: whether the row was stored. *)
Definition insertEventIgnore (e : Event) (d : DB) : res (DB * bool) :=
  if event_id_taken (ev_id e) d then Err (uniqueViolation "task_events.id") else
  if event_key_taken (ev_idempotency_key e) d
  then Ok (d <| db_next_cursor := ev_cursor e |>, false)
  else Ok (store_event e d, true).

Definition terminalPayload (duplicate : bool) (f : RunFinalization) : option json :=
  if duplicate then Some (suppressedPayload (fz_EffectKey f) (fz_EventPayload f)) else fz_EventPayload f.

Definition appendOutcomeTx (uuid : string) (now : Time) (f : RunFinalization) (payload : option json)
    (d : DB) : res DB :=
  match outcomeFromTerminalPayload payload with
  | None => Ok d
  | Some outcome =>
      let waits := match fz_ResourceWait f with Some _ => true | None => false end in
      let existing := existsb (fun e => (ev_run_id e =? fz_RunID f)%string
                                        && (ev_type e =? "run.outcome")%string) (db_events d) in
      if existing && negb waits then Ok d else
      let key := if waits then fz_EventKey f +:+ ":outcome" else "run:" +:+ fz_RunID f +:+ ":outcome" in
      match insertEventIgnore (mkEvent ("event_" +:+ uuid) (db_next_cursor d + 1) (fz_TaskID f)
              (fz_RunID f) "run.outcome" (fz_EventVisibility f) (fz_EventChannel f) outcome key
              (Unix now)) d with
      | Err e => Err (Wrap "append outcome event" e)
      | Ok (d1, _) => Ok d1
      end
  end.

Definition terminalEvent (uuid : string) (now : Time) (f : RunFinalization) (payload : option json)
    (d : DB) : Event :=
  mkEvent ("event_" +:+ uuid) (db_next_cursor d + 1) (fz_TaskID f) (fz_RunID f) (fz_EventType f)
    (fz_EventVisibility f) (fz_EventChannel f)
    (match payload with Some p => p | None => JObj [] end) (fz_EventKey f) (Unix now).

(** ** The transaction *)

(** The generated identifiers: the wake-up row, the outcome and the terminal
    event, and the events of withdrawn requests. *)
Record FinalizationIDs := mkFinalizationIDs {
  fi_queue : string; fi_outcome : string; fi_terminal : string; fi_withdrawn : nat -> string }.

(** Everything before the events; the flag marks a duplicate effect. *)
Definition finalizeRowsTx (ids : FinalizationIDs) (now : Time) (tenant : string) (f : RunFinalization)
    (d : DB) : res (DB * (RunFinalization * bool)) :=
  (owner <-? finalizationOwner tenant f d ;;
   let person := fst owner in
   if stopRefuses f (snd owner) then Err (Sentinel ErrRunCancellationRequested) else
   completed <-? materializeCompletionTx now tenant person f d ;;
   let f := snd completed in
   d2 <-? withdrawCancelledTx (fi_withdrawn ids) now tenant person f (fst completed) ;;
   d3 <-? requireCheckpointTx tenant person f d2 ;;
   let claimed := claimEffectTx now tenant f d3 in
   let duplicate := snd claimed in
   d4 <-? correctResourceWaitTx now tenant person f (fst claimed) ;;
   d5 <-? updateRunTx now tenant f d4 ;;
   d6 <-? enqueueWakeTx (fi_queue ids) now tenant person f d5 ;;
   d7 <-? touchFinishedThread now tenant duplicate f (finalizeRunSkillLifecycleTx now f d6) ;;
   d8 <-? (if shouldPromoteThreadAtFinalization f d7
           then promoteThreadForRunTx now tenant (fz_RunID f) d7 else Ok d7) ;;
   let d9 := if duplicate || (fz_AnalyzerVersion f <=? 0)%Z then d8
             else d8 <| db_maintenance := createMaintenanceJobTx now tenant (fz_RunID f)
                          (fz_AnalyzerVersion f) (fz_MaintenancePayload f) (db_maintenance d8) |> in
   let d10 := if duplicate then d9 else recordMessage now tenant person f d9 in
   Ok (recordHandoff now duplicate f d10, (f, duplicate)))%go.

(** [None] is the rollback on a terminal key that is taken by then. *)
Definition finalizeTx (ids : FinalizationIDs) (now : Time) (tenant : string) (f : RunFinalization)
    (d : DB) : res (option (DB * Event)) :=
  match finalizeRowsTx ids now tenant f d with
  | Err e => Err e
  | Ok (d1, (f, duplicate)) =>
      let payload := terminalPayload duplicate f in
      match appendOutcomeTx (fi_outcome ids) now f payload d1 with
      | Err e => Err e
      | Ok d2 =>
          let e := terminalEvent (fi_terminal ids) now f payload d2 in
          match insertEventIgnore e d2 with
          | Err x => Err (Wrap "append terminal event" x)
          | Ok (d3, stored) => Ok (if stored then Some (d3, e) else None)
          end
      end
  end.

Definition candidate_foreign (tenant : string) (f : RunFinalization) : bool :=
  match fz_Completion f with
  | None => false
  | Some c => negb (cc_tenant c =? tenant)%string || negb (cc_person c =? fz_PersonID f)%string
              || negb (cc_runID c =? fz_RunID f)%string
  end.

Definition MaterializeRunFinalization (ids : FinalizationIDs) (now : Time) (input : RunFinalization)
    (d : DB) : DB * res Event :=
  let f := normalizeFinalization input in
  let tenant := normalizeTenant (fz_TenantID f) in
  if (fz_RunID f =? "")%string || (fz_TaskID f =? "")%string
  then (d, Err (Errorf "run id and task id are required")) else
  if candidate_foreign tenant f
  then (d, Err (Errorf "completion candidate does not belong to finalization identity")) else
  if negb (blank (fz_MaintenancePayload f)) && (fz_AnalyzerVersion f <=? 0)%Z
  then (d, Err (Errorf "maintenance analyzer version is required when replay evidence is present")) else
  match eventByIdempotencyKey (fz_EventKey f) d with
  | Some existing =>
      match fz_Completion f with
      | Some _ =>
          if negb (ev_run_id existing =? fz_RunID f)%string
             || negb (ev_thread_id existing =? fz_TaskID f)%string
          then (d, Err (Errorf "completion receipt belongs to another Run")) else (d, Ok existing)
      | None => (d, Ok existing)
      end
  | None =>
      match finalizeTx ids now tenant f d with
      | Err e => (d, Err e)
      | Ok (Some (d', e)) => (d', Ok e)
      | Ok None =>
          (d, match eventByIdempotencyKey (fz_EventKey f) d with
              | Some e => Ok e
              | None => Err (Errorf "sql: no rows in result set")
              end)
      end
  end.

End Finalize.

(** ** Reads and marks of committed effects *)

Definition EffectOwnedByRun (tenantID effectKey runID : string) (d : DB) : bool :=
  let effectKey := TrimSpace effectKey in
  if (effectKey =? "")%string then true else
  match query_row (fun e => (ef_tenant_id e =? normalizeTenant tenantID)%string
                            && (ef_effect_key e =? effectKey)%string) (db_effects d) with
  | Some e => (ef_run_id e =? runID)%string
  | None => false
  end.

Definition RunAssistantContent (tenantID personID runID : string) (d : DB) : res string :=
  match query_row (fun r => run_at (normalizeTenant tenantID) runID r
                            && (run_person_id r =? personID)%string) (db_runs d) with
  | None => Err (Errorf "sql: no rows in result set")
  | Some r =>
      match query_row (fun x => (ms_id x =? "msg_run_" +:+ run_id r +:+ "_assistant")%string
               && (ms_tenant_id x =? run_tenant_id r)%string && (ms_person_id x =? run_person_id r)%string
               && (ms_thread_id x =? run_thread_id r)%string && (ms_role x =? "assistant")%string)
              (db_messages d) with
      | Some x => Ok (ms_content x)
      | None => Ok ""
      end
  end.

Definition MarkEffectDeliveryEnqueued (tenantID effectKey : string) (d : DB) : DB * option error :=
  if blank effectKey then (d, None) else
  let cond := fun e => (ef_tenant_id e =? normalizeTenant tenantID)%string
                       && (ef_effect_key e =? TrimSpace effectKey)%string in
  if negb (rows_affected cond (db_effects d) =? 1)%Z then (d, Some (Errorf "effect receipt not found")) else
  (d <| db_effects := update_where cond (fun e => e <| ef_delivery_enqueued := true |>) (db_effects d) |>,
   None).

Definition EffectDeliveryEnqueued (tenantID effectKey : string) (d : DB) : bool :=
  if blank effectKey then true else
  match query_row (fun e => (ef_tenant_id e =? normalizeTenant tenantID)%string
                            && (ef_effect_key e =? TrimSpace effectKey)%string) (db_effects d) with
  | Some e => ef_delivery_enqueued e
  | None => false
  end.

Definition ReconcileTaskAfterRun (now : Time) (tenantID taskID : string) (d : DB) : DB * option error :=
  let cond := fun t => (th_tenant_id t =? normalizeTenant tenantID)%string && (th_id t =? taskID)%string in
  let d' := d <| db_threads := update_where cond (fun t => t <| th_last_activity_at := Unix now |>
                    <| th_updated_at := Unix now |>) (db_threads d) |> in
  if negb (rows_affected cond (db_threads d) =? 1)%Z
  then (d', Some (Errorf "reconcile task affected other rows")) else (d', None).
