(* ===== verification/Control.v ===== *)
(** * Histories of the control database

    [control_op] lists the operations of the Run lifecycle that change the
    database, with the arguments their callers choose, the clock and the
    generated identifiers; [exec_control] is the effect of one operation and a
    history is a list of them.  Nothing is assumed about the order of the
    operations: any interleaving of gateway requests, workers, the recovery
    sweep and the person's answers is a history.  [OpExternal] stands for the
    components that write the tables this model only reads (watches, resource
    waits, plans, threads, settings, maintenance jobs): it sets them freely. *)

From stdpp Require Import base tactics list strings.
From Stdlib Require Import ZArith Lia Bool String List.
From S2P Require Import Prelude GoLib Sql Admission Store Queue Maintenance Database RunStart Checkpoints Approvals Clarify Cancellation Continuation Finalization.

Inductive control_op : Type :=
| OpStartRun (uuid wu : string) (now : Time) (owner : RunOwner) (channel summary : string)
    (o : StartRunOptions)
| OpFinishRun (now : Time) (tenantID runID status : string) (version : Z) (payload : string)
| OpFinalize (ids : FinalizationIDs) (now : Time) (input : RunFinalization)
| OpEffectDelivered (tenantID effectKey : string)
| OpHeartbeat (now : Time) (tenantID runID : string)
| OpMarkInterrupted (ids1 ids2 : nat -> string) (now : Time) (olderThan : Duration)
    (except : list string)
| OpAppendEvent (uuid : string) (now : Time) (e : EventIn)
| OpCreateApproval (uuid : string) (now : Time) (req : ApprovalRow)
| OpExpireApproval (now : Time) (tenantID approvalID : string)
| OpParkApproval (now : Time) (tenantID approvalID reason : string)
| OpClaimDecision (now : Time) (tenantID approvalID runID : string) (release : option WaitRelease)
| OpClaimAuthorization (now : Time) (tenantID personID runID fingerprint : string)
| OpArchiveStale (now : Time) (retention : Duration)
| OpApprovalNotified (now : Time) (tenantID approvalID : string)
| OpRespondApproval (now : Time) (tenantID personID approvalID decision channel : string)
    (input : ApprovalDecisionInput)
| OpRespondParked (uuid : string) (now : Time) (tenantID personID approvalID decision channel : string)
    (input : ApprovalDecisionInput) (q : QueuedTask)
| OpRecoverDecision (uuid : string) (now : Time) (approvalID : string) (q : QueuedTask)
| OpCreateClarify (uuid : string) (now : Time) (req : ClarifyRow)
| OpAnswerClarify (uuid : string) (now : Time) (tenantID personID clarifyID answer channel : string)
| OpAnswerResume (uuid evid : string) (now : Time) (tenantID personID clarifyID answer channel : string)
    (q : QueuedTask)
| OpClarifyNotified (now : Time) (tenantID clarifyID : string)
| OpExpireClarify (now : Time) (tenantID clarifyID : string)
| OpSaveCheckpoint (now : Time) (rec : LoopCheckpointRecord)
| OpReleaseWait (now : Time) (tenantID personID runID kind ref : string) (release : WaitRelease)
| OpParkHumanWait (now : Time) (tenantID personID runID kind ref reason : string)
| OpCancelProvider (ids : nat -> string) (now : Time) (tenantID personID runID : string)
| OpCancelHuman (ids : nat -> string) (now : Time) (tenantID personID runID : string)
| OpRequestCancel (ids : nat -> string) (now : Time) (tenantID runID : string)
| OpCancelQueued (ids : string -> nat -> string) (now : Time) (tenantID personID queueID : string)
| OpClearQueued (order : list string -> list string) (ids : string -> nat -> string) (now : Time)
    (tenantID personID : string)
| OpQueue (op : queue_op)
| OpExternal (watches : list WatchRow) (waits : list ResourceWaitRow) (blockers : list BlockerRow)
    (units : list WorkUnitRow) (threads : list ThreadRow) (settings : list SettingRow)
    (accounts : list AccountRow) (messages : list MessageRow) (handoffs : list HandoffRow)
    (m : MaintState).

Section Exec.
Context `{RunEnv} `{FinalizeEnv}.

Definition exec_control (op : control_op) (d : DB) : DB :=
  match op with
  | OpStartRun u w now ow ch s o => fst (startRun u w now ow ch s o d)
  | OpFinishRun now tn r s v p => finishRun now tn r s v p d
  | OpFinalize ids now input => fst (MaterializeRunFinalization ids now input d)
  | OpEffectDelivered tn k => fst (MarkEffectDeliveryEnqueued tn k d)
  | OpHeartbeat now tn r => UpdateRunHeartbeat now tn r d
  | OpMarkInterrupted i1 i2 now old ex => fst (MarkInterruptedRuns i1 i2 now old ex d)
  | OpAppendEvent u now e => fst (AppendEvent u now e d)
  | OpCreateApproval u now req => fst (CreateApprovalRequest u now req d)
  | OpExpireApproval now tn a => fst (ExpireApprovalRequest now tn a d)
  | OpParkApproval now tn a re => fst (ParkApprovalRequest now tn a re d)
  | OpClaimDecision now tn a r rel => fst (ClaimApprovalDecisionReleasing now tn a r rel d)
  | OpClaimAuthorization now tn p r fp => fst (ClaimApprovalResumeAuthorization now tn p r fp d)
  | OpArchiveStale now ret => fst (ArchiveStaleParkedApprovals now ret d)
  | OpApprovalNotified now tn a => MarkApprovalNotified now tn a d
  | OpRespondApproval now tn p a de ch i => fst (RespondApprovalRequest now tn p a de ch i d)
  | OpRespondParked u now tn p a de ch i q =>
      fst (RespondParkedApprovalAndEnqueue u now tn p a de ch i q d)
  | OpRecoverDecision u now a q => fst (EnqueueRecoveredApprovalContinuation u now a q d)
  | OpCreateClarify u now req => fst (CreateClarifyRequest u now req d)
  | OpAnswerClarify u now tn p c an ch => fst (AnswerClarifyRequest u now tn p c an ch d)
  | OpAnswerResume u ev now tn p c an ch q =>
      fst (AnswerClarifyRequestWithResume u ev now tn p c an ch q d)
  | OpClarifyNotified now tn c => MarkClarifyNotified now tn c d
  | OpExpireClarify now tn c => ExpireClarifyRequest now tn c d
  | OpSaveCheckpoint now rec => fst (SaveLoopCheckpoint now rec d)
  | OpReleaseWait now tn p r k ref rel => fst (ReleaseHumanWait now tn p r k ref rel d)
  | OpParkHumanWait now tn p r k ref re => fst (ParkHumanWaitRun now tn p r k ref re d)
  | OpCancelProvider ids now tn p r => fst (CancelParkedProviderRun ids now tn p r d)
  | OpCancelHuman ids now tn p r => fst (CancelParkedHumanRun ids now tn p r d)
  | OpRequestCancel ids now tn r => fst (RequestRunCancel ids now tn r d)
  | OpCancelQueued ids now tn p q => fst (CancelQueued ids now tn p q d)
  | OpClearQueued order ids now tn p => fst (ClearQueued order ids now tn p d)
  | OpQueue op => d <| db_queue := exec_op op (db_queue d) |>
  | OpExternal w rw bl u th st ac ms ho m =>
      d <| db_watches := w |> <| db_resource_waits := rw |> <| db_blockers := bl |>
        <| db_work_units := u |> <| db_threads := th |> <| db_settings := st |>
        <| db_accounts := ac |> <| db_messages := ms |> <| db_handoffs := ho |> <| db_maintenance := m |>
  end.

Definition exec_controls (ops : list control_op) (d : DB) : DB :=
  fold_left (fun d op => exec_control op d) ops d.

End Exec.

(** Requests are created pending and with a live waiter, as both callers of
    [CreateApprovalRequest] and the caller of [CreateClarifyRequest] do; nothing
    else is asked of an operation. *)
Definition control_ok (op : control_op) : Prop :=
  match op with
  | OpCreateApproval _ _ req => a_status req = "" /\ a_waiter_state req = ""
  | OpCreateClarify _ _ req => c_status req = ""
  | _ => True
  end.

(** A database in which nothing happened yet: the initial state of a history. *)
Definition emptyDB (m : MaintState) : DB := mkDB [] [] [] [] [] [] [] [] [] [] [] [] [] [] [] m [] 0.
