(* ===== verification/Scenario.v ===== *)
(** * A concrete history of the control plane

    One Run that asks for an approval, is parked on it, is answered and is
    continued from the queue row the answer stored.  The witnesses of the
    properties of the Run lifecycle evaluate it. *)

From stdpp Require Import base tactics list strings.
From Stdlib Require Import ZArith Bool String List.
From S2P Require Import Prelude GoLib Sql Admission Store Queue Maintenance Database RunStart Checkpoints Approvals Clarify Cancellation Continuation Finalization Control.

(** A plan import that copies nothing. *)
#[export] Instance plainEnv : RunEnv := {|
  ToUpper := fun s => s;
  inheritRunPlanTx := fun d _ _ _ _ _ => Ok (db_work_units d, [])
|}.

(** Finalizations without a completion review, blockers or plan evidence. *)
#[export] Instance plainFinalize : FinalizeEnv := {|
  completionTx := fun d _ f => Ok (db_work_units d, [], fz_EventPayload f);
  externalResourceBlockers := fun _ _ _ _ _ => Ok (0%nat, false);
  planOrLedgerEvidence := fun _ _ _ => false
|}.

Definition at_second (s : Z) : Time := (1000000 + s * Second)%Z.

Definition owner0 : RunOwner := mkRunOwner "th1" "default" "p1" "ws1".

Definition options0 : StartRunOptions :=
  mkStartRunOptions "wk" "" [] 2 true "" "" "" false zeroSnapshot.

Definition request0 : ApprovalRow :=
  mkApprovalRow "apr_1" "default" "p1" "th1" "run_1" "tool_call" (JVal (mkApprovalPayload "shell" "call_1"))
    "" "cli" "" "" "" "" "" 0 "" None "" 0 "" "" "fp" "" 0 None 0 0.

Definition checkpoint0 : LoopCheckpointRecord :=
  mkCheckpoint "default" "p1" "th1" "run_1" 1 "" 3 "await_human" "" "snapshot" 0
    LoopCheckpointWaitApproval "apr_1" "call_1".

Definition answer0 : QueuedTask :=
  mkQueuedTask "queue_1" "" "" "cli" "cli" "" "approved, go on" "" "ws1" [] [] "th1" "run_1" "" "" ""
    "approval-resume:apr_1" "" 0 ZeroTime "" 0 "" ZeroTime 0 ZeroTime zeroSnapshot None.

Definition decision0 : ApprovalDecisionInput := mkDecisionInput "run" "" "" "".

Definition resume0 : StartRunOptions :=
  mkStartRunOptions "wk" "" [] 2 true "queue_1" "claim_t1" "run_1" true zeroSnapshot.

(** Started, asked, checkpointed. *)
Definition asked : list control_op :=
  [OpStartRun "1" "1" (at_second 1) owner0 "cli" "goal" options0;
   OpCreateApproval "x" (at_second 2) request0;
   OpSaveCheckpoint (at_second 3) checkpoint0].

Definition parked : list control_op :=
  asked ++ [OpParkHumanWait (at_second 4) "default" "p1" "run_1" LoopCheckpointWaitApproval "apr_1" ""].

Definition answer_op : control_op :=
  OpRespondParked "q" (at_second 5) "default" "p1" "apr_1" "approve" "cli" decision0 answer0.

Definition answered : list control_op := parked ++ [answer_op].

Definition claim_op : control_op := OpQueue (OpClaim "t1" (at_second 6) "default" "queue_1" 0%Z).

Definition resume_op : control_op :=
  OpStartRun "2" "2" (at_second 7) owner0 "cli" "goal" resume0.

Definition continued : list control_op := answered ++ [claim_op; resume_op].

Abbreviation after ops := (exec_controls ops (emptyDB (mkMaintState [] [] []))).

Lemma continued_ok : Forall control_ok continued.
Proof. repeat constructor. Qed.

(** The Run is continued by the Run started from the answer's row. *)
Example continued_runs :
  map (fun r => (run_id r, run_status r, run_resumes_run_id r)) (db_runs (after continued)) =
  [("run_1", "waiting_user", ""); ("run_2", "running", "run_1")].
Proof. vm_compute. reflexivity. Qed.

Example continued_queue :
  map (fun q => (q_id q, q_status q, q_run_id q)) (db_queue (after continued)) =
  [("queue_1", "started", "run_2")].
Proof. vm_compute. reflexivity. Qed.

(** The state in which the answer's row is claimed and about to be resolved. *)
Definition claimed : list control_op := answered ++ [claim_op].

Lemma claimed_ok : Forall control_ok claimed.
Proof. repeat constructor. Qed.

(** A stored row, found by evaluation. *)
Lemma stored {A} (p : A -> bool) (l : list A) : existsb p l = true -> exists x, In x l /\ p x = true.
Proof. apply existsb_exists. Qed.

Definition is_run1 (r : Run) : bool :=
  (run_id r =? "run_1")%string && (run_tenant_id r =? "default")%string
  && (run_execution_class r =? "work")%string && (run_person_id r =? "p1")%string
  && (run_thread_id r =? "th1")%string.

(** The claimed row, as the resolver receives it. *)
Definition claimed_task : QueuedTask :=
  answer0 <| t_TenantID := "default" |> <| t_PersonID := "p1" |> <| t_ApprovalID := "apr_1" |>
          <| t_Class := "normal" |> <| t_Status := "started" |>.
