(* ===== verification/ApprovalTheory.v ===== *)
(** * The life of an approval request

    What every operation of [internal/control] may do to a stored approval:
    [approval_step].  It is a preorder, so it describes whole histories. *)

From stdpp Require Import base tactics list strings.
From Stdlib Require Import ZArith Lia Bool String List.
From S2P Require Import Prelude GoLib Sql Evolution Admission Store Queue Database Checkpoints Approvals.

(** ** Well-formed requests *)

Definition decided_status (s : string) : Prop := s = "approved" \/ s = "rejected".

(** The decision columns. *)
Definition decision_of (a : ApprovalRow) : DecisionValues :=
  mkDecisionValues (a_status a) (a_decision_scope a) (a_decision_id a) (a_decision_grant_key a)
    (a_decision_note a).

Definition no_decision (s : string) : DecisionValues := mkDecisionValues s "" "" "" "".

(** A recorded decision: a rejection carries no grant, an approval no refusal
    note, and the exact answer chosen is always named. *)
Record decision_wf (v : DecisionValues) : Prop := {
  dw_status : decided_status (dv_status v);
  dw_id : dv_id v <> "";
  dw_scope : In (dv_scope v) [""; "run"; "workspace"; "person"];
  dw_approved : dv_status v = "approved" -> dv_note v = "";
  dw_rejected : dv_status v = "rejected" -> dv_scope v = "" /\ dv_grant_key v = ""
}.

Record approval_wf (a : ApprovalRow) : Prop := {
  aw_status : In (a_status a) ["pending"; "approved"; "rejected"; "expired"; "archived"];
  aw_waiter : In (a_waiter_state a) ["live"; "parked"; "claimed"];
  aw_claimed : a_waiter_state a = "claimed" -> decided_status (a_status a);
  aw_linked : decided_status (a_status a) -> a_waiter_state a = "parked" -> a_resume_queue_id a <> "";
  aw_resume : a_resume_queue_id a <> "" -> decided_status (a_status a) /\ a_waiter_state a = "parked";
  aw_auth : In (a_authorization_state a) [""; "available"; "consumed"];
  aw_armed : a_authorization_state a <> "" -> a_status a = "approved" /\ a_resume_queue_id a <> "";
  aw_decided : decided_status (a_status a) -> decision_wf (decision_of a);
  aw_undecided : ~ decided_status (a_status a) -> decision_of a = no_decision (a_status a)
}.

(** ** Steps *)

(** The columns nothing rewrites. *)
Record approval_frozen (a a' : ApprovalRow) : Prop := {
  af_id : a_id a' = a_id a;
  af_tenant : a_tenant_id a' = a_tenant_id a;
  af_person : a_person_id a' = a_person_id a;
  af_run : a_run_id a' = a_run_id a;
  af_thread : a_thread_id a' = a_thread_id a;
  af_action : a_action_type a' = a_action_type a;
  af_payload : a_payload a' = a_payload a;
  af_fingerprint : a_authorization_fingerprint a' = a_authorization_fingerprint a;
  af_created : a_created_at a' = a_created_at a
}.

(** A request that left [pending] keeps its status and its decision; a waiter
    leaves [live] at most once; a continuation row, once linked, stays; a
    consumed authorization stays consumed by the same Run; an authorization that
    is gone is never issued again. *)
Record approval_next (a a' : ApprovalRow) : Prop := {
  an_wf : approval_wf a';
  an_final : a_status a <> "pending" ->
    decision_of a' = decision_of a /\ a_decision_recorded_at a' = a_decision_recorded_at a
    /\ a_approved_channel a' = a_approved_channel a;
  an_waiter : a_waiter_state a <> "live" -> a_waiter_state a' = a_waiter_state a;
  an_resume : a_resume_queue_id a <> "" -> a_resume_queue_id a' = a_resume_queue_id a;
  an_consumed : a_authorization_state a = "consumed" ->
    a_authorization_state a' = "consumed" /\ a_claimed_by_run_id a' = a_claimed_by_run_id a;
  an_spent : a_resume_queue_id a <> "" -> a_authorization_state a <> "available" ->
    a_authorization_state a' <> "available";
  an_closed : a_status a <> "pending" -> a_resume_queue_id a = "" -> a_waiter_state a <> "live" ->
    a_resume_queue_id a' = ""
}.

Record approval_step (a a' : ApprovalRow) : Prop := {
  as_frozen : approval_frozen a a';
  as_next : approval_wf a -> approval_next a a'
}.

Lemma approval_frozen_refl a : approval_frozen a a.
Proof. by constructor. Qed.

Lemma approval_step_refl a : approval_step a a.
Proof. split; [apply approval_frozen_refl|]. intros Hw. constructor; auto. Qed.

Lemma approval_step_trans a b c : approval_step a b -> approval_step b c -> approval_step a c.
Proof.
  intros [[] Hab] [[] Hbc]. split; [constructor; congruence|].
  intros Hw. specialize (Hab Hw). specialize (Hbc (an_wf _ _ Hab)).
  destruct Hab as [_ F1 W1 R1 C1 S1 X1], Hbc as [Hc F2 W2 R2 C2 S2 X2].
  assert (forall x y, decision_of x = decision_of y -> a_status x = a_status y) as Hd
    by (intros x y E; by injection E).
  constructor; [done| | | | | |].
  - intros Hp. destruct (F1 Hp) as (E & ? & ?). pose proof (Hd _ _ E) as Es.
    destruct F2 as (? & ? & ?); [congruence|]. repeat split; congruence.
  - intros Hl. rewrite W2; rewrite W1; auto.
  - intros Hr. rewrite R2; rewrite R1; auto.
  - intros Hc'. destruct (C1 Hc') as [E1 E2], (C2 E1) as [E3 E4]. split; congruence.
  - intros Hr Ha. apply S2; [by rewrite R1|auto].
  - intros Hp Hr Hl. destruct (F1 Hp) as (E & _). pose proof (Hd _ _ E) as Es.
    apply X2; [congruence|auto|]. rewrite W1; auto.
Qed.

Lemma approval_step_wf a a' : approval_step a a' -> approval_wf a -> approval_wf a'.
Proof. intros [_ H] Hw. by destruct (H Hw). Qed.

Lemma approval_step_key a a' : approval_step a a' -> key a' = key a.
Proof. by intros [[] _]. Qed.

(** A new request is well formed and takes a free identifier. *)
Definition new_approval (t : list ApprovalRow) (a : ApprovalRow) : Prop :=
  lookup_key (key a) t = None /\ approval_wf a.

Abbreviation approvals_evolve := (evolves approval_step new_approval).

(** Discharge the frozen columns, membership in a closed list and the columns a
    change does not mention. *)
Ltac step_side := try (by constructor); try (simpl; tauto); try done.

(** ** The transitions are steps *)

Lemma one_of_In set s : one_of set s = true <-> In s set.
Proof.
  unfold one_of. rewrite existsb_exists. split.
  - by intros (x & Hx & ->%String.eqb_eq).
  - intros H. exists s. split; [done|apply String.eqb_refl].
Qed.

Lemma a_pending_iff a : a_pending a = true <-> a_status a = "pending".
Proof. apply String.eqb_eq. Qed.
Lemma a_live_iff a : a_live a = true <-> a_waiter_state a = "live".
Proof. apply String.eqb_eq. Qed.
Lemma a_parked_iff a : a_parked a = true <-> a_waiter_state a = "parked".
Proof. apply String.eqb_eq. Qed.
Lemma a_decided_iff a : a_decided a = true <-> decided_status (a_status a).
Proof. unfold a_decided. rewrite one_of_In. simpl. unfold decided_status. intuition. Qed.

Lemma not_decided s : s <> "approved" -> s <> "rejected" -> ~ decided_status s.
Proof. unfold decided_status. tauto. Qed.

(** An undecided request has no continuation and no authorization. *)
Lemma undecided_idle a : approval_wf a -> ~ decided_status (a_status a) ->
  a_resume_queue_id a = "" /\ a_authorization_state a = "".
Proof.
  intros [S W C L R A M D U] Hn.
  assert (a_resume_queue_id a = "") as Er.
  { destruct (decide (a_resume_queue_id a = "")) as [|Hr]; [done|]. by destruct (R Hr). }
  split; [done|]. destruct (decide (a_authorization_state a = "")) as [|Ha]; [done|].
  destruct (M Ha) as [E _]. destruct Hn. by left.
Qed.

(** A decided request whose waiter is not parked has no continuation. *)
Lemma live_idle a : approval_wf a -> a_waiter_state a <> "parked" ->
  a_resume_queue_id a = "" /\ a_authorization_state a = "".
Proof.
  intros [S W C L R A M D U] Hn.
  assert (a_resume_queue_id a = "") as Er.
  { destruct (decide (a_resume_queue_id a = "")) as [|Hr]; [done|]. by destruct (R Hr). }
  split; [done|]. destruct (decide (a_authorization_state a = "")) as [|Ha]; [done|].
  by destruct (M Ha).
Qed.

(** The two shapes of a well-formed row after a change, from the columns that
    matter. *)
Lemma undecided_wf a :
  In (a_status a) ["pending"; "expired"; "archived"] ->
  In (a_waiter_state a) ["live"; "parked"] -> a_resume_queue_id a = "" ->
  a_authorization_state a = "" -> decision_of a = no_decision (a_status a) -> approval_wf a.
Proof.
  intros Hs Hl Hr Ha Hd.
  assert (~ decided_status (a_status a)) as Hn.
  { intros [E|E]; rewrite E in Hs; simpl in Hs; intuition congruence. }
  constructor; simpl in *; try tauto; try congruence.
  - intros E. rewrite E in Hl. intuition congruence.
  - auto.
Qed.

Lemma decided_wf a :
  decision_wf (decision_of a) -> In (a_waiter_state a) ["live"; "parked"; "claimed"] ->
  (a_waiter_state a = "parked" <-> a_resume_queue_id a <> "") ->
  In (a_authorization_state a) [""; "available"; "consumed"] ->
  (a_authorization_state a <> "" -> a_status a = "approved" /\ a_resume_queue_id a <> "") ->
  approval_wf a.
Proof.
  intros Hd Hl Hr Ha Hm. pose proof (dw_status _ Hd) as Hs. simpl in Hs.
  constructor; auto; try tauto.
  - destruct Hs as [->| ->]; simpl; tauto.
Qed.

Section Transitions.
Context (now : Time).

(** A pending request that stays undecided. *)
Lemma undecided_step a a' :
  a_status a = "pending" -> approval_frozen a a' ->
  In (a_status a') ["pending"; "expired"; "archived"] ->
  (approval_wf a -> In (a_waiter_state a') ["live"; "parked"]) ->
  (a_waiter_state a <> "live" -> a_waiter_state a' = a_waiter_state a) ->
  a_resume_queue_id a' = a_resume_queue_id a ->
  (a_authorization_state a' = a_authorization_state a \/ a_authorization_state a' = "") ->
  (decision_of a = no_decision (a_status a) -> decision_of a' = no_decision (a_status a')) ->
  approval_step a a'.
Proof.
  intros Hp Hf Hs Hl Hw Hr Ha Hd. split; [done|]. intros W.
  assert (~ decided_status (a_status a)) as Hn by (rewrite Hp; by apply not_decided).
  destruct (undecided_idle a W Hn) as [Er Ea].
  assert (a_authorization_state a' = "") as Ea' by (destruct Ha; congruence).
  constructor; try congruence.
  - apply undecided_wf; auto; [congruence|]. by apply Hd, (aw_undecided _ W).
  - done.
Qed.

(** A pending request always has a live or a parked waiter. *)
Lemma pending_waiter a : approval_wf a -> a_status a = "pending" ->
  In (a_waiter_state a) ["live"; "parked"].
Proof.
  intros [S W C L R A M D U] Hp. simpl in *.
  destruct W as [W|[W|[W|[]]]]; [auto|auto|]. destruct (C (eq_sym W)); congruence.
Qed.

Lemma expire_step a : a_status a = "pending" -> approval_step a (expireApproval now a).
Proof.
  intros Hp. apply undecided_step; step_side.
  - intros W. exact (pending_waiter a W Hp).
  - unfold decision_of, no_decision. simpl. congruence.
Qed.

Lemma park_step reason a : a_status a = "pending" -> a_waiter_state a = "live" ->
  approval_step a (parkApproval now reason a).
Proof. intros Hp Hl. apply undecided_step; step_side. Qed.

Lemma park_orphan_step a : a_status a = "pending" -> a_waiter_state a = "live" ->
  approval_step a (parkOrphan now a).
Proof. intros Hp Hl. apply undecided_step; step_side. Qed.

Lemma archive_step a : a_status a = "pending" -> a_waiter_state a = "parked" ->
  approval_step a (archiveApproval now a).
Proof.
  intros Hp Hl. apply undecided_step; step_side.
  - intros _. simpl. auto.
  - unfold decision_of, no_decision. simpl. congruence.
Qed.

(** A change of columns no condition reads. *)
Lemma inert_step a a' :
  approval_frozen a a' -> decision_of a' = decision_of a ->
  a_decision_recorded_at a' = a_decision_recorded_at a ->
  a_approved_channel a' = a_approved_channel a -> a_waiter_state a' = a_waiter_state a ->
  a_resume_queue_id a' = a_resume_queue_id a -> a_claimed_by_run_id a' = a_claimed_by_run_id a ->
  (a_authorization_state a' = a_authorization_state a \/
   a_authorization_state a <> "consumed" /\ a_authorization_state a' = "") ->
  approval_step a a'.
Proof.
  intros Hf Hd Ht Hc Hw Hr Hb Ha. split; [done|].
  assert (a_status a' = a_status a) as Hs by (by injection Hd).
  intros [S W C L R A M D U]. constructor; try congruence.
  - constructor; rewrite ?Hs, ?Hw, ?Hr, ?Hd; auto; destruct Ha as [->|[_ ->]]; simpl; tauto.
  - auto.
  - intros E. destruct Ha as [Ha|[Ha _]]; split; congruence.
  - intros _ Hn. destruct Ha as [->|[_ ->]]; [done|]. done.
Qed.

Lemma notified_step a : approval_step a (a <| a_notified_at := Some (Unix now) |>).
Proof. apply inert_step; step_side. Qed.

Lemma withdraw_step a : a_authorization_state a <> "consumed" ->
  approval_step a (a <| a_authorization_state := "" |> <| a_authorization_expires_at := 0%Z |>
                     <| a_updated_at := Unix now |>).
Proof. intros H. apply inert_step; step_side. Qed.

(** A live waiter takes its decision. *)
Lemma claim_decision_step run a : decided_status (a_status a) -> a_waiter_state a = "live" ->
  approval_step a (claimDecision now run a).
Proof.
  intros Hs Hl. split; [by constructor|]. intros W.
  destruct (live_idle a W) as [Er Ea]; [congruence|].
  constructor; simpl; try done; try congruence.
  - apply decided_wf; simpl; try tauto.
    + by apply (aw_decided _ W).
    + rewrite Er. done.
    + rewrite Ea. auto.
Qed.

(** A resumed Run takes the one-shot authorization. *)
Lemma consume_step run a : a_authorization_state a = "available" ->
  approval_step a (consumeAuthorization now run a).
Proof.
  intros Ha. split; [by constructor|]. intros W. destruct (aw_armed _ W) as [Hs Hr]; [congruence|].
  assert (decided_status (a_status a)) as Hd by (by left).
  destruct (aw_resume _ W Hr) as [_ Hw].
  constructor; simpl; try done; try congruence.
  apply decided_wf; simpl; try tauto.
  + by apply (aw_decided _ W).
  + exact (aw_waiter _ W).
Qed.

(** A decision on a pending request; [id] is its continuation row, if any. *)
Lemma decide_step channel v a a' :
  decision_wf v -> a_status a = "pending" ->
  approval_frozen a a' -> decision_of a' = v -> a_waiter_state a' = a_waiter_state a ->
  (a_waiter_state a = "live" -> a_resume_queue_id a' = a_resume_queue_id a /\
     a_authorization_state a' = a_authorization_state a) ->
  (a_waiter_state a = "parked" -> a_resume_queue_id a' <> "" /\
     a_authorization_state a' = (if (dv_status v =? "approved")%string then "available" else "")) ->
  a_approved_channel a' = channel ->
  approval_step a a'.
Proof.
  intros Hv Hp Hf Hd Hw Hl Hk _. split; [done|]. intros W.
  assert (~ decided_status (a_status a)) as Hn by (rewrite Hp; by apply not_decided).
  destruct (undecided_idle a W Hn) as [Er Ea].
  assert (a_status a' = dv_status v) as Es by (by subst v).
  constructor; try congruence.
  destruct (pending_waiter a W Hp) as [E|[E|[]]]; symmetry in E.
  - destruct (Hl E) as [E1 E2]. apply decided_wf; rewrite ?Hw, ?Hd, ?E1, ?E2, ?Er, ?Ea, ?E; simpl; auto;
      [split; congruence|done].
  - destruct (Hk E) as [E1 E2]. apply decided_wf; rewrite ?Hw, ?Hd, ?E2, ?E, ?Es; simpl; auto;
      case_if; reflect_bools; auto; done.
Qed.

Lemma respond_step channel v a :
  decision_wf v -> a_status a = "pending" -> a_waiter_state a = "live" ->
  approval_step a (recordDecision now channel v a).
Proof.
  intros Hv Hp Hl. apply (decide_step channel v); step_side; [by destruct v|congruence].
Qed.

Lemma respond_parked_step channel v id a :
  decision_wf v -> id <> "" -> a_status a = "pending" -> a_waiter_state a = "parked" ->
  approval_step a (authorize now (dv_status v) (recordDecision now channel v a)
                     <| a_resume_queue_id := id |>).
Proof.
  intros Hv Hi Hp Hl. unfold authorize.
  apply (decide_step channel v); try case_if; step_side; try (by destruct v); congruence.
Qed.

(** A recorded decision whose live waiter died. *)
Lemma recover_step id a :
  decided_status (a_status a) -> id <> "" -> a_waiter_state a = "live" ->
  approval_step a (recoverDecision now (a_status a) id a).
Proof.
  intros Hs Hi Hl. unfold recoverDecision, authorize. split; [case_if; by constructor|]. intros W.
  destruct (live_idle a W) as [Er Ea]; [congruence|].
  assert (decision_wf (decision_of a)) as Hd by by apply (aw_decided _ W).
  case_if; reflect_bools; constructor; simpl; try done; try congruence;
    apply decided_wf; simpl; try done; try tauto.
Qed.
End Transitions.

(** ** The values of a decision *)

Lemma normalizeGrantScope_cases s : In (normalizeGrantScope s) [""; "run"; "workspace"; "person"].
Proof. unfold normalizeGrantScope. repeat case_if; simpl; auto. Qed.

Lemma normalizeApprovalDecision_cases s status :
  normalizeApprovalDecision s = Ok status -> decided_status status.
Proof.
  unfold normalizeApprovalDecision, decided_status. repeat case_if; intros; simplify_eq; auto.
Qed.

Lemma normalizeApprovalDecisionValues_wf decision input v :
  normalizeApprovalDecisionValues decision input = Ok v -> decision_wf v.
Proof.
  unfold normalizeApprovalDecisionValues.
  destruct (normalizeApprovalDecision decision) as [status|] eqn:E; [|done].
  apply normalizeApprovalDecision_cases in E.
  pose proof (normalizeGrantScope_cases (di_GrantScope input)) as Hg.
  assert (forall x y : string, y <> "" -> (if (x =? "")%string then y else x) <> "") as Hid.
  { intros x y Hy. case_if; by reflect_bools. }
  destruct (negb (status =? "approved")%string) eqn:Es; intros; simplify_eq; reflect_bools;
    constructor; simpl; try done; try congruence; auto.
  repeat case_if; reflect_bools; try done.
Qed.
