(* ===== verification/ControlSteps.v ===== *)
(** * What one operation does to the control database

    For each table the changes an operation may make to a row and the rows it
    may insert; [db_step] collects them into one preorder on databases, and
    every helper and operation of the Run lifecycle is shown to be such a step.
    The two operations that also link an approval to its continuation row are
    treated in [ControlTheory]. *)

From stdpp Require Import base tactics list strings.
From Stdlib Require Import ZArith Lia Bool String List Sorted.
From S2P Require Import Prelude GoLib Sql Evolution Admission Store Queue Maintenance Database RunStart Checkpoints Approvals Clarify Cancellation Continuation Finalization Control ApprovalTheory.

(** ** Rows *)

(** An approval changes by a step and keeps its continuation link. *)
Definition approval_plain (a a' : ApprovalRow) : Prop :=
  approval_step a a' /\ a_resume_queue_id a' = a_resume_queue_id a.

Definition plain_new (t : list ApprovalRow) (a : ApprovalRow) : Prop :=
  new_approval t a /\ a_resume_queue_id a = "".

(** A question keeps what was asked; once it left [pending] its answer stands. *)
Record clarify_step (c c' : ClarifyRow) : Prop := {
  cs_id : c_id c' = c_id c;
  cs_tenant : c_tenant_id c' = c_tenant_id c;
  cs_person : c_person_id c' = c_person_id c;
  cs_run : c_run_id c' = c_run_id c;
  cs_thread : c_thread_id c' = c_thread_id c;
  cs_question : c_question c' = c_question c;
  cs_options : c_options c' = c_options c;
  cs_final : c_status c <> "pending" ->
    c_status c' = c_status c /\ c_answer c' = c_answer c /\ c_channel c' = c_channel c
}.

Definition new_clarify (t : list ClarifyRow) (c : ClarifyRow) : Prop :=
  lookup_key (key c) t = None /\ c_status c = "pending".

(** A queue row keeps its identity, target and payload, and a bound Run. *)
Record queue_step (q q' : QueueRow) : Prop := {
  qs_frozen : row_frozen q q';
  qs_run : q_run_id q <> "" -> q_run_id q' = q_run_id q
}.

Definition new_queue (t : list QueueRow) (q : QueueRow) : Prop :=
  lookup_key (key q) t = None /\ q_id q <> "" /\ q_run_id q = "" /\
  normalizeTenant (q_tenant_id q) = q_tenant_id q /\
  (q_idempotency_key q = "" \/
   existsb (same_idempotency (q_tenant_id q) (q_idempotency_key q)) t = false).

(** A Run keeps its owner, scope, parent and admission; it never runs again
    after it stopped, and a stop request is never withdrawn. *)
Record run_step (r r' : Run) : Prop := {
  rs_id : run_id r' = run_id r;
  rs_tenant : run_tenant_id r' = run_tenant_id r;
  rs_person : run_person_id r' = run_person_id r;
  rs_thread : run_thread_id r' = run_thread_id r;
  rs_class : run_execution_class r' = run_execution_class r;
  rs_roots : run_execution_roots r' = run_execution_roots r;
  rs_workspace : run_workspace_id r' = run_workspace_id r;
  rs_channel : run_channel r' = run_channel r;
  rs_resumes : run_resumes_run_id r' = run_resumes_run_id r;
  rs_legacy : run_resumed_by_run_id r' = run_resumed_by_run_id r;
  rs_started : run_started_at r' = run_started_at r;
  rs_admission : run_admission r' = run_admission r;
  rs_stopped : run_status r <> "running" -> run_status r' <> "running";
  rs_cancel : run_cancel_requested r = true -> run_cancel_requested r' = true
}.

Lemma approval_plain_refl a : approval_plain a a.
Proof. split; [apply approval_step_refl|done]. Qed.
Lemma clarify_step_refl c : clarify_step c c.
Proof. by constructor. Qed.
Lemma queue_step_refl q : queue_step q q.
Proof. by constructor; [apply row_frozen_refl|]. Qed.
Lemma run_step_refl r : run_step r r.
Proof. by constructor. Qed.

Lemma clarify_step_trans a b c : clarify_step a b -> clarify_step b c -> clarify_step a c.
Proof.
  intros [? ? ? ? ? ? ? F1] [? ? ? ? ? ? ? F2]. constructor; try congruence.
  intros Hp. destruct (F1 Hp) as (E & ? & ?). destruct F2 as (? & ? & ?); [congruence|].
  repeat split; congruence.
Qed.

Lemma queue_step_trans a b c : queue_step a b -> queue_step b c -> queue_step a c.
Proof.
  intros [F1 R1] [F2 R2]. constructor; [by eapply row_frozen_trans|].
  intros H. rewrite R2; rewrite R1; auto.
Qed.

Lemma run_step_trans a b c : run_step a b -> run_step b c -> run_step a c.
Proof. intros [] []. constructor; try congruence; auto. Qed.

Lemma clarify_step_key c c' : clarify_step c c' -> key c' = key c.
Proof. by intros []. Qed.
Lemma queue_step_key q q' : queue_step q q' -> key q' = key q.
Proof. by intros [[] _]. Qed.
Lemma run_step_key r r' : run_step r r' -> key r' = key r.
Proof. by intros []. Qed.

(** ** Events *)

(** The ledger: cursors strictly increase in order of insertion and never pass
    the sequence; identifiers and idempotency keys are unique. *)
Record events_wf (l : list Event) (n : Z) : Prop := {
  ew_sorted : StronglySorted (fun a b => (ev_cursor a < ev_cursor b)%Z) l;
  ew_bound : forall e, In e l -> (ev_cursor e <= n)%Z;
  ew_ids : keys_unique l;
  ew_keys : forall e e', In e l -> In e' l -> ev_idempotency_key e <> "" ->
    ev_idempotency_key e = ev_idempotency_key e' -> e = e'
}.

Definition events_step (d d' : DB) : Prop :=
  events_wf (db_events d) (db_next_cursor d) ->
  events_wf (db_events d') (db_next_cursor d') /\
  exists new, db_events d' = db_events d ++ new.

Lemma StronglySorted_snoc {A} (R : A -> A -> Prop) l x :
  StronglySorted R l -> (forall y, In y l -> R y x) -> StronglySorted R (l ++ [x]).
Proof.
  induction 1 as [|y l Hl IH Hy]; simpl; intros Hx; [by repeat constructor|].
  constructor; [auto|]. apply List.Forall_app. split; [done|]. constructor; auto.
Qed.

Lemma store_event_wf e d :
  events_wf (db_events d) (db_next_cursor d) ->
  event_id_taken (ev_id e) d = false -> event_key_taken (ev_idempotency_key e) d = false ->
  ev_cursor e = (db_next_cursor d + 1)%Z ->
  events_wf (db_events (store_event e d)) (db_next_cursor (store_event e d)).
Proof.
  intros [S B I K] Hi Hk Hc. unfold store_event. simpl. constructor.
  - apply StronglySorted_snoc; [done|]. intros y Hy. specialize (B y Hy). lia.
  - intros x [Hx|[<-|[]]]%in_app_or; [|lia]. specialize (B x Hx). lia.
  - apply keys_unique_snoc; [done|]. apply lookup_key_None. intros x Hx Heq.
    eapply existsb_false_In in Hi; [|exact Hx]. simpl in Hi. unfold key, Event_keyed in Heq.
    by rewrite Heq, String.eqb_refl in Hi.
  - assert (forall x, In x (db_events d) -> ev_idempotency_key e <> "" ->
              ev_idempotency_key x = ev_idempotency_key e -> False) as Hnew.
    { intros x Hx Hne Heq. unfold event_key_taken in Hk. apply andb_false_iff in Hk as [Hk|Hk];
        reflect_bools; [done|]. eapply existsb_false_In in Hk; [|exact Hx]. simpl in Hk.
      by rewrite Heq, String.eqb_refl in Hk. }
    intros x y [Hx|[<-|[]]]%in_app_or [Hy|[<-|[]]]%in_app_or Hne Heq; auto; exfalso.
    + eapply (Hnew x); congruence.
    + eapply (Hnew y); congruence.
Qed.

(** ** Databases

    [may_insert] is what is asked of an inserted Run, given the Runs before it:
    the step lemmas hold for every choice of it. *)

Section Steps.
Context (may_insert : list Run -> Run -> Prop).

Record db_step (d d' : DB) : Prop := {
  ds_approvals : evolves approval_plain plain_new (db_approvals d) (db_approvals d');
  ds_clarifies : evolves clarify_step new_clarify (db_clarifies d) (db_clarifies d');
  ds_queue : evolves queue_step new_queue (db_queue d) (db_queue d');
  ds_runs : evolves run_step may_insert (db_runs d) (db_runs d');
  ds_events : events_step d d'
}.

(** Tables the record does not mention are free. *)
Lemma db_step_same d d' :
  db_approvals d' = db_approvals d -> db_clarifies d' = db_clarifies d ->
  db_queue d' = db_queue d -> db_runs d' = db_runs d -> db_events d' = db_events d ->
  db_next_cursor d' = db_next_cursor d -> db_step d d'.
Proof.
  intros E1 E2 E3 E4 E5 E6. split; try (by apply evolves_eq).
  intros Hw. rewrite E5, E6. split; [done|]. exists []. by rewrite app_nil_r.
Qed.

Lemma db_step_refl d : db_step d d.
Proof. by apply db_step_same. Qed.

Lemma db_step_trans d1 d2 d3 : db_step d1 d2 -> db_step d2 d3 -> db_step d1 d3.
Proof.
  intros [A1 C1 Q1 R1 E1] [A2 C2 Q2 R2 E2]. split; try (by eapply evolves_trans).
  intros Hw. destruct (E1 Hw) as [Hw2 [n1 E]]. destruct (E2 Hw2) as [Hw3 [n2 E']].
  split; [done|]. exists (n1 ++ n2). by rewrite E', E, app_assoc.
Qed.

Lemma events_step_same d d' :
  db_events d' = db_events d -> db_next_cursor d' = db_next_cursor d -> events_step d d'.
Proof.
  intros E1 E2 Hw. rewrite E1, E2. split; [done|]. exists []. by rewrite app_nil_r.
Qed.

(** A change of one table. *)
Ltac one_table := split; try (by apply evolves_eq); try (by apply events_step_same); simpl.

Lemma step_approvals d c f :
  (forall a, c a = true -> approval_plain a (f a)) ->
  db_step d (d <| db_approvals := update_where c f (db_approvals d) |>).
Proof. intros H. one_table. apply evolves_update; [apply approval_plain_refl|]. auto. Qed.

Lemma step_new_approval d a :
  plain_new (db_approvals d) a -> db_step d (d <| db_approvals := db_approvals d ++ [a] |>).
Proof. intros H. one_table. by apply evolves_insert. Qed.

Lemma step_clarifies d c f :
  (forall a, c a = true -> clarify_step a (f a)) ->
  db_step d (d <| db_clarifies := update_where c f (db_clarifies d) |>).
Proof. intros H. one_table. apply evolves_update; [apply clarify_step_refl|]. auto. Qed.

Lemma step_new_clarify d a :
  new_clarify (db_clarifies d) a -> db_step d (d <| db_clarifies := db_clarifies d ++ [a] |>).
Proof. intros H. one_table. by apply evolves_insert. Qed.

Lemma step_queue d t : evolves queue_step new_queue (db_queue d) t -> db_step d (d <| db_queue := t |>).
Proof. intros H. one_table. done. Qed.

Lemma step_queue_rows d c f :
  (forall a, c a = true -> queue_step a (f a)) ->
  db_step d (d <| db_queue := update_where c f (db_queue d) |>).
Proof. intros H. apply step_queue, evolves_update; [apply queue_step_refl|]. auto. Qed.

Lemma step_runs d c f :
  (forall a, c a = true -> run_step a (f a)) ->
  db_step d (d <| db_runs := update_where c f (db_runs d) |>).
Proof. intros H. one_table. apply evolves_update; [apply run_step_refl|]. auto. Qed.

Lemma step_new_run d r : may_insert (db_runs d) r -> db_step d (d <| db_runs := db_runs d ++ [r] |>).
Proof. intros H. one_table. by apply evolves_insert. Qed.

Lemma step_event d e :
  event_id_taken (ev_id e) d = false -> event_key_taken (ev_idempotency_key e) d = false ->
  ev_cursor e = (db_next_cursor d + 1)%Z -> db_step d (store_event e d).
Proof.
  intros Hi Hk Hc. split; try (by apply evolves_eq).
  intros Hw. split; [by apply store_event_wf|]. by exists [e].
Qed.

#[local] Hint Resolve db_step_refl approval_plain_refl clarify_step_refl queue_step_refl run_step_refl : control.

(** ** Helpers *)

Lemma existsb_lookup_None {R : Type} `{Keyed R string} (k : string) (t : list R) :
  existsb (fun x => (key x =? k)%string) t = false -> lookup_key k t = None.
Proof.
  intros Hx. apply lookup_key_None. intros x Hin Heq. eapply existsb_false_In in Hx; [|done].
  simpl in Hx. by rewrite Heq, String.eqb_refl in Hx.
Qed.

Lemma AppendEvent_step uuid now e d : db_step d (fst (AppendEvent uuid now e d)).
Proof.
  unfold AppendEvent. cbv zeta. set (e' := if (ei_RunID e =? "")%string then e else _).
  case_if; [auto with control|].
  match goal with
  | |- context [match ?o with Some _ => _ | None => _ end] => destruct o as [x|] eqn:Ek
  end; [auto with control|].
  match goal with |- context [if negb ?b then _ else _] => destruct (negb b) end; [auto with control|].
  destruct (event_id_taken _ d) eqn:Hi; [auto with control|].
  apply step_event; [done| |done]. unfold event_key_taken. cbn [ev_idempotency_key].
  destruct (TrimSpace _ =? "")%string; [done|]. simpl.
  destruct (existsb _ _) eqn:Ex; [|done]. apply existsb_exists in Ex as (x & Hx & Hkx).
  unfold eventByIdempotencyKey, query_row in Ek.
  eapply find_none in Ek; [|exact Hx]. simpl in Ek. congruence.
Qed.

Lemma insertScopedEvent_step id now r th ch e d d' ev :
  insertScopedEvent id now r th ch e d = Ok (d', ev) -> db_step d d'.
Proof.
  unfold insertScopedEvent. cbv zeta. case_if; [done|]. case_if; [done|]. intros; simplify_eq.
  by apply step_event.
Qed.

Lemma insertScopedEventsFrom_step ids now r th ch events : forall i d d' es,
  insertScopedEventsFrom i ids now r th ch events d = Ok (d', es) -> db_step d d'.
Proof.
  induction events as [|e events IH]; intros i d d' es; simpl; [intros; simplify_eq; auto with control|].
  destruct (insertScopedEvent _ _ _ _ _ _ _) as [[d1 e1]|] eqn:E1; [|done].
  destruct (insertScopedEventsFrom _ _ _ _ _ _ _ _) as [[d2 es2]|] eqn:E2; [|done].
  intros; simplify_eq. eapply db_step_trans; [by eapply insertScopedEvent_step|by eapply IH].
Qed.

Lemma promote_thread_step now tenant runID d : db_step d (promoteThreadForControlObjectTx now tenant runID d).
Proof.
  unfold promoteThreadForControlObjectTx, execPromoteThreadForRunTx. case_if; [auto with control|].
  case_match; [by apply db_step_same|auto with control].
Qed.

Lemma clearSelections_step tenant person run d :
  db_step d (clearRunResumeSelectionsTx tenant person run d).
Proof. by apply db_step_same. Qed.

(** ** Transactions that stop a Run *)

(** Close the frozen columns of an approval change whose step is known. *)
Ltac plain H := split; [apply H|reflexivity].

Lemma expireRunHumanRequestsTx_step now tenant person run reason d :
  db_step d (snd (expireRunHumanRequestsTx now tenant person run reason d)).
Proof.
  set (pa := fun a => approval_of tenant person run a && a_pending a).
  set (pw := fun a => approval_of tenant person run a
                      && negb (a_authorization_state a =? "consumed")%string).
  set (d1 := d <| db_approvals := update_where pa (expireApproval now) (db_approvals d) |>).
  set (d2 := d1 <| db_approvals := update_where pw (fun a =>
               a <| a_authorization_state := "" |> <| a_authorization_expires_at := 0%Z |>
                 <| a_updated_at := Unix now |>) (db_approvals d1) |>).
  apply (db_step_trans _ d1); [|apply (db_step_trans _ d2)].
  - apply step_approvals. intros a Ha. unfold pa in Ha. reflect_bools. plain expire_step.
    by apply a_pending_iff.
  - apply step_approvals. intros a Ha. unfold pw in Ha. reflect_bools. plain (withdraw_step now a). done.
  - apply (step_clarifies d2 (fun c => clarify_of tenant person run c && c_pending c) (expireClarify now)).
    intros c Hc. unfold c_pending in Hc. reflect_bools. constructor; simpl; congruence.
Qed.

Lemma cancelRow_step q : queue_step q (cancelRow q).
Proof. constructor; [by constructor|done]. Qed.

Lemma cancelUnbound_step tenant person run d :
  db_step d (cancelUnboundRunContinuationsTx tenant person run d).
Proof.
  eapply db_step_trans; [apply clearSelections_step|]. apply step_queue_rows. auto using cancelRow_step.
Qed.

Lemma cancelParkedRunTx_step ids now tenant person run th ch res d d' es :
  cancelParkedRunTx ids now tenant person run th ch res d = Ok (d', es) -> db_step d d'.
Proof.
  unfold cancelParkedRunTx, insertScopedEventsTx. cbv zeta. intros E.
  eapply db_step_trans; [|eapply db_step_trans;
    [apply cancelUnbound_step|eapply insertScopedEventsFrom_step, E]].
  apply step_runs. intros r _. by constructor.
Qed.

Lemma cancelParkedProviderTx_step ids now tenant person run d d' es :
  cancelParkedProviderTx ids now tenant person run d = Ok (d', es) -> db_step d d'.
Proof.
  unfold cancelParkedProviderTx. destruct (query_row _ _); [apply cancelParkedRunTx_step|].
  intros; simplify_eq. auto with control.
Qed.

Lemma cancelParkedHumanTx_step ids now tenant person run d d' es :
  cancelParkedHumanTx ids now tenant person run d = Ok (d', es) -> db_step d d'.
Proof.
  unfold cancelParkedHumanTx. destruct (query_row _ _); [|intros; simplify_eq; auto with control].
  destruct (expireRunHumanRequestsTx _ _ _ _ _ d) as [res d1] eqn:E. intros Hc.
  eapply db_step_trans; [|by eapply cancelParkedRunTx_step].
  pose proof (expireRunHumanRequestsTx_step now tenant person run "user cancelled parked run" d) as Hs.
  by rewrite E in Hs.
Qed.

Lemma cancelled_any_step r d d' :
  (forall d1 es, r = Ok (d1, es) -> db_step d d1) -> fst (cancelled_any r d) = d' -> db_step d d'.
Proof.
  unfold cancelled_any. destruct r as [[d1 es]|e]; simpl; intros H <-; [by eapply H|auto with control].
Qed.

Lemma CancelParkedProviderRun_step ids now tenant person run d :
  db_step d (fst (CancelParkedProviderRun ids now tenant person run d)).
Proof.
  unfold CancelParkedProviderRun. case_if; [auto with control|].
  eapply cancelled_any_step; [|done]. intros d1 es. apply cancelParkedProviderTx_step.
Qed.

Lemma CancelParkedHumanRun_step ids now tenant person run d :
  db_step d (fst (CancelParkedHumanRun ids now tenant person run d)).
Proof.
  unfold CancelParkedHumanRun. case_if; [auto with control|].
  eapply cancelled_any_step; [|done]. intros d1 es. apply cancelParkedHumanTx_step.
Qed.

Lemma requestLiveCancel_step ids now r d d' es :
  requestLiveCancel ids now r d = Ok (d', es) -> db_step d d'.
Proof.
  unfold requestLiveCancel, insertScopedEventsTx. cbv zeta.
  set (d1 := d <| db_runs := _ |>).
  pose proof (expireRunHumanRequestsTx_step now (run_tenant_id r) (run_person_id r) (run_id r)
                "user requested stop" d1) as Hs.
  destruct (expireRunHumanRequestsTx _ _ _ _ _ d1) as [res d2]. intros E.
  eapply db_step_trans; [|eapply db_step_trans; [exact Hs|eapply db_step_trans;
    [apply cancelUnbound_step|eapply insertScopedEventsFrom_step, E]]].
  apply step_runs. intros x _. by constructor.
Qed.

Lemma RequestRunCancel_step ids now tenant run d :
  db_step d (fst (RequestRunCancel ids now tenant run d)).
Proof.
  unfold RequestRunCancel. cbv zeta. destruct (query_row _ _) as [r|]; [|auto with control].
  destruct (cancelParkedProviderTx _ _ _ _ _ d) as [[d1 es1]|] eqn:E1; [|auto with control].
  apply cancelParkedProviderTx_step in E1. destruct es1; [|done].
  destruct (cancelParkedHumanTx _ _ _ _ _ d1) as [[d2 es2]|] eqn:E2; [|auto with control].
  apply cancelParkedHumanTx_step in E2. destruct es2; [|by eapply db_step_trans].
  destruct (requestLiveCancel _ _ _ d2) as [[d3 es3]|] eqn:E3; [|auto with control].
  apply requestLiveCancel_step in E3. simpl. eapply db_step_trans; [done|]. by eapply db_step_trans.
Qed.

Lemma cancelOptional_step f o d d' :
  (forall r d1 d2 es, f r d1 = Ok (d2, es) -> db_step d1 d2) ->
  cancelOptional f o d = Ok d' -> db_step d d'.
Proof.
  unfold cancelOptional. intros Hf. destruct o as [r|]; [|intros; simplify_eq; auto with control].
  destruct (f r d) as [[d1 es]|] eqn:E; [|done]. intros; simplify_eq. by eapply Hf.
Qed.

Lemma cancelEach_step f l : (forall r d1 d2 es, f r d1 = Ok (d2, es) -> db_step d1 d2) ->
  forall d d', cancelEach f l d = Ok d' -> db_step d d'.
Proof.
  intros Hf. induction l as [|r l IH]; intros d d'; simpl; [intros; simplify_eq; auto with control|].
  destruct (f r d) as [[d1 es]|] eqn:E; [|done]. intros Hd.
  eapply db_step_trans; [by eapply Hf|by apply IH].
Qed.

Lemma CancelQueued_step ids now tenant person qid d :
  db_step d (fst (CancelQueued ids now tenant person qid d)).
Proof.
  unfold CancelQueued. case_if; [auto with control|]. cbv zeta.
  destruct (query_row _ _) as [q|]; [|auto with control]. case_if; [auto with control|].
  destruct (cancelOptional _ _ d) as [d1|] eqn:E1; [|auto with control].
  destruct (cancelOptional _ _ d1) as [d2|] eqn:E2; [|auto with control].
  eapply db_step_trans; [eapply cancelOptional_step, E1; intros *; apply cancelParkedProviderTx_step|].
  eapply db_step_trans; [eapply cancelOptional_step, E2; intros *; apply cancelParkedHumanTx_step|].
  apply step_queue_rows. auto using cancelRow_step.
Qed.

Lemma clearQueued_step order ids now tenant person d :
  db_step d (fst (ClearQueued order ids now tenant person d)).
Proof.
  unfold ClearQueued. case_if; [auto with control|]. unfold clearQueuedAndParkedRuns. cbv zeta.
  destruct (cancelEach _ _ d) as [d1|] eqn:E1; [|auto with control].
  destruct (cancelEach _ _ d1) as [d2|] eqn:E2; [|auto with control].
  eapply db_step_trans; [eapply cancelEach_step, E1; intros *; apply cancelParkedProviderTx_step|].
  eapply db_step_trans; [eapply cancelEach_step, E2; intros *; apply cancelParkedHumanTx_step|].
  apply step_queue_rows. auto using cancelRow_step.
Qed.

(** ** Runs *)

Lemma importEvents_step now r th ch events : forall d d',
  importEvents now r th ch events d = Ok d' -> db_step d d'.
Proof.
  induction events as [|[id e] events IH]; intros d d'; simpl; [intros; simplify_eq; auto with control|].
  destruct (insertScopedEvent _ _ _ _ _ _ _) as [[d1 e1]|] eqn:E1; [|done]. intros E2.
  eapply db_step_trans; [by eapply insertScopedEvent_step|by eapply IH].
Qed.

Section Runs.
Context `{RunEnv}.

Lemma insertRun_fresh r d d' : insertRun r d = Ok d' ->
  d' = d <| db_runs := db_runs d ++ [r] |> /\ lookup_key (key r) (db_runs d) = None /\
  (run_resumes_run_id r = "" \/ has_child (run_tenant_id r) (run_resumes_run_id r) (db_runs d) = false).
Proof.
  unfold insertRun. case_if; [done|]. case_if; [done|]. intros; simplify_eq. split_and!; [done| |].
  - by apply existsb_lookup_None.
  - apply andb_false_iff in Heqb0 as [?|?]; reflect_bools; auto.
Qed.

Lemma bindQueuedRow_step r o d d' : bindQueuedRow r o d = Ok d' -> db_step d d'.
Proof.
  unfold bindQueuedRow. case_if; [intros; simplify_eq; auto with control|]. cbv zeta.
  case_if; [done|]. intros; simplify_eq. apply step_queue_rows.
  unfold bindable_row, unbound. intros q Hq. reflect_bools. constructor; [by constructor|congruence].
Qed.

Lemma importPlan_step now r exact d d' : importPlan now r exact d = Ok d' -> db_step d d'.
Proof.
  unfold importPlan. case_if; [intros; simplify_eq; auto with control|].
  destruct (inheritRunPlanTx _ _ _ _ _ _) as [[units events]|]; [|done]. intros E.
  eapply db_step_trans; [|by eapply importEvents_step]. by apply db_step_same.
Qed.

Lemma storeRun_step wu now r o d d' :
  may_insert (db_runs d) r -> storeRun wu now r o d = Ok d' -> db_step d d'.
Proof.
  intros Hr. unfold storeRun. cbv zeta.
  destruct (insertRun r d) as [d1|] eqn:E1; [|done].
  destruct (bindQueuedRow r o d1) as [d2|] eqn:E2; [|done].
  match goal with |- context [insertWorkUnit wu now r ?x] => set (d3 := x) end.
  destruct (insertWorkUnit wu now r d3) as [d4|] eqn:E4; [|done].
  destruct (importPlan now r _ d4) as [d5|] eqn:E5; [|done]. intros; simplify_eq.
  apply insertRun_fresh in E1 as [-> _]. eapply db_step_trans; [by apply step_new_run|].
  eapply db_step_trans; [by eapply bindQueuedRow_step|].
  apply (db_step_trans _ d3). { unfold d3. case_if; [auto with control|by apply db_step_same]. }
  apply (db_step_trans _ d4).
  { unfold insertWorkUnit in E4. repeat case_if; simplify_eq; auto with control. by apply db_step_same. }
  eapply db_step_trans; [by eapply importPlan_step|].
  unfold touchThread. case_if; [auto with control|by apply db_step_same].
Qed.

(** What a committed start checked, with the class of the options set. *)
Record started (owner : RunOwner) (channel : string) (o : StartRunOptions) (d : DB) (r : Run) : Prop := {
  st_row : exists uuid now summary admission, r = newRun ("run_" +:+ uuid) now owner channel summary o admission;
  st_class : so_ExecutionClass o = "work" \/
    so_ExecutionClass o = "coordination" /\ so_ResumesRunID o = "" /\ ow_ThreadID owner = "";
  st_fresh : lookup_key (key r) (db_runs d) = None;
  st_once : run_resumes_run_id r = "" \/
    has_child (run_tenant_id r) (run_resumes_run_id r) (db_runs d) = false;
  st_capacity : capacityError owner channel o d = None;
  st_parent : run_resumes_run_id r <> "" ->
    validateResumeClaimTx (mkResumeClaim (ow_TenantID owner) (ow_PersonID owner)
      (TrimSpace (ow_ThreadID owner)) (run_resumes_run_id r)) (Some (so_QueueID o)) d = None
}.

Definition with_class (o : StartRunOptions) : StartRunOptions :=
  if (so_ExecutionClass o =? "")%string then o <| so_ExecutionClass := "work" |> else o.

(** A start either leaves the database alone or commits [storeRun]. *)
Lemma startRun_cases uuid wu now owner ch summary o d :
  (exists e, startRun uuid wu now owner ch summary o d = (d, Err e)) \/
  exists r d', startRun uuid wu now owner ch summary o d = (d', Ok r) /\
    storeRun ("wu_" +:+ wu) now r (with_class o) d = Ok d' /\
    started owner ch (with_class o) d r /\ run_id r = "run_" +:+ uuid /\
    exists a own, encodeAdmissionSnapshot (so_Admission o) = Ok (a, own) /\
      startAdmission owner o own d = Ok (run_admission r).
Proof.
  unfold startRun. cbv zeta. fold (with_class o). set (o' := with_class o).
  assert (so_ResumesRunID o' = so_ResumesRunID o /\ so_Admission o' = so_Admission o /\
          forall own, startAdmission owner o' own d = startAdmission owner o own d) as (Er & Ea & Es).
  { unfold o', with_class. by case_if. }
  case_if; [eauto|]. case_if; [eauto|]. case_if; [eauto|]. case_if; [eauto|].
  assert (so_ExecutionClass o' = "work" \/
          so_ExecutionClass o' = "coordination" /\ so_ResumesRunID o' = "" /\ ow_ThreadID owner = "") as Hc.
  { clear -Heqb1 Heqb2. reflect_bools.
    destruct (decide (so_ExecutionClass o' = "work")) as [|Hw]; [auto|right].
    destruct (decide (so_ExecutionClass o' = "coordination")) as [E|Hn]; [|exfalso].
    - split; [done|]. rewrite E in Heqb2. simpl in Heqb2.
      destruct (String.eqb_spec (so_ResumesRunID o') ""), (String.eqb_spec (ow_ThreadID owner) ""); try done;
        by rewrite ?orb_true_r in Heqb2.
    - apply String.eqb_neq in Hw, Hn. by rewrite Hw, Hn in Heqb1. }
  unfold startRunOnce. cbv zeta.
  destruct (encodeAdmissionSnapshot _) as [[a own]|] eqn:Een; [|simpl; eauto].
  destruct (capacityError _ _ _ _) eqn:Ecap; [simpl; eauto|].
  match goal with |- context [match (if ?c then None else ?v) with Some _ => _ | None => _ end] =>
    destruct (if c then None else v) eqn:Ep end; [simpl; eauto|].
  destruct (startAdmission _ _ _ _) as [adm|] eqn:Ead; [|simpl; eauto].
  destruct (storeRun _ _ _ _ _) as [d'|] eqn:E; [|simpl; eauto].
  right. eexists _, d'. split; [reflexivity|]. split; [exact E|]. rewrite Es, <- Ea in *.
  split; [|split; [done|eauto]].
  pose proof E as E'. unfold storeRun in E'. destruct (insertRun _ d) as [d1|] eqn:E1; [|done].
  apply insertRun_fresh in E1 as (_ & Hf & Ho).
  constructor; eauto.
  intros Hr. simpl in *. apply String.eqb_neq in Hr. by rewrite Hr in Ep.
Qed.

Lemma startRun_step uuid wu now owner ch summary o d :
  (forall r, started owner ch (with_class o) d r -> may_insert (db_runs d) r) ->
  db_step d (fst (startRun uuid wu now owner ch summary o d)).
Proof.
  intros Hp. destruct (startRun_cases uuid wu now owner ch summary o d)
    as [[e ->]|(r & d' & -> & E & Hs & _)]; [auto with control|].
  eapply storeRun_step, E. auto.
Qed.
End Runs.

Lemma finishRun_step now tenant run status v payload d :
  db_step d (finishRun now tenant run status v payload d).
Proof.
  unfold finishRun. cbv zeta.
  set (status' := if (status =? "")%string || (status =? "running")%string then "done" else status).
  set (d1 := d <| db_runs := _ |>).
  assert (db_step d d1) as H1.
  { apply step_runs. intros r _. constructor; simpl; auto. intros _. unfold status'.
    case_if; [done|]. by reflect_bools. }
  eapply db_step_trans; [exact H1|].
  destruct (query_row _ (db_runs d1)); case_if; by apply db_step_same.
Qed.

Lemma heartbeat_step now tenant run d : db_step d (UpdateRunHeartbeat now tenant run d).
Proof. apply step_runs. intros r _. by constructor. Qed.

(** ** Approvals *)

Lemma new_request_wf a :
  a_status a = "pending" -> a_waiter_state a = "live" -> a_resume_queue_id a = "" ->
  a_authorization_state a = "" -> decision_of a = no_decision (a_status a) -> approval_wf a.
Proof. intros Hs Hw. apply undecided_wf; [rewrite Hs|rewrite Hw]; simpl; auto. Qed.

Lemma CreateApprovalRequest_step uuid now req d :
  a_status req = "" -> a_waiter_state req = "" ->
  db_step d (fst (CreateApprovalRequest uuid now req d)).
Proof.
  intros Hs Hw. unfold CreateApprovalRequest. cbv zeta. case_if; [auto with control|].
  match goal with |- context [if existsb ?c ?t then _ else _] => destruct (existsb c t) eqn:Ee end;
    [auto with control|].
  eapply db_step_trans; [|apply promote_thread_step]. apply step_new_approval.
  rewrite Hs, Hw. split; [split|done]; [by apply existsb_lookup_None|]. by apply new_request_wf.
Qed.

Lemma returning_step tenant id c f d :
  (forall a, c a = true -> approval_plain a (f a)) -> db_step d (fst (returning tenant id c f d)).
Proof.
  intros H. unfold returning. cbv zeta. destruct (query_row _ _); [by apply step_approvals|].
  destruct (GetApprovalRequest _ _ _); by apply step_approvals.
Qed.

Lemma ExpireApprovalRequest_step now tenant id d : db_step d (fst (ExpireApprovalRequest now tenant id d)).
Proof.
  unfold ExpireApprovalRequest. cbv zeta. case_if; [auto with control|]. apply returning_step.
  intros a Ha. apply andb_true_iff in Ha as [_ Hp]. plain expire_step. by apply a_pending_iff.
Qed.

Lemma ParkApprovalRequest_step now tenant id reason d :
  db_step d (fst (ParkApprovalRequest now tenant id reason d)).
Proof.
  apply returning_step. intros a Ha. apply andb_true_iff in Ha as [Ha Hl].
  apply andb_true_iff in Ha as [_ Hp]. plain park_step; [by apply a_pending_iff|by apply a_live_iff].
Qed.

Lemma ParkOrphanedApprovals_step now d : db_step d (fst (ParkOrphanedApprovals now d)).
Proof.
  apply step_approvals. unfold orphaned_approval. intros a Ha. rewrite !andb_true_iff in Ha.
  destruct Ha as [[[Hp Hl] _] _]. plain park_orphan_step; [by apply a_pending_iff|by apply a_live_iff].
Qed.

Lemma claim_plain now run tenant id a :
  claimable_decision tenant id a = true -> approval_plain a (claimDecision now run a).
Proof.
  unfold claimable_decision. rewrite !andb_true_iff. intros [[[_ Hd] Hl] _].
  plain claim_decision_step; [by apply a_decided_iff|by apply a_live_iff].
Qed.

Lemma releaseHumanWait_step now tenant person run kind ref rel d d' :
  releaseHumanWait now tenant person run kind ref rel d = Ok d' -> db_step d d'.
Proof.
  unfold releaseHumanWait. cbv zeta. case_if; [done|].
  destruct (wr_Prior rel); intros; simplify_eq; by apply db_step_same.
Qed.

Lemma ClaimApprovalDecisionReleasing_step now tenant id run rel d :
  db_step d (fst (ClaimApprovalDecisionReleasing now tenant id run rel d)).
Proof.
  unfold ClaimApprovalDecisionReleasing. cbv zeta. destruct rel as [rel|].
  - destruct (query_row _ _) as [a|].
    + destruct (releaseHumanWait _ _ _ _ _ _ _ _) as [d'|] eqn:E; [|auto with control].
      eapply db_step_trans; [|by eapply releaseHumanWait_step].
      apply step_approvals. intros x. apply claim_plain.
    + destruct (GetApprovalRequest _ _ _); auto with control.
  - apply returning_step. intros x. apply claim_plain.
Qed.

Lemma ClaimApprovalResumeAuthorization_step now tenant person run fp d :
  db_step d (fst (ClaimApprovalResumeAuthorization now tenant person run fp d)).
Proof.
  unfold ClaimApprovalResumeAuthorization. cbv zeta. case_if; [auto with control|].
  destruct (order_by _ _) as [|a l]; [auto with control|]. apply step_approvals.
  intros x Hx. apply andb_true_iff in Hx as [_ Hx]. plain consume_step. by apply String.eqb_eq.
Qed.

Lemma ArchiveStaleParkedApprovals_step now ret d :
  db_step d (fst (ArchiveStaleParkedApprovals now ret d)).
Proof.
  apply step_approvals. unfold stale_parked. intros a Ha. rewrite !andb_true_iff in Ha.
  destruct Ha as [[Hp Hl] _]. plain archive_step; [by apply a_pending_iff|by apply a_parked_iff].
Qed.

Lemma MarkApprovalNotified_step now tenant id d : db_step d (MarkApprovalNotified now tenant id d).
Proof. apply step_approvals. intros a _. plain notified_step. Qed.

Lemma RespondApprovalRequest_step now tenant person id de ch input d :
  db_step d (fst (RespondApprovalRequest now tenant person id de ch input d)).
Proof.
  unfold RespondApprovalRequest. cbv zeta. case_if; [auto with control|]. case_if; [auto with control|].
  destruct (normalizeApprovalDecisionValues de input) as [v|] eqn:Ev; [|auto with control].
  apply normalizeApprovalDecisionValues_wf in Ev.
  match goal with |- context [update_where ?c ?f (db_approvals d)] =>
    assert (db_step d (d <| db_approvals := update_where c f (db_approvals d) |>)) as Hs end.
  { apply step_approvals. intros a Ha. rewrite !andb_true_iff in Ha. destruct Ha as [[_ Hp] Hl].
    plain respond_step; [done|by apply a_pending_iff|by apply a_live_iff]. }
  case_if; [|exact Hs]. destruct (GetApprovalRequest _ _ _) as [[x|]|]; [|exact Hs|exact Hs].
  repeat case_if; exact Hs.
Qed.

(** ** Queue rows *)

Lemma key_free t (q : QueueRow) :
  existsb (fun r => (q_id r =? q_id q)%string) t = false -> lookup_key (key q) t = None.
Proof. apply existsb_lookup_None. Qed.

Lemma exec_op_evolves op t : evolves queue_step new_queue t (exec_op op t).
Proof.
  destruct (exec_op_rows op t) as (g & new & -> & Hg & Hnew).
  assert (forall r, queue_step r (g r)) as Hs by (intros r; destruct (Hg r); by constructor).
  assert (evolves queue_step new_queue t (map g t)) as Hm by (by apply evolves_map).
  destruct Hnew as [->|(uuid & now & q0 & adm & q & a & -> & -> & Hid & Hkey)].
  - by rewrite app_nil_r.
  - constructor; [done|]. set (row := queuedRow _ a).
    assert (forall r, In r (map g t) -> exists r0, In r0 t /\ row_frozen r0 r) as Hin.
    { intros r Hr. apply in_map_iff in Hr as (r0 & <- & Hr0). exists r0. split; [done|]. apply Hs. }
    split; [|split; [|split; [|split]]].
    + apply lookup_key_None. intros r Hr Heq. destruct (Hin r Hr) as (r0 & Hr0 & []).
      apply (Hid r0 Hr0). rewrite <- fr_id. exact Heq.
    + simpl. case_if; reflect_bools; [done|done].
    + done.
    + simpl. apply normalizeTenant_idemp.
    + destruct Hkey as [Hk|Hk]; [by left|right].
      destruct (existsb _ _) eqn:E; [|done]. apply existsb_exists in E as (r & Hr & Hsame).
      destruct (Hin r Hr) as (r0 & Hr0 & []). unfold same_idempotency in Hsame. reflect_bools.
      exfalso. apply (Hk r0 Hr0). split; simpl in *; congruence.
Qed.

(** The insert of a continuation evolves the queue, and yields the identifier of
    a stored row of the same tenant and key. *)
Lemma insertContinuation_evolves row t t' id :
  q_id row <> "" -> q_run_id row = "" -> normalizeTenant (q_tenant_id row) = q_tenant_id row ->
  insertContinuation row t = Ok (t', id) ->
  evolves queue_step new_queue t t' /\
  exists q, In q t' /\ q_id q = id /\ q_tenant_id q = q_tenant_id row /\
            q_idempotency_key q = q_idempotency_key row /\
            (existsb (same_idempotency (q_tenant_id row) (q_idempotency_key row)) t = false -> q = row).
Proof.
  intros Hi Hr Ht. unfold insertContinuation. cbv zeta.
  set (same := same_idempotency _ _).
  assert (forall l x, query_row same l = Some x ->
     In x l /\ q_tenant_id x = q_tenant_id row /\ q_idempotency_key x = q_idempotency_key row) as Hq.
  { intros l x E. apply find_some in E as [Hx E]. unfold same, same_idempotency in E. reflect_bools. done. }
  destruct (negb _ && existsb same t) eqn:Ek.
  - destruct (query_row same t) as [x|] eqn:E; [|done]. intros; simplify_eq.
    destruct (Hq _ _ E) as (? & ? & ?). split; [constructor|]. exists x. repeat split; auto.
    intros Hf. apply andb_true_iff in Ek as [_ Ek]. congruence.
  - destruct (existsb (fun r => (q_id r =? q_id row)%string) t) eqn:Ei; [done|].
    destruct (query_row same (t ++ [row])) as [x|] eqn:E; [|done]. intros; simplify_eq.
    destruct (Hq _ _ E) as (? & ? & ?). split.
    + apply evolves_insert. split; [by apply key_free|]. repeat (split; [done|]).
      apply andb_false_iff in Ek as [Ek|Ek]; [left; by reflect_bools|by right].
    + exists x. repeat split; auto. intros Hf. unfold query_row in E.
      assert (List.find same t = None) as Hn.
      { destruct (List.find same t) eqn:E'; [|done]. apply find_some in E' as [Hin Hs].
        eapply existsb_false_In in Hf; [|exact Hin]. congruence. }
      revert E. clear -Hn. induction t as [|y t IH]; simpl in *.
      * case_if; intros; by simplify_eq.
      * destruct (same y); [done|]. auto.
Qed.

Lemma resumeRow_fields uuid now tenant person a c k content task reply q rep nb adm :
  let p := prepareResume uuid now tenant person a c k content task reply q in
  q_id (resumeRow p rep nb adm) <> "" /\ q_run_id (resumeRow p rep nb adm) = "" /\
  q_tenant_id (resumeRow p rep nb adm) = tenant.
Proof. simpl. split; [|done]. case_if; by reflect_bools. Qed.

(** ** Clarifications *)

Lemma CreateClarifyRequest_step uuid now req d :
  c_status req = "" -> db_step d (fst (CreateClarifyRequest uuid now req d)).
Proof.
  intros Hs. unfold CreateClarifyRequest. cbv zeta. case_if; [auto with control|].
  case_if; [auto with control|].
  match goal with |- context [if existsb ?c ?t then _ else _] => destruct (existsb c t) eqn:Ee end;
    [auto with control|].
  eapply db_step_trans; [|apply promote_thread_step]. apply step_new_clarify.
  split; [by apply existsb_lookup_None|]. simpl. by rewrite Hs.
Qed.

Lemma appendClarifyAnsweredEvent_step uuid now c ch d :
  db_step d (appendClarifyAnsweredEvent uuid now c ch d).
Proof.
  unfold appendClarifyAnsweredEvent. destruct c; [|auto with control].
  case_if; [auto with control|]. apply AppendEvent_step.
Qed.

(** A pending question may be settled in any way. *)
Lemma pending_clarify_step c c' :
  c_pending c = true -> c_id c' = c_id c -> c_tenant_id c' = c_tenant_id c ->
  c_person_id c' = c_person_id c -> c_run_id c' = c_run_id c -> c_thread_id c' = c_thread_id c ->
  c_question c' = c_question c -> c_options c' = c_options c -> clarify_step c c'.
Proof.
  intros Hp%String.eqb_eq. constructor; auto. congruence.
Qed.

Lemma own_pending_pending tn p id c : own_pending tn p id c = true -> c_pending c = true.
Proof. unfold own_pending. rewrite !andb_true_iff. tauto. Qed.

Lemma AnswerClarifyRequest_step uuid now tenant person id answer ch d :
  db_step d (fst (AnswerClarifyRequest uuid now tenant person id answer ch d)).
Proof.
  unfold AnswerClarifyRequest. cbv zeta. do 3 (case_if; [auto with control|]).
  destruct (unanswerable _ _ _); [auto with control|].
  match goal with |- context [update_where ?c ?f (db_clarifies d)] =>
    assert (db_step d (d <| db_clarifies := update_where c f (db_clarifies d) |>)) as Hs end.
  { apply step_clarifies. intros c Hc%own_pending_pending. by apply pending_clarify_step. }
  match goal with |- context [fst (match ?o with Some _ => _ | None => _ end)] => destruct o end.
  - exact Hs.
  - eapply db_step_trans; [exact Hs|apply appendClarifyAnsweredEvent_step].
Qed.

Lemma expireUnavailable_step now tenant person id reason d o d' :
  expireUnavailable now tenant person id reason d = Commit o d' -> db_step d d'.
Proof.
  unfold expireUnavailable. cbv zeta. case_if; [done|]. intros; simplify_eq. apply step_clarifies.
  intros c Hc%own_pending_pending. by apply pending_clarify_step.
Qed.

Lemma settleAnswer_step now tenant person id answer ch queued d o d' :
  settleAnswer now tenant person id answer ch queued d = Commit o d' -> db_step d d'.
Proof.
  unfold settleAnswer. cbv zeta. case_if; [done|]. intros; simplify_eq. apply step_clarifies.
  intros c Hc%own_pending_pending. by apply pending_clarify_step.
Qed.

Lemma enqueueClarifyResume_evolves uuid now tenant person task id answer r q d queue queued :
  normalizeTenant tenant = tenant ->
  enqueueClarifyResume uuid now tenant person task id answer r q d = Ok (queue, queued) ->
  evolves queue_step new_queue (db_queue d) queue.
Proof.
  intros Ht. unfold enqueueClarifyResume. case_if; [done|]. cbv zeta.
  destruct (parkedRunAdmissionJSON _ _); [|done].
  destruct (insertContinuation _ _) as [[t' i]|] eqn:E; [|done]. intros; simplify_eq.
  eapply insertContinuation_evolves in E as [E _]; [done| |done|done]. apply resumeRow_fields.
Qed.

Lemma answerWithResumeTx_step uuid now tenant person id answer ch q d o d' :
  normalizeTenant tenant = tenant ->
  answerWithResumeTx uuid now tenant person id answer ch q d = Commit o d' -> db_step d d'.
Proof.
  intros Ht. unfold answerWithResumeTx. cbv zeta. destruct (query_row _ (db_clarifies d)) as [c|]; [|done].
  case_if; [done|]. case_if; [apply settleAnswer_step|].
  destruct (query_row _ (db_runs d)) as [r|]; [|apply expireUnavailable_step].
  case_if; [apply expireUnavailable_step|]. case_if; [apply settleAnswer_step|].
  case_if; [apply expireUnavailable_step|]. case_if; [apply expireUnavailable_step|].
  destruct (enqueueClarifyResume _ _ _ _ _ _ _ _ _ _) as [[queue queued]|] eqn:E; [|done].
  intros Hs. eapply db_step_trans; [|by eapply settleAnswer_step].
  apply step_queue. by eapply enqueueClarifyResume_evolves.
Qed.

Lemma AnswerClarifyRequestWithResume_step uuid ev now tenant person id answer ch q d :
  db_step d (fst (AnswerClarifyRequestWithResume uuid ev now tenant person id answer ch q d)).
Proof.
  unfold AnswerClarifyRequestWithResume. cbv zeta. case_if; [auto with control|].
  destruct (answerWithResumeTx _ _ _ _ _ _ _ _ d) as [o d'|r] eqn:E; simpl.
  - assert (db_step d d') as Hs by (eapply answerWithResumeTx_step, E; apply normalizeTenant_idemp).
    destruct o; [exact Hs|]. eapply db_step_trans; [exact Hs|apply appendClarifyAnsweredEvent_step].
  - destruct r as [[|]|]; [auto with control| |auto with control]. apply appendClarifyAnsweredEvent_step.
Qed.

Lemma MarkClarifyNotified_step now tenant id d : db_step d (MarkClarifyNotified now tenant id d).
Proof. apply step_clarifies. intros c _. by constructor. Qed.

Lemma ExpireClarifyRequest_step now tenant id d : db_step d (ExpireClarifyRequest now tenant id d).
Proof.
  apply step_clarifies. intros c [_ Hc]%andb_true_iff. by apply pending_clarify_step.
Qed.

Lemma ExpireOrphanedClarifies_step now d : db_step d (fst (ExpireOrphanedClarifies now d)).
Proof.
  apply step_clarifies. unfold orphaned_clarify. intros c Hc. rewrite !andb_true_iff in Hc.
  apply pending_clarify_step; tauto.
Qed.

(** ** Waits and recovery *)

Lemma SaveLoopCheckpoint_step now rec d : db_step d (fst (SaveLoopCheckpoint now rec d)).
Proof.
  unfold SaveLoopCheckpoint. cbv zeta.
  destruct (checkLoopCheckpointWait _ _ _); [auto with control|by apply db_step_same].
Qed.

Lemma ReleaseHumanWait_step now tenant person run kind ref rel d :
  db_step d (fst (ReleaseHumanWait now tenant person run kind ref rel d)).
Proof.
  unfold ReleaseHumanWait. destruct (releaseHumanWait _ _ _ _ _ _ _ _) eqn:E; [|auto with control].
  by eapply releaseHumanWait_step.
Qed.

Lemma parkRequest_step now tenant person run kind ref reason d n d' :
  parkRequest now tenant person run kind ref reason d = Ok (n, d') -> db_step d d'.
Proof.
  unfold parkRequest. cbv zeta. case_if; [|case_if; [|done]]; intros; simplify_eq.
  - apply step_approvals. unfold waiting_approval. intros a Ha. rewrite !andb_true_iff in Ha.
    destruct Ha as [[_ Hp] Hl]. plain park_step; [by apply a_pending_iff|by apply a_live_iff].
  - apply step_clarifies. intros c _. by constructor.
Qed.

Lemma ParkHumanWaitRun_step now tenant person run kind ref reason d :
  db_step d (fst (ParkHumanWaitRun now tenant person run kind ref reason d)).
Proof.
  unfold ParkHumanWaitRun. cbv zeta. case_if; [auto with control|].
  destruct (parkRequest _ _ _ _ _ _ _ d) as [[n d1]|] eqn:E; [|auto with control].
  case_if; [auto with control|]. case_if; [auto with control|].
  eapply db_step_trans; [by eapply parkRequest_step|]. apply step_runs. intros r _. by constructor.
Qed.

Lemma fold_step {A} (f : DB * nat -> A -> DB * nat) (l : list A) :
  (forall s x, db_step (fst s) (fst (f s x))) -> forall s, db_step (fst s) (fst (fold_left f l s)).
Proof.
  intros Hf. induction l as [|x l IH]; intros s; simpl; [auto with control|].
  eapply db_step_trans; [apply Hf|apply IH].
Qed.

Lemma AppendApprovalParkedEvent_step uuid now a ch reason d :
  db_step d (fst (AppendApprovalParkedEvent uuid now a ch reason d)).
Proof.
  unfold AppendApprovalParkedEvent. cbv zeta. case_if; [auto with control|].
  match goal with |- context [AppendEvent ?u ?n ?e d] => pose proof (AppendEvent_step u n e d) as Hs;
    destruct (AppendEvent u n e d) end. exact Hs.
Qed.

Definition interruptAll (now : Time) (runs t : list Run) : list Run :=
  fold_left (fun t r => update_where (fun x => run_at (run_tenant_id r) (run_id r) x
                                     && (run_status x =? "running")%string) (interruptRun now) t) runs t.

Lemma interruptAll_evolves now runs : forall t, evolves run_step may_insert t (interruptAll now runs t).
Proof.
  induction runs as [|r runs IH]; intros t; [constructor|].
  eapply evolves_trans; [|apply IH].
  apply evolves_update; [apply run_step_refl|]. intros x _ _. by constructor.
Qed.

Lemma MarkInterruptedRuns_step ids1 ids2 now old ex d :
  db_step d (fst (MarkInterruptedRuns ids1 ids2 now old ex d)).
Proof.
  unfold MarkInterruptedRuns. cbv zeta.
  set (runs := select_where _ (db_runs d)). set (d1 := d <| db_runs := _ |>).
  assert (db_step d d1) as H1 by (one_table; apply interruptAll_evolves).
  set (d2 := appendAll _ _ _ d1).
  assert (db_step d1 d2) as H2.
  { apply (fold_step (fun s e => (fst (AppendEvent (ids1 (snd s)) now e (fst s)), S (snd s))) _
             (fun s x => AppendEvent_step _ _ _ _) (d1, 0%nat)). }
  pose proof (ParkOrphanedApprovals_step now d2) as H3.
  destruct (ParkOrphanedApprovals now d2) as [d3 parked]. simpl in H3.
  eapply db_step_trans; [exact H1|]. eapply db_step_trans; [exact H2|].
  eapply db_step_trans; [exact H3|]. cbn [fst].
  eapply db_step_trans; [|apply ExpireOrphanedClarifies_step].
  apply (fold_step (fun s a => (fst (AppendApprovalParkedEvent (ids2 (snd s)) now a
           (a_requested_channel a) orphanReason (fst s)), S (snd s))) _
             (fun s x => AppendApprovalParkedEvent_step _ _ _ _ _ _) (d3, 0%nat)).
Qed.
End Steps.

#[export] Hint Resolve db_step_refl approval_plain_refl clarify_step_refl queue_step_refl run_step_refl : control.
