(* ===== verification/FinalizationSteps.v ===== *)
(** * What a finalization does to the control database

    Every stage of [MaterializeRunFinalization] is a step of [ControlSteps], and
    so is the committed transaction. *)

From stdpp Require Import base tactics list strings.
From Stdlib Require Import ZArith Lia Bool String List Sorted.
From S2P Require Import Prelude GoLib Sql Evolution Admission Store Queue Maintenance Database RunStart Checkpoints Approvals Clarify Cancellation Continuation Finalization Control ApprovalTheory ControlSteps.

Lemma normalizeFinalization_status f : fz_RunStatus (normalizeFinalization f) <> "running".
Proof.
  unfold normalizeFinalization. cbn [fz_RunStatus]. cbv zeta.
  destruct (one_of ["";"running";"in_progress"] (fz_RunStatus f)) eqn:E; [done|].
  intros Hs. simpl in Hs. by rewrite Hs in E.
Qed.

Lemma normalizeFinalization_key f : fz_EventKey (normalizeFinalization f) <> "".
Proof. simpl. case_if; [done|]. by reflect_bools. Qed.

(** ** The finalization that is carried through

    Only the completion review changes it, and only its payload. *)

Section Carried.
Context `{FinalizeEnv}.

Lemma materializeCompletionTx_payload now tenant person f d d' f' :
  materializeCompletionTx now tenant person f d = Ok (d', f') ->
  exists p, f' = f <| fz_EventPayload := p |>.
Proof.
  unfold materializeCompletionTx. destruct (fz_Completion f) as [c|].
  - case_if; [done|]. destruct (completionTx _ _ _) as [[[units events] p]|]; [|done].
    destruct (importEvents _ _ _ _ _ _) as [d1|]; [|done]. intros; simplify_eq. by exists p.
  - intros; simplify_eq. exists (fz_EventPayload f'). by destruct f'.
Qed.

(** The stages of a transaction that reaches the events, with the database
    between them. *)
Record finalize_stages (ids : FinalizationIDs) (now : Time) (tenant : string) (f f' : RunFinalization)
    (dup : bool) (person : string) (r : Run) (d d1 d2 d4 d5 d6 d7 d8 d' : DB) : Prop := {
  fs_owner : finalizationOwner tenant f d = Ok (person, r);
  fs_stop : stopRefuses f r = false;
  fs_completion : materializeCompletionTx now tenant person f d = Ok (d1, f');
  fs_payload : exists p, f' = f <| fz_EventPayload := p |>;
  fs_withdraw : withdrawCancelledTx (fi_withdrawn ids) now tenant person f' d1 = Ok d2;
  fs_checkpoint : requireCheckpointTx tenant person f' d2 = Ok d2;
  fs_effect : dup = snd (claimEffectTx now tenant f' d2);
  fs_wait : correctResourceWaitTx now tenant person f' (fst (claimEffectTx now tenant f' d2)) = Ok d4;
  fs_run : updateRunTx now tenant f' d4 = Ok d5;
  fs_wake : enqueueWakeTx (fi_queue ids) now tenant person f' d5 = Ok d6;
  fs_thread : touchFinishedThread now tenant dup f' (finalizeRunSkillLifecycleTx now f' d6) = Ok d7;
  fs_promote : (if shouldPromoteThreadAtFinalization f' d7
                then promoteThreadForRunTx now tenant (fz_RunID f') d7 else Ok d7) = Ok d8;
  fs_records :
    let d9 := if dup || (fz_AnalyzerVersion f' <=? 0)%Z then d8
              else d8 <| db_maintenance := createMaintenanceJobTx now tenant (fz_RunID f')
                           (fz_AnalyzerVersion f') (fz_MaintenancePayload f') (db_maintenance d8) |> in
    let d10 := if dup then d9 else recordMessage now tenant person f' d9 in
    d' = recordHandoff now dup f' d10
}.

Lemma finalizeRowsTx_stages ids now tenant f d d' f' dup :
  finalizeRowsTx ids now tenant f d = Ok (d', (f', dup)) ->
  exists person r d1 d2 d4 d5 d6 d7 d8,
    finalize_stages ids now tenant f f' dup person r d d1 d2 d4 d5 d6 d7 d8 d'.
Proof.
  unfold finalizeRowsTx. cbv zeta.
  destruct (finalizationOwner _ _ _) as [[person r]|] eqn:E0; [|done]. simpl.
  destruct (stopRefuses f r) eqn:Es; [done|].
  destruct (materializeCompletionTx _ _ _ _ _) as [[d1 f1]|] eqn:E1; [|done]. simpl.
  destruct (withdrawCancelledTx _ _ _ _ _ _) as [d2|] eqn:E2; [|done].
  destruct (requireCheckpointTx _ _ _ _) as [d3|] eqn:E3; [|done].
  destruct (correctResourceWaitTx _ _ _ _ _) as [d4|] eqn:E4; [|done].
  destruct (updateRunTx _ _ _ _) as [d5|] eqn:E5; [|done].
  destruct (enqueueWakeTx _ _ _ _ _ _) as [d6|] eqn:E6; [|done].
  destruct (touchFinishedThread _ _ _ _ _) as [d7|] eqn:E7; [|done].
  match goal with |- context [match ?o with Ok _ => _ | Err _ => _ end] => destruct o as [d8|] eqn:E8 end; [|done].
  intros; simplify_eq.
  assert (d3 = d2) as -> by (revert E3; unfold requireCheckpointTx; cbv zeta; case_if; by intros [=]).
  exists person, r, d1, d2, d4, d5, d6, d7, d8. by constructor; eauto using materializeCompletionTx_payload.
Qed.
End Carried.

Section Steps.
Context (may_insert : list Run -> Run -> Prop).
Context `{FinalizeEnv}.
Abbreviation db_step := (db_step may_insert).

(** A stage that leaves the tables of [db_step] alone. *)
Ltac quiet := intros; simplify_eq; by apply db_step_same.

Lemma materializeCompletionTx_step now tenant person f d d' f' :
  materializeCompletionTx now tenant person f d = Ok (d', f') ->
  db_step d d'.
Proof.
  unfold materializeCompletionTx. destruct (fz_Completion f) as [c|].
  - case_if; [done|]. destruct (completionTx _ _ _) as [[[units events] p]|]; [|done].
    destruct (importEvents _ _ _ _ _ _) as [d1|] eqn:E; [|done]. intros; simplify_eq.
    eapply db_step_trans; [|by eapply importEvents_step]. by apply db_step_same.
  - intros; simplify_eq. apply db_step_refl.
Qed.

Lemma withdrawCancelledTx_step ids now tenant person f d d' :
  withdrawCancelledTx ids now tenant person f d = Ok d' -> db_step d d'.
Proof.
  unfold withdrawCancelledTx. case_if; [intros; simplify_eq; apply db_step_refl|].
  pose proof (expireRunHumanRequestsTx_step may_insert now tenant person (fz_RunID f)
                "Run execution was cancelled" d) as Hs.
  destruct (expireRunHumanRequestsTx _ _ _ _ _ d) as [events d1]. simpl in Hs. cbv zeta.
  destruct (insertScopedEventsTx _ _ _ _ _ _ _) as [[d3 es]|] eqn:E; [|done]. intros; simplify_eq.
  eapply db_step_trans; [exact Hs|]. eapply db_step_trans; [apply cancelUnbound_step|].
  eapply insertScopedEventsFrom_step, E.
Qed.

Lemma requireCheckpointTx_same tenant person f d d' : requireCheckpointTx tenant person f d = Ok d' -> d' = d.
Proof. unfold requireCheckpointTx. cbv zeta. case_if; [done|]. by intros; simplify_eq. Qed.

Lemma claimEffectTx_step now tenant f d : db_step d (fst (claimEffectTx now tenant f d)).
Proof.
  unfold claimEffectTx. case_if; [apply db_step_refl|].
  destruct (insert_or_ignore _ _ _). by apply db_step_same.
Qed.

Lemma correctResourceWaitTx_step now tenant person f d d' :
  correctResourceWaitTx now tenant person f d = Ok d' -> db_step d d'.
Proof.
  unfold correctResourceWaitTx. destruct (fz_ResourceWait f); [|quiet]. cbv zeta.
  case_if; [done|]. destruct (query_row _ _); [|done]. case_if; [done|].
  destruct (externalResourceBlockers _ _ _ _ _) as [[n b]|]; [|done].
  case_if; [done|]. case_if; [done|]. quiet.
Qed.

Lemma finished_step now status r : status <> "running" -> run_step r (finished now status r).
Proof. intros Hs. by constructor. Qed.

Lemma updateRunTx_step now tenant f d d' :
  fz_RunStatus f <> "running" -> updateRunTx now tenant f d = Ok d' -> db_step d d'.
Proof.
  intros Hs. unfold updateRunTx. cbv zeta. case_if; [done|]. intros; simplify_eq.
  apply step_runs. intros r _. by apply finished_step.
Qed.

Lemma insertQueueRow_evolves row t t' :
  q_id row <> "" -> q_run_id row = "" -> normalizeTenant (q_tenant_id row) = q_tenant_id row ->
  insertQueueRow row t = Ok t' -> t' = t ++ [row] /\ evolves queue_step new_queue t t'.
Proof.
  intros Hi Hr Ht. unfold insertQueueRow. case_if; [done|]. case_if; [done|]. intros; simplify_eq.
  split; [done|]. apply evolves_insert. split; [by apply key_free|]. repeat (split; [done|]).
  apply andb_false_iff in Heqb0 as [E|E]; [left; by reflect_bools|by right].
Qed.

Lemma consumeSourceRow_evolves tenant person f t t' :
  consumeSourceRow tenant person f t = Ok t' -> evolves queue_step new_queue t t'.
Proof.
  unfold consumeSourceRow. cbv zeta. case_if; [intros; simplify_eq; constructor|].
  case_if; [done|]. case_if; [done|]. intros; simplify_eq.
  apply evolves_update; [apply queue_step_refl|]. intros q _ _. by constructor.
Qed.

Lemma wakeRow_id qid now tenant person q r adm : q_id (wakeRow qid now tenant person q r adm) <> "".
Proof. simpl. case_if; by reflect_bools. Qed.

Lemma enqueueWakeTx_step qid now tenant person f d d' :
  normalizeTenant tenant = tenant -> enqueueWakeTx qid now tenant person f d = Ok d' -> db_step d d'.
Proof.
  intros Ht. unfold enqueueWakeTx. destruct (fz_Continuation f) as [q|]; [|quiet].
  case_if; [done|]. case_if; [done|]. destruct (query_row _ _) as [r|]; [|done].
  destruct (parkedRunAdmissionJSON _ _); [|done]. cbv zeta. case_if; [done|]. case_if; [done|].
  destruct (insertQueueRow _ _) as [t|] eqn:E1; [|done].
  destruct (consumeSourceRow _ _ _ t) as [t'|] eqn:E2; [|done]. intros; simplify_eq.
  apply step_queue. apply insertQueueRow_evolves in E1 as [_ E1]; [|apply wakeRow_id|done|done].
  eapply evolves_trans; [exact E1|by eapply consumeSourceRow_evolves].
Qed.

Lemma touchFinishedThread_step now tenant dup f d d' :
  touchFinishedThread now tenant dup f d = Ok d' -> db_step d d'.
Proof. unfold touchFinishedThread. cbv zeta. case_if; [quiet|]. case_if; [done|quiet]. Qed.

Lemma promoteThreadForRunTx_step now tenant run d d' :
  promoteThreadForRunTx now tenant run d = Ok d' -> db_step d d'.
Proof.
  unfold promoteThreadForRunTx.
  assert (db_step d (fst (execPromoteThreadForRunTx now tenant run d))) as Hs.
  { unfold execPromoteThreadForRunTx. cbv zeta.
    destruct (query_row _ _); [by apply db_step_same|apply db_step_refl]. }
  destruct (execPromoteThreadForRunTx now tenant run d) as [d1 n]. simpl in Hs.
  repeat case_if; intros; by simplify_eq.
Qed.

Lemma recordMessage_step now tenant person f d : db_step d (recordMessage now tenant person f d).
Proof. unfold recordMessage. case_if; [apply db_step_refl|by apply db_step_same]. Qed.

Lemma finalizeRowsTx_step ids now tenant f d d' f' dup :
  normalizeTenant tenant = tenant -> fz_RunStatus f <> "running" ->
  finalizeRowsTx ids now tenant f d = Ok (d', (f', dup)) -> db_step d d'.
Proof.
  intros Ht Hs E.
  apply finalizeRowsTx_stages in E as (person & r & d1 & d2 & d4 & d5 & d6 & d7 & d8 & []).
  assert (fz_RunStatus f' <> "running") as Hs' by (destruct fs_payload0 as [p ->]; exact Hs).
  eapply db_step_trans; [by eapply materializeCompletionTx_step|].
  eapply db_step_trans; [by eapply withdrawCancelledTx_step|].
  eapply db_step_trans; [apply claimEffectTx_step|]. eapply db_step_trans; [by eapply correctResourceWaitTx_step|].
  eapply db_step_trans; [by eapply updateRunTx_step|]. eapply db_step_trans; [by eapply enqueueWakeTx_step|].
  apply (db_step_trans _ _ (finalizeRunSkillLifecycleTx now f' d6)); [by apply db_step_same|].
  eapply db_step_trans; [by eapply touchFinishedThread_step|].
  apply (db_step_trans _ _ d8).
  { revert fs_promote0. case_if; [apply promoteThreadForRunTx_step|]. intros; simplify_eq. apply db_step_refl. }
  cbv zeta in fs_records0. subst d'.
  match goal with |- db_step _ (recordHandoff _ _ _ ?x) => apply (db_step_trans _ _ x); [|by apply db_step_same] end.
  repeat case_if; try apply db_step_refl; try apply recordMessage_step; try (by apply db_step_same).
  all: eapply db_step_trans; [|apply recordMessage_step]; by apply db_step_same.
Qed.

Lemma insertEventIgnore_step e d d' stored :
  ev_cursor e = (db_next_cursor d + 1)%Z -> insertEventIgnore e d = Ok (d', stored) -> db_step d d'.
Proof.
  intros Hc. unfold insertEventIgnore. case_if; [done|]. case_if; intros; simplify_eq; [|by apply step_event].
  split; try (by apply evolves_eq). intros [S B I K]. split; [|exists []; by rewrite app_nil_r].
  constructor; try done. simpl. intros x Hx. specialize (B x Hx). lia.
Qed.

Lemma appendOutcomeTx_step uuid now f p d d' : appendOutcomeTx uuid now f p d = Ok d' -> db_step d d'.
Proof.
  unfold appendOutcomeTx. destruct (outcomeFromTerminalPayload p); [|quiet]. cbv zeta.
  case_if; [quiet|]. destruct (insertEventIgnore _ _) as [[d1 b]|] eqn:E; [|done].
  intros; simplify_eq. by eapply insertEventIgnore_step in E.
Qed.

End Steps.

Section Transaction.
Context `{FinalizeEnv}.

(** A committed transaction: the rows, then the outcome, then the marker. *)
Lemma finalizeTx_Some ids now tenant f d d' e :
  finalizeTx ids now tenant f d = Ok (Some (d', e)) ->
  exists d1 d2 p dup, let f' := f <| fz_EventPayload := p |> in
    finalizeRowsTx ids now tenant f d = Ok (d1, (f', dup)) /\
    appendOutcomeTx (fi_outcome ids) now f' (terminalPayload dup f') d1 = Ok d2 /\
    e = terminalEvent (fi_terminal ids) now f' (terminalPayload dup f') d2 /\
    event_id_taken (ev_id e) d2 = false /\ event_key_taken (ev_idempotency_key e) d2 = false /\
    d' = store_event e d2.
Proof.
  unfold finalizeTx. destruct (finalizeRowsTx _ _ _ _ _) as [[d1 [f1 dup]]|] eqn:E1; [|done].
  destruct (appendOutcomeTx _ _ _ _ _) as [d2|] eqn:E2; [|done]. cbv zeta. unfold insertEventIgnore.
  destruct (event_id_taken _ _) eqn:Ei; [done|]. destruct (event_key_taken _ _) eqn:Ek; [done|].
  intros; simplify_eq.
  assert (exists p, f1 = f <| fz_EventPayload := p |>) as [p ->].
  { apply finalizeRowsTx_stages in E1 as (? & ? & ? & ? & ? & ? & ? & ? & ? & []). done. }
  by exists d1, d2, p, dup.
Qed.

Lemma finalizeTx_step (may_insert : list Run -> Run -> Prop) ids now tenant f d d' e :
  normalizeTenant tenant = tenant -> fz_RunStatus f <> "running" ->
  finalizeTx ids now tenant f d = Ok (Some (d', e)) -> db_step may_insert d d'.
Proof.
  intros Ht Hs (d1 & d2 & p & dup & E1 & E2 & -> & Hi & Hk & ->)%finalizeTx_Some.
  apply (finalizeRowsTx_step may_insert) in E1 as S1; [|done|done].
  eapply db_step_trans; [exact S1|]. eapply db_step_trans; [by eapply appendOutcomeTx_step|].
  by apply step_event.
Qed.

(** A finalization leaves the database alone or commits. *)
Lemma MaterializeRunFinalization_cases ids now input d :
  let f := normalizeFinalization input in
  (exists r, MaterializeRunFinalization ids now input d = (d, r)) \/
  exists d' e, MaterializeRunFinalization ids now input d = (d', Ok e) /\
    finalizeTx ids now (normalizeTenant (fz_TenantID f)) f d = Ok (Some (d', e)).
Proof.
  intros f. unfold MaterializeRunFinalization. cbv zeta. fold f.
  do 3 (case_if; [eauto|]). destruct (eventByIdempotencyKey _ _) as [x|].
  - destruct (fz_Completion f); [case_if|]; eauto.
  - destruct (finalizeTx _ _ _ _ _) as [[[d' e]|]|]; eauto.
Qed.

Lemma MaterializeRunFinalization_step may_insert ids now input d :
  db_step may_insert d (fst (MaterializeRunFinalization ids now input d)).
Proof.
  destruct (MaterializeRunFinalization_cases ids now input d) as [[r ->]|(d' & e & -> & E)];
    [apply db_step_refl|].
  eapply finalizeTx_step, E; [apply normalizeTenant_idemp|apply normalizeFinalization_status].
Qed.
End Transaction.
