(* ===== verification/ControlTheory.v ===== *)
(** * Properties of the Run lifecycle

    What holds of the control database across every history of its operations:
    well-formedness ([db_wf]), the finality of human decisions, one-shot
    authorizations, continuation rows, exclusive continuations, capacity, and
    what a stop withdraws. *)

From stdpp Require Import base tactics list strings.
From Stdlib Require Import ZArith Lia Bool String List Sorted.
From S2P Require Import Prelude GoLib Sql Evolution Admission Store Queue QueueTheory Maintenance Database RunStart Checkpoints Approvals Clarify Cancellation Continuation Finalization Control ApprovalTheory ControlSteps FinalizationSteps.

(** ** Runs and their parents *)

(** [p] is the Run [r] continues. *)
Record is_parent (p r : Run) : Prop := {
  ip_id : run_id p = run_resumes_run_id r;
  ip_tenant : run_tenant_id p = run_tenant_id r;
  ip_person : run_person_id p = run_person_id r;
  ip_thread : run_thread_id p = run_thread_id r;
  ip_class : run_execution_class p = "work";
  ip_stopped : run_status p <> "running"
}.

Record run_wf (r : Run) : Prop := {
  rw_id : run_id r <> "";
  rw_class : run_execution_class r = "work" \/
    run_execution_class r = "coordination" /\ run_resumes_run_id r = "" /\ run_thread_id r = "";
  rw_legacy : run_resumed_by_run_id r = "";
  rw_roots : exists roots, run_execution_roots r = JVal roots;
  rw_thread : TrimSpace (run_thread_id r) = run_thread_id r
}.

(** What every inserted Run satisfies. *)
Record new_run (t : list Run) (r : Run) : Prop := {
  nr_fresh : lookup_key (key r) t = None;
  nr_wf : run_wf r;
  nr_parent : run_resumes_run_id r = "" \/
    has_child (run_tenant_id r) (run_resumes_run_id r) t = false /\
    exists p, In p t /\ is_parent p r
}.

Record lineage_wf (t : list Run) : Prop := {
  lw_single : forall r r', In r t -> In r' t -> run_resumes_run_id r <> "" ->
    run_tenant_id r = run_tenant_id r' -> run_resumes_run_id r = run_resumes_run_id r' -> r = r';
  (** in some order of the Runs, a Run comes after the one it continues *)
  lw_ranked : exists rank : string -> nat, forall r, In r t -> run_resumes_run_id r <> "" ->
    exists p, In p t /\ is_parent p r /\ (rank (run_id p) < rank (run_id r))%nat
}.

Lemma lw_parent t r : lineage_wf t -> In r t -> run_resumes_run_id r <> "" -> exists p, In p t /\ is_parent p r.
Proof. intros [_ [rank H]] Hr Hn. destruct (H r Hr Hn) as (p & ? & ? & _). eauto. Qed.

(** ** Well-formed databases *)

Record db_wf (d : DB) : Prop := {
  wf_approvals : Forall approval_wf (db_approvals d);
  wf_approval_ids : keys_unique (db_approvals d);
  wf_clarify_ids : keys_unique (db_clarifies d);
  wf_queue : queue_wf (db_queue d);
  wf_queue_ids : Forall (fun q => q_id q <> "") (db_queue d);
  wf_run_ids : keys_unique (db_runs d);
  wf_runs : Forall run_wf (db_runs d);
  wf_lineage : lineage_wf (db_runs d);
  wf_links : forall a, In a (db_approvals d) -> a_resume_queue_id a <> "" ->
    exists q, In q (db_queue d) /\ q_id q = a_resume_queue_id a /\ q_tenant_id q = a_tenant_id a;
  wf_events : events_wf (db_events d) (db_next_cursor d)
}.

Lemma emptyDB_wf m : db_wf (emptyDB m).
Proof.
  assert (lineage_wf []) as L by (constructor; [done|by exists (fun _ => 0%nat)]).
  constructor; simpl; try done; by repeat constructor.
Qed.

(** ** What an operation does

    The inserted Runs satisfy [may_insert], and so [new_run]. *)

Section Evolution.
Context (may_insert : list Run -> Run -> Prop).
Context (may_insert_new : forall t r, may_insert t r -> new_run t r).

(** What an operation, or a history, does to the tables. *)
Record db_evolves (d d' : DB) : Prop := {
  de_approvals : approvals_evolve (db_approvals d) (db_approvals d');
  de_clarifies : evolves clarify_step new_clarify (db_clarifies d) (db_clarifies d');
  de_queue : evolves queue_step new_queue (db_queue d) (db_queue d');
  de_runs : evolves run_step may_insert (db_runs d) (db_runs d');
  de_events : exists new, db_events d' = db_events d ++ new
}.

Lemma db_evolves_refl d : db_evolves d d.
Proof. split; try constructor. exists []. by rewrite app_nil_r. Qed.

Lemma db_evolves_trans d1 d2 d3 : db_evolves d1 d2 -> db_evolves d2 d3 -> db_evolves d1 d3.
Proof.
  intros [A1 C1 Q1 R1 [n1 E1]] [A2 C2 Q2 R2 [n2 E2]]. split; try (by eapply evolves_trans).
  exists (n1 ++ n2). by rewrite E2, E1, app_assoc.
Qed.

Lemma db_step_evolves d d' : events_wf (db_events d) (db_next_cursor d) ->
  db_step may_insert d d' -> db_evolves d d'.
Proof.
  intros Hw [A C Q R E]. split; try done; [|by apply E].
  eapply evolves_weaken, A; [by intros ? ? []|by intros ? ? []].
Qed.

(** *** Preservation, table by table *)

Lemma queue_evolves_wf t t' :
  evolves queue_step new_queue t t' ->
  queue_wf t /\ Forall (fun q => q_id q <> "") t -> queue_wf t' /\ Forall (fun q => q_id q <> "") t'.
Proof.
  intros Hev Ht. induction Hev as [|g t' _ IH Hg|q t' _ IH (Hk & Hi & _ & Hn & Hu)]; [done| |];
    destruct IH as [[U K N] I].
  - split; [constructor|].
    + unfold keys_unique. erewrite map_step_key; [exact U|apply queue_step_key|done].
    + intros x y Hx Hy. apply in_map_iff in Hx as (r & <- & Hr). apply in_map_iff in Hy as (r' & <- & Hr').
      destruct (Hg r Hr) as [[] _], (Hg r' Hr') as [[] _]. intros. f_equal. apply K; congruence.
    + intros x Hx. apply in_map_iff in Hx as (r & <- & Hr). destruct (Hg r Hr) as [[] _].
      rewrite fr_tenant. auto.
    + apply List.Forall_forall. intros x Hx. apply in_map_iff in Hx as (r & <- & Hr).
      destruct (Hg r Hr) as [[] _]. rewrite fr_id. by eapply List.Forall_forall in I.
  - split; [constructor|].
    + by apply keys_unique_snoc.
    + assert (forall r, In r t' -> q_idempotency_key r <> "" -> q_tenant_id r = q_tenant_id q ->
        q_idempotency_key r = q_idempotency_key q -> False) as Hnew.
      { intros r Hr Hne H1 H2. destruct Hu as [Hu|Hu]; [congruence|].
        eapply existsb_false_In in Hu; [|exact Hr]. unfold same_idempotency in Hu.
        by rewrite H1, H2, !String.eqb_refl in Hu. }
      intros x y [Hx|[<-|[]]]%in_app_or [Hy|[<-|[]]]%in_app_or Hne H1 H2; auto; exfalso.
      * by eapply (Hnew x).
      * eapply (Hnew y); congruence.
    + intros x [Hx|[<-|[]]]%in_app_or; auto.
    + apply Forall_app. split; [done|]. by constructor.
Qed.

Lemma run_step_parent p p' r r' : run_step p p' -> run_step r r' -> is_parent p r -> is_parent p' r'.
Proof. intros [] [] []. constructor; try congruence. auto. Qed.

Lemma runs_evolve_lineage t t' : evolves run_step may_insert t t' -> lineage_wf t -> lineage_wf t'.
Proof.
  intros Hev Ht. induction Hev as [|g t' _ [S P] Hg|q t' _ [S P] [Hk _ Hp]%may_insert_new]; [done| |].
  - split.
    + intros x y Hx Hy. apply in_map_iff in Hx as (r & <- & Hr). apply in_map_iff in Hy as (r' & <- & Hr').
      destruct (Hg r Hr), (Hg r' Hr'). intros. f_equal. apply S; congruence.
    + destruct P as [rank P]. exists rank. intros x (r & <- & Hr)%in_map_iff Hx. pose proof (Hg r Hr) as Hs.
      destruct (P r Hr) as (p & Hp & Hpr & Hlt); [by destruct Hs; congruence|]. exists (g p).
      split; [by apply in_map|]. split; [eapply run_step_parent, Hpr; auto|].
      by rewrite (rs_id _ _ Hs), (rs_id _ _ (Hg p Hp)).
  - assert (forall r, In r t' -> run_resumes_run_id r <> "" -> run_tenant_id r = run_tenant_id q ->
      run_resumes_run_id r = run_resumes_run_id q -> False) as Hnew.
    { intros r Hr Hne H1 H2. destruct Hp as [Hp|[Hp _]]; [congruence|].
      unfold has_child in Hp. eapply existsb_false_In in Hp; [|exact Hr].
      cbv beta in Hp. by rewrite H1, H2, !String.eqb_refl in Hp. }
    split.
    + intros x y [Hx|[<-|[]]]%in_app_or [Hy|[<-|[]]]%in_app_or Hne H1 H2; auto; exfalso.
      * by eapply (Hnew x).
      * eapply (Hnew y); congruence.
    + destruct P as [rank P]. exists (fun k => if (k =? run_id q)%string then (1 + rank (run_resumes_run_id q))%nat else rank k).
      assert (forall r, In r t' -> (run_id r =? run_id q)%string = false) as Hf.
      { intros r Hr. apply String.eqb_neq. by apply (proj1 (lookup_key_None _ _) Hk). }
      intros x [Hx|[<-|[]]]%in_app_or Hn.
      * destruct (P x Hx Hn) as (p & Hin & Hpr & Hlt). exists p. rewrite (Hf x Hx), (Hf p Hin).
        split; [apply in_or_app; by left|done].
      * destruct Hp as [?|(_ & p & Hin & Hpr)]; [done|]. exists p. rewrite (Hf p Hin), String.eqb_refl, (ip_id _ _ Hpr).
        split; [apply in_or_app; by left|]. split; [done|lia].
Qed.

Lemma run_step_wf r r' : run_step r r' -> run_wf r -> run_wf r'.
Proof.
  intros [] [I [C|(C & ? & ?)] L [roots R] T]; constructor; try congruence; try (exists roots; congruence);
    [left|right; split_and!]; congruence.
Qed.

(** A stored row stays in its table. *)
Lemma queue_row_stays t t' q :
  keys_unique t -> evolves queue_step new_queue t t' -> In q t ->
  exists q', In q' t' /\ queue_step q q'.
Proof.
  intros Hu Hev Hq.
  edestruct (evolves_lookup queue_step new_queue queue_step_refl queue_step_key) as (q' & Hl & Hs);
    [exact queue_step_trans|exact Hev|by apply lookup_key_In|].
  exists q'. by apply lookup_key_Some in Hl as [? _].
Qed.

Lemma db_step_wf d d' : db_step may_insert d d' -> db_wf d -> db_wf d'.
Proof.
  intros [A C Q R E] [Wa Wai Wc Wq Wqi Wr Ws Wl Wk We].
  destruct (queue_evolves_wf _ _ Q (conj Wq Wqi)) as [Wq' Wqi']. split; try done.
  - eapply evolves_Forall, Wa; [| |exact A].
    + intros r r' [Hs _]. by apply approval_step_wf.
    + by intros t r [[_ ?] _].
  - eapply (evolves_keys_unique approval_plain plain_new), Wai; [| |exact A].
    + intros r r' [Hs _]. by apply approval_step_key.
    + by intros t r [[? _] _].
  - eapply (evolves_keys_unique clarify_step new_clarify), Wc; [apply clarify_step_key| |exact C].
    by intros t r [? _].
  - eapply (evolves_keys_unique run_step may_insert), Wr; [apply run_step_key| |exact R].
    by intros t r [? _ _]%may_insert_new.
  - eapply evolves_Forall, Ws; [apply run_step_wf| |exact R]. by intros t r [_ ? _]%may_insert_new.
  - by eapply runs_evolve_lineage.
  - intros a' Ha' Hr. assert (exists a, In a (db_approvals d) /\ approval_plain a a') as (a & Ha & Hs & Hres).
    { eapply (evolves_origin approval_plain plain_new approval_plain_refl) in A as [?|(t0 & a & [_ Hn] & _ & Hs)];
        [done|exfalso; congruence| |exact Ha'].
      intros x y z [S1 E1] [S2 E2]. split; [by eapply approval_step_trans|congruence]. }
    destruct (Wk a Ha) as (q & Hq & Hid & Ht); [congruence|].
    destruct (queue_row_stays _ _ q (wf_ids _ Wq) Q Hq) as (q' & Hq' & [[] _]).
    exists q'. destruct Hs as [[] _]. repeat split; congruence.
  - by apply E.
Qed.

(** *** The operations that link a request to its continuation *)

Lemma link_wf d queue id cond f :
  db_wf d -> evolves queue_step new_queue (db_queue d) queue ->
  (forall a, In a (db_approvals d) -> cond a = true ->
     approval_step a (f a) /\ a_resume_queue_id (f a) = id /\
     exists q, In q queue /\ q_id q = id /\ q_tenant_id q = a_tenant_id a) ->
  let d' := d <| db_queue := queue |> <| db_approvals := update_where cond f (db_approvals d) |> in
  db_wf d' /\ db_evolves d d'.
Proof.
  intros [Wa Wai Wc Wq Wqi Wr Ws Wl Wk We] Q Hf d'.
  assert (approvals_evolve (db_approvals d) (db_approvals d')) as A.
  { apply evolves_update; [apply approval_step_refl|]. intros a Ha Hc. by apply Hf. }
  destruct (queue_evolves_wf _ _ Q (conj Wq Wqi)) as [Wq' Wqi'].
  split; [split; try done|].
  - eapply evolves_Forall, Wa; [| |exact A]; [apply approval_step_wf|by intros ? ? [_ ?]].
  - eapply (evolves_keys_unique approval_step new_approval), Wai; [apply approval_step_key| |exact A].
    by intros ? ? [? _].
  - intros a' Ha' Hr. apply In_update_where in Ha' as (a & Ha & ->).
    destruct (cond a) eqn:Ec.
    + destruct (Hf a Ha Ec) as ([[] _] & Hid & q & Hq & Hqi & Hqt). exists q.
      split; [exact Hq|]. split; congruence.
    + destruct (Wk a Ha Hr) as (q & Hq & Hid & Ht).
      destruct (queue_row_stays _ _ q (wf_ids _ Wq) Q Hq) as (q' & Hq' & [[] _]).
      exists q'. split; [exact Hq'|]. split; congruence.
  - split; try done; try constructor. exists []. by rewrite app_nil_r.
Qed.

(** The identifier a continuation insert yields names a row of the tenant, and
    is not empty in a well-formed queue. *)
Lemma insertContinuation_linked row t t' id :
  queue_wf t /\ Forall (fun q => q_id q <> "") t ->
  q_id row <> "" -> q_run_id row = "" -> normalizeTenant (q_tenant_id row) = q_tenant_id row ->
  insertContinuation row t = Ok (t', id) ->
  evolves queue_step new_queue t t' /\ id <> "" /\
  exists q, In q t' /\ q_id q = id /\ q_tenant_id q = q_tenant_id row.
Proof.
  intros Hw Hi Hr Ht E.
  destruct (insertContinuation_evolves row t t' id Hi Hr Ht E) as [Q (q & Hq & Hid & Hqt & _)].
  split; [done|]. destruct (queue_evolves_wf _ _ Q Hw) as [_ Hids].
  split; [|eauto]. rewrite <- Hid. by eapply List.Forall_forall in Hids.
Qed.

Lemma respondParkedTx_wf uuid now tenant person id ch key v q d queued d' :
  db_wf d -> normalizeTenant tenant = tenant -> decision_wf v ->
  respondParkedTx uuid now tenant person id ch key v q d = Commit queued d' ->
  db_wf d' /\ db_evolves d d'.
Proof.
  intros Hw Ht Hv. unfold respondParkedTx. cbv zeta.
  destruct (query_row _ (db_approvals d)) as [a|]; [|done]. case_if; [done|]. case_if; [done|].
  destruct (parkedRunAdmissionJSON _ _) as [adm|]; [|done].
  destruct (insertContinuation _ _) as [[queue i]|] eqn:E; [|done]. case_if; [done|].
  intros; simplify_eq.
  eapply insertContinuation_linked in E as (Q & Hi & Hq);
    [|split; apply Hw|eapply resumeRow_fields|done|done].
  apply (link_wf d queue i); [done|done|].
  intros x _ Hx. rewrite !andb_true_iff in Hx. destruct Hx as [[[Hat _] Hp] Hk].
  unfold approval_at in Hat. apply andb_true_iff in Hat as [Hat _]. apply String.eqb_eq in Hat.
  split; [|split; [unfold authorize; by case_if|]].
  - apply respond_parked_step; auto; [by apply a_pending_iff|by apply a_parked_iff].
  - rewrite Hat. exact Hq.
Qed.

Lemma RespondParked_wf uuid now tenant person id de ch input q d :
  db_wf d -> let d' := fst (RespondParkedApprovalAndEnqueue uuid now tenant person id de ch input q d) in
  db_wf d' /\ db_evolves d d'.
Proof.
  intros Hw. unfold RespondParkedApprovalAndEnqueue. cbv zeta.
  destruct (normalizeApprovalDecisionValues de input) as [v|] eqn:Ev; [|auto using db_evolves_refl].
  apply normalizeApprovalDecisionValues_wf in Ev.
  case_if; [auto using db_evolves_refl|]. case_if; [auto using db_evolves_refl|].
  destruct (respondParkedTx _ _ _ _ _ _ _ v q d) as [queued d'|r] eqn:E; simpl.
  - assert (db_wf d' /\ db_evolves d d') as H.
    { eapply respondParkedTx_wf, E; [done|apply normalizeTenant_idemp|done]. }
    by destruct (GetApprovalRequest _ _ d').
  - destruct r; [destruct (GetApprovalRequest _ _ d)|]; auto using db_evolves_refl.
Qed.

Lemma EnqueueRecovered_wf uuid now id q d :
  db_wf d -> let d' := fst (EnqueueRecoveredApprovalContinuation uuid now id q d) in
  db_wf d' /\ db_evolves d d'.
Proof.
  intros Hw. unfold EnqueueRecoveredApprovalContinuation. cbv zeta.
  case_if; [auto using db_evolves_refl|]. set (p := prepareResume _ _ _ _ _ _ _ _ _ _ _).
  destruct (query_row _ (db_approvals d)) as [a|] eqn:Ea; [|auto using db_evolves_refl].
  destruct (parkedRunAdmissionJSON _ _) as [adm|]; [|auto using db_evolves_refl].
  destruct (insertContinuation _ _) as [[queue i]|] eqn:E; [|auto using db_evolves_refl].
  case_if; [auto using db_evolves_refl|].
  eapply insertContinuation_linked in E as (Q & Hi & Hq);
    [|split; apply Hw|eapply resumeRow_fields|done|apply normalizeTenant_idemp].
  apply (link_wf d queue i); [done|done|].
  apply find_some in Ea as [Hain Hac]. unfold unclaimed_decision in Hac.
  rewrite !andb_true_iff in Hac. destruct Hac as [[[Hat _] _] Hun].
  destruct Hun as [[[[[Hd Hres] _] Hl] _] _].
  intros x Hx Hxc. apply andb_true_iff in Hxc as [Hxat _].
  assert (x = a) as ->.
  { apply (keys_unique_inj (db_approvals d)); [apply wf_approval_ids, Hw|done|done|].
    unfold approval_at in *. unfold key, ApprovalRow_keyed. reflect_bools. congruence. }
  split; [|split].
  - apply recover_step; [by apply a_decided_iff|done|by apply a_live_iff].
  - unfold recoverDecision, authorize. by case_if.
  - unfold approval_at in Hat. reflect_bools. destruct Hq as (q' & Hq' & Hqi & Hqt).
    exists q'. repeat split; try done. rewrite Hqt. simpl in *. congruence.
Qed.

(** *** Every history *)

Section Histories.
Context `{RunEnv} `{FinalizeEnv}.

(** What the Runs an operation may insert are required to satisfy. *)
Definition inserts (op : control_op) (d : DB) : Prop :=
  match op with
  | OpStartRun _ _ _ owner ch _ o =>
      forall r, started owner ch (with_class o) d r -> may_insert (db_runs d) r
  | _ => True
  end.

Lemma exec_control_step op d :
  control_ok op -> inserts op d ->
  match op with OpRespondParked _ _ _ _ _ _ _ _ _ | OpRecoverDecision _ _ _ _ => True
  | _ => db_step may_insert d (exec_control op d) end.
Proof.
  destruct op; simpl; intros Hok Hi; try done.
  - by apply startRun_step.
  - apply finishRun_step.
  - apply MaterializeRunFinalization_step.
  - unfold MarkEffectDeliveryEnqueued. cbv zeta. repeat case_if; by apply db_step_same.
  - apply heartbeat_step.
  - apply MarkInterruptedRuns_step.
  - apply AppendEvent_step.
  - destruct Hok. by apply CreateApprovalRequest_step.
  - apply ExpireApprovalRequest_step.
  - apply ParkApprovalRequest_step.
  - apply ClaimApprovalDecisionReleasing_step.
  - apply ClaimApprovalResumeAuthorization_step.
  - apply ArchiveStaleParkedApprovals_step.
  - apply MarkApprovalNotified_step.
  - apply RespondApprovalRequest_step.
  - by apply CreateClarifyRequest_step.
  - apply AnswerClarifyRequest_step.
  - apply AnswerClarifyRequestWithResume_step.
  - apply MarkClarifyNotified_step.
  - apply ExpireClarifyRequest_step.
  - apply SaveLoopCheckpoint_step.
  - apply ReleaseHumanWait_step.
  - apply ParkHumanWaitRun_step.
  - apply CancelParkedProviderRun_step.
  - apply CancelParkedHumanRun_step.
  - apply RequestRunCancel_step.
  - apply CancelQueued_step.
  - apply clearQueued_step.
  - apply step_queue, exec_op_evolves.
  - by apply db_step_same.
Qed.

Lemma exec_control_evolves op d : control_ok op -> inserts op d -> db_wf d ->
  db_wf (exec_control op d) /\ db_evolves d (exec_control op d).
Proof.
  intros Hok Hi Hw.
  assert (db_step may_insert d (exec_control op d) ->
          db_wf (exec_control op d) /\ db_evolves d (exec_control op d))
    as Hstep by (intros Hs; split; [by eapply db_step_wf|by apply db_step_evolves; [apply Hw|]]).
  pose proof (exec_control_step op d Hok Hi) as Hs.
  destruct op; try (by apply Hstep, Hs).
  - by apply RespondParked_wf.
  - by apply EnqueueRecovered_wf.
Qed.
Lemma exec_controls_evolve ops : forall d, Forall control_ok ops ->
  (forall op d, In op ops -> inserts op d) -> db_wf d ->
  db_wf (exec_controls ops d) /\ db_evolves d (exec_controls ops d).
Proof.
  induction ops as [|op ops IH]; intros d Hok Hi Hw; simpl; [auto using db_evolves_refl|].
  inversion Hok; subst.
  destruct (exec_control_evolves op d) as [Hw1 He1]; [done|apply Hi; by left|done|].
  destruct (IH (exec_control op d)) as [Hw2 He2]; [done|intros; apply Hi; by right|done|].
  split; [done|]. by eapply db_evolves_trans.
Qed.
End Histories.
End Evolution.

(** *** A started Run *)

(** A Run that the resolver and the claim both call resumable: in a resumable
    status, or parked on an external wait whose only wake-up is this row. *)
Definition resumable_now (tenantID personID : string) (queueID : option string) (d : DB) (p : Run) : bool :=
  if resumableRunStatus (run_status p) then true
  else if (run_status p =? "waiting_external")%string then
    negb (existsb (live_watch tenantID (run_id p)) (db_watches d))
    && negb (existsb (pending_resource_wait tenantID (run_id p)) (db_resource_waits d))
    && let providerQueueID := wakeQueueID tenantID personID (run_id p) d in
       (providerQueueID =? "")%string
       || match queueID with Some q => (q =? providerQueueID)%string | None => false end
  else false.

(** What [validateResumeClaimTx] accepts. *)
Record claim_accepted (child : ResumeClaim) (queueID : option string) (d : DB) (p : Run) : Prop := {
  ca_row : query_row (run_at (rc_TenantID child) (rc_ResumesRunID child)) (db_runs d) = Some p;
  ca_class : run_execution_class p = "work";
  ca_thread : run_thread_id p = rc_TaskID child;
  ca_person : run_person_id p = rc_PersonID child;
  ca_resumable : resumable_now (rc_TenantID child) (rc_PersonID child) queueID d p = true;
  ca_legacy : run_resumed_by_run_id p = "";
  ca_child : has_child (rc_TenantID child) (rc_ResumesRunID child) (db_runs d) = false
}.

Lemma validateResumeClaimTx_None child queueID d :
  validateResumeClaimTx child queueID d = None <-> exists p, claim_accepted child queueID d p.
Proof.
  unfold validateResumeClaimTx. cbv zeta. split.
  - destruct (query_row _ (db_runs d)) as [p|] eqn:Ep; [|done].
    assert (run_id p = rc_ResumesRunID child) as Hid.
    { apply find_some in Ep as [_ Ep]. unfold run_at in Ep. by reflect_bools. }
    do 5 (case_if; [done|]). intros _. exists p. reflect_bools. constructor; try done.
    + unfold resumable_now. by rewrite Hid.
  - intros [p [Ep Ec Et En Er El Eh]].
    assert (run_id p = rc_ResumesRunID child) as Hid.
    { apply find_some in Ep as [_ Ep]. unfold run_at in Ep. by reflect_bools. }
    unfold resumable_now in Er. rewrite Hid in Er. cbv zeta in Er.
    by rewrite Ep, Ec, Et, En, !String.eqb_refl, Er, El, Eh.
Qed.

Lemma resumable_stopped tenantID personID queueID d p :
  resumable_now tenantID personID queueID d p = true -> run_status p <> "running".
Proof.
  unfold resumable_now. intros H E. rewrite E in H. vm_compute in H. done.
Qed.

Lemma started_new owner ch o d r `{RunEnv} : started owner ch o d r -> new_run (db_runs d) r.
Proof.
  intros [(uuid & now & summary & adm & ->) Hc Hf Ho _ Hp]. simpl in *. constructor; [done| |].
  - constructor; simpl; [done| |done|eauto|apply TrimSpace_idemp]. destruct Hc as [?|(? & -> & ->)]; [by left|right].
    split; [done|]. split; reflexivity.
  - destruct (decide (TrimSpace (so_ResumesRunID o) = "")) as [E|E]; [by left|right].
    destruct Ho as [?|Ho]; [done|]. split; [exact Ho|].
    apply Hp, validateResumeClaimTx_None in E as [p [Ep Ec Et En Er _ _]]. simpl in *.
    exists p. apply find_some in Ep as [Hin Ep]. split; [done|].
    unfold run_at in Ep. reflect_bools. constructor; simpl; try done.
    by eapply resumable_stopped.
Qed.

Section AllHistories.
Context `{RunEnv} `{FinalizeEnv}.

Lemma exec_controls_wf ops d : Forall control_ok ops -> db_wf d ->
  db_wf (exec_controls ops d) /\ db_evolves new_run d (exec_controls ops d).
Proof.
  intros Hok. apply exec_controls_evolve; [done|done|].
  intros op ? _. destruct op; simpl; try done. intros r. apply started_new.
Qed.

Lemma history_wf ops m : Forall control_ok ops -> db_wf (exec_controls ops (emptyDB m)).
Proof. intros Hok. by apply exec_controls_wf, emptyDB_wf. Qed.

(** The descendant of a stored approval after any history. *)
Lemma approval_descends ops d k a :
  Forall control_ok ops -> db_wf d -> lookup_key k (db_approvals d) = Some a ->
  exists a', lookup_key k (db_approvals (exec_controls ops d)) = Some a' /\
    approval_frozen a a' /\ approval_next a a'.
Proof.
  intros Hok Hw Hl. destruct (exec_controls_wf ops d Hok Hw) as [_ [A _ _ _ _]].
  edestruct (evolves_lookup approval_step new_approval approval_step_refl approval_step_key)
    as (a' & Hl' & [Hf Hn]); [exact approval_step_trans|exact A|exact Hl|].
  exists a'. split; [done|]. split; [done|]. apply Hn.
  apply lookup_key_Some in Hl as [Hin _]. by eapply List.Forall_forall in Hin; [|apply (wf_approvals d Hw)].
Qed.

Lemma run_descends ops d k r :
  Forall control_ok ops -> db_wf d -> lookup_key k (db_runs d) = Some r ->
  exists r', lookup_key k (db_runs (exec_controls ops d)) = Some r' /\ run_step r r'.
Proof.
  intros Hok Hw Hl. destruct (exec_controls_wf ops d Hok Hw) as [_ [_ _ _ R _]].
  eapply (evolves_lookup run_step new_run run_step_refl run_step_key); [exact run_step_trans|exact R|done].
Qed.

Lemma clarify_descends ops d k c :
  Forall control_ok ops -> db_wf d -> lookup_key k (db_clarifies d) = Some c ->
  exists c', lookup_key k (db_clarifies (exec_controls ops d)) = Some c' /\ clarify_step c c'.
Proof.
  intros Hok Hw Hl. destruct (exec_controls_wf ops d Hok Hw) as [_ [_ C _ _ _]].
  eapply (evolves_lookup clarify_step new_clarify clarify_step_refl clarify_step_key);
    [exact clarify_step_trans|exact C|done].
Qed.
End AllHistories.
