(* ===== verification/Continuity.v ===== *)
(** * Continuity of Runs

    Exclusive continuations and their order, capacity over histories, the
    atomicity of a start, and the agreement of the queue resolver
    ([ResolveQueuedContinuation]) with the claim of the parent
    ([validateResumeClaimTx]). *)

From stdpp Require Import base tactics relations list strings.
From Stdlib Require Import ZArith Lia Bool String List.
From S2P Require Import Prelude GoLib Sql Evolution Admission Store Queue QueueTheory Maintenance Database RunStart Checkpoints Approvals Clarify Cancellation Continuation Finalization Control Scenario ApprovalTheory ControlSteps ControlTheory.

(** ** Lineage *)

Section Lineage.
Context (t : list Run) (Hk : keys_unique t) (Hl : lineage_wf t).

(** [p] is stored and is the Run [r] continues. *)
Definition parent_in (t : list Run) (r p : Run) : Prop := In r t /\ In p t /\ is_parent p r.

Lemma parent_stored r : In r t -> run_resumes_run_id r <> "" -> exists p, parent_in t r p.
Proof. intros Hr Hn. destruct (lw_parent _ r Hl Hr Hn) as (p & ? & ?). by exists p. Qed.

(** No Run is its own ancestor. *)
Lemma no_cycle r : Forall run_wf t -> ~ tc (parent_in t) r r.
Proof.
  intros Hw Htc. destruct (lw_ranked _ Hl) as [rank P].
  assert (forall x y, parent_in t x y -> (rank (run_id y) < rank (run_id x))%nat) as Hlt.
  { intros x y (Hx & Hy & Hp).
    assert (run_resumes_run_id x <> "") as Hn.
    { eapply List.Forall_forall in Hw; [|exact Hy]. destruct Hw, Hp. congruence. }
    destruct (P x Hx Hn) as (p & Hin & [Hid _ _ _ _ _] & H).
    assert (p = y) as ->; [|done]. apply (keys_unique_inj t); [done|done|done|]. unfold key, run_keyed.
    destruct Hp. congruence. }
  assert (forall x y, tc (parent_in t) x y -> (rank (run_id y) < rank (run_id x))%nat) as Htr.
  { induction 1 as [x y H|x y z H _ IH]; [by apply Hlt|]. pose proof (Hlt _ _ H). lia. }
  pose proof (Htr _ _ Htc). lia.
Qed.
End Lineage.

Section Histories.
Context `{RunEnv} `{FinalizeEnv}.

(** After any history, each Run has at most one continuation, a continuation
    belongs to the person and thread of the work Run it continues, that Run does
    not execute any more, and no Run is its own ancestor. *)
Theorem run_lineage_exclusive ops m :
  Forall control_ok ops ->
  let runs := db_runs (exec_controls ops (emptyDB m)) in
  forall r, In r runs ->
    (run_resumes_run_id r <> "" ->
       (exists p, In p runs /\ is_parent p r) /\
       (forall r', In r' runs -> run_tenant_id r' = run_tenant_id r ->
          run_resumes_run_id r' = run_resumes_run_id r -> r' = r)) /\
    ~ tc (parent_in runs) r r.
Proof.
  intros Hok runs r Hr. pose proof (history_wf ops m Hok) as Hw.
  pose proof (wf_lineage _ Hw) as Hl. fold runs in Hl. split.
  - intros Hne. split; [by apply (lw_parent runs)|].
    intros r' Hr' Ht He. symmetry. by apply (lw_single _ Hl).
  - apply (no_cycle runs); [apply (wf_run_ids _ Hw)|done|apply (wf_runs _ Hw)].
Qed.
End Histories.

Lemma run_lineage_exclusive_witness :
  let runs := db_runs (after continued) in
  exists p r, In p runs /\ In r runs /\ is_parent p r /\
    (forall r', In r' runs -> run_tenant_id r' = "default" -> run_resumes_run_id r' = "run_1" -> r' = r).
Proof.
  cbv zeta.
  assert (existsb (fun r => (run_resumes_run_id r =? "run_1")%string && (run_tenant_id r =? "default")%string)
            (db_runs (exec_controls continued (emptyDB (mkMaintState [] [] [])))) = true) as (r & Hr & [E Et]%andb_true_iff)%existsb_exists
    by (vm_compute; reflexivity).
  apply String.eqb_eq in E, Et.
  destruct (run_lineage_exclusive continued (mkMaintState [] [] []) continued_ok r Hr) as [Hs _].
  destruct Hs as [(p & Hp & Hpr) Hu]; [rewrite E; discriminate|].
  exists p, r. split; [exact Hp|]. split; [exact Hr|]. split; [exact Hpr|].
  intros r' H1 H2 H3. apply Hu; [exact H1|rewrite H2, Et; reflexivity|rewrite H3, E; reflexivity].
Defined.

(** ** Capacity *)

Definition count_runs (sel : Run -> bool) (t : list Run) : Z := Z.of_nat (length (List.filter sel t)).

Section Capacity.
Context (sel : Run -> bool) (n : Z)
  (sel_step : forall r r', run_step r r' -> sel r' = true -> sel r = true).

Definition capacity_insert (t : list Run) (r : Run) : Prop :=
  new_run t r /\ (sel r = true -> (count_runs sel t < n)%Z).

Lemma count_map g t : (forall r, In r t -> run_step r (g r)) ->
  (count_runs sel (map g t) <= count_runs sel t)%Z.
Proof.
  unfold count_runs. intros Hg.
  assert (length (List.filter sel (map g t)) <= length (List.filter sel t))%nat; [|lia].
  induction t as [|x t IH]; simpl; [done|].
  assert (length (List.filter sel (map g t)) <= length (List.filter sel t))%nat
    by (apply IH; intros; apply Hg; by right).
  pose proof (sel_step x (g x) (Hg x (or_introl eq_refl))) as Hx.
  destruct (sel (g x)); [rewrite (Hx eq_refl); simpl; lia|]. destruct (sel x); simpl; lia.
Qed.

Lemma count_evolves t t' : evolves run_step capacity_insert t t' ->
  (count_runs sel t <= n)%Z -> (count_runs sel t' <= n)%Z.
Proof.
  intros Hev Ht. induction Hev as [|g t' _ IH Hg|r t' _ IH [_ Hc]]; [done| |].
  - pose proof (count_map g t' Hg). lia.
  - unfold count_runs in *. rewrite List.filter_app, length_app. simpl.
    destruct (sel r); simpl; [|lia]. specialize (Hc eq_refl). lia.
Qed.
End Capacity.

Lemma active_run_step tenant person class ch r r' :
  run_step r r' -> active_run tenant person class ch r' = true -> active_run tenant person class ch r = true.
Proof.
  intros [_ Et Ep _ Ec _ _ Eh _ _ _ _ Es _]. unfold active_run. rewrite Et, Ep, Ec, Eh.
  intros Ha. reflect_bools.
  assert (run_status r = "running") as Er.
  { destruct (decide (run_status r = "running")) as [|Hn]; [done|]. by apply Es in Hn. }
  rewrite Er. solve_bools; try done. by apply orb_true_iff.
Qed.

(** The starts of a history that may add to the count. *)
Definition starts_where (P : RunOwner -> string -> StartRunOptions -> Prop) (op : control_op) : Prop :=
  match op with OpStartRun _ _ _ owner ch _ o => P owner ch (with_class o) | _ => True end.

Section Bounds.
Context `{RunEnv} `{FinalizeEnv}.

Lemma capacity_history sel n ops m :
  (forall r r', run_step r r' -> sel r' = true -> sel r = true) -> (0 <= n)%Z ->
  Forall control_ok ops ->
  Forall (starts_where (fun owner ch o => forall d r, started owner ch o d r -> sel r = true ->
            (count_runs sel (db_runs d) < n)%Z)) ops ->
  (count_runs sel (db_runs (exec_controls ops (emptyDB m))) <= n)%Z.
Proof.
  intros Hs Hn Hok Hst.
  destruct (exec_controls_evolve (capacity_insert sel n) ltac:(by intros ? ? []) ops (emptyDB m))
    as [_ [_ _ _ R _]]; [done| |apply emptyDB_wf|by eapply count_evolves].
  intros op d Hop. eapply List.Forall_forall in Hst; [|exact Hop].
  destruct op; simpl in *; try done. intros r Hr. split; [by eapply started_new|]. by apply Hst.
Qed.

Lemma count_active tenant person class ch runs :
  countActiveRuns tenant person class ch runs = count_runs (active_run tenant person class ch) runs.
Proof. done. Qed.

(** An active new Run belongs to the owner its start counted for. *)
Lemma started_active owner channel o d r tenant person class ch :
  started owner channel o d r -> active_run tenant person class ch r = true ->
  ow_TenantID owner = tenant /\ ow_PersonID owner = person /\ so_ExecutionClass o = class /\
  (ch = "" \/ normalizeName channel "cli" = ch).
Proof.
  intros [(uuid & now & summary & adm & ->) _ _ _ _ _]. unfold active_run. simpl. intros Ha.
  reflect_bools. split_and!; try done.
  match goal with Ho : _ \/ _ |- _ => destruct Ho; reflect_bools; auto end.
Qed.

(** After any history a person has at most one coordination Run executing;
    at most [n] work Runs, when every start of theirs asked for a positive limit
    not above [n]; and at most one on a channel whose starts were all
    exclusive. *)
Theorem run_capacity_respected ops m tenant person n ch :
  Forall control_ok ops -> (0 < n)%Z ->
  let runs := db_runs (exec_controls ops (emptyDB m)) in
  let mine := fun (P : string -> StartRunOptions -> Prop) => Forall (starts_where (fun owner ch o =>
    ow_TenantID owner = tenant -> ow_PersonID owner = person -> so_ExecutionClass o = "work" -> P ch o)) ops in
  (countActiveRuns tenant person "coordination" "" runs <= 1)%Z /\
  (mine (fun _ o => 0 < so_MaxActiveRuns o <= n)%Z ->
     (countActiveRuns tenant person "work" "" runs <= n)%Z) /\
  (mine (fun c o => normalizeName c "cli" = ch -> so_ExclusiveChannel o = true) -> ch <> "" ->
     (countActiveRuns tenant person "work" ch runs <= 1)%Z).
Proof.
  intros Hok Hn runs mine.
  assert (forall class c k P, (0 <= k)%Z -> Forall (starts_where P) ops ->
    (forall owner ch' o d, P owner ch' o -> ow_TenantID owner = tenant -> ow_PersonID owner = person ->
       so_ExecutionClass o = class -> c = "" \/ normalizeName ch' "cli" = c ->
       capacityError owner ch' o d = None -> (countActiveRuns tenant person class c (db_runs d) < k)%Z) ->
    (countActiveRuns tenant person class c runs <= k)%Z) as Hb.
  { intros class c k P Hk Hst Hc. rewrite count_active. apply capacity_history; try done.
    - intros r r'. apply active_run_step.
    - eapply Forall_impl; [|exact Hst]. intros op. destruct op; simpl; try done. intros HP d r Hr Ha.
      destruct (started_active _ _ _ _ _ _ _ _ _ Hr Ha) as (? & ? & ? & ?).
      rewrite <- count_active. eapply Hc; eauto using st_capacity. }
  split; [|split].
  - eapply (Hb _ _ _ (fun _ _ _ => True)); [done| |].
    + apply List.Forall_forall. intros op _. by destruct op.
    + intros owner ch' o d _ Et Ep Ec _ Hc. unfold capacityError in Hc. rewrite Et, Ep, Ec in Hc. simpl in Hc.
      destruct (1 <=? _)%Z eqn:E in Hc; [done|]. reflect_bools. lia.
  - intros Hm. eapply Hb; [lia|exact Hm|]. intros owner ch' o d Hs Et Ep Ec _ Hc. simpl in Hs.
    destruct (Hs Et Ep Ec) as [Hs1 Hs2]. unfold capacityError in Hc. rewrite Et, Ep, Ec in Hc. simpl in Hc.
    apply Z.ltb_lt in Hs1. rewrite Hs1 in Hc. simpl in Hc.
    destruct (_ <=? _)%Z eqn:E2 in Hc; [done|]. reflect_bools. lia.
  - intros Hm Hch. eapply Hb; [lia|exact Hm|]. intros owner ch' o d Hs Et Ep Ec Eh Hc. simpl in Hs.
    destruct Eh as [?|Eh]; [done|]. unfold capacityError in Hc.
    rewrite Et, Ep, Ec, Eh, (Hs Et Ep Ec Eh) in Hc. simpl in Hc.
    case_if; [done|]. destruct (0 <? _)%Z eqn:E in Hc; [done|]. reflect_bools. lia.
Qed.
End Bounds.

Lemma run_capacity_respected_witness :
  (countActiveRuns "default" "p1" "work" "" (db_runs (after continued)) <= 2)%Z /\
  (countActiveRuns "default" "p1" "work" "cli" (db_runs (after continued)) <= 1)%Z.
Proof.
  destruct (run_capacity_respected continued (mkMaintState [] [] []) "default" "p1" 2 "cli" continued_ok
              eq_refl) as (_ & Hw & Hc).
  split; [apply Hw|apply Hc; [|discriminate]];
    repeat constructor; intros; vm_compute; first [reflexivity|discriminate].
Defined.

(** ** A start is atomic *)

Section Start.
Context `{RunEnv} `{FinalizeEnv}.

Lemma importEvents_frame now r th ch events : forall d d',
  importEvents now r th ch events d = Ok d' ->
  exists ev n, d' = d <| db_events := ev |> <| db_next_cursor := n |>.
Proof.
  induction events as [|[id e] events IH]; intros d d'; simpl.
  - intros; simplify_eq. exists (db_events d'), (db_next_cursor d'). by destruct d'.
  - unfold insertScopedEvent. repeat (case_if; [done|]). intros Hi.
    apply IH in Hi as (ev & n & ->). exists ev, n. done.
Qed.

Lemma insertWorkUnit_frame wu now r d d' :
  insertWorkUnit wu now r d = Ok d' -> exists u, d' = d <| db_work_units := u |>.
Proof.
  unfold insertWorkUnit. destruct (negb _); [|destruct (existsb _ _); [done|]]; intros; simplify_eq.
  - exists (db_work_units d'). by destruct d'.
  - eexists. reflexivity.
Qed.

Lemma importPlan_frame now r exact d d' : importPlan now r exact d = Ok d' ->
  exists u ev n, d' = d <| db_work_units := u |> <| db_events := ev |> <| db_next_cursor := n |>.
Proof.
  unfold importPlan. case_if.
  - intros; simplify_eq. exists (db_work_units d'), (db_events d'), (db_next_cursor d'). by destruct d'.
  - destruct (inheritRunPlanTx _ _ _ _ _ _) as [[units events]|]; [|done].
    intros (ev & n & ->)%importEvents_frame. eauto.
Qed.

(** The tables a start does not write besides the Run and its row. *)
Record start_frame (d d' : DB) : Prop := {
  sf_approvals : db_approvals d' = db_approvals d;
  sf_clarifies : db_clarifies d' = db_clarifies d;
  sf_checkpoints : db_checkpoints d' = db_checkpoints d;
  sf_maintenance : db_maintenance d' = db_maintenance d
}.

Lemma storeRun_writes wu now r o d d' : storeRun wu now r o d = Ok d' ->
  exists d1 d2, insertRun r d = Ok d1 /\ bindQueuedRow r o d1 = Ok d2 /\
    db_runs d' = db_runs d1 /\ db_queue d' = db_queue d2 /\ start_frame d d'.
Proof.
  unfold storeRun. cbv zeta.
  destruct (insertRun r d) as [d1|] eqn:E1; [|done].
  destruct (bindQueuedRow r o d1) as [d2|] eqn:E2; [|done].
  match goal with |- context [insertWorkUnit wu now r ?x] => set (d3 := x) end.
  destruct (insertWorkUnit wu now r d3) as [d4|] eqn:E4; [|done].
  destruct (importPlan now r _ d4) as [d5|] eqn:E5; [|done]. intros; simplify_eq.
  exists d1, d2. split; [done|]. split; [done|].
  assert (db_runs d2 = db_runs d1 /\ start_frame d d2) as [F1 [A C K M]].
  { apply insertRun_fresh in E1 as [-> _]. unfold bindQueuedRow in E2.
    repeat case_if; simplify_eq; simpl; split; by constructor. }
  assert (exists bl, d3 = d2 <| db_blockers := bl |>) as [bl E3].
  { unfold d3. case_if; [exists (db_blockers d2); by destruct d2|eexists; reflexivity]. }
  assert (exists wu, d4 = d3 <| db_work_units := wu |>) as [wu4 E4'].
  { by eapply insertWorkUnit_frame. }
  assert (exists wu ev n, d5 = d4 <| db_work_units := wu |> <| db_events := ev |> <| db_next_cursor := n |>)
    as (wu5 & ev & n & E5').
  { by eapply importPlan_frame. }
  clearbody d3. subst. unfold touchThread. case_if; split_and!; try done; by constructor.
Qed.

(** C20: Starting a Run is atomic: it fails with the database untouched, or it
    inserts exactly one executing Run, and then the queue row it was started from
    was claimed under the caller's token and bound to no Run, is the only row
    changed, becomes bound to the new Run, and fixes the Run's admission. *)
Theorem start_run_atomic uuid wu now owner ch summary o d :
  keys_unique (db_queue d) ->
  let '(d', result) := startRun uuid wu now owner ch summary o d in
  match result with
  | Err _ => d' = d
  | Ok r =>
      db_runs d' = db_runs d ++ [r] /\ lookup_key (run_id r) (db_runs d) = None /\
      run_status r = "running" /\ start_frame d d' /\
      if (so_QueueID o =? "")%string then db_queue d' = db_queue d else
      exists q, lookup_key (so_QueueID o) (db_queue d) = Some q /\
        q_status q = QueueStatusStarted /\ q_claim_token q = so_QueueClaimToken o /\ q_run_id q = "" /\
        q_tenant_id q = run_tenant_id r /\ q_person_id q = run_person_id r /\
        queuedRunAdmissionJSON (so_Admission o) (q_admission_json q) = Ok (run_admission r) /\
        db_queue d' = map (fun x => if (q_id x =? so_QueueID o)%string
                                    then x <| q_run_id := run_id r |> else x) (db_queue d)
  end.
Proof.
  intros Hk. destruct (startRun_cases uuid wu now owner ch summary o d)
    as [[e ->]|(r & d' & -> & Es & Hst & _ & a & own & _ & Ead)]; [done|].
  destruct (storeRun_writes _ _ _ _ _ _ Es) as (d1 & d2 & E1 & E2 & Er & Eq & Hf).
  apply insertRun_fresh in E1 as (-> & Hfr & _).
  destruct (st_row _ _ _ _ _ Hst) as (u & n & su & adm & Erow).
  assert (so_QueueID (with_class o) = so_QueueID o /\ so_QueueClaimToken (with_class o) = so_QueueClaimToken o)
    as [Ei Et] by (unfold with_class; by case_if).
  split_and!; [done|done|by rewrite Erow|done|].
  unfold bindQueuedRow in E2. rewrite Ei, Et in E2. unfold startAdmission in Ead.
  destruct (so_QueueID o =? "")%string; [by simplify_eq|]. cbv zeta in E2. simpl in E2.
  destruct (negb _) eqn:En in E2; [done|]. simplify_eq.
  apply negb_false_iff, Z.eqb_eq in En.
  destruct (proj1 (rows_affected_pos _ _) ltac:(rewrite En; lia)) as (q & Hq & Hb).
  pose proof Hb as Hb'. unfold bindable_row, claimed_row, has_status, unbound in Hb'. reflect_bools.
  destruct (query_row _ (db_queue d)) as [q'|] eqn:Eq' in Ead; [|done].
  apply find_some in Eq' as [Hq' Hc]. unfold claimed_row in Hc. reflect_bools.
  assert (q' = q) as -> by (apply (keys_unique_inj (db_queue d)); try done; unfold key, QueueRow_keyed; congruence).
  exists q. split_and!; try done.
  - match goal with E : q_id q = so_QueueID o |- _ => rewrite <- E end. by apply (lookup_key_In (db_queue d)).
  - rewrite Eq. simpl. unfold update_where. apply map_ext_in. intros x Hx.
    destruct (q_id x =? so_QueueID o)%string eqn:Ex.
    + apply String.eqb_eq in Ex. assert (x = q) as ->; [|by rewrite Hb].
      apply (keys_unique_inj (db_queue d)); try done. unfold key, QueueRow_keyed. congruence.
    + unfold bindable_row, claimed_row. by rewrite Ex, !andb_false_r.
Qed.
End Start.

Lemma after_wf ops : Forall control_ok ops -> db_wf (after ops).
Proof. apply history_wf. Qed.

Lemma start_run_atomic_witness :
  let d := after claimed in
  exists d' r, startRun "2" "2" (at_second 7) owner0 "cli" "goal" resume0 d = (d', Ok r) /\
    db_runs d' = db_runs d ++ [r] /\
    exists q, lookup_key "queue_1" (db_queue d) = Some q /\ q_run_id q = "" /\
      lookup_key "queue_1" (db_queue d') = Some (q <| q_run_id := run_id r |>).
Proof.
  intros d. pose proof (start_run_atomic "2" "2" (at_second 7) owner0 "cli" "goal" resume0 d
    (wf_ids _ (wf_queue _ (after_wf claimed claimed_ok)))) as Hs.
  destruct (startRun "2" "2" (at_second 7) owner0 "cli" "goal" resume0 d) as [d' [r|e]] eqn:E.
  - exists d', r. split; [reflexivity|]. destruct Hs as (Hr & _ & _ & _ & Hq). split; [exact Hr|].
    destruct Hq as (q & Hl & _ & _ & Hrun & _ & _ & _ & Hmap).
    change (so_QueueID resume0) with "queue_1" in Hl, Hmap. exists q. split; [exact Hl|].
    split; [exact Hrun|]. rewrite Hmap. apply lookup_key_Some in Hl as Hl'. destruct Hl' as [_ Hid].
    rewrite (lookup_map "queue_1" (fun x => if (q_id x =? "queue_1")%string
                                            then x <| q_run_id := run_id r |> else x)).
    + rewrite Hl. cbn [option_map]. unfold key, QueueRow_keyed in Hid. rewrite Hid. reflexivity.
    + intros x. case_if; reflexivity.
  - exfalso. assert (is_ok (snd (startRun "2" "2" (at_second 7) owner0 "cli" "goal" resume0 d)) = true) as Hok
      by (vm_compute; reflexivity). rewrite E in Hok. discriminate.
Defined.
