(* ===== verification/Resolution.v ===== *)
(** * Resolving a queued reply

    [ResolveQueuedContinuation] decides where a queued reply re-enters a lineage
    of Runs, [validateResumeClaimTx] decides later, in the transaction that
    creates the Run, whether that Run may be continued.  The two agree. *)

From stdpp Require Import base tactics relations list strings.
From Stdlib Require Import ZArith Lia Bool String List.
From S2P Require Import Prelude GoLib Sql Evolution Admission Store Queue QueueTheory Maintenance Database RunStart Checkpoints Approvals Clarify Cancellation Continuation Finalization Control Scenario ApprovalTheory ControlSteps ControlTheory Continuity.

(** ** The Run a row of the table names *)

Lemma run_at_Some tenant id t r : query_row (run_at tenant id) t = Some r ->
  In r t /\ run_tenant_id r = tenant /\ run_id r = id.
Proof. intros [Hin Hr]%find_some. unfold run_at in Hr. by reflect_bools. Qed.

Lemma query_run t r : keys_unique t -> In r t ->
  query_row (run_at (run_tenant_id r) (run_id r)) t = Some r.
Proof.
  intros Hk Hr. destruct (query_row _ t) as [x|] eqn:E.
  - apply run_at_Some in E as (Hx & _ & Hid). f_equal. by apply (keys_unique_inj t).
  - unfold query_row in E. eapply find_none in E; [|exact Hr]. unfold run_at in E.
    by rewrite !String.eqb_refl in E.
Qed.

(** ** Continuations *)

Lemma has_child_true tenant id runs : has_child tenant id runs = true <->
  exists c, In c runs /\ run_tenant_id c = tenant /\ run_resumes_run_id c = id.
Proof.
  unfold has_child. rewrite existsb_exists. split.
  - intros (c & Hc & E). exists c. by reflect_bools.
  - intros (c & Hc & <- & <-). exists c. split; [done|]. by rewrite !String.eqb_refl.
Qed.

Section Resolve.
Context (d : DB) (Hw : db_wf d) (tenant : string) (Ht : normalizeTenant tenant = tenant).

(** The forward edge is set exactly when a child is stored. *)
Lemma continuedBy_empty r : In r (db_runs d) ->
  continuedBy tenant r d = "" <-> has_child tenant (run_id r) (db_runs d) = false.
Proof.
  intros Hr. assert (run_wf r) as Hrw by (eapply List.Forall_forall in Hr; [exact Hr|apply Hw]).
  unfold continuedBy. destruct (query_row _ (db_runs d)) as [c|] eqn:Ec.
  - apply find_some in Ec as [Hc Ec]. reflect_bools.
    assert (run_wf c) as [Hid _ _ _ _] by (eapply List.Forall_forall in Hc; [exact Hc|apply Hw]).
    apply String.eqb_neq in Hid as Hid'. rewrite Hid'. split; [done|]. intros Hf.
    assert (has_child tenant (run_id r) (db_runs d) = true) by (apply has_child_true; eauto). congruence.
  - rewrite (rw_legacy _ Hrw). split; [intros _|done].
    destruct (has_child _ _ _) eqn:E; [|done]. apply has_child_true in E as (c & Hc & E1 & E2).
    unfold query_row in Ec. eapply find_none in Ec; [|exact Hc]. cbv beta in Ec.
    by rewrite E1, E2, !String.eqb_refl in Ec.
Qed.

(** A continuation is stored, of the same tenant, and continues the Run. *)
Lemma continuedBy_child r c : In r (db_runs d) -> run_tenant_id r = tenant ->
  continuedBy tenant r d = c -> c <> "" ->
  exists x, query_row (run_at tenant c) (db_runs d) = Some x /\ is_parent r x.
Proof.
  intros Hr Hrt <- Hne. assert (run_wf r) as Hrw by (eapply List.Forall_forall in Hr; [exact Hr|apply Hw]).
  assert (has_child tenant (run_id r) (db_runs d) = true) as Hc.
  { destruct (has_child _ _ _) eqn:E; [done|]. by apply continuedBy_empty in E. }
  unfold continuedBy in *. destruct (query_row _ (db_runs d)) as [x|] eqn:Ex.
  - apply find_some in Ex as [Hx Ex]. reflect_bools.
    assert (run_wf x) as [Hid _ _ _ _] by (eapply List.Forall_forall in Hx; [exact Hx|apply Hw]).
    apply String.eqb_neq in Hid as Hid'. rewrite Hid' in *. exists x.
    assert (query_row (run_at tenant (run_id x)) (db_runs d) = Some x) as Eq.
    { rewrite <- H. apply query_run; [apply Hw|done]. }
    split; [done|].
    destruct (lw_parent _ x (wf_lineage _ Hw) Hx) as (p & Ep & Hp); [by rewrite H0; apply (rw_id _ Hrw)|].
    assert (p = r) as ->; [|done]. apply (keys_unique_inj (db_runs d)); [apply Hw|done|done|].
    destruct Hp. unfold key, run_keyed. congruence.
  - by rewrite (rw_legacy _ Hrw) in Hne.
Qed.

(** ** Where the resolver launches *)

Lemma resource_pending r : In r (db_runs d) -> run_tenant_id r = tenant ->
  run_status r = "waiting_external" ->
  IsRunExternalResourceWaitPending tenant (run_id r) d =
  existsb (pending_resource_wait tenant (run_id r)) (db_resource_waits d).
Proof.
  intros Hr Hrt Hs. unfold IsRunExternalResourceWaitPending. rewrite Ht.
  induction (db_resource_waits d) as [|w l IH]; simpl; [done|]. rewrite IH. f_equal.
  destruct (pending_resource_wait _ _ w) eqn:E; [|done]. simpl.
  unfold pending_resource_wait in E. reflect_bools.
  apply existsb_exists. exists r. split; [done|]. unfold run_at.
  by rewrite H, H1, Hrt, Hs, !String.eqb_refl.
Qed.

(** At a Run nothing continues, the resolver launches exactly when the Run is
    resumable for this row. *)
Lemma resolveAt_launches r q : In r (db_runs d) -> run_tenant_id r = tenant -> run_id r <> "" ->
  (exists q', resolveAt tenant r q d = Resolved q' false /\ t_ReplyToRunID q' <> "") <->
  resumable_now tenant (t_PersonID q) (Some (t_ID q)) d r = true.
Proof.
  intros Hr Hrt Hid. unfold resolveAt, resumable_now. cbv zeta.
  destruct (String.eqb_spec (run_status r) "running") as [E|_].
  { rewrite E. vm_compute (resumableRunStatus _). simpl. split; [by intros (? & ? & _)|done]. }
  destruct (String.eqb_spec (run_status r) "waiting_external") as [E|_].
  - rewrite E. vm_compute (resumableRunStatus _). cbv iota. rewrite (resource_pending r) by done.
    destruct (existsb (live_watch _ _) _); simpl; [split; [by intros (? & ? & _)|done]|].
    destruct (existsb (pending_resource_wait _ _) _); simpl; [split; [by intros (? & ? & _)|done]|].
    rewrite (String.eqb_sym (wakeQueueID _ _ _ _) (t_ID q)).
    destruct (wakeQueueID _ _ _ _ =? "")%string, (t_ID q =? wakeQueueID _ _ _ _)%string; simpl;
      split; try done; try (intros _; eexists; split; [reflexivity|done]); by intros (? & ? & _).
  - destruct (resumableRunStatus _).
    + split; [done|]. intros _. eexists. split; [reflexivity|done].
    + split; [|done]. destruct (systemExact q); intros (q' & Eq & Hq); by simplify_eq.
Qed.

Lemma resolveAt_reply r q q' : resolveAt tenant r q d = Resolved q' false -> t_ReplyToRunID q' <> "" ->
  q' = q <| t_ReplyToRunID := run_id r |>.
Proof.
  unfold resolveAt. cbv zeta. intros E Hq. repeat case_if; by simplify_eq.
Qed.
(** ** Along the lineage *)

(** The result's owner and identity are the row's. *)
Record same_row (q q' : QueuedTask) : Prop := {
  sr_id : t_ID q' = t_ID q;
  sr_person : t_PersonID q' = t_PersonID q;
  sr_tenant : t_TenantID q' = t_TenantID q;
  sr_key : t_IdempotencyKey q' = t_IdempotencyKey q;
  sr_class : t_Class q' = t_Class q
}.

Lemma systemExact_same q q' : same_row q q' -> systemExact q' = systemExact q.
Proof. intros [_ _ _ Hk Hc]. unfold systemExact. by rewrite Hk, Hc. Qed.

(** The Run a launched reply ends at. *)
Record launch_at (q q' : QueuedTask) (r : Run) : Prop := {
  la_row : query_row (run_at tenant (t_ReplyToRunID q')) (db_runs d) = Some r;
  la_leaf : has_child tenant (run_id r) (db_runs d) = false;
  la_resumable : resumable_now tenant (t_PersonID q) (Some (t_ID q)) d r = true;
  la_person : run_person_id r = t_PersonID q;
  la_thread : t_TaskID q' = run_thread_id r;
  la_same : same_row q q'
}.

Lemma follow_launches n : forall current q q',
  followLineage n tenant current q d = Resolved q' false -> t_ReplyToRunID q' <> "" ->
  exists r, launch_at q q' r.
Proof.
  induction n as [|n IH]; simpl; intros current q q' E Hq; [done|].
  destruct (query_row _ (db_runs d)) as [r|] eqn:Er; [|done].
  destruct (run_at_Some _ _ _ _ Er) as (Hr & Hrt & Hid).
  case_if; [done|]. destruct (run_execution_roots r) as [roots|]; [|done]. cbv zeta in E.
  match type of E with context [systemExact ?x] => set (q1 := x) in E end.
  assert (same_row q q1) as Hs by (by constructor).
  destruct (continuedBy tenant r d =? "")%string eqn:Ec; simpl in E.
  - apply String.eqb_eq in Ec. pose proof (resolveAt_reply r q1 q' E Hq) as ->.
    assert (run_id r <> "") as Hne by exact Hq.
    exists r. reflect_bools. constructor; try done.
    + simpl. congruence.
    + by apply continuedBy_empty.
    + change (resumable_now tenant (t_PersonID q1) (Some (t_ID q1)) d r = true).
      apply resolveAt_launches; [done..|]. eauto.
  - repeat case_if; try done. destruct (IH _ _ _ E Hq) as [x [Hx1 Hx2 Hx3 Hx4 Hx5 []]].
    exists x. constructor; try done; by constructor.
Qed.

(** The depth is not evaluated. *)
Lemma lineageDepth_S : exists n, lineageDepth = S n.
Proof. by exists 63%nat. Qed.

(** At a Run nothing continues the walk ends. *)
Lemma resolve_leaf q r roots :
  normalizeTenant (t_TenantID q) = tenant -> In r (db_runs d) -> run_tenant_id r = tenant ->
  run_person_id r = t_PersonID q -> t_PersonID q <> "" ->
  run_thread_id r = t_TaskID q \/ t_TaskID q = "" ->
  TrimSpace (t_ReplyToRunID q) = run_id r -> run_execution_roots r = JVal roots ->
  has_child tenant (run_id r) (db_runs d) = false ->
  ResolveQueuedContinuation q d =
  resolveAt tenant r (q <| t_TaskID := run_thread_id r |> <| t_WorkspaceID := run_workspace_id r |>
                        <| t_ExecutionRoots := roots |>) d.
Proof.
  intros Hqt Hr Hrt Hp Hpne Hth Hreply Hroots Hch.
  assert (run_wf r) as [Hid _ _ _ _] by (eapply List.Forall_forall in Hr; [exact Hr|apply Hw]).
  assert (query_row (run_at tenant (run_id r)) (db_runs d) = Some r) as Eq
    by (rewrite <- Hrt; apply query_run; [apply Hw|done]).
  unfold ResolveQueuedContinuation, blank. rewrite Hreply, Hqt.
  apply String.eqb_neq in Hid as ->. apply String.eqb_neq in Hpne as ->.
  destruct lineageDepth_S as [n ->]. cbn [followLineage]. rewrite Eq, Hp, String.eqb_refl.
  assert (negb (t_TaskID q =? "")%string && negb (run_thread_id r =? t_TaskID q)%string = false) as ->.
  { destruct Hth as [->| ->]; [rewrite String.eqb_refl; apply andb_false_r|done]. }
  simpl negb. cbv iota. rewrite Hroots. cbv zeta.
  by assert (continuedBy tenant r d = "") as -> by by apply continuedBy_empty.
Qed.

(** C15: The queue resolver and the claim of the parent agree: for a reply to a
    work Run of the row's person, the resolver decides to launch it there exactly
    when [validateResumeClaimTx] lets a Run started from the row continue that
    Run. *)
Theorem resolver_agrees_with_claim q r :
  normalizeTenant (t_TenantID q) = tenant -> In r (db_runs d) -> run_tenant_id r = tenant ->
  run_execution_class r = "work" -> run_person_id r = t_PersonID q -> t_PersonID q <> "" ->
  run_thread_id r = t_TaskID q \/ t_TaskID q = "" ->
  TrimSpace (t_ReplyToRunID q) = run_id r ->
  (exists q', ResolveQueuedContinuation q d = Resolved q' false /\ t_ReplyToRunID q' = run_id r) <->
  validateResumeClaimTx (mkResumeClaim tenant (t_PersonID q) (run_thread_id r) (run_id r))
    (Some (t_ID q)) d = None.
Proof.
  intros Hqt Hr Hrt Hc Hp Hpne Hth Hreply.
  assert (run_wf r) as [Hid _ Hleg [roots Hroots] _] by (eapply List.Forall_forall in Hr; [exact Hr|apply Hw]).
  assert (query_row (run_at tenant (run_id r)) (db_runs d) = Some r) as Eq
    by (rewrite <- Hrt; apply query_run; [apply Hw|done]).
  assert (forall q', ResolveQueuedContinuation q d = q' <-> followLineage lineageDepth tenant (run_id r) q d = q')
    as Hres.
  { intros q'. unfold ResolveQueuedContinuation, blank. rewrite Hreply, Hqt.
    apply String.eqb_neq in Hid as ->. apply String.eqb_neq in Hpne as ->. done. }
  rewrite validateResumeClaimTx_None. split.
  - intros (q' & E & Hq'). apply Hres in E.
    destruct (follow_launches _ _ _ _ E) as [x [Hx Hl Hn _ _ _]]; [congruence|].
    rewrite Hq', Eq in Hx. injection Hx as <-. exists r. by constructor.
  - intros [p [Ep _ _ _ Er _ Eh]]. cbn [rc_TenantID rc_PersonID rc_TaskID rc_ResumesRunID] in *. rewrite Eq in Ep. injection Ep as <-.
    set (q1 := q <| t_TaskID := run_thread_id r |> <| t_WorkspaceID := run_workspace_id r |>
                 <| t_ExecutionRoots := roots |>).
    destruct (proj2 (resolveAt_launches r q1 Hr Hrt Hid) Er) as (q' & E' & Hne).
    exists q'. pose proof (resolveAt_reply r q1 q' E' Hne) as Heq. split; [|by rewrite Heq].
    rewrite (resolve_leaf q r roots); [exact E'|done..].
Qed.
(** The [n]-th continuation of a Run, or the empty string. *)
Fixpoint descendant (n : nat) (id : string) : string :=
  match n with
  | O => id
  | S n =>
      match query_row (run_at tenant id) (db_runs d) with
      | None => ""
      | Some r => let c := continuedBy tenant r d in if (c =? "")%string then "" else descendant n c
      end
  end.

Lemma own_parent r : In r (db_runs d) -> is_parent r r -> False.
Proof.
  intros Hr Hp. assert (run_wf r) as [Hid _ _ _ _] by (eapply List.Forall_forall in Hr; [exact Hr|apply Hw]).
  apply (no_cycle _ (wf_run_ids _ Hw) (wf_lineage _ Hw) r (wf_runs _ Hw)). apply tc_once. by split_and!.
Qed.

Lemma follow_decides n : forall r q, In r (db_runs d) -> run_tenant_id r = tenant ->
  run_person_id r = t_PersonID q -> run_thread_id r = t_TaskID q \/ t_TaskID q = "" ->
  descendant n (run_id r) = "" ->
  forall e, followLineage n tenant (run_id r) q d <> ResolutionError e.
Proof.
  induction n as [|n IH]; simpl; intros r q Hr Hrt Hp Hth Hd e;
    assert (run_wf r) as [Hid _ _ [roots Hroots] _] by (eapply List.Forall_forall in Hr; [exact Hr|apply Hw]);
    [done|].
  assert (query_row (run_at tenant (run_id r)) (db_runs d) = Some r) as Eq
    by (rewrite <- Hrt; apply query_run; [apply Hw|done]).
  rewrite Eq, Hp, String.eqb_refl in *.
  assert (negb (t_TaskID q =? "")%string && negb (run_thread_id r =? t_TaskID q)%string = false) as ->.
  { destruct Hth as [->| ->]; [rewrite String.eqb_refl; apply andb_false_r|done]. }
  simpl negb. cbv iota. rewrite Hroots. cbv zeta in *.
  destruct (continuedBy tenant r d =? "")%string eqn:Ec; simpl.
  - unfold resolveAt. cbv zeta. repeat case_if; done.
  - case_if; [done|]. apply String.eqb_neq in Ec.
    destruct (continuedBy_child r _ Hr Hrt eq_refl Ec) as (x & Hx & Hpx).
    destruct (run_at_Some _ _ _ _ Hx) as (Hxin & Hxt & Hxid). rewrite <- Hxid in *.
    destruct (run_id x =? run_id r)%string eqn:Exr.
    + exfalso. reflect_bools. assert (x = r) as -> by (by apply (keys_unique_inj (db_runs d)); [apply Hw| | |]).
      by apply (own_parent r).
    + destruct Hpx. apply IH; simpl; try done; try congruence. left. congruence.
Qed.

(** Resolving a reply to a stored Run of the row's person and thread always
    decides, unless that Run has a 64th-generation continuation: the lineage has
    no missing Run, no change of owner and no cycle. *)
Theorem resolution_decides q r :
  normalizeTenant (t_TenantID q) = tenant -> In r (db_runs d) -> run_tenant_id r = tenant ->
  run_person_id r = t_PersonID q -> t_PersonID q <> "" ->
  run_thread_id r = t_TaskID q \/ t_TaskID q = "" ->
  TrimSpace (t_ReplyToRunID q) = run_id r -> descendant lineageDepth (run_id r) = "" ->
  (exists q' wait, ResolveQueuedContinuation q d = Resolved q' wait) \/
  (exists e, ResolveQueuedContinuation q d = Obsolete e).
Proof.
  intros Hqt Hr Hrt Hp Hpne Hth Hreply Hd.
  pose proof (follow_decides lineageDepth r q Hr Hrt Hp Hth Hd) as Hf.
  unfold ResolveQueuedContinuation. case_if; [eauto|]. apply String.eqb_neq in Hpne as ->.
  rewrite Hreply, Hqt. destruct (followLineage _ _ _ _ _); eauto. by edestruct Hf.
Qed.

(** A row that describes one exact effect boundary is never moved to another
    Run: it is launched at the Run it names, waits for it, or is reported
    obsolete, naming the Run that continued it, or because that Run can no longer
    be resumed. *)
Theorem system_continuation_exact q :
  normalizeTenant (t_TenantID q) = tenant -> systemExact q = true ->
  let parent := TrimSpace (t_ReplyToRunID q) in
  parent <> "" ->
  match ResolveQueuedContinuation q d with
  | Resolved q' false => t_ReplyToRunID q' = parent /\ exists r, launch_at q q' r
  | Resolved q' true => t_ReplyToRunID q' = t_ReplyToRunID q
  | Obsolete e => ob_ParentRunID e = parent /\
      exists r, query_row (run_at tenant parent) (db_runs d) = Some r /\
        ob_Status e = run_status r /\
        if (ob_ChildRunID e =? "")%string
        then has_child tenant parent (db_runs d) = false /\
             resumable_now tenant (t_PersonID q) (Some (t_ID q)) d r = false /\ run_status r <> "running"
        else exists c, In c (db_runs d) /\ run_id c = ob_ChildRunID e /\ is_parent r c
  | ResolutionError _ => True
  end.
Proof.
  intros Hqt Hs parent Hne. unfold ResolveQueuedContinuation, blank. fold parent. rewrite Hqt.
  destruct lineageDepth_S as [n ->]. pose proof (follow_launches (S n) parent q) as Hl.
  apply String.eqb_neq in Hne as Hne'. rewrite Hne'. case_if; [done|].
  cbn [followLineage] in *.
  destruct (query_row _ (db_runs d)) as [r|] eqn:Er; [|done].
  destruct (run_at_Some _ _ _ _ Er) as (Hr & Hrt & Hid). case_if; [done|].
  destruct (run_execution_roots r) as [roots|]; [|done]. cbv zeta in *.
  match goal with |- context [systemExact ?x] => set (q1 := x) in * end.
  assert (systemExact q1 = true) as Hs1 by (rewrite <- Hs; apply systemExact_same; by constructor).
  rewrite Hs1 in *. destruct (continuedBy tenant r d =? "")%string eqn:Ec; simpl in *.
  - assert (has_child tenant parent (db_runs d) = false) as Hc.
    { rewrite <- Hid. apply continuedBy_empty; [done|]. by apply String.eqb_eq. }
    assert (run_id r <> "") as Hrid by congruence.
    pose proof (resolveAt_launches r q1 Hr Hrt Hrid) as Hiff.
    destruct (resolveAt tenant r q1 d) as [q' [] | |] eqn:E; try done.
    + unfold resolveAt in E. rewrite Hs1 in E. cbv zeta in E. repeat case_if; by simplify_eq.
    + assert (t_ReplyToRunID q' <> "") as Hq'.
      { unfold resolveAt in E. rewrite Hs1 in E. cbv zeta in E. repeat case_if; simplify_eq; done. }
      pose proof (resolveAt_reply r q1 q' E Hq') as Heq. split; [by rewrite Heq|]. by apply Hl.
    + assert (resumable_now tenant (t_PersonID q) (Some (t_ID q)) d r = false) as Hn.
      { apply not_true_is_false. intros En. apply Hiff in En as (? & ? & _). congruence. }
      unfold resolveAt in E. rewrite Hs1 in E. cbv zeta in E. repeat case_if; simplify_eq; simpl.
      split; [done|]. exists r. split_and!; try done. by reflect_bools.
  - split; [done|]. exists r. rewrite Ec. split; [done|]. split; [done|]. apply String.eqb_neq in Ec.
    destruct (continuedBy_child r _ Hr Hrt eq_refl Ec) as (x & Hx & Hpx).
    apply run_at_Some in Hx as (Hxin & _ & Hxid). eauto.
Qed.
End Resolve.

(** ** From the resolved row to the Run *)

Section Launch.
Context `{RunEnv} `{FinalizeEnv}.

(** What the coordinator starts a resolved row with: the row's claim and the
    Run it replies to. *)
Record launch_options (row : QueueRow) (q' : QueuedTask) (o : StartRunOptions) : Prop := {
  lo_row : so_QueueID o = q_id row;
  lo_token : so_QueueClaimToken o = q_claim_token row;
  lo_parent : so_ResumesRunID o = t_ReplyToRunID q';
  lo_class : so_ExecutionClass o = "work"
}.

Lemma storeRun_succeeds wu now r o d :
  lookup_key (run_id r) (db_runs d) = None ->
  has_child (run_tenant_id r) (run_resumes_run_id r) (db_runs d) = false ->
  (rows_affected (bindable_row r (so_QueueID o) (so_QueueClaimToken o)) (db_queue d) = 1)%Z ->
  existsb (fun u => (u_id u =? wu)%string) (db_work_units d) = false ->
  (forall d1, exists d2, importPlan now r (so_ExactContinuation o) d1 = Ok d2) ->
  exists d', storeRun wu now r o d = Ok d'.
Proof.
  intros Hf Hc Hb Hwu Hplan. unfold storeRun. cbv zeta.
  assert (insertRun r d = Ok (d <| db_runs := db_runs d ++ [r] |>)) as ->.
  { unfold insertRun. rewrite Hc, andb_false_r.
    destruct (existsb _ (db_runs d)) eqn:E; [|done]. apply existsb_exists in E as (x & Hx & E).
    apply String.eqb_eq in E. exfalso. exact (proj1 (lookup_key_None _ _) Hf x Hx E). }
  assert (exists d2, bindQueuedRow r o (d <| db_runs := db_runs d ++ [r] |>) = Ok d2 /\
                     db_work_units d2 = db_work_units d) as (d2 & -> & Ew).
  { unfold bindQueuedRow. case_if; [eauto|]. cbv zeta. simpl. rewrite Hb. simpl. eauto. }
  match goal with |- context [insertWorkUnit wu now r ?x] => set (d3 := x) end.
  assert (db_work_units d3 = db_work_units d) as E3 by (unfold d3; by case_if).
  assert (exists d4, insertWorkUnit wu now r d3 = Ok d4) as (d4 & ->).
  { unfold insertWorkUnit. rewrite E3, Hwu. case_if; eauto. }
  destruct (Hplan d4) as (d5 & ->). eauto.
Qed.

Lemma rows_affected_one {R : Type} `{Keyed R string} p (t : list R) r :
  keys_unique t -> In r t -> p r = true -> (forall x, p x = true -> key x = key r) ->
  rows_affected p t = 1%Z.
Proof.
  intros Hk Hr Hp Hu. rewrite (rows_affected_key (key r)); [|done|done].
  rewrite (lookup_key_In t r Hk Hr). simpl. by rewrite Hp.
Qed.

(** A claimed queue row whose reply was resolved to a work Run becomes a Run
    that continues it: nothing between the resolver's verdict and the commit of
    the start can refuse it, given capacity, a fresh identifier, a readable
    admission and a plan import that succeeds. *)
Theorem resolved_continuation_starts uuid wu now ch summary o row q q' adm own d :
  let tenant := q_tenant_id row in
  let owner := mkRunOwner (t_TaskID q') tenant (t_PersonID q') (t_WorkspaceID q') in
  db_wf d ->
  lookup_key (q_id row) (db_queue d) = Some row ->
  q_status row = QueueStatusStarted -> q_run_id row = "" -> normalizeName ch "cli" = q_channel row ->
  blank (q_id row) = false -> blank (q_claim_token row) = false -> blank (q_person_id row) = false ->
  scanQueuedTask row = Ok q -> ResolveQueuedContinuation q d = Resolved q' false ->
  t_ReplyToRunID q' <> "" -> TrimSpace (t_ReplyToRunID q') = t_ReplyToRunID q' ->
  (forall p, query_row (run_at tenant (t_ReplyToRunID q')) (db_runs d) = Some p ->
     run_execution_class p = "work") ->
  launch_options row q' o ->
  encodeAdmissionSnapshot (so_Admission o) = Ok own ->
  queuedRunAdmissionJSON (so_Admission o) (q_admission_json row) = Ok adm ->
  capacityError owner ch o d = None ->
  lookup_key ("run_" +:+ uuid) (db_runs d) = None ->
  existsb (fun u => (u_id u =? "wu_" +:+ wu)%string) (db_work_units d) = false ->
  (forall r d1, exists d2, importPlan now r (so_ExactContinuation o) d1 = Ok d2) ->
  exists d' r, startRun uuid wu now owner ch summary o d = (d', Ok r) /\
    run_resumes_run_id r = t_ReplyToRunID q' /\ exists p, In p (db_runs d) /\ is_parent p r.
Proof.
  intros tenant owner Hw Hrow Hst Hrun Hch Hb1 Hb2 Hb3 Hscan Hres Hne Htrim Hwork [Lr Lt Lp Lc]
    Henc Hadm Hcap Hfresh Hwu Hplan.
  apply lookup_key_Some in Hrow as [Hin _].
  assert (normalizeTenant tenant = tenant) as Ht by (by apply (wf_tenants _ (wf_queue _ Hw))).
  assert (t_TenantID q = tenant /\ t_PersonID q = q_person_id row /\ t_ID q = q_id row /\
          t_ReplyToRunID q = q_reply_to_run_id row) as (Hqt & Hqp & Hqi & Hqr).
  { unfold scanQueuedTask in Hscan. repeat case_match; by simplify_eq. }
  assert (exists r, launch_at d tenant q q' r) as [p [Hp Hleaf Hnow Hpp Hpt [Hsi Hsp _ _ _]]].
  { unfold ResolveQueuedContinuation in Hres. destruct (blank (t_ReplyToRunID q)) eqn:Eb.
    - simplify_eq. unfold blank in Eb. apply String.eqb_eq in Eb. congruence.
    - destruct (t_PersonID q =? "")%string; [done|]. rewrite Hqt, Ht in Hres.
      by eapply follow_launches. }
  destruct (run_at_Some _ _ _ _ Hp) as (Hpin & Hptn & Hpid).
  assert (run_wf p) as [_ _ Hleg _ Hth] by (eapply List.Forall_forall in Hpin; [exact Hpin|apply Hw]).
  set (r := newRun ("run_" +:+ uuid) now owner ch summary o adm).
  assert (exists d', storeRun ("wu_" +:+ wu) now r o d = Ok d') as [d' Hd'].
  { apply storeRun_succeeds; try done.
    - simpl. by rewrite Lp, Htrim, <- Hpid.
    - rewrite Lr, Lt. apply (rows_affected_one _ _ row); [apply Hw|done| |].
      + unfold bindable_row, claimed_row, has_status, unbound. simpl.
        rewrite Hsp, Hqp, Hch, Hst, Hrun, !String.eqb_refl. done.
      + unfold bindable_row, claimed_row. intros x Hx. reflect_bools. done. }
  exists d', r. split; [|split].
  - unfold startRun. cbv zeta. simpl. rewrite Lc, Lr, Lt, Lp, Hb1, Hb2, Hsp, Hqp, Hb3.
    assert (blank tenant = false) as -> by (rewrite <- Ht; apply normalizeTenant_not_blank).
    simpl. unfold startRunOnce. cbv zeta. rewrite Henc. destruct own as [a own]. rewrite Hcap.
    rewrite Lp, Htrim. apply String.eqb_neq in Hne as Hne'. rewrite Hne'.
    match goal with |- context [validateResumeClaimTx ?c ?i ?x] =>
      assert (validateResumeClaimTx c i x = None) as -> end.
    { apply validateResumeClaimTx_None. exists p. simpl.
      constructor; simpl; try done; try congruence. by apply Hwork. }
    unfold startAdmission. rewrite Lr, Lt. simpl.
    assert ((q_id row =? "")%string = false) as ->.
    { apply String.eqb_neq. intros E. rewrite E in Hb1. done. }
    assert (query_row (claimed_row tenant (t_PersonID q') (q_id row) (q_claim_token row)) (db_queue d) = Some row) as ->.
    { rewrite Hsp, Hqp. destruct (query_row _ (db_queue d)) as [x|] eqn:Ex.
      - apply find_some in Ex as [Hx Ex]. unfold claimed_row in Ex. reflect_bools. f_equal.
        apply (keys_unique_inj (db_queue d)); [apply (wf_ids _ (wf_queue _ Hw))|done|done|].
        unfold key, QueueRow_keyed. congruence.
      - unfold query_row in Ex. eapply find_none in Ex; [|exact Hin].
        unfold claimed_row, has_status in Ex. by rewrite Hst, !String.eqb_refl in Ex. }
    rewrite Hadm. fold r. rewrite Hd', Lc. reflexivity.
  - simpl. by rewrite Lp.
  - exists p. split; [done|]. constructor; simpl; try done; try congruence.
    + by apply Hwork.
    + by eapply resumable_stopped.
Qed.
End Launch.

(** ** Witnesses *)

Lemma resolver_agrees_with_claim_witness :
  let d := after claimed in
  exists r q', In r (db_runs d) /\ ResolveQueuedContinuation claimed_task d = Resolved q' false /\
    t_ReplyToRunID q' = run_id r.
Proof.
  intros d.
  assert (existsb is_run1 (db_runs d) = true) as (r & Hr & E)%stored by (vm_compute; reflexivity).
  unfold is_run1 in E. rewrite !andb_true_iff, !String.eqb_eq in E. destruct E as [[[[E1 E2] E3] E4] E5].
  destruct (proj2 (resolver_agrees_with_claim d (after_wf claimed claimed_ok) "default" eq_refl
    claimed_task r eq_refl Hr E2 E3 E4 ltac:(discriminate) (or_introl E5) (eq_sym E1))) as (q' & Hq & Hrep).
  - rewrite E1, E5. vm_compute. reflexivity.
  - exists r, q'. split; [exact Hr|]. split; [exact Hq|exact Hrep].
Defined.

Lemma resolution_decides_witness :
  let d := after continued in
  (exists q' wait, ResolveQueuedContinuation claimed_task d = Resolved q' wait) \/
  (exists e, ResolveQueuedContinuation claimed_task d = Obsolete e).
Proof.
  intros d.
  assert (existsb is_run1 (db_runs d) = true) as (r & Hr & E)%stored by (vm_compute; reflexivity).
  unfold is_run1 in E. rewrite !andb_true_iff, !String.eqb_eq in E. destruct E as [[[[E1 E2] E3] E4] E5].
  apply (resolution_decides d (after_wf continued continued_ok) "default" claimed_task r
    eq_refl Hr E2 E4 ltac:(discriminate) (or_introl E5) (eq_sym E1)).
  rewrite E1. vm_compute. reflexivity.
Defined.

(** The answer's row carries an [approval-resume] key: it is obsolete once its
    Run was continued. *)
Lemma system_continuation_exact_witness :
  match ResolveQueuedContinuation claimed_task (after continued) with
  | Obsolete e => ob_ParentRunID e = "run_1" /\ ob_ChildRunID e = "run_2"
  | _ => False
  end.
Proof.
  pose proof (system_continuation_exact (after continued) (after_wf continued continued_ok) "default"
    eq_refl claimed_task eq_refl eq_refl ltac:(discriminate)) as Hs. cbv zeta in Hs.
  destruct (ResolveQueuedContinuation claimed_task (after continued)) as [q' w|e|e] eqn:E.
  - exfalso. assert (match ResolveQueuedContinuation claimed_task (after continued) with
                     | Obsolete _ => true | _ => false end = true) as Hb by (vm_compute; reflexivity).
    rewrite E in Hb. discriminate.
  - split; [exact (proj1 Hs)|].
    assert (match ResolveQueuedContinuation claimed_task (after continued) with
            | Obsolete e => ob_ChildRunID e | _ => "" end = "run_2") as Hb by (vm_compute; reflexivity).
    rewrite E in Hb. exact Hb.
  - assert (match ResolveQueuedContinuation claimed_task (after continued) with
            | Obsolete _ => true | _ => false end = true) as Hb by (vm_compute; reflexivity).
    rewrite E in Hb. discriminate.
Defined.

Definition is_claimed_row (q : QueueRow) : bool :=
  (q_id q =? "queue_1")%string && (q_status q =? QueueStatusStarted)%string && (q_run_id q =? "")%string
  && (q_channel q =? "cli")%string && (q_claim_token q =? "claim_t1")%string
  && (q_person_id q =? "p1")%string && (q_tenant_id q =? "default")%string
  && match scanQueuedTask q with
     | Ok t => match ResolveQueuedContinuation t (after claimed) with
               | Resolved t' false => (t_ReplyToRunID t' =? "run_1")%string && (t_TaskID t' =? "th1")%string
                                      && (t_PersonID t' =? "p1")%string && (t_WorkspaceID t' =? "ws1")%string
               | _ => false end
     | Err _ => false end
  && match q_admission_json q with SNone => true | _ => false end.

Definition resume1 : StartRunOptions := resume0 <| so_ExecutionClass := "work" |>.

Lemma resolved_continuation_starts_witness :
  let d := after claimed in
  exists d' r p, startRun "2" "2" (at_second 7) owner0 "cli" "goal" resume1 d = (d', Ok r) /\
    In p (db_runs d) /\ is_parent p r.
Proof.
  intros d. pose proof (after_wf claimed claimed_ok) as Hw. fold d in Hw.
  assert (existsb is_claimed_row (db_queue d) = true) as (row & Hrow & E)%stored by (vm_compute; reflexivity).
  assert (match query_row (run_at "default" "run_1") (db_runs d) with
          | Some p => run_execution_class p | None => "" end = "work") as Hc by (vm_compute; reflexivity).
  assert (capacityError owner0 "cli" resume1 d = None) as Hcap by (vm_compute; reflexivity).
  assert (lookup_key "run_2" (db_runs d) = None) as Hf by (vm_compute; reflexivity).
  assert (existsb (fun u => (u_id u =? "wu_2")%string) (db_work_units d) = false) as Hu
    by (vm_compute; reflexivity).
  unfold is_claimed_row in E. fold d in E. clearbody d. rewrite !andb_true_iff, !String.eqb_eq in E.
  destruct E as [[[[[[[[E1 E2] E3] E4] E5] E6] E7] E8] E9].
  destruct (scanQueuedTask row) as [q|] eqn:Hscan; [|discriminate].
  destruct (ResolveQueuedContinuation q d) as [q' [|]| |] eqn:Hres; try discriminate.
  rewrite !andb_true_iff, !String.eqb_eq in E8. destruct E8 as [[[F1 F2] F3] F4].
  destruct (q_admission_json row) eqn:E10; try discriminate.
  pose proof (resolved_continuation_starts "2" "2" (at_second 7) "cli" "goal" resume1 row q q' SNone
    (zeroSnapshot, SNone) d) as Hs.
  cbv zeta in Hs. rewrite E1, E3, E4, E5, E6, E7, E10, F1, F2, F3, F4 in Hs.
  destruct Hs as (d' & r & Hstart & _ & p & Hp & Hpr); try reflexivity; try assumption.
  - rewrite <- E1. apply (lookup_key_In (db_queue d)); [apply (wf_ids _ (wf_queue _ Hw))|exact Hrow].
  - discriminate.
  - intros p Hp. rewrite Hp in Hc. exact Hc.
  - constructor; rewrite ?E1, ?E5, ?F1; reflexivity.
  - intros r d1. unfold importPlan. case_if; [eauto|]. eexists. reflexivity.
  - exists d', r, p. split; [exact Hstart|]. split; [exact Hp|exact Hpr].
Defined.
