(* ===== verification/Decisions.v ===== *)
(** * Human decisions

    Finality and shape of recorded decisions, one-shot authorizations, the
    continuation every answered parked request has, refused late answers, and
    what the owner's stop withdraws. *)

From stdpp Require Import base tactics list strings.
From Stdlib Require Import ZArith Lia Bool String List Sorted.
From S2P Require Import Prelude GoLib Sql Evolution Admission Store Queue QueueTheory Maintenance Database RunStart Checkpoints Approvals Clarify Cancellation Continuation Finalization Control Scenario ApprovalTheory ControlSteps ControlTheory Continuity.

Section Decisions.
Context `{RunEnv} `{FinalizeEnv}.

Lemma history_app ops1 ops2 d : exec_controls (ops1 ++ ops2) d = exec_controls ops2 (exec_controls ops1 d).
Proof. apply fold_left_app. Qed.

(** ** Decisions are final *)

(** C30: Once a request was approved, rejected, expired or archived, its status,
    its answer with scope, grant and note, its channel and its time never change
    again, nor do the request's owner, Run, thread and payload. *)
Theorem decision_final ops1 ops2 m id a :
  Forall control_ok ops1 -> Forall control_ok ops2 ->
  let d := exec_controls ops1 (emptyDB m) in
  lookup_key id (db_approvals d) = Some a -> a_status a <> "pending" ->
  exists a', lookup_key id (db_approvals (exec_controls ops2 d)) = Some a' /\
    decision_of a' = decision_of a /\ a_decision_recorded_at a' = a_decision_recorded_at a /\
    a_approved_channel a' = a_approved_channel a /\ approval_frozen a a'.
Proof.
  intros Hok1 Hok2 d Hl Hp.
  destruct (approval_descends ops2 d id a Hok2 (history_wf ops1 m Hok1) Hl) as (a' & Hl' & Hf & Hn).
  destruct (an_final _ _ Hn Hp) as (? & ? & ?). eauto 8.
Qed.

(** Every stored request is well formed: a closed set of statuses, waiter
    and authorization states; a decision exactly on decided requests, a rejection
    without grant, an approval without refusal note, the chosen answer named; an
    authorization only on an approved request with a continuation. *)
Theorem recorded_decision_wellformed ops m :
  Forall control_ok ops -> Forall approval_wf (db_approvals (exec_controls ops (emptyDB m))).
Proof. intros Hok. apply wf_approvals, history_wf, Hok. Qed.

(** *** The row that continues a request *)

(** A queued row that names the request: its owner, its thread, the request
    itself, and the Run it replies to. *)
Definition names_request (a : ApprovalRow) (run : string) (q : QueueRow) : Prop :=
  q_tenant_id q = a_tenant_id a /\ q_person_id q = a_person_id a /\ q_thread_id q = a_thread_id a /\
  q_approval_id q = a_id a /\ q_reply_to_run_id q = run /\ q_run_id q = "" /\ q_status q = QueueStatusQueued.

(** The row an answer, or the recovery of a decision, gives a request: the row
    its idempotency key had in the queue [t] already, or a new one with the
    content asked for; a recovered decision's row names the request and no Run to
    reply to. No other operation gives a request its row. *)
Definition continuation_row (op : control_op) (t : list QueueRow) (a : ApprovalRow) (q : QueueRow) : Prop :=
  match op with
  | OpRespondParked _ _ _ _ id _ _ _ req =>
      a_id a = TrimSpace id /\ q_idempotency_key q = TrimSpace (t_IdempotencyKey req) /\
      (In q t \/ names_request a (a_run_id a) q /\ q_content q = t_Content req)
  | OpRecoverDecision _ _ id req =>
      a_id a = TrimSpace id /\ q_idempotency_key q = t_IdempotencyKey req /\
      (In q t \/ names_request a "" q /\ q_content q = t_Content req)
  | _ => False
  end.

(** A request that had its row before. *)
Definition already_linked (d : DB) (a : ApprovalRow) : Prop :=
  exists a0, In a0 (db_approvals d) /\ approval_frozen a0 a /\ a_resume_queue_id a0 = a_resume_queue_id a.

(** A request that an operation gave its row. *)
Definition linked_now (op : control_op) (d : DB) (a : ApprovalRow) : Prop :=
  exists q, In q (db_queue (exec_control op d)) /\ q_id q = a_resume_queue_id a /\
    q_tenant_id q = a_tenant_id a /\ continuation_row op (db_queue d) a q.

Lemma already_linked_refl d a : In a (db_approvals d) -> already_linked d a.
Proof. exists a. by split_and!. Qed.

Lemma linked_frozen op d a0 a :
  approval_frozen a0 a -> a_resume_queue_id a0 = a_resume_queue_id a -> linked_now op d a0 -> linked_now op d a.
Proof.
  intros [Ei Et Ep Er Eth _ _ _ _] E (q & Hq & Hid & Hqt & Hc). exists q. split_and!; [done|congruence..|].
  destruct op; try done; simpl in *; unfold names_request in *; rewrite Ei, Et, Ep, Eth; try rewrite Er; exact Hc.
Qed.

(** A row of the queue stays under its identifier, with what it names. *)
Lemma row_stays ops d q :
  Forall control_ok ops -> db_wf d -> In q (db_queue d) ->
  exists q', lookup_key (q_id q) (db_queue (exec_controls ops d)) = Some q' /\ row_frozen q q'.
Proof.
  intros Hok Hw Hq. destruct (exec_controls_wf ops d Hok Hw) as [Hw2 [_ _ Q _ _]].
  destruct (queue_row_stays _ _ q (wf_ids _ (wf_queue _ Hw)) Q Hq) as (q' & Hq' & [Hf _]).
  exists q'. split; [|done]. rewrite <- (fr_id _ _ Hf).
  apply (lookup_key_In (db_queue (exec_controls ops d))); [apply (wf_ids _ (wf_queue _ Hw2))|done].
Qed.

(** The row a continuation insert yields: the key's row, or the one inserted. *)
Lemma insertContinuation_row row t t' id :
  q_id row <> "" -> q_run_id row = "" -> normalizeTenant (q_tenant_id row) = q_tenant_id row ->
  insertContinuation row t = Ok (t', id) ->
  exists q, In q t' /\ q_id q = id /\ q_tenant_id q = q_tenant_id row /\
    q_idempotency_key q = q_idempotency_key row /\ (In q t \/ q = row).
Proof.
  intros Hi Hr Ht E. destruct (insertContinuation_evolves row t t' id Hi Hr Ht E) as [_ (q & Hq & ? & ? & ? & Hn)].
  exists q. split_and!; try done. unfold insertContinuation in E. cbv zeta in E.
  assert (t' = t \/ t' = t ++ [row]) as [->| ->]; [|by left|].
  { revert E. match goal with |- context [if negb ?x && ?y then _ else _] => destruct (negb x && y) end.
    - destruct (query_row _ t); [|done]. intros [= -> _]. by left.
    - match goal with |- context [if existsb ?f t then _ else _] => destruct (existsb f t) end; [done|]. destruct (query_row _ (t ++ [row])); [|done]. intros [= <- _]. by right. }
  apply in_app_or in Hq as [?|[<-|[]]]; [by left|by right].
Qed.

Lemma same_request tenant id (t : list ApprovalRow) x y :
  keys_unique t -> In x t -> In y t -> approval_at tenant id x = true -> approval_at tenant id y = true -> x = y.
Proof.
  intros U Hx Hy Ax Ay. apply (keys_unique_inj t); [done..|]. unfold approval_at in *.
  unfold key, ApprovalRow_keyed. reflect_bools. congruence.
Qed.

Lemma respondParked_links uuid now tenant person id de ch input req d a :
  keys_unique (db_approvals d) ->
  let op := OpRespondParked uuid now tenant person id de ch input req in
  In a (db_approvals (exec_control op d)) -> already_linked d a \/ linked_now op d a.
Proof.
  intros U op Ha. unfold linked_now. simpl in Ha |- *. revert Ha.
  unfold RespondParkedApprovalAndEnqueue. cbv zeta.
  destruct (normalizeApprovalDecisionValues de input) as [v|]; [|left; by apply already_linked_refl].
  case_if; [left; by apply already_linked_refl|]. case_if; [left; by apply already_linked_refl|].
  destruct (respondParkedTx _ _ _ _ _ _ _ v req d) as [queued d'|r] eqn:E; simpl;
    [|destruct r; [destruct (GetApprovalRequest _ _ d)|]; left; by apply already_linked_refl].
  assert (forall a', In a' (db_approvals d') -> already_linked d a' \/
    exists q, In q (db_queue d') /\ q_id q = a_resume_queue_id a' /\ q_tenant_id q = a_tenant_id a' /\
      continuation_row op (db_queue d) a' q) as G;
    [|destruct (GetApprovalRequest _ _ d'); apply G].
  revert E. unfold respondParkedTx. cbv zeta.
  destruct (query_row _ (db_approvals d)) as [x|] eqn:Ex; [|done]. apply find_some in Ex as [Hx Hxat].
  destruct (answerable _ _ x) eqn:Ean; [|done]. simpl. case_if; [done|].
  destruct (parkedRunAdmissionJSON _ _) as [adm|]; [|done].
  destruct (insertContinuation _ _) as [[queue i]|] eqn:E; [|done]. case_if; [done|].
  intros; simplify_eq. apply insertContinuation_row in E as (q & Hq & Hqi & Hqt & Hqk & Hor);
    [|simpl; case_if; by reflect_bools|done|apply normalizeTenant_idemp].
  simpl in *. match goal with Ha : In _ (update_where _ _ _) |- _ => apply In_update_where in Ha as (y & Hy & ->) end.
  match goal with |- context [if ?c then _ else y] => destruct c eqn:Hc end; [|left; by apply already_linked_refl].
  right. exists q. rewrite !andb_true_iff in Hc. destruct Hc as [[[Hat _] _] _].
  assert (y = x) as -> by exact (same_request _ _ _ _ _ U Hy Hx Hat Hxat).
  unfold answerable in Ean. unfold approval_at in Hat.
  split; [done|]. split; [unfold authorize; by case_if|]. unfold names_request.
  unfold authorize; case_if; simpl; reflect_bools; (split; [congruence|]); (split; [done|]); (split; [done|]);
    (destruct Hor as [?| ->]; [by left|right]; split_and!; simpl; congruence).
Qed.

Lemma recoverDecision_links uuid now id req d a :
  keys_unique (db_approvals d) ->
  let op := OpRecoverDecision uuid now id req in
  In a (db_approvals (exec_control op d)) -> already_linked d a \/ linked_now op d a.
Proof.
  intros U op. unfold linked_now. simpl.
  unfold EnqueueRecoveredApprovalContinuation. cbv zeta.
  case_if; [left; by apply already_linked_refl|].
  destruct (query_row _ (db_approvals d)) as [x|] eqn:Ex; [|left; by apply already_linked_refl].
  destruct (parkedRunAdmissionJSON _ _) as [adm|]; [|left; by apply already_linked_refl].
  destruct (insertContinuation _ _) as [[queue i]|] eqn:E; [|left; by apply already_linked_refl].
  case_if; [left; by apply already_linked_refl|]. simpl. intros (y & Hy & ->)%In_update_where.
  match goal with |- context [if ?c then _ else y] => destruct c eqn:Hc end; [|left; by apply already_linked_refl].
  apply insertContinuation_row in E as (q & Hq & Hqi & Hqt & Hqk & Hor);
    [|simpl; case_if; by reflect_bools|done|apply normalizeTenant_idemp].
  right. exists q. apply andb_true_iff in Hc as [Hat _]. apply find_some in Ex as [Hx Hxat].
  rewrite !andb_true_iff in Hxat. destruct Hxat as [[[Hxat Hp] Ht] _].
  assert (y = x) as -> by exact (same_request _ _ _ _ _ U Hy Hx Hat Hxat).
  unfold approval_at in Hat. simpl in *. unfold names_request, recoverDecision, authorize.
  split; [done|]. case_if; simpl; reflect_bools; (split; [done|]); (split; [congruence|]); (split; [done|]); (split; [done|]);
    (destruct Hor as [?| ->]; [by left|right]; split_and!; simpl; congruence).
Qed.

(** A request has its row from an operation of the history. *)
Lemma link_origin op d a :
  control_ok op -> db_wf d -> In a (db_approvals (exec_control op d)) -> a_resume_queue_id a <> "" ->
  already_linked d a \/ linked_now op d a.
Proof.
  intros Hok Hw Ha Hr. pose proof (wf_approval_ids _ Hw) as U.
  assert (inserts new_run op d) as Hi by (destruct op; simpl; try done; intros r; apply started_new).
  pose proof (exec_control_step new_run op d Hok Hi) as Hs.
  assert (db_step new_run d (exec_control op d) -> already_linked d a \/ linked_now op d a) as Hplain.
  { intros [A _ _ _ _]. left.
    eapply (evolves_origin approval_plain plain_new approval_plain_refl) in A; [| |exact Ha].
    - destruct A as [(a0 & Ha0 & [Hf _] & Hq)|(t0 & a0 & [_ Hn] & _ & Hp)]; [by exists a0|congruence].
    - intros x y z [S1 E1] [S2 E2]. split; [by eapply approval_step_trans|congruence]. }
  destruct op; try (by apply Hplain, Hs); [by apply respondParked_links|by apply recoverDecision_links].
Qed.

Lemma linked_history ops m a :
  Forall control_ok ops ->
  In a (db_approvals (exec_controls ops (emptyDB m))) -> a_resume_queue_id a <> "" ->
  exists ops1 op ops2, ops = ops1 ++ op :: ops2 /\ linked_now op (exec_controls ops1 (emptyDB m)) a.
Proof.
  revert a. induction ops as [|op ops IH] using rev_ind; [done|]. intros a Hok Ha Hr.
  apply List.Forall_app in Hok as [Hok Ho]. apply List.Forall_cons_iff in Ho as [Ho _]. rewrite history_app in Ha.
  destruct (link_origin op _ a Ho (history_wf ops m Hok) Ha Hr) as [(a0 & Ha0 & Hf & E)|Hl].
  - destruct (IH a0 Hok Ha0) as (ops1 & op0 & ops2 & -> & Hl); [congruence|].
    exists ops1, op0, (ops2 ++ [op]). rewrite <- app_assoc. split; [done|]. by eapply linked_frozen.
  - by exists ops, op, [].
Qed.

(** C33: A parked request that was answered, or whose decision was recovered, was
    given the queue row that continues it by that very operation: of the same
    tenant and under the operation's idempotency key, either the row the key
    already had or a new queued one that names the request, its person and its
    thread, and, for an answer, the request's Run as the one it replies to; and
    that row stays, with all it names, through every further history. *)
Theorem answered_parked_continues ops m a :
  Forall control_ok ops ->
  In a (db_approvals (exec_controls ops (emptyDB m))) ->
  decided_status (a_status a) -> a_waiter_state a = "parked" ->
  exists ops1 op ops2 q, ops = ops1 ++ op :: ops2 /\
    let d1 := exec_controls ops1 (emptyDB m) in
    let d2 := exec_control op d1 in
    lookup_key (a_resume_queue_id a) (db_queue d2) = Some q /\ q_tenant_id q = a_tenant_id a /\
    continuation_row op (db_queue d1) a q /\
    forall ops3, Forall control_ok ops3 ->
      exists q', lookup_key (a_resume_queue_id a) (db_queue (exec_controls (ops2 ++ ops3) d2)) = Some q' /\
        row_frozen q q'.
Proof.
  intros Hok Ha Hd Hp. pose proof (history_wf ops m Hok) as Hw.
  assert (approval_wf a) as Haw by (eapply List.Forall_forall in Ha; [exact Ha|apply Hw]).
  destruct (linked_history ops m a Hok Ha) as (ops1 & op & ops2 & E & q & Hq & Hid & Ht & Hc);
    [by apply (aw_linked _ Haw)|].
  exists ops1, op, ops2, q. split; [done|]. intros d1 d2. rewrite <- Hid.
  subst ops. apply List.Forall_app in Hok as [Hok1 Hok2]. apply List.Forall_cons_iff in Hok2 as [Ho Hok2].
  assert (db_wf d2) as Hw2.
  { change d2 with (exec_controls [op] d1). unfold d1. rewrite <- history_app. apply history_wf.
    apply List.Forall_app. auto. }
  split; [by apply (lookup_key_In (db_queue d2)); [apply (wf_ids _ (wf_queue _ Hw2))|]|].
  split; [done|]. split; [done|]. intros ops3 Hok3. by apply row_stays; [apply List.Forall_app|..].
Qed.

(** ** One-shot authorizations *)

Lemma claim_authorization_some now tenant person run fp d id dec gk d' :
  ClaimApprovalResumeAuthorization now tenant person run fp d = (d', Some (id, dec, gk)) ->
  exists a, In a (db_approvals d) /\ a_id a = id /\
    authorization_for now (normalizeTenant tenant) (TrimSpace person) (TrimSpace run) (TrimSpace fp)
      (db_runs d) a = true /\
    TrimSpace run <> "" /\
    d' = d <| db_approvals := update_where (fun x => (a_id x =? a_id a)%string
              && (a_authorization_state x =? "available")%string)
              (consumeAuthorization now (TrimSpace run)) (db_approvals d) |>.
Proof.
  unfold ClaimApprovalResumeAuthorization. cbv zeta. match goal with |- context [if ?c then _ else _] => destruct c eqn:Hg end; [done|].
  apply orb_false_iff in Hg as [[_ Hg%String.eqb_neq]%orb_false_iff _].
  destruct (order_by _ _) as [|a l] eqn:E; [done|]. intros; simplify_eq. exists a.
  assert (In a (a :: l)) as Hin by by left. rewrite <- E in Hin. apply In_order_by, filter_In in Hin as [? ?].
  done.
Qed.

(** Which Runs an authorization is for: the Run its request names and the Runs
    that resume it, or the Runs that resume none when it names no Run. *)
Lemma authorization_lineage now tenant person run fp (runs : list Run) a :
  keys_unique runs -> run <> "" -> authorization_for now tenant person run fp runs a = true ->
  (a_run_id a <> "" ->
     a_run_id a = run \/
     exists r, lookup_key run runs = Some r /\ run_tenant_id r = a_tenant_id a /\
       run_resumes_run_id r = a_run_id a) /\
  (a_run_id a = "" ->
     exists r, lookup_key run runs = Some r /\ run_tenant_id r = a_tenant_id a /\ run_resumes_run_id r = "").
Proof.
  intros U Hr Hc. unfold authorization_for in Hc. apply andb_true_iff in Hc as [Hc Ho]. reflect_bools.
  destruct Ho as [->%String.eqb_eq|Ho]; [by split; auto|].
  destruct (query_row _ runs) as [r|] eqn:Er; [|done]. apply find_some in Er as [Hin Er].
  apply String.eqb_eq in Ho. unfold run_at in Er. reflect_bools.
  assert (lookup_key run runs = Some r) as L by (subst run; by apply (lookup_key_In runs)).
  split; intros; [right|]; exists r; split_and!; congruence.
Qed.

(** C3: A one-shot authorization is consumed by at most one tool call: a Run of the
    same tenant and person gets it only for an approved request with the same
    fingerprint, before it expires; a request that names a Run lends it only to
    that Run and to a Run that resumes it, and one that names no Run only to a
    Run that resumes none; and after that no claim of any Run, after any further
    history, gets it again. *)
Theorem authorization_single_use ops m now tenant person run fp id dec gk d' :
  Forall control_ok ops ->
  let d := exec_controls ops (emptyDB m) in
  ClaimApprovalResumeAuthorization now tenant person run fp d = (d', Some (id, dec, gk)) ->
  (exists a, lookup_key id (db_approvals d) = Some a /\ a_status a = "approved" /\
     a_tenant_id a = normalizeTenant tenant /\ a_person_id a = TrimSpace person /\
     a_authorization_fingerprint a = TrimSpace fp /\ (Unix now <= a_authorization_expires_at a)%Z /\
     (a_run_id a <> "" ->
        a_run_id a = TrimSpace run \/
        exists r, lookup_key (TrimSpace run) (db_runs d) = Some r /\ run_tenant_id r = a_tenant_id a /\
          run_resumes_run_id r = a_run_id a) /\
     (a_run_id a = "" ->
        exists r, lookup_key (TrimSpace run) (db_runs d) = Some r /\ run_tenant_id r = a_tenant_id a /\
          run_resumes_run_id r = "")) /\
  forall ops2 now2 tenant2 person2 run2 fp2, Forall control_ok ops2 ->
    forall dec2 gk2, snd (ClaimApprovalResumeAuthorization now2 tenant2 person2 run2 fp2
                            (exec_controls ops2 d')) <> Some (id, dec2, gk2).
Proof.
  intros Hok d E. pose proof (history_wf ops m Hok) as Hw. fold d in Hw.
  assert (d' = exec_controls [OpClaimAuthorization now tenant person run fp] d) as Ed' by (simpl; by rewrite E).
  destruct (claim_authorization_some _ _ _ _ _ _ _ _ _ _ E) as (a & Ha & Hid & Hc & Hrun & Hd').
  assert (lookup_key id (db_approvals d) = Some a) as Hl.
  { rewrite <- Hid. apply (lookup_key_In (db_approvals d)); [apply Hw|done]. }
  pose proof Hc as Hc'. unfold authorization_for in Hc. reflect_bools. split.
  - exists a. destruct (authorization_lineage _ _ _ _ _ _ a (wf_run_ids _ Hw) Hrun Hc') as [? ?].
    by split_and!.
  - intros ops2 now2 tenant2 person2 run2 fp2 Hok2 dec2 gk2.
    set (d2 := exec_controls ops2 d').
    destruct (ClaimApprovalResumeAuthorization now2 tenant2 person2 run2 fp2 d2) as [d3 got] eqn:E3.
    simpl. intros ->. apply claim_authorization_some in E3 as (b & Hb & Hbid & Hbc & _).
    assert (lookup_key id (db_approvals d') = Some (consumeAuthorization now (TrimSpace run) a)) as Hl'.
    { rewrite Hd'. simpl. rewrite lookup_update.
      - rewrite Hl. simpl. rewrite String.eqb_refl. by rewrite (proj2 (String.eqb_eq _ _)).
      - done. }
    assert (db_wf d') as Hw'.
    { rewrite Ed'. apply exec_controls_wf; [repeat constructor|done]. }
    destruct (approval_descends ops2 d' id _ Hok2 Hw' Hl') as (b' & Hb' & _ & Hn).
    destruct (an_consumed _ _ Hn eq_refl) as [Hcon _].
    apply lookup_key_Some in Hb' as [Hb'in Hb'id].
    destruct (exec_controls_wf ops2 d' Hok2 Hw') as [Hw2 _].
    assert (b = b') as ->.
    { apply (keys_unique_inj (db_approvals d2)); try assumption.
      - exact (wf_approval_ids _ Hw2).
      - rewrite Hb'id. exact Hbid. }
    unfold authorization_for in Hbc. reflect_bools. congruence.
Qed.
(** ** Late answers *)

Lemma approvals_nop d c f : (forall a, In a (db_approvals d) -> c a = false) ->
  d <| db_approvals := update_where c f (db_approvals d) |> = d.
Proof. intros Hc. rewrite update_where_nop by done. by destruct d. Qed.

Lemma clarifies_nop d c f : (forall a, In a (db_clarifies d) -> c a = false) ->
  d <| db_clarifies := update_where c f (db_clarifies d) |> = d.
Proof. intros Hc. rewrite update_where_nop by done. by destruct d. Qed.

Lemma rows_affected_none {R} (c : R -> bool) t : (forall x, In x t -> c x = false) -> rows_affected c t = 0%Z.
Proof. intros Hc. unfold rows_affected. by rewrite filter_all_false. Qed.

(** A row under its key, when the key is unique. *)
Lemma lookup_only {R : Type} `{Keyed R string} (t : list R) k r x :
  keys_unique t -> lookup_key k t = Some r -> In x t -> key x = k -> x = r.
Proof.
  intros Hk [Hr Hrk]%lookup_key_Some Hx Hxk. apply (keys_unique_inj t); congruence.
Qed.

Section Late.
Context (d : DB) (Hw : db_wf d).

Lemma closed_row id a tenant x :
  lookup_key id (db_approvals d) = Some a -> In x (db_approvals d) -> approval_at tenant id x = true -> x = a.
Proof.
  intros Hl Hx Hat. unfold approval_at in Hat. reflect_bools.
  by apply (lookup_only (db_approvals d) id); [apply Hw| | |].
Qed.

Lemma respond_refused now tenant person approvalID decision channel input a :
  lookup_key (TrimSpace approvalID) (db_approvals d) = Some a -> a_status a <> "pending" ->
  exists e, RespondApprovalRequest now tenant person approvalID decision channel input d = (d, Err e).
Proof.
  intros Hl Hp. unfold RespondApprovalRequest. cbv zeta. case_if; [eauto|]. case_if; [eauto|].
  destruct (normalizeApprovalDecisionValues decision input) as [v|]; [|eauto].
  match goal with |- context [update_where ?c _ _] => assert (forall x, In x (db_approvals d) -> c x = false) as Hc end.
  { intros x Hx. cbv beta. apply not_true_is_false. intros Ht. rewrite !andb_true_iff in Ht.
    destruct Ht as [[[Hat _] Hpd] _]. apply (closed_row _ a) in Hat as ->; [|done|done].
    apply a_pending_iff in Hpd. done. }
  rewrite (approvals_nop d _ _ Hc), (rows_affected_none _ _ Hc). simpl.
  destruct (GetApprovalRequest _ _ d) as [[x|]|]; [|eauto|eauto]. repeat (case_if; [eauto|]). eauto.
Qed.

Lemma respond_parked_refused uuid now tenant person approvalID decision channel input q a :
  lookup_key (TrimSpace approvalID) (db_approvals d) = Some a -> a_status a <> "pending" ->
  exists e, RespondParkedApprovalAndEnqueue uuid now tenant person approvalID decision channel input q d = (d, Err e).
Proof.
  intros Hl Hp. unfold RespondParkedApprovalAndEnqueue. cbv zeta.
  destruct (normalizeApprovalDecisionValues decision input) as [v|]; [|eauto].
  case_if; [eauto|]. case_if; [eauto|]. unfold respondParkedTx. cbv zeta.
  destruct (query_row _ (db_approvals d)) as [x|] eqn:Ex; [|simpl; eauto].
  apply find_some in Ex as [Hx Hat]. apply (closed_row _ a) in Hat as ->; [|done|done].
  assert (answerable (TrimSpace person) (t_TaskID q) a = false) as ->; [|simpl; eauto].
  unfold answerable. assert (a_pending a = false) as -> by (by apply String.eqb_neq).
  by rewrite andb_false_r.
Qed.

Lemma closed_clarify id c tenant x :
  lookup_key id (db_clarifies d) = Some c -> In x (db_clarifies d) -> clarify_at tenant id x = true -> x = c.
Proof.
  intros Hl Hx Hat. unfold clarify_at in Hat. reflect_bools.
  by apply (lookup_only (db_clarifies d) id); [apply Hw| | |].
Qed.

Lemma unanswerable_closed id c tenant person :
  lookup_key id (db_clarifies d) = Some c -> c_status c <> "pending" ->
  exists e, unanswerable id person (query_row (clarify_at tenant id) (db_clarifies d)) = Some e.
Proof.
  intros Hl Hp. destruct (query_row _ (db_clarifies d)) as [x|] eqn:Ex; simpl; [|eauto].
  apply find_some in Ex as [Hx Hat]. apply (closed_clarify _ c) in Hat as ->; [|done|done].
  case_if; [eauto|]. assert (c_pending c = false) as -> by (by apply String.eqb_neq). simpl. eauto.
Qed.

Lemma answer_refused uuid now tenant person clarifyID answer channel c :
  lookup_key (TrimSpace clarifyID) (db_clarifies d) = Some c -> c_status c <> "pending" ->
  exists e, AnswerClarifyRequest uuid now tenant person clarifyID answer channel d = (d, Err e).
Proof.
  intros Hl Hp. unfold AnswerClarifyRequest. cbv zeta. do 3 (case_if; [eauto|]).
  destruct (unanswerable_closed _ c (normalizeTenant tenant) person Hl Hp) as [e ->]. eauto.
Qed.

Lemma answer_resume_refused uuid ev now tenant person clarifyID answer channel q c :
  lookup_key (TrimSpace clarifyID) (db_clarifies d) = Some c -> c_status c <> "pending" ->
  exists e, AnswerClarifyRequestWithResume uuid ev now tenant person clarifyID answer channel q d = (d, Err e).
Proof.
  intros Hl Hp. unfold AnswerClarifyRequestWithResume. cbv zeta. case_if; [eauto|].
  unfold answerWithResumeTx. cbv zeta.
  destruct (query_row _ (db_clarifies d)) as [x|] eqn:Ex; [|simpl; eauto].
  apply find_some in Ex as [Hx Hat]. apply (closed_clarify _ c) in Hat as ->; [|done|done].
  assert (c_pending c = false) as -> by (by apply String.eqb_neq). rewrite orb_true_r. simpl. eauto.
Qed.
End Late.

(** C40: An answer that comes too late is refused and changes nothing: once a
    request was decided, expired or archived, or a question answered or expired,
    every later answer to it, live or with a continuation, by anyone and after
    any further history, is an error that leaves the database as it was. *)
Theorem late_answer_refused ops1 ops2 m :
  Forall control_ok ops1 -> Forall control_ok ops2 ->
  let d := exec_controls ops1 (emptyDB m) in
  let d2 := exec_controls ops2 d in
  (forall id a, lookup_key id (db_approvals d) = Some a -> a_status a <> "pending" ->
     forall uuid now tenant person approvalID decision channel input q, TrimSpace approvalID = id ->
       (exists e, RespondApprovalRequest now tenant person approvalID decision channel input d2 = (d2, Err e)) /\
       (exists e, RespondParkedApprovalAndEnqueue uuid now tenant person approvalID decision channel input q d2
                  = (d2, Err e))) /\
  (forall id c, lookup_key id (db_clarifies d) = Some c -> c_status c <> "pending" ->
     forall uuid ev now tenant person clarifyID answer channel q, TrimSpace clarifyID = id ->
       (exists e, AnswerClarifyRequest uuid now tenant person clarifyID answer channel d2 = (d2, Err e)) /\
       (exists e, AnswerClarifyRequestWithResume uuid ev now tenant person clarifyID answer channel q d2
                  = (d2, Err e))).
Proof.
  intros Hok1 Hok2 d d2. pose proof (history_wf ops1 m Hok1) as Hw. fold d in Hw.
  assert (db_wf d2) as Hw2 by by apply exec_controls_wf. split.
  - intros id a Hl Hp uuid now tenant person approvalID decision channel input q <-.
    destruct (approval_descends ops2 d _ a Hok2 Hw Hl) as (a' & Hl' & _ & Hn).
    destruct (an_final _ _ Hn Hp) as (Hd & _). injection Hd as Hs _ _ _ _.
    split; [eapply respond_refused|eapply respond_parked_refused]; try done; congruence.
  - intros id c Hl Hp uuid ev now tenant person clarifyID answer channel q <-.
    destruct (clarify_descends ops2 d _ c Hok2 Hw Hl) as (c' & Hl' & Hs).
    destruct (cs_final _ _ Hs Hp) as (Hst & _).
    split; [eapply answer_refused|eapply answer_resume_refused]; try done; congruence.
Qed.
End Decisions.

(** ** Witnesses *)

Definition is_apr1 (a : ApprovalRow) : bool :=
  (a_id a =? "apr_1")%string && (a_status a =? "approved")%string && (a_waiter_state a =? "parked")%string
  && (a_resume_queue_id a =? "queue_1")%string.

(** The answered request, by evaluation. *)
Lemma answered_request : exists a,
  lookup_key "apr_1" (db_approvals (after answered)) = Some a /\ In a (db_approvals (after answered)) /\
  a_status a = "approved" /\ a_waiter_state a = "parked" /\ a_resume_queue_id a = "queue_1".
Proof.
  assert (existsb is_apr1 (db_approvals (after answered)) = true) as (a & Ha & E)%stored by (vm_compute; reflexivity).
  assert (db_wf (after answered)) as Hw by (apply after_wf; repeat constructor).
  unfold is_apr1 in E. rewrite !andb_true_iff, !String.eqb_eq in E. destruct E as [[[E1 E2] E3] E4].
  exists a. rewrite <- E1.
  split; [exact (lookup_key_In (db_approvals (after answered)) a (wf_approval_ids _ Hw) Ha)|].
  repeat (split; [assumption|]). assumption.
Qed.

Lemma decision_final_witness :
  exists a a', lookup_key "apr_1" (db_approvals (after answered)) = Some a /\ a_status a = "approved" /\
    lookup_key "apr_1" (db_approvals (exec_controls [claim_op; resume_op] (after answered))) = Some a' /\
    decision_of a' = decision_of a.
Proof.
  destruct answered_request as (a & Hl & _ & Hs & _ & _).
  destruct (decision_final answered [claim_op; resume_op] (mkMaintState [] [] []) "apr_1" a)
    as (a' & Hl' & Hd & _); [repeat constructor|repeat constructor|exact Hl|rewrite Hs; discriminate|].
  exists a, a'. split; [exact Hl|]. split; [exact Hs|]. split; [exact Hl'|exact Hd].
Defined.

Lemma recorded_decision_wellformed_witness :
  exists a, In a (db_approvals (after continued)) /\ approval_wf a.
Proof.
  assert (existsb is_apr1 (db_approvals (after continued)) = true) as (a & Ha & _)%stored by (vm_compute; reflexivity). exists a. split; [exact Ha|].
  exact (proj1 (List.Forall_forall _ _)
    (recorded_decision_wellformed continued (mkMaintState [] [] []) continued_ok) a Ha).
Defined.

Lemma answered_parked_continues_witness :
  exists a ops1 op ops2 q, a_status a = "approved" /\ answered = ops1 ++ op :: ops2 /\
    lookup_key (a_resume_queue_id a) (db_queue (exec_control op (exec_controls ops1 (emptyDB (mkMaintState [] [] []))))) = Some q /\
    continuation_row op (db_queue (exec_controls ops1 (emptyDB (mkMaintState [] [] [])))) a q.
Proof.
  destruct answered_request as (a & _ & Ha & Hs & Hp & Hr).
  destruct (answered_parked_continues answered (mkMaintState [] [] []) a) as (ops1 & op & ops2 & q & E & Hq & _ & Hc & _);
    [repeat constructor|exact Ha|left; exact Hs|exact Hp|].
  exists a, ops1, op, ops2, q. exact (conj Hs (conj E (conj Hq Hc))).
Defined.

Lemma authorization_single_use_witness :
  exists d', ClaimApprovalResumeAuthorization (at_second 8) "default" "p1" "run_2" "fp" (after continued)
               = (d', Some ("apr_1", "run", "")) /\
    snd (ClaimApprovalResumeAuthorization (at_second 9) "default" "p1" "run_2" "fp" d') <> Some ("apr_1", "run", "").
Proof.
  assert (snd (ClaimApprovalResumeAuthorization (at_second 8) "default" "p1" "run_2" "fp" (after continued))
          = Some ("apr_1", "run", "")) as Hgot by (vm_compute; reflexivity).
  destruct (ClaimApprovalResumeAuthorization (at_second 8) "default" "p1" "run_2" "fp" (exec_controls continued _))
    as [d' got] eqn:E.
  cbn [snd] in Hgot. subst got. exists d'. split; [reflexivity|].
  destruct (authorization_single_use continued (mkMaintState [] [] []) (at_second 8) "default" "p1" "run_2" "fp"
    "apr_1" "run" "" d' continued_ok E) as [_ Honce].
  exact (Honce [] (at_second 9) "default" "p1" "run_2" "fp" (List.Forall_nil _) "run" "").
Defined.

Lemma late_answer_refused_witness :
  exists e, RespondParkedApprovalAndEnqueue "q2" (at_second 9) "default" "p1" "apr_1" "reject" "cli" decision0 answer0
    (exec_controls [claim_op; resume_op] (after answered)) =
    (exec_controls [claim_op; resume_op] (after answered), Err e).
Proof.
  destruct answered_request as (a & Hl & _ & Hs & _ & _).
  destruct (late_answer_refused answered [claim_op; resume_op] (mkMaintState [] [] [])) as [Hr _];
    [repeat constructor|repeat constructor|].
  destruct (Hr "apr_1" a Hl ltac:(rewrite Hs; discriminate) "q2" (at_second 9) "default" "p1" "apr_1" "reject"
    "cli" decision0 answer0 ltac:(vm_compute; reflexivity)) as [_ He].
  exact He.
Defined.
