(* ===== verification/Grants.v ===== *)
(** * Approval grants

    The remembered answers to a class of actions ([control/approval_grants.go]): a person
    grants a class for all of their work or for one workspace, until a deadline or for
    good, and can withdraw it.  The table is refined to what it stands for, a finite map
    from classes to their last decision. *)

From stdpp Require Import base tactics list strings gmap.
From Stdlib Require Import ZArith Lia Bool String List.
From S2P Require Import Prelude GoLib Sql Evolution Store Database Approvals.

(** An [approval_grants] row; times are Unix seconds, zero stands for none. *)
Record ApprovalGrant := mkGrant {
  ag_ID : string; ag_TenantID : string; ag_PersonID : string; ag_ScopeKind : string; ag_ScopeID : string;
  ag_PatternKey : string; ag_CreatedAt : Z; ag_ExpiresAt : Z; ag_RevokedAt : Z }.

#[export] Instance ApprovalGrant_eta : Eta ApprovalGrant := fun g =>
  mkGrant (ag_ID g) (ag_TenantID g) (ag_PersonID g) (ag_ScopeKind g) (ag_ScopeID g) (ag_PatternKey g) (ag_CreatedAt g)
    (ag_ExpiresAt g) (ag_RevokedAt g).

#[export] Instance ApprovalGrant_keyed : Keyed ApprovalGrant string := ag_ID.

(** The columns of the table's UNIQUE constraint. *)
Definition grant_class : Type := string * string * string * string * string.
Definition class_of (g : ApprovalGrant) : grant_class := (ag_TenantID g, ag_PersonID g, ag_ScopeKind g, ag_ScopeID g, ag_PatternKey g).

Definition GrantApproval (uuid : string) (now : Time) (scopeKind tenantID personID scopeID patternKey : string) (expiresAt : Time)
    (t : list ApprovalGrant) : list ApprovalGrant * option error :=
  let scopeKind := normalizeGrantScope scopeKind in
  if negb (scopeKind =? "person")%string && negb (scopeKind =? "workspace")%string
  then (t, Some (Errorf "grant scope must be person or workspace")) else
  let '(tenantID, personID, scopeID, patternKey) := (normalizeTenant tenantID, TrimSpace personID, TrimSpace scopeID, TrimSpace patternKey) in
  if (personID =? "")%string || (scopeID =? "")%string || (patternKey =? "")%string
  then (t, Some (Errorf "person id, scope id and pattern key are required")) else
  let expiry := if IsZero expiresAt then 0%Z else Unix expiresAt in
  let g := mkGrant ("agr_" +:+ uuid) tenantID personID scopeKind scopeID patternKey (Unix now) expiry 0 in
  if existsb (fun x => (ag_ID x =? ag_ID g)%string) t then (t, Some (uniqueViolation "approval_grants.id")) else
  if existsb (fun x => bool_decide (class_of x = class_of g)) t
  then (update_where (fun x => bool_decide (class_of x = class_of g))
          (fun x => x <| ag_CreatedAt := Unix now |> <| ag_ExpiresAt := expiry |> <| ag_RevokedAt := 0%Z |>) t, None)
  else (t ++ [g], None).

(** The row still authorizes its class. *)
Definition grant_active (now : Time) (g : ApprovalGrant) : bool :=
  (ag_RevokedAt g =? 0)%Z && ((ag_ExpiresAt g =? 0)%Z || (Unix now <? ag_ExpiresAt g)%Z).

Definition IsApprovalGranted (now : Time) (tenantID personID workspaceID patternKey : string) (notAfter : Time) (t : list ApprovalGrant) : bool :=
  let '(tenantID, personID, workspaceID, patternKey) := (normalizeTenant tenantID, TrimSpace personID, TrimSpace workspaceID, TrimSpace patternKey) in
  if (personID =? "")%string || (patternKey =? "")%string then false else
  let cutoff := if IsZero notAfter then 0%Z else Unix notAfter in
  existsb (fun g =>
    (ag_TenantID g =? tenantID)%string && (ag_PersonID g =? personID)%string && (ag_PatternKey g =? patternKey)%string
    && grant_active now g && ((cutoff =? 0)%Z || (ag_CreatedAt g <=? cutoff)%Z)
    && ((ag_ScopeKind g =? "person")%string && (ag_ScopeID g =? personID)%string
        || (ag_ScopeKind g =? "workspace")%string && (ag_ScopeID g =? workspaceID)%string && negb (workspaceID =? "")%string)) t.

Definition newest_grant (a b : ApprovalGrant) : bool :=
  (ag_CreatedAt b <? ag_CreatedAt a)%Z || (ag_CreatedAt a =? ag_CreatedAt b)%Z && String.leb (ag_ID b) (ag_ID a).

(** What a listing shows: a deadline that is not positive reads as none. *)
Definition scan_grant (g : ApprovalGrant) : ApprovalGrant :=
  g <| ag_ExpiresAt := Z.max 0 (ag_ExpiresAt g) |> <| ag_RevokedAt := Z.max 0 (ag_RevokedAt g) |>.

Definition ListApprovalGrants (now : Time) (tenantID personID : string) (includeInactive : bool) (t : list ApprovalGrant) : list ApprovalGrant :=
  let '(tenantID, personID) := (normalizeTenant tenantID, TrimSpace personID) in
  if (personID =? "")%string then [] else
  map scan_grant (order_by newest_grant
    (select_where (fun g => (ag_TenantID g =? tenantID)%string && (ag_PersonID g =? personID)%string && (includeInactive || grant_active now g)) t)).

Definition ListAllApprovalGrants (now : Time) (t : list ApprovalGrant) : list ApprovalGrant :=
  map scan_grant (order_by newest_grant (select_where (grant_active now) t)).

Definition RevokeApprovalGrant (now : Time) (tenantID personID grantID : string) (t : list ApprovalGrant) : list ApprovalGrant * bool :=
  let '(tenantID, personID, grantID) := (normalizeTenant tenantID, TrimSpace personID, TrimSpace grantID) in
  if (personID =? "")%string || (grantID =? "")%string then (t, false) else
  let c := fun g => (ag_TenantID g =? tenantID)%string && (ag_PersonID g =? personID)%string && (ag_ID g =? grantID)%string && (ag_RevokedAt g =? 0)%Z in
  (update_where c (fun g => g <| ag_RevokedAt := Unix now |>) t, (0 <? rows_affected c t)%Z).

(** ** What the table stands for

    A class has at most one standing decision; an identifier names a class for good. *)

Record GrantDecision := mkGrantDecision { dn_granted : Z; dn_until : Z; dn_withdrawn : Z }.
Record GrantSpec := mkGrantSpec { gs_standing : gmap grant_class GrantDecision; gs_names : gmap string grant_class }.

Definition empty_spec : GrantSpec := mkGrantSpec ∅ ∅.

Definition spec_grant (id : string) (c : grant_class) (at_ until : Z) (s : GrantSpec) : GrantSpec :=
  mkGrantSpec (<[c := mkGrantDecision at_ until 0]> (gs_standing s))
    (match gs_standing s !! c with Some _ => gs_names s | None => <[id := c]> (gs_names s) end).

Definition spec_revoke (tenant person id : string) (at_ : Z) (s : GrantSpec) : GrantSpec :=
  match gs_names s !! id with
  | Some (t, p, k, i, q) =>
      if (t =? tenant)%string && (p =? person)%string
      then mkGrantSpec (alter (fun n => if (dn_withdrawn n =? 0)%Z then mkGrantDecision (dn_granted n) (dn_until n) at_ else n) (t, p, k, i, q) (gs_standing s))
             (gs_names s)
      else s
  | None => s
  end.

Definition decision_active (now cutoff : Z) (n : GrantDecision) : bool :=
  (dn_withdrawn n =? 0)%Z && ((dn_until n =? 0)%Z || (now <? dn_until n)%Z) && ((cutoff =? 0)%Z || (dn_granted n <=? cutoff)%Z).

Definition spec_releases (now cutoff : Z) (tenant person workspace pattern : string) (s : GrantSpec) : bool :=
  let active c := match gs_standing s !! c with Some n => decision_active now cutoff n | None => false end in
  active (tenant, person, "person", person, pattern)
  || (negb (workspace =? "")%string && active (tenant, person, "workspace", workspace, pattern)).

(** The refinement relation. *)
Record refines (t : list ApprovalGrant) (s : GrantSpec) : Prop := {
  rf_ids : keys_unique t;
  rf_once : List.NoDup (map class_of t);
  rf_standing : forall c n, gs_standing s !! c = Some n <->
    exists g, In g t /\ class_of g = c /\ n = mkGrantDecision (ag_CreatedAt g) (ag_ExpiresAt g) (ag_RevokedAt g);
  rf_names : forall id c, gs_names s !! id = Some c <-> exists g, In g t /\ ag_ID g = id /\ class_of g = c }.

Lemma refines_empty : refines [] empty_spec.
Proof.
  constructor; [apply keys_unique_nil|constructor|..].
  - intros c n. simpl. rewrite lookup_empty. split; [done|]. by intros (g & [] & _).
  - intros id c. simpl. rewrite lookup_empty. split; [done|]. by intros (g & [] & _).
Qed.

Lemma class_inj t x y : List.NoDup (map class_of t) -> In x t -> In y t -> class_of x = class_of y -> x = y.
Proof.
  induction t as [|z t IH]; simpl; [done|]. intros [N U]%NoDup_cons_iff [<-|Hx] [<-|Hy] E; auto.
  - exfalso. apply N. rewrite E. by apply in_map.
  - exfalso. apply N. rewrite <- E. by apply in_map.
Qed.

(** An update of the row of one class, or of one id. *)
Lemma refines_update t s c0 h n0 g0 : refines t s -> In g0 t -> class_of g0 = c0 ->
  (forall g, class_of (h g) = class_of g /\ ag_ID (h g) = ag_ID g) ->
  n0 = mkGrantDecision (ag_CreatedAt (h g0)) (ag_ExpiresAt (h g0)) (ag_RevokedAt (h g0)) ->
  forall p, (forall g, In g t -> p g = true <-> g = g0) ->
  refines (update_where p h t) (mkGrantSpec (<[c0 := n0]> (gs_standing s)) (gs_names s)).
Proof.
  intros [I O S N] H0 <- Hh -> p Hp.
  assert (forall g, In g (update_where p h t) <-> g = h g0 \/ In g t /\ g <> g0) as M.
  { intros g. rewrite In_update_where. split.
    - intros (x & Hx & ->). destruct (p x) eqn:E; [left; by apply Hp in E as ->|right].
      split; [done|]. intros ->. by rewrite (proj2 (Hp g0 H0) eq_refl) in E.
    - intros [->|[Hg Ng]]; [exists g0; by rewrite (proj2 (Hp g0 H0) eq_refl)|].
      exists g. split; [done|]. destruct (p g) eqn:E; [by apply Hp in E|done]. }
  constructor.
  - apply keys_unique_update; [|done]. intros r. apply Hh.
  - rewrite map_update_where; [done|]. intros r _. apply Hh.
  - intros c n. simpl. rewrite lookup_insert_Some, S. split.
    + intros [[<- <-]|[Nc (g & Hg & <- & ->)]].
      * exists (h g0). split; [apply M; by left|]. split; [apply Hh|done].
      * exists g. split; [apply M; right; split; [done|by intros ->]|done].
    + intros (g & [->|[Hg Ng]]%M & <- & ->); [left; by rewrite (proj1 (Hh g0))|].
      right. split; [|by exists g]. intros E. apply Ng. symmetry. by apply (class_inj t).
  - intros id c. simpl. rewrite N. split.
    + intros (g & Hg & <- & <-). destruct (decide (class_of g = class_of g0)) as [E|E].
      * assert (g = g0) as -> by by apply (class_inj t). exists (h g0). split; [apply M; by left|]. by destruct (Hh g0) as [-> ->].
      * exists g. split; [apply M; right; split; [done|by intros ->]|done].
    + intros (g & [->|[Hg Ng]]%M & <- & <-); [|by exists g]. exists g0. by destruct (Hh g0) as [-> ->].
Qed.

(** ** Histories *)

Inductive grant_op :=
| OGrant (uuid : string) (now : Time) (scopeKind tenantID personID scopeID patternKey : string) (expiresAt : Time)
| ORevoke (now : Time) (tenantID personID grantID : string).

Definition exec_grant (o : grant_op) (t : list ApprovalGrant) : list ApprovalGrant :=
  match o with
  | OGrant u now k tn p i q e => fst (GrantApproval u now k tn p i q e t)
  | ORevoke now tn p i => fst (RevokeApprovalGrant now tn p i t)
  end.

(** The same history on the specification: a complete grant of an unused identifier sets
    the decision on its class, a withdrawal ends the one its identifier names. *)
Definition exec_spec (o : grant_op) (s : GrantSpec) : GrantSpec :=
  match o with
  | OGrant u now k tn p i q e =>
      let k := normalizeGrantScope k in
      if one_of ["person"; "workspace"] k && negb (blank p) && negb (blank i) && negb (blank q)
      then match gs_names s !! ("agr_" +:+ u) with
           | Some _ => s
           | None => spec_grant ("agr_" +:+ u) (normalizeTenant tn, TrimSpace p, k, TrimSpace i, TrimSpace q) (Unix now)
                       (if IsZero e then 0%Z else Unix e) s
           end
      else s
  | ORevoke now tn p i => if blank p || blank i then s else spec_revoke (normalizeTenant tn) (TrimSpace p) (TrimSpace i) (Unix now) s
  end.

Lemma names_taken t s id : refines t s -> existsb (fun x => (ag_ID x =? id)%string) t = true <-> gs_names s !! id <> None.
Proof.
  intros R. rewrite existsb_exists. split.
  - intros (g & Hg & E%String.eqb_eq). by rewrite (proj2 (rf_names _ _ R id (class_of g)) (ex_intro _ g (conj Hg (conj E eq_refl)))).
  - destruct (gs_names s !! id) as [c|] eqn:L; [|done]. intros _. apply (rf_names _ _ R) in L as (g & Hg & E & _).
    exists g. split; [done|by apply String.eqb_eq].
Qed.

Lemma insert_refines t s g : refines t s -> lookup_key (ag_ID g) t = None -> (forall x, In x t -> class_of x <> class_of g) ->
  refines (t ++ [g]) (mkGrantSpec (<[class_of g := mkGrantDecision (ag_CreatedAt g) (ag_ExpiresAt g) (ag_RevokedAt g)]> (gs_standing s))
                        (<[ag_ID g := class_of g]> (gs_names s))).
Proof.
  intros [I O S N] F C. constructor.
  - by apply keys_unique_snoc.
  - rewrite map_app. simpl. apply List.NoDup_app; [done|apply List.NoDup_cons; [by intros []|apply List.NoDup_nil]|]. intros c (x & <- & Hx)%in_map_iff [E|[]]. by apply (C x Hx).
  - intros c n. simpl. rewrite lookup_insert_Some, S. split.
    + intros [[<- <-]|[Nc (x & Hx & E & ->)]]; [exists g|exists x]; (split; [apply in_or_app; simpl; tauto|done]).
    + intros (x & [Hx|[<-|[]]]%in_app_or & <- & ->); [right|by left]. split; [by apply not_eq_sym, C|by exists x].
  - intros id c. simpl. rewrite lookup_insert_Some, N. split.
    + intros [[<- <-]|[Ni (x & Hx & E & Ec)]]; [exists g|exists x]; (split; [apply in_or_app; simpl; tauto|done]).
    + intros (x & [Hx|[<-|[]]]%in_app_or & <- & <-); [right|by left]. rewrite lookup_key_None in F.
      split; [by apply not_eq_sym, (F x)|by exists x].
Qed.

Lemma grant_refines u now k tn p i q e t s : refines t s -> refines (exec_grant (OGrant u now k tn p i q e) t) (exec_spec (OGrant u now k tn p i q e) s).
Proof.
  intros R. cbn [exec_grant exec_spec]. unfold GrantApproval, blank. cbv zeta. set (k' := normalizeGrantScope k).
  assert (negb (k' =? "person")%string && negb (k' =? "workspace")%string = negb (one_of ["person"; "workspace"] k')) as ->.
  { unfold one_of. cbn [existsb]. by rewrite orb_false_r, negb_orb. }
  destruct (one_of _ k'); cbn [negb andb]; [|done].
  destruct (TrimSpace p =? "")%string eqn:E1; cbn [negb andb orb]; [done|].
  destruct (TrimSpace i =? "")%string eqn:E2; cbn [negb andb orb]; [done|].
  destruct (TrimSpace q =? "")%string eqn:E3; cbn [negb andb orb]; [done|].
  set (g := mkGrant _ _ _ _ _ _ _ _ _). pose proof (names_taken t s (ag_ID g) R) as T.
  change ("agr_" +:+ u) with (ag_ID g).
  destruct (existsb (fun x => (ag_ID x =? ag_ID g)%string) t) eqn:X.
  - destruct (gs_names s !! _); [done|]. by destruct (proj1 T eq_refl).
  - destruct (gs_names s !! _); [by specialize (proj2 T ltac:(done))|]. unfold spec_grant. clear T.
    match goal with |- context [existsb ?f t] => destruct (existsb f t) eqn:Y end; cbn [fst].
    + apply existsb_exists in Y as (g0 & H0 & E0%bool_decide_eq_true). change (class_of g) with (normalizeTenant tn, TrimSpace p, k', TrimSpace i, TrimSpace q) in *.
      rewrite (proj2 (rf_standing _ _ R _ _) (ex_intro _ g0 (conj H0 (conj E0 eq_refl)))).
      apply (refines_update t s _ _ _ g0 R H0 E0); [done|done|]. intros x Hx. rewrite bool_decide_eq_true. split; [|by intros ->].
      intros E. apply (class_inj t); [apply (rf_once _ _ R)|done..|congruence].
    + change (normalizeTenant tn, TrimSpace p, k', TrimSpace i, TrimSpace q) with (class_of g).
      assert (forall x, In x t -> class_of x <> class_of g) as C.
      { intros x Hx E. pose proof (existsb_false_In _ _ _ Y Hx) as B. by apply bool_decide_eq_false in B. }
      destruct (gs_standing s !! class_of g) eqn:L; [apply (rf_standing _ _ R) in L as (x & Hx & E & _); by destruct (C x Hx)|].
      apply (insert_refines t s g R); [|done]. apply lookup_key_None. intros x Hx E. pose proof (existsb_false_In _ _ _ X Hx) as B.
      by apply String.eqb_neq in B.
Qed.

(** Altering a present class sets it. *)
Lemma alter_present (m : gmap grant_class GrantDecision) c f n : m !! c = Some n -> alter f c m = <[c := f n]> m.
Proof.
  intros L. apply map_eq. intros c'. destruct (decide (c = c')) as [<-|Ne].
  - by rewrite lookup_alter_eq, lookup_insert_eq, L.
  - by rewrite lookup_alter_ne, lookup_insert_ne.
Qed.

Lemma revoke_refines now tn p i t s : refines t s -> refines (exec_grant (ORevoke now tn p i) t) (exec_spec (ORevoke now tn p i) s).
Proof.
  intros R. cbn [exec_grant exec_spec]. unfold RevokeApprovalGrant, blank. cbv zeta. destruct (_ || _); [done|]. cbn [fst]. unfold spec_revoke.
  destruct (gs_names s !! TrimSpace i) as [[[[[ct cp] ck] ci] cq]|] eqn:L.
  - apply (rf_names _ _ R) in L as (g0 & H0 & E0 & Ec). unfold class_of in Ec. injection Ec as <- <- <- <- <-.
    assert (forall x, In x t -> ag_ID x = TrimSpace i -> x = g0) as U by (intros; apply (keys_unique_inj t); [apply (rf_ids _ _ R)|done..|cbv [key ApprovalGrant_keyed]; congruence]).
    pose proof (proj2 (rf_standing _ _ R _ _) (ex_intro _ g0 (conj H0 (conj eq_refl eq_refl)))) as S0. unfold class_of in S0.
    destruct (_ && _) eqn:Ow.
    + assert (ag_TenantID g0 = normalizeTenant tn /\ ag_PersonID g0 = TrimSpace p) as [Et Ep] by by reflect_bools.
      rewrite (alter_present _ _ _ _ S0). cbn [dn_withdrawn dn_granted dn_until]. destruct (ag_RevokedAt g0 =? 0)%Z eqn:Rv.
      * apply (refines_update t s _ _ _ g0 R H0 eq_refl); [done|done|]. intros x Hx. split; [intros C; reflect_bools; by apply U|].
        intros ->. by rewrite Et, Ep, E0, Rv, !String.eqb_refl.
      * rewrite update_where_nop; [rewrite insert_id by done; by destruct s|]. intros x Hx. apply not_true_is_false. intros C. reflect_bools.
        assert (x = g0) as -> by by apply U. congruence.
    + rewrite update_where_nop; [done|]. intros x Hx. apply not_true_is_false. intros C. reflect_bools.
      assert (x = g0) as -> by by apply U. apply andb_false_iff in Ow as [Ow|Ow]; by apply String.eqb_neq in Ow.
  - rewrite update_where_nop; [done|]. intros x Hx. apply not_true_is_false. intros C. reflect_bools.
    assert (gs_names s !! TrimSpace i = Some (class_of x)) as F by (apply (rf_names _ _ R); by exists x). by pose proof (eq_trans (eq_sym L) F).
Qed.

Definition grant_table (ops : list grant_op) : list ApprovalGrant := List.fold_left (fun t o => exec_grant o t) ops [].
Definition grant_meaning (ops : list grant_op) : GrantSpec := List.fold_left (fun s o => exec_spec o s) ops empty_spec.

Lemma history_refines ops t s : refines t s -> refines (List.fold_left (fun t o => exec_grant o t) ops t) (List.fold_left (fun s o => exec_spec o s) ops s).
Proof.
  revert t s. induction ops as [|[] ops IH]; intros t s R; [done|..]; apply IH; [by apply grant_refines|by apply revoke_refines].
Qed.

(** A decision of the specification is active exactly when an active row records it. *)
Lemma active_row t s now cutoff c : refines t s ->
  match gs_standing s !! c with Some n => decision_active now cutoff n | None => false end = true <->
  exists g, In g t /\ class_of g = c /\
    (ag_RevokedAt g =? 0)%Z && ((ag_ExpiresAt g =? 0)%Z || (now <? ag_ExpiresAt g)%Z) && ((cutoff =? 0)%Z || (ag_CreatedAt g <=? cutoff)%Z) = true.
Proof.
  intros R. split.
  - destruct (gs_standing s !! c) as [n|] eqn:L; [|done]. apply (rf_standing _ _ R) in L as (g & Hg & E & ->). intros A. by exists g.
  - intros (g & Hg & E & A). by rewrite (proj2 (rf_standing _ _ R c _) (ex_intro _ g (conj Hg (conj E eq_refl)))).
Qed.

Lemma releases_agree t s now tn p w q na : refines t s ->
  IsApprovalGranted now tn p w q na t
  = negb (blank p) && negb (blank q)
    && spec_releases (Unix now) (if IsZero na then 0%Z else Unix na) (normalizeTenant tn) (TrimSpace p) (TrimSpace w) (TrimSpace q) s.
Proof.
  intros R. unfold IsApprovalGranted, blank. cbv zeta. destruct (TrimSpace p =? "")%string; cbn [orb negb andb]; [done|].
  destruct (TrimSpace q =? "")%string; cbn [orb negb andb]; [done|]. apply eq_true_iff_eq. unfold spec_releases.
  rewrite orb_true_iff, andb_true_iff, !(active_row t s) by done. rewrite existsb_exists. unfold grant_active. split.
  - intros (g & Hg & C). apply andb_true_iff in C as [C O]. apply andb_true_iff in C as [C K]. apply andb_true_iff in C as [C A].
    apply andb_true_iff in C as [C Eq%String.eqb_eq]. apply andb_true_iff in C as [Et%String.eqb_eq Ep%String.eqb_eq].
    apply orb_true_iff in O as [O|O]; [|apply andb_true_iff in O as [O W]]; apply andb_true_iff in O as [Sk%String.eqb_eq Si%String.eqb_eq];
      [left|right; split; [done|]]; exists g; unfold class_of; rewrite Et, Ep, Eq, Sk, Si, A, K; done.
  - intros H.
    assert (exists g, In g t /\ (class_of g = (normalizeTenant tn, TrimSpace p, "person"%string, TrimSpace p, TrimSpace q)
        \/ class_of g = (normalizeTenant tn, TrimSpace p, "workspace"%string, TrimSpace w, TrimSpace q) /\ negb (TrimSpace w =? "")%string = true)
      /\ (ag_RevokedAt g =? 0)%Z && ((ag_ExpiresAt g =? 0)%Z || (Unix now <? ag_ExpiresAt g)%Z)
         && (((if IsZero na then 0 else Unix na) =? 0)%Z || (ag_CreatedAt g <=? (if IsZero na then 0 else Unix na))%Z) = true) as (g & Hg & C & A)
      by (destruct H as [(g & Hg & E & A)|(W & g & Hg & E & A)]; exists g; tauto).
    exists g. split; [done|]. unfold class_of in C. apply andb_true_iff in A as [A K].
    destruct C as [C|[C W]]; injection C as Et Ep Sk Si Eq; rewrite Et, Ep, Eq, Sk, Si, A, K, !String.eqb_refl; cbn [andb orb]; [done|].
    rewrite W. done.
Qed.

(** C32: The grants table implements its specification: after any history of grants and
    withdrawals the rows record exactly the standing decision of each class, and a call is
    released exactly when the person's own decision on its class, or the one for the
    workspace it runs in, is active: neither withdrawn nor expired and made by the bound. *)
Theorem grants_refine (ops : list grant_op) :
  refines (grant_table ops) (grant_meaning ops) /\
  forall now tn p w q na,
    IsApprovalGranted now tn p w q na (grant_table ops)
    = negb (blank p) && negb (blank q)
      && spec_releases (Unix now) (if IsZero na then 0%Z else Unix na) (normalizeTenant tn) (TrimSpace p) (TrimSpace w) (TrimSpace q)
           (grant_meaning ops).
Proof.
  assert (refines (grant_table ops) (grant_meaning ops)) as R by apply (history_refines ops [] empty_spec), refines_empty.
  split; [done|]. intros. by apply releases_agree.
Qed.
