(* ===== verification/Stops.v ===== *)
(** * Parking and stopping a Run

    Parking on a human wait is all or nothing and leaves a Run that can be
    stopped; the owner's stop withdraws every pending request and every unbound
    continuation of the Run. *)

From stdpp Require Import base tactics list strings.
From Stdlib Require Import ZArith Lia Bool String List Sorted.
From S2P Require Import Prelude GoLib Sql Evolution Admission Store Queue QueueTheory Maintenance Database RunStart Checkpoints Approvals Clarify Cancellation Continuation Finalization Control Scenario ApprovalTheory ControlSteps ControlTheory Continuity Resolution Decisions.

(** ** Frames *)

Lemma scoped_frame ids now r th ch events : forall i d d' es,
  insertScopedEventsFrom i ids now r th ch events d = Ok (d', es) ->
  length es = length events /\
  exists ev n, d' = d <| db_events := ev |> <| db_next_cursor := n |>.
Proof.
  induction events as [|e events IH]; simpl; intros i d d' es.
  - intros; simplify_eq. split; [done|]. exists (db_events d'), (db_next_cursor d'). by destruct d'.
  - unfold insertScopedEvent. repeat (case_if; [done|]).
    destruct (insertScopedEventsFrom (S i) _ _ _ _ _ _ _) as [[d2 es2]|] eqn:E; [|done].
    intros; simplify_eq. apply IH in E as (Hlen & ev & n & ->). split; [simpl; lia|]. by exists ev, n.
Qed.

(** What a stop leaves of the requests and continuations of a Run. *)
Record withdrawn (tenant person run : string) (d : DB) : Prop := {
  wd_approvals : forall a, In a (db_approvals d) -> approval_of tenant person run a = true -> a_status a <> "pending";
  wd_clarifies : forall c, In c (db_clarifies d) -> clarify_of tenant person run c = true -> c_status c <> "pending";
  wd_queue : forall q, In q (db_queue d) -> unbound_continuation tenant person run d q = false
}.

(** No one-shot authorization of the Run is left. *)
Definition disarmed (tenant person run : string) (d : DB) : Prop :=
  forall a, In a (db_approvals d) -> approval_of tenant person run a = true ->
    a_authorization_state a <> "available".

Lemma withdrawn_frame tenant person run d d' :
  db_approvals d' = db_approvals d -> db_clarifies d' = db_clarifies d -> db_queue d' = db_queue d ->
  withdrawn tenant person run d -> withdrawn tenant person run d'.
Proof.
  intros Ea Ec Eq [A C Q]. split; [by rewrite Ea|by rewrite Ec|].
  rewrite Eq. intros q Hq. specialize (Q q Hq). unfold unbound_continuation, continues_run in *.
  by rewrite Ea, Ec.
Qed.

Lemma cancelUnbound_clears tenant person run d q :
  In q (db_queue (cancelUnboundRunContinuationsTx tenant person run d)) ->
  unbound_continuation tenant person run d q = false.
Proof.
  unfold cancelUnboundRunContinuationsTx. cbv zeta. simpl. intros (x & Hx & ->)%In_update_where.
  match goal with |- context [if ?c then _ else _] => destruct c eqn:E end; [|exact E].
  unfold unbound_continuation, unstarted, cancelRow. simpl. by rewrite !andb_false_r.
Qed.

(** The requests of the Run after they were expired. *)
Lemma expire_clears now tenant person run reason d :
  let d' := snd (expireRunHumanRequestsTx now tenant person run reason d) in
  (forall a, In a (db_approvals d') -> approval_of tenant person run a = true ->
     a_status a <> "pending" /\ a_authorization_state a <> "available") /\
  (forall c, In c (db_clarifies d') -> clarify_of tenant person run c = true -> c_status c <> "pending").
Proof.
  simpl. split.
  - intros a (b & (x & Hx & Hb)%In_update_where & Ha)%In_update_where Ho.
    assert (approval_of tenant person run b = true) as Hob.
    { rewrite Ha in Ho. by case_if. }
    assert (approval_of tenant person run x = true) as Hox.
    { rewrite Hb in Hob. by case_if. }
    assert (a_status b <> "pending") as Hp.
    { rewrite Hb, Hox. simpl. destruct (a_pending x) eqn:E; [done|]. by apply String.eqb_neq. }
    rewrite Ha, Hob. simpl.
    destruct (String.eqb_spec (a_authorization_state b) "consumed") as [E|E]; simpl; [|done].
    split; [done|]. by rewrite E.
  - intros c (x & Hx & ->)%In_update_where. case_if; [done|]. intros Ho. rewrite Ho in *. simpl in *.
    by apply String.eqb_neq.
Qed.

(** ** Closing a parked Run *)

Definition closed_run (now : Time) (tenant person run : string) (t : list Run) : list Run :=
  update_where (fun r => run_at tenant run r && (run_person_id r =? person)%string)
    (fun r => r <| run_status := "cancelled" |> <| run_cancel_requested := true |>
                <| run_finished_at := Some (Unix now) |> <| run_heartbeat_at := Some (Unix now) |>) t.

Lemma cancelParkedRunTx_effect ids now tenant person run th ch res d d' es :
  cancelParkedRunTx ids now tenant person run th ch res d = Ok (d', es) ->
  es <> [] /\ db_runs d' = closed_run now tenant person run (db_runs d) /\
  db_approvals d' = db_approvals d /\ db_clarifies d' = db_clarifies d /\
  (forall q, In q (db_queue d') -> unbound_continuation tenant person run d' q = false).
Proof.
  unfold cancelParkedRunTx. cbv zeta. intros (Hlen & ev & n & ->)%scoped_frame. split; [|split_and!; try done].
  - intros ->. rewrite length_app in Hlen. simpl in Hlen. lia.
  - intros q Hq. simpl in Hq. apply cancelUnbound_clears in Hq. exact Hq.
Qed.

Lemma cancelParkedProviderTx_effect ids now tenant person run d d' es :
  cancelParkedProviderTx ids now tenant person run d = Ok (d', es) ->
  d' = d /\ es = [] \/
  es <> [] /\ db_runs d' = closed_run now tenant person run (db_runs d) /\ withdrawn tenant person run d'.
Proof.
  unfold cancelParkedProviderTx. destruct (query_row _ (db_runs d)) as [r|] eqn:Er.
  - intros E. right. apply cancelParkedRunTx_effect in E as (He & Hr & Ha & Hc & Hq).
    split; [done|]. split; [done|].
    apply find_some in Er as [_ Er]. apply andb_true_iff in Er as [Hof Hcond].
    unfold run_of, run_at in Hof. reflect_bools. unfold parkedProviderCondition in Hcond.
    rewrite !andb_true_iff, !negb_true_iff in Hcond. destruct Hcond as [[[[_ Hna] Hnc] _] _].
    split; [rewrite Ha|rewrite Hc|exact Hq].
    + intros a Hin Ho Hp. eapply existsb_false_In in Hna; [|exact Hin]. cbv beta in Hna.
      unfold approval_of, a_pending in *. reflect_bools.
      assert (a_tenant_id a = run_tenant_id r) as E1 by congruence.
      assert (a_run_id a = run_id r) as E2 by congruence.
      by rewrite E1, E2, Hp, !String.eqb_refl in Hna.
    + intros c Hin Ho Hp. eapply existsb_false_In in Hnc; [|exact Hin]. cbv beta in Hnc.
      unfold clarify_of, c_pending in *. reflect_bools.
      assert (c_tenant_id c = run_tenant_id r) as E1 by congruence.
      assert (c_run_id c = run_id r) as E2 by congruence.
      by rewrite E1, E2, Hp, !String.eqb_refl in Hnc.
  - intros [= <- <-]. by left.
Qed.

Lemma cancelParkedHumanTx_effect ids now tenant person run d d' es :
  cancelParkedHumanTx ids now tenant person run d = Ok (d', es) ->
  d' = d /\ es = [] \/
  es <> [] /\ db_runs d' = closed_run now tenant person run (db_runs d) /\
  withdrawn tenant person run d' /\ disarmed tenant person run d'.
Proof.
  unfold cancelParkedHumanTx. destruct (query_row _ (db_runs d)) as [r|]; [|intros [= <- <-]; by left].
  pose proof (expire_clears now tenant person run "user cancelled parked run" d) as Hx.
  destruct (expireRunHumanRequestsTx _ _ _ _ _ d) as [res d1] eqn:E1. simpl in Hx. destruct Hx as [Hxa Hxc].
  assert (db_runs d1 = db_runs d) as Er by (unfold expireRunHumanRequestsTx in E1; by simplify_eq).
  intros E. right. apply cancelParkedRunTx_effect in E as (He & Hr & Ha & Hc & Hq).
  split; [done|]. split; [by rewrite <- Er|]. split.
  - split; [rewrite Ha|rewrite Hc|done]; [|done]. intros a Hin Ho. by apply Hxa.
  - unfold disarmed. rewrite Ha. intros a Hin Ho. by apply Hxa.
Qed.

(** A live Run that is told to stop. *)
Lemma requestLiveCancel_effect ids now r d d' es :
  requestLiveCancel ids now r d = Ok (d', es) ->
  let tenant := run_tenant_id r in let person := run_person_id r in let run := run_id r in
  db_runs d' = update_where (run_at tenant run) (fun r => r <| run_cancel_requested := true |>) (db_runs d) /\
  withdrawn tenant person run d' /\ disarmed tenant person run d'.
Proof.
  unfold requestLiveCancel. cbv zeta.
  match goal with |- context [expireRunHumanRequestsTx now ?t ?p ?r0 ?re ?x] =>
    pose proof (expire_clears now t p r0 re x) as Hx;
    destruct (expireRunHumanRequestsTx now t p r0 re x) as [res d2] eqn:E2 end.
  simpl in Hx. destruct Hx as [Hxa Hxc].
  assert (db_runs d2 = update_where (run_at (run_tenant_id r) (run_id r))
            (fun r => r <| run_cancel_requested := true |>) (db_runs d)) as Er
    by (unfold expireRunHumanRequestsTx in E2; by simplify_eq).
  intros (_ & ev & n & ->)%scoped_frame. split; [exact Er|]. split.
  - split; [intros a Hin Ho; by apply Hxa|exact Hxc|].
    intros q Hq. apply cancelUnbound_clears in Hq. exact Hq.
  - intros a Hin Ho. by apply Hxa.
Qed.

(** ** The owner's stop *)

Section Stop.
Context `{RunEnv} `{FinalizeEnv}.

(** The Run's row after either change. *)
Lemma lookup_stopped (c : Run -> bool) f t tenant r :
  keys_unique t -> In r t -> run_tenant_id r = tenant -> c r = true ->
  (forall x, run_id (f x) = run_id x) ->
  lookup_key (run_id r) (update_where c f t) = Some (f r).
Proof.
  intros Hk Hr Ht Hc Hf. rewrite lookup_update by apply Hf.
  change (run_id r) with (key r). rewrite (lookup_key_In t r Hk Hr). simpl. by rewrite Hc.
Qed.

Lemma RequestRunCancel_effect ids now tenantID d r d' :
  let tenant := normalizeTenant tenantID in
  db_wf d -> In r (db_runs d) -> run_tenant_id r = tenant ->
  RequestRunCancel ids now tenantID (run_id r) d = (d', None) ->
  (exists r', lookup_key (run_id r) (db_runs d') = Some r' /\ run_cancel_requested r' = true /\
     run_tenant_id r' = tenant /\ (run_status r' = "cancelled" \/ run_status r' = run_status r)) /\
  withdrawn tenant (run_person_id r) (run_id r) d' /\
  (parkedProviderCondition d r = false -> disarmed tenant (run_person_id r) (run_id r) d').
Proof.
  intros tenant Hw Hr Ht E.
  assert (query_row (run_at tenant (run_id r)) (db_runs d) = Some r) as Eq
    by (rewrite <- Ht; apply query_run; [apply Hw|done]).
  assert (run_at tenant (run_id r) r = true) as Hat by (unfold run_at; by rewrite Ht, !String.eqb_refl).
  assert (forall t, t = closed_run now tenant (run_person_id r) (run_id r) (db_runs d) ->
    exists r', lookup_key (run_id r) t = Some r' /\ run_cancel_requested r' = true /\
     run_tenant_id r' = tenant /\ (run_status r' = "cancelled" \/ run_status r' = run_status r)) as Hcl.
  { intros t ->. eexists. split; [|].
    - eapply (lookup_stopped _ _ _ tenant); [apply Hw|done|done| |done]. by rewrite Hat, String.eqb_refl.
    - simpl. auto. }
  unfold RequestRunCancel in E. cbv zeta in E. fold tenant in E. rewrite Eq in E.
  destruct (cancelParkedProviderTx ids now tenant _ _ d) as [[d1 es1]|] eqn:E1; [|done].
  pose proof E1 as E1'. apply cancelParkedProviderTx_effect in E1 as [[-> ->]|(Hne & Hr1 & Hw1)].
  - destruct (cancelParkedHumanTx ids now tenant _ _ d) as [[d2 es2]|] eqn:E2; [|done].
    apply cancelParkedHumanTx_effect in E2 as [[-> ->]|(Hne & Hr2 & Hw2 & Hd2)].
    + destruct (requestLiveCancel ids now r d) as [[d3 es3]|] eqn:E3; [|done]. injection E as <-.
      apply requestLiveCancel_effect in E3 as (Hr3 & Hw3 & Hd3). rewrite Ht in Hr3, Hw3, Hd3.
      split; [|done]. rewrite Hr3. eexists. split.
      * eapply (lookup_stopped _ _ _ tenant); [apply Hw|done|done|done|done].
      * simpl. auto.
    + destruct es2; [done|]. injection E as <-. split; [by apply Hcl|]. done.
  - destruct es1 as [|e1 es1]; [done|]. injection E as <-. split; [by apply Hcl|]. split; [done|].
    intros Hp. exfalso. unfold cancelParkedProviderTx in E1'.
    match type of E1' with match ?q with _ => _ end = _ => destruct q as [x|] eqn:Ex end; [|done].
    apply find_some in Ex as [Hx Hcx]. unfold run_of in Hcx. reflect_bools.
    assert (x = r) as ->; [|congruence].
    apply (keys_unique_inj (db_runs d)); [apply Hw|done|done|].
    unfold run_at in *. unfold key, run_keyed. by reflect_bools.
Qed.

(** C5: A stop of a stored Run that reports no error leaves, in one transaction:
    the stop recorded on the Run, which is closed if it was parked; no pending
    request of the Run; no unbound queue row that would continue it; and no
    one-shot authorization, unless the Run was parked on an external wait.  The
    stop stays recorded after any further history. *)
Theorem stop_withdraws ids now tenantID d r d' :
  let tenant := normalizeTenant tenantID in
  db_wf d -> In r (db_runs d) -> run_tenant_id r = tenant ->
  RequestRunCancel ids now tenantID (run_id r) d = (d', None) ->
  (exists r', lookup_key (run_id r) (db_runs d') = Some r' /\
     (run_status r' = "cancelled" \/ run_status r' = run_status r)) /\
  withdrawn tenant (run_person_id r) (run_id r) d' /\
  (parkedProviderCondition d r = false -> disarmed tenant (run_person_id r) (run_id r) d') /\
  forall ops, Forall control_ok ops -> RunCancelRequested tenantID (run_id r) (exec_controls ops d') = true.
Proof.
  intros tenant Hw Hr Ht E.
  destruct (RequestRunCancel_effect ids now tenantID d r d' Hw Hr Ht E)
    as ((r' & Hl' & Hc & Ht' & Hs) & Hwd & Hdis).
  split; [eauto|]. split; [done|]. split; [done|]. intros ops Hok.
  assert (db_wf d') as Hw'.
  { replace d' with (exec_controls [OpRequestCancel ids now tenantID (run_id r)] d) by (simpl; by rewrite E).
    apply exec_controls_wf; [repeat constructor|done]. }
  destruct (run_descends ops d' _ r' Hok Hw' Hl') as (r2 & Hl2 & Hs2).
  destruct (exec_controls_wf ops d' Hok Hw') as [Hw2 _].
  apply lookup_key_Some in Hl2 as [Hin2 Hid2]. unfold RunCancelRequested. fold tenant.
  replace (run_id r) with (run_id r2) by exact Hid2.
  replace tenant with (run_tenant_id r2) by exact (eq_trans (rs_tenant _ _ Hs2) Ht').
  rewrite query_run; [|apply Hw2|done]. by apply (rs_cancel _ _ Hs2).
Qed.

(** ** Parking *)

(** An executing Run was not continued. *)
Lemma running_no_child d r : db_wf d -> In r (db_runs d) -> run_status r = "running" ->
  has_child (run_tenant_id r) (run_id r) (db_runs d) = false.
Proof.
  intros Hw Hr Hs. apply not_true_is_false. intros Hch. apply has_child_true in Hch as (c & Hc & Ht & Hid).
  assert (run_wf r) as [Hne _ _ _ _] by (eapply List.Forall_forall in Hr; [exact Hr|apply Hw]).
  destruct (lw_parent _ c (wf_lineage _ Hw) Hc) as (p & Ep & [Hpid _ _ _ _ Hst]); [congruence|].
  assert (p = r) as ->; [|done].
  apply (keys_unique_inj (db_runs d)); [apply Hw|done|done|]. unfold key, run_keyed. congruence.
Qed.

Lemma has_child_update tenant id c f t :
  (forall r, run_tenant_id (f r) = run_tenant_id r /\ run_resumes_run_id (f r) = run_resumes_run_id r) ->
  has_child tenant id (update_where c f t) = has_child tenant id t.
Proof.
  intros Hf. unfold has_child, update_where. induction t as [|r t IH]; simpl; [done|]. rewrite IH.
  destruct (Hf r) as [E1 E2]. case_if; by rewrite ?E1, ?E2.
Qed.

(** The single row an update of one row changed. *)
Lemma update_one {R : Type} `{Keyed R string} (c : R -> bool) (f : R -> R) t :
  keys_unique t -> rows_affected c t = 1%Z -> (forall x, key (f x) = key x) ->
  exists r, lookup_key (key r) t = Some r /\ In r t /\ c r = true /\
    lookup_key (key r) (update_where c f t) = Some (f r).
Proof.
  intros Hk Hn Hf. destruct (proj1 (rows_affected_pos c t) ltac:(lia)) as (r & Hr & Hc).
  exists r. split; [by apply lookup_key_In|]. split_and!; [done|done|].
  rewrite lookup_update by done. rewrite (lookup_key_In t r Hk Hr). simpl. by rewrite Hc.
Qed.

(** What the request half parked. *)
Definition request_parked (now : Time) (tenant person run kind ref : string) (d d' : DB) : Prop :=
  (exists a why, kind = LoopCheckpointWaitApproval /\ lookup_key ref (db_approvals d) = Some a /\
     approval_of tenant person run a = true /\ a_status a = "pending" /\ a_waiter_state a = "live" /\
     lookup_key ref (db_approvals d') = Some (parkApproval now why a)) \/
  (exists c, kind = LoopCheckpointWaitClarification /\ lookup_key ref (db_clarifies d) = Some c /\
     clarify_of tenant person run c = true /\ c_status c = "pending" /\ c_parked_at c = 0%Z /\
     lookup_key ref (db_clarifies d') = Some (c <| c_parked_at := Unix now |> <| c_updated_at := Unix now |>)).

Lemma parkRequest_effect now tenant person run kind ref reason d d' :
  db_wf d -> parkRequest now tenant person run kind ref reason d = Ok (1%Z, d') ->
  db_runs d' = db_runs d /\ db_checkpoints d' = db_checkpoints d /\
  request_parked now tenant person run kind ref d d'.
Proof.
  intros Hw. unfold parkRequest. cbv zeta.
  destruct (String.eqb_spec kind LoopCheckpointWaitApproval) as [Ek|_]; [|destruct (String.eqb_spec kind LoopCheckpointWaitClarification) as [Ek|_]; [|done]];
    intros [= Hn <-]; split_and!; try done.
  - left. destruct (update_one _ (parkApproval now reason) _ (wf_approval_ids _ Hw) Hn ltac:(done)) as (a & Hl & _ & Hc & Hl').
    unfold waiting_approval, a_pending, a_live in Hc. reflect_bools.
    assert (key a = ref) as Hka by done. rewrite Hka in Hl, Hl'. exists a, reason. split_and!; try done.
    unfold approval_of. solve_bools.
  - right. destruct (update_one _ (fun c => c <| c_parked_at := Unix now |> <| c_updated_at := Unix now |>)
      _ (wf_clarify_ids _ Hw) Hn ltac:(done)) as (c & Hl & _ & Hc & Hl').
    unfold waiting_clarify, c_pending in Hc. reflect_bools.
    assert (key c = ref) as Hkc by done. rewrite Hkc in Hl, Hl'. exists c. split_and!; try done.
    unfold clarify_of. solve_bools.
Qed.

Definition waitUser (now : Time) (r : Run) : Run :=
  r <| run_status := "waiting_user" |> <| run_finished_at := Some (Unix now) |>
    <| run_heartbeat_at := Some (Unix now) |>.

(** A request the Run just parked on makes it a Run its owner can stop. *)
Lemma parked_stoppable now tenant person run kind ref d d1 r :
  let d' := d1 <| db_runs := update_where (running_of tenant person run) (waitUser now) (db_runs d1) |> in
  db_wf d -> boundHumanWait tenant person run kind ref d = true ->
  db_runs d1 = db_runs d -> db_checkpoints d1 = db_checkpoints d ->
  request_parked now tenant person run kind ref d d1 ->
  In r (db_runs d) -> running_of tenant person run r = true ->
  parkedHuman d' (waitUser now r) = true.
Proof.
  intros d' Hw Hb Er Eck Hreq Hr Hof. unfold boundHumanWait in Hb.
  apply existsb_exists in Hb as (c & Hc & Hb). reflect_bools.
  unfold running_of, run_at in Hof. reflect_bools.
  unfold parkedHuman. apply existsb_exists. exists c. simpl. rewrite Eck. split; [done|].
  assert (own_checkpoint (waitUser now r) c = true) as -> by (unfold own_checkpoint; simpl; solve_bools).
  assert (unclaimed_run d' (waitUser now r) = true) as Hun.
  { unfold unclaimed_run. simpl. rewrite Er, has_child_update, running_no_child by done.
    assert (run_wf r) as [_ _ Hleg _ _] by (eapply List.Forall_forall in Hr; [exact Hr|apply Hw]).
    by rewrite Hleg. }
  unfold parkedHumanCondition. rewrite Hun. simpl.
  assert (negb (ck_WaitToolCallID c =? "")%string = true) as -> by solve_bools.
  assert ((ck_Outcome c =? "await_human")%string = true) as -> by solve_bools. simpl.
  apply orb_true_iff. destruct Hreq as [(a & why & Ek & _ & Ho & Hp & _ & Hl')|(q & Ek & _ & Ho & Hp & _ & Hl')];
    [left|right]; apply andb_true_iff; (split; [solve_bools|]); apply existsb_exists;
    apply lookup_key_Some in Hl' as [Hin Hk]; (eexists; split; [exact Hin|]);
    unfold approval_of, clarify_of, c_pending in *; reflect_bools; simpl in *.
  - rewrite Hp. assert (a_id a = ref) as Hid by done. simpl. solve_bools.
  - rewrite Hp. assert (c_id q = ref) as Hid by done. simpl. solve_bools.
Qed.

(** Parking a human wait is all or nothing: it changes nothing, or it moves
    exactly the executing, unstopped Run to [waiting_user] and its own pending
    live request to parked.  The parked Run is then one its owner can stop. *)
Theorem park_human_wait_atomic now tenantID person run kind ref reason d :
  let tenant := normalizeTenant tenantID in
  db_wf d ->
  let '(d', result) := ParkHumanWaitRun now tenantID person run kind ref reason d in
  match result with
  | Ok true =>
      (exists r, lookup_key run (db_runs d) = Some r /\ running_of tenant person run r = true /\
         run_cancel_requested r = false /\ lookup_key run (db_runs d') = Some (waitUser now r)) /\
      request_parked now tenant person run kind ref d d' /\
      In run (ParkedHumanRunIDs tenantID person d')
  | _ => d' = d
  end.
Proof.
  intros tenant Hw. unfold ParkHumanWaitRun. cbv zeta. fold tenant.
  destruct (boundHumanWait tenant person run kind ref d) eqn:Eb; simpl; [|done].
  destruct (parkRequest _ _ _ _ _ _ _ d) as [[n d1]|] eqn:Ep; [|done].
  destruct (n =? 1)%Z eqn:En; simpl; [|done]. apply Z.eqb_eq in En. subst n.
  destruct (parkRequest_effect _ _ _ _ _ _ _ _ _ Hw Ep) as (Er & Eck & Hreq).
  destruct (rows_affected _ (db_runs d1) =? 1)%Z eqn:En; simpl; [|done]. apply Z.eqb_eq in En.
  rewrite Er in En.
  destruct (update_one _ (waitUser now) _ (wf_run_ids _ Hw) En ltac:(done)) as (r & Hl & Hr & Hof & Hl').
  pose proof (parked_stoppable now tenant person run kind ref d d1 r Hw Eb Er Eck Hreq Hr Hof) as Hps.
  pose proof Hof as Hof'. unfold running_of, run_at in Hof'. reflect_bools.
  assert (key r = run) as Hk by done. rewrite Hk in Hl, Hl'. split_and!.
  - exists r. split_and!; try done.
    + unfold boundHumanWait in Eb. apply existsb_exists in Eb as (c & _ & Eb). reflect_bools.
      match goal with Hx : existsb _ _ = true |- _ => apply existsb_exists in Hx as (x & Hx & Exb) end.
      unfold run_at in Exb. reflect_bools. assert (x = r) as <-; [|done].
      apply (keys_unique_inj (db_runs d)); [apply Hw|done|done|]. unfold key, run_keyed. congruence.
    + simpl. rewrite Er. exact Hl'.
  - exact Hreq.
  - unfold ParkedHumanRunIDs. apply in_map_iff. exists (waitUser now r). split; [done|].
    apply filter_In. split.
    + simpl. rewrite Er. apply lookup_key_Some in Hl' as [Hin _]. exact Hin.
    + fold tenant. apply andb_true_iff. split; [|exact Hps].
      unfold waitUser. simpl. solve_bools.
Qed.
End Stop.

(** ** Witnesses *)

Definition ids3 (n : nat) : string := if (n =? 0)%nat then "c0" else if (n =? 1)%nat then "c1" else "c2".

Definition stop_op : control_op := OpRequestCancel ids3 (at_second 9) "default" "run_1".

Lemma stop_withdraws_witness :
  let d' := fst (RequestRunCancel ids3 (at_second 9) "default" "run_1" (after parked)) in
  withdrawn "default" "p1" "run_1" d' /\ disarmed "default" "p1" "run_1" d' /\
  RunCancelRequested "default" "run_1" (exec_controls [answer_op] d') = true.
Proof.
  cbv zeta. assert (db_wf (after parked)) as Hw by (apply after_wf; repeat constructor).
  assert (existsb (fun r => is_run1 r && negb (parkedProviderCondition (after parked) r)) (db_runs (after parked))
          = true) as (r & Hr & E)%stored by (vm_compute; reflexivity).
  unfold is_run1 in E. rewrite !andb_true_iff, !String.eqb_eq, negb_true_iff in E.
  destruct E as [[[[[E1 E2] _] E4] _] E6].
  assert (snd (RequestRunCancel ids3 (at_second 9) "default" "run_1" (after parked)) = None) as Hn
    by (vm_compute; reflexivity).
  destruct (RequestRunCancel ids3 (at_second 9) "default" "run_1" (after parked)) as [d' res] eqn:Ed.
  cbn [snd] in Hn. subst res. rewrite <- E1 in Ed. cbn [fst].
  destruct (stop_withdraws ids3 (at_second 9) "default" (after parked) r d' Hw Hr E2 Ed) as (_ & Hwd & Hdis & Hlater).
  specialize (Hdis E6). rewrite E1, E4 in *.
  split; [exact Hwd|]. split; [exact Hdis|]. apply Hlater. repeat constructor.
Defined.

Lemma park_human_wait_atomic_witness :
  In "run_1" (ParkedHumanRunIDs "default" "p1" (after parked)).
Proof.
  assert (db_wf (after asked)) as Hw by (apply after_wf; repeat constructor).
  pose proof (park_human_wait_atomic (at_second 4) "default" "p1" "run_1" LoopCheckpointWaitApproval "apr_1" ""
    (after asked) Hw) as Hp.
  assert (match snd (ParkHumanWaitRun (at_second 4) "default" "p1" "run_1" LoopCheckpointWaitApproval "apr_1" ""
                       (after asked)) with Ok b => b | Err _ => false end = true) as Hok by (vm_compute; reflexivity).
  assert (after parked = fst (ParkHumanWaitRun (at_second 4) "default" "p1" "run_1" LoopCheckpointWaitApproval "apr_1" ""
                       (after asked))) as Ed by (unfold parked; rewrite history_app; reflexivity).
  rewrite Ed.
  destruct (ParkHumanWaitRun (at_second 4) "default" "p1" "run_1" LoopCheckpointWaitApproval "apr_1" ""
                       (after asked)) as [d' [b|e]]; cbn [snd fst] in *; [|discriminate].
  subst b. apply Hp.
Defined.

(** ** A stop does not survive a crash *)

(** Decided, stopped by the owner before the Run took the answer, interrupted by
    a crash, and swept by boot recovery. *)
Definition recovered_task : QueuedTask :=
  answer0 <| t_TenantID := "default" |> <| t_PersonID := "p1" |> <| t_ReplyToRunID := "" |>.

Definition revived : list control_op :=
  asked ++
  [OpRespondApproval (at_second 4) "default" "p1" "apr_1" "approve" "cli" decision0;
   stop_op;
   OpMarkInterrupted (fun _ => "i") ids3 (at_second 10) 0%Z [];
   OpRecoverDecision "rq" (at_second 11) "apr_1" recovered_task;
   claim_op;
   resume_op].

(** A concrete history in which the owner's stop is undone by recovery: the stop
    is still recorded on the Run, but its approval is armed again and a new Run
    continues it. *)
Theorem stopped_run_revived :
  let d := after revived in
  RunCancelRequested "default" "run_1" d = true /\
  map a_authorization_state (db_approvals d) = ["available"] /\
  map (fun r => (run_id r, run_status r, run_resumes_run_id r)) (db_runs d) =
    [("run_1", "interrupted", ""); ("run_2", "running", "run_1")].
Proof. vm_compute. repeat split. Qed.
