(* ===== verification/Ledger.v ===== *)
(** * The event ledger

    A keyed event is appended once. That the ledger is ordered and only grows is in
    [DirectClaims], over histories with direct claims. *)

From stdpp Require Import base tactics list strings.
From Stdlib Require Import ZArith Lia Bool String List Sorted.
From S2P Require Import Prelude GoLib Sql Evolution Admission Store Queue QueueTheory Maintenance Database RunStart Checkpoints Approvals Clarify Cancellation Continuation Finalization Control Scenario ApprovalTheory ControlSteps ControlTheory Continuity.

Section Ledger.
Context `{RunEnv} `{FinalizeEnv}.

(** What [AppendEvent] returns is stored under the caller's key. *)
Lemma AppendEvent_stored uuid now ev d d1 e :
  AppendEvent uuid now ev d = (d1, Ok e) ->
  In e (db_events d1) /\
  (TrimSpace (ei_IdempotencyKey ev) <> "" -> ev_idempotency_key e = TrimSpace (ei_IdempotencyKey ev)).
Proof.
  unfold AppendEvent. cbv zeta.
  match goal with |- context [ei_TaskID ?x] => set (ev' := x) end.
  assert (ei_IdempotencyKey ev' = ei_IdempotencyKey ev) as Hk.
  { unfold ev'. repeat case_if; try done. destruct (eventOwnerForRun _ d) as [[[t tn] p]|]; [|done].
    by destruct (t =? "")%string. }
  rewrite Hk. destruct (ei_TaskID ev' =? "")%string; [done|].
  destruct (TrimSpace (ei_IdempotencyKey ev) =? "")%string eqn:Eb.
  - destruct (negb _); [done|]. destruct (event_id_taken _ d); [done|]. intros; simplify_eq. simpl.
    split; [apply in_or_app; right; by left|done].
  - destruct (eventByIdempotencyKey _ d) as [x|] eqn:Ex.
    + intros; simplify_eq. apply find_some in Ex as [Hin Ex]. apply String.eqb_eq in Ex. done.
    + destruct (negb _); [done|]. destruct (event_id_taken _ d); [done|]. intros; simplify_eq. simpl.
      split; [apply in_or_app; right; by left|done].
Qed.

Lemma AppendEvent_known uuid now ev d e :
  events_wf (db_events d) (db_next_cursor d) -> In e (db_events d) ->
  TrimSpace (ei_IdempotencyKey ev) <> "" -> ev_idempotency_key e = TrimSpace (ei_IdempotencyKey ev) ->
  ei_TaskID ev <> "" -> AppendEvent uuid now ev d = (d, Ok e).
Proof.
  intros Hw Hin Hne Hk Ht. unfold AppendEvent. cbv zeta.
  match goal with |- context [(ei_TaskID ?x =? "")%string] => set (ev' := x) end.
  assert (ei_IdempotencyKey ev' = ei_IdempotencyKey ev /\ ei_TaskID ev' <> "") as [Hk' Ht'].
  { unfold ev'. destruct (ei_RunID ev =? "")%string; [done|].
    destruct (eventOwnerForRun _ d) as [[[t tn] p]|]; [|done].
    destruct (t =? "")%string eqn:E; [done|]. split; [done|]. simpl. by apply String.eqb_neq. }
  rewrite Hk'. apply String.eqb_neq in Ht', Hne as Hne'. rewrite Ht', Hne'.
  assert (eventByIdempotencyKey (TrimSpace (ei_IdempotencyKey ev)) d = Some e) as ->; [|done].
  unfold eventByIdempotencyKey. destruct (query_row _ (db_events d)) as [x|] eqn:Ex.
  - apply find_some in Ex as [Hx Ex]. apply String.eqb_eq in Ex. f_equal.
    apply (ew_keys _ _ Hw); congruence.
  - unfold query_row in Ex. eapply find_none in Ex; [|exact Hin]. cbv beta in Ex.
    by rewrite Hk, String.eqb_refl in Ex.
Qed.

(** Appending an event under an idempotency key stores it once: whoever
    appends under the same key again, at any later point of the history, gets the
    first event back, and the ledger does not change. *)
Theorem event_append_once ops1 ops2 m uuid now ev d1 e :
  Forall control_ok ops1 -> Forall control_ok ops2 ->
  AppendEvent uuid now ev (exec_controls ops1 (emptyDB m)) = (d1, Ok e) ->
  let d2 := exec_controls ops2 d1 in
  forall uuid2 now2 ev2, TrimSpace (ei_IdempotencyKey ev2) = TrimSpace (ei_IdempotencyKey ev) ->
    TrimSpace (ei_IdempotencyKey ev) <> "" -> ei_TaskID ev2 <> "" ->
    AppendEvent uuid2 now2 ev2 d2 = (d2, Ok e).
Proof.
  intros Hok1 Hok2 E d2 uuid2 now2 ev2 Hk Hne Ht.
  destruct (AppendEvent_stored _ _ _ _ _ _ E) as [Hin Hke].
  assert (db_wf d1) as Hw1.
  { replace d1 with (exec_controls [OpAppendEvent uuid now ev] (exec_controls ops1 (emptyDB m)))
      by (simpl; by rewrite E).
    apply exec_controls_wf; [repeat constructor|by apply history_wf]. }
  destruct (exec_controls_wf ops2 d1 Hok2 Hw1) as [Hw2 [_ _ _ _ [new Hnew]]].
  apply AppendEvent_known; try congruence.
  - apply Hw2.
  - fold d2 in Hnew. rewrite Hnew. apply in_or_app. by left.
  - rewrite Hk. auto.
Qed.

End Ledger.

Definition note0 : EventIn :=
  mkEventIn "default" "p1" "th1" "" "note" "" "" (JStr "parked") " note:1 ".

Lemma event_append_once_witness :
  exists d1 e, AppendEvent "e1" (at_second 8) note0 (after parked) = (d1, Ok e) /\
    AppendEvent "e2" (at_second 9) note0 (exec_controls [answer_op] d1) = (exec_controls [answer_op] d1, Ok e).
Proof.
  assert (is_ok (snd (AppendEvent "e1" (at_second 8) note0 (after parked))) = true) as Hok by (vm_compute; reflexivity). destruct (AppendEvent "e1" (at_second 8) note0 (exec_controls parked _)) as [d1 [e|er]] eqn:E.
  - exists d1, e. split; [reflexivity|].
    apply (event_append_once parked [answer_op] (mkMaintState [] [] []) "e1" (at_second 8) note0 d1 e);
      [repeat constructor|repeat constructor|exact E|reflexivity|vm_compute; discriminate|discriminate].
  - discriminate.
Defined.
