(* ===== verification/Answers.v ===== *)
(** * Answers to questions

    What [AnswerClarifyRequestWithResume] does with a person's own pending
    question, by the state of the Run that asked. *)

From stdpp Require Import base tactics list strings.
From Stdlib Require Import ZArith Lia Bool Ascii String List.
From S2P Require Import Prelude GoLib Sql Evolution Admission Store Queue QueueTheory Maintenance Database RunStart Checkpoints Approvals Clarify Cancellation Continuation Finalization Control Scenario ApprovalTheory ControlSteps ControlTheory Continuity Decisions Stops.

(** ** The origin of a question *)

(** The Run that asked: none or executing, parked and free to be continued, or
    beyond an answer. *)
Inductive origin : Type :=
| OriginLive
| OriginParked (r : Run)
| OriginGone.

Definition origin_of (person : string) (c : ClarifyRow) (d : DB) : origin :=
  if (c_run_id c =? "")%string then OriginLive else
  match lookup_key (c_run_id c) (db_runs d) with
  | None => OriginGone
  | Some r =>
      if negb (run_tenant_id r =? c_tenant_id c)%string || negb (run_person_id r =? person)%string
         || (c_thread_id c =? "")%string || negb (run_thread_id r =? c_thread_id c)%string then OriginGone
      else if (run_status r =? "running")%string then OriginLive
      else if resumableRunStatus (run_status r) && unclaimed_run d r then OriginParked r
      else OriginGone
  end.

(** ** Options *)

(** A positive decimal number names the option of that rank. *)
Lemma ResolveClarifyOption_number answer raw i :
  Atoi (TrimSpace answer) = Some (Z.of_nat (S i)) ->
  (i < length (ClarifyChoices (JVal raw)))%nat ->
  ResolveClarifyOption answer (JVal raw) = nth i (ClarifyChoices (JVal raw)) "".
Proof.
  intros Ha Hi. unfold ResolveClarifyOption. cbv zeta.
  destruct (TrimSpace answer =? "")%string eqn:E; [apply String.eqb_eq in E; by rewrite E in Ha|].
  destruct (ClarifyChoices (JVal raw)) as [|x l] eqn:El; [simpl in Hi; lia|]. rewrite Ha.
  assert ((1 <=? Z.of_nat (S i)) && (Z.of_nat (S i) <=? Z.of_nat (length (x :: l))) = true)%Z as ->.
  { apply andb_true_iff. split; apply Z.leb_le; simpl in *; lia. }
  replace (Z.to_nat (Z.of_nat (S i) - 1)) with i by lia. by apply nth_indep.
Qed.

(** ** The answer *)

Section Answer.
Context (d : DB) (Hw : db_wf d).
Context (tenant person : string).
Context (c : ClarifyRow) (Hc : In c (db_clarifies d)) (Hct : c_tenant_id c = tenant)
        (Hcp : c_person_id c = person) (Hpend : c_status c = "pending").

Lemma own_question : query_row (clarify_at tenant (c_id c)) (db_clarifies d) = Some c.
Proof.
  destruct (query_row _ (db_clarifies d)) as [x|] eqn:E.
  - apply find_some in E as [Hx E]. unfold clarify_at in E. reflect_bools. f_equal.
    by apply (keys_unique_inj (db_clarifies d)); [apply Hw| | |].
  - unfold query_row in E. eapply find_none in E; [|exact Hc]. unfold clarify_at in E.
    by rewrite Hct, !String.eqb_refl in E.
Qed.

Lemma own_pending_true : own_pending tenant person (c_id c) c = true.
Proof. unfold own_pending, clarify_at, c_pending. by rewrite Hct, Hcp, Hpend, !String.eqb_refl. Qed.

Lemma own_pending_one : rows_affected (own_pending tenant person (c_id c)) (db_clarifies d) = 1%Z.
Proof.
  rewrite (rows_affected_key (c_id c)); [|apply Hw|].
  - assert (lookup_key (c_id c) (db_clarifies d) = Some c) as -> by (apply (lookup_key_In (db_clarifies d) c); [apply Hw|done]).
    by rewrite own_pending_true.
  - unfold own_pending, clarify_at. intros x Hx. by reflect_bools.
Qed.

Lemma lookup_settled f : (forall x, c_id (f x) = c_id x) ->
  lookup_key (c_id c) (update_where (own_pending tenant person (c_id c)) f (db_clarifies d)) = Some (f c).
Proof.
  intros Hf. rewrite lookup_update by done.
  assert (lookup_key (c_id c) (db_clarifies d) = Some c) as -> by (apply (lookup_key_In (db_clarifies d) c); [apply Hw|done]).
  simpl. by rewrite own_pending_true.
Qed.

(** The Run as the transaction reads it. *)
Lemma origin_row : c_run_id c <> "" ->
  query_row (run_at tenant (c_run_id c)) (db_runs d) =
  match lookup_key (c_run_id c) (db_runs d) with
  | Some r => if (run_tenant_id r =? tenant)%string then Some r else None
  | None => None
  end.
Proof.
  intros Hne. rewrite (query_row_key (c_run_id c)); [|apply Hw|].
  - destruct (lookup_key _ _) as [r|] eqn:E; [|done]. apply lookup_key_Some in E as [_ E].
    unfold run_at. unfold key, run_keyed in E. by rewrite E, String.eqb_refl, andb_true_r.
  - unfold run_at. intros x Hx. by reflect_bools.
Qed.

(** What the transaction commits, by the origin. *)
Lemma answerWithResumeTx_decides uuid now answer channel q :
  let final := ResolveClarifyOption answer (c_options c) in
  let cond := own_pending tenant person (c_id c) in
  let answered := fun d1 : DB => d1 <| db_clarifies := update_where cond (answerClarify now final channel) (db_clarifies d) |> in
  let run := answerWithResumeTx uuid now tenant person (c_id c) answer channel q d in
  match origin_of person c d with
  | OriginLive => run = Commit (Answered None) (answered d)
  | OriginParked r => run =
      match enqueueClarifyResume uuid now tenant person (c_thread_id c) (c_id c) final r q d with
      | Ok (queue, queued) => Commit (Answered (Some queued)) (answered (d <| db_queue := queue |>))
      | Err e => Rollback (Err e)
      end
  | OriginGone => exists reason, run = Commit (OriginUnavailable reason)
      (d <| db_clarifies := update_where cond (expireClarify now) (db_clarifies d) |>)
  end.
Proof.
  intros final cond answered run. unfold run, answerWithResumeTx, settleAnswer, expireUnavailable. rewrite own_question.
  assert (negb (c_person_id c =? person)%string || negb (c_pending c) = false) as ->.
  { unfold c_pending. by rewrite Hcp, Hpend, !String.eqb_refl. }
  cbv zeta. unfold origin_of. rewrite Hct.
  destruct (String.eqb_spec (c_run_id c) "") as [Er|Er]; [by rewrite own_pending_one|].
  rewrite origin_row by done.
  destruct (lookup_key (c_run_id c) (db_runs d)) as [r|] eqn:El; [|rewrite own_pending_one; eauto].
  destruct (String.eqb_spec (run_tenant_id r) tenant) as [Et|Et]; simpl; [|rewrite own_pending_one; eauto].
  destruct (negb (run_person_id r =? person)%string || (c_thread_id c =? "")%string
            || negb (run_thread_id r =? c_thread_id c)%string); simpl; [rewrite own_pending_one; eauto|].
  destruct (run_status r =? "running")%string; [by rewrite own_pending_one|].
  destruct (resumableRunStatus (run_status r)); simpl; [|rewrite own_pending_one; eauto].
  apply lookup_key_Some in El as [_ Hid]. unfold key, run_keyed in Hid.
  unfold unclaimed_run. rewrite Et, Hid.
  destruct (has_child tenant (c_run_id c) (db_runs d)), (run_resumed_by_run_id r =? "")%string; simpl;
    rewrite own_pending_one; eauto.
Qed.
End Answer.

Lemma AppendEvent_cases uuid now ev d :
  fst (AppendEvent uuid now ev d) = d \/ exists e, fst (AppendEvent uuid now ev d) = store_event e d.
Proof.
  unfold AppendEvent. cbv zeta.
  match goal with |- context [(ei_TaskID ?x =? "")%string] => generalize x end. intros ev'.
  destruct (ei_TaskID ev' =? "")%string; [by left|].
  match goal with |- context [match ?x with Some _ => _ | None => _ end] => destruct x; [by left|] end.
  destruct (negb _); [by left|]. destruct (event_id_taken _ d); [by left|]. right. eexists. reflexivity.
Qed.

Lemma appendClarify_frame uuid now c ch d :
  let d' := appendClarifyAnsweredEvent uuid now c ch d in
  db_clarifies d' = db_clarifies d /\ db_queue d' = db_queue d /\ db_runs d' = db_runs d.
Proof.
  unfold appendClarifyAnsweredEvent. destruct c as [c|]; [|done]. case_if; [done|]. cbv zeta.
  match goal with |- context [AppendEvent ?a ?b ?c ?d] => by destruct (AppendEvent_cases a b c d) as [->|[e ->]] end.
Qed.

(** The continuation row an answer stores. *)
Definition resume_row (c : ClarifyRow) (r : Run) (final : string) (row : QueueRow) : Prop :=
  q_reply_to_run_id row = run_id r /\ q_clarify_id row = c_id c /\ q_content row = final /\
  q_thread_id row = c_thread_id c /\ q_status row = QueueStatusQueued /\ q_run_id row = "".

Lemma enqueueClarifyResume_row uuid now tenant person c final r q d queue queued :
  normalizeTenant tenant = tenant ->
  enqueueClarifyResume uuid now tenant person (c_thread_id c) (c_id c) final r q d = Ok (queue, queued) ->
  exists row, In row queue /\ q_id row = t_ID queued /\ q_tenant_id row = tenant /\
    (existsb (same_idempotency tenant (t_IdempotencyKey queued)) (db_queue d) = false ->
     resume_row c r final row).
Proof.
  intros Ht. unfold enqueueClarifyResume. case_if; [done|]. cbv zeta.
  match goal with |- context [prepareResume ?a ?b ?c ?d ?e ?f ?g ?h ?i ?j ?k] =>
    set (q' := prepareResume a b c d e f g h i j k) end.
  destruct (parkedRunAdmissionJSON _ _) as [adm|]; [|done].
  destruct (insertContinuation _ _) as [[queue' id]|] eqn:E; [|done]. intros; simplify_eq.
  eapply insertContinuation_evolves in E as [_ (row & Hrow & Hid & Htn & _ & Hnew)];
    [|eapply resumeRow_fields|done|done].
  assert (t_ID (storedResume q' id adm) = id /\
          t_IdempotencyKey (storedResume q' id adm) = t_IdempotencyKey q') as [-> ->].
  { unfold storedResume. by destruct (setStoredAdmission adm). }
  exists row. split_and!; try done. intros Hf. rewrite (Hnew Hf). done.
Qed.

(** Answering one's own pending question has exactly the outcome the Run that
    asked calls for.  The Run executes, or there is none: the resolved answer is
    recorded and nothing is queued.  The Run is parked and unclaimed: the answer
    is recorded together with the queue row that continues exactly that Run with
    the resolved answer, or nothing changes.  Otherwise the question expires, the
    caller is told so, and nothing is queued. *)
Theorem clarify_answer_decides uuid ev now tenantID person answer channel q d c :
  db_wf d -> In c (db_clarifies d) -> c_tenant_id c = normalizeTenant tenantID ->
  c_person_id c = person -> c_status c = "pending" ->
  TrimSpace person = person -> person <> "" -> TrimSpace (c_id c) = c_id c -> c_id c <> "" ->
  blank answer = false ->
  let final := ResolveClarifyOption (TrimSpace answer) (c_options c) in
  let '(d', result) := AnswerClarifyRequestWithResume uuid ev now tenantID person (c_id c) answer channel q d in
  let row := lookup_key (c_id c) (db_clarifies d') in
  match origin_of person c d with
  | OriginLive => row = Some (answerClarify now final channel c) /\ db_queue d' = db_queue d /\
      exists stored, result = Ok (stored, None)
  | OriginParked r =>
      match result with
      | Ok (_, Some queued) => row = Some (answerClarify now final channel c) /\
          exists x, In x (db_queue d') /\ q_id x = t_ID queued /\
            (existsb (same_idempotency (c_tenant_id c) (t_IdempotencyKey queued)) (db_queue d) = false ->
             resume_row c r final x)
      | Ok (_, None) => False
      | Err _ => d' = d
      end
  | OriginGone => row = Some (expireClarify now c) /\ db_queue d' = db_queue d /\
      exists reason, result = Err (Wrap reason (Sentinel ErrClarifyOriginUnavailable))
  end.
Proof.
  intros Hw Hc Hct Hcp Hp Htp Hpne Hti Hine Hb final.
  pose proof (answerWithResumeTx_decides d Hw (normalizeTenant tenantID) person c Hc Hct Hcp Hp
                uuid now (TrimSpace answer) channel q) as Hd. cbv zeta in Hd. fold final in Hd.
  pose proof (fun f => lookup_settled d Hw (normalizeTenant tenantID) person c Hc Hct Hcp Hp f) as Hl.
  unfold AnswerClarifyRequestWithResume. cbv zeta. rewrite Htp, Hti.
  apply String.eqb_neq in Hpne, Hine. rewrite Hpne, Hine. unfold blank in Hb. rewrite Hb. simpl orb. cbv iota.
  destruct (origin_of person c d) as [|r|].
  - rewrite Hd. simpl.
    match goal with |- context [appendClarifyAnsweredEvent ?a ?b ?c0 ?d0 ?e] =>
      destruct (appendClarify_frame a b c0 d0 e) as (-> & -> & _) end. simpl.
    split; [by apply Hl|]. split; [done|]. eauto.
  - rewrite Hd. destruct (enqueueClarifyResume _ _ _ _ _ _ _ _ _ _) as [[queue queued]|] eqn:E; simpl; [|done].
    match goal with |- context [appendClarifyAnsweredEvent ?a ?b ?c0 ?d0 ?e] =>
      destruct (appendClarify_frame a b c0 d0 e) as (-> & -> & _) end. simpl.
    split; [by apply Hl|]. rewrite Hct.
    apply enqueueClarifyResume_row in E as (x & Hx & Hid & _ & Hnew); [eauto|apply normalizeTenant_idemp].
  - destruct Hd as [reason Hd]. rewrite Hd. simpl. split; [by apply Hl|]. split; [done|]. eauto.
Qed.

(** ** Witness *)

Definition question0 : ClarifyRow :=
  mkClarifyRow "clr_1" "default" "p1" "th1" "run_1" "which colour?" (JVal ["red"; "blue"]) "" "" "cli" 0 0 0 None.

(** A question the Run was parked on. *)
Definition questioned : list control_op :=
  [OpStartRun "1" "1" (at_second 1) owner0 "cli" "goal" options0;
   OpCreateClarify "x" (at_second 2) question0;
   OpSaveCheckpoint (at_second 3) (checkpoint0 <| ck_WaitKind := LoopCheckpointWaitClarification |>
     <| ck_WaitRef := "clr_1" |>);
   OpParkHumanWait (at_second 4) "default" "p1" "run_1" LoopCheckpointWaitClarification "clr_1" ""].

Definition is_question (c : ClarifyRow) : bool :=
  (c_id c =? "clr_1")%string && (c_tenant_id c =? "default")%string && (c_person_id c =? "p1")%string
  && (c_status c =? "pending")%string
  && (ResolveClarifyOption "2" (c_options c) =? "blue")%string
  && match origin_of "p1" c (after questioned) with OriginParked _ => true | _ => false end.

Lemma clarify_answer_decides_witness :
  exists d' res c', AnswerClarifyRequestWithResume "q" "e" (at_second 5) "default" "p1" "clr_1" " 2 " "cli"
      answer0 (after questioned) = (d', res) /\
    lookup_key "clr_1" (db_clarifies d') = Some c' /\ c_status c' = "answered" /\ c_answer c' = "blue".
Proof.
  assert (db_wf (after questioned)) as Hw by (apply after_wf; repeat constructor).
  assert (existsb is_question (db_clarifies (after questioned)) = true) as (c & Hc & E)%stored by (vm_compute; reflexivity).
  assert (match AnswerClarifyRequestWithResume "q" "e" (at_second 5) "default" "p1" "clr_1" " 2 " "cli"
      answer0 (after questioned) with (_, Ok (_, Some _)) => true | _ => false end = true) as Hok
    by (vm_compute; reflexivity).
  unfold is_question in E. rewrite !andb_true_iff, !String.eqb_eq in E. destruct E as [[[[[E1 E2] E3] E4] E5] E6].
  pose proof (clarify_answer_decides "q" "e" (at_second 5) "default" "p1" " 2 " "cli" answer0 (after questioned) c
    Hw Hc E2 E3 E4 eq_refl ltac:(discriminate) ltac:(rewrite E1; reflexivity) ltac:(rewrite E1; discriminate) eq_refl)
    as Hd. cbv zeta in Hd. rewrite E1 in Hd. change (TrimSpace " 2 ") with "2" in Hd.
  destruct (AnswerClarifyRequestWithResume "q" "e" (at_second 5) "default" "p1" "clr_1" " 2 " "cli"
      answer0 (after questioned)) as [d' [[stored [queued|]]|e]]; try discriminate.
  destruct (origin_of "p1" c (after questioned)) as [|r|]; try discriminate.
  destruct Hd as [Hrow _]. eexists d', _, _. split; [reflexivity|]. split; [exact Hrow|].
  split; [reflexivity|exact E5].
Defined.
