(* ===== verification/Finalizing.v ===== *)
(** * Finalizing a Run: the properties

    A finalization commits everything it records or nothing; repeated at any
    later time it returns its first terminal event; a stopped Run accepts no
    result but its cancellation; and a Run parked with a wake-up row is continued
    from that row and from no other. *)

From stdpp Require Import base tactics list strings.
From Stdlib Require Import ZArith Lia Bool String List Sorted RelationClasses.
From S2P Require Import Prelude GoLib Sql Evolution Admission Store Queue QueueTheory Maintenance Database RunStart Checkpoints Approvals Clarify Cancellation Continuation Finalization Control Scenario ApprovalTheory ControlSteps FinalizationSteps ControlTheory Continuity Resolution Decisions Stops Ledger.

(** ** What the stages leave alone *)

(** The tables a resolver or a stop reads. *)
Record keeps (d d' : DB) : Prop := {
  kp_runs : db_runs d' = db_runs d;
  kp_queue : db_queue d' = db_queue d;
  kp_approvals : db_approvals d' = db_approvals d;
  kp_clarifies : db_clarifies d' = db_clarifies d;
  kp_watches : db_watches d' = db_watches d;
  kp_units : db_work_units d' = db_work_units d;
  kp_waits : forall t r, existsb (pending_resource_wait t r) (db_resource_waits d')
                         = existsb (pending_resource_wait t r) (db_resource_waits d)
}.

#[export] Instance keeps_preorder : PreOrder keeps.
Proof.
  split; [by constructor|]. intros a b c [] [].
  split; congruence.
Qed.

Ltac keep := intros; simplify_eq; by constructor.

Lemma importEvents_keeps now r th ch events : forall d d',
  importEvents now r th ch events d = Ok d' -> keeps d d'.
Proof.
  induction events as [|[id e] events IH]; intros d d'; simpl; [keep|].
  destruct (insertScopedEvent _ _ _ _ _ _ _) as [[d1 x]|] eqn:E1; [|done]. intros E.
  etransitivity; [|exact (IH _ _ E)]. revert E1. unfold insertScopedEvent. cbv zeta.
  repeat (case_if; [done|]). keep.
Qed.

Section Frames.
Context `{FinalizeEnv}.

Lemma materializeCompletionTx_keeps now tenant person f d d' f' :
  materializeCompletionTx now tenant person f d = Ok (d', f') ->
  keeps (d <| db_work_units := db_work_units d' |>) d'.
Proof.
  unfold materializeCompletionTx. destruct (fz_Completion f); [|keep]. case_if; [done|].
  destruct (completionTx _ _ _) as [[[units events] p]|]; [|done].
  destruct (importEvents _ _ _ _ _ _) as [d1|] eqn:E; [|done]. intros; simplify_eq.
  apply importEvents_keeps in E as []. by constructor.
Qed.

Lemma claimEffectTx_keeps now tenant f d : keeps d (fst (claimEffectTx now tenant f d)).
Proof. unfold claimEffectTx. case_if; [reflexivity|]. destruct (insert_or_ignore _ _ _). keep. Qed.

Lemma correctResourceWaitTx_keeps now tenant person f d d' :
  correctResourceWaitTx now tenant person f d = Ok d' -> keeps d d'.
Proof.
  unfold correctResourceWaitTx. destruct (fz_ResourceWait f) as [w|]; [|keep]. cbv zeta.
  case_if; [done|]. destruct (query_row _ _); [|done]. case_if; [done|].
  destruct (externalResourceBlockers _ _ _ _ _) as [[n b]|]; [|done].
  case_if; [done|]. case_if; [done|]. intros; simplify_eq. constructor; try done. intros tn run. simpl.
  unfold update_where. clear. induction (db_resource_waits d) as [|x l IH]; simpl; [done|]. rewrite IH. by case_if.
Qed.

Lemma touchFinishedThread_keeps now tenant dup f d d' :
  touchFinishedThread now tenant dup f d = Ok d' -> keeps d d'.
Proof. unfold touchFinishedThread. cbv zeta. case_if; [keep|]. case_if; [done|keep]. Qed.

Lemma promoteThreadForRunTx_keeps now tenant run d d' :
  promoteThreadForRunTx now tenant run d = Ok d' -> keeps d d'.
Proof.
  unfold promoteThreadForRunTx.
  assert (keeps d (fst (execPromoteThreadForRunTx now tenant run d))) as Hs.
  { unfold execPromoteThreadForRunTx. cbv zeta. destruct (query_row _ _); keep. }
  destruct (execPromoteThreadForRunTx now tenant run d) as [d1 n].
  repeat case_if; intros; by simplify_eq.
Qed.

Lemma appendOutcomeTx_keeps uuid now f p d d' : appendOutcomeTx uuid now f p d = Ok d' -> keeps d d'.
Proof.
  unfold appendOutcomeTx. destruct (outcomeFromTerminalPayload p); [|keep]. cbv zeta.
  case_if; [keep|]. unfold insertEventIgnore. case_if; [done|]. case_if; keep.
Qed.

(** The stages before and after the two that write [runs] and [task_queue]. *)
Lemma stages_keep ids now tenant f f' dup person r d d1 d2 d4 d5 d6 d7 d8 d' :
  finalize_stages ids now tenant f f' dup person r d d1 d2 d4 d5 d6 d7 d8 d' ->
  keeps (d <| db_work_units := db_work_units d1 |>) d1 /\ keeps d2 d4 /\
  keeps (finalizeRunSkillLifecycleTx now f' d6) d'.
Proof.
  intros [_ _ Ec _ _ _ _ Ew _ _ Et Ep Er]. split_and!.
  - by eapply materializeCompletionTx_keeps.
  - etransitivity; [apply claimEffectTx_keeps|by eapply correctResourceWaitTx_keeps].
  - etransitivity; [by eapply touchFinishedThread_keeps|]. transitivity d8.
    { revert Ep. case_if; [apply promoteThreadForRunTx_keeps|keep]. }
    cbv zeta in Er. subst d'. unfold recordMessage. repeat case_if; keep.
Qed.

(** A stop's withdrawal, in the transaction that cancels the Run. *)
Lemma withdrawCancelledTx_effect ids now tenant person f d d' :
  withdrawCancelledTx ids now tenant person f d = Ok d' ->
  db_runs d' = db_runs d /\
  (fz_RunStatus f <> "cancelled" -> d' = d) /\
  (fz_RunStatus f = "cancelled" ->
     withdrawn tenant person (fz_RunID f) d' /\ disarmed tenant person (fz_RunID f) d').
Proof.
  unfold withdrawCancelledTx. destruct (String.eqb_spec (fz_RunStatus f) "cancelled") as [E|E]; cbn [negb];
    [|intros [= <-]; by split_and!].
  pose proof (expire_clears now tenant person (fz_RunID f) "Run execution was cancelled" d) as Hx.
  destruct (expireRunHumanRequestsTx _ _ _ _ _ d) as [res d1] eqn:E1. simpl in Hx. destruct Hx as [Hxa Hxc].
  assert (db_runs d1 = db_runs d) as Er by (unfold expireRunHumanRequestsTx in E1; by simplify_eq).
  destruct (insertScopedEventsTx _ _ _ _ _ _ _) as [[d3 es]|] eqn:E3; [|done]. intros [= <-]. clear E1.
  apply scoped_frame in E3 as (_ & ev & n & ->). split; [by rewrite <- Er|]. split; [done|]. intros _. split.
  - split; [intros a Hin Ho; by apply Hxa|exact Hxc|].
    intros q Hq. apply cancelUnbound_clears in Hq. exact Hq.
  - intros a Hin Ho. by apply Hxa.
Qed.
End Frames.

(** ** A committed transaction *)

(** No unit of the Run is left open. *)
Definition units_closed (tenant run : string) (d : DB) : Prop :=
  forall u, In u (db_work_units d) -> u_tenant_id u = tenant -> u_run_id u = run ->
    one_of ["pending"; "active"] (u_status u) = false.

Lemma lifecycle_closes now f d :
  units_closed (normalizeTenant (fz_TenantID f)) (fz_RunID f) (finalizeRunSkillLifecycleTx now f d).
Proof.
  intros u (x & Hx & ->)%In_update_where Ht Hr. revert Ht Hr. case_if.
  - intros _ _. simpl. unfold workUnitState. cbv zeta. repeat case_if; reflexivity.
  - intros Ht Hr. by rewrite Ht, Hr, !String.eqb_refl in Heqb.
Qed.

Section Commit.
Context `{FinalizeEnv}.

(** The rows a transaction writes. *)
Record rows_effect (ids : FinalizationIDs) (now : Time) (tenant : string) (f : RunFinalization)
    (person : string) (r : Run) (d d' : DB) : Prop := {
  re_owner : finalizationOwner tenant f d = Ok (person, r);
  re_stop : stopRefuses f r = false;
  re_one : rows_affected (finishable tenant f (db_runs d)) (db_runs d) = 1%Z;
  re_runs : db_runs d' = update_where (finishable tenant f (db_runs d)) (finished now (fz_RunStatus f)) (db_runs d);
  re_units : units_closed (normalizeTenant (fz_TenantID f)) (fz_RunID f) d';
  re_cancelled : fz_RunStatus f = "cancelled" ->
    withdrawn tenant person (fz_RunID f) d' /\ disarmed tenant person (fz_RunID f) d';
  re_wake : fz_RunStatus f <> "cancelled" -> exists d5 d6,
    enqueueWakeTx (fi_queue ids) now tenant person f d5 = Ok d6 /\
    keeps (d <| db_runs := db_runs d' |> <| db_work_units := db_work_units d5 |>) d5 /\
    keeps (d6 <| db_work_units := db_work_units d' |>) d'
}.

Lemma enqueueWakeTx_frame qid now tenant person f d d' :
  enqueueWakeTx qid now tenant person f d = Ok d' ->
  d' = d <| db_queue := db_queue d' |> /\
  (fz_RunStatus f <> "waiting_external" -> d' = d).
Proof.
  unfold enqueueWakeTx. destruct (fz_Continuation f) as [q|]; [|intros [= <-]; by destruct d].
  destruct (exactContinuation tenant person f q) eqn:Ex; simpl; [|done].
  case_if; [done|]. destruct (query_row _ _) as [r|]; [|done].
  destruct (parkedRunAdmissionJSON _ _); [|done]. cbv zeta. case_if; [done|]. case_if; [done|].
  destruct (insertQueueRow _ _) as [t|]; [|done]. destruct (consumeSourceRow _ _ _ _) as [t'|]; [|done].
  intros [= <-]. split; [done|]. intros Hs. unfold exactContinuation in Ex. by reflect_bools.
Qed.

Lemma finalizeRowsTx_effect ids now tenant f d d' f' dup :
  finalizeRowsTx ids now tenant f d = Ok (d', (f', dup)) ->
  exists person r, rows_effect ids now tenant f person r d d'.
Proof.
  intros E. apply finalizeRowsTx_stages in E as (person & r & d1 & d2 & d4 & d5 & d6 & d7 & d8 & St).
  pose proof (stages_keep _ _ _ _ _ _ _ _ _ _ _ _ _ _ _ _ _ St) as (K1 & K2 & K3).
  destruct St as [Ho Hs _ [p ->] Ew _ _ _ Eu Eq _ _ _].
  apply withdrawCancelledTx_effect in Ew as (Wr & Wid & Wc).
  unfold updateRunTx in Eu. cbv zeta in Eu. case_if; [done|]. injection Eu as <-.
  apply negb_false_iff, Z.eqb_eq in Heqb.
  pose proof (enqueueWakeTx_frame _ _ _ _ _ _ _ Eq) as [Fq Fn].
  assert (db_runs d4 = db_runs d) as Er4 by (rewrite (kp_runs _ _ K2), Wr; apply (kp_runs _ _ K1)).
  rewrite Er4 in *. exists person, r. split; try done.
  - rewrite (kp_runs _ _ K3). simpl. by rewrite Fq.
  - unfold units_closed. rewrite (kp_units _ _ K3). exact (lifecycle_closes now (f <| fz_EventPayload := p |>) d6).
  - intros Hc. destruct (Wc Hc) as [Wd Wa]. rewrite Fn in K3 by (simpl; congruence).
    destruct K2 as [_ Kq Ka Kc _ _ _], K3 as [_ Lq La Lc _ _ _]. simpl in *. split.
    + eapply withdrawn_frame, Wd; congruence.
    + unfold disarmed. rewrite La, Ka. exact Wa.
  - intros Hc. eexists _, d6. split; [exact Eq|]. assert (d2 = d1) as -> by auto. split.
    + rewrite (kp_runs _ _ K3). destruct K1, K2. split; simpl in *; try congruence.
      by rewrite Fq.
    + destruct K3. by constructor.
Qed.

(** A Run that ended: the status, the end and the last heartbeat are written, every
    other column is kept. *)
Record run_ends (now : Time) (status : string) (r r' : Run) : Prop := {
  en_status : run_status r' = status;
  en_finished : run_finished_at r' = Some (Unix now);
  en_heartbeat : run_heartbeat_at r' = Some (Unix now);
  en_rest : r' <| run_status := run_status r |> <| run_finished_at := run_finished_at r |>
               <| run_heartbeat_at := run_heartbeat_at r |> = r
}.

Lemma finished_ends now status r : run_ends now status r (finished now status r).
Proof. by destruct r. Qed.

Lemma ends_finished now status r r' : run_ends now status r r' -> r' = finished now status r.
Proof. destruct r, r'. intros [E1 E2 E3 E4]. simpl in *. injection E4. intros. by subst. Qed.

(** What a finalization that commits has done. *)
Record committed (now : Time) (f : RunFinalization) (e : Event) (d d' : DB) : Prop := {
  cm_run : exists r, lookup_key (fz_RunID f) (db_runs d) = Some r /\
    run_tenant_id r = normalizeTenant (fz_TenantID f) /\ run_thread_id r = fz_TaskID f /\
    (fz_RunStatus f = "cancelled" \/ run_cancel_requested r = false /\ run_status r <> "cancelled") /\
    (exists r', lookup_key (fz_RunID f) (db_runs d') = Some r' /\ run_ends now (fz_RunStatus f) r r') /\
    (fz_RunStatus f = "cancelled" ->
       withdrawn (run_tenant_id r) (run_person_id r) (run_id r) d' /\
       disarmed (run_tenant_id r) (run_person_id r) (run_id r) d');
  cm_others : forall k, k <> fz_RunID f -> lookup_key k (db_runs d') = lookup_key k (db_runs d);
  cm_units : units_closed (normalizeTenant (fz_TenantID f)) (fz_RunID f) d';
  cm_queue : fz_RunStatus f <> "cancelled" -> fz_Continuation f = None -> db_queue d' = db_queue d;
  cm_events : exists new, db_events d' = db_events d ++ new ++ [e];
  cm_key : ev_idempotency_key e = fz_EventKey f;
  cm_owner : ev_run_id e = fz_RunID f /\ ev_thread_id e = fz_TaskID f
}.

Lemma finalizeTx_rows ids now tenant f d d' e :
  db_wf d -> normalizeTenant tenant = tenant -> fz_RunStatus f <> "running" ->
  finalizeTx ids now tenant f d = Ok (Some (d', e)) ->
  (exists person r, rows_effect ids now tenant f person r d d') /\
  (exists new, db_events d' = db_events d ++ new ++ [e]) /\
  ev_idempotency_key e = fz_EventKey f /\ ev_run_id e = fz_RunID f /\ ev_thread_id e = fz_TaskID f.
Proof.
  intros Hw Ht Hs (d1 & d2 & p & dup & E1 & E2 & -> & Hi & Hk & ->)%finalizeTx_Some.
  split.
  - apply finalizeRowsTx_effect in E1 as (person & r & []). exists person, r.
    pose proof (appendOutcomeTx_keeps _ _ _ _ _ _ E2) as K. pose proof K as [Kr Kq Ka Kc _ Ku _].
    split; try done.
    + simpl. by rewrite Kr.
    + unfold units_closed. simpl. by rewrite Ku.
    + intros Hc. destruct (re_cancelled0 Hc) as [Wd Wa]. split.
      * by eapply withdrawn_frame, Wd.
      * unfold disarmed. simpl. by rewrite Ka.
    + intros Hc. destruct (re_wake0 Hc) as (d5 & d6 & E & K5 & K6). exists d5, d6. split; [exact E|].
      simpl. rewrite Kr. split; [exact K5|]. destruct K, K6. split; simpl in *; congruence.
  - split; [|done]. apply (finalizeRowsTx_step new_run) in E1 as S1; [|done|done].
    apply (appendOutcomeTx_step new_run) in E2 as S2.
    destruct S1 as [_ _ _ _ S1], S2 as [_ _ _ _ S2].
    destruct (S1 (wf_events _ Hw)) as [Hw1 [n1 En1]]. destruct (S2 Hw1) as [_ [n2 En2]].
    exists (n1 ++ n2). unfold store_event. cbn [db_events]. by rewrite En2, En1, !app_assoc.
Qed.

Lemma finalizationOwner_run tenant f d person r :
  finalizationOwner tenant f d = Ok (person, r) ->
  query_row (run_at tenant (fz_RunID f)) (db_runs d) <> None /\
  In r (db_runs d) /\ run_tenant_id r = tenant /\ run_id r = fz_RunID f /\
  run_person_id r = person /\ run_thread_id r = fz_TaskID f.
Proof.
  unfold finalizationOwner. destruct (query_row _ (db_threads d)) as [t|]; [|done]. cbv zeta.
  case_if; [done|]. destruct (query_row _ (db_runs d)) as [x|] eqn:Ex; [|done]. intros [= <- <-].
  apply find_some in Ex as [Hin Hx]. unfold run_at in Hx. rewrite !andb_true_iff, !String.eqb_eq in Hx.
  destruct Hx as [[[H1 H2] H3] H4]. split; [|done]. intros Hn. unfold query_row in Hn.
  eapply find_none in Hn; [|exact Hin]. unfold run_at in Hn. by rewrite H1, H2, !String.eqb_refl in Hn.
Qed.

Lemma finalizeTx_committed ids now f d d' e :
  let tenant := normalizeTenant (fz_TenantID f) in
  db_wf d -> fz_RunStatus f <> "running" ->
  finalizeTx ids now tenant f d = Ok (Some (d', e)) -> committed now f e d d'.
Proof.
  intros tenant Hw Hs E.
  destruct (finalizeTx_rows _ _ _ _ _ _ _ Hw (normalizeTenant_idemp _) Hs E)
    as ((person & r & [Ho Hst H1 Hr Hu Hc Hq]) & Hev & Hk & Hor).
  destruct (finalizationOwner_run _ _ _ _ _ Ho) as (_ & Hin & Et & Eid & Ep & Eth).
  destruct (update_one _ (finished now (fz_RunStatus f)) _ (wf_run_ids _ Hw) H1 ltac:(done))
    as (x & Hl & Hx & Hfx & Hl').
  assert (x = r) as ->.
  { apply (keys_unique_inj (db_runs d)); [apply Hw|done|done|].
    unfold finishable, run_at in Hfx. unfold key, run_keyed. rewrite !andb_true_iff, !String.eqb_eq in Hfx.
    destruct Hfx as [[[[_ ->] _] _] _]. done. }
  assert (key r = fz_RunID f) as Ek by done. rewrite Ek in Hl, Hl'. split; try done.
  - exists r. rewrite Hr, Et, Ep, Eid. split_and!; try done; try (by apply Hc).
    + unfold stopRefuses in Hst. destruct (fz_RunStatus f =? "cancelled")%string eqn:Es; [left; by apply String.eqb_eq|right].
      simpl in Hst. apply orb_false_iff in Hst as [? ?%String.eqb_neq]. done.
    + eexists. split; [exact Hl'|]. apply finished_ends.
  - intros k Hne. rewrite Hr. apply lookup_update_ne with (k := fz_RunID f); [|done|done].
    intros y Ef. unfold finishable, run_at in Ef. rewrite !andb_true_iff, !String.eqb_eq in Ef. apply Ef.
  - intros Hnc Hn. destruct (Hq Hnc) as (d5 & d6 & E6 & K5 & K6).
    unfold enqueueWakeTx in E6. rewrite Hn in E6. injection E6 as <-.
    rewrite (kp_queue _ _ K6). simpl. rewrite (kp_queue _ _ K5). done.
Qed.
End Commit.

(** ** The properties *)

Section Properties.
Context `{RunEnv} `{FinalizeEnv}.

Lemma eventByIdempotencyKey_Some k d e : eventByIdempotencyKey k d = Some e ->
  In e (db_events d) /\ ev_idempotency_key e = k.
Proof. unfold eventByIdempotencyKey. intros [Hin Hk]%find_some. by reflect_bools. Qed.

Lemma finalization_atomic_cases ids now input d :
  let f := normalizeFinalization input in
  db_wf d ->
  match MaterializeRunFinalization ids now input d with
  | (d', Ok e) =>
      d' = d /\ In e (db_events d) /\ ev_idempotency_key e = fz_EventKey f \/ committed now f e d d'
  | (d', Err _) => d' = d
  end.
Proof.
  intros f Hw.
  destruct (MaterializeRunFinalization_cases ids now input d) as [[r E]|(d' & e & E & Ef)].
  - rewrite E. destruct r as [e|]; [left|done]. split; [done|]. revert E.
    unfold MaterializeRunFinalization. cbv zeta. fold f. do 3 (case_if; [done|]).
    destruct (eventByIdempotencyKey _ d) as [x|] eqn:Ex.
    + apply eventByIdempotencyKey_Some in Ex.
      destruct (fz_Completion f); [case_if; [done|]|]; intros [= <-]; exact Ex.
    + destruct (finalizeTx _ _ _ _ _) as [[[d' e']|]|] eqn:Ef; [|done|done].
      intros [= -> ->].
      destruct (finalizeTx_rows _ _ _ _ _ _ _ Hw (normalizeTenant_idemp _) (normalizeFinalization_status _) Ef)
        as (_ & [new En] & Hk & _).
      exfalso. apply (f_equal length) in En. rewrite !length_app in En. simpl in En. lia.
  - rewrite E. right. by eapply finalizeTx_committed; [|apply normalizeFinalization_status|].
Qed.

Lemma committed_event now f e d d' : committed now f e d d' -> In e (db_events d').
Proof.
  intros [_ _ _ _ [new ->] _ _]. apply in_or_app. right. apply in_or_app. right. by left.
Qed.

(** A recorded terminal key answers every finalization that passes the checks on
    its input. *)
Lemma MaterializeRunFinalization_known ids now input d e :
  let f := normalizeFinalization input in
  db_wf d -> In e (db_events d) -> ev_idempotency_key e = fz_EventKey f ->
  (fz_RunID f =? "")%string || (fz_TaskID f =? "")%string = false ->
  candidate_foreign (normalizeTenant (fz_TenantID f)) f = false ->
  negb (blank (fz_MaintenancePayload f)) && (fz_AnalyzerVersion f <=? 0)%Z = false ->
  (fz_Completion f <> None -> ev_run_id e = fz_RunID f /\ ev_thread_id e = fz_TaskID f) ->
  MaterializeRunFinalization ids now input d = (d, Ok e).
Proof.
  intros f Hw Hin Hk E1 E2 E3 Hc. unfold MaterializeRunFinalization. cbv zeta. fold f. rewrite E1, E2, E3.
  assert (eventByIdempotencyKey (fz_EventKey f) d = Some e) as ->.
  { unfold eventByIdempotencyKey. destruct (query_row _ (db_events d)) as [x|] eqn:Ex.
    - apply find_some in Ex as [Hx Ex]. apply String.eqb_eq in Ex. f_equal.
      pose proof (normalizeFinalization_key input). fold f in H1.
      apply (ew_keys _ _ (wf_events _ Hw)); congruence.
    - unfold query_row in Ex. eapply find_none in Ex; [|exact Hin]. cbv beta in Ex.
      by rewrite Hk, String.eqb_refl in Ex. }
  destruct (fz_Completion f); [|done]. destruct Hc as [-> ->]; [done|]. by rewrite !String.eqb_refl.
Qed.

(** The checks that a finalization with a result has passed. *)
Lemma MaterializeRunFinalization_checked ids now input d d' e :
  let f := normalizeFinalization input in
  MaterializeRunFinalization ids now input d = (d', Ok e) ->
  (fz_RunID f =? "")%string || (fz_TaskID f =? "")%string = false /\
  candidate_foreign (normalizeTenant (fz_TenantID f)) f = false /\
  negb (blank (fz_MaintenancePayload f)) && (fz_AnalyzerVersion f <=? 0)%Z = false.
Proof.
  intros f. unfold MaterializeRunFinalization. cbv zeta. fold f.
  destruct (_ || _); [done|]. destruct (candidate_foreign _ _); [done|].
  destruct (negb _ && _); [done|]. done.
Qed.

Lemma materialized_wf ids now input d : db_wf d -> db_wf (fst (MaterializeRunFinalization ids now input d)).
Proof.
  intros Hw. apply (db_step_wf new_run) with (d := d); [done|apply MaterializeRunFinalization_step|done].
Qed.

(** C31: A finalization is all or nothing, at any point of any history.  An error
    leaves the database as it was; a result is either the terminal event that was
    recorded before, with nothing changed, or that of a commit, which gives exactly
    the Run named its final status and end and keeps its other columns, a stopped
    Run's only as cancelled, closes its work units, appends the terminal event last, withdraws everything the Run
    asked for if it was cancelled, and leaves the queue alone unless it cancels or
    parks. *)
Theorem finalization_atomic ops m ids now input :
  let f := normalizeFinalization input in
  let d := exec_controls ops (emptyDB m) in
  Forall control_ok ops ->
  match MaterializeRunFinalization ids now input d with
  | (d', Ok e) =>
      d' = d /\ In e (db_events d) /\ ev_idempotency_key e = fz_EventKey f \/ committed now f e d d'
  | (d', Err _) => d' = d
  end.
Proof. intros f d Hok. by apply finalization_atomic_cases, history_wf. Qed.

(** C13: Finalizing once: the terminal event of a finalization is what every later
    finalization of the Run under the same key returns, after any further
    history and whatever result it carries, and it changes nothing. *)
Theorem finalization_once ops1 ops2 m ids now input d1 e :
  Forall control_ok ops1 -> Forall control_ok ops2 ->
  MaterializeRunFinalization ids now input (exec_controls ops1 (emptyDB m)) = (d1, Ok e) ->
  d1 <> exec_controls ops1 (emptyDB m) ->
  let d2 := exec_controls ops2 d1 in
  let f := normalizeFinalization input in
  forall ids2 now2 input2, let f2 := normalizeFinalization input2 in
    fz_RunID f2 = fz_RunID f -> fz_TaskID f2 = fz_TaskID f -> fz_EventKey f2 = fz_EventKey f ->
    candidate_foreign (normalizeTenant (fz_TenantID f2)) f2 = false ->
    (blank (fz_MaintenancePayload f2) = false -> (0 < fz_AnalyzerVersion f2)%Z) ->
    MaterializeRunFinalization ids2 now2 input2 d2 = (d2, Ok e).
Proof.
  intros Hok1 Hok2 E Hne d2 f ids2 now2 input2 f2 Hr Ht Hk Hf Ha.
  pose proof (history_wf ops1 m Hok1) as Hw.
  pose proof (finalization_atomic_cases ids now input _ Hw) as Hcm. cbv zeta in Hcm. rewrite E in Hcm.
  destruct Hcm as [[? _]|Hcm]; [done|].
  pose proof (materialized_wf ids now input _ Hw) as Hw1. rewrite E in Hw1. simpl in Hw1.
  destruct (exec_controls_wf ops2 d1 Hok2 Hw1) as [Hw2 [_ _ _ _ [new Hnew]]].
  destruct (MaterializeRunFinalization_checked _ _ _ _ _ _ E) as (Hi & _ & _). fold f in Hi.
  apply MaterializeRunFinalization_known; fold f2.
  - exact Hw2.
  - fold d2 in Hnew. rewrite Hnew. apply in_or_app. left. by eapply committed_event.
  - rewrite Hk. apply (cm_key _ _ _ _ _ Hcm).
  - by rewrite Hr, Ht.
  - exact Hf.
  - destruct (blank _) eqn:Eb; [done|]. simpl. apply Z.leb_gt. auto.
  - intros _. rewrite Hr, Ht. apply (cm_owner _ _ _ _ _ Hcm).
Qed.

(** C17: A stop wins over the result: once a stop is recorded on a Run, then after
    any further history no finalization that would finish the Run as anything but
    cancelled commits; it reports an error (the stop, where the thread and the
    person are the Run's own) unless its key is already recorded, and it changes
    nothing. *)
Theorem stopped_run_not_finished ops d r ids now input :
  let f := normalizeFinalization input in
  let tenant := normalizeTenant (fz_TenantID f) in
  let d2 := exec_controls ops d in
  Forall control_ok ops -> db_wf d ->
  In r (db_runs d) -> run_tenant_id r = tenant -> run_id r = fz_RunID f -> run_cancel_requested r = true ->
  fz_RunStatus f <> "cancelled" ->
  fst (MaterializeRunFinalization ids now input d2) = d2 /\
  (eventByIdempotencyKey (fz_EventKey f) d2 = None ->
   exists err, snd (MaterializeRunFinalization ids now input d2) = Err err /\
     (is_ok (finalizationOwner tenant f d2) = true ->
      fz_Completion f = None -> blank (fz_MaintenancePayload f) = true ->
      fz_TaskID f <> "" -> err = Sentinel ErrRunCancellationRequested)).
Proof.
  intros f tenant d2 Hok Hw Hin Ht Hid Hc Hs.
  destruct (exec_controls_wf ops d Hok Hw) as [Hw2 _]. fold d2 in Hw2.
  pose proof (lookup_key_In (db_runs d) r (wf_run_ids _ Hw) Hin) as Hl.
  destruct (run_descends ops d _ r Hok Hw Hl) as (r2 & Hl2 & Hs2). fold d2 in Hl2.
  apply lookup_key_Some in Hl2 as [Hin2 _].
  assert (forall person x, finalizationOwner tenant f d2 = Ok (person, x) -> stopRefuses f x = true) as Hstop.
  { intros person x Hx. apply finalizationOwner_run in Hx as (_ & Hx & _ & Exid & _).
    assert (x = r2) as ->.
    { apply (keys_unique_inj (db_runs d2)); [apply Hw2|done|done|].
      unfold key, run_keyed. rewrite (rs_id _ _ Hs2). congruence. }
    unfold stopRefuses. apply String.eqb_neq in Hs as ->. by rewrite (rs_cancel _ _ Hs2 Hc). }
  assert (exists err, finalizeTx ids now tenant f d2 = Err err /\
    (is_ok (finalizationOwner tenant f d2) = true -> err = Sentinel ErrRunCancellationRequested))
    as (err & Eerr & Hsent).
  { unfold finalizeTx, finalizeRowsTx. destruct (finalizationOwner tenant f d2) as [[person x]|e] eqn:Eo.
    - cbv zeta. cbn [fst snd]. rewrite (Hstop _ _ eq_refl). eauto.
    - exists e. split; [done|]. intros Hn. discriminate. }
  unfold MaterializeRunFinalization. cbv zeta. fold f. fold tenant. rewrite Eerr. split.
  - do 3 (case_if; [done|]). destruct (eventByIdempotencyKey _ d2); [|done].
    destruct (fz_Completion f); [case_if|]; done.
  - intros ->. destruct (fz_RunID f =? "")%string eqn:Eb.
    { exfalso. apply String.eqb_eq in Eb. eapply List.Forall_forall in Hin; [|apply Hw].
      apply (rw_id _ Hin). congruence. }
    cbn [orb]. destruct (fz_TaskID f =? "")%string eqn:Et.
    { eexists. split; [done|]. intros _ _ _ Hne. destruct (Hne (proj1 (String.eqb_eq _ _) Et)). }
    destruct (candidate_foreign tenant f) eqn:Ec.
    { eexists. split; [done|]. intros _ Hn _ _. unfold candidate_foreign in Ec. by rewrite Hn in Ec. }
    destruct (blank (fz_MaintenancePayload f)); simpl.
    { exists err. by split; [|intros Ho _ _ _; apply Hsent]. }
    case_if; eexists; (split; [done|]); by intros.
Qed.

(** ** The wake-up row *)

Lemma enqueueWakeTx_row qid now tenant person f q d d' :
  fz_Continuation f = Some q -> enqueueWakeTx qid now tenant person f d = Ok d' ->
  exactContinuation tenant person f q = true /\
  exists r adm, query_row (fun r => run_at tenant (fz_RunID f) r && (run_person_id r =? person)%string
                             && (run_thread_id r =? fz_TaskID f)%string) (db_runs d) = Some r /\
    let w := wakeRow qid now tenant person q r adm in
    consumeSourceRow tenant person f (db_queue d ++ [w]) = Ok (db_queue d').
Proof.
  intros Hq. unfold enqueueWakeTx. rewrite Hq.
  destruct (exactContinuation tenant person f q); simpl; [|done]. case_if; [done|].
  destruct (query_row _ _) as [r|]; [|done].
  destruct (parkedRunAdmissionJSON _ _) as [adm|]; [|done]. cbv zeta. case_if; [done|]. case_if; [done|].
  destruct (insertQueueRow _ _) as [t|] eqn:Ei; [|done].
  destruct (consumeSourceRow _ _ _ t) as [t'|] eqn:Ec; [|done]. intros [= <-]. split; [done|].
  exists r, adm. split; [done|]. revert Ei. unfold insertQueueRow. do 2 (case_if; [done|]). intros [= <-]. exact Ec.
Qed.

(** A row the source's consumption does not hit stays, and no row becomes a
    wake-up. *)
Lemma consumeSourceRow_wake tenant person run f t w t' :
  consumeSourceRow tenant person f (t ++ [w]) = Ok t' ->
  (forall x, In x t -> wake_row tenant person run x = false) ->
  q_status w = QueueStatusQueued -> wake_row tenant person run w = true ->
  In w t' /\ query_row (wake_row tenant person run) t' = Some w.
Proof.
  intros E Hn Hs Hwk.
  assert (forall g, (forall x, g x = x \/ q_status (g x) = QueueStatusDone) -> g w = w ->
    query_row (wake_row tenant person run) (map g (t ++ [w])) = Some w) as Hg.
  { intros g Hg Hgw. rewrite map_app. simpl. rewrite Hgw. clear E.
    induction t as [|x t IH]; simpl; [by rewrite Hwk|].
    assert (wake_row tenant person run (g x) = false) as ->.
    { destruct (Hg x) as [->|Hd]; [by apply Hn; left|]. unfold wake_row. rewrite Hd. apply andb_false_r. }
    apply IH. intros y Hy. apply Hn. by right. }
  assert (exists g, t' = map g (t ++ [w]) /\ g w = w /\ forall x, g x = x \/ q_status (g x) = QueueStatusDone)
    as (g & -> & Hgw & Hgx).
  { revert E. unfold consumeSourceRow. cbv zeta. case_if; [|case_if; [done|]; case_if; [done|]]; intros [= <-].
    - exists (fun x => x). rewrite map_id. split_and!; auto.
    - eexists. split; [reflexivity|]. split; [|intros x; case_if; auto].
      unfold consumed_row, has_status. rewrite Hs. simpl. by rewrite andb_false_r. }
  split; [|by apply Hg]. rewrite <- Hgw. apply in_map, in_or_app. right. by left.
Qed.

(** A commit with a wake-up. *)
Lemma finalizeTx_parks ids now f q d d' e r :
  let tenant := normalizeTenant (fz_TenantID f) in
  let y := finished now "waiting_external" r in
  db_wf d -> fz_RunStatus f <> "running" -> fz_Continuation f = Some q ->
  finalizeTx ids now tenant f d = Ok (Some (d', e)) ->
  In r (db_runs d) -> run_id r = fz_RunID f -> run_tenant_id r = tenant ->
  exactContinuation tenant (run_person_id r) f q = true /\
  run_thread_id r = fz_TaskID f /\ lookup_key (run_id r) (db_runs d') = Some y /\
  (forall t, has_child t (run_id r) (db_runs d') = has_child t (run_id r) (db_runs d)) /\
  db_watches d' = db_watches d /\
  (forall t x, existsb (pending_resource_wait t x) (db_resource_waits d')
               = existsb (pending_resource_wait t x) (db_resource_waits d)) /\
  exists adm, consumeSourceRow tenant (run_person_id r) f
    (db_queue d ++ [wakeRow (fi_queue ids) now tenant (run_person_id r) q y adm]) = Ok (db_queue d').
Proof.
  intros tenant y Hw Hs Hq Ef Hin Hid Ht.
  destruct (finalizeTx_rows _ _ _ _ _ _ _ Hw (normalizeTenant_idemp _) Hs Ef)
    as ((owner & r0 & [Ho _ _ Hr _ _ Hqu]) & _). fold tenant in Ho, Hr, Hqu.
  destruct (finalizationOwner_run _ _ _ _ _ Ho) as (_ & Hin0 & _ & Eid0 & <- & Eth0).
  pose proof (finalizeTx_committed ids now f d d' e Hw Hs Ef) as Hcm.
  destruct (cm_run _ _ _ _ _ Hcm) as (x & Hlx & _ & _ & _ & (x' & Hly & ->%ends_finished) & _).
  assert (r0 = r) as ->.
  { apply (keys_unique_inj (db_runs d)); [apply Hw|done|done|]. unfold key, run_keyed. congruence. }
  assert (x = r) as ->.
  { pose proof (lookup_key_In (db_runs d) r (wf_run_ids _ Hw) Hin) as Hl.
    assert (key r = fz_RunID f) as Ek by exact Hid. rewrite Ek in Hl. congruence. }
  assert (fz_RunStatus f = "waiting_external" /\ exactContinuation tenant (run_person_id r) f q = true) as [Hst Hx].
  { destruct (decide (fz_RunStatus f = "cancelled")) as [Hc|Hc].
    - exfalso. clear - Ef Hq Hc. apply finalizeTx_Some in Ef as (d1 & d2 & p & dup & E1 & _).
      apply finalizeRowsTx_stages in E1 as (? & ? & ? & ? & ? & ? & ? & ? & ? & [_ _ _ _ _ _ _ _ _ E _ _ _]).
      eapply enqueueWakeTx_row in E as [Ex _]; [|exact Hq]. unfold exactContinuation in Ex. simpl in Ex.
      by rewrite Hc in Ex.
    - destruct (Hqu Hc) as (d5 & d6 & E6 & _). apply (enqueueWakeTx_row _ _ _ _ _ q) in E6 as [Ex _]; [|done].
      split; [|done]. unfold exactContinuation in Ex. rewrite !andb_true_iff, String.eqb_eq in Ex. apply Ex. }
  rewrite Hst in *. fold y in Hly. rewrite <- Hid in Hly.
  destruct (Hqu ltac:(done)) as (d5 & d6 & E6 & K5 & K6).
  apply (enqueueWakeTx_row _ _ _ _ _ q) in E6 as E7; [|done]. destruct E7 as (_ & z & adm & Hz & Hcons).
  apply enqueueWakeTx_frame in E6 as [F6 _].
  assert (z = y) as ->.
  { apply find_some in Hz as [Hzin Hz]. rewrite !andb_true_iff in Hz. destruct Hz as [[Hz _] _].
    unfold run_at in Hz. rewrite andb_true_iff, !String.eqb_eq in Hz. destruct Hz as [_ Hzid].
    rewrite (kp_runs _ _ K5) in Hzin. simpl in Hzin. apply lookup_key_Some in Hly as [Hyin Hyk].
    assert (keys_unique (db_runs d')) as Hku.
    { apply (db_step_wf new_run (fun _ _ Hn => Hn) d d'); [|exact Hw].
      eapply finalizeTx_step, Ef; [apply normalizeTenant_idemp|by rewrite Hst]. }
    apply (keys_unique_inj (db_runs d')); try done. rewrite Hyk. unfold key, run_keyed. congruence. }
  split_and!; try done.
  - intros t. rewrite Hr. by apply has_child_update.
  - rewrite (kp_watches _ _ K6). simpl. rewrite F6. simpl. by rewrite (kp_watches _ _ K5).
  - intros t x. rewrite (kp_waits _ _ K6). simpl. rewrite F6. simpl. by rewrite (kp_waits _ _ K5).
  - exists adm. rewrite (kp_queue _ _ K6). simpl. rewrite (kp_queue _ _ K5) in Hcons. exact Hcons.
Qed.

(** A reply to a Run that is parked and owned by one wake-up row. *)
Lemma resolve_parked d tenant x q id :
  db_wf d -> normalizeTenant tenant = tenant -> In x (db_runs d) -> run_tenant_id x = tenant ->
  run_status x = "waiting_external" -> has_child tenant (run_id x) (db_runs d) = false ->
  existsb (live_watch tenant (run_id x)) (db_watches d) = false ->
  existsb (pending_resource_wait tenant (run_id x)) (db_resource_waits d) = false ->
  wakeQueueID tenant (run_person_id x) (run_id x) d = id -> id <> "" ->
  normalizeTenant (t_TenantID q) = tenant -> t_PersonID q = run_person_id x -> run_person_id x <> "" ->
  t_TaskID q = run_thread_id x \/ t_TaskID q = "" -> TrimSpace (t_ReplyToRunID q) = run_id x ->
  exists q', ResolveQueuedContinuation q d = Resolved q' (negb (t_ID q =? id)%string) /\
    (t_ID q = id -> t_ReplyToRunID q' = run_id x).
Proof.
  intros Hw Ht Hx Hxt Hs Hch Hlw Hpw Hid Hne Hqt Hqp Hpne Hth Hreply.
  assert (run_wf x) as [_ _ _ [roots Hroots] _] by (eapply List.Forall_forall in Hx; [exact Hx|apply Hw]).
  rewrite (resolve_leaf d Hw tenant q x roots); try done; [|congruence|destruct Hth; auto].
  unfold resolveAt. cbv zeta. rewrite Hs. cbn [String.eqb Ascii.eqb Bool.eqb andb].
  rewrite Hlw, (resource_pending d tenant Ht), Hpw by done. simpl. rewrite Hqp, Hid.
  apply String.eqb_neq in Hne as ->. simpl. rewrite (String.eqb_sym id).
  destruct (t_ID q =? id)%string eqn:E; simpl; eexists; (split; [reflexivity|]); [done|].
  intros Hd. by apply String.eqb_neq in E.
Qed.

(** C24: Parking with a wake-up: when a finalization commits an executing Run of a named
    person to an external wait together with its continuation, and no live watcher,
    no pending external resource and no earlier wake-up row holds the Run, the queue
    holds the row that wakes it at its deadline, the resolver sends that row, and no
    other reply of the person, back to the Run, and every other reply waits for it. *)
Theorem parked_wait_wakes ids now input d d' e q r :
  let f := normalizeFinalization input in
  let tenant := normalizeTenant (fz_TenantID f) in
  let person := run_person_id r in
  db_wf d ->
  MaterializeRunFinalization ids now input d = (d', Ok e) -> d' <> d ->
  fz_Continuation f = Some q ->
  In r (db_runs d) -> run_id r = fz_RunID f -> run_tenant_id r = tenant -> run_status r = "running" ->
  person <> "" ->
  existsb (live_watch tenant (run_id r)) (db_watches d) = false ->
  existsb (pending_resource_wait tenant (run_id r)) (db_resource_waits d) = false ->
  wakeQueueID tenant person (run_id r) d = "" ->
  exists w task, lookup_key (q_id w) (db_queue d') = Some w /\
    q_status w = QueueStatusQueued /\ q_not_before w = wakeDeadline (t_NotBefore q) /\
    scanQueuedTask w = Ok task /\
    (exists task', ResolveQueuedContinuation task d' = Resolved task' false /\
       t_ReplyToRunID task' = run_id r) /\
    forall other, t_ID other <> q_id w -> normalizeTenant (t_TenantID other) = tenant ->
      t_PersonID other = person -> t_TaskID other = run_thread_id r \/ t_TaskID other = "" ->
      TrimSpace (t_ReplyToRunID other) = run_id r ->
      exists other', ResolveQueuedContinuation other d' = Resolved other' true.
Proof.
  intros f tenant person Hw E Hne Hq Hin Hid Ht Hs Hp Hlw Hpw Hwk.
  pose proof (materialized_wf ids now input d Hw) as Hw'. rewrite E in Hw'. cbn [fst] in Hw'.
  assert (normalizeTenant tenant = tenant) as Htt by apply normalizeTenant_idemp.
  destruct (MaterializeRunFinalization_cases ids now input d) as [[x Ex]|(x & e' & Ex & Ef)];
    rewrite E in Ex; injection Ex as -> Ee; [done|]. fold f tenant in Ef. clear Ee.
  destruct (finalizeTx_parks ids now f q d x e' r Hw (normalizeFinalization_status _) Hq Ef Hin Hid Ht)
    as (Hex & Hth & Hly & Hch & Hwa & Hrw & adm & Hcons). fold tenant person in Hex, Hcons.
  set (y := finished now "waiting_external" r) in *. set (w := wakeRow _ _ _ _ _ _ _) in Hcons.
  assert (t_TaskID q = fz_TaskID f /\ t_ReplyToRunID q = run_id r /\ wake_row tenant person (run_id r) w = true)
    as (Hqt & Hqr & Hww).
  { unfold exactContinuation in Hex. rewrite !andb_true_iff, !String.eqb_eq in Hex.
    destruct Hex as [[[[[[_ E1] E2] E3] E4] E5] _]. split; [done|]. split; [congruence|].
    unfold wake_row. simpl q_tenant_id. simpl q_person_id. simpl q_reply_to_run_id. simpl q_idempotency_key.
    rewrite Hid, E4, E5, !String.eqb_refl. done. }
  apply (consumeSourceRow_wake _ _ (run_id r)) in Hcons as [Hwin Hwq]; [| |done|done].
  2: { intros z Hz. destruct (wake_row _ _ _ z) eqn:Ez; [|done]. exfalso. revert Hwk. unfold wakeQueueID.
       destruct (query_row _ (db_queue d)) as [z'|] eqn:Eq'.
       - apply find_some in Eq' as [Hz' _]. intros Hi. pose proof (wf_queue_ids _ Hw) as Hqi.
         rewrite List.Forall_forall in Hqi. by apply (Hqi z').
       - unfold query_row in Eq'. eapply find_none in Eq'; [|exact Hz]. congruence. }
  assert (forall p, In y (db_runs x) /\ (p = person -> wakeQueueID tenant p (run_id r) x = q_id w)) as Hy.
  { intros p. split; [by eapply lookup_key_Some|]. intros ->. unfold wakeQueueID. by rewrite Hwq. }
  assert (run_wf r) as [_ _ _ [roots Hroots] _] by (eapply List.Forall_forall in Hin; [exact Hin|apply Hw]).
  assert (exists task, scanQueuedTask w = Ok task /\ t_ID task = q_id w /\ t_TenantID task = tenant /\
    t_PersonID task = person /\ t_TaskID task = t_TaskID q /\ t_ReplyToRunID task = t_ReplyToRunID q)
    as (task & Hscan & T1 & T2 & T3 & T4 & T5).
  { unfold scanQueuedTask. simpl q_execution_roots_json. rewrite Hroots. simpl q_attachments_json. cbv iota.
    destruct (setStoredAdmission _). eexists. by split; [reflexivity|]. }
  pose proof (fun t => resolve_parked x tenant y t (q_id w) Hw' Htt (proj1 (Hy person)) Ht eq_refl) as Hres.
  simpl run_id in Hres. simpl run_person_id in Hres. simpl run_thread_id in Hres.
  rewrite Hch, Hwa, Hrw in Hres. pose proof (running_no_child d r Hw Hin Hs) as Hnc. rewrite Ht in Hnc. rewrite Hnc in Hres.
  exists w, task. split; [by apply (lookup_key_In (db_queue x)); [apply (wf_ids _ (wf_queue _ Hw'))|]|].
  split; [done|]. split; [done|]. split; [done|].
  assert (q_id w <> "") as Hwid by apply wakeRow_id.
  assert (TrimSpace (run_id r) = run_id r) as Htrim.
  { rewrite Hid. unfold f. simpl. apply TrimSpace_idemp. }
  split.
  - destruct (Hres task) as (t' & E' & Hr'); try done; [by apply (proj2 (Hy person))|congruence|left; congruence|congruence|].
    rewrite T1, String.eqb_refl in E'. eauto.
  - intros o Ho1 Ho2 Ho3 Ho4 Ho5.
    destruct (Hres o) as (t' & E' & _); try done; [by apply (proj2 (Hy person))|].
    apply String.eqb_neq in Ho1. rewrite Ho1 in E'. eauto.
Qed.
End Properties.

(** ** Witnesses *)

Definition thread0 : ThreadRow := mkThreadRow "th1" "default" "p1" "chat" "listed" "" 0 0.
Definition account0 : AccountRow := mkAccountRow "default" "p1" "cli" "" "active".

(** An executing Run, its thread and its owner's account. *)
Definition ran : list control_op :=
  [OpStartRun "1" "1" (at_second 1) owner0 "cli" "goal" options0;
   OpExternal [] [] [] [] [thread0] [] [account0] [] [] (mkMaintState [] [] [])].

Definition finalization0 (status : string) (q : option QueuedTask) : RunFinalization :=
  mkFinalization "default" "p1" "" "cli" " run_1 " status "th1" "summary" "" [] false None "cli" "the answer"
    (mkHandoff "" [] None [] "" []) 0 "" "" "" "" None "" q "" false None "" "" "" None.

Definition finalization_ids : FinalizationIDs := mkFinalizationIDs "w" "o" "t" ids3.

Definition wake0 : QueuedTask :=
  answer0 <| t_ID := "" |> <| t_TenantID := "default" |> <| t_PersonID := "p1" |>
          <| t_IdempotencyKey := "provider-wait:run_1" |> <| t_NotBefore := at_second 60 |>.

Lemma ran_ok : Forall control_ok ran.
Proof. repeat constructor. Qed.

Lemma finalization_atomic_witness :
  exists d' e, MaterializeRunFinalization finalization_ids (at_second 9) (finalization0 "" None) (after ran)
               = (d', Ok e) /\
    (d' = after ran \/ committed (at_second 9) (normalizeFinalization (finalization0 "" None)) e (after ran) d').
Proof.
  pose proof (finalization_atomic ran (mkMaintState [] [] []) finalization_ids (at_second 9)
                (finalization0 "" None) ran_ok) as Hp. cbv zeta in Hp.
  assert (is_ok (snd (MaterializeRunFinalization finalization_ids (at_second 9) (finalization0 "" None) (after ran)))
          = true) as Hok by (vm_compute; reflexivity).
  destruct (MaterializeRunFinalization finalization_ids (at_second 9) (finalization0 "" None) (after ran))
    as [d' [e|e]]; [|discriminate].
  exists d', e. split; [reflexivity|]. destruct Hp as [[Hp _]|Hp]; [left; exact Hp|right; exact Hp].
Defined.

Lemma finalization_once_witness :
  exists d1 e, MaterializeRunFinalization finalization_ids (at_second 9) (finalization0 "" None) (after ran)
               = (d1, Ok e) /\
    MaterializeRunFinalization finalization_ids (at_second 11) (finalization0 "blocked" None)
      (exec_controls [stop_op] d1) = (exec_controls [stop_op] d1, Ok e).
Proof.
  assert (is_ok (snd (MaterializeRunFinalization finalization_ids (at_second 9) (finalization0 "" None) (after ran)))
          = true) as Hok by (vm_compute; reflexivity).
  assert (length (db_events (fst (MaterializeRunFinalization finalization_ids (at_second 9) (finalization0 "" None)
            (after ran)))) <> length (db_events (after ran))) as Hne by (vm_compute; discriminate).
  destruct (MaterializeRunFinalization finalization_ids (at_second 9) (finalization0 "" None) (after ran))
    as [d1 [e|e]] eqn:E; [|discriminate].
  exists d1, e. split; [reflexivity|].
  apply (finalization_once ran [stop_op] (mkMaintState [] [] []) finalization_ids (at_second 9)
           (finalization0 "" None) d1 e ran_ok); try (vm_compute; reflexivity).
  - repeat constructor.
  - exact E.
  - intros Hd. apply Hne. cbn [fst]. rewrite Hd. reflexivity.
  - vm_compute. discriminate.
Defined.

Lemma stopped_run_not_finished_witness :
  let d2 := exec_controls [claim_op] (after (ran ++ [stop_op])) in
  MaterializeRunFinalization finalization_ids (at_second 11) (finalization0 "" None) d2
  = (d2, Err (Sentinel ErrRunCancellationRequested)).
Proof.
  cbv zeta.
  assert (db_wf (after (ran ++ [stop_op]))) as Hw by (apply after_wf; repeat constructor).
  assert (existsb (fun r => is_run1 r && run_cancel_requested r) (db_runs (after (ran ++ [stop_op]))) = true)
    as (r & Hr & E)%stored by (vm_compute; reflexivity).
  unfold is_run1 in E. rewrite !andb_true_iff, !String.eqb_eq in E. destruct E as [[[[[E1 E2] _] _] _] E3].
  destruct (stopped_run_not_finished [claim_op] (after (ran ++ [stop_op])) r finalization_ids (at_second 11)
    (finalization0 "" None)) as [Hd Herr]; try assumption.
  - repeat constructor.
  - vm_compute. discriminate.
  - destruct Herr as (err & Herr & Hs); [vm_compute; reflexivity|].
    rewrite (Hs ltac:(vm_compute; reflexivity) eq_refl ltac:(vm_compute; reflexivity) ltac:(vm_compute; discriminate)) in Herr.
    destruct (MaterializeRunFinalization _ _ _ _) as [d' res]. cbn [fst snd] in *. rewrite Hd, Herr. reflexivity.
Defined.

Lemma parked_wait_wakes_witness :
  let d' := fst (MaterializeRunFinalization finalization_ids (at_second 9)
                   (finalization0 "waiting_external" (Some wake0)) (after ran)) in
  exists w, In w (db_queue d') /\ q_not_before w = wakeDeadline (at_second 60) /\
  exists t', ResolveQueuedContinuation (claimed_task <| t_ID := "other" |>) d' = Resolved t' true.
Proof.
  cbv zeta. assert (db_wf (after ran)) as Hw by (apply after_wf; repeat constructor).
  assert (existsb (fun r => is_run1 r && (run_status r =? "running")%string) (db_runs (after ran)) = true)
    as (r & Hr & E)%stored by (vm_compute; reflexivity).
  unfold is_run1 in E. rewrite !andb_true_iff, !String.eqb_eq in E. destruct E as [[[[[E1 E2] _] E4] E5] E6].
  assert (is_ok (snd (MaterializeRunFinalization finalization_ids (at_second 9)
            (finalization0 "waiting_external" (Some wake0)) (after ran))) = true) as Hok by (vm_compute; reflexivity).
  assert (length (db_events (fst (MaterializeRunFinalization finalization_ids (at_second 9)
            (finalization0 "waiting_external" (Some wake0))
            (after ran)))) <> length (db_events (after ran))) as Hne by (vm_compute; discriminate).
  assert (map q_id (db_queue (fst (MaterializeRunFinalization finalization_ids (at_second 9)
            (finalization0 "waiting_external" (Some wake0)) (after ran)))) = ["queue_w"]) as Hids
    by (vm_compute; reflexivity).
  destruct (MaterializeRunFinalization finalization_ids (at_second 9)
            (finalization0 "waiting_external" (Some wake0)) (after ran)) as [d' [e|e]] eqn:Em; [|discriminate].
  cbn [fst] in *.
  destruct (parked_wait_wakes finalization_ids (at_second 9) (finalization0 "waiting_external" (Some wake0))
    (after ran) d' e wake0 r Hw Em) as (w & task & Hl & _ & Hnb & _ & _ & Ho).
  - intros Hd. apply Hne. rewrite Hd. reflexivity.
  - reflexivity.
  - exact Hr.
  - rewrite E1. reflexivity.
  - exact E2.
  - exact E6.
  - rewrite E4. discriminate.
  - vm_compute. reflexivity.
  - vm_compute. reflexivity.
  - rewrite E4, E1. vm_compute. reflexivity.
  - exists w. apply lookup_key_Some in Hl as [Hin _]. split; [exact Hin|]. split; [rewrite Hnb; reflexivity|].
    apply Ho.
    + apply (in_map q_id) in Hin. rewrite Hids in Hin. destruct Hin as [<-|[]]. discriminate.
    + reflexivity.
    + rewrite E4. reflexivity.
    + rewrite E5. left. reflexivity.
    + rewrite E1. reflexivity.
Defined.
