(* ===== verification/GoStrings.v ===== *)
(** * Go's [strings] and [path] on bytes

    The functions of the packages [strings] and [path] that the command readers
    are written with.  A string is its bytes; the character classes of the code
    are ASCII, so that a byte of a longer rune is in none of them. *)

From stdpp Require Import base tactics list strings.
From Stdlib Require Import ZArith Lia Bool Ascii String List.
From S2P Require Import Prelude GoLib Paths.

(** ** Bytes *)

Definition newline : ascii := ascii_of_N 10.
Definition byte_in (cutset : string) (c : ascii) : bool := existsb (Ascii.eqb c) (list_ascii_of_string cutset).

Definition digits : string := "0123456789".
Definition is_digit (c : ascii) : bool := in_range 48 57 c.
Definition is_letter (c : ascii) : bool := in_range 65 90 c || in_range 97 122 c || Ascii.eqb c "_".

(** [string(b)] of a byte: the UTF-8 encoding of the rune of that value. *)
Definition byte_string (b : ascii) : string :=
  if in_range 0 127 b then String b ""
  else String (ascii_of_N (192 + code b / 64)) (String (ascii_of_N (128 + code b mod 64)) "").

Definition drop (n : nat) (s : string) : string := String.substring n (String.length s - n) s.
Definition str_rev (s : string) : string := string_of_list_ascii (rev (list_ascii_of_string s)).
Definition str_all (p : ascii -> bool) (s : string) : bool := forallb p (list_ascii_of_string s).
Definition str_any (p : ascii -> bool) (s : string) : bool := existsb p (list_ascii_of_string s).
Definition str_filter (p : ascii -> bool) (s : string) : string :=
  string_of_list_ascii (List.filter p (list_ascii_of_string s)).

(** ** Searching and cutting *)

Definition CutPrefix (s p : string) : option string := if HasPrefix s p then Some (TrimPrefix s p) else None.
Definition HasSuffix (s p : string) : bool := HasPrefix (str_rev s) (str_rev p).
Definition TrimSuffix (s p : string) : string :=
  if HasSuffix s p then String.substring 0 (String.length s - String.length p) s else s.
Definition CutSuffix (s p : string) : option string := if HasSuffix s p then Some (TrimSuffix s p) else None.

Fixpoint Contains (s sub : string) : bool :=
  HasPrefix s sub || match s with "" => false | String _ s => Contains s sub end.

Definition ContainsAny (s chars : string) : bool := str_any (byte_in chars) s.

(** The text before the first byte of the class, and the text after that byte. *)
Fixpoint cut_at (p : ascii -> bool) (s : string) : string * option string :=
  match s with
  | "" => ("", None)
  | String c rest =>
      if p c then ("", Some rest) else let '(a, b) := cut_at p rest in (String c a, b)
  end.

Definition IndexByte (s : string) (c : ascii) : option nat :=
  match cut_at (Ascii.eqb c) s with (a, Some _) => Some (String.length a) | _ => None end.

(** [strings.ReplaceAll] for a nonempty [old]. *)
Fixpoint replace_from (skip : nat) (s old new : string) : string :=
  match s with
  | "" => ""
  | String c rest =>
      match skip with
      | S k => replace_from k rest old new
      | O => if HasPrefix s old then new +:+ replace_from (String.length old - 1) rest old new
             else String c (replace_from 0 rest old new)
      end
  end.
Definition ReplaceAll (s old new : string) : string := replace_from 0 s old new.

(** ** Trimming and joining *)

Fixpoint trim_left (p : ascii -> bool) (s : string) : string :=
  match s with
  | "" => ""
  | String c rest => if p c then trim_left p rest else s
  end.
Definition TrimLeft (s cutset : string) : string := trim_left (byte_in cutset) s.
Definition TrimRight (s cutset : string) : string := str_rev (trim_left (byte_in cutset) (str_rev s)).
Definition Trim (s cutset : string) : string := TrimRight (TrimLeft s cutset) cutset.

Fixpoint StringsJoin (l : list string) (sep : string) : string :=
  match l with
  | [] => ""
  | [e] => e
  | e :: rest => e +:+ sep +:+ StringsJoin rest sep
  end.

(** ** Splitting *)

(** [strings.FieldsFunc] for an ASCII class: the nonempty runs of bytes outside
    it. *)
Fixpoint fields_func (p : ascii -> bool) (run : string) (s : string) : list string :=
  match s with
  | "" => if (run =? "")%string then [] else [run]
  | String c rest =>
      if p c then (if (run =? "")%string then fields_func p "" rest else run :: fields_func p "" rest)
      else fields_func p (run +:+ String c "") rest
  end.
Definition FieldsFunc (s : string) (p : ascii -> bool) : list string := fields_func p "" s.

(** [strings.Fields]: the runs between white-space runes. *)
Fixpoint fields_from (fuel : nat) (run l : list ascii) : list (list ascii) :=
  let flush := match run with [] => [] | _ => [rev run] end in
  match fuel, l with
  | S n, c :: rest =>
      match strip_front l with
      | Some l' => flush ++ fields_from n [] l'
      | None => fields_from n (c :: run) rest
      end
  | _, _ => flush
  end.
Definition Fields (s : string) : list string :=
  let l := list_ascii_of_string s in map string_of_list_ascii (fields_from (length l) [] l).

(** [strings.Map] dropping the bytes of a class: bytes that are no valid rune
    become the replacement rune. *)
Definition error_rune : list ascii := map ascii_of_N [0xEF%N; 0xBF%N; 0xBD%N].

Fixpoint map_runes (fuel : nat) (p : ascii -> bool) (l : list ascii) : list ascii :=
  match fuel, l with
  | S n, c :: rest =>
      match rune_len l with
      | Some k => (if p c then [] else firstn k l) ++ map_runes n p (skipn k l)
      | None => error_rune ++ map_runes n p rest
      end
  | _, _ => []
  end.
Definition map_drop (p : ascii -> bool) (s : string) : string :=
  let l := list_ascii_of_string s in string_of_list_ascii (map_runes (length l) p l).

(** [strconv.Itoa] of a natural number. *)
Fixpoint itoa_fuel (fuel n : nat) : string :=
  let digit := String (ascii_of_nat (48 + n mod 10)) "" in
  match fuel with
  | S fuel => if (n <? 10)%nat then digit else itoa_fuel fuel (n / 10) +:+ digit
  | O => digit
  end.
Definition Itoa (n : nat) : string := itoa_fuel n n.

(** ** [path] *)

Definition path_Clean (s : string) : string := path_string (Clean s).

(** [path.Base]. *)
Definition path_Base (s : string) : string :=
  if (s =? "")%string then "." else
  let t := TrimRight s "/" in
  if (t =? "")%string then "/" else
  last (split_slash t) "".

(** [strings.EqualFold] with an ASCII constant: besides the ASCII letters, U+017F
    folds to "s" and U+212A to "k". *)
Fixpoint fold_bytes (l : list ascii) : list ascii :=
  match l with
  | a :: ((b :: ((c :: l3) as l2)) as l1) =>
      if ((code a =? 0xE2) && (code b =? 0x84) && (code c =? 0xAA))%N then ascii_of_N 107 :: fold_bytes l3
      else if ((code a =? 0xC5) && (code b =? 0xBF))%N then ascii_of_N 115 :: fold_bytes l2
      else lower_ascii a :: fold_bytes l1
  | a :: ((b :: l2) as l1) =>
      if ((code a =? 0xC5) && (code b =? 0xBF))%N then ascii_of_N 115 :: fold_bytes l2
      else lower_ascii a :: fold_bytes l1
  | a :: l1 => lower_ascii a :: fold_bytes l1
  | [] => []
  end.
Definition EqualFold (s constant : string) : bool :=
  bool_decide (fold_bytes (list_ascii_of_string s) = fold_bytes (list_ascii_of_string constant)).

(** Membership in a [map[string]struct{}]. *)
Definition in_set (set : list string) (s : string) : bool := existsb (String.eqb s) set.

(** ** Lemmas *)

Lemma str_app_nil (s : string) : s +:+ "" = s.
Proof. induction s as [|c s IH]; [done|]. change (String c (s +:+ "") = String c s). by rewrite IH. Qed.

Lemma str_app_assoc (a b c : string) : (a +:+ b) +:+ c = a +:+ (b +:+ c).
Proof. induction a as [|x a IH]; [done|]. change (String x ((a +:+ b) +:+ c) = String x (a +:+ (b +:+ c))). by rewrite IH. Qed.

Lemma str_app_cons (a : string) x (b : string) : a +:+ String x b = (a +:+ String x "") +:+ b.
Proof. by rewrite str_app_assoc. Qed.

Lemma str_length_app (a b : string) : String.length (a +:+ b) = (String.length a + String.length b)%nat.
Proof. induction a as [|x a IH]; [done|]. change (S (String.length (a +:+ b)) = S (String.length a) + String.length b)%nat. lia. Qed.

Lemma in_set_In set s : in_set set s = true <-> In s set.
Proof.
  unfold in_set. rewrite existsb_exists. split.
  - intros (x & Hx & E). apply String.eqb_eq in E. by subst.
  - intros Hs. exists s. split; [done|apply String.eqb_refl].
Qed.

Example cut_eq : cut_at (Ascii.eqb "=") "a=b=c" = ("a", Some "b=c").
Proof. reflexivity. Qed.
Example replace_all : ReplaceAll "a{}b{}" "{}" "/x" = "a/xb/x".
Proof. reflexivity. Qed.
Example base_of : map path_Base [""; "/"; "//"; "/bin/rm"; "rm/"; "a//"] = ["."; "/"; "/"; "rm"; "rm"; "a"].
Proof. reflexivity. Qed.
Example fields_of : Fields "  a b  c" = ["a"; "b"; "c"].
Proof. reflexivity. Qed.
Example trim_of : (Trim "''a'b'" "'", TrimRight "/a//" "/") = ("a'b", "/a").
Proof. reflexivity. Qed.
