(* ===== verification/EnvSplit.v ===== *)
(** * Splitting an [env -S] string ([tools/env_split_string.go])

    [splitEnvString] reads the string the way env(1) does, and a quoting under
    which any words come back. *)

From stdpp Require Import base tactics list strings.
From Stdlib Require Import ZArith Lia Bool Ascii String List.
From S2P Require Import Prelude GoLib GoStrings.

(** ** The splitter *)

Definition quote_byte : ascii := ascii_of_N 34.

(** [envSplitEscapes]: the escapes that stand for a control character. *)
Definition envSplitEscapes (c : ascii) : option ascii :=
  match List.find (fun e => Ascii.eqb (fst e) c)
          [("f"%char, ascii_of_N 12); ("n"%char, ascii_of_N 10); ("r"%char, ascii_of_N 13);
           ("t"%char, ascii_of_N 9); ("v"%char, ascii_of_N 11)] with
  | Some (_, b) => Some b
  | None => None
  end.

(** The escapes that stand for their character. *)
Definition literal_escape (c : ascii) : bool :=
  Ascii.eqb c "#" || Ascii.eqb c "$" || Ascii.eqb c quote_byte || Ascii.eqb c "'" || Ascii.eqb c "\".

Definition variable_name (s : string) : bool :=
  match s with
  | "" => true
  | String c rest => is_letter c && str_all (fun c => is_letter c || is_digit c) rest
  end.

(** The [${NAME}] reference [s] begins with. *)
Definition envVariableReference (s : string) : option string :=
  match IndexByte s "}" with
  | Some e =>
      if negb (HasPrefix s "${") || (e <? 3)%nat then None else
      if variable_name (String.substring 2 (e - 2) s) then Some (String.substring 0 (S e) s) else None
  | None => None
  end.

Inductive quoting := Unquoted | SingleQuoted | DoubleQuoted.

(** The word being read, if one is, and the result so far. *)
Record env_reading := mkEnvReading {
  er_word : string; er_inWord : bool; er_words : list string; er_substituted : list string }.

Definition flush (r : env_reading) : env_reading :=
  if er_inWord r then mkEnvReading "" false (er_words r ++ [er_word r]) (er_substituted r) else r.

(** A byte written to the word, which leaves [inWord] alone or sets it. *)
Definition write (c : ascii) (r : env_reading) : env_reading :=
  mkEnvReading (er_word r +:+ String c "") (er_inWord r) (er_words r) (er_substituted r).
Definition enter (r : env_reading) : env_reading :=
  mkEnvReading (er_word r) true (er_words r) (er_substituted r).

Definition env_blank (c : ascii) : bool := ascii_space c.

(** [skip] counts the bytes of a reference that was just read. *)
Fixpoint split_env (skip : nat) (quote : quoting) (r : env_reading) (s : string)
  : option (list string * list string) :=
  match s with
  | "" =>
      match quote with
      | Unquoted => let r := flush r in Some (er_words r, er_substituted r)
      | _ => None
      end
  | String c rest =>
      match skip with
      | S k => split_env k quote r rest
      | O =>
      match quote with
      | SingleQuoted =>
          if Ascii.eqb c "'" then split_env 0 Unquoted r rest else
          if Ascii.eqb c "\" then
            match rest with
            | String e rest' =>
                if Ascii.eqb e "'" || Ascii.eqb e "\" then split_env 0 quote (write e r) rest'
                else split_env 0 quote (write c r) rest
            | "" => split_env 0 quote (write c r) rest
            end
          else split_env 0 quote (write c r) rest
      | _ =>
          let unquoted := match quote with Unquoted => true | _ => false end in
          if env_blank c then
            if unquoted then split_env 0 quote (flush r) rest else split_env 0 quote (write c r) rest
          else if Ascii.eqb c "#" then
            if unquoted && negb (er_inWord r) then Some (er_words r, er_substituted r)
            else split_env 0 quote (write c r) rest
          else if Ascii.eqb c "'" then
            if unquoted then split_env 0 SingleQuoted (enter r) rest
            else split_env 0 quote (write c r) rest
          else if Ascii.eqb c quote_byte then
            if unquoted then split_env 0 DoubleQuoted (enter r) rest else split_env 0 Unquoted r rest
          else if Ascii.eqb c "\" then
            match rest with
            | "" => None
            | String e rest' =>
                if Ascii.eqb e "c" && unquoted then
                  let r := flush r in Some (er_words r, er_substituted r)
                else if Ascii.eqb e "_" then
                  if unquoted then split_env 0 quote (flush r) rest'
                  else split_env 0 quote (write " " r) rest'
                else match envSplitEscapes e with
                | Some b => split_env 0 quote (enter (write b r)) rest'
                | None =>
                    if literal_escape e then split_env 0 quote (enter (write e r)) rest' else None
                end
            end
          else if Ascii.eqb c "$" then
            match envVariableReference s with
            | None => None
            | Some reference =>
                split_env (String.length reference - 1) quote
                  (mkEnvReading (er_word r +:+ reference) true (er_words r)
                     (er_substituted r ++ [reference])) rest
            end
          else split_env 0 quote (enter (write c r)) rest
      end
      end
  end.

(** [None] is a refusal. *)
Definition splitEnvString (s : string) : option (list string * list string) :=
  split_env 0 Unquoted (mkEnvReading "" false [] []) s.

Example split_words : splitEnvString "-i FOO=1  rm\_-rf '/a b' # comment" =
  Some (["-i"; "FOO=1"; "rm"; "-rf"; "/a b"], []).
Proof. reflexivity. Qed.
Example split_reference : splitEnvString "echo x${HOME}y" = Some (["echo"; "x${HOME}y"], ["${HOME}"]).
Proof. reflexivity. Qed.
Example split_refused : (splitEnvString "a 'b", splitEnvString "$HOME", splitEnvString "\z") = (None, None, None).
Proof. reflexivity. Qed.

(** ** How much the words hold *)

Definition words_size (l : list string) : nat := list_sum (map (fun w => S (String.length w)) l).

Lemma words_size_app a b : words_size (a ++ b) = (words_size a + words_size b)%nat.
Proof. unfold words_size. by rewrite map_app, list_sum_app. Qed.

Lemma words_size_one w : words_size [w] = S (String.length w).
Proof. unfold words_size. simpl. lia. Qed.

Lemma substring_prefix_length n s : (String.length (String.substring 0 n s) <= n)%nat /\
  (String.length (String.substring 0 n s) <= String.length s)%nat.
Proof.
  revert n. induction s as [|c s IH]; intros [|n]; simpl; try lia. destruct (IH n). lia.
Qed.

Lemma substring_prefix_pos n c s : (1 <= String.length (String.substring 0 (S n) (String c s)))%nat.
Proof. simpl. lia. Qed.

(** A reference is a nonempty prefix of what is left. *)
Lemma envVariableReference_length c s reference :
  envVariableReference (String c s) = Some reference ->
  (1 <= String.length reference <= S (String.length s))%nat.
Proof.
  unfold envVariableReference. destruct (IndexByte _ _) as [e|]; [|done]. case_if; [done|]. case_if; [|done].
  intros [= <-]. split; [apply substring_prefix_pos|apply (substring_prefix_length (S e) (String c s))].
Qed.

(** The pending word, and one for the word that may still begin. *)
Definition pending (r : env_reading) : nat :=
  if er_inWord r then S (String.length (er_word r)) else 1.

Definition reading_ok (q : quoting) (r : env_reading) : Prop :=
  er_inWord r = false -> er_word r = "" /\ q = Unquoted.

Lemma reading_ok_in q r : er_inWord r = true -> reading_ok q r.
Proof. intros H ?. congruence. Qed.

Lemma flush_words r : reading_ok Unquoted r ->
  (words_size (er_words (flush r)) + pending (flush r) <= words_size (er_words r) + pending r + 1)%nat /\
  (words_size (er_words (flush r)) <= words_size (er_words r) + pending r)%nat /\
  reading_ok Unquoted (flush r).
Proof.
  intros Hr. unfold flush. destruct (er_inWord r) eqn:E; [|split_and!; [lia|lia|done]].
  unfold pending. rewrite E. simpl. rewrite words_size_app, words_size_one.
  split_and!; [lia|lia|done].
Qed.

Lemma write_length c r : String.length (er_word (write c r)) = S (String.length (er_word r)).
Proof. simpl. rewrite str_length_app. simpl. lia. Qed.

Lemma pending_write c r : er_inWord r = true -> pending (write c r) = S (pending r).
Proof. intros E. unfold pending. simpl er_inWord. rewrite E, write_length. done. Qed.

Lemma pending_enter_write c q r : reading_ok q r -> (pending (enter (write c r)) <= S (pending r))%nat.
Proof.
  intros Hr. unfold pending. simpl er_inWord. change (er_word (enter (write c r))) with (er_word (write c r)).
  rewrite write_length. destruct (er_inWord r) eqn:E; [lia|]. destruct (Hr E) as [-> _]. simpl. lia.
Qed.

Lemma pending_enter q r : reading_ok q r -> (pending (enter r) <= pending r)%nat.
Proof.
  intros Hr. unfold pending. simpl. destruct (er_inWord r) eqn:E; [lia|]. destruct (Hr E) as [-> _]. simpl. lia.
Qed.

(** The words of a split hold no more than its string. *)
Lemma split_env_size n : forall skip q r s ws sub, (String.length s <= n)%nat -> reading_ok q r ->
  (skip <= String.length s)%nat ->
  split_env skip q r s = Some (ws, sub) ->
  (words_size ws + skip <= words_size (er_words r) + pending r + String.length s)%nat.
Proof.
  induction n as [|n IH]; intros skip q r s ws sub Hn Hr Hk E.
  { destruct s; simpl in Hn; [|lia]. simpl in E, Hk |- *. destruct q; try done. injection E as <- <-.
    destruct (flush_words r Hr) as (_ & H2 & _). simpl in *. lia. }
  destruct s as [|c s]; simpl in E.
  { destruct q; try done. injection E as <- <-. destruct (flush_words r Hr) as (_ & H2 & _). simpl in *. lia. }
  simpl in Hn, Hk |- *.
  assert (forall k q' r' s', reading_ok q' r' -> (String.length s' <= String.length s)%nat ->
    (k <= String.length s')%nat ->
    (words_size (er_words r') + pending r' + String.length s' + skip
       <= words_size (er_words r) + pending r + S (String.length s) + k)%nat ->
    split_env k q' r' s' = Some (ws, sub) ->
    (words_size ws + skip <= words_size (er_words r) + pending r + S (String.length s))%nat) as Step.
  { intros k q' r' s' Hr' Hl Hk' Hle Hs. eapply IH in Hs; [|lia|done|done]. lia. }
  destruct skip as [|k].
  2: { eapply Step in E; [exact E|done|lia|lia|lia]. }
  assert (forall q', q' <> Unquoted -> er_inWord r = false -> q = q' -> False) as Hin.
  { intros q' Hq Hw ->. destruct (Hr Hw). done. }
  assert (reading_ok Unquoted r -> forall s', (String.length s' <= String.length s)%nat ->
    split_env 0 Unquoted (flush r) s' = Some (ws, sub) -> (words_size ws + 0 <= words_size (er_words r) + pending r + S (String.length s))%nat) as Sflush.
  { intros Hru s' Hl. destruct (flush_words r Hru) as (H1 & _ & H3). apply Step; [done|done|lia|lia]. }
  assert (forall b s', er_inWord r = true -> (String.length s' <= String.length s)%nat ->
    split_env 0 q (write b r) s' = Some (ws, sub) -> (words_size ws + 0 <= words_size (er_words r) + pending r + S (String.length s))%nat) as Swrite.
  { intros b s' Hw Hl. apply Step; [by apply reading_ok_in|done|lia|]. rewrite pending_write by done. simpl. lia. }
  assert (forall b s', (String.length s' <= String.length s)%nat ->
    split_env 0 q (enter (write b r)) s' = Some (ws, sub) -> (words_size ws + 0 <= words_size (er_words r) + pending r + S (String.length s))%nat) as Senter.
  { intros b s' Hl. pose proof (pending_enter_write b q r Hr). apply Step; [by apply reading_ok_in|done|lia|]. simpl. lia. }
  assert (forall reference, envVariableReference (String c s) = Some reference ->
    split_env (String.length reference - 1) q
      (mkEnvReading (er_word r +:+ reference) true (er_words r) (er_substituted r ++ [reference])) s
    = Some (ws, sub) ->
    (words_size ws + 0 <= words_size (er_words r) + pending r + S (String.length s))%nat) as Sref.
  { intros reference Href. apply envVariableReference_length in Href.
    apply Step; [by apply reading_ok_in|lia|lia|]. unfold pending. simpl. rewrite str_length_app.
    destruct (er_inWord r) eqn:Ew; [lia|]. destruct (Hr Ew) as [-> _]. simpl. lia. }
  destruct q; cbn [negb andb] in E.
  - (* outside quotes *)
    case_if; [by eapply (Sflush Hr) in E; [|lia]|].
    case_if.
    { destruct (er_inWord r) eqn:Ew; [by eapply Swrite in E; [|done|lia]|]. injection E as <- <-. lia. }
    case_if.
    { pose proof (pending_enter _ _ Hr). eapply Step in E; [exact E|by apply reading_ok_in|lia|lia|simpl in *; lia]. }
    case_if.
    { pose proof (pending_enter _ _ Hr). eapply Step in E; [exact E|by apply reading_ok_in|lia|lia|simpl in *; lia]. }
    case_if.
    { destruct s as [|e s]; [done|]. simpl String.length in *. rewrite andb_true_r in E. case_if.
      { injection E as <- <-. destruct (flush_words r Hr) as (_ & H2 & _). lia. }
      case_if; [eapply (Sflush Hr) in E; [exact E|lia]|].
      destruct (envSplitEscapes e); [eapply Senter in E; [exact E|lia]|].
      case_if; [eapply Senter in E; [exact E|lia]|done]. }
    case_if; [|by eapply Senter in E; [|lia]].
    destruct (envVariableReference (String c s)) as [reference|] eqn:Href; [|done]. by eapply Sref.
  - (* inside single quotes *)
    assert (er_inWord r = true) as Ew by (destruct (er_inWord r) eqn:Ew; [done|by destruct (Hr Ew)]).
    case_if; [eapply Step in E; [exact E|by apply reading_ok_in|lia|lia|lia]|].
    case_if; [|by eapply Swrite in E; [|done|lia]].
    destruct s as [|e s]; [by eapply Swrite in E; [|done|lia]|].
    case_if; [|by eapply Swrite in E; [|done|lia]]. simpl String.length in *. by eapply Swrite in E; [|done|lia].
  - (* inside double quotes *)
    assert (er_inWord r = true) as Ew by (destruct (er_inWord r) eqn:Ew; [done|by destruct (Hr Ew)]).
    do 3 (case_if; [by eapply Swrite in E; [|done|lia]|]).
    case_if; [eapply Step in E; [exact E|by apply reading_ok_in|lia|lia|lia]|].
    case_if.
    { destruct s as [|e s]; [done|]. simpl String.length in *. rewrite andb_false_r in E.
      case_if; [by eapply Swrite in E; [|done|lia]|].
      destruct (envSplitEscapes e); [eapply Senter in E; [exact E|lia]|].
      case_if; [eapply Senter in E; [exact E|lia]|done]. }
    case_if; [|by eapply Senter in E; [|lia]].
    destruct (envVariableReference (String c s)) as [reference|] eqn:Href; [|done]. by eapply Sref.
Qed.

Lemma splitEnvString_size s ws sub : splitEnvString s = Some (ws, sub) ->
  (words_size ws <= S (String.length s))%nat.
Proof.
  intros E. eapply (split_env_size (String.length s)) in E; [|lia|done|lia]. simpl in *. lia.
Qed.

(** ** Quoting *)

(** Single quotes, with the two bytes that are special inside them escaped. *)
Fixpoint env_escape (w : string) : string :=
  match w with
  | "" => ""
  | String c rest =>
      if Ascii.eqb c "'" || Ascii.eqb c "\" then String "\" (String c (env_escape rest))
      else String c (env_escape rest)
  end.
Definition env_quote (w : string) : string := "'" +:+ env_escape w +:+ "'".

Lemma split_env_quoted w : forall r rest,
  split_env 0 SingleQuoted r (env_escape w +:+ String "'" rest) =
  split_env 0 Unquoted (mkEnvReading (er_word r +:+ w) (er_inWord r) (er_words r) (er_substituted r)) rest.
Proof.
  induction w as [|c w IH]; intros r rest.
  - simpl. rewrite str_app_nil. by destruct r.
  - simpl env_escape. destruct (Ascii.eqb c "'" || Ascii.eqb c "\") eqn:E.
    + change (String "\" (String c (env_escape w)) +:+ String "'" rest)
        with (String "\" (String c (env_escape w +:+ String "'" rest))).
      cbn [split_env]. simpl (Ascii.eqb "\" _). cbv iota. rewrite E, IH. simpl. by rewrite <- str_app_cons.
    + change (String c (env_escape w) +:+ String "'" rest) with (String c (env_escape w +:+ String "'" rest)).
      apply orb_false_iff in E as [E1 E2]. cbn [split_env]. rewrite E1, E2, IH. simpl.
      by rewrite <- str_app_cons.
Qed.

Lemma split_env_words ws : forall words,
  ws <> [] ->
  split_env 0 Unquoted (mkEnvReading "" false words []) (StringsJoin (map env_quote ws) " ") =
  Some (words ++ ws, []).
Proof.
  induction ws as [|w ws IH]; intros words Hne; [done|].
  assert (forall rest, split_env 0 Unquoted (mkEnvReading "" false words []) (env_quote w +:+ rest) =
    split_env 0 Unquoted (mkEnvReading w true words []) rest) as Hw.
  { intros rest. unfold env_quote. rewrite str_app_assoc.
    change ("'" +:+ ((env_escape w +:+ "'") +:+ rest)) with (String "'" ((env_escape w +:+ "'") +:+ rest)).
    rewrite str_app_assoc. change ("'" +:+ rest) with (String "'" rest).
    cbn [split_env]. simpl (env_blank _). simpl (Ascii.eqb "'" _). cbv iota. by rewrite split_env_quoted. }
  destruct ws as [|w2 ws].
  - change (StringsJoin (map env_quote [w]) " ") with (env_quote w).
    pose proof (Hw "") as E. rewrite str_app_nil in E. rewrite E. reflexivity.
  - change (StringsJoin (map env_quote (w :: w2 :: ws)) " ")
      with (env_quote w +:+ (" " +:+ StringsJoin (map env_quote (w2 :: ws)) " ")).
    rewrite Hw. change (" " +:+ ?x) with (String " " x). cbn [split_env]. simpl (env_blank _). cbv iota.
    unfold flush. cbn [er_inWord er_words er_word er_substituted]. rewrite IH by done. by rewrite <- app_assoc.
Qed.

(** Whatever words a string is to split into can be written down: each in
    single quotes, with the quote and the backslash escaped, they come back as
    they were, and nothing is read as a reference. *)
Theorem env_split_roundtrip ws :
  splitEnvString (StringsJoin (map env_quote ws) " ") = Some (ws, []).
Proof. destruct ws as [|w ws]; [reflexivity|]. by apply split_env_words. Qed.
