(* ===== verification/Wrappers.v ===== *)
(** * Reading a wrapper's own options ([tools/command_launchers.go])

    A prefix wrapper runs the command named by its own arguments; its options
    are read the way getopt, getopt_long and Getopt::Long read them, and an
    [env -S] string is replaced by its words. *)

From stdpp Require Import base tactics list strings.
From Stdlib Require Import ZArith Lia Bool Ascii String List.
From S2P Require Import Prelude GoLib GoStrings EnvSplit.

(** ** Grammars *)

Record prefixWrapper := mkWrapper {
  valueFlags : list string; optionalFlags : list string; optionalTakesNext : bool;
  longFlags : list string; duration : bool; operands : nat; scriptFlags : list string;
  splitFlags : list string; pathFlags : list string; joinsScript : bool;
  terminators : list string; argumentTerminators : list string;
  separatorFlags : list (string * string); replaceFlags : list string; replacesBraces : bool;
  targetFlags : list string; assignFlags : list string; wholeWords : bool;
  ownOptionsRunNothing : bool; bareRunsNothing : bool
}.

#[export] Instance prefixWrapper_eta : Eta prefixWrapper := fun w =>
  mkWrapper (valueFlags w) (optionalFlags w) (optionalTakesNext w) (longFlags w) (duration w)
    (operands w) (scriptFlags w) (splitFlags w) (pathFlags w) (joinsScript w) (terminators w)
    (argumentTerminators w) (separatorFlags w) (replaceFlags w) (replacesBraces w) (targetFlags w)
    (assignFlags w) (wholeWords w) (ownOptionsRunNothing w) (bareRunsNothing w).

(** The zero value, on which the grammars of the table are written. *)
Definition noWrapper : prefixWrapper :=
  mkWrapper [] [] false [] false 0 [] [] [] false [] [] [] [] false [] [] false false false.

Record wrapperOption := mkOption { op_name : string; op_value : string; op_hasValue : bool }.

(** The words after the options come with the index of the argument each came
    from. *)
Record optionReading := mkReading {
  rd_options : list wrapperOption; rd_rest : list (string * nat); rd_complete : bool;
  rd_substituted : list string }.

Definition maxSplitStrings : nat := 8.

(** ** Option names *)

Definition option_sets (w : prefixWrapper) : list string :=
  valueFlags w ++ optionalFlags w ++ longFlags w ++ scriptFlags w ++ pathFlags w.

Definition knownOption (w : prefixWrapper) (name : string) : bool := in_set (option_sets w) name.

(** The one known option the name abbreviates. *)
Definition longOption (w : prefixWrapper) (name : string) : string :=
  if knownOption w name || (String.length name <? 3)%nat then name else
  match List.filter (fun o => HasPrefix o "--" && HasPrefix o name) (option_sets w) with
  | [] => name
  | o :: rest => if forallb (String.eqb o) rest then o else name
  end.

(** ** One argument *)

(** What reading an argument appended, and what is left of the arguments with the
    index of the last one read; [None] when a value is missing. *)
Definition argument_reading : Type :=
  list wrapperOption * option (list (string * nat) * nat).

Definition plain_option (name : string) : wrapperOption := mkOption name "" false.

Definition takes_next (name : string) (rest : list (string * nat)) (before : list wrapperOption)
  : argument_reading :=
  match rest with
  | (v, at_v) :: rest => (before ++ [mkOption name v true], Some (rest, at_v))
  | [] => (before, None)
  end.

(** An optional value is the next word when that is no option. *)
Definition may_take_next (w : prefixWrapper) (rest : list (string * nat)) : bool :=
  optionalTakesNext w && match rest with (v, _) :: _ => negb (HasPrefix v "-") | [] => false end.

Definition read_long (w : prefixWrapper) (arg : string) (here : nat) (rest : list (string * nat))
  : argument_reading :=
  let '(name, attached) := cut_at (Ascii.eqb "=") arg in
  let name := longOption w name in
  match attached with
  | Some value => ([mkOption name value true], Some (rest, here))
  | None =>
      if in_set (valueFlags w) name then takes_next name rest [] else
      if in_set (optionalFlags w) name && may_take_next w rest then takes_next name rest []
      else ([plain_option name], Some (rest, here))
  end.

Definition read_whole (w : prefixWrapper) (arg : string) (here : nat) (rest : list (string * nat))
  : argument_reading :=
  if in_set (valueFlags w) arg then takes_next arg rest [] else ([plain_option arg], Some (rest, here)).

(** A bundle of short options, up to the first that takes a value. *)
Fixpoint read_bundle (w : prefixWrapper) (letters : string) (here : nat) (rest : list (string * nat))
    (before : list wrapperOption) : argument_reading :=
  match letters with
  | "" => (before, Some (rest, here))
  | String c attached =>
      let name := String "-" (String c "") in
      let written := negb (attached =? "")%string in
      let with_attached := (before ++ [mkOption name attached true], Some (rest, here)) in
      if in_set (valueFlags w) name then
        if written then with_attached else takes_next name rest before
      else if in_set (optionalFlags w) name && written then with_attached
      else if in_set (optionalFlags w) name && may_take_next w rest then takes_next name rest before
      else if (in_set (scriptFlags w) name || in_set (pathFlags w) name) && written then with_attached
      else read_bundle w attached here rest (before ++ [plain_option name])
  end.

Definition read_argument (w : prefixWrapper) (arg : string) (here : nat) (rest : list (string * nat))
  : argument_reading :=
  if HasPrefix arg "--" then read_long w arg here rest
  else if wholeWords w then read_whole w arg here rest
  else read_bundle w (drop 1 arg) here rest [].

(** ** The reading loop *)

Fixpoint read_options (fuel : nat) (w : prefixWrapper) (splits : nat) (options : list wrapperOption)
    (substituted : list string) (args : list (string * nat)) : optionReading :=
  let refused := fun options => mkReading options [] false substituted in
  match fuel with
  | O => refused options
  | S fuel =>
      match args with
      | [] => mkReading options [] true substituted
      | (arg, here) :: rest =>
          if (arg =? "--")%string then mkReading options rest true substituted else
          if negb (HasPrefix arg "-") then mkReading options args true substituted else
          if (arg =? "-")%string
          then read_options fuel w splits (options ++ [plain_option "-"]) substituted rest else
          match read_argument w arg here rest with
          | (more, None) => refused (options ++ more)
          | (more, Some (rest, here)) =>
              let options := options ++ more in
              match List.last more (plain_option "") with
              | mkOption name value true =>
                  if in_set (scriptFlags w) name then mkReading options rest true substituted else
                  if in_set (splitFlags w) name then
                    match splitEnvString value with
                    | None => refused options
                    | Some (words, references) =>
                        if (splits =? maxSplitStrings)%nat then refused options else
                        read_options fuel w (S splits) options (substituted ++ references)
                          (map (fun word => (word, here)) words ++ rest)
                    end
                  else read_options fuel w splits options substituted rest
              | _ => read_options fuel w splits options substituted rest
              end
          end
      end
  end.

Definition args_size (args : list (string * nat)) : nat := words_size (map fst args).

Definition indexed (args : list string) : list (string * nat) := combine args (seq 0 (length args)).

(** The fuel is what the arguments hold; [read_options_fuel] shows that no
    reading needs more. *)
Definition wrapperOptions (w : prefixWrapper) (args : list string) : optionReading :=
  let args := indexed args in read_options (S (args_size args)) w 0 [] [] args.

(** ** Assignments and durations *)

(** The variable a NAME=value word assigns. *)
Definition assignmentName (word : string) : option string :=
  match cut_at (Ascii.eqb "=") word with
  | (_, None) => None
  | (before, Some _) =>
      if (before =? "")%string then None else
      let name := TrimSuffix before "+" in
      let name := match cut_at (Ascii.eqb "[") name with
                  | (head, Some _) => if HasSuffix name "]" then Some head else None
                  | (_, None) => Some name
                  end in
      match name with
      | Some name => if negb (name =? "")%string && variable_name name then Some name else None
      | None => None
      end
  end.

Definition is_assignment (word : string) : bool :=
  match assignmentName word with Some _ => true | None => false end.

(** [strtodNumber]: a non-negative number C's strtod reads. *)
Definition strtodNumber (s : string) : bool :=
  let s := TrimPrefix s "+" in
  if in_set ["inf"; "infinity"] (ToLower s) then true else
  let hex := (2 <? String.length s)%nat && (HasPrefix s "0x" || HasPrefix s "0X") in
  let s := if hex then drop 2 s else s in
  let digits := if hex then "0123456789abcdefABCDEF" else digits in
  let marks := if hex then "pP" else "eE" in
  let '(mantissa, exponent) := cut_at (byte_in marks) s in
  let exponent_ok := match exponent with
    | None => true
    | Some exponent =>
        let exponent := if HasPrefix exponent "+" || HasPrefix exponent "-" then drop 1 exponent else exponent in
        negb (exponent =? "")%string && (Trim exponent GoStrings.digits =? "")%string
    end in
  let '(whole, fraction) := cut_at (Ascii.eqb ".") mantissa in
  let fraction := match fraction with Some f => f | None => "" end in
  exponent_ok && negb (whole +:+ fraction =? "")%string && (Trim whole digits =? "")%string
  && (Trim fraction digits =? "")%string.

Definition isDurationToken (tok : string) : bool :=
  strtodNumber tok
  || let n := String.length tok in
     (1 <? n)%nat && str_any (byte_in "smhd") (drop (n - 1) tok)
     && strtodNumber (String.substring 0 (n - 1) tok).

Example durations : map isDurationToken ["5"; "1.5"; ".5"; "1e3"; "0x10"; "+5s"; "inf"; "5x"; "s"; "."; "1e"] =
  [true; true; true; true; true; true; true; false; false; false; false].
Proof. reflexivity. Qed.
Example assignments : map assignmentName ["A=b"; "A+=b"; "a[1]=x"; "=x"; "1a=b"; "rm"; "a-b=c"] =
  [Some "A"; Some "A"; Some "a"; None; None; None; None].
Proof. reflexivity. Qed.

(** ** The reading ends *)

Lemma cut_at_length p s : forall a b, cut_at p s = (a, b) ->
  match b with
  | Some rest => String.length s = S (String.length a + String.length rest)
  | None => a = s
  end.
Proof.
  induction s as [|c s IH]; simpl; intros a b E; [by injection E as <- <-|].
  destruct (p c); [by injection E as <- <-|]. destruct (cut_at p s) as [a' b'] eqn:E'.
  injection E as <- <-. specialize (IH _ _ eq_refl). destruct b'; simpl; [lia|by subst].
Qed.

(** What one argument leaves, and the value it ends with, hold less than it and
    what followed. *)
Definition reads_less (arg : string) (rest : list (string * nat)) (r : argument_reading) : Prop :=
  match r with
  | (more, Some (rest', _)) =>
      (args_size rest' <= args_size rest)%nat /\
      (op_hasValue (List.last more (plain_option "")) = true ->
       (S (String.length (op_value (List.last more (plain_option ""))) + args_size rest')
          <= String.length arg + args_size rest)%nat)
  | (_, None) => True
  end.

Lemma args_size_cons w n rest : args_size ((w, n) :: rest) = (S (String.length w) + args_size rest)%nat.
Proof. reflexivity. Qed.

Lemma args_size_app a b : args_size (a ++ b) = (args_size a + args_size b)%nat.
Proof. unfold args_size. by rewrite map_app, words_size_app. Qed.

Lemma takes_next_less arg name rest before : reads_less arg rest (takes_next name rest before).
Proof.
  destruct rest as [|[v n] rest]; [done|]. unfold takes_next, reads_less. rewrite last_last.
  rewrite args_size_cons. simpl op_value. split; [lia|]. intros _. lia.
Qed.

Lemma read_bundle_less w arg letters here rest : forall before,
  (String.length letters < String.length arg)%nat ->
  (letters = "" -> op_hasValue (List.last before (plain_option "")) = false) ->
  reads_less arg rest (read_bundle w letters here rest before).
Proof.
  induction letters as [|c attached IH]; intros before Hl Hb; cbn [read_bundle].
  { simpl. split; [lia|]. rewrite Hb by done. done. }
  simpl in Hl.
  assert (forall name, reads_less arg rest (before ++ [mkOption name attached true], Some (rest, here))) as Ha.
  { intros name. unfold reads_less. rewrite last_last. simpl. split; lia. }
  repeat case_if; try apply Ha; try apply takes_next_less.
  all: apply IH; [lia|intros _; by rewrite last_last].
Qed.

Lemma read_argument_less w arg here rest : HasPrefix arg "-" = true ->
  reads_less arg rest (read_argument w arg here rest).
Proof.
  intros Hp. unfold read_argument. case_if; [|case_if].
  - unfold read_long. destruct (cut_at _ arg) as [name attached] eqn:E. apply cut_at_length in E.
    destruct attached as [v|].
    + simpl. split; [lia|]. intros _. lia.
    + repeat case_if; try apply takes_next_less. simpl. split; [lia|done].
  - unfold read_whole. case_if; [apply takes_next_less|]. simpl. split; [lia|done].
  - destruct arg as [|c arg]; [done|]. apply read_bundle_less; [|done].
    unfold drop. simpl. rewrite Nat.sub_0_r.
    pose proof (substring_prefix_length (String.length arg) arg). lia.
Qed.

Lemma args_size_words words here : args_size (map (fun word => (word, here)) words) = words_size words.
Proof. unfold args_size. rewrite map_map. simpl. by rewrite map_id. Qed.

(** Any two fuels above what the arguments hold read the same. *)
Lemma read_options_fuel n : forall m w splits options substituted args,
  (args_size args < n)%nat -> (args_size args < m)%nat ->
  read_options n w splits options substituted args = read_options m w splits options substituted args.
Proof.
  induction n as [|n IH]; intros m w splits options substituted args Hn Hm; [lia|].
  destruct m as [|m]; [lia|]. cbn [read_options]. destruct args as [|[arg here] rest]; [done|].
  rewrite args_size_cons in Hn, Hm.
  case_if; [done|]. case_if; [done|]. case_if; [apply IH; lia|].
  apply negb_false_iff in Heqb0. pose proof (read_argument_less w arg here rest Heqb0) as Hl.
  destruct (read_argument w arg here rest) as [more [[rest' here']|]]; [|done].
  unfold reads_less in Hl. destruct Hl as [Hr Hv].
  destruct (List.last more (plain_option "")) as [name v [|]]; [|apply IH; lia].
  specialize (Hv eq_refl). simpl in Hv. case_if; [done|]. case_if; [|apply IH; lia].
  destruct (splitEnvString v) as [[words refs]|] eqn:Es; [|done]. case_if; [done|].
  apply splitEnvString_size in Es. apply IH; rewrite args_size_app, args_size_words; lia.
Qed.

(** What is left after the options is no longer than the arguments. *)
Lemma read_options_rest n : forall w splits options substituted args,
  splitFlags w = [] ->
  (args_size (rd_rest (read_options n w splits options substituted args)) <= args_size args)%nat.
Proof.
  induction n as [|n IH]; intros w splits options substituted args Hs; cbn [read_options]; [apply Nat.le_0_l|].
  destruct args as [|[arg here] rest]; [apply Nat.le_0_l|]. rewrite args_size_cons.
  case_if; [simpl; lia|]. case_if; [apply Nat.le_refl|].
  case_if; [eapply Nat.le_trans; [by apply IH|lia]|].
  apply negb_false_iff in Heqb0. pose proof (read_argument_less w arg here rest Heqb0) as Hl.
  destruct (read_argument w arg here rest) as [more [[rest' here']|]]; [|apply Nat.le_0_l]. destruct Hl as [Hr _].
  destruct (List.last more (plain_option "")) as [name v [|]]; [|eapply Nat.le_trans; [by apply IH|lia]].
  case_if; [simpl; lia|]. rewrite Hs. simpl. eapply Nat.le_trans; [by apply IH|lia].
Qed.

(** ** Arguments that are no options *)

Lemma indexed_fst args : map fst (indexed args) = args.
Proof.
  unfold indexed. assert (forall k, map fst (combine args (seq k (length args))) = args) as H; [|apply H].
  induction args as [|a args IH]; intros k; [done|]. simpl. by rewrite IH.
Qed.

(** A first word that is no option ends the options at once. *)
Lemma wrapperOptions_none w arg args : HasPrefix arg "-" = false ->
  wrapperOptions w (arg :: args) = mkReading [] (indexed (arg :: args)) true [].
Proof.
  intros Hp. unfold wrapperOptions. unfold indexed at 2. simpl combine. cbn [read_options].
  destruct (String.eqb_spec arg "--") as [->|_]; [done|]. by rewrite Hp.
Qed.
