(* ===== verification/ShellGrammar.v ===== *)
(** * Reading a shell's arguments ([tools/shell_grammar.go])

    A shell name may stand for several shells, each with its own option grammar:
    the arguments are read with every one of them, and every command string any
    of them would run is collected. *)

From stdpp Require Import base tactics list strings.
From Stdlib Require Import ZArith Lia Bool Ascii String List.
From S2P Require Import Prelude GoLib GoStrings EnvSplit Wrappers.

(** ** Readings *)

Record shellRun := mkShellRun { sr_commands : list string; sr_opaque : bool }.

(** [script]: the command strings, one per line, if there are any. *)
Definition script_of (r : shellRun) : option string :=
  match sr_commands r with [] => None | l => Some (StringsJoin l (String newline "")) end.

(** [longOptions] maps a name to whether it takes the next word; a
    [breakLetter] of zero is none. *)
Record posixShellGrammar := mkGrammar {
  g_valueLetters : string; g_clusterValue : bool; g_longOptions : list (string * bool);
  g_leadingLong : bool; g_startupFiles : list string; g_breakLetter : option ascii; g_plusEnds : bool }.

Record posixShellOptions := mkShellOptions {
  so_command : bool; so_letters : string; so_operands : list string; so_startup : bool }.

#[export] Instance posixShellOptions_eta : Eta posixShellOptions := fun o =>
  mkShellOptions (so_command o) (so_letters o) (so_operands o) (so_startup o).

Definition bashShellGrammar : posixShellGrammar :=
  mkGrammar "oO" false
    [("debug", false); ("debugger", false); ("dump-po-strings", false); ("dump-strings", false);
     ("help", false); ("init-file", true); ("login", false); ("noediting", false); ("noprofile", false);
     ("norc", false); ("posix", false); ("pretty-print", false); ("protected", false); ("rcfile", true);
     ("restricted", false); ("verbose", false); ("version", false); ("wordexp", false)]
    true ["init-file"; "rcfile"] None false.
Definition dashShellGrammar : posixShellGrammar := mkGrammar "o" false [] false [] None false.
Definition zshShellGrammar : posixShellGrammar :=
  mkGrammar "o" true [("emulate", true)] false [] (Some "b"%char) true.
Definition zshAsShGrammar : posixShellGrammar := mkGrammar "o" true [("emulate", true)] false [] None true.
Definition kshShellGrammar : posixShellGrammar := mkGrammar "oRT" true [] false [] None false.

(** ** The POSIX option reader *)

(** The multi-letter option a word spells. *)
Definition shellLongOption (g : posixShellGrammar) (arg : string) (leading : bool) : option string :=
  match CutPrefix arg "--" with
  | Some name => Some name
  | None =>
      if in_set (map fst (g_longOptions g)) (drop 1 arg) && g_leadingLong g && leading && HasPrefix arg "-"
      then Some (drop 1 arg) else None
  end.

Definition long_takes_value (g : posixShellGrammar) (name : string) : bool :=
  match List.find (fun o => (fst o =? name)%string) (g_longOptions g) with
  | Some (_, takes) => takes
  | None => false
  end.

Inductive cluster_end :=
| ClusterShort (out : posixShellOptions)
| ClusterDone (out : posixShellOptions) (used : nat) (stop : bool).

(** The letters of one word; [used] of the [avail] following words are values. *)
Fixpoint read_cluster (g : posixShellGrammar) (dash : bool) (avail used : nat) (stop : bool)
    (out : posixShellOptions) (letters : string) : cluster_end :=
  match letters with
  | "" => ClusterDone out used stop
  | String letter rest =>
      if Ascii.eqb letter "c" then read_cluster g dash avail used stop (out <| so_command := true |>) rest
      else if byte_in (g_valueLetters g) letter then
        if g_clusterValue g && negb (rest =? "")%string then ClusterDone out used stop
        else if (used <? avail)%nat then read_cluster g dash avail (S used) stop out rest
        else ClusterShort out
      else if match g_breakLetter g with Some b => Ascii.eqb letter b | None => false end
      then read_cluster g dash avail used true out rest
      else if dash
      then read_cluster g dash avail used stop (out <| so_letters := so_letters out +:+ byte_string letter |>) rest
      else read_cluster g dash avail used stop out rest
  end.

(** [skip] words were already read as values. *)
Fixpoint read_shell (g : posixShellGrammar) (skip : nat) (leading : bool) (out : posixShellOptions)
    (args : list string) : posixShellOptions :=
  match args with
  | [] => out
  | arg :: rest =>
      match skip with
      | S k => read_shell g k leading out rest
      | O =>
          if (arg =? "-")%string || (arg =? "--")%string || (arg =? "+")%string && g_plusEnds g
          then out <| so_operands := rest |>
          else if negb (HasPrefix arg "-" || HasPrefix arg "+") then out <| so_operands := args |>
          else match shellLongOption g arg leading with
          | Some name =>
              if long_takes_value g name then
                match rest with
                | [] => out
                | _ => read_shell g 1 leading
                         (out <| so_startup := so_startup out || in_set (g_startupFiles g) name |>) rest
                end
              else read_shell g 0 leading out rest
          | None =>
              match read_cluster g (HasPrefix arg "-") (length rest) 0 false out (drop 1 arg) with
              | ClusterShort out => out
              | ClusterDone out used true => out <| so_operands := skipn used rest |>
              | ClusterDone out used false => read_shell g used false out rest
              end
          end
      end
  end.

Definition read_grammar (g : posixShellGrammar) (args : list string) : posixShellOptions :=
  read_shell g 0 true (mkShellOptions false "" [] false) args.

Definition no_operands (o : posixShellOptions) : bool := match so_operands o with [] => true | _ => false end.

Definition run_grammar (g : posixShellGrammar) (args : list string) : shellRun :=
  let options := read_grammar g args in
  mkShellRun
    (if so_command options && negb (no_operands options) then [StringsJoin (so_operands options) " "] else [])
    (so_startup options || negb (so_command options) || no_operands options).

(** ** csh and fish *)

Definition opaque_run : shellRun := mkShellRun [] true.

Fixpoint cshShellRun (args : list string) : shellRun :=
  match args with
  | [] => opaque_run
  | arg :: rest =>
      if (String.length arg <? 2)%nat || negb (HasPrefix arg "-") then opaque_run else
      if str_any (Ascii.eqb "c") (drop 1 arg) then
        match rest with [] => opaque_run | _ => mkShellRun [StringsJoin rest " "] false end
      else if str_any (Ascii.eqb "b") (drop 1 arg) then opaque_run
      else cshShellRun rest
  end.

Definition fishShellOptions : prefixWrapper :=
  noWrapper
    <| valueFlags := ["-c"; "--command"; "-C"; "--init-command"; "-d"; "--debug"; "-o"; "--debug-output";
                      "-f"; "--features"; "-p"; "--profile"; "--profile-startup"; "-D"; "--debug-stack-frames"] |>
    <| longFlags := ["--interactive"; "--login"; "--no-config"; "--no-execute"; "--private";
                     "--print-rusage-self"; "--print-debug-categories"; "--help"; "--version"] |>
    <| scriptFlags := ["-c"; "--command"; "-C"; "--init-command"] |>.

(** Each [-c] and [-C] in turn, with the words that follow it. *)
Fixpoint fish_loop (fuel : nat) (commands : list string) (command : bool) (words : list string) : shellRun :=
  let stop := mkShellRun commands (negb command) in
  match fuel with
  | O => stop
  | S fuel =>
      let reading := wrapperOptions fishShellOptions words in
      match List.last (rd_options reading) (plain_option "") with
      | mkOption name value true =>
          if in_set (scriptFlags fishShellOptions) name then
            let rest := map fst (rd_rest reading) in
            fish_loop fuel (commands ++ [StringsJoin (value :: rest) " "])
              (command || (name =? "-c")%string || (name =? "--command")%string) rest
          else stop
      | _ => stop
      end
  end.

Definition fishShellRun (args : list string) : shellRun := fish_loop (S (words_size args)) [] false args.

(** ** By name *)

Definition posixShellGrammars : list (string * list posixShellGrammar) :=
  [("sh", [bashShellGrammar; dashShellGrammar; zshAsShGrammar; kshShellGrammar]);
   ("bash", [bashShellGrammar]); ("dash", [dashShellGrammar]); ("ash", [dashShellGrammar]);
   ("hush", [dashShellGrammar]); ("zsh", [zshShellGrammar]); ("ksh", [kshShellGrammar]);
   ("mksh", [kshShellGrammar])].

Definition lookup_name {A} (table : list (string * A)) (name : string) : option A :=
  match List.find (fun e => (fst e =? name)%string) table with Some (_, v) => Some v | None => None end.

Definition posix_of (name : string) : list posixShellGrammar :=
  match lookup_name posixShellGrammars name with Some l => l | None => [] end.

Definition shellGrammars (name : string) : list (list string -> shellRun) :=
  if in_set ["csh"; "tcsh"] name then [cshShellRun] else
  if (name =? "fish")%string then [fishShellRun] else map run_grammar (posix_of name).

Definition is_shell (name : string) : bool := match shellGrammars name with [] => false | _ => true end.

Definition loginShellGrammars : list (list string -> shellRun) :=
  map run_grammar [bashShellGrammar; dashShellGrammar; zshShellGrammar; zshAsShGrammar; kshShellGrammar]
  ++ [cshShellRun; fishShellRun].

Definition add_command (commands : list string) (command : string) : list string :=
  if in_set commands command then commands else commands ++ [command].

Definition merge_run (reading run : shellRun) : shellRun :=
  mkShellRun (fold_left add_command (sr_commands run) (sr_commands reading))
    (sr_opaque reading || sr_opaque run).

Definition readShellGrammars (grammars : list (list string -> shellRun)) (args : list string) : shellRun :=
  fold_left (fun reading grammar => merge_run reading (grammar args)) grammars (mkShellRun [] false).

Definition readShell (name : string) (args : list string) : shellRun :=
  readShellGrammars (shellGrammars name) args.

(** The command string every grammar of the name reads, alone. *)
Definition exact_reading (g : posixShellGrammar) (args : list string) : option string :=
  let options := read_grammar g args in
  match so_operands options with
  | [operand] => if so_command options && negb (so_startup options) then Some operand else None
  | _ => None
  end.

Fixpoint same_reading (command : string) (grammars : list posixShellGrammar) (args : list string) : bool :=
  match grammars with
  | [] => true
  | g :: rest => bool_decide (exact_reading g args = Some command) && same_reading command rest args
  end.

Definition exactShellCommand (name : string) (args : list string) : option string :=
  match posix_of name with
  | [] => None
  | g :: rest =>
      match exact_reading g args with
      | Some command => if same_reading command rest args && negb (TrimSpace command =? "")%string
                        then Some command else None
      | None => None
      end
  end.

Definition startupFileShells : list string := ["sh"; "dash"; "ksh"; "mksh"; "bash"; "zsh"; "ash"].

Definition interactiveShell (name : string) (args : list string) : bool :=
  in_set startupFileShells name
  && existsb (fun g => let options := read_grammar g args in
       ContainsAny (so_letters options) "is" || negb (so_command options) && no_operands options)
     (posix_of name).

Example sh_dashdash : readShell "sh" ["-c"; "--"; "rm -rf ~"] = mkShellRun ["rm -rf ~"] false.
Proof. reflexivity. Qed.
Example sh_cluster : map (fun s => so_operands (read_grammar bashShellGrammar s))
    [["-oe"; "pipefail"; "-c"; "x"]; ["-rcfile"; "f"; "-c"; "x"]; ["-ec"; "x"; "y"]] = [["x"]; ["x"]; ["x"; "y"]].
Proof. reflexivity. Qed.
Example fish_both : fishShellRun ["-C"; "a"; "-c"; "b"] = mkShellRun ["a -c b"; "b"] false.
Proof. reflexivity. Qed.

(** ** Agreement *)

(** Grammars that read the same command string read it together. *)
Lemma readShellGrammars_same g rest args c :
  Forall (fun g => run_grammar g args = mkShellRun [c] false) (g :: rest) ->
  readShellGrammars (map run_grammar (g :: rest)) args = mkShellRun [c] false.
Proof.
  intros H. apply Forall_cons_1 in H as [Hg Hr]. unfold readShellGrammars. cbn [map fold_left]. rewrite Hg.
  change (merge_run (mkShellRun [] false) (mkShellRun [c] false)) with (mkShellRun [c] false).
  induction Hr as [|g' rest Hg' Hr IH]; [done|]. cbn [map fold_left]. rewrite Hg'.
  assert (merge_run (mkShellRun [c] false) (mkShellRun [c] false) = mkShellRun [c] false) as ->; [|done].
  unfold merge_run, add_command. cbn. by rewrite String.eqb_refl.
Qed.

(** The names that have POSIX grammars are read with them. *)
Lemma posix_grammars name g rest : posix_of name = g :: rest ->
  shellGrammars name = map run_grammar (g :: rest) /\ In name (map fst posixShellGrammars).
Proof.
  intros H. assert (In name (map fst posixShellGrammars)) as Hin.
  { unfold posix_of, lookup_name in H. destruct (List.find _ posixShellGrammars) as [[k v]|] eqn:E; [|done].
    apply find_some in E as [Hin Hk]. apply String.eqb_eq in Hk. simpl in Hk. subst. by apply (in_map fst) in Hin. }
  split; [|done]. rewrite <- H. simpl in Hin. by repeat (destruct Hin as [<-|Hin]; [done|]).
Qed.

Lemma exact_reading_run g args c : exact_reading g args = Some c -> run_grammar g args = mkShellRun [c] false.
Proof.
  unfold exact_reading, run_grammar, no_operands. intros H.
  destruct (so_operands (read_grammar g args)) as [|o [|? ?]]; [done| |done].
  destruct (so_command (read_grammar g args)), (so_startup (read_grammar g args)); try done. by injection H as ->.
Qed.

Lemma same_reading_all c args grammars : same_reading c grammars args = true ->
  Forall (fun g => exact_reading g args = Some c) grammars.
Proof.
  induction grammars as [|g rest IH]; [by constructor|]. simpl. intros H. apply andb_true_iff in H as [Hg Hr].
  constructor; [by apply bool_decide_eq_true in Hg|by apply IH].
Qed.

(** A command string the exact reader accepts is the whole of what the shell
    runs: every shell the name may stand for reads exactly that string from the
    arguments, the general reader lists it alone, and nothing is hidden. *)
Theorem exact_command_is_the_reading name args c : exactShellCommand name args = Some c ->
  readShell name args = mkShellRun [c] false /\ (TrimSpace c =? "")%string = false /\
  Forall (fun g => so_operands (read_grammar g args) = [c]) (posix_of name).
Proof.
  unfold exactShellCommand. destruct (posix_of name) as [|g rest] eqn:Ep; [done|].
  destruct (exact_reading g args) as [c'|] eqn:Eg; [|done].
  destruct (same_reading c' rest args && negb (TrimSpace c' =? "")%string) eqn:Es; [|done]. intros [= ->].
  apply andb_true_iff in Es as [Es Et]. apply negb_true_iff in Et. apply same_reading_all in Es.
  assert (Forall (fun g => exact_reading g args = Some c) (g :: rest)) as Hall by (by constructor).
  destruct (posix_grammars name g rest Ep) as [Hg _]. split; [|split; [done|]].
  - unfold readShell. rewrite Hg. apply readShellGrammars_same. eapply Forall_impl; [|exact Hall].
    intros g' H. by apply exact_reading_run.
  - eapply Forall_impl; [|exact Hall]. intros g' H. unfold exact_reading in H.
    destruct (so_operands (read_grammar g' args)) as [|o [|? ?]]; [done| |done].
    case_if; [by injection H as ->|done].
Qed.

Lemma exact_command_is_the_reading_witness : readShell "sh" ["-ec"; "make test"] = mkShellRun ["make test"] false.
Proof. apply (exact_command_is_the_reading "sh" ["-ec"; "make test"] "make test"). reflexivity. Defined.
