(* ===== verification/ShellSyntax.v ===== *)
(** * Words of a parsed shell program ([tools/command_identity.go],
    [tools/approval_observation_shell.go])

    The parser and the quoter are the shell library's: a class with the syntax
    tree it returns, as far as the readers look into it.  [shellWord] and its
    kin are the readers' own. *)

From stdpp Require Import base tactics list strings.
From Stdlib Require Import ZArith Lia Bool Ascii String List.
From S2P Require Import Prelude GoLib GoStrings.

(** ** The syntax tree *)

(** The offsets [Pos] and [End] of a node. *)
Record extent := mkExtent { e_pos : Z; e_end : Z }.

Inductive dbl_part :=
| DblLit (value : string)
| DblOther (at_ : extent).

(** Parts that are neither literals nor quotes are read by their source text. *)
Inductive word_part :=
| Lit (value : string)
| SglQuoted (dollar : bool) (value : string) (at_ : extent)
| DblQuoted (dollar : bool) (parts : list dbl_part)
| OtherPart (at_ : extent).

Definition word := list word_part.

Record Assign := mkAssign {
  a_append : bool; a_naked : bool; a_name : option string; a_value : option word;
  a_array : option extent; a_at : extent }.

Inductive redir_op :=
| RdrOut | AppOut | RdrIn | RdrInOut | DplIn | DplOut | RdrClob | AppClob
| Hdoc | DashHdoc | WordHdoc | RdrAll | RdrAllClob | AppAll | AppAllClob.

Record Redirect := mkRedirect { r_op : redir_op; r_word : option word }.

Inductive Command :=
| CallExpr (assigns : list Assign) (args : list word)
| DeclClause (variant : string) (args : list Assign)
| OtherCommand.

Record Stmt := mkStmt { st_cmd : Command; st_redirs : list Redirect }.

(** [Parse] gives every statement of the file, those inside others included, in
    the order [syntax.Walk] visits them. *)
Class BashSyntax := {
  Parse : string -> option (list Stmt);
  Quote : string -> option string
}.

(** ** Words *)

Definition dbl_escaped : string := String (ascii_of_N 36) (String (ascii_of_N 96) (String (ascii_of_N 34)
  (String (ascii_of_N 92) (String newline "")))).

Fixpoint unescapeShellWord (value : string) (doubleQuoted : bool) : string :=
  match value with
  | String c ((String next rest) as tail) =>
      if Ascii.eqb c "\" && (negb doubleQuoted || byte_in dbl_escaped next) then
        if Ascii.eqb next newline then unescapeShellWord rest doubleQuoted
        else String next (unescapeShellWord rest doubleQuoted)
      else String c (unescapeShellWord tail doubleQuoted)
  | _ => value
  end.

Definition rawSource (at_ : extent) (src : string) : string :=
  if (e_pos at_ <? 0)%Z || (Z.of_nat (String.length src) <? e_end at_)%Z || (e_end at_ <? e_pos at_)%Z then "" else
  String.substring (Z.to_nat (e_pos at_)) (Z.to_nat (e_end at_ - e_pos at_)) src.

(** The value of the double-quoted parts when they need no expansion. *)
Fixpoint static_dbl (parts : list dbl_part) : option string :=
  match parts with
  | [] => Some ""
  | DblLit value :: rest => option_map (fun s => unescapeShellWord value true +:+ s) (static_dbl rest)
  | DblOther _ :: _ => None
  end.

(** [staticObservationWord]: without bindings no parameter resolves. *)
Fixpoint staticObservationWord (w : word) : option string :=
  match w with
  | [] => Some ""
  | part :: rest =>
      match match part with
            | Lit value => Some (unescapeShellWord value false)
            | SglQuoted dollar value _ => if dollar then None else Some value
            | DblQuoted dollar parts => if dollar then None else static_dbl parts
            | OtherPart _ => None
            end with
      | Some s => option_map (fun t => s +:+ t) (staticObservationWord rest)
      | None => None
      end
  end.

Definition dbl_text (src : string) (p : dbl_part) : string :=
  match p with DblLit value => unescapeShellWord value true | DblOther at_ => rawSource at_ src end.

Definition part_text (src : string) (p : word_part) : string :=
  match p with
  | Lit value => unescapeShellWord value false
  | SglQuoted dollar value at_ => if dollar then rawSource at_ src else value
  | DblQuoted _ parts => StringsJoin (map (dbl_text src) parts) ""
  | OtherPart at_ => rawSource at_ src
  end.

(** The text of a word, and whether the shell expands a part of it. *)
Definition shellWord (w : word) (src : string) : string * bool :=
  match staticObservationWord w with
  | Some value => (value, false)
  | None => (StringsJoin (map (part_text src) w) "", true)
  end.

Definition shellAssignWord (a : Assign) (src : string) : string * bool :=
  if a_naked a then
    match a_name a, a_value a with
    | Some name, _ => (name, false)
    | None, Some value => shellWord value src
    | None, None => ("", false)
    end
  else match a_name a with
  | None => (rawSource (a_at a) src, true)
  | Some name =>
      let op := if a_append a then "+=" else "=" in
      match a_value a, a_array a with
      | Some value, _ => let '(text, dynamic) := shellWord value src in (name +:+ op +:+ text, dynamic)
      | None, Some array => (name +:+ op +:+ rawSource array src, true)
      | None, None => (name +:+ op, false)
      end
  end.

(** ** Redirections *)

Definition opens_for_writing (op : redir_op) : bool :=
  match op with
  | RdrOut | AppOut | RdrInOut | DplOut | RdrClob | AppClob | RdrAll | RdrAllClob | AppAll | AppAllClob => true
  | RdrIn | DplIn | Hdoc | DashHdoc | WordHdoc => false
  end.

Definition duplicates (op : redir_op) : bool := match op with DplOut => true | _ => false end.

Definition write_target (src : string) (r : Redirect) : list string :=
  match r_word r with
  | None => []
  | Some w =>
      if negb (opens_for_writing (r_op r)) then [] else
      let target := fst (shellWord w src) in
      if duplicates (r_op r) && ((target =? "-")%string || (Trim target digits =? "")%string) then [] else [target]
  end.

Definition shellWriteTargets (redirs : list Redirect) (src : string) : list string :=
  flat_map (write_target src) redirs.

(** The words of a statement, with whether the shell expands each. *)
Definition statement_words (src : string) (s : Stmt) : list (string * bool) :=
  match st_cmd s with
  | CallExpr assigns args => map (fun a => shellAssignWord a src) assigns ++ map (fun w => shellWord w src) args
  | DeclClause variant args => (variant, false) :: map (fun a => shellAssignWord a src) args
  | OtherCommand => []
  end.

Example unescapes : (unescapeShellWord "\rm" false, unescapeShellWord "\rm\$" true) = ("rm", "\rm$").
Proof. reflexivity. Qed.
Example dynamic_word : shellWord [Lit "a"; OtherPart (mkExtent 1 4)] "a$(b" = ("a$(b", true).
Proof. reflexivity. Qed.

(** A word without expansions is the concatenation of its parts. *)
Lemma shellWord_static w src value : staticObservationWord w = Some value -> shellWord w src = (value, false).
Proof. unfold shellWord. by intros ->. Qed.
