(* ===== verification/Launchers.v ===== *)
(** * The programs that run other programs ([tools/command_launchers.go],
    [tools/parallel_arguments.go])

    The option grammar of every prefix wrapper, and what a wrapper, [find] and
    [su] run. *)

From stdpp Require Import base tactics list strings.
From Stdlib Require Import ZArith Lia Bool Ascii String List.
From S2P Require Import Prelude GoLib GoStrings EnvSplit Wrappers ShellGrammar ShellSyntax.

(** ** The grammars *)

Definition parallelValueOptions : list string :=
  ["-a"; "--arg-file"; "-C"; "--colsep"; "--col-sep"; "-d"; "--delimiter"; "-E"; "-I"; "-j"; "--jobs";
   "-J"; "--profile"; "-L"; "-n"; "--max-args"; "--maxargs"; "-N"; "--max-replace-args";
   "--maxreplaceargs"; "-P"; "--max-procs"; "-S"; "--sshlogin"; "-s"; "--max-chars"; "-D"; "--debug";
   "-U"; "-W"; "-B"; "-H"; "--joblog"; "--jl"; "--results"; "--result"; "--res"; "--parens"; "--rpl";
   "--extensionreplace"; "--er"; "--basenamereplace"; "--bnr"; "--dirnamereplace"; "--dnr";
   "--basenameextensionreplace"; "--bner"; "--seqreplace"; "--slotreplace"; "--delay"; "--ssh-delay";
   "--sshdelay"; "--load"; "--nice"; "--tag-string"; "--tagstring"; "--ctag-string"; "--ctagstring";
   "--sshloginfile"; "--slf"; "--ssh"; "--transfer-file"; "--transferfile"; "--transfer-files";
   "--transferfiles"; "--tf"; "--return"; "--trc"; "--basefile"; "--bf"; "--template"; "--tmpl";
   "--workdir"; "--work-dir"; "--wd"; "--rsync-opts"; "--rsyncopts"; "--tmpdir"; "--tempdir";
   "--use-compress-program"; "--compress-program"; "--usecompressprogram"; "--compressprogram";
   "--use-decompress-program"; "--decompress-program"; "--usedecompressprogram"; "--decompressprogram";
   "--total-jobs"; "--totaljobs"; "--total"; "--arg-sep"; "--argsep"; "--arg-file-sep"; "--argfilesep";
   "--trim"; "--env"; "--linkinputsource"; "--xapplyinputsource"; "--halt-on-error"; "--haltonerror";
   "--halt"; "--limit"; "--memfree"; "--memsuspend"; "--retries"; "--timeout"; "--term-seq";
   "--termseq"; "--minversion"; "--min-version"; "--semaphore-timeout"; "--semaphoretimeout"; "--st";
   "--semaphore-name"; "--semaphorename"; "--id"; "--header"; "--shard"; "--bin"; "--group-by";
   "--groupby"; "--filter"; "--combineexec"; "--combine-exec"; "--combineexecutable";
   "--combine-executable"; "--recstart"; "--recend"; "--block-size"; "--blocksize"; "--block";
   "--block-timeout"; "--blocktimeout"; "--bt"; "--process-slot-var"; "--sql"; "--sqlmaster";
   "--sqlworker"; "--sqlandworker"; "--shellcompletion"].

Definition parallelLongFlags : list string :=
  ["--xargs"; "--silent"; "--keep-order"; "--keeporder"; "--no-keep-order"; "--nokeeporder"; "--nok";
   "--no-k"; "--group"; "--ungroup"; "--latest-line"; "--latestline"; "--ll"; "--linebuffer";
   "--linebuffered"; "--line-buffer"; "--line-buffered"; "--lb"; "--tmux"; "--tmuxpane"; "--null";
   "--quote"; "--plus"; "--noswap"; "--max-line-length-allowed"; "--maxlinelengthallowed";
   "--number-of-cpus"; "--numberofcpus"; "--number-of-sockets"; "--numberofsockets";
   "--number-of-cores"; "--numberofcores"; "--number-of-threads"; "--numberofthreads";
   "--use-sockets-instead-of-threads"; "--usesocketsinsteadofthreads";
   "--use-cores-instead-of-threads"; "--usecoresinsteadofthreads"; "--use-cpus-instead-of-cores";
   "--usecpusinsteadofcores"; "--shell-quote"; "--shellquote"; "--tag"; "--ctag"; "--color";
   "--colour"; "--color-failed"; "--colour-failed"; "--colorfailed"; "--colourfailed"; "--cf";
   "--onall"; "--nonall"; "--filter-hosts"; "--filterhosts"; "--filter-host"; "--controlmaster";
   "--transfer"; "--cleanup"; "--compress"; "--tty"; "--dry-run"; "--dryrun"; "--dr"; "--progress";
   "--eta"; "--bar"; "--shuf"; "--recordenv"; "--record-env"; "--session"; "--plain"; "--tollef";
   "--gnu"; "--link"; "--xapply"; "--bibtex"; "--will-cite"; "--willcite"; "--nn"; "--nonotice";
   "--no-notice"; "--resume"; "--resume-failed"; "--resumefailed"; "--retry-failed"; "--retryfailed";
   "--no-run-if-empty"; "--csv"; "--help"; "--show-limits"; "--showlimits"; "--exit"; "--semaphore";
   "--fg"; "--bg"; "--wait"; "--shebang"; "--hashbang"; "--shebang-wrap";
   "--internal-pipe-means-argfiles"; "--skip-first-line"; "--bug"; "--cat"; "--fifo"; "--pipe-part";
   "--pipepart"; "--tee"; "--hgrp"; "--hostgrp"; "--hostgroup"; "--hostgroups"; "--embed"; "--pipe";
   "--spreadstdin"; "--regexp"; "--regex"; "--remove-rec-sep"; "--removerecsep"; "--rrs"; "--files";
   "--output-as-files"; "--outputasfiles"; "--files0"; "--output-as-files0"; "--outputasfiles0";
   "--round-robin"; "--roundrobin"; "--round"; "--keep-timeout"; "--keeptimeout"; "--interactive";
   "--verbose"; "--version"].

Definition parallelGrammar : prefixWrapper :=
  noWrapper
    <| valueFlags := parallelValueOptions |>
    <| optionalFlags := ["-i"; "--replace"; "-e"; "--eof"; "-l"; "--max-lines"] |>
    <| optionalTakesNext := true |>
    <| longFlags := parallelLongFlags |>
    <| joinsScript := true |>
    <| terminators := [":::"; "::::"; ":::+"; "::::+"] |>
    <| argumentTerminators := [":::"; ":::+"] |>
    <| separatorFlags := [("--arg-sep", ":::"); ("--argsep", ":::"); ("--arg-file-sep", "::::");
                          ("--argfilesep", "::::")] |>
    <| replaceFlags := ["-I"; "-i"; "--replace"; "--extensionreplace"; "--er"; "--basenamereplace";
                     "--bnr"; "--dirnamereplace"; "--dnr"; "--basenameextensionreplace"; "--bner";
                     "--seqreplace"; "--slotreplace"] |>
    <| replacesBraces := true |>.

Definition env_wrapper : prefixWrapper :=
  noWrapper
    <| valueFlags := ["-u"; "--unset"; "-C"; "--chdir"; "-S"; "--split-string"; "-P"; "-a"; "--argv0"] |>
    <| optionalFlags := ["--block-signal"; "--default-signal"; "--ignore-signal"] |>
    <| longFlags := ["--ignore-environment"; "--null"; "--debug"; "--list-signal-handling"; "--help";
                  "--version"] |>
    <| splitFlags := ["-S"; "--split-string"] |>
    <| pathFlags := ["-P"] |>.

Definition sudo_wrapper : prefixWrapper :=
  noWrapper
    <| valueFlags := ["-u"; "--user"; "-g"; "--group"; "-p"; "--prompt"; "-C"; "--close-from"; "-r";
                   "--role"; "-t"; "--type"; "-T"; "--command-timeout"; "-U"; "--other-user"; "-h";
                   "--host"; "-D"; "--chdir"; "-R"; "--chroot"; "-a"; "--auth-type"; "-c";
                   "--login-class"] |>
    <| optionalFlags := ["--preserve-env"] |>
    <| longFlags := ["--askpass"; "--background"; "--bell"; "--edit"; "--set-home"; "--help"; "--login";
                  "--remove-timestamp"; "--reset-timestamp"; "--list"; "--no-update";
                  "--non-interactive"; "--preserve-groups"; "--stdin"; "--shell"; "--version";
                  "--validate"] |>.

Definition doas_wrapper : prefixWrapper :=
  noWrapper
    <| valueFlags := ["-u"; "-C"; "-a"] |>.

Definition xargs_wrapper : prefixWrapper :=
  noWrapper
    <| valueFlags := ["-n"; "-I"; "-J"; "-R"; "-S"; "-P"; "-L"; "-s"; "-d"; "-E"; "-a"; "--max-args";
                   "--max-procs"; "--max-chars"; "--delimiter"; "--arg-file"; "--process-slot-var"] |>
    <| optionalFlags := ["-i"; "-l"; "-e"; "--replace"; "--max-lines"; "--eof"] |>
    <| longFlags := ["--null"; "--interactive"; "--no-run-if-empty"; "--verbose"; "--exit"; "--open-tty";
                  "--show-limits"; "--help"; "--version"] |>
    <| replaceFlags := ["-I"; "-J"; "-i"; "--replace"] |>.

Definition nohup_wrapper : prefixWrapper :=
  noWrapper
    <| longFlags := ["--help"; "--version"] |>.

Definition timeout_wrapper : prefixWrapper :=
  noWrapper
    <| valueFlags := ["-s"; "--signal"; "-k"; "--kill-after"] |>
    <| longFlags := ["--foreground"; "--preserve-status"; "--verbose"; "--help"; "--version"] |>
    <| duration := true |>.

Definition nice_wrapper : prefixWrapper :=
  noWrapper
    <| valueFlags := ["-n"; "--adjustment"] |>
    <| longFlags := ["--help"; "--version"] |>.

Definition ionice_wrapper : prefixWrapper :=
  noWrapper
    <| valueFlags := ["-c"; "--class"; "-n"; "--classdata"; "-p"; "--pid"; "-P"; "--pgid"; "-u"; "--uid"] |>
    <| longFlags := ["--ignore"; "--help"; "--version"] |>
    <| targetFlags := ["-p"; "--pid"; "-P"; "--pgid"; "-u"; "--uid"] |>.

Definition setsid_wrapper : prefixWrapper :=
  noWrapper
    <| longFlags := ["--ctty"; "--fork"; "--wait"; "--help"; "--version"] |>.

Definition stdbuf_wrapper : prefixWrapper :=
  noWrapper
    <| valueFlags := ["-i"; "--input"; "-o"; "--output"; "-e"; "--error"] |>
    <| longFlags := ["--help"; "--version"] |>.

Definition command_wrapper : prefixWrapper :=
  noWrapper
    <| targetFlags := ["-v"; "-V"] |>.

Definition builtin_wrapper : prefixWrapper :=
  noWrapper
    <| bareRunsNothing := true |>.

Definition exec_wrapper : prefixWrapper :=
  noWrapper
    <| valueFlags := ["-a"] |>
    <| bareRunsNothing := true |>.

Definition time_wrapper : prefixWrapper :=
  noWrapper
    <| valueFlags := ["-o"; "--output"; "-f"; "--format"] |>
    <| longFlags := ["--append"; "--portability"; "--quiet"; "--verbose"; "--help"; "--version"] |>
    <| bareRunsNothing := true |>.

Definition chroot_wrapper : prefixWrapper :=
  noWrapper
    <| valueFlags := ["--userspec"; "--groups"; "-u"; "-g"; "-G"] |>
    <| longFlags := ["--skip-chdir"; "--help"; "--version"] |>
    <| operands := 1 |>.

Definition flock_wrapper : prefixWrapper :=
  noWrapper
    <| valueFlags := ["-w"; "--wait"; "--timeout"; "-E"; "--conflict-exit-code"] |>
    <| longFlags := ["--shared"; "--exclusive"; "--unlock"; "--nonblock"; "--nonblocking"; "--nb";
                  "--close"; "--no-fork"; "--verbose"; "--fcntl"; "--help"; "--version"] |>
    <| operands := 1 |>
    <| scriptFlags := ["-c"; "--command"] |>
    <| bareRunsNothing := true |>.

Definition watch_wrapper : prefixWrapper :=
  noWrapper
    <| valueFlags := ["-n"; "--interval"; "-q"; "--equexit"; "-s"; "--shotsdir"] |>
    <| optionalFlags := ["-d"; "--differences"] |>
    <| longFlags := ["--beep"; "--color"; "--no-color"; "--errexit"; "--chgexit"; "--precise";
                  "--no-rerun"; "--no-title"; "--no-wrap"; "--exec"; "--help"; "--version"] |>
    <| joinsScript := true |>.

Definition sem_wrapper : prefixWrapper := parallelGrammar <| bareRunsNothing := true |>.

Definition pkexec_wrapper : prefixWrapper :=
  noWrapper
    <| valueFlags := ["-u"; "--user"] |>
    <| longFlags := ["--disable-internal-agent"; "--keep-cwd"; "--help"; "--version"] |>.

Definition taskset_wrapper : prefixWrapper :=
  noWrapper
    <| longFlags := ["--all-tasks"; "--cpu-list"; "--pid"; "--help"; "--version"] |>
    <| targetFlags := ["-p"; "--pid"] |>
    <| operands := 1 |>.

Definition nsenter_wrapper : prefixWrapper :=
  noWrapper
    <| valueFlags := ["-t"; "--target"; "-S"; "--setuid"; "-G"; "--setgid"; "-W"; "--wdns"; "-N";
                   "--net-socket"] |>
    <| optionalFlags := ["-m"; "--mount"; "-u"; "--uts"; "-i"; "--ipc"; "-n"; "--net"; "-p"; "--pid";
                      "-C"; "--cgroup"; "-U"; "--user"; "-T"; "--time"; "-r"; "--root"; "-w"; "--wd"] |>
    <| longFlags := ["--all"; "--user-parent"; "--preserve-credentials"; "--keep-caps"; "--env";
                  "--no-fork"; "--join-cgroup"; "--follow-context"; "--help"; "--version"] |>.

Definition runuser_wrapper : prefixWrapper :=
  noWrapper
    <| valueFlags := ["-u"; "--user"; "-c"; "--command"; "--session-command"; "-g"; "--group"; "-G";
                   "--supp-group"; "-s"; "--shell"; "-w"; "--whitelist-environment"] |>
    <| longFlags := ["--fast"; "--login"; "--preserve-environment"; "--pty"; "--help"; "--version"] |>.

Definition setpriv_wrapper : prefixWrapper :=
  noWrapper
    <| valueFlags := ["--ambient-caps"; "--inh-caps"; "--bounding-set"; "--groups"; "--rgid"; "--egid";
                   "--regid"; "--ruid"; "--euid"; "--reuid"; "--securebits"; "--pdeathsig";
                   "--selinux-label"; "--apparmor-profile"; "--landlock-access"; "--landlock-rule";
                   "--seccomp-filter"] |>
    <| longFlags := ["--no-new-privs"; "--keep-groups"; "--clear-groups"; "--init-groups"; "--reset-env";
                  "--dump"; "--help"; "--version"] |>
    <| targetFlags := ["-d"; "--dump"] |>.

Definition arch_wrapper : prefixWrapper :=
  noWrapper
    <| valueFlags := ["-arch"; "-d"; "-e"] |>
    <| assignFlags := ["-e"] |>
    <| wholeWords := true |>
    <| bareRunsNothing := true |>.

Definition caffeinate_wrapper : prefixWrapper :=
  noWrapper
    <| valueFlags := ["-t"; "-w"] |>
    <| bareRunsNothing := true |>.

Definition busybox_wrapper : prefixWrapper :=
  noWrapper
    <| longFlags := ["--install"; "--list"; "--list-full"; "--help"] |>
    <| valueFlags := ["--show"] |>
    <| ownOptionsRunNothing := true |>
    <| bareRunsNothing := true |>.

Definition toybox_wrapper : prefixWrapper :=
  noWrapper
    <| longFlags := ["--long"; "--help"; "--version"] |>
    <| ownOptionsRunNothing := true |>
    <| bareRunsNothing := true |>.

Definition prefixWrappers : list (string * prefixWrapper) :=
  [("env", env_wrapper); ("sudo", sudo_wrapper); ("doas", doas_wrapper);
   ("xargs", xargs_wrapper); ("nohup", nohup_wrapper); ("timeout", timeout_wrapper);
   ("nice", nice_wrapper); ("ionice", ionice_wrapper); ("setsid", setsid_wrapper);
   ("stdbuf", stdbuf_wrapper); ("command", command_wrapper); ("builtin", builtin_wrapper);
   ("exec", exec_wrapper); ("time", time_wrapper); ("chroot", chroot_wrapper);
   ("flock", flock_wrapper); ("watch", watch_wrapper); ("parallel", parallelGrammar);
   ("sem", sem_wrapper); ("pkexec", pkexec_wrapper); ("taskset", taskset_wrapper);
   ("nsenter", nsenter_wrapper); ("runuser", runuser_wrapper); ("setpriv", setpriv_wrapper);
   ("arch", arch_wrapper); ("caffeinate", caffeinate_wrapper); ("busybox", busybox_wrapper);
   ("toybox", toybox_wrapper)].

Definition suOptions : prefixWrapper :=
  noWrapper
    <| valueFlags := ["-c"; "--command"; "--session-command"; "-g"; "--group"; "-G"; "--supp-group";
                   "-s"; "--shell"; "-w"; "--whitelist-environment"] |>
    <| scriptFlags := ["-c"; "--command"; "--session-command"] |>
    <| longFlags := ["--fast"; "--login"; "--preserve-environment"; "--pty"; "--help"; "--version"] |>.

(** ** find *)

Definition findCommandPrimaries : list string := ["-exec"; "-execdir"; "-ok"; "-okdir"].

Definition plusEnds (primary : string) : bool := (primary =? "-exec")%string || (primary =? "-execdir")%string.

(** The words of the command after a primary, and what follows the word that
    ends it; [previous] is the word before, [None] for the primary itself. *)
Fixpoint find_command_from (plus : bool) (previous : option string) (args : list string)
  : list string * list string :=
  match args with
  | [] => ([], [])
  | word :: rest =>
      if HasPrefix word ";" || (word =? "\")%string
         || plus && (word =? "+")%string && match previous with Some p => Contains p "{}" | None => false end
      then ([], rest)
      else let '(command, after) := find_command_from plus (Some word) rest in (word :: command, after)
  end.

(** [findCommandEnd]: the command of a primary, cut off the words after it. *)
Definition findCommandEnd (primary : string) (args : list string) : list string * list string :=
  find_command_from (plusEnds primary) None args.

Fixpoint findCommands_fuel (fuel : nat) (args : list string) : list (list string) :=
  match fuel, args with
  | S fuel, word :: rest =>
      if in_set findCommandPrimaries word then
        let '(command, after) := findCommandEnd word rest in
        match command with [] => [] | _ => [command] end ++ findCommands_fuel fuel after
      else findCommands_fuel fuel rest
  | _, _ => []
  end.

Definition findCommands (args : list string) : list (list string) := findCommands_fuel (length args) args.

Example find_exec : findCommands ["/"; "-exec"; "rm"; "-rf"; "{}"; "+"; "-exec"; "xargs"; "-E"; "+"; "cmd"; ";"; "-exec"; ";"] =
  [["rm"; "-rf"; "{}"]; ["xargs"; "-E"; "+"; "cmd"]].
Proof. reflexivity. Qed.

(** ** su and runuser *)

Definition script_option (w : prefixWrapper) (o : wrapperOption) : bool :=
  op_hasValue o && in_set (scriptFlags w) (op_name o).

(** What su hands to the target's shell for a command of its own. *)
Definition su_command_run (value : string) (rest : list string) : shellRun :=
  let shell := "-c" :: value :: rest in
  let run := readShellGrammars loginShellGrammars shell in
  mkShellRun (add_command (sr_commands run) (StringsJoin (value :: rest) " ")) (sr_opaque run).

Fixpoint su_loop (fuel : nat) (words : list string) : option shellRun :=
  match fuel, words with
  | S fuel, _ :: _ =>
      let reading := wrapperOptions suOptions words in
      match List.find (script_option suOptions) (rd_options reading) with
      | Some option => Some (su_command_run (op_value option) (map fst (rd_rest reading)))
      | None =>
          match rd_rest reading with
          | [] => None
          | _ :: rest => su_loop fuel (map fst rest)
          end
      end
  | _, _ => None
  end.

Definition suShellRun (args : list string) : shellRun :=
  match su_loop (words_size args) args with
  | Some run => run
  | None =>
      match rd_rest (wrapperOptions suOptions args) with
      | [] => opaque_run
      | _ :: login => readShellGrammars loginShellGrammars (map fst login)
      end
  end.

Definition runuserRunsCommand (args : list string) : bool :=
  existsb (fun o => in_set ["-u"; "--user"] (op_name o)) (rd_options (wrapperOptions runuser_wrapper args)).

(** ** Replacement strings *)

Record replacementSet := mkReplacements { rs_words : list string; rs_braces : bool }.

Definition no_replacements : replacementSet := mkReplacements [] false.

(** [\s] of the regular expressions. *)
Definition regexp_space (c : ascii) : bool := in_range 9 10 c || in_range 12 13 c || Ascii.eqb c " ".

(** A closing brace after bytes that are no space and no brace. *)
Fixpoint group_closes (s : string) : bool :=
  match s with
  | "" => false
  | String c rest =>
      if Ascii.eqb c "}" then true else
      if regexp_space c || Ascii.eqb c "{" then false else group_closes rest
  end.

(** ["=}"] further on the same line. *)
Fixpoint expression_closes (s : string) : bool :=
  HasPrefix s "=}" ||
  match s with String c rest => negb (Ascii.eqb c newline) && expression_closes rest | "" => false end.

(** The rest of an expression [{= ... =}]. *)
Definition is_expression (s : string) : bool :=
  match s with String c rest => Ascii.eqb c "=" && expression_closes rest | "" => false end.

(** A brace group without spaces, or an expression. *)
Fixpoint parallelReplacement (s : string) : bool :=
  match s with
  | "" => false
  | String c rest =>
      Ascii.eqb c "{" && (group_closes rest || is_expression rest) || parallelReplacement rest
  end.

(** The rest of an empty brace group, or of one that begins with a digit or a mark. *)
Definition placeholder_closes (s : string) : bool :=
  match s with
  | "" => false
  | String c rest => Ascii.eqb c "}" || (is_digit c || byte_in "./#%+:^," c) && group_closes rest
  end.

(** Such a group, but not after a dollar sign ([expands]), or an expression. *)
Fixpoint placeholder_from (expands : bool) (s : string) : bool :=
  match s with
  | "" => false
  | String c rest =>
      Ascii.eqb c "{" && (negb expands && placeholder_closes rest || is_expression rest)
      || placeholder_from (Ascii.eqb c "$") rest
  end.
Definition parallelPlaceholder (s : string) : bool := placeholder_from false s.

Definition rs_empty (r : replacementSet) : bool :=
  negb (rs_braces r) && match rs_words r with [] => true | _ => false end.

Definition holds_word (line word : string) : bool := negb (word =? "")%string && Contains line word.

Definition replaces (r : replacementSet) (word : string) : bool :=
  rs_braces r && parallelReplacement word || existsb (holds_word word) (rs_words r).

Definition union (r other : replacementSet) : replacementSet :=
  if rs_empty other then r else mkReplacements (rs_words r ++ rs_words other) (rs_braces r || rs_braces other).

Example replacement_strings :
  (map parallelReplacement ["{}"; "x{1}y"; "{= $_ =}"; "{ cmd; }"; "{"; "{=}"],
   map parallelPlaceholder ["{}"; "x{1}y"; "${1}"; "{a}"; "{= $_ =}"; "${= $_ =}"; "{//}"]) =
  ([true; true; true; false; false; true], [true; true; false; false; true; true; true]).
Proof. reflexivity. Qed.

(** ** What a wrapper runs *)

Record unwrappedCommand := mkUnwrapped {
  uc_inner : list (string * nat); uc_script : string; uc_hasScript : bool; uc_assigns : list string;
  uc_runsNothing : bool; uc_replaced : replacementSet }.

#[export] Instance unwrappedCommand_eta : Eta unwrappedCommand := fun u =>
  mkUnwrapped (uc_inner u) (uc_script u) (uc_hasScript u) (uc_assigns u) (uc_runsNothing u) (uc_replaced u).

Definition no_command : unwrappedCommand := mkUnwrapped [] "" false [] false no_replacements.

Record wrapperInvocation := mkInvocation {
  iv_replaced : replacementSet; iv_terminators : list string; iv_arguments : list string }.

#[export] Instance wrapperInvocation_eta : Eta wrapperInvocation := fun v =>
  mkInvocation (iv_replaced v) (iv_terminators v) (iv_arguments v).

Definition newInvocation (w : prefixWrapper) : wrapperInvocation :=
  mkInvocation (mkReplacements [] (replacesBraces w)) (terminators w) (argumentTerminators w).

Definition without (set words : list string) : list string :=
  List.filter (fun s => negb (in_set words s)) set.

Definition add_replacements (words : list string) (v : wrapperInvocation) : wrapperInvocation :=
  v <| iv_replaced := mkReplacements (rs_words (iv_replaced v) ++ words) (rs_braces (iv_replaced v)) |>.

(** The replacement string an option names. *)
Definition read_replacement (w : prefixWrapper) (option : wrapperOption) (v : wrapperInvocation)
  : wrapperInvocation :=
  if in_set (replaceFlags w) (op_name option) then
    add_replacements [if negb (op_hasValue option) || (op_value option =? "")%string then "{}" else op_value option] v
  else v.

(** The terminators an option renames. *)
Definition rename_terminators (w : prefixWrapper) (option : wrapperOption) (v : wrapperInvocation)
  : wrapperInvocation :=
  match lookup_name (separatorFlags w) (op_name option) with
  | Some replaced =>
      if op_hasValue option && negb (op_value option =? "")%string then
        let removed := [replaced; replaced +:+ "+"] in
        let added := [op_value option; op_value option +:+ "+"] in
        v <| iv_terminators := without (iv_terminators v) removed ++ added |>
          <| iv_arguments := without (iv_arguments v) removed
                             ++ (if in_set (iv_arguments v) replaced then added else []) |>
      else v
  | None => v
  end.

Definition read_option (w : prefixWrapper) (option : wrapperOption) (v : wrapperInvocation) : wrapperInvocation :=
  rename_terminators w option (read_replacement w option v).

(** ** Input sources *)

Record inputSource := mkSource { is_words : list string; is_files : bool }.

Fixpoint append_to_last (sources : list inputSource) (word : string) : list inputSource :=
  match sources with
  | [] => []
  | [s] => [mkSource (is_words s ++ [word]) (is_files s)]
  | s :: rest => s :: append_to_last rest word
  end.

Definition add_source_word (v : wrapperInvocation) (sources : list inputSource) (word : string) : list inputSource :=
  if in_set (iv_terminators v) word
  then sources ++ [mkSource [] (negb (in_set (iv_arguments v) word))]
  else append_to_last sources word.

Definition splitSources (words : list string) (v : wrapperInvocation) : list inputSource :=
  fold_left (add_source_word v) words [].

Definition maxArgumentCommandLines : nat := 64.

(** Each combination with each argument; past the bound there is no list. *)
Definition extend_combinations (combinations : list (list string)) (words : list string)
  : option (list (list string)) :=
  let next := flat_map (fun combination => map (fun argument => combination ++ [argument]) words) combinations in
  if (length next <=? maxArgumentCommandLines)%nat then Some next else None.

Fixpoint combine_sources (combinations : list (list string)) (sources : list inputSource)
  : option (list (list string)) :=
  match sources with
  | [] => Some combinations
  | s :: rest =>
      if is_files s || match is_words s with [] => true | _ => false end then None else
      match extend_combinations combinations (is_words s) with
      | Some next => combine_sources next rest
      | None => None
      end
  end.

Definition argumentCombinations (sources : list inputSource) : option (list (list string)) :=
  match sources with [] => None | _ => combine_sources [[]] sources end.

Definition argumentCommandLines (sources : list inputSource) : option (list string) :=
  option_map (map (fun combination => StringsJoin combination " ")) (argumentCombinations sources).

(** Each argument in place of its position's replacement string. *)
Fixpoint replace_positions (i : nat) (quoted : list string) (line : string) : string :=
  match quoted with
  | [] => line
  | word :: rest => replace_positions (S i) rest (ReplaceAll line ("{" +:+ Itoa (S i) +:+ "}") word)
  end.

Definition compose_line (line : string) (placeholders : bool) (replaced : replacementSet) (quoted : list string)
  : string :=
  let all := StringsJoin quoted " " in
  if placeholders then
    let composed := fold_left (fun composed word => ReplaceAll composed word all) (rs_words replaced) line in
    if rs_braces replaced then replace_positions 0 quoted (ReplaceAll composed "{}" all) else composed
  else line +:+ " " +:+ all.

(** [sequence_of]: every value, or none. *)
Fixpoint all_some {A} (l : list (option A)) : option (list A) :=
  match l with
  | [] => Some []
  | Some a :: rest => option_map (cons a) (all_some rest)
  | None :: _ => None
  end.

Section Commands.
Context {syntax : BashSyntax}.

Definition parses (line : string) : bool := match Parse line with Some _ => true | None => false end.

(** The command lines a template runs with literal arguments. *)
Definition templateCommandLines (template : list string) (sources : list inputSource) (replaced : replacementSet)
  : option (list string) :=
  match argumentCombinations sources with
  | None => None
  | Some combinations =>
      let line := StringsJoin template " " in
      let placeholders := rs_braces replaced && parallelPlaceholder line
                          || existsb (holds_word line) (rs_words replaced) in
      option_map (fun quoted => List.filter parses (map (compose_line line placeholders replaced) quoted))
        (all_some (map (fun combination => all_some (map Quote combination)) combinations))
  end.

(** The words up to the first terminator, and the rest from it on. *)
Fixpoint split_template (ends : list string) (rest : list (string * nat)) : list (string * nat) * list string :=
  match rest with
  | [] => ([], [])
  | (word, i) :: tail =>
      if in_set ends word then ([], map fst rest)
      else let '(template, after) := split_template ends tail in ((word, i) :: template, after)
  end.

Definition set_script (out : unwrappedCommand) (lines : list string) (has : bool) : unwrappedCommand :=
  out <| uc_script := StringsJoin lines (String newline "") |> <| uc_hasScript := has |>.

(** The command after the operands. *)
Definition read_template (w : prefixWrapper) (rest : list (string * nat)) (out : unwrappedCommand)
    (v : wrapperInvocation) : unwrappedCommand :=
  let '(template, after) := split_template (iv_terminators v) rest in
  let sources := splitSources after v in
  let out := out <| uc_replaced := iv_replaced v |> in
  if negb (joinsScript w) then out <| uc_inner := template |> else
  match template with
  | [] =>
      match argumentCommandLines sources with
      | Some lines => set_script out lines (match lines with [] => false | _ => true end)
      | None => set_script out [] false
      end
  | _ =>
      let words := map fst template in
      set_script out
        (StringsJoin words " " ::
           match templateCommandLines words sources (iv_replaced v) with Some composed => composed | None => [] end)
        true
  end.

Definition skip_duration (w : prefixWrapper) (rest : list (string * nat)) : list (string * nat) :=
  match rest with
  | (tok, _) :: tail => if duration w && isDurationToken tok then tail else rest
  | [] => []
  end.

(** The script flag after the operands. *)
Definition operand_script (w : prefixWrapper) (rest : list (string * nat)) : option (list string) :=
  match rest with
  | (flag, _) :: tail => if (0 <? operands w)%nat && in_set (scriptFlags w) flag then Some (map fst tail) else None
  | [] => None
  end.

Definition command (w : prefixWrapper) (rest : list (string * nat)) (out : unwrappedCommand)
    (v : wrapperInvocation) : unwrappedCommand :=
  if (length rest <? operands w)%nat then out else
  let rest := skipn (operands w) rest in
  match operand_script w rest with
  | Some words =>
      out <| uc_script := StringsJoin words " " |>
          <| uc_hasScript := match words with [] => false | _ => true end |>
  | None => read_template w (skip_duration w rest) out v
  end.

(** What one option adds to the wrapper's reading. *)
Definition unwrap_option (w : prefixWrapper) (option : wrapperOption) (out : unwrappedCommand) : unwrappedCommand :=
  let out := if in_set (pathFlags w) (op_name option) && op_hasValue option
             then out <| uc_assigns := uc_assigns out ++ ["PATH=" +:+ op_value option] |> else out in
  let out := if in_set (assignFlags w) (op_name option) && op_hasValue option && is_assignment (op_value option)
             then out <| uc_assigns := uc_assigns out ++ [op_value option] |> else out in
  if in_set (targetFlags w) (op_name option) || ownOptionsRunNothing w && negb (op_name option =? "-")%string
  then out <| uc_runsNothing := true |> else out.

(** The options in order; a script option ends the reading at once. *)
Fixpoint unwrap_options (w : prefixWrapper) (rest : list string) (options : list wrapperOption)
    (out : unwrappedCommand) (v : wrapperInvocation) : unwrappedCommand + (unwrappedCommand * wrapperInvocation) :=
  match options with
  | [] => inr (out, v)
  | option :: options =>
      if script_option w option
      then inl (out <| uc_script := StringsJoin (op_value option :: rest) " " |> <| uc_hasScript := true |>)
      else unwrap_options w rest options (unwrap_option w option out) (read_option w option v)
  end.

Definition unwrap (w : prefixWrapper) (args : list string) : unwrappedCommand :=
  let reading := wrapperOptions w args in
  let v := add_replacements (rd_substituted reading) (newInvocation w) in
  match unwrap_options w (map fst (rd_rest reading)) (rd_options reading) no_command v with
  | inl out => out
  | inr (out, v) =>
      if negb (rd_complete reading) || uc_runsNothing out then out else command w (rd_rest reading) out v
  end.

End Commands.
