(* ===== verification/CommandIdentity.v ===== *)
(** * Which programs a command runs ([tools/command_identity.go])

    A simple command's words are read down to the program that runs: leading
    assignments and prefix wrappers are peeled off.  A payload is read as the
    shell parses it and by its fields, with the scripts its commands run. *)

From stdpp Require Import base tactics list strings.
From Stdlib Require Import ZArith Lia Bool Ascii String List.
From S2P Require Import Prelude GoLib GoStrings EnvSplit Wrappers ShellGrammar ShellSyntax Launchers.

(** ** Program names *)

Definition gnuCoreutils : list string :=
  ["["; "arch"; "b2sum"; "base32"; "base64"; "basename"; "basenc"; "cat"; "chcon"; "chgrp"; "chmod";
   "chown"; "chroot"; "cksum"; "comm"; "coreutils"; "cp"; "csplit"; "cut"; "date"; "dd"; "df"; "dir";
   "dircolors"; "dirname"; "du"; "echo"; "env"; "expand"; "expr"; "factor"; "false"; "fmt"; "fold";
   "groups"; "head"; "hostid"; "hostname"; "id"; "install"; "join"; "kill"; "link"; "ln"; "logname";
   "ls"; "md5sum"; "mkdir"; "mkfifo"; "mknod"; "mktemp"; "mv"; "nice"; "nl"; "nohup"; "nproc";
   "numfmt"; "od"; "paste"; "pathchk"; "pinky"; "pr"; "printenv"; "printf"; "ptx"; "pwd"; "readlink";
   "realpath"; "rm"; "rmdir"; "runcon"; "seq"; "sha1sum"; "sha224sum"; "sha256sum"; "sha384sum";
   "sha512sum"; "shred"; "shuf"; "sleep"; "sort"; "split"; "stat"; "stdbuf"; "stty"; "sum"; "sync";
   "tac"; "tail"; "tee"; "test"; "timeout"; "touch"; "tr"; "true"; "truncate"; "tsort"; "tty"; "uname";
   "unexpand"; "uniq"; "unlink"; "uptime"; "users"; "vdir"; "wc"; "who"; "whoami"; "yes"].

Definition gnuFindutils : list string :=
  ["find"; "xargs"; "locate"; "updatedb"].

Definition gnuInetutils : list string :=
  ["dnsdomainname"; "ftp"; "hostname"; "ifconfig"; "logger"; "ping"; "ping6"; "rcp"; "rexec"; "rlogin";
   "rsh"; "talk"; "telnet"; "tftp"; "traceroute"; "whois"].

Definition gnuTextutils : list string :=
  ["sed"; "tar"; "grep"; "egrep"; "fgrep"; "make"; "awk"; "indent"; "which"; "libtool"; "libtoolize";
   "units"; "ed"; "red"].

Definition homebrewGNUPrograms : list string :=
  gnuCoreutils ++ gnuFindutils ++ ["time"] ++ gnuInetutils ++ gnuTextutils.

Definition programName (word : string) : string :=
  let word := str_filter (fun c => negb (Ascii.eqb c "\")) word in
  if (word =? "")%string then "" else
  let name := ToLower (path_Base word) in
  match CutPrefix name "g" with
  | Some gnu => if in_set homebrewGNUPrograms gnu then gnu else name
  | None => name
  end.

Example program_names : map programName ["rm"; "\rm"; "/bin/RM"; "grm"; "gtimeout"; "go"; ""] =
  ["rm"; "rm"; "rm"; "rm"; "timeout"; "go"; ""].
Proof. reflexivity. Qed.

Fixpoint program_index (i : nat) (fields : list string) : option nat :=
  match fields with
  | [] => None
  | field :: rest => if is_assignment field then program_index (S i) rest else Some i
  end.

(** [segmentProgram]: the first word that is no assignment. *)
Definition segmentProgram (fields : list string) : option nat := program_index 0 fields.

Definition declarationBuiltins : list string := ["export"; "declare"; "typeset"; "readonly"; "local"].

Definition codeInjectionVariables : list string :=
  ["LD_PRELOAD"; "LD_LIBRARY_PATH"; "LD_AUDIT"; "DYLD_INSERT_LIBRARIES"; "DYLD_LIBRARY_PATH";
   "DYLD_FRAMEWORK_PATH"; "DYLD_FALLBACK_LIBRARY_PATH"; "DYLD_FALLBACK_FRAMEWORK_PATH"; "NODE_OPTIONS";
   "PYTHONSTARTUP"; "PERL5OPT"; "PERL5LIB"; "RUBYOPT"; "BASH_ENV"; "ZDOTDIR"; "GIT_EXEC_PATH"].

Definition pythonPathVariable : string := "PYTHONPATH".
Definition shellStartupVariable : string := "ENV".

Record injectionReaders := mkReaders { ir_python : bool; ir_interactiveShell : bool }.

Definition reads (r : injectionReaders) (variable : string) : bool :=
  if (variable =? pythonPathVariable)%string then ir_python r else
  if (variable =? shellStartupVariable)%string then ir_interactiveShell r else
  in_set codeInjectionVariables variable.

Definition pythonProgram (name : string) : bool := HasPrefix name "python" || HasPrefix name "pypy".

Definition classNeutralWrappers : list string :=
  ["exec"; "time"; "command"; "builtin"; "nice"; "ionice"; "nohup"; "timeout"; "stdbuf"].

(** ** Identities *)

Record commandLayer := mkLayer {
  ly_assigns : list string; ly_word : string; ly_name : string; ly_args : list string;
  ly_inner : list string; ly_index : nat }.

#[export] Instance commandLayer_eta : Eta commandLayer := fun l =>
  mkLayer (ly_assigns l) (ly_word l) (ly_name l) (ly_args l) (ly_inner l) (ly_index l).

Definition no_layer : commandLayer := mkLayer [] "" "" [] [] 0.

Definition argv (l : commandLayer) : list string := if (ly_word l =? "")%string then [] else ly_word l :: ly_args l.

Record commandIdentity := mkIdentity {
  id_layers : list commandLayer; id_script : option string; id_nested : list (list string);
  id_opaque : bool; id_replaced : replacementSet }.

#[export] Instance commandIdentity_eta : Eta commandIdentity := fun d =>
  mkIdentity (id_layers d) (id_script d) (id_nested d) (id_opaque d) (id_replaced d).

Definition no_identity : commandIdentity := mkIdentity [] None [] false no_replacements.

Definition program (d : commandIdentity) : commandLayer := List.last (id_layers d) no_layer.

Definition printfVariable (args : list string) : option (string * string) :=
  match args with
  | arg :: rest =>
      if negb (HasPrefix arg "-v") then None else
      let name := TrimPrefix arg "-v" in
      if (name =? "")%string then
        match rest with
        | [] => None
        | name :: rest => Some (name, List.hd "" rest)
        end
      else Some (name, List.hd "" rest)
  | [] => None
  end.

Definition assignments (d : commandIdentity) : list string :=
  flat_map ly_assigns (id_layers d)
  ++ (if in_set declarationBuiltins (ly_name (program d)) then List.filter is_assignment (ly_args (program d)) else [])
  ++ (if (ly_name (program d) =? "printf")%string then
        match printfVariable (ly_args (program d)) with
        | Some (name, value) => [name +:+ "=" +:+ value]
        | None => []
        end
      else []).

(** The variable of an assignment, empty when it assigns none. *)
Definition assigned (word : string) : string :=
  match assignmentName word with Some name => name | None => "" end.

(** Empty when no variable is read. *)
Definition codeInjection (d : commandIdentity) (readers : injectionReaders) : string :=
  match List.find (fun a => reads readers (assigned a)) (assignments d) with
  | Some a => assigned a
  | None => ""
  end.

Definition redirectsProgramResolution (d : commandIdentity) : bool :=
  existsb (fun a => (assigned a =? "PATH")%string) (assignments d)
  || negb (codeInjection d (mkReaders true false) =? "")%string.

Definition has_script (d : commandIdentity) : bool := match id_script d with Some _ => true | None => false end.

Definition boundsNoClass (d : commandIdentity) : bool :=
  has_script d || match id_nested d with [] => false | _ => true end
  || existsb (fun l => negb (in_set classNeutralWrappers (ly_name l))) (removelast (id_layers d)).

(** ** Identification *)

Definition maxWrapperDepth : nat := 8.
Definition maxScriptDepth : nat := 4.

Definition add_layer (layer : commandLayer) (d : commandIdentity) : commandIdentity :=
  d <| id_layers := id_layers d ++ [layer] |>.

Definition or_opaque (b : bool) (d : commandIdentity) : commandIdentity := d <| id_opaque := id_opaque d || b |>.

(** The leading assignments, and the words from the program on. *)
Fixpoint leading_assigns (words : list (string * nat)) : list string * list (string * nat) :=
  match words with
  | (word, i) :: rest =>
      if is_assignment word then let '(assigns, rest) := leading_assigns rest in (word :: assigns, rest)
      else ([], words)
  | [] => ([], [])
  end.

(** The word at the position of the wrapper argument it came from. *)
Definition inner_words (args inner : list (string * nat)) : list (string * nat) :=
  map (fun w => (fst w, List.nth (snd w) (map snd args) 0%nat)) inner.

Section Identify.
Context {syntax : BashSyntax}.

(** What a shell, su or runuser without [-u] runs. *)
Definition shell_like (name : string) (args : list string) : option shellRun :=
  if is_shell name then Some (readShell name args) else
  if (name =? "su")%string || (name =? "runuser")%string && negb (runuserRunsCommand args)
  then Some (suShellRun args) else None.

(** [depth] wrappers may still be peeled off. *)
Fixpoint identify (depth end_ : nat) (d : commandIdentity) (words : list (string * nat)) : commandIdentity :=
  let '(assigns, rest) := leading_assigns words in
  match rest with
  | [] => add_layer (mkLayer assigns "" "" [] [] end_) d
  | (word, index) :: rest =>
      let name := programName word in
      let args := map fst rest in
      let layer := mkLayer assigns word name args [] index in
      let d := or_opaque (replaces (id_replaced d) word) d in
      match shell_like name args with
      | Some run =>
          or_opaque (sr_opaque run) (add_layer layer d <| id_script := script_of run |>)
      | None =>
          if (name =? "find")%string then add_layer layer d <| id_nested := findCommands args |> else
          if (name =? "eval")%string then
            match args with
            | [] => add_layer layer d
            | _ => add_layer layer d <| id_script := Some (StringsJoin args " ") |>
            end
          else match lookup_name prefixWrappers name with
          | None => add_layer layer d
          | Some wrapper =>
              match depth with
              | O => or_opaque true (add_layer layer d)
              | S depth =>
                  let unwrapped := unwrap wrapper args in
                  let layer := layer <| ly_assigns := ly_assigns layer ++ uc_assigns unwrapped |>
                                     <| ly_inner := map fst (uc_inner unwrapped) |> in
                  let d := add_layer layer d <| id_replaced := union (id_replaced d) (uc_replaced unwrapped) |> in
                  if uc_hasScript unwrapped then d <| id_script := Some (uc_script unwrapped) |> else
                  match uc_inner unwrapped with
                  | [] => or_opaque (negb (bareRunsNothing wrapper || uc_runsNothing unwrapped)) d
                  | inner => identify depth end_ d (inner_words rest inner)
                  end
              end
          end
      end
  end.

Definition identifyCommand (words : list string) : commandIdentity :=
  identify (maxWrapperDepth - 1) (length words) no_identity (indexed words).

End Identify.

(** ** Readings of a payload *)

Record readCommand := mkRead {
  rc_id : commandIdentity; rc_dynamic : list bool; rc_fallback : bool; rc_writes : list string }.

#[export] Instance readCommand_eta : Eta readCommand := fun r =>
  mkRead (rc_id r) (rc_dynamic r) (rc_fallback r) (rc_writes r).

Definition dynamicWord (dynamic : list bool) (index : nat) : bool := List.nth index dynamic false.

Definition splitTopLevelSegments (s : string) : list string :=
  FieldsFunc s (fun c => byte_in ";|&`()" c || Ascii.eqb c newline).

Definition shellFields (seg : string) : list string :=
  Fields (map_drop (fun c => Ascii.eqb c "'" || Ascii.eqb c quote_byte) seg).

Example segments : flat_map (fun s => [shellFields s]) (splitTopLevelSegments "os.system('rm -rf /'); x") =
  [["os.system"]; ["rm"; "-rf"; "/"]; ["x"]].
Proof. reflexivity. Qed.

Section Readings.
Context {syntax : BashSyntax}.

(** How a command a reading found, and what it runs, are listed. *)
Variable append : bool -> readCommand -> list readCommand.

(** One statement of the shell's reading. *)
Definition read_statement (src : string) (s : Stmt) : option readCommand :=
  let words := statement_words src s in
  let writes := shellWriteTargets (st_redirs s) src in
  match words, writes with
  | [], [] => None
  | _, _ =>
      let dynamic := map snd words in
      let d := identifyCommand (map fst words) in
      Some (mkRead (or_opaque (dynamicWord dynamic (ly_index (program d))) d) dynamic false writes)
  end.

Definition shell_commands (payload : string) : option (list readCommand) :=
  option_map
    (flat_map (fun s => match read_statement payload s with Some read => append true read | None => [] end))
    (Parse payload).

Definition field_commands (payload : string) : list readCommand :=
  flat_map (fun segment =>
    match shellFields segment with
    | [] => []
    | fields => append false (mkRead (identifyCommand fields) [] true [])
    end) (splitTopLevelSegments payload).

(** A command of the program's own arguments. *)
Definition nested_read (words : list string) : readCommand :=
  let d := identifyCommand words in
  let word := ly_word (program d) in
  mkRead (or_opaque (ContainsAny word "$`" || Contains word "{}") d) [] true [].

(** The commands of a script, by its fields where the shell cannot parse it. *)
Definition script_commands (shell : bool) (script : string) : list readCommand :=
  match (if shell then shell_commands script else None) with
  | Some commands => commands
  | None => field_commands script
  end.

(** A string a wrapper replaces decides the program words below it. *)
Definition under_replacements (replaced : replacementSet) (read : readCommand) : readCommand :=
  if rs_empty replaced then read else
  let replaced := union replaced (id_replaced (rc_id read)) in
  read <| rc_id := or_opaque (replaces replaced (ly_word (program (rc_id read))))
                     ((rc_id read) <| id_replaced := replaced |>) |>.

Definition run_below (shell : bool) (d : commandIdentity) : list readCommand :=
  map (under_replacements (id_replaced d))
    (flat_map (fun words => append shell (nested_read words)) (id_nested d)
     ++ match id_script d with Some script => script_commands shell script | None => [] end).

End Readings.

Definition runs_more (d : commandIdentity) : bool :=
  has_script d || match id_nested d with [] => false | _ => true end.

Definition mark_opaque (b : bool) (read : readCommand) : readCommand := read <| rc_id := or_opaque b (rc_id read) |>.

Section Payloads.
Context {syntax : BashSyntax}.

(** [levels] of nested scripts may still be read. *)
Fixpoint append_levels (levels : nat) (shell : bool) (read : readCommand) : list readCommand :=
  match levels with
  | O => [mark_opaque (runs_more (rc_id read)) read]
  | S levels => read :: run_below (append_levels levels) shell (rc_id read)
  end.

(** The commands [appendWithScript] adds. *)
Definition appendWithScript (depth : nat) (shell : bool) (read : readCommand) : list readCommand :=
  append_levels (maxScriptDepth - depth) shell read.

Definition shellCommands (payload : string) (depth : nat) : option (list readCommand) :=
  shell_commands (appendWithScript depth) payload.

Definition fieldCommands (payload : string) (depth : nat) : list readCommand :=
  field_commands (appendWithScript depth) payload.

Definition effectiveCommands (payload : string) : list readCommand :=
  match shellCommands payload 0 with Some l => l | None => [] end ++ fieldCommands payload 0.

Definition preparationCommands (payload : string) (depth : nat) : list readCommand :=
  match shellCommands payload depth with Some l => l | None => fieldCommands payload depth end.

Definition unparsed_command (read : readCommand) : bool :=
  id_opaque (rc_id read) || redirectsProgramResolution (rc_id read) || boundsNoClass (rc_id read).

Definition expandCommandSegments (cmd : string) (depth : nat) : list (list string) * bool :=
  let fields := fieldCommands cmd depth in
  let shell := match shellCommands cmd depth with Some l => l | None => [] end in
  (flat_map (fun read => match argv (program (rc_id read)) with
                         | [] => []
                         | words => if has_script (rc_id read) then [] else [words]
                         end) fields,
   existsb unparsed_command fields || existsb unparsed_command shell).

End Payloads.
