(* ===== verification/LaunchersTheory.v ===== *)
(** * What launchers and identification keep

    The command lines of a wrapper's literal arguments, and the layers of an
    identity: their number, what they are, and where their words stand. *)

From stdpp Require Import base tactics list strings.
From Stdlib Require Import ZArith Lia Bool Ascii String List.
From S2P Require Import Prelude GoLib GoStrings EnvSplit Wrappers ShellGrammar ShellSyntax Launchers CommandIdentity.

(** ** Argument combinations *)

Definition source_listable (s : inputSource) : bool :=
  negb (is_files s) && match is_words s with [] => false | _ => true end.

(** The number of ways to take one argument of each source. *)
Definition combination_count (sources : list inputSource) : nat :=
  fold_right (fun s n => (length (is_words s) * n)%nat) 1%nat sources.

Definition listable (sources : list inputSource) : bool :=
  match sources with [] => false | _ => true end && forallb source_listable sources
  && (combination_count sources <=? maxArgumentCommandLines)%nat.

(** One argument of every source, in order. *)
Definition combination_of (sources : list inputSource) (c : list string) : Prop :=
  Forall2 (fun a s => In a (is_words s)) c sources.

Lemma extend_length combinations words :
  length (flat_map (fun c : list string => map (fun a => c ++ [a]) words) combinations) =
  (length combinations * length words)%nat.
Proof. induction combinations as [|c l IH]; [done|]. simpl. rewrite length_app, length_map, IH. done. Qed.

Lemma extend_in combinations words c :
  In c (flat_map (fun c : list string => map (fun a => c ++ [a]) words) combinations) <->
  exists b a, c = b ++ [a] /\ In b combinations /\ In a words.
Proof.
  rewrite in_flat_map. split.
  - intros (b & Hb & Hc). apply in_map_iff in Hc as (a & <- & Ha). eauto.
  - intros (b & a & -> & Hb & Ha). exists b. split; [done|]. apply in_map_iff. eauto.
Qed.

Lemma count_positive sources : forallb source_listable sources = true -> (1 <= combination_count sources)%nat.
Proof.
  induction sources as [|s rest IH]; [done|]. simpl. intros H. apply andb_true_iff in H as [Hs Hr]. specialize (IH Hr).
  unfold source_listable in Hs. apply andb_true_iff in Hs as [_ Hs]. destruct (is_words s); [done|]. simpl. lia.
Qed.

Lemma combine_sources_spec sources : forall combinations, combinations <> [] ->
  if forallb source_listable sources
     && (length combinations * combination_count sources <=? maxArgumentCommandLines)%nat
  then exists cs, combine_sources combinations sources = Some cs /\
    length cs = (length combinations * combination_count sources)%nat /\
    forall c, In c cs <-> exists b r, c = b ++ r /\ In b combinations /\ combination_of sources r
  else (length combinations <= maxArgumentCommandLines)%nat -> combine_sources combinations sources = None.
Proof.
  induction sources as [|s rest IH]; intros combinations Hne.
  - simpl. rewrite Nat.mul_1_r. destruct (Nat.leb_spec (length combinations) maxArgumentCommandLines) as [_|Hlt].
    2: { intros H. exfalso. unfold maxArgumentCommandLines in *. lia. }
    exists combinations. split; [done|split; [done|]]. intros c. split.
    + intros Hc. exists c, []. rewrite app_nil_r. repeat split; [done|constructor].
    + intros (b & r & -> & Hb & Hr). inversion Hr. by rewrite app_nil_r.
  - cbn [forallb combine_sources combination_count fold_right]. fold (combination_count rest).
    assert (is_files s || match is_words s with [] => true | _ => false end = negb (source_listable s)) as ->
      by (unfold source_listable; destruct (is_files s), (is_words s); done).
    destruct (source_listable s) eqn:Es; cbn [negb andb]; [|by intros _].
    unfold extend_combinations. set (next := flat_map _ combinations).
    assert (length next = (length combinations * length (is_words s))%nat) as Hlen by apply extend_length.
    assert (next <> []) as Hnext.
    { unfold source_listable in Es. apply andb_true_iff in Es as [_ Es]. destruct (is_words s); [done|].
      destruct combinations; [done|]. intros H. rewrite H in Hlen. simpl in Hlen. lia. }
    specialize (IH next Hnext). rewrite Hlen, <- Nat.mul_assoc in IH. rewrite Hlen.
    destruct (forallb source_listable rest) eqn:Er; cbn [andb] in *.
    + pose proof (count_positive rest Er) as Hpos.
      destruct (Nat.leb_spec (length combinations * (length (is_words s) * combination_count rest)) maxArgumentCommandLines) as [Hle|Hlt].
      * destruct (Nat.leb_spec (length combinations * length (is_words s)) maxArgumentCommandLines) as [_|Hbad]; [|nia].
        destruct IH as (cs & -> & Hcs & Hin). exists cs. split; [done|split; [done|]]. intros c. rewrite Hin. split.
        -- intros (b & r & -> & Hb & Hr). apply extend_in in Hb as (b' & a & -> & Hb' & Ha).
           exists b', (a :: r). rewrite <- app_assoc. repeat split; [done|]. by constructor.
        -- intros (b & r & -> & Hb & Hr). inversion Hr as [|a s' r' ? Ha Hr']; subst. exists (b ++ [a]), r'.
           rewrite <- app_assoc. repeat split; [|done]. apply extend_in. eauto.
      * intros _. destruct (Nat.leb_spec (length combinations * length (is_words s)) maxArgumentCommandLines) as [Hle|]; [|done].
        by apply IH.
    + intros _. destruct (Nat.leb_spec (length combinations * length (is_words s)) maxArgumentCommandLines) as [Hle|]; [|done].
      by apply IH.
Qed.

(** The command lines GNU parallel composes from literal arguments are listed
    in full or not at all: with sources that are all literal and nonempty and at
    most 64 combinations, the reader lists every choice of one argument per source
    and nothing else; in every other case it lists none. *)
Theorem argument_combinations_exact sources :
  if listable sources
  then exists cs, argumentCombinations sources = Some cs /\ length cs = combination_count sources /\
       (length cs <= maxArgumentCommandLines)%nat /\ forall c, In c cs <-> combination_of sources c
  else argumentCombinations sources = None.
Proof.
  unfold listable, argumentCombinations. destruct sources as [|s rest]; [done|].
  pose proof (combine_sources_spec (s :: rest) [[]]) as H. specialize (H ltac:(done)).
  change (length [[]]) with 1%nat in H. rewrite Nat.mul_1_l in H. cbn [andb].
  destruct (forallb source_listable (s :: rest) && _) eqn:E; [|apply H; unfold maxArgumentCommandLines; simpl; lia].
  apply andb_true_iff in E as [_ E]. apply Nat.leb_le in E.
  destruct H as (cs & Hcs & Hlen & Hin). exists cs. split; [done|split; [done|split; [lia|]]]. intros c. rewrite Hin. split.
  - by intros (b & r & -> & [<-|[]] & Hr).
  - intros Hc. exists [], c. repeat split; [by left|done].
Qed.

(** ** Words and where they stand *)

(** Each word is the argument at its index. *)
Definition at_index (args : list string) (words : list (string * nat)) : Prop :=
  forall w i, In (w, i) words -> args !! i = Some w.

Lemma at_index_sub args words words' : (forall x, In x words' -> In x words) -> at_index args words -> at_index args words'.
Proof. intros Hsub H w i Hin. by apply H, Hsub. Qed.

Lemma indexed_at args : at_index args (indexed args).
Proof.
  unfold indexed. assert (forall k w i, In (w, i) (combine args (seq k (length args))) -> (k <= i)%nat /\ args !! (i - k)%nat = Some w) as H.
  { induction args as [|a args IH]; intros k w i; [done|]. simpl. intros [[= <- <-]|Hin]; [by rewrite Nat.sub_diag|].
    apply IH in Hin as [Hk Hl]. split; [lia|]. by replace (i - k)%nat with (S (i - S k)) by lia. }
  intros w i Hin. apply H in Hin as [_ Hin]. by rewrite Nat.sub_0_r in Hin.
Qed.

Lemma read_argument_rest w arg here rest : match read_argument w arg here rest with
  | (_, Some (rest', _)) => forall x, In x rest' -> In x rest
  | (_, None) => True end.
Proof.
  assert (forall name before, match takes_next name rest before with
    | (_, Some (rest', _)) => forall x, In x rest' -> In x rest | (_, None) => True end) as Hnext.
  { intros name before. destruct rest as [|[v n] rest]; [done|]. simpl. auto. }
  unfold read_argument. case_if; [|case_if].
  - unfold read_long. destruct (cut_at _ arg) as [name [v|]]; [done|]. by repeat case_if; try apply Hnext.
  - unfold read_whole. by case_if; [apply Hnext|].
  - generalize ([] : list wrapperOption) as before. induction (drop 1 arg) as [|c letters IH]; intros before; cbn [read_bundle]; [done|].
    by repeat case_if; try apply Hnext; try apply IH.
Qed.

(** Without split strings the words after the options are the arguments'. *)
Lemma read_options_words n : forall w splits options substituted args x, splitFlags w = [] ->
  In x (rd_rest (read_options n w splits options substituted args)) -> In x args.
Proof.
  induction n as [|n IH]; intros w splits options substituted args x Hs; cbn [read_options]; [done|].
  destruct args as [|[arg here] rest]; [done|]. case_if; [by right|]. case_if; [done|].
  case_if; [intros H; right; by apply IH in H|].
  pose proof (read_argument_rest w arg here rest) as Hr. destruct (read_argument w arg here rest) as [more [[rest' here']|]]; [|done].
  destruct (List.last more (plain_option "")) as [name v [|]]; [|intros H; right; by eapply Hr, IH].
  case_if; [intros H; right; by apply Hr|]. rewrite Hs. simpl. intros H. right. by eapply Hr, IH.
Qed.

Section Identify.
Context {syntax : BashSyntax}.

Lemma split_template_words ends rest x : In x (fst (split_template ends rest)) -> In x rest.
Proof.
  induction rest as [|[w i] rest IH]; [done|]. simpl. case_if; [done|].
  destruct (split_template ends rest) as [t a]. simpl in *. tauto.
Qed.

Lemma read_template_inner w rest out v x : uc_inner out = [] -> In x (uc_inner (read_template w rest out v)) -> In x rest.
Proof.
  intros Ho. unfold read_template. pose proof (split_template_words (iv_terminators v) rest x) as H.
  destruct (split_template (iv_terminators v) rest) as [template after]. simpl in H. case_if; [done|].
  destruct template; [destruct (argumentCommandLines _)|]; simpl; by rewrite Ho.
Qed.

Lemma skip_duration_words w rest x : In x (skip_duration w rest) -> In x rest.
Proof. destruct rest as [|[tok i] rest]; [done|]. simpl. case_if; [by right|done]. Qed.

Lemma skipn_In {A} n (l : list A) x : In x (skipn n l) -> In x l.
Proof. revert l. induction n as [|n IH]; intros [|y l]; simpl; auto. Qed.

Lemma command_inner w rest out v x : uc_inner out = [] -> In x (uc_inner (command w rest out v)) -> In x rest.
Proof.
  intros Ho. unfold command. case_if; [by rewrite Ho|]. destruct (operand_script w _); [simpl; by rewrite Ho|].
  intros H. apply read_template_inner, skip_duration_words, skipn_In in H; done.
Qed.

Lemma unwrap_options_inner w rest options : forall out v, uc_inner out = [] ->
  match unwrap_options w rest options out v with inl out' => uc_inner out' = [] | inr (out', _) => uc_inner out' = [] end.
Proof.
  induction options as [|o options IH]; intros out v Ho; [done|]. simpl. case_if; [done|]. apply IH.
  unfold unwrap_option. by repeat case_if.
Qed.

Lemma unwrap_inner w args : splitFlags w = [] -> at_index args (uc_inner (unwrap w args)).
Proof.
  intros Hs. unfold unwrap. pose proof (unwrap_options_inner w (map fst (rd_rest (wrapperOptions w args)))
    (rd_options (wrapperOptions w args)) no_command
    (add_replacements (rd_substituted (wrapperOptions w args)) (newInvocation w)) eq_refl) as H.
  destruct (unwrap_options _ _ _ _ _) as [out|[out v]]; [intros ? ?; by rewrite H|].
  case_if; [intros ? ?; by rewrite H|].
  apply (at_index_sub _ (indexed args)); [|apply indexed_at]. intros x Hx. apply command_inner in Hx; [|done].
  by eapply read_options_words.
Qed.

(** ** The layers of an identity *)

Definition wrapper_layer (l : commandLayer) : Prop := exists w, lookup_name prefixWrappers (ly_name l) = Some w.

(** The program word stands at its index; a layer that only assigns is past the
    end. *)
Definition layer_placed (words : list string) (l : commandLayer) : Prop :=
  ly_index l = length words /\ ly_word l = "" \/ words !! ly_index l = Some (ly_word l).

(** What the layers from one word list on are. *)
Record layered (words : list string) (depth : nat) (placed : Prop) (layers : list commandLayer) : Prop := {
  ld_some : layers <> [];
  ld_bound : (length layers <= S depth)%nat;
  ld_wrappers : Forall wrapper_layer (removelast layers);
  ld_placed : placed -> Forall (fun l => ly_name l <> "env") layers -> Forall (layer_placed words) layers }.

Lemma leading_assigns_words ws x : In x (snd (leading_assigns ws)) -> In x ws.
Proof.
  induction ws as [|[w i] ws IH]; [done|]. simpl. destruct (is_assignment w); [|done].
  destruct (leading_assigns ws). simpl in *. tauto.
Qed.

Lemma layered_one words depth placed layer : (placed -> layer_placed words layer) -> layered words depth placed [layer].
Proof. intros H. split; [done|simpl; lia|constructor|]. intros Hp _. by constructor; [apply H|]. Qed.

Lemma layered_cons words depth placed placed' layer layers :
  wrapper_layer layer -> (placed -> layer_placed words layer) -> (placed -> ly_name layer <> "env" -> placed') ->
  layered words depth placed' layers -> layered words (S depth) placed (layer :: layers).
Proof.
  intros Hw Hl Hp [Hs Hb Hws Hpl]. split; [done|simpl; lia| |].
  - destruct layers; [done|]. by constructor.
  - intros Hplaced Hnames. apply Forall_cons_1 in Hnames as [Hn Hnames]. constructor; [by apply Hl|].
    apply Hpl; [by apply Hp|done].
Qed.

Lemma split_flags_env name w : lookup_name prefixWrappers name = Some w -> name <> "env" -> splitFlags w = [].
Proof.
  intros H Hn. unfold lookup_name in H. destruct (List.find _ prefixWrappers) as [[k v]|] eqn:E; [|done]. injection H as ->.
  apply find_some in E as [Hin Hk]. apply String.eqb_eq in Hk. simpl in Hk. subst k. simpl in Hin.
  repeat (destruct Hin as [Hin|Hin]; [injection Hin as <- <-; done|]). done.
Qed.

Lemma inner_at words rest inner : at_index words rest -> at_index (map fst rest) inner ->
  at_index words (inner_words rest inner).
Proof.
  intros Hr Hi w i Hin. unfold inner_words in Hin. apply in_map_iff in Hin as ([w' k] & [= -> <-] & Hin).
  apply Hi in Hin. rewrite list_lookup_fmap in Hin. destruct (rest !! k) as [[w2 j]|] eqn:E; [|done].
  simpl in Hin. injection Hin as ->. rewrite (nth_lookup_Some _ _ _ j) by (by rewrite list_lookup_fmap, E).
  apply Hr, list_elem_of_In. by eapply list_elem_of_lookup_2.
Qed.

Lemma identify_layers depth end_ words : end_ = length words -> forall d ws, exists layers,
  id_layers (identify depth end_ d ws) = id_layers d ++ layers /\ layered words depth (at_index words ws) layers.
Proof.
  intros ->. induction depth as [|depth IH]; intros d ws.
  all: cbn [identify]; pose proof (leading_assigns_words ws) as Hin;
    destruct (leading_assigns ws) as [assigns [|[word index] rest]]; cbn [snd] in Hin;
    [eexists; split; [done|]; by apply layered_one; left|].
  all: assert (forall l : commandLayer, ly_index l = index -> ly_word l = word -> at_index words ws -> layer_placed words l) as Hl
    by (intros l Hi Hw Hat; right; rewrite Hi, Hw; apply Hat, Hin; by left).
  all: cbv zeta; destruct (shell_like (programName word) (map fst rest)) as [run|];
    [eexists; split; [done|]; apply layered_one, Hl; done|].
  all: case_if; [eexists; split; [done|]; apply layered_one, Hl; done|].
  all: case_if; [destruct (map fst rest); eexists; (split; [done|]); apply layered_one, Hl; done|].
  all: destruct (lookup_name prefixWrappers (programName word)) as [wrapper|] eqn:Ew;
    [|eexists; split; [done|]; apply layered_one, Hl; done].
  - eexists; split; [done|]; apply layered_one, Hl; done.
  - assert (forall layer, ly_name layer = programName word -> wrapper_layer layer) as Hwl
      by (intros layer Hn; exists wrapper; by rewrite Hn).
    assert (forall layers, layered words 0 (at_index words ws) layers -> layered words (S depth) (at_index words ws) layers) as Hmore
      by (intros layers [H1 H2 H3 H4]; split; [done|lia|done|done]).
    case_if; [eexists; split; [done|]; apply Hmore, layered_one, Hl; done|].
    destruct (uc_inner (unwrap wrapper (map fst rest))) as [|x inner] eqn:Ei.
    { eexists; split; [done|]; apply Hmore, layered_one, Hl; done. }
    edestruct IH as (layers & -> & Hlayers). eexists. split; [symmetry; apply app_assoc|].
    eapply layered_cons; [by apply Hwl|by apply Hl| |exact Hlayers].
    intros Hat Hne. rewrite <- Ei. apply inner_at.
    + eapply at_index_sub; [|exact Hat]. intros y Hy. apply Hin. by right.
    + apply unwrap_inner. by eapply split_flags_env.
Qed.

(** Identifying any words ends after at most eight layers: there is always a
    last layer, every layer before it is a known wrapper, and, unless a split
    string of [env] is among them, the program word of each layer is the word at
    its index, where the shell's expansions are looked up. *)
Theorem identity_layers words :
  let layers := id_layers (identifyCommand words) in
  layers <> [] /\ (length layers <= maxWrapperDepth)%nat /\ Forall wrapper_layer (removelast layers) /\
  (Forall (fun l => ly_name l <> "env") layers -> Forall (layer_placed words) layers).
Proof.
  destruct (identify_layers (maxWrapperDepth - 1) (length words) words eq_refl no_identity (indexed words))
    as (layers & E & [Hs Hb Hw Hp]).
  unfold identifyCommand. cbv zeta. rewrite E. cbn [id_layers no_identity app].
  split; [done|split; [exact Hb|split; [done|]]]. apply Hp, indexed_at.
Qed.

End Identify.
