(* ===== verification/Hardline.v ===== *)
(** * The safety floor ([tools/middleware.go], [tools/hardline_find.go],
    [tools/hardline_power.go])

    The operations no approval releases: deleting a protected root, destroying a
    disk, powering the host down.  Every command a payload runs is checked, and
    a [find] whose expression may reach nearly every entry is checked as the
    commands it amounts to. *)

From stdpp Require Import base tactics list strings.
From Stdlib Require Import ZArith Lia Bool Ascii String List.
From S2P Require Import Prelude GoLib GoStrings EnvSplit Wrappers ShellGrammar ShellSyntax Launchers CommandIdentity.

(** ** Protected roots and devices *)

Definition hardlineProtectedRoots : list string := ["/"; "/home"; "/etc"; "/usr"; "/var"; "/boot"].

Definition hardlineDiskDevices : list string :=
  ["/dev/sd"; "/dev/nvme"; "/dev/hd"; "/dev/vd"; "/dev/xvd"; "/dev/disk"; "/dev/rdisk"].

Definition quotes : string := String quote_byte "'".

Definition hardlineDiskDevice (target : string) : option string :=
  let target := ToLower (str_filter (fun c => negb (Ascii.eqb c "\")) (Trim target quotes)) in
  List.find (HasPrefix target) hardlineDiskDevices.

(** Backslashes are slashes. *)
Definition cleanShellPathTarget (target : string) : string := path_Clean (ReplaceAll target "\" "/").

(** The home directory however it is spelled, and whether it was. *)
Definition expand_home (home t : string) : string * bool :=
  let spelled := fun spelling => match CutPrefix t spelling with
    | Some rest => if (rest =? "")%string || HasPrefix rest "/" then Some rest else None
    | None => None
    end in
  let expanded := fun rest => ((if (home =? "")%string then "$HOME" else home) +:+ rest, true) in
  match spelled "${HOME}" with
  | Some rest => expanded rest
  | None => match spelled "$HOME" with
    | Some rest => expanded rest
    | None => match spelled "~" with Some rest => expanded rest | None => (t, false) end
    end
  end.

(** Trailing globs collapsed. *)
Fixpoint collapse_globs (fuel : nat) (clean : string) : string :=
  match fuel with
  | O => clean
  | S fuel =>
      match CutSuffix clean "/*" with
      | None => clean
      | Some collapsed => collapse_globs fuel (if (collapsed =? "")%string then "/" else collapsed)
      end
  end.

Definition hardlineProtectedRootTarget (target home : string) : option string :=
  let '(t, homeSpelled) := expand_home home (Trim target quotes) in
  let clean := cleanShellPathTarget t in
  let clean := collapse_globs (String.length clean) clean in
  if in_set hardlineProtectedRoots clean then Some clean else
  if (clean =? "$HOME")%string || negb (home =? "")%string && (clean =? cleanShellPathTarget home)%string
  then Some (if homeSpelled then "$HOME" else clean) else None.

(** One argument of rm: whether it asks for recursion, and the target it names. *)
Definition rm_recursive (f : string) : bool :=
  if (f =? "--recursive")%string || (f =? "--no-preserve-root")%string then true else
  if HasPrefix f "--" then false else HasPrefix f "-" && ContainsAny f "rR".
Definition rm_target (f : string) : bool := negb (HasPrefix f "-").

Fixpoint first_some {A B} (f : A -> option B) (l : list A) : option B :=
  match l with
  | [] => None
  | x :: l => match f x with Some b => Some b | None => first_some f l end
  end.

Definition hardlineRmProtectedRoot (rest : list string) (home : string) : option string :=
  if existsb rm_recursive rest
  then first_some (fun t => hardlineProtectedRootTarget t home) (List.filter rm_target rest) else None.

Example protected_roots : map (fun t => hardlineProtectedRootTarget t "/Users/me")
    ["/"; "/*"; "~/"; "$HOME/.."; "/etc/../etc/"; "'/usr'"; "/tmp"; "~x"; "/Users/me/*"] =
  [Some "/"; Some "/"; Some "$HOME"; None; Some "/etc"; Some "/usr"; None; None; Some "/Users/me"].
Proof. reflexivity. Qed.

(** ** Power and disks *)

Definition systemctlOptions : prefixWrapper :=
  noWrapper
    <| valueFlags := ["-t"; "--type"; "-p"; "--property"; "-P"; "-s"; "--signal"; "-n"; "--lines"; "-o";
                   "--output"; "-H"; "--host"; "-M"; "--machine"; "-C"; "--capsule"; "--job-mode";
                   "--kill-whom"; "--kill-value"; "--what"; "--message"; "--root"; "--image";
                   "--image-policy"; "--preset-mode"; "--boot-loader-menu"; "--boot-loader-entry";
                   "--reboot-argument"; "--timestamp"; "--check-inhibitors"; "--legend"; "--drop-in";
                   "--when"; "--state"] |>.

Definition systemctlPowerVerbs : list string := ["reboot"; "poweroff"; "halt"; "kexec"; "soft-reboot"].

Definition power_target (unit : string) : bool :=
  match CutSuffix unit ".target" with Some target => in_set systemctlPowerVerbs target | None => false end.

Definition systemctlPowerVerb (args : list string) : option string :=
  match map fst (rd_rest (wrapperOptions systemctlOptions args)) with
  | [] => None
  | verb :: units =>
      if in_set systemctlPowerVerbs verb then Some verb else
      if in_set ["start"; "isolate"; "restart"] verb
      then option_map (fun unit => verb +:+ " " +:+ unit) (List.find power_target units) else None
  end.

Definition diskutilEraseVerbs : list string :=
  ["erasedisk"; "erasevolume"; "reformat"; "zerodisk"; "randomdisk"; "partitiondisk"; "secureerase"].

Definition erase_verb (args : list string) : option string :=
  match args with
  | [] => None
  | arg :: rest =>
      let verb := ToLower arg in
      if negb (in_set diskutilEraseVerbs verb) then None else
      if (verb =? "secureerase")%string && match rest with m :: _ => EqualFold m "freespace" | [] => false end
      then None else Some arg
  end.

Definition diskutilEraseVerb (args : list string) : option string :=
  match args with
  | quiet :: rest => erase_verb (if EqualFold quiet "quiet" then rest else args)
  | [] => None
  end.

(** ** Reading a find expression *)

Definition findPrimaryArity : list (string * nat) :=
  [("-depth", 0); ("-d", 0); ("-xdev", 0); ("-mount", 0); ("-x", 0);
   ("-follow", 0); ("-noleaf", 0); ("-ignore_readdir_race", 0);
   ("-noignore_readdir_race", 0); ("-daystart", 0); ("-warn", 0); ("-nowarn", 0);
   ("-maxdepth", 1); ("-mindepth", 1); ("-regextype", 1); ("-print", 0);
   ("-print0", 0); ("-ls", 0); ("-delete", 0); ("-prune", 0); ("-quit", 0);
   ("-printf", 1); ("-fprint", 1); ("-fprint0", 1); ("-fls", 1); ("-fprintf", 2);
   ("-files0-from", 1); ("-true", 0); ("-false", 0); ("-empty", 0); ("-nouser", 0);
   ("-nogroup", 0); ("-readable", 0); ("-writable", 0); ("-executable", 0);
   ("-acl", 0); ("-xattr", 0); ("-name", 1); ("-iname", 1); ("-path", 1);
   ("-ipath", 1); ("-wholename", 1); ("-iwholename", 1); ("-lname", 1);
   ("-ilname", 1); ("-regex", 1); ("-iregex", 1); ("-type", 1); ("-xtype", 1);
   ("-size", 1); ("-newer", 1); ("-anewer", 1); ("-cnewer", 1); ("-mnewer", 1);
   ("-mtime", 1); ("-atime", 1); ("-ctime", 1); ("-mmin", 1); ("-amin", 1);
   ("-cmin", 1); ("-used", 1); ("-user", 1); ("-group", 1); ("-uid", 1);
   ("-gid", 1); ("-perm", 1); ("-links", 1); ("-inum", 1); ("-samefile", 1);
   ("-fstype", 1); ("-context", 1); ("-flags", 1); ("-xattrname", 1); ("-Bmin", 1);
   ("-Bnewer", 1); ("-Btime", 1)].

Definition findAlwaysTrue : list string :=
  ["-depth"; "-d"; "-xdev"; "-mount"; "-x"; "-follow"; "-noleaf"; "-ignore_readdir_race";
   "-noignore_readdir_race"; "-daystart"; "-warn"; "-nowarn"; "-maxdepth"; "-mindepth"; "-regextype";
   "-print"; "-print0"; "-ls"; "-delete"; "-prune"; "-printf"; "-fprint"; "-fprint0"; "-fls";
   "-fprintf"; "-true"].

Definition findPatternTests : list string :=
  ["-name"; "-iname"; "-path"; "-ipath"; "-wholename"; "-iwholename"].

Record findSweep := mkSweep {
  fs_starts : list string; fs_deletes : bool; fs_commands : list (list string); fs_below : bool;
  fs_bounded : bool }.

#[export] Instance findSweep_eta : Eta findSweep := fun s =>
  mkSweep (fs_starts s) (fs_deletes s) (fs_commands s) (fs_below s) (fs_bounded s).

Record findCondition := mkCondition { mostlyTrue : bool; mostlyFalse : bool }.

Definition trivialFindTest (name : string) (args : list string) : bool :=
  let pattern := List.hd "" args in
  if in_set findPatternTests name then negb (pattern =? "")%string && (Trim pattern "*" =? "")%string
  else in_set ["-regex"; "-iregex"] name && (pattern =? ".*")%string.

(** BSD's [-depth n]. *)
Definition depth_test (name : string) (words : list string) : bool :=
  (name =? "-depth")%string && match words with
  | word :: _ => ContainsAny word digits && (Trim word "+-0123456789" =? "")%string
  | [] => false
  end.

(** The number of arguments a primary takes; [None] refuses the expression. *)
Definition primary_arity (name : string) (words : list string) : option nat :=
  if (name =? "-quit")%string || (name =? "-files0-from")%string then None else
  if HasPrefix name "-newer" && (String.length name =? 8)%nat then Some 1%nat else
  if depth_test name words then Some 1%nat else lookup_name findPrimaryArity name.

(** What a primary that runs no command notes. *)
Definition note_primary (reach : bool) (name : string) (args : list string) (sweep : findSweep) : findSweep :=
  if (name =? "-delete")%string then sweep <| fs_deletes := fs_deletes sweep || reach |> else
  if (name =? "-maxdepth")%string then
    let depth := TrimLeft (List.hd "" args) "0" in
    sweep <| fs_bounded := fs_bounded sweep || (depth =? "")%string || (depth =? "1")%string |>
  else if (name =? "-mindepth")%string then
    sweep <| fs_below := fs_below sweep || negb (TrimLeft (List.hd "" args) "0" =? "")%string |>
  else sweep.

Definition find_reading : Type := option (findCondition * list string * findSweep).

Definition primary_condition (name : string) (words args : list string) : findCondition :=
  if in_set findAlwaysTrue name && negb (depth_test name words) || trivialFindTest name args
  then mkCondition true false else mkCondition false true.

Definition read_primary (reach : bool) (name : string) (words : list string) (sweep : findSweep) : find_reading :=
  if in_set findCommandPrimaries name then
    let '(command, after) := findCommandEnd name words in
    let sweep := match command with
                 | [] => sweep
                 | _ => if reach then sweep <| fs_commands := fs_commands sweep ++ [command] |> else sweep
                 end in
    Some (mkCondition true true, after, sweep)
  else match primary_arity name words with
  | None => None
  | Some arity =>
      if (length words <? arity)%nat then None else
      let args := firstn arity words in
      Some (primary_condition name words args, skipn arity words, note_primary reach name args sweep)
  end.

Definition cond_not (c : findCondition) : findCondition := mkCondition (mostlyFalse c) (mostlyTrue c).
Definition cond_and (c d : findCondition) : findCondition :=
  mkCondition (mostlyTrue c && mostlyTrue d) (mostlyFalse c || mostlyFalse d).
Definition cond_or (c d : findCondition) : findCondition :=
  mkCondition (mostlyTrue c || mostlyTrue d) (mostlyFalse c && mostlyFalse d).

Definition find_not (word : string) : bool := in_set ["!"; "-not"] word.
Definition find_or (word : string) : bool := in_set ["-o"; "-or"] word.
Definition find_and (word : string) : bool := in_set ["-a"; "-and"] word.
Definition ends_and (word : string) : bool := in_set ["-o"; "-or"; ","; ")"] word.

(** The grammar, loosest first; a refused expression ends the reading. *)
Fixpoint read_list (n : nat) (reach : bool) (words : list string) (s : findSweep) : find_reading :=
  match n with
  | O => None
  | S n => match read_or n reach words s with
           | Some (c, words, s) => list_loop n reach c words s
           | None => None
           end
  end
with list_loop (n : nat) (reach : bool) (c : findCondition) (words : list string) (s : findSweep) : find_reading :=
  match n with
  | O => None
  | S n =>
      match words with
      | word :: rest =>
          if (word =? ",")%string then
            match read_or n reach rest s with
            | Some (c, words, s) => list_loop n reach c words s
            | None => None
            end
          else Some (c, words, s)
      | [] => Some (c, words, s)
      end
  end
with read_or (n : nat) (reach : bool) (words : list string) (s : findSweep) : find_reading :=
  match n with
  | O => None
  | S n => match read_and n reach words s with
           | Some (c, words, s) => or_loop n reach c words s
           | None => None
           end
  end
with or_loop (n : nat) (reach : bool) (c : findCondition) (words : list string) (s : findSweep) : find_reading :=
  match n with
  | O => None
  | S n =>
      match words with
      | word :: rest =>
          if find_or word then
            match read_and n (reach && mostlyFalse c) rest s with
            | Some (c2, words, s) => or_loop n reach (cond_or c c2) words s
            | None => None
            end
          else Some (c, words, s)
      | [] => Some (c, words, s)
      end
  end
with read_and (n : nat) (reach : bool) (words : list string) (s : findSweep) : find_reading :=
  match n with
  | O => None
  | S n => match read_unary n reach words s with
           | Some (c, words, s) => and_loop n reach c words s
           | None => None
           end
  end
with and_loop (n : nat) (reach : bool) (c : findCondition) (words : list string) (s : findSweep) : find_reading :=
  match n with
  | O => None
  | S n =>
      match words with
      | word :: rest =>
          if ends_and word then Some (c, words, s) else
          match read_unary n (reach && mostlyTrue c) (if find_and word then rest else words) s with
          | Some (c2, words, s) => and_loop n reach (cond_and c c2) words s
          | None => None
          end
      | [] => Some (c, words, s)
      end
  end
with read_unary (n : nat) (reach : bool) (words : list string) (s : findSweep) : find_reading :=
  match n with
  | O => None
  | S n =>
      match words with
      | [] => None
      | word :: rest =>
          if find_not word then
            match read_unary n reach rest s with
            | Some (c, words, s) => Some (cond_not c, words, s)
            | None => None
            end
          else if (word =? "(")%string then
            match read_list n reach rest s with
            | Some (c, close :: words, s) => if (close =? ")")%string then Some (c, words, s) else None
            | _ => None
            end
          else read_primary reach word rest s
      end
  end.

(** The fuel is what the words need; [read_list_fuel] shows that no reading needs
    more. *)
Definition read_fuel (words : list string) : nat := (8 * length words + 8)%nat.

(** ** The sweep of a find *)

(** The leading options, and the start paths [-f] names. *)
Fixpoint leading_options (args : list string) : list string * list string :=
  match args with
  | [] => ([], [])
  | arg :: rest =>
      if (arg =? "--")%string then ([], rest) else
      if (arg =? "-D")%string then match rest with [] => ([], []) | _ :: rest => leading_options rest end else
      if (arg =? "-f")%string then
        match rest with
        | [] => ([], [])
        | path :: rest => let '(starts, rest) := leading_options rest in (path :: starts, rest)
        end
      else if HasPrefix arg "-O" && (2 <? String.length arg)%nat then leading_options rest
      else if HasPrefix arg "-" && (1 <? String.length arg)%nat && (Trim (drop 1 arg) "HLPEXdsx" =? "")%string
      then leading_options rest
      else ([], args)
  end.

Definition begins_expression (arg : string) : bool :=
  HasPrefix arg "-" || in_set ["("; "!"; ","] arg.

Fixpoint start_paths (args : list string) : list string * list string :=
  match args with
  | arg :: rest =>
      if begins_expression arg then ([], args)
      else let '(starts, rest) := start_paths rest in (arg :: starts, rest)
  | [] => ([], [])
  end.

(** A [-maxdepth] of 0 or 1 bounds [-delete]. *)
Definition bound_sweep (s : findSweep) : findSweep := s <| fs_deletes := fs_deletes s && negb (fs_bounded s) |>.

(** [None] when the expression cannot be read. *)
Definition readFindSweep (args : list string) : option findSweep :=
  let '(named, args) := leading_options args in
  let '(starts, expression) := start_paths args in
  let starts := match named ++ starts with [] => ["."] | l => l end in
  let sweep := mkSweep starts false [] false false in
  match expression with
  | [] => Some (bound_sweep sweep)
  | _ => match read_list (read_fuel expression) true expression sweep with
         | Some (_, [], sweep) => Some (bound_sweep sweep)
         | _ => None
         end
  end.

Definition sweep_targets (sweep : findSweep) : list string :=
  if fs_below sweep then map (fun start => TrimRight start "/" +:+ "/*") (fs_starts sweep) else fs_starts sweep.

Example sweep_prune :
  option_map (fun s => (fs_starts s, fs_deletes s)) (readFindSweep ["/"; "-path"; "/proc"; "-prune"; "-o"; "-delete"]) =
  Some (["/"], true).
Proof. reflexivity. Qed.
Example sweep_narrow :
  option_map (fun s => (fs_commands s, fs_deletes s))
    (readFindSweep ["/"; "-name"; "*"; "-exec"; "rm"; "{}"; ";"; "-name"; "x"; "-delete"]) =
  Some ([["rm"; "{}"]], false).
Proof. reflexivity. Qed.

(** ** Verdicts *)

(** The verdict on a list: the first that is refused; [None] when a verdict does
    not come. *)
Fixpoint first_refused {A} (verdict : A -> option (option string)) (l : list A) : option (option string) :=
  match l with
  | [] => Some None
  | x :: l =>
      match verdict x with
      | Some None => first_refused verdict l
      | other => other
      end
  end.

Definition delete_reason (target : string) : string := "recursive delete of protected root: " +:+ target.
Definition redirect_reason (dev : string) : string := "redirects over raw disk device: " +:+ dev +:+ "*".
Definition overwrite_reason (dev : string) : string := "overwrites raw disk device: " +:+ dev +:+ "*".
Definition power_reason (what : string) : string := "powers down or reboots the host: " +:+ what.

Section Verdicts.
Context {syntax : BashSyntax}.

(** The commands a sweep runs on one target, with what they run in turn. *)
Definition sweep_reads (command : list string) (target : string) : list readCommand :=
  let words := map (fun word => ReplaceAll word "{}" target) command in
  appendWithScript 1 true (mkRead (identifyCommand words) [] true []).

Definition hardlineFindSweep (verdict : readCommand -> option (option string)) (args : list string) (home : string)
  : option (option string) :=
  match readFindSweep args with
  | None => Some None
  | Some sweep =>
      let targets := sweep_targets sweep in
      match (if fs_deletes sweep then hardlineRmProtectedRoot ("-r" :: targets) home else None) with
      | Some target => Some (Some (delete_reason target))
      | None =>
          first_refused (fun command =>
            first_refused (fun target => first_refused verdict (sweep_reads command target)) targets)
            (fs_commands sweep)
      end
  end.

Definition dd_device (arg : string) : option string :=
  match CutPrefix arg "of=" with Some target => hardlineDiskDevice target | None => None end.

(** What the floor says of a program by its name and arguments, find apart. *)
Definition program_refused (base : string) (rest : list string) (home : string) : option string :=
  match (if (base =? "dd")%string then first_some dd_device rest else None) with
  | Some dev => Some (overwrite_reason dev)
  | None =>
      if (base =? "mkfs")%string || HasPrefix base "mkfs." || (base =? "newfs")%string || HasPrefix base "newfs_"
      then Some ("formats a filesystem: " +:+ base) else
      if in_set ["shutdown"; "reboot"; "halt"; "poweroff"] base then Some (power_reason base) else
      if in_set ["init"; "telinit"] base && match rest with level :: _ => in_set ["0"; "6"] level | [] => false end
      then Some ("changes runlevel to halt/reboot: " +:+ base +:+ " " +:+ List.hd "" rest) else
      if (base =? "systemctl")%string
      then option_map (fun verb => power_reason ("systemctl " +:+ verb)) (systemctlPowerVerb rest) else
      if (base =? "diskutil")%string
      then option_map (fun verb => "erases a disk or volume: diskutil " +:+ verb) (diskutilEraseVerb rest) else
      if (base =? "rm")%string
      then option_map delete_reason (hardlineRmProtectedRoot rest home) else None
  end.

(** A find's commands are checked like any command, which may be finds again. *)
Fixpoint hardlineCommand (fuel : nat) (home : string) (read : readCommand) : option (option string) :=
  match fuel with
  | O => None
  | S fuel =>
      match first_some hardlineDiskDevice (rc_writes read) with
      | Some dev => Some (Some (redirect_reason dev))
      | None =>
          let base := ly_name (program (rc_id read)) in
          let rest := ly_args (program (rc_id read)) in
          if (base =? "find")%string then hardlineFindSweep (hardlineCommand fuel home) rest home
          else Some (program_refused base rest home)
      end
  end.

(** ** The floor *)

Inductive argument := ArgString (s : string) | ArgOther.

Definition execTools : list string :=
  ["terminal"; "verify"; "execute_command"; "shell"; "execute_code"; "watch_external"].
Definition isExecTool (name : string) : bool := in_set execTools name.

Definition payload_argument (args : list (string * argument)) (key : string) : option string :=
  match lookup_name args key with
  | Some (ArgString v) => if (TrimSpace v =? "")%string then None else Some v
  | _ => None
  end.

Definition execCommandPayload (toolName : string) (args : list (string * argument)) : string :=
  if negb (isExecTool toolName) then "" else
  match first_some (payload_argument args) ["command"; "code"; "script"] with Some v => v | None => "" end.

(** Devices named in the text of the payload. *)
Definition text_device (text : string) : option string :=
  first_some (fun dev =>
    if Contains text ("of=" +:+ dev) then Some (overwrite_reason dev) else
    if Contains text ("> " +:+ dev) || Contains text (">" +:+ dev) then Some (redirect_reason dev) else None)
    hardlineDiskDevices.

Definition fork_bomb (cmd : string) : bool := Contains (ReplaceAll cmd " " "") ":(){".

Definition unquote (cmd : string) : string :=
  str_filter (fun c => negb (Ascii.eqb c quote_byte || Ascii.eqb c "'" || Ascii.eqb c "\")) cmd.

(** [env_home] is the value of HOME. *)
Definition hardlineToolCall (fuel : nat) (env_home toolName : string) (args : list (string * argument))
  : option (option string) :=
  if negb (isExecTool toolName) then Some None else
  let cmd := execCommandPayload toolName args in
  if (TrimSpace cmd =? "")%string then Some None else
  if fork_bomb cmd then Some (Some "fork bomb (process-table exhaustion)") else
  match first_some text_device [ToLower cmd; ToLower (unquote cmd)] with
  | Some reason => Some (Some reason)
  | None => first_refused (hardlineCommand fuel (TrimRight env_home "/")) (effectiveCommands cmd)
  end.

End Verdicts.
