(* ===== verification/FindTheory.v ===== *)
(** * What a find expression does ([tools/hardline_find.go])

    The grammar of find's expressions with its evaluation on one entry, and the
    floor's recursive-descent reader against both: it reads exactly the grammar,
    and what evaluation does to an ordinary entry it reports. *)

From stdpp Require Import base tactics list strings.
From Stdlib Require Import ZArith Lia Bool Ascii String List.
From S2P Require Import Prelude GoLib GoStrings EnvSplit Wrappers ShellGrammar ShellSyntax Launchers CommandIdentity Hardline.

(** ** Expressions *)

Inductive find_expr :=
| Primary (name : string) (args : list string)
| Exec (name : string) (command : list string)
| Not (e : find_expr)
| And (a b : find_expr)
| Or (a b : find_expr)
| Comma (a b : find_expr).

(** A primary with its arguments as the words spell it. *)
Definition spelled_primary (name : string) (args : list string) : bool :=
  negb (in_set findCommandPrimaries name) && negb (find_not name) && negb (name =? "(")%string
  && match primary_arity name args with Some n => (n =? length args)%nat | None => false end.

Definition spelled_command (name : string) (words command : list string) : Prop :=
  In name findCommandPrimaries /\ findCommandEnd name words = (command, []) /\ words <> command.

(** The grammar: [,] binds loosest, then [-o], then [-a], written or implied. *)
Inductive in_unary : list string -> find_expr -> Prop :=
| U_primary name args : spelled_primary name args = true -> in_unary (name :: args) (Primary name args)
| U_exec name words command : spelled_command name words command -> in_unary (name :: words) (Exec name command)
| U_not word words e : find_not word = true -> in_unary words e -> in_unary (word :: words) (Not e)
| U_paren words e : in_list words e -> in_unary ("(" :: words ++ [")"]) e
with in_and : list string -> find_expr -> Prop :=
| A_one words e : in_unary words e -> in_and words e
| A_implied a b words1 words2 : in_and words1 a -> in_unary words2 b -> in_and (words1 ++ words2) (And a b)
| A_written word a b words1 words2 : find_and word = true -> in_and words1 a -> in_unary words2 b ->
    in_and (words1 ++ word :: words2) (And a b)
with in_or : list string -> find_expr -> Prop :=
| O_one words e : in_and words e -> in_or words e
| O_two word a b words1 words2 : find_or word = true -> in_or words1 a -> in_and words2 b ->
    in_or (words1 ++ word :: words2) (Or a b)
with in_list : list string -> find_expr -> Prop :=
| L_one words e : in_or words e -> in_list words e
| L_two a b words1 words2 : in_list words1 a -> in_or words2 b -> in_list (words1 ++ "," :: words2) (Comma a b).

Scheme in_unary_ind' := Induction for in_unary Sort Prop
with in_and_ind' := Induction for in_and Sort Prop
with in_or_ind' := Induction for in_or Sort Prop
with in_list_ind' := Induction for in_list Sort Prop.
Combined Scheme find_grammar_ind from in_unary_ind', in_and_ind', in_or_ind', in_list_ind'.

(** ** What the floor notes of an expression *)

Fixpoint condition (e : find_expr) : findCondition :=
  match e with
  | Primary name args => primary_condition name args args
  | Exec _ _ => mkCondition true true
  | Not e => cond_not (condition e)
  | And a b => cond_and (condition a) (condition b)
  | Or a b => cond_or (condition a) (condition b)
  | Comma _ b => condition b
  end.

Definition note_command (reach : bool) (command : list string) (s : findSweep) : findSweep :=
  match command with
  | [] => s
  | _ => if reach then s <| fs_commands := fs_commands s ++ [command] |> else s
  end.

Fixpoint note (reach : bool) (e : find_expr) (s : findSweep) : findSweep :=
  match e with
  | Primary name args => note_primary reach name args s
  | Exec _ command => note_command reach command s
  | Not e => note reach e s
  | And a b => note (reach && mostlyTrue (condition a)) b (note reach a s)
  | Or a b => note (reach && mostlyFalse (condition a)) b (note reach a s)
  | Comma a b => note reach b (note reach a s)
  end.

(** ** Evaluation on one entry *)

Inductive find_action := Deleted | Ran (command : list string).

(** An ordinary entry passes no real test; a command's exit status is its own. *)
Section Evaluation.
Variable status : list string -> bool.

Definition primary_value (name : string) (args : list string) : bool :=
  in_set findAlwaysTrue name && negb (depth_test name args) || trivialFindTest name args.

Fixpoint evaluate (e : find_expr) : list find_action * bool :=
  match e with
  | Primary name args => (if (name =? "-delete")%string then [Deleted] else [], primary_value name args)
  | Exec _ command => (match command with [] => [] | _ => [Ran command] end, status command)
  | Not e => let '(acts, v) := evaluate e in (acts, negb v)
  | And a b => let '(acts, v) := evaluate a in
      if v then let '(more, v) := evaluate b in (acts ++ more, v) else (acts, false)
  | Or a b => let '(acts, v) := evaluate a in
      if v then (acts, true) else let '(more, v) := evaluate b in (acts ++ more, v)
  | Comma a b => let '(more, v) := evaluate b in (fst (evaluate a) ++ more, v)
  end.

End Evaluation.

Definition reported (s : findSweep) (a : find_action) : Prop :=
  match a with Deleted => fs_deletes s = true | Ran command => In command (fs_commands s) end.

(** ** The reader's fuel *)

Definition consumes (words : list string) (r : find_reading) : Prop :=
  match r with Some (_, words', _) => (length words' < length words)%nat | None => True end.
Definition leaves (words : list string) (r : find_reading) : Prop :=
  match r with Some (_, words', _) => (length words' <= length words)%nat | None => True end.

Lemma find_command_from_length plus args : forall previous command after,
  find_command_from plus previous args = (command, after) -> (length after <= length args)%nat.
Proof.
  induction args as [|w args IH]; intros previous command after; simpl; [by intros [= <- <-]|].
  case_if; [intros [= <- <-]; lia|]. destruct (find_command_from plus (Some w) args) as [c a] eqn:E.
  intros [= <- <-]. apply IH in E. lia.
Qed.

Lemma read_primary_leaves reach name words s : leaves words (read_primary reach name words s).
Proof.
  unfold read_primary. case_if.
  - destruct (findCommandEnd name words) as [command after] eqn:E. simpl. by eapply find_command_from_length.
  - destruct (primary_arity name words) as [k|]; [|done]. case_if; [done|]. simpl. rewrite length_skipn. lia.
Qed.

Lemma leaves_trans words words' c s r :
  leaves words (Some (c, words', s)) -> leaves words' r -> leaves words r.
Proof. destruct r as [[[? w] ?]|]; simpl; [lia|done]. Qed.

Definition readers_leave (n : nat) : Prop :=
  (forall reach words s, leaves words (read_list n reach words s)) /\
  (forall reach c words s, leaves words (list_loop n reach c words s)) /\
  (forall reach words s, leaves words (read_or n reach words s)) /\
  (forall reach c words s, leaves words (or_loop n reach c words s)) /\
  (forall reach words s, leaves words (read_and n reach words s)) /\
  (forall reach c words s, leaves words (and_loop n reach c words s)) /\
  (forall reach words s, consumes words (read_unary n reach words s)).

(** One reading, and what a second reading of the rest leaves. *)
Lemma then_leaves words r (k : findCondition -> list string -> findSweep -> find_reading) :
  leaves words r -> (forall c w s, leaves w (k c w s)) ->
  leaves words (match r with Some (c, w, s) => k c w s | None => None end).
Proof. intros H Hk. destruct r as [[[c w] s]|]; [|done]. eapply leaves_trans; [exact H|apply Hk]. Qed.

Lemma leaves_weaken words words' r : (length words' <= length words)%nat -> leaves words' r -> leaves words r.
Proof. destruct r as [[[? ?] ?]|]; simpl; [lia|done]. Qed.

Lemma consumes_leaves words r : consumes words r -> leaves words r.
Proof. destruct r as [[[? ?] ?]|]; simpl; [lia|done]. Qed.

Lemma readers_leave_all n : readers_leave n.
Proof.
  induction n as [|n (Hl & Hll & Ho & Hol & Ha & Hal & Hu)]; [by repeat split|]. repeat split; intros *.
  - cbn [read_list]. apply then_leaves; [apply Ho|intros *; apply Hll].
  - cbn [list_loop]. destruct words as [|w rest]; [simpl; lia|]. case_if; [|simpl; lia].
    eapply leaves_weaken; [|apply then_leaves; [apply Ho|intros *; apply Hll]]. simpl; lia.
  - cbn [read_or]. apply then_leaves; [apply Ha|intros *; apply Hol].
  - cbn [or_loop]. destruct words as [|w rest]; [simpl; lia|]. case_if; [|simpl; lia].
    eapply leaves_weaken; [|apply then_leaves; [apply Ha|intros *; apply Hol]]. simpl; lia.
  - cbn [read_and]. apply then_leaves; [apply consumes_leaves, Hu|intros *; apply Hal].
  - cbn [and_loop]. destruct words as [|w rest]; [simpl; lia|]. case_if; [simpl; lia|].
    eapply leaves_weaken; [|apply then_leaves; [apply consumes_leaves, Hu|intros *; apply Hal]].
    case_if; simpl; lia.
  - cbn [read_unary]. destruct words as [|w rest]; [done|]. case_if; [|case_if].
    + specialize (Hu reach rest s). destruct (read_unary n reach rest s) as [[[c w'] s']|]; [|done]. simpl in *. lia.
    + specialize (Hl reach rest s). destruct (read_list n reach rest s) as [[[c [|close w']] s']|]; [done| |done].
      case_if; [|done]. simpl in *. lia.
    + pose proof (read_primary_leaves reach w rest s) as H.
      destruct (read_primary reach w rest s) as [[[c w'] s']|]; [|done]. simpl in *. lia.
Qed.

(** The fuel each reader needs on some words. *)
Definition enough (rank n : nat) (words : list string) : Prop := (8 * length words + rank < n)%nat.

Definition readers_agree (n m : nat) : Prop :=
  (forall reach words s, enough 6 n words -> enough 6 m words -> read_list n reach words s = read_list m reach words s) /\
  (forall reach c words s, enough 5 n words -> enough 5 m words ->
     list_loop n reach c words s = list_loop m reach c words s) /\
  (forall reach words s, enough 4 n words -> enough 4 m words -> read_or n reach words s = read_or m reach words s) /\
  (forall reach c words s, enough 3 n words -> enough 3 m words ->
     or_loop n reach c words s = or_loop m reach c words s) /\
  (forall reach words s, enough 2 n words -> enough 2 m words -> read_and n reach words s = read_and m reach words s) /\
  (forall reach c words s, enough 1 n words -> enough 1 m words ->
     and_loop n reach c words s = and_loop m reach c words s) /\
  (forall reach words s, enough 0 n words -> enough 0 m words ->
     read_unary n reach words s = read_unary m reach words s).

Lemma then_agree words r r' (k k' : findCondition -> list string -> findSweep -> find_reading) :
  r = r' -> leaves words r ->
  (forall c w s, (length w <= length words)%nat -> k c w s = k' c w s) ->
  match r with Some (c, w, s) => k c w s | None => None end =
  match r' with Some (c, w, s) => k' c w s | None => None end.
Proof. intros <- Hr Hk. destruct r as [[[c w] s]|]; [|done]. by apply Hk. Qed.

Ltac enough_lia := unfold enough in *; simpl in *; lia.

Lemma readers_agree_all n : forall m, readers_agree n m.
Proof.
  induction n as [|n IH]; intros m; [repeat split; intros *; enough_lia|].
  destruct m as [|m]; [repeat split; intros *; enough_lia|].
  destruct (IH m) as (Al & All & Ao & Aol & Aa & Aal & Au). clear IH.
  destruct (readers_leave_all n) as (Hl & Hll & Ho & Hol & Ha & Hal & Hu).
  repeat split; intros * Hn Hm.
  - cbn [read_list]. apply (then_agree words); [apply Ao; enough_lia|apply Ho|]. intros; apply All; enough_lia.
  - cbn [list_loop]. destruct words as [|w rest]; [done|]. case_if; [|done].
    apply (then_agree rest); [apply Ao; enough_lia|apply Ho|]. intros; apply All; enough_lia.
  - cbn [read_or]. apply (then_agree words); [apply Aa; enough_lia|apply Ha|]. intros; apply Aol; enough_lia.
  - cbn [or_loop]. destruct words as [|w rest]; [done|]. case_if; [|done].
    apply (then_agree rest); [apply Aa; enough_lia|apply Ha|]. intros; apply Aol; enough_lia.
  - cbn [read_and]. apply (then_agree words); [apply Au; enough_lia|apply consumes_leaves, Hu|].
    intros; apply Aal; enough_lia.
  - cbn [and_loop]. destruct words as [|w rest]; [done|]. case_if; [done|].
    set (here := if find_and w then rest else w :: rest).
    assert (length here <= S (length rest))%nat as Hlen by (subst here; case_if; simpl; lia).
    assert (read_unary n (reach && mostlyTrue c) here s = read_unary m (reach && mostlyTrue c) here s) as E
      by (apply Au; enough_lia).
    rewrite <- E. specialize (Hu (reach && mostlyTrue c) here s).
    destruct (read_unary n _ here s) as [[[c2 w2] s2]|]; [|done]. apply Aal; enough_lia.
  - cbn [read_unary]. destruct words as [|w rest]; [done|]. case_if; [|case_if; [|done]].
    + rewrite (Au reach rest s); [done|enough_lia..].
    + rewrite (Al reach rest s); [done|enough_lia..].
Qed.

(** Any two fuels above what the words need read the same. *)
Lemma read_list_fuel n m reach words s : (8 * length words + 6 < n)%nat -> (8 * length words + 6 < m)%nat ->
  read_list n reach words s = read_list m reach words s.
Proof. intros. by apply (readers_agree_all n m). Qed.

(** ** First words *)

Definition numeric (word : string) : bool := ContainsAny word digits && (Trim word "+-0123456789" =? "")%string.

(** Words after which [-depth] takes no argument. *)
Definition quiet (words : list string) : bool := match words with w :: _ => negb (numeric w) | [] => true end.

Lemma depth_test_quiet name args tail : quiet tail = true -> depth_test name (args ++ tail) = depth_test name args.
Proof.
  intros Hq. destruct args as [|a args]; [|done]. unfold depth_test. simpl. rewrite andb_false_r.
  destruct tail as [|w tail]; [by rewrite andb_false_r|]. simpl in Hq. fold (numeric w).
  apply negb_true_iff in Hq. by rewrite Hq, andb_false_r.
Qed.

Lemma str_rev_nil s : str_rev s = "" -> s = "".
Proof.
  unfold str_rev. destruct s as [|c s]; [done|]. simpl. intros H. exfalso.
  assert (forall l : list ascii, string_of_list_ascii (l ++ [c]) <> "") as Hn by (intros [|x l]; done).
  by apply (Hn (rev (list_ascii_of_string s))).
Qed.

Lemma trim_left_all p s : trim_left p s = "" -> str_all p s = true.
Proof.
  unfold str_all. induction s as [|c s IH]; [done|]. simpl. destruct (p c); [done|discriminate].
Qed.

Lemma str_all_rev p s : str_all p (str_rev s) = str_all p s.
Proof.
  unfold str_all, str_rev. rewrite list_ascii_of_string_of_list_ascii.
  induction (list_ascii_of_string s) as [|c l IH]; [done|]. simpl.
  rewrite forallb_app. simpl. rewrite IH. by destruct (p c), (forallb p l).
Qed.

(** A word that is trimmed away holds only bytes of the class. *)
Lemma Trim_nil s cutset : Trim s cutset = "" -> str_all (byte_in cutset) s = true.
Proof.
  unfold Trim, TrimRight. intros H. apply str_rev_nil, trim_left_all in H. rewrite str_all_rev in H.
  unfold TrimLeft in H. unfold str_all in *. induction s as [|c s IH]; [done|]. simpl in *.
  destruct (byte_in cutset c) eqn:E; [by apply IH|]. simpl in H. by rewrite E in H.
Qed.

Lemma numeric_newer name : HasPrefix name "-newer" = true -> numeric name = false.
Proof.
  intros H. unfold numeric. destruct (String.eqb_spec (Trim name "+-0123456789") "") as [E|_]; [|apply andb_false_r].
  apply Trim_nil in E. destruct name as [|c [|d name]].
  - done.
  - exfalso. revert H. unfold HasPrefix. cbn [String.prefix].
    destruct (ascii_dec "-" c); discriminate.
  - exfalso. revert H E. unfold HasPrefix. cbn [String.prefix].
    destruct (ascii_dec "-" c) as [<-|]; [|discriminate].
    destruct (ascii_dec "n" d) as [<-|]; discriminate.
Qed.

Definition plain_word (w : string) : bool := negb (numeric w) && negb (ends_and w) && negb (find_and w).

Lemma lookup_name_In {A} (table : list (string * A)) name v :
  lookup_name table name = Some v -> In name (map fst table).
Proof.
  unfold lookup_name. intros H. destruct (List.find _ table) as [[k w]|] eqn:E; [|done].
  apply find_some in E as [Hin Hk]. apply String.eqb_eq in Hk. simpl in Hk. subst. by apply (in_map fst) in Hin.
Qed.

(** What holds for every word of a set holds for a word in it. *)
Lemma in_set_all p set w : in_set set w = true -> forallb p set = true -> p w = true.
Proof. rewrite in_set_In. intros Hin Hall. by apply (forallb_In p set). Qed.

Lemma find_words_plain name : In name (map fst findPrimaryArity) -> plain_word name = true.
Proof. apply forallb_In. vm_compute. done. Qed.

Lemma newer_plain name : HasPrefix name "-newer" = true -> plain_word name = true.
Proof.
  intros H. unfold plain_word. rewrite (numeric_newer _ H). simpl.
  assert (forall l, forallb (fun x => negb (HasPrefix x "-newer")) l = true -> in_set l name = false) as Hl.
  { intros l Hl. apply not_true_is_false. rewrite in_set_In. intros Hin.
    apply (forallb_In _ _ _ Hl) in Hin. by rewrite H in Hin. }
  unfold ends_and, find_and. by rewrite !Hl.
Qed.

Lemma primary_plain name args : spelled_primary name args = true -> plain_word name = true.
Proof.
  unfold spelled_primary. rewrite !andb_true_iff. intros [_ H]. unfold primary_arity in H.
  case_if; [done|]. case_if; [apply andb_true_iff in Heqb0 as [Hp _]; by apply newer_plain|].
  case_if.
  - unfold depth_test in Heqb1. apply andb_true_iff in Heqb1 as [He _]. apply String.eqb_eq in He. by subst.
  - destruct (lookup_name findPrimaryArity name) eqn:E; [|done]. apply lookup_name_In in E. by apply find_words_plain.
Qed.

Lemma command_words name : In name findCommandPrimaries ->
  plain_word name = true /\ find_not name = false /\ (name =? "(")%string = false.
Proof.
  intros H. assert (forallb (fun n => plain_word n && negb (find_not n) && negb (n =? "(")%string)
    findCommandPrimaries = true) as Ha by (vm_compute; done).
  apply (forallb_In _ _ _ Ha) in H. rewrite !andb_true_iff, !negb_true_iff in H. tauto.
Qed.

Lemma not_word_plain w : find_not w = true -> plain_word w = true.
Proof. intros H. exact (in_set_all plain_word _ w H eq_refl). Qed.

Lemma unary_first words e : in_unary words e -> exists w rest, words = w :: rest /\ plain_word w = true.
Proof.
  destruct 1 as [name args H|name words command [H _]|word words e H _|words e _].
  - eauto using primary_plain.
  - destruct (command_words _ H) as [Hp _]. eauto.
  - eauto using not_word_plain.
  - by eexists _, _.
Qed.

Lemma plain_words w : plain_word w = true -> numeric w = false /\ ends_and w = false /\ find_and w = false.
Proof. unfold plain_word. rewrite !andb_true_iff, !negb_true_iff. tauto. Qed.

Lemma unary_quiet words e tail : in_unary words e -> quiet (words ++ tail) = true.
Proof. intros H. apply unary_first in H as (w & rest & -> & Hw). apply plain_words in Hw. simpl. by rewrite (proj1 Hw). Qed.

(** ** Primaries before what follows them *)

Lemma read_primary_spelled reach name args tail s :
  spelled_primary name args = true -> quiet tail = true ->
  read_primary reach name (args ++ tail) s =
  Some (condition (Primary name args), tail, note reach (Primary name args) s).
Proof.
  unfold spelled_primary. rewrite !andb_true_iff, !negb_true_iff. intros (((Hc & _) & _) & Ha) Hq.
  unfold read_primary. rewrite Hc.
  assert (primary_arity name (args ++ tail) = primary_arity name args) as ->
    by (unfold primary_arity; by rewrite depth_test_quiet).
  destruct (primary_arity name args) as [k|]; [|done]. apply Nat.eqb_eq in Ha as ->.
  rewrite length_app. destruct (Nat.ltb_spec (length args + length tail) (length args)) as [|_]; [lia|].
  rewrite firstn_app, Nat.sub_diag, firstn_O, app_nil_r, firstn_all, skipn_app, Nat.sub_diag, skipn_all.
  simpl. unfold primary_condition. by rewrite depth_test_quiet.
Qed.

(** A command that ends before the words do ends at the same word when more
    follow. *)
Lemma find_command_tail plus tail args : forall previous command,
  find_command_from plus previous args = (command, []) -> args <> command ->
  find_command_from plus previous (args ++ tail) = (command, tail).
Proof.
  induction args as [|w args IH]; intros previous command; simpl; [by intros [= <-] ?|].
  case_if; [by intros [= <- ->] _|].
  destruct (find_command_from plus (Some w) args) as [c a] eqn:E. intros [= <- ->] Hne.
  rewrite (IH (Some w) c E); [done|]. by intros ->.
Qed.

Lemma read_primary_exec reach name words command tail s :
  spelled_command name words command ->
  read_primary reach name (words ++ tail) s = Some (mkCondition true true, tail, note_command reach command s).
Proof.
  intros (Hn & Hc & Hne). unfold read_primary. apply in_set_In in Hn. rewrite Hn.
  unfold findCommandEnd in *. by rewrite (find_command_tail _ tail _ _ _ Hc Hne).
Qed.

(** ** The reader reads the grammar *)

Definition stops_and (tail : list string) : bool := match tail with w :: _ => ends_and w | [] => true end.
Definition stops_or (tail : list string) : bool :=
  match tail with w :: _ => in_set [","; ")"] w | [] => true end.
Definition stops_list (tail : list string) : bool := match tail with w :: _ => (w =? ")")%string | [] => true end.

Lemma stops_or_and tail : stops_or tail = true -> stops_and tail = true.
Proof.
  destruct tail as [|w tail]; [done|]. intros H. exact (in_set_all ends_and _ w H eq_refl).
Qed.

Lemma stops_list_or tail : stops_list tail = true -> stops_or tail = true.
Proof. destruct tail as [|w tail]; [done|]. simpl. intros H. apply String.eqb_eq in H. by subst. Qed.

Lemma stops_quiet tail : stops_and tail = true -> quiet tail = true.
Proof.
  destruct tail as [|w tail]; [done|]. intros H. exact (in_set_all (fun w => negb (numeric w)) _ w H eq_refl).
Qed.

Lemma stops_not_or tail : stops_or tail = true -> match tail with w :: _ => find_or w = false | [] => True end.
Proof.
  destruct tail as [|w tail]; [done|]. intros H. apply negb_true_iff.
  exact (in_set_all (fun w => negb (find_or w)) _ w H eq_refl).
Qed.

Lemma and_loop_stops n reach c tail s : stops_and tail = true -> and_loop (S n) reach c tail s = Some (c, tail, s).
Proof. intros H. cbn [and_loop]. destruct tail as [|w tail]; [done|]. simpl in H. by rewrite H. Qed.

Lemma or_loop_stops n reach c tail s : stops_or tail = true -> or_loop (S n) reach c tail s = Some (c, tail, s).
Proof. intros H. cbn [or_loop]. apply stops_not_or in H. destruct tail as [|w tail]; [done|]. by rewrite H. Qed.

Lemma list_loop_stops n reach c tail s : stops_list tail = true -> list_loop (S n) reach c tail s = Some (c, tail, s).
Proof.
  intros H. cbn [list_loop]. destruct tail as [|w tail]; [done|]. simpl in H. apply String.eqb_eq in H. by subst.
Qed.

Definition reads_unary (words : list string) (e : find_expr) : Prop :=
  forall reach tail s n, quiet tail = true -> enough 0 n (words ++ tail) ->
  read_unary n reach (words ++ tail) s = Some (condition e, tail, note reach e s).
Definition reads_and (words : list string) (e : find_expr) : Prop :=
  forall reach tail s n m, quiet tail = true -> enough 2 n (words ++ tail) -> enough 1 m tail ->
  read_and n reach (words ++ tail) s = and_loop m reach (condition e) tail (note reach e s).
Definition reads_or (words : list string) (e : find_expr) : Prop :=
  forall reach tail s n m, stops_and tail = true -> enough 4 n (words ++ tail) -> enough 3 m tail ->
  read_or n reach (words ++ tail) s = or_loop m reach (condition e) tail (note reach e s).
Definition reads_list (words : list string) (e : find_expr) : Prop :=
  forall reach tail s n m, stops_or tail = true -> enough 6 n (words ++ tail) -> enough 5 m tail ->
  read_list n reach (words ++ tail) s = list_loop m reach (condition e) tail (note reach e s).

Ltac fuel := unfold enough in *; repeat (rewrite ?length_app in *; simpl in *); lia.

Lemma and_loop_agree n m reach c words s : enough 1 n words -> enough 1 m words ->
  and_loop n reach c words s = and_loop m reach c words s.
Proof. apply (readers_agree_all n m). Qed.
Lemma or_loop_agree n m reach c words s : enough 3 n words -> enough 3 m words ->
  or_loop n reach c words s = or_loop m reach c words s.
Proof. apply (readers_agree_all n m). Qed.
Lemma list_loop_agree n m reach c words s : enough 5 n words -> enough 5 m words ->
  list_loop n reach c words s = list_loop m reach c words s.
Proof. apply (readers_agree_all n m). Qed.

Lemma reads_paren words e : reads_list words e -> reads_unary ("(" :: words ++ [")"]) e.
Proof.
  intros IH reach tail s n Hq Hn. destruct n as [|n]; [fuel|].
  rewrite <- app_comm_cons, <- app_assoc. cbn [read_unary app].
  change (find_not "(") with false. cbn [String.eqb Ascii.eqb Bool.eqb].
  rewrite (IH reach (")" :: tail) s n (S (8 * length (")" :: tail) + 5))); [|done|fuel|fuel].
  by rewrite list_loop_stops.
Qed.

(** A unary expression that follows in a conjunction. *)
Lemma reads_conjunct words1 words2 a b (between : list string) :
  reads_and words1 a -> reads_unary words2 b -> in_unary words2 b ->
  between = [] \/ (exists w, between = [w] /\ find_and w = true) ->
  reads_and (words1 ++ between ++ words2) (And a b).
Proof.
  intros Ha Hb Hu Hw reach tail s n m Hq Hn Hm. rewrite <- !app_assoc.
  assert (quiet (between ++ words2 ++ tail) = true) as Hq'.
  { destruct Hw as [->|(w & -> & Hw)]; [exact (unary_quiet words2 b tail Hu)|].
    exact (in_set_all (fun w => negb (numeric w)) _ w Hw eq_refl). }
  set (k := S (8 * length (between ++ words2 ++ tail) + 1)).
  rewrite (Ha reach (between ++ words2 ++ tail) s n k Hq'); [|fuel|subst k; fuel]. unfold k. cbn [and_loop].
  assert (enough 0 (8 * length (between ++ words2 ++ tail) + 1) (words2 ++ tail)) as He by fuel.
  destruct (unary_first words2 b Hu) as (w2 & rest2 & E2 & Hp). apply plain_words in Hp as (_ & Hp1 & Hp2).
  destruct Hw as [->|(w & -> & Hw)].
  - subst words2. cbn [app] in *. rewrite Hp1, Hp2.
    change (w2 :: rest2 ++ tail) with ((w2 :: rest2) ++ tail) in *. rewrite Hb by done. apply and_loop_agree; fuel.
  - cbn [app] in *. rewrite Hw. assert (ends_and w = false) as ->.
    { apply negb_true_iff. exact (in_set_all (fun w => negb (ends_and w)) _ w Hw eq_refl). }
    rewrite Hb by done. apply and_loop_agree; fuel.
Qed.

Lemma reads_grammar :
  (forall words e, in_unary words e -> reads_unary words e) /\
  (forall words e, in_and words e -> reads_and words e) /\
  (forall words e, in_or words e -> reads_or words e) /\
  (forall words e, in_list words e -> reads_list words e).
Proof.
  apply (find_grammar_ind (fun words e _ => reads_unary words e) (fun words e _ => reads_and words e)
           (fun words e _ => reads_or words e) (fun words e _ => reads_list words e)).
  - intros name args H reach tail s n Hq Hn. destruct n as [|n]; [fuel|].
    cbn [read_unary app]. rewrite read_primary_spelled by done.
    unfold spelled_primary in H. rewrite !andb_true_iff, !negb_true_iff in H. destruct H as (((_ & ->) & ->) & _). done.
  - intros name words command H reach tail s n Hq Hn. destruct n as [|n]; [fuel|].
    cbn [read_unary app]. rewrite (read_primary_exec _ _ _ _ _ _ H).
    destruct H as [H _]. apply command_words in H as (_ & -> & ->). done.
  - intros word words e Hw _ IH reach tail s n Hq Hn. destruct n as [|n]; [fuel|].
    cbn [read_unary app]. rewrite Hw, IH; [done|done|fuel].
  - intros words e _ IH. by apply reads_paren.
  - intros words e _ IH reach tail s n m Hq Hn Hm. destruct n as [|n]; [fuel|].
    cbn [read_and]. rewrite IH; [|done|fuel]. apply and_loop_agree; fuel.
  - intros a b words1 words2 _ IHa Hb IHb. by apply (reads_conjunct words1 words2 a b []); auto.
  - intros word a b words1 words2 Hw _ IHa Hb IHb.
    apply (reads_conjunct words1 words2 a b [word]); eauto.
  - intros words e _ IH reach tail s n m Hq Hn Hm. destruct n as [|n]; [fuel|].
    cbn [read_or]. rewrite (IH reach tail s n (S (8 * length tail + 1))); [|by apply stops_quiet|fuel|fuel].
    rewrite and_loop_stops by done. apply or_loop_agree; fuel.
  - intros word a b words1 words2 Hw _ IHa _ IHb reach tail s n m Hq Hn Hm. rewrite <- app_assoc. cbn [app].
    assert (stops_and (word :: words2 ++ tail) = true) as Hs by exact (in_set_all ends_and _ word Hw eq_refl).
    rewrite (IHa reach (word :: words2 ++ tail) s n (S (8 * length (word :: words2 ++ tail) + 3))); [|done|fuel|fuel].
    cbn [or_loop]. rewrite Hw.
    rewrite (IHb _ tail _ _ (S (8 * length tail + 1))); [|by apply stops_quiet|fuel|fuel].
    rewrite and_loop_stops by done. apply or_loop_agree; fuel.
  - intros words e _ IH reach tail s n m Hq Hn Hm. destruct n as [|n]; [fuel|].
    cbn [read_list]. rewrite (IH reach tail s n (S (8 * length tail + 3))); [|by apply stops_or_and|fuel|fuel].
    rewrite or_loop_stops by done. apply list_loop_agree; fuel.
  - intros a b words1 words2 _ IHa _ IHb reach tail s n m Hq Hn Hm. rewrite <- app_assoc. cbn [app].
    rewrite (IHa reach ("," :: words2 ++ tail) s n (S (8 * length ("," :: words2 ++ tail) + 5))); [|done|fuel|fuel].
    cbn [list_loop]. rewrite String.eqb_refl.
    rewrite (IHb reach tail _ _ (S (8 * length tail + 3))); [|by apply stops_or_and|fuel|fuel].
    rewrite or_loop_stops by done. apply list_loop_agree; fuel.
Qed.

(** ** What evaluation does is reported *)

Lemma note_primary_keeps reach name args s a : reported s a -> reported (note_primary reach name args s) a.
Proof. unfold note_primary. repeat case_if; destruct a; simpl; try done. by intros ->. Qed.

Lemma note_keeps e : forall reach s a, reported s a -> reported (note reach e s) a.
Proof.
  induction e as [name args|name command|e IH|a1 IHa b IHb|a1 IHa b IHb|a1 IHa b IHb]; intros reach s a H; simpl; auto.
  - by apply note_primary_keeps.
  - unfold note_command. destruct command; [done|]. case_if; [|done]. destruct a; [done|]. simpl. apply in_or_app. by left.
Qed.

(** The condition covers the value, and every action is reported. *)
Definition covers (c : findCondition) (v : bool) : Prop := if v then mostlyTrue c = true else mostlyFalse c = true.

Lemma covers_not c v : covers c v -> covers (cond_not c) (negb v).
Proof. by destruct v. Qed.
Lemma covers_and_false c d : covers c false -> covers (cond_and c d) false.
Proof. simpl. by intros ->. Qed.
Lemma covers_and c d v : covers c true -> covers d v -> covers (cond_and c d) v.
Proof. destruct v; simpl; [by intros -> ->|by intros _ ->; rewrite orb_true_r]. Qed.
Lemma covers_or_true c d : covers c true -> covers (cond_or c d) true.
Proof. simpl. by intros ->. Qed.
Lemma covers_or c d v : covers c false -> covers d v -> covers (cond_or c d) v.
Proof. destruct v; simpl; [by intros _ ->; rewrite orb_true_r|by intros -> ->]. Qed.

Lemma primary_covers name args : covers (primary_condition name args args) (primary_value name args).
Proof. unfold primary_condition, primary_value. by case_if; simpl. Qed.

Lemma evaluate_covered status e : forall s,
  covers (condition e) (snd (evaluate status e)) /\
  forall a, In a (fst (evaluate status e)) -> reported (note true e s) a.
Proof.
  induction e as [name args|name command|e IH|a IHa b IHb|a IHa b IHb|a IHa b IHb]; intros s; simpl.
  - split; [apply primary_covers|]. unfold note_primary. intros act. case_if; [|done]. intros [<-|[]]. simpl. apply orb_true_r.
  - split; [by destruct (status command)|]. intros act. destruct command; [done|]. intros [<-|[]]. simpl. apply in_or_app. simpl. tauto.
  - destruct (IH s) as [Hc Ha]. destruct (evaluate status e) as [acts v]. split; [by apply covers_not|done].
  - destruct (IHa s) as [Hc Ha]. destruct (evaluate status a) as [acts [|]]; simpl in *.
    + rewrite Hc. destruct (IHb (note true a s)) as [Hc' Hb]. destruct (evaluate status b) as [more v].
      split; [by apply covers_and|]. intros act Hin. apply in_app_or in Hin as [Hin|Hin]; [apply note_keeps|]; auto.
    + split; [by apply covers_and_false|]. intros act Hin. apply note_keeps. auto.
  - destruct (IHa s) as [Hc Ha]. destruct (evaluate status a) as [acts [|]]; simpl in *.
    + split; [by apply covers_or_true|]. intros act Hin. apply note_keeps. auto.
    + rewrite Hc. destruct (IHb (note true a s)) as [Hc' Hb]. destruct (evaluate status b) as [more v].
      split; [by apply covers_or|]. intros act Hin. apply in_app_or in Hin as [Hin|Hin]; [apply note_keeps|]; auto.
  - destruct (IHa s) as [_ Ha]. destruct (IHb (note true a s)) as [Hc' Hb]. destruct (evaluate status b) as [more v].
    split; [done|]. intros act Hin. apply in_app_or in Hin as [Hin|Hin]; [apply note_keeps|]; auto.
Qed.

(** ** A whole command line of find *)

Lemma unary_begins words e : in_unary words e -> match words with w :: _ => begins_expression w = true | [] => False end.
Proof.
  destruct 1 as [name args H|name words command [H _]|word words e H _|words e _].
  - unfold spelled_primary in H. rewrite !andb_true_iff in H. destruct H as [_ H]. unfold primary_arity in H.
    case_if; [done|]. case_if; [|case_if].
    + apply andb_true_iff in Heqb0 as [Hp _]. destruct name as [|c name]; [done|].
      unfold begins_expression. revert Hp. unfold HasPrefix. cbn [String.prefix].
      destruct (ascii_dec "-" c); [|discriminate]. by destruct name.
    + unfold depth_test in Heqb1. apply andb_true_iff in Heqb1 as [He _]. apply String.eqb_eq in He. by subst.
    + destruct (lookup_name findPrimaryArity name) eqn:E; [|done]. apply lookup_name_In, in_set_In in E.
      exact (in_set_all begins_expression _ name E eq_refl).
  - apply in_set_In in H. exact (in_set_all begins_expression _ name H eq_refl).
  - exact (in_set_all begins_expression _ word H eq_refl).
  - done.
Qed.

Definition first_begins (words : list string) : Prop :=
  match words with w :: _ => begins_expression w = true | [] => False end.

Lemma first_begins_app words more : first_begins words -> first_begins (words ++ more).
Proof. by destruct words. Qed.

Lemma grammar_begins :
  (forall words e, in_and words e -> first_begins words) /\
  (forall words e, in_or words e -> first_begins words) /\
  (forall words e, in_list words e -> first_begins words).
Proof.
  assert (forall words e, in_and words e -> first_begins words) as Ha.
  { induction 1; [by eapply unary_begins|by apply first_begins_app..]. }
  assert (forall words e, in_or words e -> first_begins words) as Ho.
  { induction 1; [by eapply Ha|by apply first_begins_app]. }
  repeat split; [done|done|]. induction 1; [by eapply Ho|by apply first_begins_app].
Qed.

Lemma start_paths_app starts words : forallb (fun s => negb (begins_expression s)) starts = true ->
  first_begins words -> start_paths (starts ++ words) = (starts, words).
Proof.
  intros Hs Hw. induction starts as [|s starts IH]; simpl.
  - destruct words as [|w words]; [done|]. simpl in *. by rewrite Hw.
  - simpl in Hs. apply andb_true_iff in Hs as [Hs Hr]. apply negb_true_iff in Hs. by rewrite Hs, (IH Hr).
Qed.

(** A command line of find: leading options, start paths and an expression. *)
Definition find_line (args named starts words : list string) (e : find_expr) : Prop :=
  leading_options args = (named, starts ++ words) /\
  forallb (fun s => negb (begins_expression s)) starts = true /\ in_list words e.

Definition swept (named starts : list string) (e : find_expr) : findSweep :=
  note true e (mkSweep (match named ++ starts with [] => ["."] | l => l end) false [] false false).

Lemma find_line_read args named starts words e : find_line args named starts words e ->
  readFindSweep args =
  Some (bound_sweep (swept named starts e)).
Proof.
  intros (Hl & Hs & He). unfold readFindSweep. rewrite Hl.
  pose proof (proj2 (proj2 grammar_begins) words e He) as Hb. rewrite start_paths_app by done.
  destruct words as [|w words]; [done|]. fold (swept named starts e).
  pose proof (proj2 (proj2 (proj2 reads_grammar)) _ _ He true []) as Hr. rewrite app_nil_r in Hr.
  rewrite (Hr _ (read_fuel (w :: words)) 6%nat); [done|done|unfold enough, read_fuel; lia|unfold enough; simpl; lia].
Qed.

Lemma note_starts e : forall reach s, fs_starts (note reach e s) = fs_starts s.
Proof.
  induction e as [name args|name command|e IH|a IHa b IHb|a IHa b IHb|a IHa b IHb]; intros reach s; simpl;
    rewrite ?IHb, ?IHa; auto.
  - unfold note_primary. by repeat case_if.
  - unfold note_command. destruct command; [done|]. by case_if.
Qed.
