(* ===== verification/FloorTheory.v ===== *)
(** * What the command readings keep

    Facts on identification and on the floor that the properties of the safety
    floor share: assignments and option-free wrappers change neither the program
    nor what it runs, and the verdict looks at the program and its writes only. *)

From stdpp Require Import base tactics list strings.
From Stdlib Require Import ZArith Lia Bool Ascii String List.
From S2P Require Import Prelude GoLib GoStrings EnvSplit Wrappers ShellGrammar ShellSyntax Launchers CommandIdentity Hardline.

(** ** Words before the program *)

(** A wrapper that reads nothing of its own before its command. *)
Definition bare_wrapper (w : prefixWrapper) : bool :=
  (operands w =? 0)%nat && negb (duration w) && negb (joinsScript w) && negb (replacesBraces w)
  && match terminators w with [] => true | _ => false end.

(** Names identification does not read as a wrapper's. *)
Definition reads_itself (name : string) : bool :=
  is_shell name || in_set ["su"; "runuser"; "find"; "eval"] name.

Definition wraps_plainly (word : string) : bool :=
  negb (HasPrefix word "-") && negb (is_assignment word) && negb (reads_itself (programName word))
  && match lookup_name prefixWrappers (programName word) with Some w => bare_wrapper w | None => false end.

Definition prefix_word (word : string) : bool :=
  is_assignment word && negb (HasPrefix word "-") || wraps_plainly word.

Definition wrappers_in (pre : list string) : nat := length (List.filter (fun w => negb (is_assignment w)) pre).

(** A word that runs as a program of its own. *)
Definition own_program (word : string) : bool :=
  negb (HasPrefix word "-") && negb (is_assignment word)
  && match lookup_name prefixWrappers (programName word) with
     | Some _ => reads_itself (programName word) && negb (programName word =? "runuser")%string
     | None => true
     end.

Example prefixes : map prefix_word ["sudo"; "/usr/bin/env"; "FOO=a/b"; "nohup"; "timeout"; "parallel"; "bash"; "-i"] =
  [true; true; true; true; false; false; false; false].
Proof. reflexivity. Qed.
Example own_programs : map own_program ["rm"; "find"; "sh"; "sudo"; "A=b"; "-x"] = [true; true; true; false; false; false].
Proof. reflexivity. Qed.

(** What a command is apart from where its words came from. *)
Record same_command (d d0 : commandIdentity) : Prop := {
  sc_word : ly_word (program d) = ly_word (program d0);
  sc_name : ly_name (program d) = ly_name (program d0);
  sc_args : ly_args (program d) = ly_args (program d0);
  sc_script : id_script d = id_script d0;
  sc_nested : id_nested d = id_nested d0;
  sc_opaque : id_opaque d = id_opaque d0;
  sc_replaced : rs_empty (id_replaced d) = true /\ rs_empty (id_replaced d0) = true }.

Lemma rs_empty_nothing r word : rs_empty r = true -> replaces r word = false.
Proof. unfold rs_empty, replaces. destruct r as [[|x l] [|]]; done. Qed.

Section Identify.
Context {syntax : BashSyntax}.

Lemma program_add layer d : program (add_layer layer d) = layer.
Proof. unfold program, add_layer. simpl. apply last_last. Qed.

Lemma program_opaque b d : program (or_opaque b d) = program d.
Proof. done. Qed.

(** A wrapper that reads nothing unwraps to its arguments. *)
Lemma unwrap_bare w arg args : bare_wrapper w = true -> HasPrefix arg "-" = false ->
  unwrap w (arg :: args) =
  no_command <| uc_inner := indexed (arg :: args) |> <| uc_replaced := no_replacements |>.
Proof.
  unfold bare_wrapper. rewrite !andb_true_iff, !negb_true_iff. intros ((((Ho & Hd) & Hj) & Hb) & Ht) Hp.
  apply Nat.eqb_eq in Ho. destruct (terminators w) as [|] eqn:Et; [|done].
  unfold unwrap. rewrite wrapperOptions_none by done.
  assert (exists l, indexed (arg :: args) = (arg, 0%nat) :: l) as [l ->] by (by eexists).
  cbn [rd_options rd_rest rd_complete rd_substituted unwrap_options negb orb uc_runsNothing no_command].
  unfold command. rewrite Ho. cbn [Nat.ltb Nat.leb skipn]. unfold operand_script. rewrite Ho. cbn [Nat.ltb Nat.leb andb].
  unfold skip_duration. rewrite Hd. cbn [andb]. unfold read_template, add_replacements, newInvocation. cbn [iv_terminators].
  assert (forall l : list (string * nat), split_template [] l = (l, [])) as Hs
    by (intros l'; induction l' as [|[x i] l' IH]; [done|]; simpl; by rewrite IH).
  simpl. rewrite Et, Hs, Hj, Hb. done.
Qed.

(** What a program of its own runs: a script, commands, and what is hidden. *)
Definition own_run (p : string) (args : list string) : option string * list (list string) * bool :=
  match shell_like (programName p) args with
  | Some run => (script_of run, [], sr_opaque run)
  | None =>
      if (programName p =? "find")%string then (None, findCommands args, false) else
      if (programName p =? "eval")%string
      then (match args with [] => None | _ => Some (StringsJoin args " ") end, [], false)
      else (None, [], false)
  end.

Definition fresh (d : commandIdentity) : Prop :=
  id_script d = None /\ id_nested d = [] /\ rs_empty (id_replaced d) = true.

(** The program and what it runs, as the command alone would have them. *)
Record runs_own (hidden : bool) (p : string) (args : list string) (d : commandIdentity) : Prop := {
  ro_word : ly_word (program d) = p;
  ro_name : ly_name (program d) = programName p;
  ro_args : ly_args (program d) = args;
  ro_run : (id_script d, id_nested d, id_opaque d) =
           (fst (fst (own_run p args)), snd (fst (own_run p args)), hidden || snd (own_run p args));
  ro_replaced : rs_empty (id_replaced d) = true }.

Lemma own_program_not_assignment p : own_program p = true -> is_assignment p = false /\ HasPrefix p "-" = false.
Proof. unfold own_program. rewrite !andb_true_iff, !negb_true_iff. tauto. Qed.

Lemma leading_assigns_app pre (ws : list (string * nat)) : forall l : list (string * nat), map fst l = pre ++ map fst ws ->
  forallb is_assignment pre = true -> (match ws with (w, _) :: _ => is_assignment w = false | [] => True end) ->
  exists i, leading_assigns l = (pre, skipn i l) /\ map fst (skipn i l) = map fst ws.
Proof.
  induction pre as [|a pre IH]; intros l Hl Hp Hw.
  - exists 0%nat. split; [|done]. simpl. destruct l as [|[w i] l], ws as [|[w' i'] ws]; try done. simpl in *.
    injection Hl as -> _. by rewrite Hw.
  - destruct l as [|[w i] l]; [done|]. simpl in *. injection Hl as -> Hl. apply andb_true_iff in Hp as [-> Hp].
    destruct (IH l Hl Hp Hw) as (k & E & Hk). exists (S k). by rewrite E.
Qed.

(** The program itself: its identity ends there. *)
Lemma identify_own depth end_ d ws assigns p i rest :
  leading_assigns ws = (assigns, (p, i) :: rest) -> own_program p = true -> fresh d ->
  runs_own (id_opaque d) p (map fst rest) (identify depth end_ d ws).
Proof.
  intros E Hp (Hs & Hn & Hr).
  assert (lookup_name prefixWrappers (programName p) = None \/
          is_shell (programName p) = true \/ programName p = "su" \/ programName p = "find" \/ programName p = "eval") as Hw.
  { unfold own_program, reads_itself in Hp. rewrite !andb_true_iff in Hp. destruct Hp as [_ Hp].
    destruct (lookup_name prefixWrappers (programName p)); [|by left]. right.
    rewrite andb_true_iff, orb_true_iff, negb_true_iff, in_set_In in Hp. destruct Hp as [[?|Hin] Hru]; [by left|].
    simpl in Hin. apply String.eqb_neq in Hru. destruct Hin as [<-|[Hin|[<-|[<-|[]]]]]; [tauto| |tauto|tauto]. by rewrite Hin in Hru. }
  pose proof (eq_refl : own_run p (map fst rest) = own_run p (map fst rest)) as Hown. unfold own_run at 2 in Hown.
  destruct (shell_like (programName p) (map fst rest)) as [run|] eqn:Es.
  { destruct depth; cbn [identify]; rewrite E; cbv zeta; rewrite Es, (rs_empty_nothing _ p Hr).
    all: split; rewrite ?program_opaque, ?program_add; try done; rewrite Hown; simpl; by rewrite Hn, orb_false_r. }
  assert (lookup_name prefixWrappers (programName p) = None \/ programName p = "find" \/ programName p = "eval") as Hno.
  { destruct Hw as [H|[H|[H|[H|H]]]]; [tauto| | |tauto|tauto]; exfalso; revert Es; unfold shell_like.
    - by rewrite H.
    - rewrite H. by destruct (is_shell "su"). }
  destruct depth; cbn [identify]; rewrite E; cbv zeta; rewrite Es, (rs_empty_nothing _ p Hr).
  all: destruct (String.eqb_spec (programName p) "find") as [Ef|Ef];
    [|destruct (String.eqb_spec (programName p) "eval") as [Ev|Ev];
      [|destruct Hno as [Hno|[|]]; [rewrite Hno|done|done]]].
  all: try (destruct (map fst rest) eqn:Em); split; rewrite ?program_opaque, ?program_add; try done;
    rewrite ?Em, Hown; simpl; by rewrite ?Hs, ?Hn, !orb_false_r.
Qed.

Lemma indexed_strings l : map fst (indexed l) = l.
Proof. apply indexed_fst. Qed.

Lemma wraps_plainly_spec word : wraps_plainly word = true ->
  HasPrefix word "-" = false /\ is_assignment word = false /\ reads_itself (programName word) = false /\
  exists w, lookup_name prefixWrappers (programName word) = Some w /\ bare_wrapper w = true.
Proof.
  unfold wraps_plainly. rewrite !andb_true_iff, !negb_true_iff. intros (((H1 & H2) & H3) & H4).
  destruct (lookup_name prefixWrappers (programName word)) as [w|]; [|done]. eauto 10.
Qed.

(** Leading assignments, up to the first word that is none. *)
Lemma leading_split pre : exists assigns rest, pre = assigns ++ rest /\ forallb is_assignment assigns = true /\
  match rest with w :: _ => is_assignment w = false | [] => True end.
Proof.
  induction pre as [|w pre (a & r & -> & Ha & Hr)]; [by exists [], []|].
  destruct (is_assignment w) eqn:E; [exists (w :: a), r|exists [], (w :: a ++ r)]; simpl; by rewrite ?E.
Qed.

Lemma prefix_starts w : prefix_word w = true -> HasPrefix w "-" = false.
Proof.
  unfold prefix_word. rewrite orb_true_iff, andb_true_iff, negb_true_iff. intros [[_ ?]|H]; [done|].
  by destruct (wraps_plainly_spec _ H).
Qed.

(** Peeling one wrapper. *)
Lemma identify_wrapper depth end_ d ws assigns word i rest w :
  leading_assigns ws = (assigns, (word, i) :: rest) -> wraps_plainly word = true -> fresh d ->
  lookup_name prefixWrappers (programName word) = Some w -> bare_wrapper w = true ->
  (match map fst rest with arg :: _ => HasPrefix arg "-" = false | [] => False end) ->
  exists d' ws', identify (S depth) end_ d ws = identify depth end_ d' ws' /\ fresh d' /\ id_opaque d' = id_opaque d /\
    map fst ws' = map fst rest.
Proof.
  intros E Hp (Hs & Hn & Hr) Hw Hb Harg. apply wraps_plainly_spec in Hp as (_ & _ & Hself & _).
  unfold reads_itself in Hself. apply orb_false_iff in Hself as [Hsh Hset]. cbn [identify]. rewrite E. cbv zeta.
  rewrite (rs_empty_nothing _ word Hr).
  assert (forall n, In n ["su"; "runuser"; "find"; "eval"] -> (programName word =? n)%string = false) as Hne.
  { intros n Hin. apply String.eqb_neq. intros En. apply in_set_In in Hin. rewrite <- En in Hin. by rewrite Hin in Hset. }
  unfold shell_like. rewrite Hsh, !Hne by (simpl; tauto). cbn [orb andb]. rewrite Hw.
  destruct (map fst rest) as [|arg args] eqn:Em; [done|]. rewrite unwrap_bare by done.
  cbn [uc_hasScript uc_inner no_command]. change (indexed (arg :: args)) with ((arg, 0%nat) :: combine args (seq 1 (length args))).
  cbn [uc_hasScript uc_inner uc_replaced no_command].
  eexists _, _. split; [done|]. split; [|split].
  - split; [done|split; [done|]]. simpl. done.
  - simpl. by rewrite orb_false_r.
  - unfold inner_words. rewrite map_map. simpl. f_equal. pose proof (indexed_strings (arg :: args)) as H.
    unfold indexed in H. simpl in H. by injection H.
Qed.

Lemma identify_prefix p args : own_program p = true -> forall n pre depth end_ d ws,
  (length pre <= n)%nat -> forallb prefix_word pre = true -> (wrappers_in pre <= depth)%nat -> fresh d ->
  map fst ws = pre ++ p :: args -> runs_own (id_opaque d) p args (identify depth end_ d ws).
Proof.
  intros Hp. pose proof (own_program_not_assignment p Hp) as [Hpa Hpd].
  induction n as [|n IH]; intros pre depth end_ d ws Hlen Hpre Hdepth Hf Hws.
  - destruct pre; [|simpl in Hlen; lia]. destruct ws as [|[p' i] rest]; [done|]. simpl in Hws. injection Hws as -> <-.
    apply (identify_own _ _ _ _ [] p i rest); [|done|done]. simpl. by rewrite Hpa.
  - destruct (leading_split pre) as (assigns & more & -> & Ha & Hm). rewrite forallb_app in Hpre.
    apply andb_true_iff in Hpre as [_ Hpre]. rewrite <- app_assoc in Hws.
    set (tl := more ++ p :: args) in *.
    destruct (leading_assigns_app assigns (map (fun w => (w, 0%nat)) tl) ws) as (k & E & Hk).
    { rewrite map_map. simpl. by rewrite map_id. }
    { done. }
    { subst tl. destruct more; simpl; done. }
    rewrite map_map in Hk. simpl in Hk. rewrite map_id in Hk.
    destruct more as [|word more].
    + subst tl. simpl in Hk. destruct (skipn k ws) as [|[p' i] rest]; [done|]. simpl in Hk. injection Hk as -> <-.
      by eapply identify_own.
    + subst tl. simpl in Hk. destruct (skipn k ws) as [|[w' i] rest]; [done|]. simpl in Hk. injection Hk as -> Hrest.
      simpl in Hpre. apply andb_true_iff in Hpre as [Hword Hpre]. unfold prefix_word in Hword.
      rewrite Hm in Hword. simpl in Hword. pose proof (wraps_plainly_spec _ Hword) as (_ & _ & _ & w & Hlk & Hb).
      unfold wrappers_in in Hdepth. rewrite List.filter_app, length_app in Hdepth. simpl in Hdepth. rewrite Hm in Hdepth. simpl in Hdepth.
      destruct depth as [|depth]; [lia|].
      destruct (identify_wrapper depth end_ d ws assigns word i rest w E Hword Hf Hlk Hb) as (d' & ws' & -> & Hf' & Ho & Hm').
      { rewrite Hrest. destruct more as [|w2 more]; simpl; [done|]. simpl in Hpre. apply andb_true_iff in Hpre as [Hw2 _].
        by apply prefix_starts. }
      rewrite <- Ho. apply (IH more); [rewrite length_app in Hlen; simpl in Hlen; lia|done|unfold wrappers_in; lia|done|].
      by rewrite Hm', Hrest.
Qed.

End Identify.
