(* ===== verification/SampleSyntax.v ===== *)
(** * A concrete shell syntax

    An instance of the parser's interface for plain command lines: words of
    literals, escapes and single quotes, one command per line.  It refuses every
    other construct, and serves the witnesses only. *)

From stdpp Require Import base tactics list strings.
From Stdlib Require Import ZArith Lia Bool Ascii String List.
From S2P Require Import Prelude GoLib GoStrings EnvSplit ShellSyntax.

(** The word being read, the words of the line and the lines before. *)
Record scan := mkScan { sn_word : option word; sn_words : list word; sn_lines : list (list word) }.

(** A literal byte: joined to a literal before it. *)
Definition scan_lit (text : string) (s : scan) : scan :=
  let w := match sn_word s with Some w => w | None => [] end in
  let w := match rev w with
           | Lit before :: rest => rev rest ++ [Lit (before +:+ text)]
           | _ => w ++ [Lit text]
           end in
  mkScan (Some w) (sn_words s) (sn_lines s).

Definition scan_quoted (text : string) (s : scan) : scan :=
  mkScan (Some (match sn_word s with Some w => w | None => [] end ++ [SglQuoted false text (mkExtent 0 0)]))
    (sn_words s) (sn_lines s).

Definition end_word (s : scan) : scan :=
  match sn_word s with Some w => mkScan None (sn_words s ++ [w]) (sn_lines s) | None => s end.

Definition end_line (s : scan) : scan :=
  let s := end_word s in
  match sn_words s with [] => s | words => mkScan None [] (sn_lines s ++ [words]) end.

Definition shell_special : string := String quote_byte ";|&()<>`$#*?[~=".

Fixpoint scan_line (quoted : option string) (s : scan) (text : string) : option scan :=
  match text with
  | "" => match quoted with None => Some (end_line s) | Some _ => None end
  | String c rest =>
      match quoted with
      | Some q =>
          if Ascii.eqb c "'" then scan_line None (scan_quoted q s) rest
          else scan_line (Some (q +:+ String c "")) s rest
      | None =>
          if Ascii.eqb c "'" then scan_line (Some "") s rest else
          if Ascii.eqb c " " then scan_line None (end_word s) rest else
          if Ascii.eqb c newline then scan_line None (end_line s) rest else
          if Ascii.eqb c "\" then
            match rest with
            | String e rest => scan_line None (scan_lit (String c (String e "")) s) rest
            | "" => None
            end
          else if byte_in shell_special c then None else scan_line None (scan_lit (String c "") s) rest
      end
  end.

Definition plain_parse (text : string) : option (list Stmt) :=
  option_map (fun s => map (fun words => mkStmt (CallExpr [] words) []) (sn_lines s))
    (scan_line None (mkScan None [] []) text).

Definition plain_quote (text : string) : option string :=
  if str_any (Ascii.eqb "'") text then None else Some ("'" +:+ text +:+ "'").

Definition plain_syntax : BashSyntax := {| Parse := plain_parse; Quote := plain_quote |}.

Example plain_parse_words : option_map (map (statement_words "")) (plain_parse "rm -rf '/a b' \;") =
  Some [[("rm", false); ("-rf", false); ("/a b", false); (";", false)]].
Proof. reflexivity. Qed.
