(* ===== verification/SafetyFloor.v ===== *)
(** * The safety floor cannot be talked around

    What the floor refuses it refuses behind assignments and wrappers, inside a
    shell's command string, and when a [find] amounts to it. *)

From stdpp Require Import base tactics list strings.
From Stdlib Require Import ZArith Lia Bool Ascii String List.
From S2P Require Import Prelude GoLib GoStrings EnvSplit Wrappers ShellGrammar ShellSyntax Launchers CommandIdentity Hardline FindTheory FloorTheory SampleSyntax.

(** ** Verdicts *)

Section Verdicts.
Context {syntax : BashSyntax}.

(** The verdict looks at the program, its arguments and the writes. *)
Lemma verdict_same fuel home r r' :
  ly_name (program (rc_id r)) = ly_name (program (rc_id r')) ->
  ly_args (program (rc_id r)) = ly_args (program (rc_id r')) ->
  rc_writes r = rc_writes r' ->
  hardlineCommand fuel home r = hardlineCommand fuel home r'.
Proof. intros Hn Ha Hw. destruct fuel; [done|]. cbn [hardlineCommand]. by rewrite Hn, Ha, Hw. Qed.

Lemma verdict_mark fuel home b r : hardlineCommand fuel home (mark_opaque b r) = hardlineCommand fuel home r.
Proof. by apply verdict_same. Qed.

Lemma verdict_replaced fuel home replaced r :
  hardlineCommand fuel home (under_replacements replaced r) = hardlineCommand fuel home r.
Proof. unfold under_replacements. case_if; [done|]. by apply verdict_same. Qed.

Lemma refused_map {A B} (verdict : B -> option (option string)) (verdict' : A -> option (option string)) (f : A -> B) l :
  (forall x, verdict (f x) = verdict' x) -> first_refused verdict (map f l) = first_refused verdict' l.
Proof. intros H. induction l as [|x l IH]; [done|]. simpl. by rewrite H, IH. Qed.

Lemma refused_app {A} (verdict : A -> option (option string)) l m :
  first_refused verdict (l ++ m) =
  match first_refused verdict l with Some None => first_refused verdict m | other => other end.
Proof.
  induction l as [|x l IH]; [by simpl; destruct (first_refused verdict m) as [[?|]|]|]. simpl.
  by destruct (verdict x) as [[?|]|].
Qed.

Lemma below_empty append shell d : rs_empty (id_replaced d) = true ->
  run_below append shell d =
  flat_map (fun words => append shell (nested_read words)) (id_nested d)
  ++ match id_script d with Some script => script_commands append shell script | None => [] end.
Proof.
  intros H. unfold run_below. rewrite <- (map_id (_ ++ _)) at 2. apply map_ext. intros r.
  unfold under_replacements. by rewrite H.
Qed.

(** Two identities that run the same are refused alike, with all they run. *)
Lemma refused_runs_own fuel home depth shell hidden hidden' p args d d' dyn dyn' fb fb' writes :
  runs_own hidden p args d -> runs_own hidden' p args d' ->
  first_refused (hardlineCommand fuel home) (appendWithScript depth shell (mkRead d dyn fb writes)) =
  first_refused (hardlineCommand fuel home) (appendWithScript depth shell (mkRead d' dyn' fb' writes)).
Proof.
  intros [_ Hn Ha Hr He] [_ Hn' Ha' Hr' He']. injection Hr as Hs Hne _. injection Hr' as Hs' Hne' _.
  assert (forall b b', hardlineCommand fuel home (mark_opaque b (mkRead d dyn fb writes)) =
          hardlineCommand fuel home (mark_opaque b' (mkRead d' dyn' fb' writes))) as Hv.
  { intros b b'. rewrite !verdict_mark. apply verdict_same; simpl; congruence. }
  unfold appendWithScript. destruct (maxScriptDepth - depth)%nat as [|levels].
  - cbn [append_levels first_refused]. by rewrite (Hv _ (runs_more d')).
  - cbn [append_levels first_refused]. rewrite !below_empty by done. cbn [rc_id].
    rewrite Hs, Hs', Hne, Hne'. pose proof (Hv false false) as Hv'. rewrite !verdict_mark in Hv'. by rewrite Hv'.
Qed.

(** The identity of a prefixed command, and of the command alone. *)
Lemma identified_own pre p args : own_program p = true -> forallb prefix_word pre = true ->
  (wrappers_in pre < maxWrapperDepth)%nat -> runs_own false p args (identifyCommand (pre ++ p :: args)).
Proof.
  intros Hp Hpre Hw. unfold identifyCommand.
  change false with (id_opaque no_identity).
  apply (identify_prefix p args Hp (length pre) pre); [lia|done|unfold maxWrapperDepth in *; lia|done|].
  apply indexed_strings.
Qed.

(** C11: Assignments and up to seven wrappers without options do not hide a command from
    the safety floor: in front of a program, fewer than eight words each naming a
    wrapper that reads no argument of its own ([sudo], [env], [nohup], [nice],
    [exec], ...; an eighth makes the command opaque), with NAME=value words among
    them, leave the floor's verdict on the command, and on every script and
    nested command it runs, what it is for the command alone. *)
Theorem floor_sees_through_wrappers fuel home depth shell pre p args dyn dyn' fb fb' writes :
  own_program p = true -> forallb prefix_word pre = true -> (wrappers_in pre < maxWrapperDepth)%nat ->
  first_refused (hardlineCommand fuel home)
    (appendWithScript depth shell (mkRead (identifyCommand (pre ++ p :: args)) dyn fb writes)) =
  first_refused (hardlineCommand fuel home)
    (appendWithScript depth shell (mkRead (identifyCommand (p :: args)) dyn' fb' writes)).
Proof.
  intros Hp Hpre Hw. eapply refused_runs_own; [by apply identified_own|].
  apply (identified_own [] p args); [done|done|]. vm_compute. lia.
Qed.

(** ** A shell's command string *)

Definition posix_shell (name : string) : bool := in_set (map fst posixShellGrammars) name.

(** A word no grammar reads as an option. *)
Definition operand_word (s : string) : bool := negb (HasPrefix s "-" || HasPrefix s "+").

Lemma run_command_string g script more : In g (flat_map snd posixShellGrammars) -> operand_word script = true ->
  run_grammar g ("-c" :: script :: more) = mkShellRun [StringsJoin (script :: more) " "] false.
Proof.
  intros Hg Hs. unfold operand_word in Hs. apply negb_true_iff in Hs.
  assert (forall out, read_shell g 0 false out (script :: more) = out <| so_operands := script :: more |>) as Hread.
  { intros out. cbn [read_shell]. rewrite Hs. cbn [negb].
    assert ((script =? "-")%string || (script =? "--")%string || (script =? "+")%string && g_plusEnds g = false) as ->; [|done].
    destruct (String.eqb_spec script "-") as [->|_]; [done|]. destruct (String.eqb_spec script "--") as [->|_]; [done|].
    by destruct (String.eqb_spec script "+") as [->|_]. }
  unfold run_grammar, read_grammar.
  assert (read_shell g 0 true (mkShellOptions false "" [] false) ("-c" :: script :: more) =
          read_shell g 0 false (mkShellOptions true "" [] false) (script :: more)) as ->.
  { simpl in Hg. repeat (destruct Hg as [<-|Hg]; [reflexivity|]). done. }
  by rewrite Hread.
Qed.

Lemma read_command_string name script more : posix_shell name = true -> operand_word script = true ->
  readShell name ("-c" :: script :: more) = mkShellRun [StringsJoin (script :: more) " "] false.
Proof.
  intros Hn Hs.
  unfold posix_shell in Hn. rewrite in_set_In in Hn.
  assert (exists g rest, posix_of name = g :: rest /\
          forall g', In g' (g :: rest) -> In g' (flat_map snd posixShellGrammars)) as (g & rest & Ep & Hin).
  { simpl in Hn. repeat (destruct Hn as [<-|Hn]; [eexists _, _; split; [done|simpl; intros g' Hg'; tauto]|]). done. }
  destruct (posix_grammars name g rest Ep) as [Hg _]. unfold readShell. rewrite Hg. apply readShellGrammars_same.
  rewrite List.Forall_forall. intros g' Hg'. apply run_command_string; [by apply Hin|done].
Qed.

Lemma shell_own_run p script more : posix_shell (programName p) = true -> operand_word script = true ->
  own_run p ("-c" :: script :: more) = (Some (StringsJoin (script :: more) " "), [], false).
Proof.
  intros Hn Hs. unfold own_run, shell_like. assert (is_shell (programName p) = true) as ->.
  { unfold posix_shell in Hn. exact (in_set_all is_shell _ _ Hn eq_refl). }
  by rewrite read_command_string.
Qed.

(** A shell without writes is not refused itself. *)
Lemma shell_not_refused fuel home r : posix_shell (ly_name (program (rc_id r))) = true -> rc_writes r = [] ->
  hardlineCommand (S fuel) home r = Some None.
Proof.
  intros Hn Hw. cbn [hardlineCommand]. rewrite Hw. cbn [first_some]. unfold posix_shell in Hn. rewrite in_set_In in Hn.
  simpl in Hn. by repeat (destruct Hn as [<-|Hn]; [done|]).
Qed.

(** A command string does not hide from the safety floor: behind assignments
    and wrappers, the floor's verdict on [sh -c 'SCRIPT' ...], for every POSIX
    shell the code knows and to the depth it reads, is its verdict on the commands
    of the script the shell runs. *)
Theorem floor_reads_scripts fuel home depth shell pre p script more dyn fb :
  own_program p = true -> posix_shell (programName p) = true -> operand_word script = true ->
  forallb prefix_word pre = true -> (wrappers_in pre < maxWrapperDepth)%nat -> (depth < maxScriptDepth)%nat ->
  first_refused (hardlineCommand (S fuel) home)
    (appendWithScript depth shell (mkRead (identifyCommand (pre ++ p :: "-c" :: script :: more)) dyn fb [])) =
  first_refused (hardlineCommand (S fuel) home)
    (script_commands (appendWithScript (S depth)) shell (StringsJoin (script :: more) " ")).
Proof.
  intros Hp Hn Hs Hpre Hw Hd.
  destruct (identified_own pre p ("-c" :: script :: more) Hp Hpre Hw) as [_ Hname _ Hrun He].
  rewrite (shell_own_run p script more Hn Hs) in Hrun. cbn [fst snd] in Hrun. injection Hrun as Hscript Hnested _.
  unfold appendWithScript at 1. replace (maxScriptDepth - depth)%nat with (S (maxScriptDepth - S depth)) by lia.
  cbn [append_levels first_refused]. rewrite shell_not_refused; [|by cbn [rc_id]; rewrite Hname|done].
  rewrite below_empty by done. cbn [rc_id]. by rewrite Hnested, Hscript.
Qed.

(** ** A find that amounts to it *)

Lemma refused_member {A} (verdict : A -> option (option string)) l x r :
  In x l -> verdict x = Some (Some r) -> (forall y, In y l -> verdict y <> None) ->
  exists reason, first_refused verdict l = Some (Some reason).
Proof.
  induction l as [|y l IH]; [done|]. intros Hin Hx Hall. simpl.
  destruct (verdict y) as [[r'|]|] eqn:E; [by eexists| |by destruct (Hall y); [left|]].
  destruct Hin as [->|Hin]; [by rewrite Hx in E|]. apply IH; [done|done|]. intros z Hz. apply Hall. by right.
Qed.

(** A verdict that is not clean leaves none of the list clean. *)
Lemma not_passed {A} (verdict : A -> option (option string)) l x :
  In x l -> verdict x <> Some None -> first_refused verdict l <> Some None.
Proof.
  induction l as [|y l IH]; [done|]. intros Hin Hx. simpl. destruct (verdict y) as [[r|]|] eqn:E; [done| |done].
  destruct Hin as [->|Hin]; [done|by apply IH].
Qed.

(** A list of verdicts that come has one. *)
Lemma refused_decided {A} (verdict : A -> option (option string)) l :
  (forall y, In y l -> verdict y <> None) -> first_refused verdict l <> None.
Proof.
  induction l as [|y l IH]; [done|]. intros H. simpl. pose proof (H y (or_introl eq_refl)) as Hy.
  destruct (verdict y) as [[r|]|]; [discriminate| |by destruct Hy]. apply IH. intros z Hz. apply H. by right.
Qed.

Lemma rm_protected targets home t r : In t targets -> rm_target t = true -> hardlineProtectedRootTarget t home = Some r ->
  exists root, hardlineRmProtectedRoot ("-r" :: targets) home = Some root.
Proof.
  intros Hin Ht Hr. unfold hardlineRmProtectedRoot. cbn [existsb]. change (rm_recursive "-r") with true. cbn [orb].
  assert (In t (List.filter rm_target ("-r" :: targets))) as Hf by (apply filter_In; split; [by right|done]).
  clear Hin. revert Hf. induction (List.filter rm_target ("-r" :: targets)) as [|x l IH]; [done|].
  simpl. destruct (hardlineProtectedRootTarget x home) eqn:E; [by eexists|].
  intros [->|Hin]; [by rewrite Hr in E|by apply IH].
Qed.

(** What an action means to the floor. *)
Definition refused_action (fuel : nat) (home : string) (sweep : findSweep) (a : find_action) : Prop :=
  match a with
  | Deleted => fs_bounded sweep = false /\ exists t r, In t (sweep_targets sweep) /\ rm_target t = true /\
      hardlineProtectedRootTarget t home = Some r
  | Ran command => exists t r, In t (sweep_targets sweep) /\
      first_refused (hardlineCommand fuel home) (sweep_reads command t) = Some (Some r)
  end.

(** The verdicts on what the find runs come. *)
Definition sweep_decided (fuel : nat) (home : string) (sweep : findSweep) : Prop :=
  forall command t, In command (fs_commands sweep) -> In t (sweep_targets sweep) ->
  first_refused (hardlineCommand fuel home) (sweep_reads command t) <> None.

(** A find is never clean that takes an action the floor refuses. *)
Lemma sweep_refused fuel home args named starts words e status a :
  find_line args named starts words e -> In a (fst (evaluate status e)) ->
  refused_action fuel home (bound_sweep (swept named starts e)) a ->
  hardlineFindSweep (hardlineCommand fuel home) args home <> Some None.
Proof.
  intros Hl Ha Hr. unfold hardlineFindSweep. rewrite (find_line_read _ _ _ _ _ Hl).
  destruct (evaluate_covered status e (mkSweep (match named ++ starts with [] => ["."] | l => l end) false [] false false))
    as [_ Hcov]. specialize (Hcov a Ha). fold (swept named starts e) in Hcov.
  set (sweep := bound_sweep (swept named starts e)) in *.
  destruct (if fs_deletes sweep then hardlineRmProtectedRoot ("-r" :: sweep_targets sweep) home else None) eqn:Edel; [done|].
  destruct a as [|command]; cbn [reported refused_action] in Hcov, Hr.
  - destruct Hr as (Hb & t & r & Hin & Ht & Hp). destruct (rm_protected _ _ _ _ Hin Ht Hp) as [root Hroot].
    assert (fs_deletes sweep = true) as Hs by (subst sweep; simpl in *; by rewrite Hcov, Hb).
    by rewrite Hs, Hroot in Edel.
  - destruct Hr as (t & r & Hin & Hv).
    set (on := fun c target => first_refused (hardlineCommand fuel home) (sweep_reads c target)).
    apply (not_passed (fun c => first_refused (on c) (sweep_targets sweep)) _ command Hcov).
    apply (not_passed (on command) _ t Hin). unfold on. by rewrite Hv.
Qed.

Lemma sweep_verdict fuel home args named starts words e :
  find_line args named starts words e -> sweep_decided fuel home (bound_sweep (swept named starts e)) ->
  hardlineFindSweep (hardlineCommand fuel home) args home <> None.
Proof.
  intros Hl Hd. unfold hardlineFindSweep. rewrite (find_line_read _ _ _ _ _ Hl).
  destruct (if fs_deletes _ then _ else None); [done|]. apply refused_decided. intros c Hc.
  apply refused_decided. intros y Hy. by apply Hd.
Qed.

(** C12: A find does not hide a deletion or a command from the safety floor: behind
    assignments and fewer than eight wrappers without options, when evaluating its
    expression (written in find's grammar, with [-a], [-o], [!], [,] and parentheses)
    on an ordinary entry, which passes no real test, deletes under a protected root
    without a [-maxdepth] of 0 or 1, or runs a command that is refused with a start
    path in place of [{}], then the floor never lets the find pass, whatever the exit
    status of the commands it runs; and it refuses it when the verdicts on all the
    commands found come, which they need not (the reading of a [find] may not end). *)
Theorem floor_refuses_sweep fuel home pre p args named starts words e status a dyn fb writes :
  own_program p = true -> programName p = "find" -> forallb prefix_word pre = true ->
  (wrappers_in pre < maxWrapperDepth)%nat ->
  find_line args named starts words e -> In a (fst (evaluate status e)) ->
  refused_action fuel home (bound_sweep (swept named starts e)) a ->
  let verdict := hardlineCommand (S fuel) home (mkRead (identifyCommand (pre ++ p :: args)) dyn fb writes) in
  verdict <> Some None /\
  (sweep_decided fuel home (bound_sweep (swept named starts e)) -> exists reason, verdict = Some (Some reason)).
Proof.
  intros Hp Hn Hpre Hw Hl Ha Hr. cbv zeta.
  destruct (identified_own pre p args Hp Hpre Hw) as [_ Hname Hargs _ _].
  cbn [hardlineCommand]. destruct (first_some hardlineDiskDevice _) as [dev|]; [split; [done|by eexists]|]. cbn [rc_id].
  rewrite Hname, Hargs, Hn. cbn [String.eqb Ascii.eqb Bool.eqb].
  pose proof (sweep_refused fuel home args named starts words e status a Hl Ha Hr) as Not.
  split; [done|]. intros Hd. pose proof (sweep_verdict fuel home args named starts words e Hl Hd) as Some_.
  destruct (hardlineFindSweep _ args home) as [[r|]|]; [by exists r|done|done].
Qed.

End Verdicts.

#[local] Existing Instance plain_syntax.

Lemma floor_sees_through_wrappers_witness :
  first_refused (hardlineCommand 3 "/home/me")
    (appendWithScript 0 true
       (mkRead (identifyCommand (["FOO=a/b"; "sudo"; "env"; "A=1"; "nice"] ++ "\rm" :: ["-rf"; "/"])) [] false [])) =
  Some (Some "recursive delete of protected root: /").
Proof.
  etransitivity.
  - apply (floor_sees_through_wrappers 3 "/home/me" 0 true ["FOO=a/b"; "sudo"; "env"; "A=1"; "nice"] "\rm" ["-rf"; "/"]
             [] [] false false []); [reflexivity|reflexivity|vm_compute; lia].
  - reflexivity.
Defined.

Lemma floor_reads_scripts_witness :
  first_refused (hardlineCommand 3 "/home/me")
    (appendWithScript 0 true
       (mkRead (identifyCommand (["sudo"] ++ "bash" :: "-c" :: "nohup rm -r '/home'" :: ["x"])) [] false [])) =
  Some (Some "recursive delete of protected root: /home").
Proof.
  etransitivity.
  - apply (floor_reads_scripts 2 "/home/me" 0 true ["sudo"] "bash" "nohup rm -r '/home'" ["x"] [] false);
      [reflexivity|reflexivity|reflexivity|reflexivity|vm_compute; lia|vm_compute; lia].
  - reflexivity.
Defined.

(** [find / ! -name '*' -o -exec rm -rf {} ;] *)
Definition sample_sweep : find_expr :=
  Or (Not (Primary "-name" ["*"])) (Exec "-exec" ["rm"; "-rf"; "{}"]).

Definition sample_words : list string := ["!"; "-name"; "*"; "-o"; "-exec"; "rm"; "-rf"; "{}"; ";"].
Definition sample_args : list string := "-L" :: "/" :: sample_words.

Lemma sample_sweep_line : find_line sample_args [] ["/"] sample_words sample_sweep.
Proof.
  split; [reflexivity|split; [reflexivity|]]. apply L_one.
  apply (O_two "-o" _ _ ["!"; "-name"; "*"] ["-exec"; "rm"; "-rf"; "{}"; ";"]); [reflexivity| |].
  - apply O_one, A_one, (U_not "!" ["-name"; "*"]); [reflexivity|]. by apply (U_primary "-name" ["*"]).
  - apply A_one, (U_exec "-exec" ["rm"; "-rf"; "{}"; ";"]). split; [simpl; tauto|split; [reflexivity|done]].
Qed.

Lemma floor_refuses_sweep_witness : exists reason,
  hardlineCommand 3 "/home/me" (mkRead (identifyCommand (["sudo"] ++ "find" :: sample_args)) [] false []) = Some (Some reason).
Proof.
  destruct (floor_refuses_sweep 2 "/home/me" ["sudo"] "find" sample_args [] ["/"] sample_words sample_sweep (fun _ => true)
           (Ran ["rm"; "-rf"; "{}"]) [] false []) as [_ Hrefused];
    [reflexivity|reflexivity|reflexivity|vm_compute; lia|apply sample_sweep_line|by left| |].
  - exists "/", "recursive delete of protected root: /". split; [by left|reflexivity].
  - apply Hrefused. intros command t [<-|[]] [<-|[]]. discriminate.
Defined.

(** ** A payload on which the floor does not end *)

Definition loop_template : string := "find / -exec parallel {1} ::: {1} \;".
Definition loop_args : list string :=
  ["/"; "-exec"; "parallel"; loop_template; ":::"; loop_template; ";"].
Definition loop_payload : string :=
  "find / -exec parallel '" +:+ loop_template +:+ "' ::: '" +:+ loop_template +:+ "' \;".

Definition unrefused (home : string) (r : readCommand) : Prop :=
  forall n reason, hardlineCommand n home r <> Some (Some reason).

(** A verdict that does not come, after commands that are not refused. *)
Lemma refused_stuck verdict l (r : readCommand) rest :
  Forall (fun x => forall reason, verdict x <> Some (Some reason)) l -> verdict r = None ->
  first_refused verdict (l ++ r :: rest) = None.
Proof.
  intros Hl Hr. induction Hl as [|x l Hx Hl IH]; simpl; [by rewrite Hr|].
  destruct (verdict x) as [[reason|]|]; [by destruct (Hx reason)|done|done].
Qed.

Lemma plain_unrefused home r : (ly_name (program (rc_id r)) =? "find")%string = false -> rc_writes r = [] ->
  program_refused (ly_name (program (rc_id r))) (ly_args (program (rc_id r))) home = None -> unrefused home r.
Proof. intros Hn Hw Hp [|n] reason; cbn [hardlineCommand]; [done|]. by rewrite Hw, Hn, Hp. Qed.

Definition is_loop (r : readCommand) : Prop :=
  ly_name (program (rc_id r)) = "find" /\ ly_args (program (rc_id r)) = loop_args /\ rc_writes r = [].

Definition loop_reads : list readCommand := sweep_reads ["parallel"; loop_template; ":::"; loop_template] "/".

(** The template's own find runs [{1}] only. *)
Lemma template_unrefused home r : ly_name (program (rc_id r)) = "find" ->
  ly_args (program (rc_id r)) = ["/"; "-exec"; "parallel"; "{1}"; ":::"; "{1}"; ";"] -> rc_writes r = [] ->
  unrefused home r.
Proof.
  intros Hn Ha Hw n reason. destruct n as [|[|n]]; [done| |]; cbn [hardlineCommand]; rewrite Hn, Ha, Hw; by vm_compute.
Qed.

(** What the find runs holds the find again. *)
Lemma loop_reads_again home : exists l r rest, loop_reads = l ++ r :: rest /\ is_loop r /\ Forall (unrefused home) l.
Proof.
  exists (firstn 5 loop_reads), (nth 5 loop_reads (mkRead no_identity [] false [])), (skipn 6 loop_reads).
  split; [by vm_compute|]. split; [by vm_compute|].
  assert (firstn 5 loop_reads = ltac:(let l := eval vm_compute in (firstn 5 loop_reads) in exact l)) as -> by (by vm_compute).
  repeat constructor; first [by apply plain_unrefused|by apply template_unrefused].
Qed.

Lemma loop_undecided home n : forall r, is_loop r -> hardlineCommand n home r = None.
Proof.
  induction n as [|n IH]; [done|]. intros r (Hn & Ha & Hw). cbn [hardlineCommand].
  rewrite Hn, Ha, Hw. cbn [first_some String.eqb Ascii.eqb Bool.eqb]. unfold hardlineFindSweep.
  assert (readFindSweep loop_args =
    Some (mkSweep ["/"] false [["parallel"; loop_template; ":::"; loop_template]] false false)) as -> by (by vm_compute).
  cbn [fs_deletes fs_commands fs_below fs_starts]. unfold sweep_targets. cbn [fs_below fs_starts].
  assert (first_refused (hardlineCommand n home) loop_reads = None) as E.
  { destruct (loop_reads_again home) as (l & r' & rest & -> & Hr & Hl). apply refused_stuck; [|by apply IH].
    eapply Forall_impl; [|exact Hl]. intros x Hx reason. apply Hx. }
  change (match match first_refused (hardlineCommand n home) loop_reads with
                | Some None => Some None | other => other end with
          | Some None => Some None | other => other end = @None (option string)).
  by rewrite E.
Qed.

(** The floor does not decide every payload: on [find / -exec parallel T ::: T \;],
    where [T] is a find that runs [parallel {1} ::: {1}], the command the sweep
    composes is the find itself, each sweep reads at the same depth again, and no
    fuel gives a verdict. *)
Theorem floor_never_decides fuel env_home :
  hardlineToolCall fuel env_home "terminal" [("command", ArgString loop_payload)] = None.
Proof.
  unfold hardlineToolCall. cbn [negb]. change (isExecTool "terminal") with true. cbn [negb].
  assert (execCommandPayload "terminal" [("command", ArgString loop_payload)] = loop_payload) as -> by (by vm_compute).
  assert ((TrimSpace loop_payload =? "")%string = false) as -> by (by vm_compute).
  assert (fork_bomb loop_payload = false) as -> by (by vm_compute).
  assert (first_some text_device [ToLower loop_payload; ToLower (unquote loop_payload)] = None) as -> by (by vm_compute).
  assert (exists r rest, effectiveCommands loop_payload = r :: rest /\ is_loop r) as (r & rest & -> & Hr).
  { exists (hd (mkRead no_identity [] false []) (effectiveCommands loop_payload)), (tl (effectiveCommands loop_payload)).
    split; by vm_compute. }
  cbn [first_refused]. by rewrite loop_undecided.
Qed.

(** ** An abbreviation the floor does not expand *)

(** GNU rm reads [--recursiv] as [--recursive]; the floor takes the exact name
    only. *)
Lemma abbreviated_recursion_passes home :
  program_refused "rm" ["--recursiv"; "--force"; "/"] home = None /\
  program_refused "rm" ["--recursive"; "--force"; "/"] home = Some (delete_reason "/").
Proof. split; reflexivity. Qed.
