(* ===== verification/Patch.v ===== *)
(** * The patch tool ([tools/patch.go])

    A patch is parsed into operations on files, every operation is validated, and
    then they are applied in order.  Readable files are a map from the paths a patch
    names to their contents, two paths naming two files and no path going through
    another; what the operating system decides is a parameter. *)

From stdpp Require Import base tactics list gmap strings.
From Stdlib Require Import ZArith Lia Bool Ascii String List.
From S2P Require Import Prelude GoLib GoStrings.

(** ** Operations *)

Inductive OperationType := OpAdd | OpUpdate | OpDelete | OpMove.

Inductive line_prefix := Context | Removed | Added.

Record HunkLine := mkHunkLine { hl_Prefix : line_prefix; hl_Content : string }.
Record Hunk := mkHunk { hk_ContextHint : string; hk_Lines : list HunkLine }.
Record PatchOperation := mkOp {
  po_Operation : OperationType; po_FilePath : string; po_NewPath : string; po_Hunks : list Hunk }.

#[export] Instance OperationType_eq_dec : EqDecision OperationType.
Proof. solve_decision. Defined.
#[export] Instance Hunk_eta : Eta Hunk := fun h => mkHunk (hk_ContextHint h) (hk_Lines h).
#[export] Instance PatchOperation_eta : Eta PatchOperation := fun o =>
  mkOp (po_Operation o) (po_FilePath o) (po_NewPath o) (po_Hunks o).

Definition is_added (l : HunkLine) : bool := match hl_Prefix l with Added => true | _ => false end.
Definition is_removed (l : HunkLine) : bool := match hl_Prefix l with Removed => true | _ => false end.

(** ** Lines *)

Fixpoint split_on (sep : ascii) (s : string) : list string :=
  match s with
  | "" => [""]
  | String c rest =>
      if Ascii.eqb c sep then "" :: split_on sep rest else
      match split_on sep rest with
      | line :: lines => String c line :: lines
      | [] => [String c ""]
      end
  end.

Definition nl : string := String newline "".
Definition lines_of (s : string) : list string := split_on newline s.
Definition unlines (l : list string) : string := StringsJoin l nl.

Definition re_space (c : ascii) : bool := in_range 9 10 c || in_range 12 13 c || Ascii.eqb c " ".
Definition skip_space (s : string) : string := trim_left re_space s.

(** ** File markers *)

(** What follows [*** WORD File:] on a line. *)
Definition marker_rest (word line : string) : option string :=
  match CutPrefix line "***" with
  | None => None
  | Some rest =>
      match CutPrefix (skip_space rest) word with
      | None => None
      | Some rest =>
          if match rest with String c _ => re_space c | "" => false end
          then CutPrefix (skip_space rest) "File:" else None
      end
  end.

Definition path_marker (word line : string) : option string :=
  match marker_rest word line with
  | Some rest => if (rest =? "")%string then None else Some (TrimSpace rest)
  | None => None
  end.

(** The text around the first arrow with text after it. *)
Fixpoint cut_arrow (s : string) : option (string * string) :=
  match CutPrefix s "->" with
  | Some (String _ _ as after) => Some ("", after)
  | _ =>
      match s with
      | String c rest => option_map (fun p => (String c (fst p), snd p)) (cut_arrow rest)
      | "" => None
      end
  end.

Definition move_marker (line : string) : option (string * string) :=
  match marker_rest "Move" line with
  | None => None
  | Some rest =>
      match skip_space rest with
      | String c tail as from =>
          match cut_arrow tail with
          | Some (before, after) => Some (TrimSpace (String c before), TrimSpace after)
          | None =>
              match CutPrefix from "->" with
              | Some (String _ _ as after) =>
                  if (String.length from <? String.length rest)%nat then Some ("", TrimSpace after) else None
              | _ => None
              end
          end
      | "" => None
      end
  end.

(** ** The parser *)

Record parsing := mkParsing {
  ps_ops : list PatchOperation; ps_op : option PatchOperation; ps_hunk : option Hunk; ps_blank : nat }.

#[export] Instance parsing_eta : Eta parsing := fun p => mkParsing (ps_ops p) (ps_op p) (ps_hunk p) (ps_blank p).

Definition add_hunk (h : option Hunk) (op : PatchOperation) : PatchOperation :=
  match h with
  | Some h => match hk_Lines h with [] => op | _ => op <| po_Hunks := po_Hunks op ++ [h] |> end
  | None => op
  end.

Definition keeps_op (op : PatchOperation) : bool :=
  match po_Hunks op with [] => bool_decide (po_Operation op = OpAdd) | _ => true end.

(** The operation being read joins the others; without hunks only an Add does. *)
Definition flush_op (p : parsing) : list PatchOperation :=
  match ps_op p with
  | None => ps_ops p
  | Some op => let op := add_hunk (ps_hunk p) op in if keeps_op op then ps_ops p ++ [op] else ps_ops p
  end.

Definition blank_lines (n : nat) : list HunkLine := repeat (mkHunkLine Context "") n.

Definition body_line (line : string) : list HunkLine :=
  match line with
  | String c rest =>
      if Ascii.eqb c "+" then [mkHunkLine Added rest] else
      if Ascii.eqb c "-" then [mkHunkLine Removed rest] else
      if Ascii.eqb c " " then [mkHunkLine Context rest] else
      if Ascii.eqb c "\" then [] else [mkHunkLine Context line]
  | "" => []
  end.

Definition hint_of (line : string) : string := TrimSpace (TrimPrefix (TrimPrefix line "@@") "@").

Definition new_op (t : OperationType) (path : string) : PatchOperation := mkOp t path "" [].

Definition parse_line (p : parsing) (line : string) : parsing :=
  match path_marker "Update" line, path_marker "Add" line, path_marker "Delete" line, move_marker line with
  | Some path, _, _, _ => mkParsing (flush_op p) (Some (new_op OpUpdate path)) None 0
  | None, Some path, _, _ => mkParsing (flush_op p) (Some (new_op OpAdd path)) (Some (mkHunk "" [])) 0
  | None, None, Some path, _ => mkParsing (flush_op p ++ [new_op OpDelete path]) None None 0
  | None, None, None, Some (path, to) => mkParsing (flush_op p ++ [mkOp OpMove path to []]) None None 0
  | None, None, None, None =>
      if HasPrefix line "@@" then
        let p := p <| ps_blank := 0 |> in
        match ps_op p with
        | None => p
        | Some op => p <| ps_op := Some (add_hunk (ps_hunk p) op) |> <| ps_hunk := Some (mkHunk (hint_of line) []) |>
        end
      else match ps_op p with
      | None => p
      | Some op =>
          if (line =? "")%string then
            if bool_decide (po_Operation op = OpUpdate) then p <| ps_blank := S (ps_blank p) |> else p
          else
            let h := match ps_hunk p with Some h => h | None => mkHunk "" [] end in
            p <| ps_hunk := Some (h <| hk_Lines := hk_Lines h ++ blank_lines (ps_blank p) ++ body_line line |>) |>
              <| ps_blank := 0 |>
      end
  end.

Definition is_begin (line : string) : bool := Contains line "*** Begin Patch" || Contains line "***Begin Patch".
Definition is_end (line : string) : bool := Contains line "*** End Patch" || Contains line "***End Patch".

(** The lines after the last begin marker, up to the first end marker. *)
Fixpoint patch_body (body lines : list string) : list string :=
  match lines with
  | [] => body
  | line :: rest =>
      if is_end line then (if is_begin line then [] else body)
      else patch_body (if is_begin line then [] else body ++ [line]) rest
  end.

Inductive parse_error := EmptyPath | NoHunks (path : string) | NoDestination (path : string).

Definition check_op (op : PatchOperation) : option parse_error :=
  if (po_FilePath op =? "")%string then Some EmptyPath else
  match po_Operation op with
  | OpUpdate => match po_Hunks op with [] => Some (NoHunks (po_FilePath op)) | _ => None end
  | OpMove => if (po_NewPath op =? "")%string then Some (NoDestination (po_FilePath op)) else None
  | OpAdd | OpDelete => None
  end.

Fixpoint check_ops (ops : list PatchOperation) : option parse_error :=
  match ops with
  | [] => None
  | op :: rest => match check_op op with Some e => Some e | None => check_ops rest end
  end.

Definition parse_lines (lines : list string) : list PatchOperation :=
  flush_op (fold_left parse_line lines (mkParsing [] None None 0)).

Definition parseV4APatch (patchContent : string) : parse_error + list PatchOperation :=
  if (patchContent =? "")%string then inr [] else
  let ops := parse_lines (patch_body [] (lines_of patchContent)) in
  match check_ops ops with Some e => inl e | None => inr ops end.

Example parse_sample :
  parseV4APatch (unlines ["*** Begin Patch"; "*** Update File: a.go"; "@@ hint @@"; " one"; "-two"; ""; "+three";
    "*** Move File: b -> c"; "*** Delete File: d"; "*** Add File: e"; "+x"; "*** End Patch"]) =
  inr [mkOp OpUpdate "a.go" "" [mkHunk "hint @@" [mkHunkLine Context "one"; mkHunkLine Removed "two";
         mkHunkLine Context ""; mkHunkLine Added "three"]];
       mkOp OpMove "b" "c" []; mkOp OpDelete "d" "" []; mkOp OpAdd "e" "" [mkHunk "" [mkHunkLine Added "x"]]].
Proof. vm_compute. reflexivity. Qed.

(** ** Cancellation *)

(** A context is cancelled after a number of polls, or never. *)
Definition context := option nat.

Definition poll (ctx : context) : option context :=
  match ctx with Some O => None | Some (S n) => Some (Some n) | None => Some None end.

(** ** Finding the one place of a hunk *)

Definition maxPatchFuzzyComparisons : Z := 2000000.

(** [strings.Count] of a nonempty pattern: occurrences that do not overlap. *)
Fixpoint count_from (skip : nat) (s pat : string) : nat :=
  match s with
  | "" => 0%nat
  | String _ rest =>
      match skip with
      | S k => count_from k rest pat
      | O => if HasPrefix s pat then S (count_from (String.length pat - 1) rest pat) else count_from 0 rest pat
      end
  end.
Definition Count (s pat : string) : nat := count_from 0 s pat.

(** The text around the first occurrence. *)
Fixpoint cut_sub (s pat : string) : option (string * string) :=
  match CutPrefix s pat with
  | Some after => Some ("", after)
  | None =>
      match s with
      | String c rest => option_map (fun p => (String c (fst p), snd p)) (cut_sub rest pat)
      | "" => None
      end
  end.

(** [\s+] replaced by a blank. *)
Fixpoint collapse_from (in_space : bool) (s : string) : string :=
  match s with
  | "" => ""
  | String c rest =>
      if re_space c then (if in_space then collapse_from true rest else String " " (collapse_from true rest))
      else String c (collapse_from false rest)
  end.
Definition collapse_space (s : string) : string := collapse_from false s.

Definition fuzzyEqual (a b : string) : bool :=
  (a =? b)%string || (TrimSpace a =? TrimSpace b)%string
  || (collapse_space (TrimSpace a) =? collapse_space (TrimSpace b))%string.

Inductive match_error :=
| EmptyPattern | CtxErr | AmbiguousExact (count : nat) | TooManyComparisons (n : Z) | AmbiguousNormalized | NotFound.

Inductive strategy := Exact | NormalizedWhitespace.

Fixpoint lines_equal (lines search : list string) : bool :=
  match search, lines with
  | [], _ => true
  | s :: search, l :: lines => fuzzyEqual l s && lines_equal lines search
  | _ :: _, [] => false
  end.

(** The windows from the [i]-th on; a poll every 64 windows. *)
Fixpoint scan_windows (ctx : context) (search : list string) (i : nat) (found : option nat) (lines : list string)
  : (match_error + option nat) * context :=
  if (length lines <? length search)%nat then (inr found, ctx) else
  match (if (i mod 64 =? 0)%nat then poll ctx else Some ctx) with
  | None => (inl CtxErr, ctx)
  | Some ctx =>
      match lines with
      | [] => (inr found, ctx)
      | _ :: rest =>
          if lines_equal lines search then
            match found with
            | Some _ => (inl AmbiguousNormalized, ctx)
            | None => scan_windows ctx search (S i) (Some i) rest
            end
          else scan_windows ctx search (S i) found rest
      end
  end.

Definition comparisons (lines search : list string) : Z :=
  ((Z.of_nat (length lines) - Z.of_nat (length search) + 1) * Z.of_nat (length search))%Z.

Definition fuzzyFindAndReplace (ctx : context) (text searchPattern replacement : string)
  : (match_error + string * strategy) * context :=
  if (searchPattern =? "")%string then (inl EmptyPattern, ctx) else
  match poll ctx with
  | None => (inl CtxErr, ctx)
  | Some ctx =>
      let searchLines := lines_of searchPattern in
      let exactCount := Count text searchPattern in
      if (1 <? exactCount)%nat then (inl (AmbiguousExact exactCount), ctx) else
      match cut_sub text searchPattern with
      | Some (before, after) => (inr (before +:+ replacement +:+ after, Exact), ctx)
      | None =>
          let lines := lines_of text in
          if (length lines <? length searchLines)%nat then (inl NotFound, ctx) else
          if (maxPatchFuzzyComparisons <? comparisons lines searchLines)%Z
          then (inl (TooManyComparisons (comparisons lines searchLines)), ctx) else
          match scan_windows ctx searchLines 0 None lines with
          | (inl e, ctx) => (inl e, ctx)
          | (inr None, ctx) => (inl NotFound, ctx)
          | (inr (Some start), ctx) =>
              (inr (unlines (firstn start lines ++ lines_of replacement
                             ++ skipn (start + length searchLines) lines), NormalizedWhitespace), ctx)
          end
      end
  end.

(** ** Files *)

Abbreviation files := (gmap string string).

(** How a write to a path ends.  The directory is synced after the new file is in
    place: an error there is reported for a file that has been replaced. *)
Inductive write_end := WriteDone | WriteRefused | SyncRefused.

(** What the operating system decides: whether the directory above a path is there
    or can be made, how a write ends, which removals and renames it refuses, and at
    which paths something other than a readable file stands. *)
Class Disk := {
  mkdir_refused : string -> bool;
  write_result : string -> write_end;
  remove_refused : string -> bool;
  rename_refused : string -> string -> bool;
  other_exists : string -> bool
}.

Definition search_lines (h : Hunk) : list string :=
  map hl_Content (List.filter (fun l => negb (is_added l)) (hk_Lines h)).
Definition replace_lines (h : Hunk) : list string :=
  map hl_Content (List.filter (fun l => negb (is_removed l)) (hk_Lines h)).

(** ** Validation *)

Inductive validation_error :=
| Cancelled
| CannotRead (path : string)
| HintNotFound (path hint : string)
| HintAmbiguous (path hint : string) (count : nat)
| HunkMismatch (path hint : string) (e : match_error)
| DeleteMissing (path : string)
| MoveNoDestination (path : string)
| MoveMissing (path : string)
| MoveOverwrites (path : string).

(** A hunk that only adds is checked by its hint; the content goes on to the next. *)
Definition validate_hunk (path : string) (h : Hunk) (ctx : context) (content : string)
  : list validation_error * context * string :=
  match search_lines h with
  | [] =>
      let hint := hk_ContextHint h in
      if (hint =? "")%string then ([], ctx, content) else
      (match Count content hint with
       | O => [HintNotFound path hint]
       | S O => []
       | count => [HintAmbiguous path hint count]
       end, ctx, content)
  | search =>
      match fuzzyFindAndReplace ctx content (unlines search) (unlines (replace_lines h)) with
      | (inl e, ctx) => ([HunkMismatch path (hk_ContextHint h) e], ctx, content)
      | (inr (content, _), ctx) => ([], ctx, content)
      end
  end.

Fixpoint validate_hunks (path : string) (hunks : list Hunk) (ctx : context) (content : string)
  : list validation_error * context :=
  match hunks with
  | [] => ([], ctx)
  | h :: rest =>
      let '(errors, ctx, content) := validate_hunk path h ctx content in
      let '(more, ctx) := validate_hunks path rest ctx content in (errors ++ more, ctx)
  end.

Section Disk.
Context {disk : Disk}.

Definition exists_path (fs : files) (path : string) : bool :=
  match fs !! path with Some _ => true | None => other_exists path end.

Definition validate_op (fs : files) (op : PatchOperation) (ctx : context) : list validation_error * context :=
  let path := po_FilePath op in
  match po_Operation op with
  | OpUpdate =>
      match fs !! path with
      | None => ([CannotRead path], ctx)
      | Some content => validate_hunks path (po_Hunks op) ctx content
      end
  | OpDelete => (match fs !! path with None => [DeleteMissing path] | Some _ => [] end, ctx)
  | OpMove =>
      ((if (po_NewPath op =? "")%string then [MoveNoDestination path] else [])
       ++ match fs !! path with None => [MoveMissing path] | Some _ => [] end
       ++ (if exists_path fs (po_NewPath op) then [MoveOverwrites (po_NewPath op)] else []), ctx)
  | OpAdd => ([], ctx)
  end.

(** [validateOperationsContext]: every operation against the files as they are. *)
Fixpoint validateOperations (fs : files) (ops : list PatchOperation) (ctx : context)
  : list validation_error * context :=
  match ops with
  | [] => ([], ctx)
  | op :: rest =>
      match poll ctx with
      | None => ([Cancelled], ctx)
      | Some ctx =>
          let '(errors, ctx) := validate_op fs op ctx in
          let '(more, ctx) := validateOperations fs rest ctx in (errors ++ more, ctx)
      end
  end.

(** ** Application *)

Inductive apply_error :=
| ApplyCancelled | ReadFailed | HunkFailed (e : match_error) | MkdirFailed | WriteFailed | DeleteUnreadable
| RemoveFailed | RenameFailed.

(** Whether the write reported no error, and the files after it. *)
Definition atomicWriteBytes (fs : files) (path content : string) : bool * files :=
  if (path =? "")%string then (false, fs) else
  match write_result path with
  | WriteRefused => (false, fs)
  | SyncRefused => (false, <[path := content]> fs)
  | WriteDone => (true, <[path := content]> fs)
  end.

Definition added_lines (op : PatchOperation) : list string :=
  flat_map (fun h => map hl_Content (List.filter is_added (hk_Lines h))) (po_Hunks op).

Definition applyAdd (fs : files) (op : PatchOperation) : (apply_error + string) * files :=
  let path := po_FilePath op in
  if mkdir_refused path then (inl MkdirFailed, fs) else
  match atomicWriteBytes fs path (unlines (added_lines op)) with
  | (false, fs) => (inl WriteFailed, fs)
  | (true, fs) => (inr ("--- /dev/null" +:+ nl +:+ "+++ b/" +:+ path +:+ nl +:+ unlines (map (fun c => "+" +:+ c) (added_lines op))), fs)
  end.

Definition applyDelete (fs : files) (op : PatchOperation) : (apply_error + string) * files :=
  let path := po_FilePath op in
  match fs !! path with
  | None => (inl DeleteUnreadable, fs)
  | Some _ => if remove_refused path then (inl RemoveFailed, fs) else (inr ("# Deleted: " +:+ path), delete path fs)
  end.

Definition applyMove (fs : files) (op : PatchOperation) : (apply_error + string) * files :=
  let '(path, to) := (po_FilePath op, po_NewPath op) in
  match fs !! path with
  | Some content =>
      if rename_refused path to then (inl RenameFailed, fs)
      else (inr ("# Moved: " +:+ path +:+ " -> " +:+ to), <[to := content]> (delete path fs))
  | None => (inl RenameFailed, fs)
  end.

Definition strategy_text (s : strategy) : string :=
  match s with Exact => "exact" | NormalizedWhitespace => "normalized-whitespace" end.

(** The hunks of an update, each on what the one before left. *)
Fixpoint apply_hunks (hunks : list Hunk) (ctx : context) (content : string) (diffs : list string)
  : (apply_error + string * list string) * context :=
  match hunks with
  | [] => (inr (content, diffs), ctx)
  | h :: rest =>
      match poll ctx with
      | None => (inl (HunkFailed CtxErr), ctx)
      | Some ctx =>
          match fuzzyFindAndReplace ctx content (unlines (search_lines h)) (unlines (replace_lines h)) with
          | (inl e, ctx) => (inl (HunkFailed e), ctx)
          | (inr (content, found), ctx) =>
              apply_hunks rest ctx content
                (if (hk_ContextHint h =? "")%string then diffs
                 else diffs ++ ["# hunk @" +:+ hk_ContextHint h +:+ " (" +:+ strategy_text found +:+ ")"])
          end
      end
  end.

Definition applyUpdate (fs : files) (op : PatchOperation) (ctx : context) : (apply_error + string) * files * context :=
  let path := po_FilePath op in
  match fs !! path with
  | None => (inl ReadFailed, fs, ctx)
  | Some content =>
      match apply_hunks (po_Hunks op) ctx content [] with
      | (inl e, ctx) => (inl e, fs, ctx)
      | (inr (content, diffs), ctx) =>
          match atomicWriteBytes fs path content with
          | (false, fs) => (inl WriteFailed, fs, ctx)
          | (true, fs) => (inr (unlines diffs), fs, ctx)
          end
      end
  end.

Definition apply_op (fs : files) (op : PatchOperation) (ctx : context) : (apply_error + string) * files * context :=
  match po_Operation op with
  | OpAdd => let '(r, fs) := applyAdd fs op in (r, fs, ctx)
  | OpDelete => let '(r, fs) := applyDelete fs op in (r, fs, ctx)
  | OpMove => let '(r, fs) := applyMove fs op in (r, fs, ctx)
  | OpUpdate => applyUpdate fs op ctx
  end.

(** ** The result *)

Record PatchResult := mkResult {
  pr_Success : bool; pr_Diffs : list string; pr_FilesModified : list string; pr_FilesCreated : list string;
  pr_FilesDeleted : list string; pr_Invalid : list validation_error; pr_Failed : list (string * apply_error) }.

#[export] Instance PatchResult_eta : Eta PatchResult := fun r =>
  mkResult (pr_Success r) (pr_Diffs r) (pr_FilesModified r) (pr_FilesCreated r) (pr_FilesDeleted r) (pr_Invalid r)
    (pr_Failed r).

Definition empty_result : PatchResult := mkResult false [] [] [] [] [] [].

Definition note_success (op : PatchOperation) (r : PatchResult) : PatchResult :=
  let path := po_FilePath op in
  match po_Operation op with
  | OpAdd => r <| pr_FilesCreated := pr_FilesCreated r ++ [path] |>
  | OpDelete => r <| pr_FilesDeleted := pr_FilesDeleted r ++ [path] |>
  | OpMove => r <| pr_FilesModified := pr_FilesModified r ++ [path +:+ " -> " +:+ po_NewPath op] |>
  | OpUpdate => r <| pr_FilesModified := pr_FilesModified r ++ [path] |>
  end.

Definition note_diff (diff : string) (r : PatchResult) : PatchResult :=
  if (diff =? "")%string then r else r <| pr_Diffs := pr_Diffs r ++ [diff] |>.

(** Every operation is tried; a cancelled context ends the loop. *)
Fixpoint apply_all (fs : files) (ops : list PatchOperation) (ctx : context) (r : PatchResult) : PatchResult * files :=
  match ops with
  | [] => (r, fs)
  | op :: rest =>
      match poll ctx with
      | None => (r <| pr_Failed := pr_Failed r ++ [("", ApplyCancelled)] |>, fs)
      | Some ctx =>
          match apply_op fs op ctx with
          | (inr diff, fs, ctx) => apply_all fs rest ctx (note_diff diff (note_success op r))
          | (inl e, fs, ctx) => apply_all fs rest ctx (r <| pr_Failed := pr_Failed r ++ [(po_FilePath op, e)] |>)
          end
      end
  end.

Definition applyV4AOperations (fs : files) (ops : list PatchOperation) (ctx : context) : PatchResult * files :=
  match validateOperations fs ops ctx with
  | ((_ :: _) as errors, _) => (empty_result <| pr_Invalid := errors |>, fs)
  | ([], ctx) =>
      let '(r, fs) := apply_all fs ops ctx empty_result in
      (r <| pr_Success := match pr_Failed r with [] => true | _ => false end |>, fs)
  end.

(** ** The tool *)

Inductive patch_outcome :=
| PatchRequired | ParseFailed (e : parse_error) | NoOperations | ValidationFailed (errors : list validation_error)
| ValidationPassed (count : nat) | PatchApplied (r : PatchResult).

Definition executePatch (fs : files) (patchContent mode : string) (ctx : context) : patch_outcome * files :=
  if (patchContent =? "")%string then (PatchRequired, fs) else
  match parseV4APatch patchContent with
  | inl e => (ParseFailed e, fs)
  | inr [] => (NoOperations, fs)
  | inr ops =>
      if (mode =? "validate")%string then
        match validateOperations fs ops ctx with
        | ([], _) => (ValidationPassed (length ops), fs)
        | (errors, _) => (ValidationFailed errors, fs)
        end
      else let '(r, fs) := applyV4AOperations fs ops ctx in (PatchApplied r, fs)
  end.

End Disk.
