(* ===== verification/PatchText.v ===== *)
(** * The text a patch edits

    Lines, occurrences of a pattern, and what [fuzzyFindAndReplace] does: it edits
    one place, the only one whose lines are those of the pattern. *)

From stdpp Require Import base tactics list gmap strings.
From Stdlib Require Import ZArith Lia Bool Ascii String List.
From S2P Require Import Prelude GoLib GoStrings Patch.

(** ** Strings *)

Lemma prefix_app p s : HasPrefix (p +:+ s) p = true.
Proof. unfold HasPrefix. induction p as [|c p IH]; simpl; [by destruct s|]. by destruct (ascii_dec c c). Qed.

Lemma prefix_split p s : HasPrefix s p = true -> exists a, s = p +:+ a.
Proof.
  unfold HasPrefix. revert s. induction p as [|c p IH]; intros s H; [by exists s|].
  destruct s as [|d s]; [done|]. simpl in H. destruct (ascii_dec c d) as [->|]; [|done].
  destruct (IH s H) as [a ->]. by exists a.
Qed.

Lemma substring_all s n : (String.length s <= n)%nat -> String.substring 0 n s = s.
Proof.
  revert n. induction s as [|c s IH]; intros n H; simpl in *; [by destruct n|].
  destruct n as [|n]; [lia|]. simpl. by rewrite IH by lia.
Qed.

Lemma substring_app p s n : (String.length s <= n)%nat -> String.substring (String.length p) n (p +:+ s) = s.
Proof. intros H. induction p as [|c p IH]; simpl; [by apply substring_all|exact IH]. Qed.

Lemma TrimPrefix_app p s : TrimPrefix (p +:+ s) p = s.
Proof. unfold TrimPrefix. rewrite prefix_app, str_length_app. apply substring_app. lia. Qed.

Lemma CutPrefix_app p s : CutPrefix (p +:+ s) p = Some s.
Proof. unfold CutPrefix. by rewrite prefix_app, TrimPrefix_app. Qed.

Lemma CutPrefix_Some p s a : CutPrefix s p = Some a -> s = p +:+ a.
Proof.
  intros H. unfold CutPrefix in H. destruct (HasPrefix s p) eqn:E; [|done].
  destruct (prefix_split p s E) as [b ->]. pose proof (CutPrefix_app p b) as C.
  unfold CutPrefix in C. rewrite E in C. congruence.
Qed.

Lemma str_app_cancel (a b c : string) : a +:+ b = a +:+ c -> b = c.
Proof. induction a as [|x a IH]; simpl; intros H; [done|]. injection H as H. auto. Qed.

Lemma str_app_length_split (a b c d : string) : a +:+ b = c +:+ d -> (String.length a <= String.length c)%nat ->
  exists m, c = a +:+ m /\ b = m +:+ d.
Proof.
  revert c. induction a as [|x a IH]; intros c H L; simpl in *; [by exists c|].
  destruct c as [|y c]; simpl in *; [lia|]. injection H as -> H.
  destruct (IH c H ltac:(lia)) as (m & -> & ->). by exists m.
Qed.

(** ** Occurrences *)

(** [pat] stands after [before] in the text. *)
Definition occurs (text pat before : string) : Prop := exists after, text = before +:+ pat +:+ after.

Lemma occurs_from_start text pat before : occurs text pat before ->
  match text with
  | "" => before = "" /\ pat = ""
  | String c rest => HasPrefix text pat = true \/ exists before', before = String c before' /\ occurs rest pat before'
  end.
Proof.
  intros [after ->]. destruct before as [|c before]; simpl.
  - destruct (pat +:+ after) eqn:E; [by destruct pat|]. left. rewrite <- E. exact (prefix_app pat after).
  - right. exists before. split; [done|by exists after].
Qed.

Lemma cut_sub_Some text pat before after : cut_sub text pat = Some (before, after) -> text = before +:+ pat +:+ after.
Proof.
  revert before after. induction text as [|c text IH]; intros before after H; simpl in H.
  - destruct (CutPrefix "" pat) eqn:E; [|done]. injection H as <- <-. exact (CutPrefix_Some _ _ _ E).
  - destruct (CutPrefix (String c text) pat) eqn:E; [injection H as <- <-; exact (CutPrefix_Some _ _ _ E)|].
    destruct (cut_sub text pat) as [[b a]|] eqn:F; simplify_eq/=. change (String c text = String c (b +:+ pat +:+ after)). by rewrite (IH b after eq_refl) at 1.
Qed.

(** The text is cut at the first occurrence. *)
Lemma cut_sub_first text pat before : pat <> "" -> occurs text pat before ->
  exists b a, cut_sub text pat = Some (b, a) /\ (String.length b <= String.length before)%nat.
Proof.
  intros Hp. revert before. induction text as [|c text IH]; intros before H; pose proof (occurs_from_start _ _ _ H) as S.
  - by destruct S.
  - simpl. unfold CutPrefix. destruct (HasPrefix (String c text) pat) eqn:E; [eexists "", _; split; [done|simpl; lia]|].
    destruct S as [S|(before' & -> & S)]; [congruence|].
    destruct (IH before' S) as (b & a & -> & L). exists (String c b), a. split; [done|simpl; lia].
Qed.

Lemma cut_sub_None text pat before : pat <> "" -> cut_sub text pat = None -> ~ occurs text pat before.
Proof. intros Hp E H. destruct (cut_sub_first _ _ _ Hp H) as (b & a & F & _). congruence. Qed.

Lemma count_skip p a pat : count_from (String.length p) (p +:+ a) pat = count_from 0 a pat.
Proof. induction p as [|c p IH]; [by destruct a|exact IH]. Qed.

(** Each occurrence the text is cut at counts for one. *)
Lemma count_cut text pat before after : pat <> "" -> cut_sub text pat = Some (before, after) ->
  Count text pat = S (Count after pat).
Proof.
  unfold Count. intros Hp. revert before. induction text as [|c text IH]; intros before H; simpl in H.
  - destruct (CutPrefix "" pat) eqn:E; [|done]. apply CutPrefix_Some in E. by destruct pat.
  - unfold CutPrefix in H. cbn [count_from]. destruct (HasPrefix (String c text) pat) eqn:E.
    + destruct (prefix_split _ _ E) as [a Ha]. destruct pat as [|x pat]; [done|]. injection H as <- H.
      rewrite Ha in H. pose proof (CutPrefix_app (String x pat) a) as C. unfold CutPrefix in C.
      rewrite prefix_app in C. injection C as C. rewrite C in H. subst after.
      simpl in Ha. injection Ha as -> ->. simpl. rewrite Nat.sub_0_r. by rewrite count_skip.
    + destruct (cut_sub text pat) as [[b a]|] eqn:F; simplify_eq/=. by apply (IH b).
Qed.

Lemma count_none text pat : pat <> "" -> cut_sub text pat = None -> Count text pat = 0%nat.
Proof.
  unfold Count. intros Hp. induction text as [|c text IH]; intros H; [done|]. cbn [cut_sub count_from] in H |- *.
  unfold CutPrefix in H. destruct (HasPrefix (String c text) pat); [done|].
  destruct (cut_sub text pat) as [[b a]|]; [done|]. by apply IH.
Qed.

(** A pattern counted once: any other occurrence overlaps the first. *)
Lemma count_once text pat before after before' : pat <> "" -> cut_sub text pat = Some (before, after) ->
  Count text pat = 1%nat -> occurs text pat before' ->
  (String.length before <= String.length before' < String.length before + String.length pat)%nat.
Proof.
  intros Hp E C O. destruct (cut_sub_first _ _ _ Hp O) as (b & a & F & L). rewrite E in F. injection F as <- <-.
  split; [done|]. apply Nat.lt_nge. intros G. destruct O as [after' O].
  rewrite (cut_sub_Some _ _ _ _ E) in O at 1.
  assert (exists m, before' = before +:+ pat +:+ m /\ after = m +:+ pat +:+ after') as (m & -> & Ha).
  { rewrite <- !str_app_assoc in O. rewrite (str_app_assoc before') in O.
    destruct (str_app_length_split _ _ _ _ O) as (m & -> & Hm); [rewrite str_length_app; lia|].
    exists m. by rewrite str_app_assoc. }
  destruct (cut_sub_first after pat m Hp) as (b' & a' & F & _); [by exists after'|].
  rewrite (count_cut _ _ _ _ Hp E), (count_cut _ _ _ _ Hp F) in C. lia.
Qed.

(** ** Windows of lines *)

Lemma lines_equal_window lines search : lines_equal lines search = true ->
  exists window rest, lines = window ++ rest /\ Forall2 (fun l s => fuzzyEqual l s = true) window search.
Proof.
  revert lines. induction search as [|s search IH]; intros lines H; [by exists [], lines|].
  destruct lines as [|l lines]; [done|]. apply andb_true_iff in H as [Hl H].
  destruct (IH lines H) as (w & rest & -> & F). exists (l :: w), rest. by split; [|constructor].
Qed.

Lemma window_lines_equal window rest search : Forall2 (fun l s => fuzzyEqual l s = true) window search ->
  lines_equal (window ++ rest) search = true.
Proof. induction 1 as [|l s window search Hl _ IH]; [by destruct rest|]. cbn [lines_equal app]. by rewrite Hl. Qed.

(** The lines from the [k]-th on begin with a window of the pattern. *)
Definition window_at (lines search : list string) (k : nat) : Prop :=
  (k + length search <= length lines)%nat /\ lines_equal (skipn k lines) search = true.

Lemma window_at_cons l lines search k : window_at (l :: lines) search (S k) <-> window_at lines search k.
Proof. unfold window_at. simpl. intuition lia. Qed.

Lemma scan_once ctx search lines : search <> [] -> forall i found ctx' start,
  scan_windows ctx search i found lines = (inr (Some start), ctx') ->
  match found with
  | Some k => start = k /\ forall j, ~ window_at lines search j
  | None => exists k, start = (i + k)%nat /\ window_at lines search k /\ forall j, window_at lines search j -> j = k
  end.
Proof.
  intros Hs. revert ctx. induction lines as [|l lines IH]; intros ctx i found ctx' start H; cbn [scan_windows] in H.
  - destruct search; [done|]. simpl in H. injection H as -> _. split; [done|].
    intros j [W _]. simpl in W. lia.
  - destruct (length (l :: lines) <? length search)%nat eqn:E.
    { injection H as -> _. split; [done|]. intros j [W _]. apply Nat.ltb_lt in E. lia. }
    apply Nat.ltb_ge in E. destruct (if (i mod 64 =? 0)%nat then poll ctx else Some ctx) as [ctx1|]; [|done].
    destruct (lines_equal (l :: lines) search) eqn:F.
    + destruct found as [k|]; [done|]. destruct (IH _ _ _ _ _ H) as [-> W]. exists 0%nat.
      split; [lia|]. split; [by split|]. intros [|j] Hj; [done|]. exfalso. apply window_at_cons in Hj. by apply (W j).
    + destruct found as [k|].
      * destruct (IH _ _ _ _ _ H) as [-> W]. split; [done|]. intros [|j] Hj; [|by apply (W j), (window_at_cons l)].
        destruct Hj as [_ Hj]. simpl skipn in Hj. congruence.
      * destruct (IH _ _ _ _ _ H) as (k & -> & Wk & W). exists (S k). split; [lia|].
        split; [by apply window_at_cons|]. intros [|j] Hj; [destruct Hj as [_ Hj]; simpl skipn in Hj; congruence|].
        f_equal. by apply W, (window_at_cons l).
Qed.

(** Without cancellation the scan ends with the windows there are. *)
Lemma scan_live search lines : forall i found, snd (scan_windows None search i found lines) = None /\
  fst (scan_windows None search i found lines) <> inl CtxErr.
Proof.
  assert (forall i, (if (i mod 64 =? 0)%nat then poll None else Some None) = Some None) as P by (intros i; by case_match).
  induction lines as [|l lines IH]; intros i found; cbn [scan_windows]; rewrite P; destruct (_ <? _)%nat; try done.
  destruct (lines_equal _ _); [destruct found; [done|]|]; apply IH.
Qed.
