(* ===== verification/PatchTheory.v ===== *)
(** * The guarantees of the patch tool

    An edit changes the one place a hunk names; files change only after every
    operation validated, and only files the patch names; a patch whose operations
    are about different files does what it was validated to do. *)

From Stdlib Require Import ZArith Lia Bool Ascii String List.
From stdpp Require Import base tactics list gmap strings.
From S2P Require Import Prelude GoLib GoStrings Patch PatchText.

(** ** One edit *)

(** The text with the one place of the pattern replaced: its only occurrence, those that
    overlap another one counted; or, when it stands nowhere, the one window of lines that
    are its lines up to white space. *)
Inductive edit_once (text pat repl : string) : string -> Prop :=
| edit_exact before after : text = before +:+ pat +:+ after -> (forall b, occurs text pat b -> b = before) ->
    edit_once text pat repl (before +:+ repl +:+ after)
| edit_window k : (forall b, ~ occurs text pat b) ->
    window_at (lines_of text) (lines_of pat) k ->
    (forall j, window_at (lines_of text) (lines_of pat) j -> j = k) ->
    edit_once text pat repl
      (unlines (firstn k (lines_of text) ++ lines_of repl ++ skipn (k + length (lines_of pat)) (lines_of text))).

(** Two occurrences of the pattern share text. *)
Definition overlapping (text pat : string) : Prop :=
  exists b b', occurs text pat b /\ occurs text pat b' /\ (String.length b < String.length b' < String.length b + String.length pat)%nat.

(** The edit the code makes: of the one place, or of the first of several that overlap it. *)
Inductive edit_made (text pat repl : string) : string -> Prop :=
| made_once out : edit_once text pat repl out -> edit_made text pat repl out
| made_first before after : text = before +:+ pat +:+ after -> overlapping text pat ->
    (forall b, occurs text pat b ->
       (String.length before <= String.length b < String.length before + String.length pat)%nat) ->
    edit_made text pat repl (before +:+ repl +:+ after).

Lemma lines_of_nonempty s : lines_of s <> [].
Proof. unfold lines_of. destruct s as [|c s]; simpl; [done|]. destruct (Ascii.eqb c newline); [done|]. by destruct (split_on newline s). Qed.

Lemma edit_once_unique text pat repl out out' : edit_once text pat repl out -> edit_once text pat repl out' -> out = out'.
Proof.
  intros H H'. destruct H as [before after E U|k N W U]; inversion H' as [before' after' E' U' O|k' N' W' U' O]; subst out'.
  - assert (before' = before) as -> by (apply U; by exists after'). rewrite E in E'.
    by rewrite (str_app_cancel _ _ _ (str_app_cancel _ _ _ E')).
  - exfalso. by apply (N' before); exists after.
  - exfalso. by apply (N before'); exists after'.
  - by rewrite (U' k W).
Qed.

(** An occurrence at the length of another is that one. *)
Lemma occurs_same_length text pat b b' : occurs text pat b -> occurs text pat b' -> String.length b = String.length b' -> b = b'.
Proof.
  intros [a E] [a' E'] L. rewrite E in E'. destruct (str_app_length_split _ _ _ _ E' ltac:(lia)) as (m & -> & _).
  rewrite str_length_app in L. destruct m; [by rewrite str_app_nil|simpl in L; lia].
Qed.

(** A first occurrence is the only one, or another one comes later. *)
Lemma other_occurrence text pat before after : pat <> "" -> text = before +:+ pat +:+ after ->
  (forall b, occurs text pat b -> (String.length before <= String.length b)%nat) ->
  (forall b, occurs text pat b -> b = before) \/ exists b, occurs text pat b /\ (String.length before < String.length b)%nat.
Proof.
  intros Hp E F. assert (occurs text pat before) as O by by exists after. destruct pat as [|c pat]; [done|].
  destruct (cut_sub (pat +:+ after) (String c pat)) as [[b2 a2]|] eqn:C; [right|left].
  - exists (before +:+ String c b2). split; [|rewrite str_length_app; simpl; lia]. exists a2. rewrite E, str_app_assoc.
    f_equal. apply cut_sub_Some in C. exact (f_equal (String c) C).
  - intros b [a Eb]. pose proof (F b ltac:(by exists a)) as L. rewrite E in Eb.
    destruct (str_app_length_split _ _ _ _ Eb L) as (m & -> & Em). destruct m as [|x m]; [by rewrite str_app_nil|]. exfalso.
    simpl in Em. injection Em as <- Em. apply (cut_sub_None _ _ m Hp C). by exists a.
Qed.

Lemma fuzzy_sound ctx text pat repl out how ctx' :
  fuzzyFindAndReplace ctx text pat repl = (inr (out, how), ctx') -> edit_made text pat repl out.
Proof.
  unfold fuzzyFindAndReplace. destruct (pat =? "")%string eqn:E; [done|]. apply String.eqb_neq in E.
  destruct (poll ctx) as [ctx1|]; [|done]. destruct (1 <? Count text pat)%nat eqn:C; [done|]. apply Nat.ltb_ge in C.
  destruct (cut_sub text pat) as [[before after]|] eqn:F.
  - intros H. injection H as <- _ _. pose proof (cut_sub_Some _ _ _ _ F) as T.
    assert (forall b, occurs text pat b -> (String.length before <= String.length b < String.length before + String.length pat)%nat) as U.
    { intros b. apply (count_once _ _ _ after); try done. rewrite (count_cut _ _ _ _ E F) in C |- *. lia. }
    destruct (other_occurrence _ _ _ _ E T (fun b O => proj1 (U b O))) as [S|(b & O & L)].
    + by apply made_once, edit_exact.
    + apply made_first; [done| |done]. exists before, b. split; [by exists after|]. split; [done|]. split; [done|]. by apply U.
  - destruct (length (lines_of text) <? length (lines_of pat))%nat; [done|]. destruct (_ <? comparisons _ _)%Z; [done|].
    destruct (scan_windows ctx1 (lines_of pat) 0 None (lines_of text)) as [[|[start|]] ctx2] eqn:S; try done.
    intros H. injection H as <- _ _. destruct (scan_once _ _ _ (lines_of_nonempty pat) _ _ _ _ S) as (k & -> & Wk & W).
    apply made_once, edit_window; [|done|done]. intros b. by apply cut_sub_None.
Qed.

(** Every window before the end is counted: the scan reports none, one, or more. *)
Lemma scan_complete search lines : search <> [] -> forall i found k,
  window_at lines search k -> (forall j, window_at lines search j -> j = k) ->
  fst (scan_windows None search i found lines) = match found with Some _ => inl AmbiguousNormalized | None => inr (Some (i + k)%nat) end.
Proof.
  intros Hs. assert (forall i, (if (i mod 64 =? 0)%nat then poll None else Some None) = Some None) as P by (intros i; by case_match).
  assert (forall lines i n, (forall j, ~ window_at lines search j) -> fst (scan_windows None search i (Some n) lines) = inr (Some n)) as None_left.
  { clear lines. intros lines. induction lines as [|l lines IH]; intros i n N; cbn [scan_windows]; rewrite P; destruct (_ <? _)%nat eqn:L; try done.
    apply Nat.ltb_ge in L. destruct (lines_equal _ _) eqn:F; [exfalso; by apply (N 0%nat)|].
    apply IH. intros j W. by apply (N (S j)), window_at_cons. }
  induction lines as [|l lines IH]; intros i found k W U; cbn [scan_windows]; rewrite P; destruct (_ <? _)%nat eqn:L.
  1, 3: apply Nat.ltb_lt in L; destruct W; lia.
  - destruct W as [W _], search; simpl in *; [done|lia].
  - apply Nat.ltb_ge in L. destruct (lines_equal (l :: lines) search) eqn:F.
    + assert (k = 0%nat) as -> by (symmetry; apply U; by split). destruct found; [done|].
      rewrite None_left; [by rewrite Nat.add_0_r|]. intros j Wj. apply (window_at_cons l) in Wj. by apply U in Wj.
    + destruct k as [|k]; [destruct W as [_ W]; simpl skipn in W; congruence|].
      rewrite (IH (S i) found k).
      * destruct found; [done|]. by rewrite Nat.add_succ_r.
      * by apply window_at_cons in W.
      * intros j Wj. apply (window_at_cons l), U in Wj. by injection Wj.
Qed.

Lemma fuzzy_complete text pat repl out : pat <> "" ->
  (comparisons (lines_of text) (lines_of pat) <= maxPatchFuzzyComparisons)%Z \/ (exists b, occurs text pat b) -> edit_once text pat repl out ->
  exists how, fuzzyFindAndReplace None text pat repl = (inr (out, how), None).
Proof.
  intros Hp B H. unfold fuzzyFindAndReplace. apply String.eqb_neq in Hp as Hp'. rewrite Hp'. cbn [poll].
  destruct (cut_sub text pat) as [[b a]|] eqn:F; pose proof (fun b => cut_sub_None text pat b Hp) as N0.
  - pose proof (cut_sub_Some _ _ _ _ F) as E'.
    inversion H as [before after E U O|k N]; subst out; [|exfalso; by apply (N b); exists a].
    assert (b = before) as -> by (apply U; by exists a). rewrite E in E' at 1. apply str_app_cancel, str_app_cancel in E' as <-.
    assert (Count text pat = 1%nat) as ->; [|by exists Exact]. rewrite (count_cut _ _ _ _ Hp F). f_equal.
    destruct (cut_sub after pat) as [[b2 a2]|] eqn:G; [|by apply count_none]. exfalso.
    assert (before +:+ pat +:+ b2 = before) as X.
    { apply U. exists a2. rewrite E, (cut_sub_Some _ _ _ _ G) at 1. by rewrite !str_app_assoc. }
    apply (f_equal String.length) in X. rewrite !str_length_app in X. destruct pat; [done|simpl in X; lia].
  - destruct B as [B|[b O]]; [|by destruct (N0 b F)]. rewrite (count_none _ _ Hp F). change (1 <? 0)%nat with false. cbv iota.
    inversion H as [before after E U O|k N W U O]; subst out; [exfalso; by apply (N0 before F); exists after|].
    replace (length (lines_of text) <? length (lines_of pat))%nat with false by (symmetry; apply Nat.ltb_ge; destruct W; lia).
    replace (_ <? comparisons _ _)%Z with false by (symmetry; by apply Z.ltb_ge).
    pose proof (scan_complete _ _ (lines_of_nonempty pat) 0 None k W U) as S.
    pose proof (proj1 (scan_live (lines_of pat) (lines_of text) 0 None)) as L.
    destruct (scan_windows None _ 0 None _) as [r ctx2]. simpl in S, L. subst r ctx2. by exists NormalizedWhitespace.
Qed.

Lemma fuzzy_out_of_bound ctx text pat repl : (forall b, ~ occurs text pat b) ->
  (maxPatchFuzzyComparisons < comparisons (lines_of text) (lines_of pat))%Z ->
  exists e, fst (fuzzyFindAndReplace ctx text pat repl) = inl e.
Proof.
  intros N B%Z.ltb_lt. unfold fuzzyFindAndReplace. destruct (pat =? "")%string; [eauto|]. destruct (poll ctx); [|eauto].
  destruct (1 <? _)%nat; [eauto|]. destruct (cut_sub text pat) as [[b a]|] eqn:F.
  - destruct (N b). exists a. by apply cut_sub_Some.
  - destruct (_ <? _)%nat; [eauto|]. rewrite B. eauto.
Qed.

(** C28: a hunk edits one place.  Whatever the tool returns for a nonempty pattern is the
    text with the pattern's only occurrence replaced, or, when it occurs nowhere, its
    only window of lines equal up to white space; unless two occurrences of the pattern
    overlap, when the tool may take them for one.  Without cancellation it makes that
    edit whenever there is one, when the pattern occurs or the windows stay within the
    bound of 2,000,000 line comparisons; beyond the bound a pattern that does not occur
    is refused.  At most one result is such an edit. *)
Theorem hunk_edits_one_place text pat repl : pat <> "" ->
  (forall ctx out how, fst (fuzzyFindAndReplace ctx text pat repl) = inr (out, how) ->
     edit_once text pat repl out \/ overlapping text pat) /\
  (forall out, edit_once text pat repl out ->
     (comparisons (lines_of text) (lines_of pat) <= 2000000)%Z \/ (exists b, occurs text pat b) ->
     exists how, fst (fuzzyFindAndReplace None text pat repl) = inr (out, how)) /\
  ((forall b, ~ occurs text pat b) -> (2000000 < comparisons (lines_of text) (lines_of pat))%Z ->
     forall ctx, exists e, fst (fuzzyFindAndReplace ctx text pat repl) = inl e) /\
  (forall out out', edit_once text pat repl out -> edit_once text pat repl out' -> out = out').
Proof.
  intros Hp. split; [|split; [|split]].
  - intros ctx out how H. destruct (fuzzyFindAndReplace ctx text pat repl) as [r ctx'] eqn:E. simpl in H. subst r.
    apply fuzzy_sound in E as [|]; [by left|by right].
  - intros out H B. destruct (fuzzy_complete _ _ _ _ Hp B H) as [how E]. exists how. by rewrite E.
  - intros N B ctx. by apply fuzzy_out_of_bound.
  - apply edit_once_unique.
Qed.

Definition two_lines (a b : string) : string := unlines [a; b].

Lemma hunk_edits_one_place_witness :
  edit_once (unlines ["a"; "x := 1"; "b"]) "x := 1" "y" (unlines ["a"; "y"; "b"]) /\
  exists how, fst (fuzzyFindAndReplace None (unlines ["a"; "x := 1"; "b"]) "x := 1" "y") = inr (unlines ["a"; "y"; "b"], how).
Proof.
  destruct (hunk_edits_one_place (unlines ["a"; "x := 1"; "b"]) "x := 1" "y" ltac:(done)) as (S & C & _).
  assert (edit_once (unlines ["a"; "x := 1"; "b"]) "x := 1" "y" (unlines ["a"; "y"; "b"])) as E.
  { apply (edit_exact _ _ _ (unlines ["a"; ""]) (unlines [""; "b"])); [done|]. intros b [a E]. vm_compute in E.
    destruct b as [|c1 [|c2 [|c3 [|c4 [|c5 b]]]]]; [discriminate E|discriminate E|simpl in E; by simplify_eq|discriminate E|discriminate E|exfalso].
    apply (f_equal String.length) in E. simpl in E. rewrite str_length_app in E. simpl in E. lia. }
  split; [exact E|]. apply C; [exact E|]. left. vm_compute. discriminate.
Defined.

(** ** The files a patch may touch *)

Definition op_paths (op : PatchOperation) : list string :=
  match po_Operation op with OpMove => [po_FilePath op; po_NewPath op] | _ => [po_FilePath op] end.

Section Files.
Context {disk : Disk}.

Lemma atomic_write_elsewhere fs path content p : p <> path -> (snd (atomicWriteBytes fs path content)) !! p = fs !! p.
Proof.
  intros H. unfold atomicWriteBytes. destruct (path =? "")%string; [done|].
  destruct (write_result path); simpl; [|done|]; by rewrite lookup_insert_ne.
Qed.

Lemma apply_op_elsewhere fs op ctx p : p ∉ op_paths op -> (snd (fst (apply_op fs op ctx))) !! p = fs !! p.
Proof.
  unfold apply_op, op_paths. destruct (po_Operation op) eqn:E; intros H.
  - unfold applyAdd. destruct (mkdir_refused _); [done|].
    pose proof (atomic_write_elsewhere fs (po_FilePath op) (unlines (added_lines op)) p ltac:(set_solver)) as A.
    by destruct (atomicWriteBytes _ _ _) as [[] fs'].
  - unfold applyUpdate. destruct (fs !! po_FilePath op) as [content|]; [|done].
    destruct (apply_hunks _ _ _ _) as [[e|[content' diffs]] ctx']; [done|].
    pose proof (atomic_write_elsewhere fs (po_FilePath op) content' p ltac:(set_solver)) as A.
    by destruct (atomicWriteBytes _ _ _) as [[] fs'].
  - unfold applyDelete. destruct (fs !! po_FilePath op); [|done]. destruct (remove_refused _); [done|].
    simpl. rewrite lookup_delete_ne; set_solver.
  - unfold applyMove. destruct (fs !! po_FilePath op); [|done]. destruct (rename_refused _ _); [done|].
    simpl. rewrite lookup_insert_ne, lookup_delete_ne; set_solver.
Qed.

Lemma apply_all_elsewhere ops p : p ∉ flat_map op_paths ops -> forall fs ctx r,
  (snd (apply_all fs ops ctx r)) !! p = fs !! p.
Proof.
  induction ops as [|op ops IH]; intros H fs ctx r; cbn [apply_all]; [done|].
  assert ((p ∉ op_paths op) /\ (p ∉ flat_map op_paths ops)) as [H1 H2] by (simpl in H; set_solver).
  destruct (poll ctx) as [ctx1|]; [|done]. pose proof (apply_op_elsewhere fs op ctx1 p H1) as A.
  destruct (apply_op fs op ctx1) as [[[e|diff] fs'] ctx2]; simpl in A; rewrite (IH H2); exact A.
Qed.

(** C27: files change only after every operation of a patch that parses was found
    valid, never in validation mode; and only the files the operations name change,
    whatever is refused or cancelled on the way. *)
Theorem files_change_after_validation fs patchContent mode ctx outcome fs' :
  executePatch fs patchContent mode ctx = (outcome, fs') -> fs' <> fs ->
  exists ops, parseV4APatch patchContent = inr ops /\ mode <> "validate" /\ fst (validateOperations fs ops ctx) = [] /\
    forall path, path ∉ flat_map op_paths ops -> fs' !! path = fs !! path.
Proof.
  unfold executePatch, applyV4AOperations. intros H N. destruct (patchContent =? "")%string; [by simplify_eq|].
  destruct (parseV4APatch patchContent) as [e|[|op ops]] eqn:P; [by simplify_eq..|].
  destruct (mode =? "validate")%string eqn:M.
  { destruct (validateOperations fs (op :: ops) ctx) as [[|] ctx']; by simplify_eq. }
  apply String.eqb_neq in M. destruct (validateOperations fs (op :: ops) ctx) as [[|] ctx'] eqn:V; [|by simplify_eq].
  exists (op :: ops). rewrite V. do 3 (split; [done|]). intros path Hp.
  pose proof (apply_all_elsewhere (op :: ops) path Hp fs ctx' empty_result) as A.
  destruct (apply_all fs (op :: ops) ctx' empty_result) as [r fs2]. simpl in A. by injection H as _ <-.
Qed.

(** ** A validated patch *)

(** The edits of an update, one hunk after the other, as the code makes them. *)
Inductive edits : list Hunk -> string -> string -> Prop :=
| edits_none content : edits [] content content
| edits_hunk h rest content content1 content2 :
    edit_made content (unlines (search_lines h)) (unlines (replace_lines h)) content1 ->
    edits rest content1 content2 -> edits (h :: rest) content content2.

(** What the operation does to the files it names, from the files before. *)
Definition op_done (fs fs' : files) (op : PatchOperation) : Prop :=
  let path := po_FilePath op in
  match po_Operation op with
  | OpAdd => fs' !! path = Some (unlines (added_lines op))
  | OpUpdate => exists content content', fs !! path = Some content /\ edits (po_Hunks op) content content' /\ fs' !! path = Some content'
  | OpDelete => is_Some (fs !! path) /\ fs' !! path = None
  | OpMove => is_Some (fs !! path) /\ fs' !! po_NewPath op = fs !! path /\ fs' !! path = None
  end.

(** Every hunk of an update names lines to find. *)
Definition op_searches (op : PatchOperation) : Prop :=
  po_Operation op = OpUpdate -> Forall (fun h => search_lines h <> []) (po_Hunks op).

Definition op_permitted (op : PatchOperation) : Prop :=
  let path := po_FilePath op in
  path <> "" /\
  match po_Operation op with
  | OpAdd => mkdir_refused path = false /\ write_result path = WriteDone
  | OpUpdate => write_result path = WriteDone
  | OpDelete => remove_refused path = false
  | OpMove => rename_refused path (po_NewPath op) = false
  end.

Lemma fuzzy_live text pat repl : snd (fuzzyFindAndReplace None text pat repl) = None.
Proof.
  unfold fuzzyFindAndReplace. cbn [poll]. destruct (pat =? "")%string; [done|]. destruct (1 <? _)%nat; [done|].
  destruct (cut_sub text pat) as [[b a]|]; [done|]. destruct (_ <? _)%nat; [done|]. destruct (_ <? _)%Z; [done|].
  pose proof (proj1 (scan_live (lines_of pat) (lines_of text) 0 None)) as L.
  by destruct (scan_windows None _ 0 None _) as [[|[|]] ctx].
Qed.

Lemma validated_hunks_apply path hunks : Forall (fun h => search_lines h <> []) hunks -> forall content diffs,
  fst (validate_hunks path hunks None content) = [] ->
  exists out diffs', apply_hunks hunks None content diffs = (inr (out, diffs'), None) /\ edits hunks content out.
Proof.
  induction 1 as [|h hunks Hh _ IH]; intros content diffs V; [by exists content, diffs; split; [|constructor]|].
  cbn [validate_hunks apply_hunks poll] in *. unfold validate_hunk in V. destruct (search_lines h) as [|s search] eqn:S; [done|].
  pose proof (fuzzy_live content (unlines (s :: search)) (unlines (replace_lines h))) as L.
  destruct (fuzzyFindAndReplace None content _ _) as [[e|[content1 how]] ctx] eqn:F; simpl in L; subst ctx.
  { destruct (validate_hunks path hunks None content). by simpl in V. }
  apply fuzzy_sound in F. destruct (IH content1 (if (hk_ContextHint h =? "")%string then diffs
    else diffs ++ ["# hunk @" +:+ hk_ContextHint h +:+ " (" +:+ strategy_text how +:+ ")"])) as (out & diffs' & A & E).
  { by destruct (validate_hunks path hunks None content1). }
  exists out, diffs'. split; [done|]. econstructor; [|done]. by rewrite S.
Qed.

Lemma validate_hunks_live path hunks : forall content, snd (validate_hunks path hunks None content) = None.
Proof.
  induction hunks as [|h hunks IH]; intros content; [done|]. cbn [validate_hunks]. unfold validate_hunk.
  destruct (search_lines h) as [|s search].
  - specialize (IH content). destruct (validate_hunks path hunks None content) as [more ctx] eqn:E. simpl in IH. subst ctx.
    destruct (hk_ContextHint h =? "")%string; simpl; by rewrite E.
  - pose proof (fuzzy_live content (unlines (s :: search)) (unlines (replace_lines h))) as L.
    destruct (fuzzyFindAndReplace None content _ _) as [[e|[content1 how]] ctx]; simpl in L; subst ctx.
    + specialize (IH content). by destruct (validate_hunks path hunks None content).
    + specialize (IH content1). by destruct (validate_hunks path hunks None content1).
Qed.

Lemma validate_op_live fs op : snd (validate_op fs op None) = None.
Proof.
  unfold validate_op. destruct (po_Operation op); try done. destruct (fs !! po_FilePath op); [|done].
  apply validate_hunks_live.
Qed.

(** A valid operation that nothing refuses does what it says, on files that agree
    with the validated ones on the path it reads. *)
Lemma validated_op_applies fs0 fs op : fs !! po_FilePath op = fs0 !! po_FilePath op ->
  NoDup (op_paths op) -> op_searches op -> op_permitted op -> fst (validate_op fs0 op None) = [] ->
  exists diff fs', apply_op fs op None = (inr diff, fs', None) /\ op_done fs0 fs' op.
Proof.
  unfold op_searches, op_permitted, op_paths, validate_op, apply_op, op_done. intros E N S [Hp P] V.
  apply String.eqb_neq in Hp. destruct (po_Operation op).
  - destruct P as [P W]. unfold applyAdd, atomicWriteBytes. rewrite P, Hp, W. do 2 eexists. split; [done|]. apply lookup_insert_eq.
  - unfold applyUpdate, atomicWriteBytes. rewrite E. destruct (fs0 !! po_FilePath op) as [content|]; [|done].
    destruct (validated_hunks_apply _ _ (S eq_refl) _ [] V) as (out & diffs & -> & D). rewrite Hp, P.
    do 2 eexists. split; [done|]. exists content, out. split; [done|]. split; [done|]. apply lookup_insert_eq.
  - unfold applyDelete. rewrite E. destruct (fs0 !! po_FilePath op); [|done]. rewrite P. do 2 eexists. split; [done|].
    split; [done|]. apply lookup_delete_eq.
  - unfold applyMove. rewrite E. destruct (fs0 !! po_FilePath op) as [content|]; [|simpl in V; by destruct (po_NewPath op =? "")%string].
    rewrite P. do 2 eexists. split; [done|]. split; [done|]. split; [apply lookup_insert_eq|].
    apply NoDup_cons in N as [N _]. rewrite lookup_insert_ne by set_solver. apply lookup_delete_eq.
Qed.

Lemma op_done_agree fs fs1 fs2 op : (forall p, p ∈ op_paths op -> fs2 !! p = fs1 !! p) -> op_done fs fs1 op -> op_done fs fs2 op.
Proof.
  unfold op_done, op_paths. intros A D. assert (fs2 !! po_FilePath op = fs1 !! po_FilePath op) as E
    by (apply A; destruct (po_Operation op); set_solver). destruct (po_Operation op); rewrite E; [done..|].
  rewrite (A (po_NewPath op)) by set_solver. done.
Qed.

Lemma validated_ops_apply fs0 ops : NoDup (flat_map op_paths ops) -> Forall op_searches ops -> Forall op_permitted ops ->
  fst (validateOperations fs0 ops None) = [] -> forall fs r, (forall p, p ∈ flat_map op_paths ops -> fs !! p = fs0 !! p) ->
  pr_Failed (fst (apply_all fs ops None r)) = pr_Failed r /\ Forall (op_done fs0 (snd (apply_all fs ops None r))) ops.
Proof.
  induction ops as [|op ops IH]; intros N S P V fs r A; [done|]. cbn [flat_map validateOperations poll] in *.
  apply NoDup_app in N as (N1 & N2 & N3). apply Forall_cons in S as [S1 S2]. apply Forall_cons in P as [P1 P2].
  pose proof (validate_op_live fs0 op) as L. destruct (validate_op fs0 op None) as [errors ctx] eqn:V1. simpl in L. subst ctx.
  destruct (validateOperations fs0 ops None) as [more ctx]. simpl in V. apply app_eq_nil in V as [-> ->].
  destruct (validated_op_applies fs0 fs op) as (diff & fs1 & E & D); try done.
  { apply A. unfold op_paths. destruct (po_Operation op); set_solver. }
  { by rewrite V1. }
  cbn [apply_all poll]. pose proof (fun p H => apply_op_elsewhere fs op None p H) as O. rewrite E in O |- *. simpl in O.
  destruct (IH N3 S2 P2 eq_refl fs1 (note_diff diff (note_success op r))) as [F D'].
  { intros p Hp. rewrite O by set_solver. apply A. set_solver. }
  split; [rewrite F; unfold note_diff, note_success; destruct (diff =? "")%string, (po_Operation op); done|].
  constructor; [|done]. apply (op_done_agree _ fs1); [|done]. intros p Hp. apply apply_all_elsewhere. set_solver.
Qed.

(** C26: a validated patch does what it says.  When the operations name pairwise
    different paths, every hunk of an update names lines to find and the disk
    refuses none of them, a patch with no validation error is applied with success:
    every update carries the edits of its hunks (each at its one place, or at the first
    of several that overlap), every added file holds the added
    lines, deleted and moved files are gone, a moved file keeps its contents at the
    new path, and all other files are as before. *)
Theorem validated_patch_applies fs ops : NoDup (flat_map op_paths ops) -> Forall op_searches ops -> Forall op_permitted ops ->
  fst (validateOperations fs ops None) = [] ->
  exists r fs', applyV4AOperations fs ops None = (r, fs') /\ pr_Success r = true /\ pr_Failed r = [] /\
    Forall (op_done fs fs') ops /\ forall path, path ∉ flat_map op_paths ops -> fs' !! path = fs !! path.
Proof.
  intros N S P V. unfold applyV4AOperations.
  assert (snd (validateOperations fs ops None) = None) as L.
  { clear. induction ops as [|op ops IH]; [done|]. cbn [validateOperations poll]. pose proof (validate_op_live fs op) as L.
    destruct (validate_op fs op None) as [errors ctx]. simpl in L. subst ctx. by destruct (validateOperations fs ops None). }
  pose proof (validated_ops_apply fs ops N S P V fs empty_result ltac:(done)) as [F D].
  pose proof (fun p H => apply_all_elsewhere ops p H fs None empty_result) as O.
  destruct (validateOperations fs ops None) as [errors ctx]. simpl in V, L. subst errors ctx.
  destruct (apply_all fs ops None empty_result) as [r fs']. simpl in F, D, O. do 2 eexists. split; [done|].
  change (pr_Failed empty_result) with (@nil (string * apply_error)) in F. rewrite F. done.
Qed.

End Files.

(** ** On a disk that refuses nothing *)

Definition permissive : Disk := {|
  mkdir_refused := fun _ => false; write_result := fun _ => WriteDone; remove_refused := fun _ => false;
  rename_refused := fun _ _ => false; other_exists := fun _ => false |}.

#[local] Existing Instance permissive.

Definition sample_files : files := {["a.go" := two_lines "one" "two"; "b.go" := "b"; "d.go" := "d"]}.

Definition sample_ops : list PatchOperation :=
  [mkOp OpUpdate "a.go" "" [mkHunk "" [mkHunkLine Removed "one"; mkHunkLine Added "1"]];
   mkOp OpMove "b.go" "c.go" []; mkOp OpDelete "d.go" "" []; mkOp OpAdd "e.go" "" [mkHunk "" [mkHunkLine Added "e"]]].

Definition sample_patch : string := unlines
  ["*** Begin Patch"; "*** Update File: a.go"; "-one"; "+1"; "*** Delete File: d.go"; "*** End Patch"].

Lemma files_change_after_validation_witness :
  exists ops, parseV4APatch sample_patch = inr ops /\ "apply" <> "validate" /\
    fst (validateOperations sample_files ops None) = [] /\
    forall path, path ∉ flat_map op_paths ops -> (delete "d.go" (<["a.go" := two_lines "1" "two"]> sample_files)) !! path = sample_files !! path.
Proof.
  apply (files_change_after_validation sample_files sample_patch "apply" None
    (PatchApplied (mkResult true ["# Deleted: d.go"] ["a.go"] [] ["d.go"] [] []))).
  - vm_compute. reflexivity.
  - intros H. apply (f_equal (fun fs : files => fs !! "d.go")) in H. vm_compute in H. discriminate.
Defined.

Lemma validated_patch_applies_witness :
  exists r fs', applyV4AOperations sample_files sample_ops None = (r, fs') /\ pr_Success r = true /\ pr_Failed r = [] /\
    Forall (op_done sample_files fs') sample_ops /\
    forall path, path ∉ flat_map op_paths sample_ops -> fs' !! path = sample_files !! path.
Proof.
  apply (validated_patch_applies sample_files sample_ops).
  - simpl. repeat constructor; set_solver.
  - repeat (apply Forall_cons; split; [first [discriminate | intros _; repeat constructor; discriminate]|]). constructor.
  - repeat (apply Forall_cons; split; [split; [discriminate|repeat split]|]). constructor.
  - vm_compute. reflexivity.
Defined.

(** ** What validation does not see *)

Definition inserting_ops : list PatchOperation :=
  [mkOp OpDelete "d.go" "" []; mkOp OpUpdate "a.go" "" [mkHunk "one" [mkHunkLine Added "zero"]]].

(** A hunk that only adds lines is validated by its hint and then never applies: its
    empty search is refused, after the operations before it changed their files. *)
Theorem addition_only_hunk_half_applied :
  fst (validateOperations sample_files inserting_ops None) = [] /\
  exists r fs', applyV4AOperations sample_files inserting_ops None = (r, fs') /\ pr_Success r = false /\
    pr_Failed r = [("a.go", HunkFailed EmptyPattern)] /\ fs' !! "d.go" = None /\ is_Some (sample_files !! "d.go").
Proof.
  split; [by vm_compute|]. do 2 eexists. split; [vm_compute; reflexivity|]. repeat (split; [by vm_compute|]).
  by eexists.
Qed.

Definition twice_ops : list PatchOperation :=
  [mkOp OpUpdate "a.go" "" [mkHunk "" [mkHunkLine Removed "one"; mkHunkLine Added "1"]];
   mkOp OpUpdate "a.go" "" [mkHunk "" [mkHunkLine Context "one"; mkHunkLine Removed "two"]]].

(** Every operation is validated against the files as they are: the second update of
    a file can be valid and fail on what the first one left. *)
Theorem second_update_half_applied :
  fst (validateOperations sample_files twice_ops None) = [] /\
  exists r fs', applyV4AOperations sample_files twice_ops None = (r, fs') /\ pr_Success r = false /\
    pr_Failed r = [("a.go", HunkFailed NotFound)] /\ fs' !! "a.go" = Some (two_lines "1" "two").
Proof. split; [by vm_compute|]. do 2 eexists. split; [vm_compute; reflexivity|]. repeat (split; [by vm_compute|]). by vm_compute. Qed.

(** Equal blocks that overlap are counted as one, and the first is edited. *)
Theorem overlapping_blocks_edited :
  overlapping (unlines ["}"; "}"; "}"]) (unlines ["}"; "}"]) /\
  fst (fuzzyFindAndReplace None (unlines ["}"; "}"; "}"]) (unlines ["}"; "}"]) "end") = inr (unlines ["end"; "}"], Exact).
Proof.
  split; [|by vm_compute]. exists "", (unlines ["}"; ""]). split; [by exists (nl +:+ "}")|]. split; [by exists ""|]. vm_compute. lia.
Qed.

(** A hunk line is searched as text, not as a line: it is found inside a longer one. *)
Theorem hunk_matches_inside_line :
  fst (fuzzyFindAndReplace None "max = 10" "x = 1" "x = 2") = inr ("max = 20", Exact).
Proof. by vm_compute. Qed.

(** The closing marker of the documented hunk line is part of the hint. *)
Theorem hint_keeps_closing_marker : hint_of "@@ func main @@" = "func main @@".
Proof. by vm_compute. Qed.

(** No operation the parser makes lacks the hunks its last check asks for: an update
    without them is dropped before. *)
Theorem update_without_hunks_dropped path : path_marker "Update" ("*** Update File: " +:+ path) = Some path ->
  parse_lines ["*** Update File: " +:+ path] = [].
Proof. intros H. unfold parse_lines. cbn [fold_left]. unfold parse_line. by rewrite H. Qed.
