(* ===== verification/PatchParse.v ===== *)
(** * Patches are read back

    The text of a list of operations parses to those operations. *)

From Stdlib Require Import ZArith Lia Bool Ascii String List.
From stdpp Require Import base tactics list gmap strings.
From S2P Require Import Prelude GoLib GoStrings Patch PatchText.

(** ** Rendering *)

Definition prefix_text (p : line_prefix) : string := match p with Context => " " | Removed => "-" | Added => "+" end.
Definition render_line (l : HunkLine) : string := prefix_text (hl_Prefix l) +:+ hl_Content l.
Definition render_hunk (h : Hunk) : list string := ("@@ " +:+ hk_ContextHint h) :: map render_line (hk_Lines h).

Definition render_op (op : PatchOperation) : list string :=
  match po_Operation op with
  | OpUpdate => ("*** Update File: " +:+ po_FilePath op) :: flat_map render_hunk (po_Hunks op)
  | OpAdd => ("*** Add File: " +:+ po_FilePath op) :: flat_map render_hunk (po_Hunks op)
  | OpDelete => ["*** Delete File: " +:+ po_FilePath op]
  | OpMove => ["*** Move File: " +:+ po_FilePath op +:+ " -> " +:+ po_NewPath op]
  end.

Definition render_patch (ops : list PatchOperation) : string :=
  unlines ("*** Begin Patch" :: flat_map render_op ops ++ ["*** End Patch"]).

(** ** The operations a patch can carry *)

Definition trimmed (s : string) : bool := (TrimSpace s =? s)%string.
Definition path_ok (s : string) : bool := negb (s =? "")%string && trimmed s.
Definition hunk_ok (h : Hunk) : bool := trimmed (hk_ContextHint h) && match hk_Lines h with [] => false | _ => true end.

Definition op_ok (op : PatchOperation) : bool :=
  path_ok (po_FilePath op) &&
  match po_Operation op with
  | OpAdd => (po_NewPath op =? "")%string && forallb hunk_ok (po_Hunks op)
  | OpUpdate => (po_NewPath op =? "")%string && forallb hunk_ok (po_Hunks op) && match po_Hunks op with [] => false | _ => true end
  | OpDelete => (po_NewPath op =? "")%string && match po_Hunks op with [] => true | _ => false end
  | OpMove => path_ok (po_NewPath op) && negb (Contains (po_FilePath op) "->") && match po_Hunks op with [] => true | _ => false end
  end.

(** A line of a patch body: one line, and no boundary of the patch. *)
Definition plain_line (line : string) : bool :=
  negb (Contains line nl) && negb (is_begin line) && negb (is_end line).

(** ** Lines *)

Lemma split_unlines l : forall first, Forall (fun line => Contains line nl = false) (first :: l) ->
  lines_of (unlines (first :: l)) = first :: l.
Proof.
  assert (forall line, Contains line nl = false -> lines_of line = [line] /\
    forall rest, split_on newline (line +:+ nl +:+ rest) = line :: split_on newline rest) as S.
  { intros line. induction line as [|c line IH]; intros H; [done|].
    simpl in H. apply orb_false_iff in H as [H1 H2]. destruct (IH H2) as [I J].
    assert (Ascii.eqb c newline = false) as E.
    { destruct (Ascii.eqb_spec c newline) as [->|]; [|done]. by destruct line. }
    split.
    - unfold lines_of in *. cbn [split_on]. by rewrite E, I.
    - intros rest. change (split_on newline (String c (line +:+ nl +:+ rest)) = String c line :: split_on newline rest).
      cbn [split_on]. by rewrite E, J. }
  induction l as [|x l IH]; intros first H; apply Forall_cons in H as [H1 H2]; [by apply (S first)|].
  change (split_on newline (first +:+ nl +:+ unlines (x :: l)) = first :: x :: l).
  rewrite (proj2 (S first H1)). f_equal. by apply IH.
Qed.

(** ** Trimming *)

Lemma TrimSpace_blank s : TrimSpace (String " " s) = TrimSpace s.
Proof. by unfold TrimSpace, trim_front. Qed.

Lemma trimmed_ends s : TrimSpace s = s ->
  strip_front (list_ascii_of_string s) = None /\ strip_back (rev (list_ascii_of_string s)) = None.
Proof.
  intros H. rewrite <- H. unfold TrimSpace. rewrite list_ascii_of_string_of_list_ascii.
  split; [apply trim_back_front, trim_front_done|apply trim_back_done].
Qed.

Lemma strip_front_more l : strip_front l = None -> l <> [] -> strip_front (l ++ [" "%char]) = None.
Proof.
  intros H N. destruct l as [|a [|b [|c l]]]; [done|..]; simpl in *; destruct (ascii_space a); try done.
  - replace (space2 a " ") with false; [done|]. unfold space2. symmetry. by destruct (code a =? 0xC2)%N.
  - destruct (space2 a b); [done|]. replace (space3 a b " ") with false; [done|]. symmetry. unfold space3.
    by destruct (code a =? 0xE1)%N, (code a =? 0xE2)%N, (code a =? 0xE3)%N, (code b =? 0x9A)%N, (code b =? 0x80)%N, (code b =? 0x81)%N.
  - by destruct (space2 a b), (space3 a b c).
Qed.

Lemma list_ascii_app a b : list_ascii_of_string (a +:+ b) = list_ascii_of_string a ++ list_ascii_of_string b.
Proof. induction a as [|c a IH]; [done|]. change (c :: list_ascii_of_string (a +:+ b) = c :: (list_ascii_of_string a ++ list_ascii_of_string b)). by rewrite IH. Qed.

Lemma TrimSpace_blank_after s : TrimSpace s = s -> TrimSpace (s +:+ " ") = s.
Proof.
  intros H. destruct (trimmed_ends s H) as [F B]. unfold TrimSpace. rewrite list_ascii_app. simpl list_ascii_of_string.
  destruct (decide (list_ascii_of_string s = [])) as [E|N]; [destruct s; [by vm_compute|done]|].
  unfold trim_front. rewrite strip_all_fixed by (by apply strip_front_more).
  unfold trim_back. rewrite rev_app_distr, length_app, Nat.add_comm. simpl strip_all.
  rewrite strip_all_fixed by done. by rewrite rev_involutive, string_of_list_ascii_of_string.
Qed.

(** ** Markers *)

Definition begins_space (s : string) : bool := match s with String c _ => re_space c | "" => false end.

Lemma skip_space_word s : begins_space s = false -> skip_space s = s.
Proof. destruct s as [|c s]; [done|]. intros H. unfold skip_space. cbn [trim_left]. simpl in H. by rewrite H. Qed.

Lemma marker_rest_word word line : begins_space line = false ->
  marker_rest word ("*** " +:+ line) =
  match CutPrefix line word with
  | Some rest => if begins_space rest then CutPrefix (skip_space rest) "File:" else None
  | None => None
  end.
Proof.
  intros H. unfold marker_rest. change ("*** " +:+ line) with ("***" +:+ String " " line). rewrite CutPrefix_app.
  change (skip_space (String " " line)) with (skip_space line). by rewrite skip_space_word.
Qed.

Lemma marker_rest_same word p : begins_space (word +:+ " File: " +:+ p) = false ->
  marker_rest word ("*** " +:+ word +:+ " File: " +:+ p) = Some (String " " p).
Proof.
  intros H. rewrite marker_rest_word by done. rewrite CutPrefix_app.
  change (skip_space (" File: " +:+ p)) with ("File:" +:+ String " " p). by rewrite CutPrefix_app.
Qed.

Lemma marker_rest_other word line : begins_space line = false -> HasPrefix line word = false ->
  marker_rest word ("*** " +:+ line) = None.
Proof. intros H N. rewrite marker_rest_word by done. unfold CutPrefix. by rewrite N. Qed.

Lemma path_marker_same word p : begins_space (word +:+ " File: " +:+ p) = false -> trimmed p = true ->
  path_marker word ("*** " +:+ word +:+ " File: " +:+ p) = Some p.
Proof.
  intros H T. unfold path_marker. rewrite marker_rest_same by done. apply String.eqb_eq in T.
  change ((String " " p =? "")%string) with false. cbv iota. f_equal. by rewrite TrimSpace_blank.
Qed.

Lemma path_marker_other word line : begins_space line = false -> HasPrefix line word = false ->
  path_marker word ("*** " +:+ line) = None.
Proof. intros H N. unfold path_marker. by rewrite marker_rest_other. Qed.

Lemma cut_arrow_here c b : cut_arrow ("->" +:+ String c b) = Some ("", String c b).
Proof.
  change ("->" +:+ String c b) with (String "-" (String ">" (String c b))). cbn [cut_arrow].
  change (String "-" (String ">" (String c b))) with ("->" +:+ String c b). by rewrite CutPrefix_app.
Qed.

(** The first arrow after a text without one. *)
Lemma cut_arrow_first a b : Contains a "->" = false -> cut_arrow (a +:+ " -> " +:+ b) = Some (a +:+ " ", String " " b).
Proof.
  intros H. induction a as [|c a IH].
  { change ("" +:+ " -> " +:+ b) with (String " " ("->" +:+ String " " b)). cbn [cut_arrow]. by rewrite cut_arrow_here. }
  change (Contains (String c a) "->") with (HasPrefix (String c a) "->" || Contains a "->") in H.
  apply orb_false_iff in H as [H1 H2]. change (String c a +:+ " -> " +:+ b) with (String c (a +:+ " -> " +:+ b)).
  cbn [cut_arrow]. assert (CutPrefix (String c (a +:+ " -> " +:+ b)) "->" = None) as ->.
  { destruct (CutPrefix _ _) as [after|] eqn:E; [|done]. apply CutPrefix_Some in E. exfalso.
    change (String c (a +:+ " -> " +:+ b) = String "-" (String ">" after)) in E. injection E as -> E.
    destruct a as [|d a]; [done|]. change (String d (a +:+ " -> " +:+ b) = String ">" after) in E. injection E as -> E.
    change (HasPrefix ("->" +:+ a) "->" = false) in H1. by rewrite prefix_app in H1. }
  by rewrite IH.
Qed.

Lemma move_marker_same p q : path_ok p = true -> path_ok q = true -> Contains p "->" = false ->
  move_marker ("*** Move File: " +:+ p +:+ " -> " +:+ q) = Some (p, q).
Proof.
  intros [P Tp]%andb_true_iff [Q Tq]%andb_true_iff A. apply String.eqb_eq in Tp, Tq.
  destruct p as [|c p]; [done|]. destruct (trimmed_ends _ Tp) as [F _].
  assert (re_space c = false) as S.
  { simpl in F. destruct (ascii_space c) eqn:E; [done|]. unfold re_space. unfold ascii_space in E. unfold in_range.
    destruct (Ascii.eqb_spec c " ") as [->|]; [done|]. unfold code in *. apply orb_false_iff in E as [E _].
    rewrite orb_false_r. apply orb_false_iff. split; apply not_true_is_false; intros [H1 H2]%andb_true_iff;
      apply N.leb_le in H1, H2; apply andb_false_iff in E as [E|E]; apply N.leb_gt in E; lia. }
  unfold move_marker. change ("*** Move File: " +:+ String c p +:+ " -> " +:+ q) with ("*** " +:+ "Move" +:+ " File: " +:+ (String c (p +:+ " -> " +:+ q))).
  rewrite marker_rest_same by done. change (skip_space (String " " (String c (p +:+ " -> " +:+ q)))) with (skip_space (String c (p +:+ " -> " +:+ q))).
  rewrite skip_space_word by done.
  assert (Contains p "->" = false) as A'. { simpl in A. by apply orb_false_iff in A as [_ A]. }
  rewrite cut_arrow_first by done. change (String c (p +:+ " ")) with (String c p +:+ " ").
  by rewrite TrimSpace_blank_after, TrimSpace_blank, Tq.
Qed.

(** ** The parser on rendered lines *)

Lemma parse_update p path : trimmed path = true ->
  parse_line p ("*** Update File: " +:+ path) = mkParsing (flush_op p) (Some (new_op OpUpdate path)) None 0.
Proof.
  intros T. unfold parse_line. change ("*** Update File: " +:+ path) with ("*** " +:+ "Update" +:+ " File: " +:+ path).
  by rewrite path_marker_same.
Qed.

Lemma parse_add p path : trimmed path = true ->
  parse_line p ("*** Add File: " +:+ path) = mkParsing (flush_op p) (Some (new_op OpAdd path)) (Some (mkHunk "" [])) 0.
Proof.
  intros T. unfold parse_line. change ("*** Add File: " +:+ path) with ("*** " +:+ "Add" +:+ " File: " +:+ path).
  rewrite path_marker_same by done.
  by rewrite (path_marker_other "Update" ("Add" +:+ " File: " +:+ path)).
Qed.

Lemma parse_delete p path : trimmed path = true ->
  parse_line p ("*** Delete File: " +:+ path) = mkParsing (flush_op p ++ [new_op OpDelete path]) None None 0.
Proof.
  intros T. unfold parse_line. change ("*** Delete File: " +:+ path) with ("*** " +:+ "Delete" +:+ " File: " +:+ path).
  rewrite path_marker_same by done.
  rewrite (path_marker_other "Update" ("Delete" +:+ " File: " +:+ path)) by done.
  by rewrite (path_marker_other "Add" ("Delete" +:+ " File: " +:+ path)).
Qed.

Lemma parse_move p path to : path_ok path = true -> path_ok to = true -> Contains path "->" = false ->
  parse_line p ("*** Move File: " +:+ path +:+ " -> " +:+ to) = mkParsing (flush_op p ++ [mkOp OpMove path to []]) None None 0.
Proof.
  intros P Q A. unfold parse_line. rewrite move_marker_same by done.
  change ("*** Move File: " +:+ path +:+ " -> " +:+ to) with ("*** " +:+ "Move" +:+ " File: " +:+ path +:+ " -> " +:+ to).
  rewrite (path_marker_other "Update" ("Move" +:+ " File: " +:+ path +:+ " -> " +:+ to)) by done.
  rewrite (path_marker_other "Add" ("Move" +:+ " File: " +:+ path +:+ " -> " +:+ to)) by done.
  by rewrite (path_marker_other "Delete" ("Move" +:+ " File: " +:+ path +:+ " -> " +:+ to)).
Qed.

Lemma no_marker line : HasPrefix line "***" = false ->
  (forall word, path_marker word line = None) /\ move_marker line = None.
Proof. intros H. unfold path_marker, move_marker, marker_rest, CutPrefix. by rewrite H. Qed.

Lemma parse_hint ops op h n hint : trimmed hint = true ->
  parse_line (mkParsing ops (Some op) h n) ("@@ " +:+ hint) = mkParsing ops (Some (add_hunk h op)) (Some (mkHunk hint [])) 0.
Proof.
  intros T. apply String.eqb_eq in T. unfold parse_line. destruct (no_marker ("@@ " +:+ hint) eq_refl) as [M ->].
  rewrite !M. change (HasPrefix ("@@ " +:+ hint) "@@") with (HasPrefix ("@@" +:+ String " " hint) "@@"). rewrite prefix_app.
  assert (hint_of ("@@ " +:+ hint) = hint) as E.
  { unfold hint_of. change ("@@ " +:+ hint) with ("@@" +:+ String " " hint). rewrite TrimPrefix_app. unfold TrimPrefix.
    change (HasPrefix (String " " hint) "@") with false. cbv iota. by rewrite TrimSpace_blank. }
  by rewrite E.
Qed.

Lemma parse_hunk_line ops op h l :
  parse_line (mkParsing ops (Some op) (Some h) 0) (render_line l) =
  mkParsing ops (Some op) (Some (h <| hk_Lines := hk_Lines h ++ [l] |>)) 0.
Proof.
  destruct l as [p content]. unfold parse_line, render_line. cbn [hl_Prefix hl_Content].
  destruct (no_marker (prefix_text p +:+ content)) as [M ->]; [by destruct p|]. rewrite !M. by destruct p.
Qed.

Lemma parse_hunk ops op h hk : hunk_ok hk = true ->
  fold_left parse_line (render_hunk hk) (mkParsing ops (Some op) h 0) = mkParsing ops (Some (add_hunk h op)) (Some hk) 0.
Proof.
  intros [T _]%andb_true_iff. unfold render_hunk. cbn [fold_left]. rewrite parse_hint by done.
  destruct hk as [hint lines]. clear T. simpl. assert (forall done, fold_left parse_line (map render_line lines)
    (mkParsing ops (Some (add_hunk h op)) (Some (mkHunk hint done)) 0) =
    mkParsing ops (Some (add_hunk h op)) (Some (mkHunk hint (done ++ lines))) 0) as L; [|apply L].
  induction lines as [|l lines IH]; intros d; cbn [map fold_left]; [by rewrite app_nil_r|].
  rewrite parse_hunk_line. etransitivity; [exact (IH (d ++ [l]))|]. by rewrite <- app_assoc.
Qed.

(** The hunks join the operation being read, behind the open one. *)
Lemma parse_hunks ops hunks : forallb hunk_ok hunks = true -> forall op h,
  exists op' h', fold_left parse_line (flat_map render_hunk hunks) (mkParsing ops (Some op) h 0) = mkParsing ops (Some op') h' 0 /\
    add_hunk h' op' = ((add_hunk h op) <| po_Hunks := po_Hunks (add_hunk h op) ++ hunks |>).
Proof.
  induction hunks as [|hk hunks IH]; intros H op h.
  - exists op, h. split; [done|]. rewrite app_nil_r. by destruct (add_hunk h op).
  - apply andb_true_iff in H as [H1 H2]. cbn [flat_map]. rewrite fold_left_app, parse_hunk by done.
    destruct (IH H2 (add_hunk h op) (Some hk)) as (op' & h' & -> & E). exists op', h'. split; [done|]. rewrite E.
    apply andb_true_iff in H1 as [_ H1].
    assert (forall o, add_hunk (Some hk) o = (o <| po_Hunks := po_Hunks o ++ [hk] |>)) as -> by (intros o; simpl; by destruct (hk_Lines hk)).
    destruct (add_hunk h op). by simpl; rewrite <- app_assoc.
Qed.

Lemma parse_op op p : op_ok op = true ->
  flush_op (fold_left parse_line (render_op op) p) = flush_op p ++ [op].
Proof.
  intros [P H]%andb_true_iff. assert (trimmed (po_FilePath op) = true) as T by (by apply andb_true_iff in P as [_ P]).
  destruct op as [t path to hunks]. unfold render_op. simpl in *. destruct t; cbn [fold_left].
  - rewrite parse_add by done. apply andb_true_iff in H as [N H]. apply String.eqb_eq in N as ->.
    destruct (parse_hunks (flush_op p) hunks H (new_op OpAdd path) (Some (mkHunk "" []))) as (op' & h' & -> & E).
    unfold flush_op at 1. simpl. rewrite E. simpl. unfold keeps_op. simpl. by destruct hunks.
  - rewrite parse_update by done. apply andb_true_iff in H as [[N H]%andb_true_iff K]. apply String.eqb_eq in N as ->.
    destruct (parse_hunks (flush_op p) hunks H (new_op OpUpdate path) None) as (op' & h' & -> & E).
    unfold flush_op at 1. simpl. rewrite E. unfold keeps_op. simpl. by destruct hunks.
  - rewrite parse_delete by done. apply andb_true_iff in H as [N H]. apply String.eqb_eq in N as ->. by destruct hunks.
  - apply andb_true_iff in H as [[Q A]%andb_true_iff H]. apply negb_true_iff in A. rewrite parse_move by done. by destruct hunks.
Qed.

Lemma parse_ops ops : forallb op_ok ops = true -> forall p,
  flush_op (fold_left parse_line (flat_map render_op ops) p) = flush_op p ++ ops.
Proof.
  induction ops as [|op ops IH]; intros H p; [by rewrite app_nil_r|]. apply andb_true_iff in H as [H1 H2].
  cbn [flat_map]. by rewrite fold_left_app, IH, parse_op, <- app_assoc by done.
Qed.

Lemma body_lines lines : forallb plain_line lines = true -> forall body,
  patch_body body (lines ++ ["*** End Patch"]) = body ++ lines.
Proof.
  induction lines as [|line lines IH]; intros H body; [by rewrite app_nil_r|].
  apply andb_true_iff in H as [[[_ B]%andb_true_iff E]%andb_true_iff H]. apply negb_true_iff in B, E.
  cbn [patch_body app]. by rewrite E, B, IH, <- app_assoc.
Qed.

Lemma ops_checked ops : forallb op_ok ops = true -> check_ops ops = None.
Proof.
  induction ops as [|op ops IH]; [done|]. intros [H1 H2]%andb_true_iff. cbn [check_ops].
  assert (check_op op = None) as ->; [|by apply IH]. unfold check_op. unfold op_ok, path_ok in H1.
  apply andb_true_iff in H1 as [[P _]%andb_true_iff H1]. apply negb_true_iff in P. rewrite P.
  destruct (po_Operation op); [done|..]; [by destruct (po_Hunks op); [rewrite andb_false_r in H1|]|done|].
  apply andb_true_iff in H1 as [[[Q _]%andb_true_iff _]%andb_true_iff _]. apply negb_true_iff in Q. by rewrite Q.
Qed.

(** C29: the text of a list of operations parses to those operations, when paths and
    hints carry no white space at their ends, moved paths no arrow, updates have
    hunks, hunks have lines, and no line of the text is a patch boundary. *)
Theorem patch_parse_roundtrip ops : forallb op_ok ops = true -> forallb plain_line (flat_map render_op ops) = true ->
  parseV4APatch (render_patch ops) = inr ops.
Proof.
  intros H L. unfold parseV4APatch, render_patch. rewrite split_unlines.
  2: { constructor; [by vm_compute|]. apply Forall_app. split; [|by repeat constructor].
       apply Forall_forall. intros line Hl. apply list_elem_of_In in Hl. rewrite forallb_forall in L.
       apply L in Hl. apply andb_true_iff in Hl as [[Hl _]%andb_true_iff _]. by apply negb_true_iff in Hl. }
  replace (unlines ("*** Begin Patch" :: flat_map render_op ops ++ ["*** End Patch"]) =? "")%string with false
    by (by destruct (flat_map render_op ops ++ ["*** End Patch"])).
  change (patch_body [] ("*** Begin Patch" :: flat_map render_op ops ++ ["*** End Patch"]))
    with (patch_body [] (flat_map render_op ops ++ ["*** End Patch"])).
  rewrite body_lines by done. simpl app. unfold parse_lines. rewrite parse_ops by done. simpl app. by rewrite ops_checked.
Qed.

Definition sample_patch_ops : list PatchOperation :=
  [mkOp OpUpdate "a b.go" "" [mkHunk "func main()" [mkHunkLine Context "one"; mkHunkLine Removed "*** Update File: x"; mkHunkLine Context ""; mkHunkLine Added "@@"];
                              mkHunk "" [mkHunkLine Added "three"]];
   mkOp OpMove "b" "c -> d" []; mkOp OpDelete "d" "" []; mkOp OpAdd "e" "" []].

Lemma patch_parse_roundtrip_witness : parseV4APatch (render_patch sample_patch_ops) = inr sample_patch_ops.
Proof. apply (patch_parse_roundtrip sample_patch_ops); vm_compute; reflexivity. Defined.
