(* ===== verification/Effects.v ===== *)
(** * External effect claims

    A call that may change the outside world first claims its targets
    ([control/external_effect_claims.go]); the claim's lifecycle is read from its
    row, its lifecycle events, its owner Run and the watchers bound to it
    ([control/external_effect_lifecycle.go]).  The tables are the fields of
    [EffectDB], with the daemon's instance id. *)

From stdpp Require Import base tactics list strings.
From Stdlib Require Import ZArith Lia Bool Ascii String List.
From S2P Require Import Prelude GoLib GoStrings Sql Store Database.

(** ** Rows *)

Definition UnknownExternalTarget : string := "*".
Definition ExternalClaimReserved : string := "reserved".
Definition ExternalClaimUncertain : string := "uncertain".
Definition ExternalClaimObserved : string := "observed".
Definition ExternalClaimInFlight : string := "in_flight".
Definition ExternalClaimWatched : string := "watched".
Definition ExternalClaimLeftUncertain : string := "left_uncertain".
Definition ExternalEffectDispatchedEvent : string := "external_effect.dispatched".
Definition ExternalEffectReturnedEvent : string := "external_effect.returned".
Definition ExternalEffectObservedEvent : string := "external_effect.observed".
Definition ExternalEffectObservationSpent : string := "external_effect.observation_consumed".

(** An [external_effect_claims] row. *)
Record ClaimRow := mkClaimRow {
  cl_ID : string; cl_TenantID : string; cl_PersonID : string; cl_RunID : string; cl_EffectID : string;
  cl_TargetKey : string; cl_State : string; cl_ObservationRef : string; cl_Sequence : Z;
  cl_CreatedAt : Z; cl_UpdatedAt : Z }.

#[export] Instance ClaimRow_eta : Eta ClaimRow := fun c =>
  mkClaimRow (cl_ID c) (cl_TenantID c) (cl_PersonID c) (cl_RunID c) (cl_EffectID c) (cl_TargetKey c)
    (cl_State c) (cl_ObservationRef c) (cl_Sequence c) (cl_CreatedAt c) (cl_UpdatedAt c).

#[export] Instance ClaimRow_keyed : Keyed ClaimRow string := cl_ID.

(** [ExternalEffectClaim]: a row and what is derived when it is read. *)
Record ExternalEffectClaim := mkEffectClaim {
  ec_row : ClaimRow; ec_Disposition : string; ec_Summary : string; ec_ToolName : string;
  ec_Outcome : string; ec_SameChain : bool; ec_Background : bool; ec_DispatchRecorded : bool }.

#[export] Instance ExternalEffectClaim_eta : Eta ExternalEffectClaim := fun c =>
  mkEffectClaim (ec_row c) (ec_Disposition c) (ec_Summary c) (ec_ToolName c) (ec_Outcome c)
    (ec_SameChain c) (ec_Background c) (ec_DispatchRecorded c).

Definition bare_claim (c : ClaimRow) : ExternalEffectClaim := mkEffectClaim c "" "" "" "" false false false.

(** The fields of a watcher's preflight receipt the effect statements read. *)
Record WatchReceipt := mkReceipt {
  rc_Version : Z; rc_RecoveryClaimID : string; rc_EffectID : string; rc_EffectRunID : string;
  rc_EffectRuleKey : string; rc_ObservationRuleKey : string; rc_EffectTargetKeys : list string;
  rc_EffectScriptRoot : string; rc_EffectScriptPath : string; rc_EffectScriptDigest : string;
  rc_CommandHash : string }.

(** An [external_watches] row; the receipt column is NULL or a JSON text. *)
Record EffectWatch := mkEffectWatch {
  ew_ID : string; ew_TenantID : string; ew_PersonID : string; ew_WorkspaceID : string; ew_RunID : string;
  ew_Status : string; ew_ObservationAdapter : string; ew_Command : string; ew_LastOutput : string;
  ew_VerdictRevision : nat; ew_Finalized : bool; ew_WaitGroupID : string; ew_Sequence : Z; ew_CreatedAt : Z;
  ew_Receipt : option WatchReceipt }.

Record SettlementRow := mkSettlement {
  se_ID : string; se_TenantID : string; se_PersonID : string; se_ClaimID : string; se_RunID : string;
  se_EffectID : string; se_ActorAccountID : string; se_ActorChannel : string; se_Reason : string;
  se_CreatedAt : Z }.

Record ActorAccount := mkActorAccount {
  aa_ID : string; aa_TenantID : string; aa_PersonID : string; aa_Status : string; aa_PlatformUserID : string }.

Record GrantRow := mkGrantRow {
  gr_TenantID : string; gr_PersonID : string; gr_PatternKey : string; gr_ScopeKind : string;
  gr_ScopeID : string; gr_RevokedAt : Z; gr_ExpiresAt : Z }.

Record WorkspaceRow := mkWorkspaceRow {
  ws_ID : string; ws_TenantID : string; ws_OwnerPersonID : string; ws_TrustLevel : string }.

Record EffectDB := mkEffectDB {
  fx_runs : list Run; fx_events : list Event; fx_next_cursor : Z; fx_claims : list ClaimRow;
  fx_waits : list ResourceWaitRow; fx_settlements : list SettlementRow; fx_watches : list EffectWatch;
  fx_accounts : list ActorAccount; fx_grants : list GrantRow; fx_workspaces : list WorkspaceRow;
  fx_instance : string }.

#[export] Instance EffectDB_eta : Eta EffectDB := fun d =>
  mkEffectDB (fx_runs d) (fx_events d) (fx_next_cursor d) (fx_claims d) (fx_waits d) (fx_settlements d)
    (fx_watches d) (fx_accounts d) (fx_grants d) (fx_workspaces d) (fx_instance d).

(** ** Lifecycle records *)

(** A string, boolean or integer field as [json.Unmarshal] fills it: an absent or
    null field stays zero; another type is an error. *)
Definition json_field (payload : json) (name : string) : option json :=
  match payload with JObj fields => option_map snd (List.find (fun f => (fst f =? name)%string) fields) | _ => None end.

Definition field_string (payload : json) (name : string) : string * bool :=
  match json_field payload name with Some (JStr s) => (s, true) | Some JNull | None => ("", true) | _ => ("", false) end.
Definition field_bool (payload : json) (name : string) : bool * bool :=
  match json_field payload name with Some (JBool b) => (b, true) | Some JNull | None => (false, true) | _ => (false, false) end.
Definition field_int (payload : json) (name : string) : Z * bool :=
  match json_field payload name with Some (JInt n) => (n, true) | Some JNull | None => (0%Z, true) | _ => (0%Z, false) end.

Definition decodes (payload : json) : bool := match payload with JObj _ | JNull => true | _ => false end.

Record externalEffectDispatchPayload := mkDispatchPayload {
  dp_EffectID : string; dp_ToolCallID : string; dp_ToolName : string; dp_Summary : string;
  dp_Background : bool; dp_Instance : string }.

Definition encode_dispatch (p : externalEffectDispatchPayload) : json :=
  JObj ([("effect_id", JStr (dp_EffectID p)); ("tool_call_id", JStr (dp_ToolCallID p));
         ("tool_name", JStr (dp_ToolName p)); ("summary", JStr (dp_Summary p))]
        ++ (if dp_Background p then [("background", JBool true)] else [])
        ++ (if (dp_Instance p =? "")%string then [] else [("instance", JStr (dp_Instance p))])).

(** The decoded record, and whether decoding reported no error. *)
Definition decode_dispatch (j : json) : externalEffectDispatchPayload * bool :=
  let e := field_string j "effect_id" in let t := field_string j "tool_call_id" in
  let n := field_string j "tool_name" in let s := field_string j "summary" in
  let b := field_bool j "background" in let i := field_string j "instance" in
  (mkDispatchPayload (fst e) (fst t) (fst n) (fst s) (fst b) (fst i),
   decodes j && snd e && snd t && snd n && snd s && snd b && snd i).

Record externalEffectReturnPayload := mkReturnPayload {
  rp_EffectID : string; rp_ToolCallID : string; rp_Outcome : string; rp_ExitCode : option Z }.

Definition encode_return (p : externalEffectReturnPayload) : json :=
  JObj ([("effect_id", JStr (rp_EffectID p)); ("tool_call_id", JStr (rp_ToolCallID p)); ("outcome", JStr (rp_Outcome p))]
        ++ match rp_ExitCode p with Some n => [("exit_code", JInt n)] | None => [] end).

Definition decode_return_outcome (j : json) : option string :=
  let e := field_string j "effect_id" in let t := field_string j "tool_call_id" in
  let o := field_string j "outcome" in let x := field_int j "exit_code" in
  if decodes j && snd e && snd t && snd o && snd x then Some (fst o) else None.

Definition externalEffectDispatchKey (runID effectID : string) : string :=
  "external-effect-dispatched:" +:+ runID +:+ ":" +:+ effectID.
Definition externalEffectReturnKey (runID effectID : string) : string :=
  "external-effect-returned:" +:+ runID +:+ ":" +:+ effectID.

Definition event_with (k : string) (d : EffectDB) : option Event :=
  query_row (fun e => (ev_idempotency_key e =? k)%string) (fx_events d).

Definition externalEffectSummaryMaxRunes : nat := 160.

(** White space joined to single blanks, cut to 160 runes with an ellipsis. *)
Definition ellipsis : string := string_of_list_ascii (map ascii_of_N [0xE2; 0x80; 0xA6]%N).

Definition boundEffectSummary (text : string) : string :=
  let text := StringsJoin (Fields (ToValidUTF8 text)) " " in
  if (externalEffectSummaryMaxRunes <? RuneCount text)%nat
  then take_runes (externalEffectSummaryMaxRunes - 1) text +:+ ellipsis else text.

(** [nextEffectSequenceTx]: one order for claims, watchers and events. *)
Definition nextEffectSequenceTx (d : EffectDB) : EffectDB * Z :=
  let next := (fx_next_cursor d + 1)%Z in (d <| fx_next_cursor := next |>, next).

(** [insertEffectEventTx]: the event joins the thread of its Run; a taken key keeps
    the first record and uses up the cursor all the same. *)
Definition insertEffectEventTx (uuid : string) (now : Time) (tenantID runID eventType : string) (payload : json)
    (k : string) (d : EffectDB) : res (EffectDB * bool * Z) :=
  match query_row (run_at tenantID runID) (fx_runs d) with
  | None => Err (Errorf "effect record needs its Run")
  | Some r =>
      let '(d, cursor) := nextEffectSequenceTx d in
      match event_with k d with
      | Some _ => Ok (d, false, cursor)
      | None =>
          if existsb (fun e => (ev_id e =? "event_" +:+ uuid)%string) (fx_events d)
          then Err (uniqueViolation "task_events.id") else
          Ok (d <| fx_events := fx_events d ++ [mkEvent ("event_" +:+ uuid) cursor (run_thread_id r) runID eventType
                                  "internal" "" payload k (Unix now)] |>, true, cursor)
      end
  end.

Definition group_row (tenant runID effectID : string) (c : ClaimRow) : bool :=
  (cl_TenantID c =? tenant)%string && (cl_RunID c =? runID)%string && (cl_EffectID c =? effectID)%string.
Definition owned_group (tenant person runID effectID : string) (c : ClaimRow) : bool :=
  group_row tenant runID effectID c && (cl_PersonID c =? person)%string.
Definition in_state (state : string) (c : ClaimRow) : bool := (cl_State c =? state)%string.
Definition unobserved (c : ClaimRow) : bool := negb (in_state ExternalClaimObserved c).

(** A transaction's result: a failed one leaves the tables as they were. *)
Definition fx_tx {A} (d : EffectDB) (r : res (EffectDB * A)) : EffectDB * res A :=
  match r with Ok (d', a) => (d', Ok a) | Err e => (d, Err e) end.

Definition recordExternalEffectEvent (uuid : string) (now : Time) (tenantID personID runID effectID eventType k : string)
    (payload : json) (wantState : string) (d : EffectDB) : EffectDB * res unit :=
  let tenantID := normalizeTenant tenantID in
  fx_tx d
    (if negb (existsb (fun c => owned_group tenantID personID runID effectID c && in_state wantState c) (fx_claims d))
     then Err (Errorf ("external effect claim is not " +:+ wantState)) else
     match insertEffectEventTx uuid now tenantID runID eventType payload k d with
     | Ok (d, _, _) => Ok (d, tt)
     | Err e => Err e
     end).

Record ExternalEffectDispatch := mkDispatch {
  ds_TenantID : string; ds_PersonID : string; ds_RunID : string; ds_EffectID : string; ds_ToolCallID : string;
  ds_ToolName : string; ds_Summary : string; ds_Background : bool }.

Definition dispatch_record (dispatch : ExternalEffectDispatch) (d : EffectDB) : externalEffectDispatchPayload :=
  mkDispatchPayload (ds_EffectID dispatch) (ds_ToolCallID dispatch) (ds_ToolName dispatch)
    (boundEffectSummary (ds_Summary dispatch)) (ds_Background dispatch)
    (if ds_Background dispatch then fx_instance d else "").

Definition RecordExternalEffectDispatch (uuid : string) (now : Time) (dispatch : ExternalEffectDispatch) (d : EffectDB)
  : EffectDB * res unit :=
  if blank (ds_RunID dispatch) || blank (ds_EffectID dispatch)
  then (d, Err (Errorf "external effect dispatch identity is required")) else
  recordExternalEffectEvent uuid now (ds_TenantID dispatch) (ds_PersonID dispatch) (ds_RunID dispatch) (ds_EffectID dispatch)
    ExternalEffectDispatchedEvent (externalEffectDispatchKey (ds_RunID dispatch) (ds_EffectID dispatch))
    (encode_dispatch (dispatch_record dispatch d)) ExternalClaimReserved d.

Record ExternalEffectReturn := mkReturn {
  rt_TenantID : string; rt_PersonID : string; rt_RunID : string; rt_EffectID : string; rt_ToolCallID : string;
  rt_Outcome : string; rt_ExitCode : option Z }.

Definition RecordExternalEffectReturn (uuid : string) (now : Time) (ret : ExternalEffectReturn) (d : EffectDB)
  : EffectDB * res unit :=
  if blank (rt_RunID ret) || blank (rt_EffectID ret)
  then (d, Err (Errorf "external effect return identity is required")) else
  recordExternalEffectEvent uuid now (rt_TenantID ret) (rt_PersonID ret) (rt_RunID ret) (rt_EffectID ret)
    ExternalEffectReturnedEvent (externalEffectReturnKey (rt_RunID ret) (rt_EffectID ret))
    (encode_return (mkReturnPayload (rt_EffectID ret) (rt_ToolCallID ret) (boundEffectSummary (rt_Outcome ret)) (rt_ExitCode ret)))
    ExternalClaimUncertain d.

(** ** Dispositions *)

(** [externalClaimFacts]: a claim row with what its disposition is derived from. *)
Record externalClaimFacts := mkFacts {
  fa_claim : ExternalEffectClaim; fa_ownerStatus : string; fa_background : bool; fa_returned : bool;
  fa_returnCursor : Z; fa_watched : bool; fa_startedHere : bool }.

Definition ExternalWatchSucceeded : string := "succeeded".

(** A live watcher is bound to the effect of the claim, by the effect profile or by
    naming one of its claims. *)
Definition watch_binds (d : EffectDB) (c : ClaimRow) (w : EffectWatch) : bool :=
  (ew_TenantID w =? cl_TenantID c)%string && (ew_PersonID w =? cl_PersonID c)%string
  && one_of ["pending"; "running"; "succeeded"] (ew_Status w) && negb (ew_Finalized w)
  && match ew_Receipt w with
     | None => false
     | Some r =>
         (rc_EffectID r =? cl_EffectID c)%string && negb (rc_EffectRuleKey r =? "")%string
         && ((if (rc_EffectRunID r =? "")%string then ew_RunID w else rc_EffectRunID r) =? cl_RunID c)%string
         || existsb (fun g => group_row (cl_TenantID c) (cl_RunID c) (cl_EffectID c) g
                              && (cl_ID g =? rc_RecoveryClaimID r)%string) (fx_claims d)
     end.

(** [externalClaimFactsSQL] and [scanExternalClaimFacts] on one row. *)
Definition facts_of (d : EffectDB) (c : ClaimRow) : externalClaimFacts :=
  let owner := match query_row (run_at (cl_TenantID c) (cl_RunID c)) (fx_runs d) with
               | Some r => run_status r | None => "" end in
  let dispatched := option_map (fun e => decode_dispatch (ev_payload e))
                      (event_with (externalEffectDispatchKey (cl_RunID c) (cl_EffectID c)) d) in
  let returned := event_with (externalEffectReturnKey (cl_RunID c) (cl_EffectID c)) d in
  let outcome := match returned with
                 | Some e => match decode_return_outcome (ev_payload e) with Some o => o | None => "" end
                 | None => "" end in
  let watched := existsb (watch_binds d c) (fx_watches d) in
  let cursor := match returned with Some e => ev_cursor e | None => 0%Z end in
  let was_returned := match returned with Some _ => true | None => false end in
  match dispatched with
  | Some (p, true) =>
      mkFacts (mkEffectClaim c "" (dp_Summary p) (dp_ToolName p) outcome false (dp_Background p) true) owner
        (dp_Background p) was_returned cursor watched
        (dp_Background p && negb (dp_Instance p =? "")%string && (dp_Instance p =? fx_instance d)%string)
  | _ => mkFacts (mkEffectClaim c "" "" "" outcome false false false) owner false was_returned cursor watched false
  end.

(** [disposition]: [None] is a reservation that never crossed dispatch and whose
    owner no longer runs. *)
Definition disposition (ownChain : bool) (f : externalClaimFacts) : option string :=
  let ownerLive := (fa_ownerStatus f =? "running")%string in
  if in_state ExternalClaimReserved (ec_row (fa_claim f)) then
    if ownerLive then Some ExternalClaimInFlight else None
  else if (if fa_returned f then false
           else if fa_background f then fa_startedHere f
           else ownerLive && negb ownChain)
  then Some ExternalClaimInFlight
  else if fa_watched f then Some ExternalClaimWatched else Some ExternalClaimLeftUncertain.

Definition resumeChainMaxHops : nat := 64.

(** The rows of the recursive query, from the Run upwards. *)
Fixpoint lineage_rows (hops : nat) (tenant person id : string) (runs : list Run) : list string :=
  flat_map (fun r => run_id r :: match hops with
                                 | O => []
                                 | S hops => lineage_rows hops tenant person (run_resumes_run_id r) runs
                                 end)
    (select_where (fun r => run_at tenant id r && (run_person_id r =? person)%string) runs).

Definition runLineage (tenantID personID runID : string) (runs : list Run) : list string :=
  if blank runID then [] else runID :: lineage_rows resumeChainMaxHops tenantID personID runID runs.

(** ** Acknowledgments *)

(** [observationFollowsEffect]: zero sequences precede every other one. *)
Definition observationFollowsEffect (claimSeq claimAt returnCursor obsSeq obsAt : Z) : bool :=
  if (obsSeq =? 0)%Z && (claimSeq =? 0)%Z then (claimAt <? obsAt)%Z else
  if (obsSeq =? 0)%Z || (obsSeq <=? claimSeq)%Z then false else
  (returnCursor =? 0)%Z || (returnCursor <? obsSeq)%Z.

Record externalEffectAcknowledgment := mkAck {
  ak_EventID : string; ak_ClaimID : string; ak_ClaimRunID : string; ak_EffectID : string;
  ak_ToolCallID : string; ak_StartSequence : Z }.

Definition encode_ack (a : externalEffectAcknowledgment) : json :=
  JObj [("claim_id", JStr (ak_ClaimID a)); ("claim_run_id", JStr (ak_ClaimRunID a)); ("effect_id", JStr (ak_EffectID a));
        ("tool_call_id", JStr (ak_ToolCallID a)); ("start_sequence", JInt (ak_StartSequence a))].

Definition decode_ack (eventID : string) (j : json) : option externalEffectAcknowledgment :=
  let c := field_string j "claim_id" in let r := field_string j "claim_run_id" in
  let e := field_string j "effect_id" in let t := field_string j "tool_call_id" in
  let s := field_int j "start_sequence" in
  if decodes j && snd c && snd r && snd e && snd t && snd s
  then Some (mkAck eventID (fst c) (fst r) (fst e) (fst t) (fst s)) else None.

Definition spentKey (eventID : string) : string := "external-effect-observation-consumed:" +:+ eventID.

Definition spent (d : EffectDB) (eventID : string) : bool :=
  match event_with (spentKey eventID) d with Some _ => true | None => false end.

Fixpoint omap {A B} (f : A -> option B) (l : list A) : list B :=
  match l with [] => [] | x :: l => match f x with Some y => y :: omap f l | None => omap f l end end.

(** [externalEffectAcknowledgmentsTx]: the unspent observations of a Run, oldest
    first. *)
Definition acknowledgments (tenantID runID : string) (d : EffectDB) : list externalEffectAcknowledgment :=
  omap (fun e => decode_ack (ev_id e) (ev_payload e))
    (order_by (fun a b => (ev_cursor a <=? ev_cursor b)%Z)
       (select_where (fun e => existsb (fun r => (run_id r =? ev_run_id e)%string && (run_tenant_id r =? tenantID)%string) (fx_runs d)
                               && (ev_run_id e =? runID)%string && (ev_type e =? ExternalEffectObservedEvent)%string
                               && negb (spent d (ev_id e))) (fx_events d))).

Definition forClaim (acks : list externalEffectAcknowledgment) (c : ClaimRow) (returnCursor : Z)
  : option externalEffectAcknowledgment :=
  List.find (fun a => (ak_ClaimRunID a =? cl_RunID c)%string && (ak_EffectID a =? cl_EffectID c)%string
                      && observationFollowsEffect (cl_Sequence c) 0 returnCursor (ak_StartSequence a) 0) acks.

(** ** Conflicts *)

Definition externalTargetsConflict (a b : string) : bool :=
  (a =? UnknownExternalTarget)%string || (b =? UnknownExternalTarget)%string || (a =? b)%string.

Definition targets_conflict (targets : list string) (target : string) : bool :=
  existsb (fun t => externalTargetsConflict t target) targets.

Inductive blocking := BlockWaiting | BlockOwn | BlockAcknowledged (ack : externalEffectAcknowledgment) | BlockForeign.

Record blocker := mkBlocker { bk_claim : ExternalEffectClaim; bk_kind : blocking }.

(** One claim as the requesting Run meets it; [None] when it does not conflict or was
    never dispatched. *)
Definition classify_claim (d : EffectDB) (lineage : list string) (acks : list externalEffectAcknowledgment)
    (targets : list string) (c : ClaimRow) : option blocker :=
  if negb (targets_conflict targets (cl_TargetKey c)) then None else
  let f := facts_of d c in
  let ownChain := one_of lineage (cl_RunID c) in
  match disposition ownChain f with
  | None => None
  | Some disposition =>
      let claim := (fa_claim f) <| ec_Disposition := disposition |> <| ec_SameChain := ownChain |> in
      Some (mkBlocker claim
        (if (disposition =? ExternalClaimWatched)%string then BlockWaiting else
         if ownChain then BlockOwn else
         if (disposition =? ExternalClaimInFlight)%string then BlockWaiting else
         match forClaim acks c (fa_returnCursor f) with
         | Some ack => BlockAcknowledged ack
         | None => BlockForeign
         end))
  end.

Definition claim_order (a b : ClaimRow) : bool :=
  (cl_CreatedAt a <? cl_CreatedAt b)%Z || (cl_CreatedAt a =? cl_CreatedAt b)%Z && String.leb (cl_ID a) (cl_ID b).

(** [classifyExternalBlockers]. *)
Definition classifyExternalBlockers (tenantID personID requestingRun : string) (targets : list string) (d : EffectDB)
  : list blocker :=
  let lineage := runLineage tenantID personID requestingRun (fx_runs d) in
  let acks := if (requestingRun =? "")%string then [] else acknowledgments tenantID requestingRun d in
  omap (classify_claim d lineage acks targets)
    (order_by claim_order
       (select_where (fun c => (cl_TenantID c =? tenantID)%string && (cl_PersonID c =? personID)%string && unobserved c)
          (fx_claims d))).

Definition is_waiting (b : blocker) : bool := match bk_kind b with BlockWaiting => true | _ => false end.
Definition is_own (b : blocker) : bool := match bk_kind b with BlockOwn => true | _ => false end.
Definition is_foreign (b : blocker) : bool := match bk_kind b with BlockForeign => true | _ => false end.

(** [needsDecision]. *)
Definition needsDecision (bs : list blocker) : bool :=
  existsb is_own bs || negb (existsb is_waiting bs) && existsb is_foreign bs.

(** [InspectExternalEffectConflicts] and [InspectExternalEffectBlockers]. *)
Definition InspectExternalEffectConflicts (tenant person runID : string) (targets : list string) (d : EffectDB)
  : res (list blocker) :=
  match GetRun (fx_runs d) tenant runID with
  | Err e => Err e
  | Ok None => Err (Errorf "external effect run is not active for this person")
  | Ok (Some run) =>
      if (person =? "")%string || negb (run_person_id run =? person)%string || negb (run_status run =? "running")%string
      then Err (Errorf "external effect run is not active for this person")
      else Ok (classifyExternalBlockers (normalizeTenant tenant) person runID targets d)
  end.

Definition InspectExternalEffectBlockers (tenant person runID : string) (targets : list string) (d : EffectDB)
  : res (list ExternalEffectClaim * bool) :=
  match InspectExternalEffectConflicts tenant person runID targets d with
  | Err e => Err e
  | Ok bs => Ok (map bk_claim bs, needsDecision bs)
  end.

(** ** Claiming *)

Definition key_char (c : ascii) : bool :=
  in_range 97 122 c || in_range 65 90 c || in_range 48 57 c || byte_in "._-:" c.

Definition validExternalTargetKey (target : string) : bool :=
  (target =? UnknownExternalTarget)%string
  || ((3 <=? String.length target)%nat && (String.length target <=? 256)%nat
      && match cut_at (Ascii.eqb ":") target with
         | (kind, Some identity) => negb (kind =? "")%string && negb (identity =? "")%string
         | (_, None) => false
         end
      && str_all key_char target).

(** [slices.Sort] and [slices.Compact] on strings. *)
Fixpoint compact (l : list string) : list string :=
  match l with
  | a :: ((b :: _) as rest) => if (a =? b)%string then compact rest else a :: compact rest
  | _ => l
  end.
Definition sorted_targets (targets : list string) : list string := compact (order_by String.leb targets).

Record ExternalEffectClaimRequest := mkClaimRequest {
  rq_TenantID : string; rq_PersonID : string; rq_RunID : string; rq_EffectID : string;
  rq_TargetKeys : list string; rq_ToleratedClaimIDs : list string; rq_DeferWait : bool }.

#[export] Instance ExternalEffectClaimRequest_eta : Eta ExternalEffectClaimRequest := fun r =>
  mkClaimRequest (rq_TenantID r) (rq_PersonID r) (rq_RunID r) (rq_EffectID r) (rq_TargetKeys r)
    (rq_ToleratedClaimIDs r) (rq_DeferWait r).

(** The decisions, each with the fields it sets. *)
Inductive ExternalEffectClaimDecision :=
| AlreadyKnown (claims : list ClaimRow)
| NeedsObservation (blockedBy : string) (blocking : list ExternalEffectClaim)
| MustWait (blockedBy : string) (blocking decideAfter : list ExternalEffectClaim)
| NeedsApproval (blockedBy : string) (approval blocking : list ExternalEffectClaim)
| Granted (claims : list ClaimRow).

Definition loadExternalEffectClaimsTx (tenantID runID effectID : string) (d : EffectDB) : list ClaimRow :=
  order_by (fun a b => String.leb (cl_TargetKey a) (cl_TargetKey b))
    (select_where (group_row tenantID runID effectID) (fx_claims d)).

(** [spendExternalEffectAcknowledgmentsTx]: each observation that let the call pass
    is recorded as used. *)
Fixpoint spend (i : nat) (ids : nat -> string) (now : Time) (request : ExternalEffectClaimRequest) (used : list string)
    (bs : list blocker) (d : EffectDB) : res EffectDB :=
  match bs with
  | [] => Ok d
  | b :: rest =>
      match bk_kind b with
      | BlockAcknowledged ack =>
          if one_of (map TrimSpace (rq_ToleratedClaimIDs request)) (cl_ID (ec_row (bk_claim b))) || one_of used (ak_EventID ack)
          then spend i ids now request used rest d else
          match insertEffectEventTx (ids i) now (rq_TenantID request) (rq_RunID request) ExternalEffectObservationSpent
                  (JObj [("effect_id", JStr (rq_EffectID request)); ("observation_event_id", JStr (ak_EventID ack))])
                  (spentKey (ak_EventID ack)) d with
          | Err e => Err e
          | Ok (_, false, _) => Err (Errorf "external effect observation was already used")
          | Ok (d, true, _) => spend (S i) ids now request (ak_EventID ack :: used) rest d
          end
      | _ => spend i ids now request used rest d
      end
  end.

Definition claim_clash (c c' : ClaimRow) : bool :=
  (cl_ID c =? cl_ID c')%string
  || group_row (cl_TenantID c) (cl_RunID c) (cl_EffectID c) c' && (cl_TargetKey c =? cl_TargetKey c')%string.

Fixpoint insert_claims (i : nat) (ids : nat -> string) (now : Time) (request : ExternalEffectClaimRequest) (sequence : Z)
    (targets : list string) (d : EffectDB) : res (EffectDB * list ClaimRow) :=
  match targets with
  | [] => Ok (d, [])
  | target :: rest =>
      let c := mkClaimRow ("effectclaim_" +:+ ids i) (rq_TenantID request) (rq_PersonID request) (rq_RunID request)
                 (rq_EffectID request) target ExternalClaimReserved "" sequence (Unix now) (Unix now) in
      if existsb (claim_clash c) (fx_claims d) then Err (uniqueViolation "external_effect_claims") else
      match insert_claims (S i) ids now request sequence rest (d <| fx_claims := fx_claims d ++ [c] |>) with
      | Err e => Err e
      | Ok (d, claims) => Ok (d, c :: claims)
      end
  end.

Definition wait_clash (a b : ResourceWaitRow) : bool :=
  (rw_tenant_id a =? rw_tenant_id b)%string && (rw_run_id a =? rw_run_id b)%string && (rw_effect_id a =? rw_effect_id b)%string.

Definition first_run (bs : list blocker) : string :=
  match bs with b :: _ => cl_RunID (ec_row (bk_claim b)) | [] => "" end.

(** [claimExternalEffectsOnce]. *)
Definition claimExternalEffectsOnce (ids ids' : nat -> string) (now : Time) (request : ExternalEffectClaimRequest)
    (targets : list string) (d : EffectDB) : res (EffectDB * ExternalEffectClaimDecision) :=
  let '(tenant, person, runID) := (rq_TenantID request, rq_PersonID request, rq_RunID request) in
  match query_row (run_at tenant runID) (fx_runs d) with
  | None => Err (Errorf "external effect run is not active for this person")
  | Some r =>
      if negb (run_person_id r =? person)%string || negb (run_status r =? "running")%string
      then Err (Errorf "external effect run is not active for this person") else
      match loadExternalEffectClaimsTx tenant runID (rq_EffectID request) d with
      | (_ :: _) as existing =>
          if bool_decide (map cl_TargetKey existing = targets) then Ok (d, AlreadyKnown existing)
          else Err (Errorf "external effect target set changed after its first claim")
      | [] =>
          let conflicts := classifyExternalBlockers tenant person runID targets d in
          let all := map bk_claim conflicts in
          let own := List.filter is_own conflicts in
          let waiting := List.filter is_waiting conflicts in
          let unpassed := List.filter (fun b => is_foreign b
                            && negb (one_of (map TrimSpace (rq_ToleratedClaimIDs request)) (cl_ID (ec_row (bk_claim b))))) conflicts in
          match own, waiting, unpassed with
          | _ :: _, _, _ => Ok (d, NeedsObservation (first_run own) all)
          | [], _ :: _, _ =>
              let decision := MustWait (first_run waiting) all (map bk_claim unpassed) in
              if rq_DeferWait request then Ok (d, decision) else
              let wait := mkResourceWaitRow tenant person runID (rq_EffectID request) (JVal targets) "pending"
                            (Unix now) (Unix now) in
              Ok (d <| fx_waits := fst (insert_or_ignore wait_clash wait (fx_waits d)) |>, decision)
          | [], [], _ :: _ => Ok (d, NeedsApproval (first_run unpassed) (map bk_claim unpassed) all)
          | [], [], [] =>
              match spend 0 ids now request [] conflicts d with
              | Err e => Err e
              | Ok d =>
                  let '(d, sequence) := nextEffectSequenceTx d in
                  match insert_claims 0 ids' now request sequence targets d with
                  | Err e => Err e
                  | Ok (d, claims) => Ok (d, Granted claims)
                  end
              end
          end
      end
  end.

Definition normalize_request (r : ExternalEffectClaimRequest) : ExternalEffectClaimRequest :=
  r <| rq_TenantID := normalizeTenant (rq_TenantID r) |> <| rq_PersonID := TrimSpace (rq_PersonID r) |>
    <| rq_RunID := TrimSpace (rq_RunID r) |> <| rq_EffectID := TrimSpace (rq_EffectID r) |>.

Definition ClaimExternalEffects (ids ids' : nat -> string) (now : Time) (request : ExternalEffectClaimRequest) (d : EffectDB)
  : EffectDB * res ExternalEffectClaimDecision :=
  let request := normalize_request request in
  let n := length (rq_TargetKeys request) in
  if (rq_PersonID request =? "")%string || (rq_RunID request =? "")%string || (rq_EffectID request =? "")%string
     || (n =? 0)%nat || (16 <? n)%nat
  then (d, Err (Errorf "external effect requires a person, run, effect and 1-16 targets")) else
  let targets := sorted_targets (rq_TargetKeys request) in
  if negb (forallb validExternalTargetKey targets) then (d, Err (Errorf "invalid external target identity")) else
  fx_tx d (claimExternalEffectsOnce ids ids' now request targets d).
