(* ===== verification/EffectRelease.v ===== *)
(** * Dispatching, observing and settling external effects

    The operations on claims after they were granted: crossing dispatch, the
    observations that release a group of claims or let one call pass
    ([control/external_effect_observation.go], [external_effect_claims.go],
    [external_effect_recovery.go]), the person's settlement
    ([external_effect_settlement.go]), the recovery of background starts, and the
    durable waits ([external_resource_projection.go]). *)

From stdpp Require Import base tactics list strings.
From Stdlib Require Import ZArith Lia Bool Ascii String List.
From S2P Require Import Prelude GoLib GoStrings Sql Store Database Paths Effects Sha256.

(** ** Dispatch *)

Definition set_state (now : Time) (state : string) (c : ClaimRow) : ClaimRow :=
  c <| cl_State := state |> <| cl_UpdatedAt := Unix now |>.
Definition observe_row (now : Time) (ref : string) (c : ClaimRow) : ClaimRow :=
  (set_state now ExternalClaimObserved c) <| cl_ObservationRef := ref |>.

Definition MarkExternalEffectPossible (now : Time) (tenantID runID effectID : string) (d : EffectDB) : EffectDB * res unit :=
  if blank runID || blank effectID then (d, Err (Errorf "external effect claim identity is required")) else
  let group := group_row (normalizeTenant tenantID) runID effectID in
  let cond := fun c => group c && in_state ExternalClaimReserved c in
  let d' := d <| fx_claims := update_where cond (set_state now ExternalClaimUncertain) (fx_claims d) |> in
  if negb (rows_affected cond (fx_claims d) =? 0)%Z then (d', Ok tt) else
  if existsb (fun c => group c && in_state ExternalClaimUncertain c) (fx_claims d') then (d', Ok tt)
  else (d', Err (Errorf "external effect claim was not reserved")).

(** [ObserveUndispatchedExternalEffects], on the reservations whose Run stopped. *)
Definition never_dispatched (runs : list Run) (c : ClaimRow) : bool :=
  in_state ExternalClaimReserved c
  && existsb (fun r => run_at (cl_TenantID c) (cl_RunID c) r && negb (run_status r =? "running")%string) runs.

Definition ObserveUndispatchedExternalEffects (now : Time) (d : EffectDB) : EffectDB * Z :=
  let cond := never_dispatched (fx_runs d) in
  (d <| fx_claims := update_where cond (observe_row now "recovery:never_dispatched") (fx_claims d) |>,
   rows_affected cond (fx_claims d)).

(** [RecordAbandonedBackgroundEffects]: the returns it records. *)
Definition abandonedBackgroundOutcome : string :=
  "background process exit unknown: the daemon that started it stopped".

Definition abandoned_return (d : EffectDB) (c : ClaimRow) : option ExternalEffectReturn :=
  match event_with (externalEffectDispatchKey (cl_RunID c) (cl_EffectID c)) d with
  | Some e =>
      if match json_field (ev_payload e) "background" with Some (JBool b) => b | Some (JInt n) => (n =? 1)%Z | _ => false end
         && match event_with (externalEffectReturnKey (cl_RunID c) (cl_EffectID c)) d with None => true | Some _ => false end
      then let '(p, ok) := decode_dispatch (ev_payload e) in
           if ok && (dp_Instance p =? fx_instance d)%string then None
           else Some (mkReturn (cl_TenantID c) (cl_PersonID c) (cl_RunID c) (cl_EffectID c) (dp_ToolCallID p)
                        abandonedBackgroundOutcome None)
      else None
  | None => None
  end.

Definition same_return (a b : ExternalEffectReturn) : bool :=
  (rt_TenantID a =? rt_TenantID b)%string && (rt_PersonID a =? rt_PersonID b)%string
  && (rt_RunID a =? rt_RunID b)%string && (rt_EffectID a =? rt_EffectID b)%string.

Fixpoint distinct_returns (l : list ExternalEffectReturn) : list ExternalEffectReturn :=
  match l with
  | [] => []
  | r :: rest => r :: List.filter (fun r' => negb (same_return r r')) (distinct_returns rest)
  end.

Fixpoint record_returns (i : nat) (ids : nat -> string) (now : Time) (rets : list ExternalEffectReturn) (d : EffectDB)
  : EffectDB * res unit :=
  match rets with
  | [] => (d, Ok tt)
  | ret :: rest =>
      match RecordExternalEffectReturn (ids i) now ret d with
      | (d, Ok _) => record_returns (S i) ids now rest d
      | (d, Err e) => (d, Err e)
      end
  end.

Definition RecordAbandonedBackgroundEffects (ids : nat -> string) (now : Time) (d : EffectDB) : EffectDB * res nat :=
  let abandoned := distinct_returns (omap (abandoned_return d) (select_where (in_state ExternalClaimUncertain) (fx_claims d))) in
  match record_returns 0 ids now abandoned d with
  | (d, Ok _) => (d, Ok (length abandoned))
  | (d, Err e) => (d, Err e)
  end.

(** [AllocateEffectSequence]. *)
Definition AllocateEffectSequence (d : EffectDB) : EffectDB * Z := nextEffectSequenceTx d.

(** ** Observation by a trusted observer *)

Definition own_claim (tenant person claimID : string) (c : ClaimRow) : bool :=
  (cl_TenantID c =? tenant)%string && (cl_PersonID c =? person)%string && (cl_ID c =? claimID)%string.

Definition ObserveExternalEffect (now : Time) (tenantID personID claimID observationRef : string) (d : EffectDB)
  : EffectDB * res unit :=
  if blank personID || blank claimID || blank observationRef
  then (d, Err (Errorf "external effect observation identity and evidence are required")) else
  let own := own_claim (normalizeTenant tenantID) personID claimID in
  let cond := fun c => own c && unobserved c in
  let d' := d <| fx_claims := update_where cond (observe_row now observationRef) (fx_claims d) |> in
  if negb (rows_affected cond (fx_claims d) =? 0)%Z then (d', Ok tt) else
  match query_row (fun c => own c && in_state ExternalClaimObserved c) (fx_claims d') with
  | Some c => if (cl_ObservationRef c =? observationRef)%string then (d', Ok tt)
              else (d', Err (Errorf "external effect claim cannot be observed with this reference"))
  | None => (d', Err (Errorf "external effect claim cannot be observed with this reference"))
  end.

(** Some row of the group was observed with another reference, or there is none. *)
Definition group_conflict (ref tenant person runID effectID : string) (claims : list ClaimRow) : bool :=
  negb (existsb (owned_group tenant person runID effectID) claims)
  || existsb (fun c => owned_group tenant person runID effectID c && in_state ExternalClaimObserved c
                       && negb (cl_ObservationRef c =? ref)%string) claims.

Definition release_group (now : Time) (ref tenant person runID effectID : string) (d : EffectDB) : EffectDB :=
  d <| fx_claims := update_where (fun c => owned_group tenant person runID effectID c && unobserved c)
                      (observe_row now ref) (fx_claims d) |>.

Definition ObserveExternalEffectGroup (now : Time) (tenantID personID runID effectID observationRef : string) (d : EffectDB)
  : EffectDB * res unit :=
  if blank personID || blank runID || blank effectID || blank observationRef
  then (d, Err (Errorf "external effect observation identity and evidence are required")) else
  let tenant := normalizeTenant tenantID in
  if group_conflict observationRef tenant personID runID effectID (fx_claims d)
  then (d, Err (Errorf "external effect claim cannot be observed with this reference"))
  else (release_group now observationRef tenant personID runID effectID d, Ok tt).

(** ** Observation by the Run's chain *)

(** [externalEffectForObservationTx]. *)
Definition externalEffectForObservation (tenantID personID observerRun claimID : string) (d : EffectDB) : res ClaimRow :=
  if blank personID || blank observerRun || blank claimID
  then Err (Errorf "exact person, observer Run and effect claim are required") else
  match query_row (own_claim tenantID personID claimID) (fx_claims d) with
  | None => Err (Errorf "effect claim not found for this person")
  | Some c =>
      if (length (List.filter (String.eqb (cl_RunID c)) (lineage_rows resumeChainMaxHops tenantID personID observerRun (fx_runs d))) =? 1)%nat
      then Ok c
      else Err (Errorf "observation must belong to the effect's exact Run or same-person continuation")
  end.

Inductive observation_refused :=
| ObservationInvalid | ObserverNotFound | ObserverNotRunning | ClaimNotFound | AlreadyReleased (c : ClaimRow)
| NeverDispatched (c : ExternalEffectClaim) | StillInFlight (c : ExternalEffectClaim) | StartedTooEarly (c : ExternalEffectClaim)
| RecordFailed (e : error).

(** [externalEffectObservationTargetTx]. *)
Definition externalEffectObservationTarget (tenantID personID observerRun claimID : string) (d : EffectDB)
  : observation_refused + ExternalEffectClaim * externalClaimFacts :=
  if blank personID || blank observerRun || blank claimID then inl ObservationInvalid else
  match query_row (own_claim tenantID personID claimID) (fx_claims d) with
  | None => inl ClaimNotFound
  | Some c =>
      if in_state ExternalClaimObserved c then inl (AlreadyReleased c) else
      let f := facts_of d c in
      let sameChain := one_of (runLineage tenantID personID observerRun (fx_runs d)) (cl_RunID c) in
      let claim := (fa_claim f) <| ec_SameChain := sameChain |> in
      match disposition sameChain f with
      | None => inl (NeverDispatched claim)
      | Some disposition =>
          let claim := claim <| ec_Disposition := disposition |> in
          if (disposition =? ExternalClaimInFlight)%string then inl (StillInFlight claim) else inr (claim, f)
      end
  end.

Definition ExternalEffectForObservation (tenantID : string) := externalEffectForObservation (normalizeTenant tenantID).
Definition ExternalEffectObservationTarget (tenantID : string) := externalEffectObservationTarget (normalizeTenant tenantID).

Record ExternalEffectObservation := mkObservation {
  ob_TenantID : string; ob_PersonID : string; ob_ObserverRunID : string; ob_ClaimID : string;
  ob_ToolCallID : string; ob_StartSequence : Z }.

Inductive observation_result := Released (c : ClaimRow) (ref : string) | Acknowledged (c : ClaimRow).

Definition nul : string := String "000" "".

Definition ackKey (observerRun toolCall claimRun effectID : string) : string :=
  "external-effect-observed:" +:+ observerRun +:+ ":" +:+ toolCall +:+ ":"
  +:+ hex_EncodeToString (sha256_Sum256 (bytes_of (claimRun +:+ nul +:+ effectID))).

(** [bindExternalEffectObservationOnce]: the observer's own chain releases the whole
    group; another Run is only allowed to pass. *)
Definition BindExternalEffectObservation (uuid : string) (now : Time) (o : ExternalEffectObservation) (d : EffectDB)
  : EffectDB * (observation_refused + observation_result) :=
  let tenant := normalizeTenant (ob_TenantID o) in
  let '(person, observer) := (ob_PersonID o, ob_ObserverRunID o) in
  if blank (ob_ToolCallID o) || (ob_StartSequence o <=? 0)%Z then (d, inl ObservationInvalid) else
  match query_row (fun r => run_at tenant observer r && (run_person_id r =? person)%string) (fx_runs d) with
  | None => (d, inl ObserverNotFound)
  | Some r =>
      if negb (run_status r =? "running")%string then (d, inl ObserverNotRunning) else
      match externalEffectObservationTarget tenant person observer (ob_ClaimID o) d with
      | inl e => (d, inl e)
      | inr (claim, f) =>
          let c := ec_row claim in
          if negb (observationFollowsEffect (cl_Sequence c) (cl_CreatedAt c) (fa_returnCursor f) (ob_StartSequence o) (Unix now))
          then (d, inl (StartedTooEarly claim)) else
          if ec_SameChain claim then
            let ref := "observation:" +:+ observer +:+ ":" +:+ ob_ToolCallID o in
            (release_group now ref tenant person (cl_RunID c) (cl_EffectID c) d, inr (Released c ref))
          else
            match insertEffectEventTx uuid now tenant observer ExternalEffectObservedEvent
                    (encode_ack (mkAck "" (cl_ID c) (cl_RunID c) (cl_EffectID c) (ob_ToolCallID o) (ob_StartSequence o)))
                    (ackKey observer (ob_ToolCallID o) (cl_RunID c) (cl_EffectID c)) d with
            | Err e => (d, inl (RecordFailed e))
            | Ok (d, _, _) => (d, inr (Acknowledged c))
            end
      end
  end.

(** ** Observation by a watcher *)

(** [MAX(sequence)] and [MIN(created_at)] over a group that has a row. *)
Definition group_span (claims : list ClaimRow) : Z * Z :=
  match claims with
  | [] => (0, 0)%Z
  | c :: rest => (fold_left Z.max (map cl_Sequence rest) (cl_Sequence c), fold_left Z.min (map cl_CreatedAt rest) (cl_CreatedAt c))
  end.

Definition watchFollowsEffect (tenantID runID effectID : string) (w : EffectWatch) (d : EffectDB) : bool :=
  let '(sequence, created) := group_span (select_where (group_row tenantID runID effectID) (fx_claims d)) in
  observationFollowsEffect sequence created
    match event_with (externalEffectReturnKey runID effectID) d with Some e => ev_cursor e | None => 0%Z end
    (ew_Sequence w) (ew_CreatedAt w).

Definition ExternalWatchContinuationReceiptVersion : Z := 2.
Definition ExternalWatchRecoveryReceiptVersion : Z := 3.

(** The receipt still pins the watcher's command. *)
Definition command_pinned (w : EffectWatch) (r : WatchReceipt) : bool :=
  (rc_CommandHash r =? hex_EncodeToString (sha256_Sum256 (bytes_of (ew_Command w))))%string.

Definition watch_ref (w : EffectWatch) : string := "watch:" +:+ ew_ID w +:+ ":r" +:+ Itoa (ew_VerdictRevision w).
Definition completed_key (w : EffectWatch) : string :=
  "external-watch:" +:+ ew_ID w +:+ ":r" +:+ Itoa (ew_VerdictRevision w) +:+ ":completed".

(** [ObserveExternalEffectWithWatch]: the person relates an effect to a finalized
    watcher. *)
Definition no_receipt : WatchReceipt := mkReceipt 0 "" "" "" "" "" [] "" "" "" "".

Definition ObserveExternalEffectWithWatch (now : Time) (tenantID personID claimID watchID : string) (d : EffectDB)
  : EffectDB * res ClaimRow :=
  if blank personID || blank claimID || blank watchID
  then (d, Err (Errorf "external effect claim and watcher identities are required")) else
  let tenant := normalizeTenant tenantID in
  match query_row (own_claim tenant personID claimID) (fx_claims d) with
  | None => (d, Err (Errorf "external effect claim not found for this person"))
  | Some claim =>
      match query_row (fun w => (ew_TenantID w =? tenant)%string && (ew_PersonID w =? personID)%string
                                && (ew_ID w =? watchID)%string) (fx_watches d) with
      | None => (d, Err (Errorf "watcher not found for this person"))
      | Some w =>
          let receipt := match ew_Receipt w with Some r => r | None => no_receipt end in
          let same_run := (ew_RunID w =? cl_RunID claim)%string in
          if negb same_run && ((rc_Version receipt <? ExternalWatchRecoveryReceiptVersion)%Z
                               || negb (rc_RecoveryClaimID receipt =? cl_ID claim)%string)
          then (d, Err (Errorf "continuation observation requires an explicit versioned binding to this effect claim")) else
          match (if same_run then Ok claim else externalEffectForObservation tenant personID (ew_RunID w) (cl_ID claim) d) with
          | Err e => (d, Err e)
          | Ok _ =>
              if negb (rc_RecoveryClaimID receipt =? "")%string && negb (rc_RecoveryClaimID receipt =? cl_ID claim)%string
              then (d, Err (Errorf "watcher is bound to another effect claim")) else
              if negb (watchFollowsEffect tenant (cl_RunID claim) (cl_EffectID claim) w d)
                 || negb (ew_Status w =? ExternalWatchSucceeded)%string || negb (ew_Finalized w)
                 || (rc_Version receipt <? ExternalWatchContinuationReceiptVersion)%Z || negb (command_pinned w receipt)
              then (d, Err (Errorf "watcher is not a finalized trusted observation of this exact run after the effect")) else
              let ref := watch_ref w in
              if group_conflict ref tenant personID (cl_RunID claim) (cl_EffectID claim) (fx_claims d)
              then (d, Err (Errorf "external effect cannot be released with a different observation"))
              else (release_group now ref tenant personID (cl_RunID claim) (cl_EffectID claim) d,
                    Ok (claim <| cl_State := ExternalClaimObserved |> <| cl_ObservationRef := ref |>))
          end
      end
  end.

(** The uncertain rows of a group, released by a watcher. *)
Definition release_uncertain (now : Time) (ref tenant person runID effectID : string) (d : EffectDB) : EffectDB * Z :=
  let cond := fun c => owned_group tenant person runID effectID c && in_state ExternalClaimUncertain c in
  (d <| fx_claims := update_where cond (observe_row now ref) (fx_claims d) |>, rows_affected cond (fx_claims d)).

Definition watch_at (tenant watchID : string) (w : EffectWatch) : bool :=
  (ew_TenantID w =? tenant)%string && (ew_ID w =? watchID)%string.

(** [ReleaseExternalEffectForWatch]: the claim the watcher was bound to. *)
Definition ReleaseExternalEffectForWatch (now : Time) (tenantID watchID : string) (d : EffectDB)
  : EffectDB * option ClaimRow :=
  if blank watchID then (d, None) else
  let tenant := normalizeTenant tenantID in
  match query_row (watch_at tenant watchID) (fx_watches d) with
  | None => (d, None)
  | Some w =>
      match ew_Receipt w with
      | None => (d, None)
      | Some receipt =>
          if (rc_RecoveryClaimID receipt =? "")%string || (rc_Version receipt <? ExternalWatchRecoveryReceiptVersion)%Z
             || negb (ew_WaitGroupID w =? "")%string || negb (ew_Status w =? ExternalWatchSucceeded)%string
             || negb (command_pinned w receipt)
          then (d, None) else
          if negb (ew_Finalized w)
             && negb (existsb (fun e => (ev_run_id e =? ew_RunID w)%string && (ev_idempotency_key e =? completed_key w)%string) (fx_events d))
          then (d, None) else
          match externalEffectForObservation tenant (ew_PersonID w) (ew_RunID w) (rc_RecoveryClaimID receipt) d with
          | Err _ => (d, None)
          | Ok claim =>
              if negb (watchFollowsEffect tenant (cl_RunID claim) (cl_EffectID claim) w d) then (d, None) else
              let ref := watch_ref w +:+ ":bound" in
              match release_uncertain now ref tenant (ew_PersonID w) (cl_RunID claim) (cl_EffectID claim) d with
              | (d', n) =>
                  if (n =? 0)%Z then (d, None)
                  else (d', Some (claim <| cl_State := ExternalClaimObserved |> <| cl_ObservationRef := ref |>))
              end
          end
      end
  end.

(** ** Observation by the effect's owner-reviewed profile *)

(** [filepath.Rel] on clean paths, element by element. *)
Definition path_elements (p : path) : list string :=
  if p_abs p then "" :: p_comps p else match p_comps p with [] => ["."] | l => l end.

Fixpoint skip_common (base targ : list string) : list string * list string :=
  match base, targ with
  | b :: base', t :: targ' => if (b =? t)%string then skip_common base' targ' else (base, targ)
  | _, _ => (base, targ)
  end.

Definition Rel (basepath targpath : string) : option string :=
  let '(b, t) := (Clean basepath, Clean targpath) in
  if bool_decide (path_elements b = path_elements t) then Some "." else
  if negb (Bool.eqb (p_abs b) (p_abs t)) then None else
  let base := if bool_decide (path_elements b = ["."]) then [] else path_elements b in
  match skip_common base (path_elements t) with
  | (".." :: _, _ :: _) => None
  | (base, targ) => Some (StringsJoin (map (fun _ => "..") base ++ targ) "/")
  end.

Record EffectRule := mkEffectRule {
  er_WorkspaceID : string; er_Targets : list string; er_ObservationRelative : string; er_ObservationDigest : string }.

(** The rule encoded in a rule key (base64 of JSON, at most 8192 bytes) and the status
    in a check's output (JSON), when they decode. *)
Class EffectRules := {
  decode_rule : string -> option EffectRule;
  decode_status : string -> option string
}.

Section Rules.
Context {rules : EffectRules}.

Definition effect_rule (key : string) : option EffectRule :=
  match CutPrefix key "rule:effect_script:v1:" with Some text => decode_rule text | None => None end.

(** The receipt binds the watcher to one effect and to the script that was
    reviewed. *)
Definition receipt_complete (w : EffectWatch) (r : WatchReceipt) : bool :=
  (rc_RecoveryClaimID r =? "")%string
  && forallb (fun s => negb (s =? "")%string)
       [rc_EffectID r; rc_EffectRuleKey r; rc_ObservationRuleKey r; rc_EffectScriptRoot r; rc_EffectScriptPath r; rc_EffectScriptDigest r]
  && negb (bool_decide (rc_EffectTargetKeys r = [])) && (ew_Status w =? ExternalWatchSucceeded)%string
  && (ew_ObservationAdapter w =? "status_json.v1")%string && (ExternalWatchContinuationReceiptVersion <=? rc_Version r)%Z
  && command_pinned w r.

Definition rule_matches (w : EffectWatch) (r : WatchReceipt) : bool :=
  match effect_rule (rc_EffectRuleKey r) with
  | None => false
  | Some rule =>
      (er_WorkspaceID rule =? ew_WorkspaceID w)%string && bool_decide (er_Targets rule = rc_EffectTargetKeys r)
      && (er_ObservationDigest rule =? rc_EffectScriptDigest r)%string && negb (er_ObservationRelative rule =? "")%string
      && match Rel (rc_EffectScriptRoot r) (rc_EffectScriptPath r) with
         | Some rel => (rel =? er_ObservationRelative rule)%string
         | None => false
         end
  end.

Definition grant_live (now : Time) (tenant person workspace : string) (keys : list string) (g : GrantRow) : bool :=
  (gr_TenantID g =? tenant)%string && (gr_PersonID g =? person)%string && one_of keys (gr_PatternKey g)
  && (gr_RevokedAt g =? 0)%Z && ((gr_ExpiresAt g =? 0)%Z || (Unix now <? gr_ExpiresAt g)%Z)
  && ((gr_ScopeKind g =? "person")%string && (gr_ScopeID g =? person)%string
      || (gr_ScopeKind g =? "workspace")%string && (gr_ScopeID g =? workspace)%string).

Definition grants_hold (now : Time) (tenant person workspace : string) (r : WatchReceipt) (d : EffectDB) : bool :=
  let keys := [rc_EffectRuleKey r; rc_ObservationRuleKey r] in
  (length (nodup string_dec (map gr_PatternKey (select_where (grant_live now tenant person workspace keys) (fx_grants d)))) =? 2)%nat.

Definition workspace_trusted (tenant person workspace : string) (d : EffectDB) : bool :=
  match query_row (fun s => (ws_TenantID s =? tenant)%string && (ws_OwnerPersonID s =? person)%string
                            && (ws_ID s =? workspace)%string) (fx_workspaces d) with
  | Some s => (ws_TrustLevel s =? "trusted")%string
  | None => false
  end.

(** The Run of the effect: the watcher's, or an earlier one of its chain. *)
Definition effect_run (tenant : string) (w : EffectWatch) (r : WatchReceipt) (d : EffectDB) : option string :=
  if (rc_EffectRunID r =? "")%string || (rc_EffectRunID r =? ew_RunID w)%string then Some (ew_RunID w) else
  if one_of (runLineage tenant (ew_PersonID w) (ew_RunID w) (fx_runs d)) (rc_EffectRunID r) then Some (rc_EffectRunID r) else None.

Definition ObserveEffectClaimsForWatch (now : Time) (tenantID watchID : string) (d : EffectDB) : EffectDB * bool :=
  if (watchID =? "")%string then (d, false) else
  let tenant := normalizeTenant tenantID in
  match query_row (watch_at tenant watchID) (fx_watches d) with
  | None => (d, false)
  | Some w =>
      match ew_Receipt w with
      | None => (d, false)
      | Some r =>
          let person := ew_PersonID w in
          if negb (receipt_complete w r && rule_matches w r)
             || negb (match decode_status (TrimSpace (ew_LastOutput w)) with Some s => (s =? "succeeded")%string | None => false end)
             || negb (existsb (fun e => existsb (fun run => (run_id run =? ev_run_id e)%string && (run_tenant_id run =? tenant)%string
                                                            && (run_person_id run =? person)%string) (fx_runs d)
                                        && (ev_run_id e =? ew_RunID w)%string && (ev_idempotency_key e =? completed_key w)%string)
                        (fx_events d))
             || negb (HasPrefix (rc_ObservationRuleKey r) "rule:observation_script:")
             || negb (grants_hold now tenant person (ew_WorkspaceID w) r d)
             || negb (workspace_trusted tenant person (ew_WorkspaceID w) d)
          then (d, false) else
          match effect_run tenant w r d with
          | None => (d, false)
          | Some runID =>
              let claims := loadExternalEffectClaimsTx tenant runID (rc_EffectID r) d in
              if negb (bool_decide (map cl_TargetKey claims = rc_EffectTargetKeys r)
                       && forallb (fun c => (cl_PersonID c =? person)%string && in_state ExternalClaimUncertain c) claims)
                 || negb (watchFollowsEffect tenant runID (rc_EffectID r) w d)
              then (d, false)
              else (fst (release_uncertain now (watch_ref w +:+ ":owner-bound") tenant person runID (rc_EffectID r) d), true)
          end
      end
  end.
End Rules.

(** ** Settlement by the person *)

Definition externalEffectSettlementRefPrefix : string := "settlement:".
Definition externalEffectSettlementReasonMaxRunes : nat := 500.
Definition externalEffectSettlementChannelMaxBytes : nat := 256.

Definition ObservationRef (s : SettlementRow) : string := externalEffectSettlementRefPrefix +:+ se_ID s.

Record ExternalEffectSettlementRequest := mkSettleRequest {
  sr_TenantID : string; sr_PersonID : string; sr_ClaimID : string; sr_ActorAccountID : string;
  sr_ActorChannel : string; sr_Reason : string }.

Definition normalize_settle (r : ExternalEffectSettlementRequest) : ExternalEffectSettlementRequest :=
  let reason := TrimSpace (ToValidUTF8 (sr_Reason r)) in
  mkSettleRequest (normalizeTenant (sr_TenantID r)) (TrimSpace (sr_PersonID r)) (TrimSpace (sr_ClaimID r))
    (TrimSpace (sr_ActorAccountID r)) (TrimSpace (ToValidUTF8 (sr_ActorChannel r)))
    (if (externalEffectSettlementReasonMaxRunes <? RuneCount reason)%nat
     then take_runes externalEffectSettlementReasonMaxRunes reason else reason).

Inductive settle_error := SettleClaimNotFound | SettleActor | SettleInFlight | NotSettleable (state : string)
| SettleConflict (e : error).

Record ExternalEffectSettlementResult := mkSettleResult {
  sl_Settlement : SettlementRow; sl_Claims : list ClaimRow; sl_Replayed : bool }.

(** An active account of the person, and a channel that is no other account's key. *)
Definition actor_ok (r : ExternalEffectSettlementRequest) (d : EffectDB) : bool :=
  match query_row (fun a => (aa_TenantID a =? sr_TenantID r)%string && (aa_ID a =? sr_ActorAccountID r)%string) (fx_accounts d) with
  | None => false
  | Some a =>
      (aa_PersonID a =? sr_PersonID r)%string && (aa_Status a =? "active")%string
      && ((sr_ActorChannel r =? aa_PlatformUserID a)%string
          || negb (existsb (fun b => (aa_TenantID b =? sr_TenantID r)%string && (aa_PlatformUserID b =? sr_ActorChannel r)%string
                                     && negb (aa_ID b =? sr_ActorAccountID r)%string) (fx_accounts d)))
  end.

Definition settlement_of (tenantID runID effectID : string) (s : SettlementRow) : bool :=
  (se_TenantID s =? tenantID)%string && (se_RunID s =? runID)%string && (se_EffectID s =? effectID)%string.

Definition settlement_clash (a b : SettlementRow) : bool :=
  (se_ID a =? se_ID b)%string || settlement_of (se_TenantID a) (se_RunID a) (se_EffectID a) b.

(** [settleExternalEffectOnce]. *)
Definition settleExternalEffectOnce (uuid : string) (now : Time) (r : ExternalEffectSettlementRequest) (d : EffectDB)
  : settle_error + EffectDB * ExternalEffectSettlementResult :=
  let '(tenant, person) := (sr_TenantID r, sr_PersonID r) in
  if negb (actor_ok r d) then inl SettleActor else
  match query_row (fun c => (cl_TenantID c =? tenant)%string && (cl_ID c =? sr_ClaimID r)%string) (fx_claims d) with
  | None => inl SettleClaimNotFound
  | Some claim =>
      if negb (cl_PersonID claim =? person)%string then inl SettleClaimNotFound else
      match query_row (settlement_of tenant (cl_RunID claim) (cl_EffectID claim)) (fx_settlements d) with
      | Some s =>
          if negb (se_PersonID s =? person)%string then inl SettleClaimNotFound
          else inr (d, mkSettleResult s (loadExternalEffectClaimsTx tenant (cl_RunID claim) (cl_EffectID claim) d) true)
      | None =>
          if negb (in_state ExternalClaimUncertain claim) then inl (NotSettleable (cl_State claim)) else
          if bool_decide (disposition false (facts_of d claim) = Some ExternalClaimInFlight) then inl SettleInFlight else
          let s := mkSettlement ("effectsettle_" +:+ uuid) tenant person (cl_ID claim) (cl_RunID claim) (cl_EffectID claim)
                     (sr_ActorAccountID r) (sr_ActorChannel r) (sr_Reason r) (Unix now) in
          let d' := release_group now (ObservationRef s) tenant person (cl_RunID claim) (cl_EffectID claim) d in
          if existsb (settlement_clash s) (fx_settlements d') then inl (SettleConflict (uniqueViolation "external_effect_settlements")) else
          let d' := d' <| fx_settlements := fx_settlements d' ++ [s] |> in
          inr (d', mkSettleResult s (loadExternalEffectClaimsTx tenant (cl_RunID claim) (cl_EffectID claim) d') false)
      end
  end.

Definition SettleExternalEffect (uuid : string) (now : Time) (request : ExternalEffectSettlementRequest) (d : EffectDB)
  : EffectDB * (settle_error + ExternalEffectSettlementResult) :=
  let r := normalize_settle request in
  if (sr_PersonID r =? "")%string || (sr_ClaimID r =? "")%string then (d, inl SettleClaimNotFound) else
  if (sr_ActorAccountID r =? "")%string || (sr_ActorChannel r =? "")%string
     || (externalEffectSettlementChannelMaxBytes <? String.length (sr_ActorChannel r))%nat
  then (d, inl SettleActor) else
  match settleExternalEffectOnce uuid now r d with
  | inl e => (d, inl e)
  | inr (d', result) => (d', inr result)
  end.

(** ** Reading claims *)

(** [queryExternalEffectClaims] on the rows its condition selects. *)
Definition read_claim (d : EffectDB) (c : ClaimRow) : ExternalEffectClaim :=
  let f := facts_of d c in
  match (if unobserved c then disposition false f else None) with
  | Some disposition => (fa_claim f) <| ec_Disposition := disposition |>
  | None => fa_claim f
  end.

(** A limit outside 1..100 is 20. *)
Definition listing_limit (limit : Z) : Z := if (limit <=? 0)%Z || (100 <? limit)%Z then 20%Z else limit.

Definition ListUnresolvedExternalEffects (tenantID personID : string) (limit : Z) (d : EffectDB) : res (list ExternalEffectClaim) :=
  if blank personID then Err (Errorf "external effect owner is required") else
  Ok (map (read_claim d)
        (sql_limit (listing_limit limit)
           (order_by claim_order
              (select_where (fun c => (cl_TenantID c =? normalizeTenant tenantID)%string && (cl_PersonID c =? personID)%string
                                      && unobserved c) (fx_claims d))))).

Definition ExternalEffectClaimsForEffect (tenantID personID runID effectID : string) (d : EffectDB) : res (list ExternalEffectClaim) :=
  if blank personID then Err (Errorf "external effect owner is required") else
  Ok (map (read_claim d)
        (order_by (fun a b => String.leb (cl_TargetKey a) (cl_TargetKey b))
           (select_where (owned_group (normalizeTenant tenantID) personID runID effectID) (fx_claims d)))).

Definition ExternalEffectClaimDetail (tenantID personID claimID : string) (d : EffectDB) : option ExternalEffectClaim :=
  if blank personID || blank claimID then None else
  option_map (read_claim d) (query_row (own_claim (normalizeTenant tenantID) personID claimID) (fx_claims d)).

Definition Description (c : ExternalEffectClaim) : string :=
  let summary := if (ec_Summary c =? "")%string then "an earlier call" else "`" +:+ ec_Summary c +:+ "`" in
  let outcome := ec_Outcome c in
  let state :=
    if in_state ExternalClaimObserved (ec_row c) then "released" else
    if (ec_Disposition c =? ExternalClaimInFlight)%string then "still in flight" else
    if negb (outcome =? "")%string then outcome else
    if (ec_Disposition c =? ExternalClaimWatched)%string then "awaiting its bound watcher" else
    "effect outcome not established" +:+ (if ec_DispatchRecorded c then "" else "; dispatch details unavailable") in
  "claim " +:+ cl_ID (ec_row c) +:+ " from run " +:+ cl_RunID (ec_row c) +:+ ": " +:+ summary +:+ ", " +:+ state.

(** [FindUnresolvedExternalEffectForTargets]: the one uncertain group of the chain with
    exactly these targets. *)
Definition effect_groups (rows : list ClaimRow) : list (string * string) :=
  nodup (fun a b => decide (a = b)) (map (fun c => (cl_RunID c, cl_EffectID c)) rows).

Definition FindUnresolvedExternalEffectForTargets (tenantID personID runID : string) (targets : list string) (d : EffectDB)
  : option (string * string) :=
  if (personID =? "")%string || (runID =? "")%string || bool_decide (targets = []) then None else
  let tenant := normalizeTenant tenantID in
  let lineage := runLineage tenant personID runID (fx_runs d) in
  let rows := order_by (fun a b => String.leb (cl_TargetKey a) (cl_TargetKey b))
    (select_where (fun c => (cl_TenantID c =? tenant)%string && (cl_PersonID c =? personID)%string && one_of lineage (cl_RunID c))
       (fx_claims d)) in
  let members g := List.filter (fun c => (cl_RunID c =? fst g)%string && (cl_EffectID c =? snd g)%string) rows in
  match List.filter (fun g => forallb (in_state ExternalClaimUncertain) (members g)
                              && bool_decide (map cl_TargetKey (members g) = order_by String.leb targets)) (effect_groups rows) with
  | [g] => Some g
  | _ => None
  end.

(** ** Durable waits *)

Record ExternalResourceWaitProjection := mkWaitView {
  wv_row : ResourceWaitRow; wv_RunStatus : string; wv_Ready : bool; wv_NeedsObservation : bool;
  wv_BlockingClaims : list ExternalEffectClaim; wv_WakeOnRelease : bool }.

(** The events of a finished Run that set a boolean field of their payload. *)
Definition finished_with (field : string) (runID : string) (d : EffectDB) : bool :=
  existsb (fun e => (ev_run_id e =? runID)%string && (ev_type e =? "run.finished")%string
                    && match json_field (ev_payload e) field with Some (JBool b) => b | Some (JInt n) => (n =? 1)%Z | _ => false end)
    (fx_events d).

Definition ResourceWakeOnReleasePayloadKey : string := "resource_wake_on_release".

Definition wait_run (d : EffectDB) (w : ResourceWaitRow) : option Run :=
  query_row (fun r => run_at (rw_tenant_id w) (rw_run_id w) r && (run_person_id r =? rw_person_id w)%string) (fx_runs d).

Definition wait_listed (includeBlocked : bool) (tenantID personID : string) (d : EffectDB) (w : ResourceWaitRow) : bool :=
  one_of ["pending"; "queued"] (rw_status w)
  && match wait_run d w with
     | None => false
     | Some r => (run_status r =? "waiting_external")%string
                 || includeBlocked && (run_status r =? "blocked")%string && finished_with "resource_observation_required" (run_id r) d
     end
  && negb (has_child (rw_tenant_id w) (rw_run_id w) (fx_runs d))
  && ((personID =? "")%string || (rw_tenant_id w =? normalizeTenant tenantID)%string && (rw_person_id w =? personID)%string).

Definition wait_order (a b : ResourceWaitRow) : bool :=
  (rw_created_at a <? rw_created_at b)%Z || (rw_created_at a =? rw_created_at b)%Z && String.leb (rw_run_id a) (rw_run_id b).

(** [externalResourceBlockers]. *)
Definition externalResourceBlockers (w : ResourceWaitRow) (targets : list string) (d : EffectDB) : list ExternalEffectClaim * bool :=
  let bs := classifyExternalBlockers (rw_tenant_id w) (rw_person_id w) (rw_run_id w) targets d in
  (map bk_claim bs, needsDecision bs).

Definition wait_view (d : EffectDB) (w : ResourceWaitRow) (targets : list string) : ExternalResourceWaitProjection :=
  let '(blocking, needs) := externalResourceBlockers w targets d in
  mkWaitView w (match wait_run d w with Some r => run_status r | None => "" end) (match blocking with [] => true | _ => false end)
    needs blocking (finished_with ResourceWakeOnReleasePayloadKey (rw_run_id w) d).

Fixpoint decode_waits {A} (f : ResourceWaitRow -> list string -> A) (l : list ResourceWaitRow) : res (list A) :=
  match l with
  | [] => Ok []
  | w :: rest =>
      match rw_targets_json w with
      | JBad _ => Err (Errorf "invalid targets")
      | JVal targets => match decode_waits f rest with Ok l => Ok (f w targets :: l) | Err e => Err e end
      end
  end.

Definition listExternalResourceWaits (tenantID personID : string) (limit : Z) (includeBlocked : bool) (d : EffectDB)
  : res (list ExternalResourceWaitProjection) :=
  if negb (Bool.eqb (tenantID =? "")%string (personID =? "")%string)
  then Err (Errorf "resource wait requires both owner fields") else
  decode_waits (wait_view d)
    (sql_limit (listing_limit limit)
       (order_by wait_order (select_where (wait_listed includeBlocked tenantID personID d) (fx_waits d)))).

Definition ListExternalResourceWaits (tenantID personID : string) (limit : Z) := listExternalResourceWaits tenantID personID limit true.
Definition ListActiveExternalResourceWaits (limit : Z) := listExternalResourceWaits "" "" limit false.

Definition ListReadyExternalResourceWaits (limit : Z) (d : EffectDB) : res (list ResourceWaitRow) :=
  match ListActiveExternalResourceWaits limit d with
  | Err e => Err e
  | Ok l => Ok (map wv_row (List.filter (fun w => wv_Ready w && (wv_RunStatus w =? "waiting_external")%string) l))
  end.

(** [ListWakeableBlockedResourceWaits], newest first. *)
Definition wait_wakeable (d : EffectDB) (w : ResourceWaitRow) : bool :=
  one_of ["pending"; "queued"] (rw_status w)
  && match wait_run d w with
     | None => false
     | Some r => (run_status r =? "blocked")%string
                 && existsb (fun e => (ev_run_id e =? run_id r)%string && (ev_type e =? "run.finished")%string
                              && forallb (fun field => match json_field (ev_payload e) field with
                                                       | Some (JBool b) => b | Some (JInt n) => (n =? 1)%Z | _ => false end)
                                   ["resource_observation_required"; ResourceWakeOnReleasePayloadKey]) (fx_events d)
     end
  && negb (has_child (rw_tenant_id w) (rw_run_id w) (fx_runs d)).

Definition newest_wait (a b : ResourceWaitRow) : bool :=
  (rw_created_at b <? rw_created_at a)%Z || (rw_created_at a =? rw_created_at b)%Z && String.leb (rw_run_id a) (rw_run_id b).

Definition ListWakeableBlockedResourceWaits (limit : Z) (d : EffectDB) : res (list ResourceWaitRow) :=
  match decode_waits pair (sql_limit (listing_limit limit) (order_by newest_wait (select_where (wait_wakeable d) (fx_waits d)))) with
  | Err e => Err e
  | Ok l => Ok (map fst (List.filter (fun p => match fst (externalResourceBlockers (fst p) (snd p) d) with [] => true | _ => false end) l))
  end.

Definition pending_wait (tenant runID : string) (w : ResourceWaitRow) : bool :=
  (rw_tenant_id w =? tenant)%string && (rw_run_id w =? runID)%string && (rw_status w =? "pending")%string.

Definition MarkExternalResourceWaitQueued (now : Time) (wait : ResourceWaitRow) (d : EffectDB) : EffectDB :=
  d <| fx_waits := update_where (fun w => pending_wait (normalizeTenant (rw_tenant_id wait)) (rw_run_id wait) w
                                          && (rw_person_id w =? rw_person_id wait)%string
                                          && (rw_effect_id w =? rw_effect_id wait)%string)
                     (fun w => w <| rw_status := "queued" |> <| rw_updated_at := Unix now |>) (fx_waits d) |>.

Definition IsRunExternalResourceWaitPending (tenantID runID : string) (d : EffectDB) : bool :=
  let tenant := normalizeTenant tenantID in
  existsb (pending_wait tenant runID) (fx_waits d)
  && existsb (fun r => run_at tenant runID r && (run_status r =? "waiting_external")%string) (fx_runs d).
