(* ===== verification/EffectsTheory.v ===== *)
(** * Histories of external effects

    A history interleaves the store's operations with what the rest of the daemon
    does to the tables they read.  The invariant [effect_wf] holds after every one;
    calls in flight are followed from step to step. *)

From stdpp Require Import base tactics list strings.
From Stdlib Require Import ZArith Lia Bool Ascii String List.
From S2P Require Import Prelude GoLib GoStrings Sql Evolution Store Database Effects EffectRelease.

(** ** Operations *)

Section Histories.
Context {rules : EffectRules}.

Inductive effect_op :=
| OpClaim (ids ids' : nat -> string) (now : Time) (request : ExternalEffectClaimRequest)
| OpDispatch (uuid : string) (now : Time) (dispatch : ExternalEffectDispatch)
| OpMark (now : Time) (tenantID runID effectID : string)
| OpReturn (uuid : string) (now : Time) (ret : ExternalEffectReturn)
| OpUndispatched (now : Time)
| OpAbandoned (ids : nat -> string) (now : Time)
| OpAllocate
| OpObserve (now : Time) (tenantID personID claimID ref : string)
| OpObserveGroup (now : Time) (tenantID personID runID effectID ref : string)
| OpBind (uuid : string) (now : Time) (o : ExternalEffectObservation)
| OpWatchPerson (now : Time) (tenantID personID claimID watchID : string)
| OpWatchBound (now : Time) (tenantID watchID : string)
| OpWatchProfile (now : Time) (tenantID watchID : string)
| OpSettle (uuid : string) (now : Time) (request : ExternalEffectSettlementRequest)
| OpWaitQueued (now : Time) (wait : ResourceWaitRow).

Definition exec_effect (o : effect_op) (d : EffectDB) : EffectDB :=
  match o with
  | OpClaim ids ids' now request => fst (ClaimExternalEffects ids ids' now request d)
  | OpDispatch uuid now dispatch => fst (RecordExternalEffectDispatch uuid now dispatch d)
  | OpMark now tenantID runID effectID => fst (MarkExternalEffectPossible now tenantID runID effectID d)
  | OpReturn uuid now ret => fst (RecordExternalEffectReturn uuid now ret d)
  | OpUndispatched now => fst (ObserveUndispatchedExternalEffects now d)
  | OpAbandoned ids now => fst (RecordAbandonedBackgroundEffects ids now d)
  | OpAllocate => fst (AllocateEffectSequence d)
  | OpObserve now tenantID personID claimID ref => fst (ObserveExternalEffect now tenantID personID claimID ref d)
  | OpObserveGroup now tenantID personID runID effectID ref => fst (ObserveExternalEffectGroup now tenantID personID runID effectID ref d)
  | OpBind uuid now o => fst (BindExternalEffectObservation uuid now o d)
  | OpWatchPerson now tenantID personID claimID watchID => fst (ObserveExternalEffectWithWatch now tenantID personID claimID watchID d)
  | OpWatchBound now tenantID watchID => fst (ReleaseExternalEffectForWatch now tenantID watchID d)
  | OpWatchProfile now tenantID watchID => fst (ObserveEffectClaimsForWatch now tenantID watchID d)
  | OpSettle uuid now request => fst (SettleExternalEffect uuid now request d)
  | OpWaitQueued now wait => MarkExternalResourceWaitQueued now wait d
  end.

Definition owner_runs (tenant runID : string) (d : EffectDB) : bool :=
  match query_row (run_at tenant runID) (fx_runs d) with Some r => (run_status r =? "running")%string | None => false end.

(** The caller's part: a call crosses dispatch while its Run executes. *)
Definition called_in_run (d : EffectDB) (o : effect_op) : Prop :=
  match o with
  | OpMark _ tenantID runID _ => owner_runs (normalizeTenant tenantID) runID d = true
  | _ => True
  end.

Definition colon_free (s : string) : Prop := str_all (fun c => negb (Ascii.eqb c ":")) s = true.
Definition dispatch_prefix : string := "external-effect-dispatched:".

(** [disciplined] histories keep the caller's part. *)
Inductive effect_step (disciplined : bool) (d : EffectDB) : EffectDB -> Prop :=
| step_op o : (disciplined = true -> called_in_run d o) -> effect_step disciplined d (exec_effect o d)
| step_run_starts r : lookup_key (run_id r) (fx_runs d) = None -> colon_free (run_id r) ->
    effect_step disciplined d (d <| fx_runs := fx_runs d ++ [r] |>)
| step_run_changes c f : (forall r, run_id (f r) = run_id r /\ run_tenant_id (f r) = run_tenant_id r
                                   /\ run_person_id (f r) = run_person_id r
                                   /\ (run_status (f r) = "running" -> run_status r = "running")) ->
    effect_step disciplined d (d <| fx_runs := update_where c f (fx_runs d) |>)
| step_event e : HasPrefix (ev_idempotency_key e) dispatch_prefix = false ->
    effect_step disciplined d (d <| fx_events := fx_events d ++ [e] |> <| fx_next_cursor := ev_cursor e |>)
| step_boot i : (forall e, In e (fx_events d) -> dp_Instance (fst (decode_dispatch (ev_payload e))) <> i) ->
    effect_step disciplined d (d <| fx_instance := i |>)
| step_tables watches accounts grants workspaces waits :
    effect_step disciplined d
      (d <| fx_watches := watches |> <| fx_accounts := accounts |> <| fx_grants := grants |>
         <| fx_workspaces := workspaces |> <| fx_waits := waits |>).

Inductive effect_steps (disciplined : bool) (d : EffectDB) : EffectDB -> Prop :=
| steps_none : effect_steps disciplined d d
| steps_more d1 d2 : effect_steps disciplined d d1 -> effect_step disciplined d1 d2 -> effect_steps disciplined d d2.

(** ** Claims from step to step *)

Definition same_claim (c c' : ClaimRow) : Prop :=
  cl_ID c' = cl_ID c /\ cl_TenantID c' = cl_TenantID c /\ cl_PersonID c' = cl_PersonID c /\ cl_RunID c' = cl_RunID c
  /\ cl_EffectID c' = cl_EffectID c /\ cl_TargetKey c' = cl_TargetKey c /\ cl_Sequence c' = cl_Sequence c
  /\ cl_CreatedAt c' = cl_CreatedAt c.

(** States only go forward, and an observation is kept with its reference. *)
Definition claim_step (c c' : ClaimRow) : Prop :=
  same_claim c c' /\
  (c' = c \/ cl_State c = ExternalClaimReserved /\ cl_State c' = ExternalClaimUncertain
   \/ cl_State c <> ExternalClaimObserved /\ cl_State c' = ExternalClaimObserved).

Definition claim_new (t : list ClaimRow) (c : ClaimRow) : Prop :=
  cl_State c = ExternalClaimReserved /\ lookup_key (key c) t = None.

Ltac claim_states := unfold ExternalClaimReserved, ExternalClaimUncertain, ExternalClaimObserved in *; congruence.

Lemma same_claim_refl c : same_claim c c.
Proof. repeat split. Qed.

Lemma claim_step_refl c : claim_step c c.
Proof. split; [apply same_claim_refl|by left]. Qed.

Lemma claim_step_trans x y z : claim_step x y -> claim_step y z -> claim_step x z.
Proof.
  intros [S1 H1] [S2 H2]. split; [unfold same_claim in *; intuition congruence|].
  destruct H1 as [->|[[A B]|[A B]]]; [done|..]; destruct H2 as [->|[[C E]|[C E]]]; try (right; left; done); try (right; right; done).
  - right; right. split; [claim_states|done].
  - exfalso. claim_states.
Qed.

(** ** What the operations leave alone *)

Definition released (c c' : ClaimRow) : Prop :=
  c' = c \/ same_claim c c' /\ cl_State c <> ExternalClaimObserved /\ cl_State c' = ExternalClaimObserved.

(** An operation that starts no call: claims are only released, events that are no
    dispatch records are added, the Runs and the instance stay. *)
Record quiet (d d' : EffectDB) : Prop := {
  quiet_claims : exists g, fx_claims d' = map g (fx_claims d) /\ forall c, In c (fx_claims d) -> released c (g c);
  quiet_events : exists es, fx_events d' = fx_events d ++ es /\
    Forall (fun e => HasPrefix (ev_idempotency_key e) dispatch_prefix = false) es;
  quiet_runs : fx_runs d' = fx_runs d;
  quiet_instance : fx_instance d' = fx_instance d;
  quiet_settlements : fx_settlements d `prefix_of` fx_settlements d' }.

Lemma released_refl c : released c c.
Proof. by left. Qed.

Lemma released_trans x y z : released x y -> released y z -> released x z.
Proof.
  intros [->|(S1 & A & B)]; [done|]. intros [->|(S2 & C & E)]; right; [done|]. by rewrite B in C.
Qed.

Lemma quiet_trans d1 d2 d3 : quiet d1 d2 -> quiet d2 d3 -> quiet d1 d3.
Proof.
  intros [(g & C & G) (es & E & F) R I S] [(g' & C' & G') (es' & E' & F') R' I' S']. constructor; [| |congruence..|by etrans].
  - exists (fun c => g' (g c)). rewrite C', C, map_map. split; [done|]. intros c Hc.
    eapply released_trans; [by apply G|]. apply G'. rewrite C. by apply in_map.
  - exists (es ++ es'). rewrite E', E, app_assoc. split; [done|]. by apply Forall_app.
Qed.

Lemma quiet_same d d' : fx_claims d' = fx_claims d -> fx_events d' = fx_events d -> fx_runs d' = fx_runs d ->
  fx_instance d' = fx_instance d -> fx_settlements d `prefix_of` fx_settlements d' -> quiet d d'.
Proof.
  intros C E R I S. constructor; [|exists []; by rewrite E, app_nil_r|done..].
  exists id. rewrite C, map_id. split; [done|]. intros; apply released_refl.
Qed.

Lemma quiet_refl d : quiet d d.
Proof. by apply quiet_same. Qed.

Lemma quiet_release d cond now ref : (forall c, cond c = true -> unobserved c = true) ->
  quiet d (d <| fx_claims := update_where cond (observe_row now ref) (fx_claims d) |>).
Proof.
  intros H. constructor; [|exists []; by rewrite app_nil_r|done..]. simpl. eexists. split; [done|].
  intros c _. cbv beta. destruct (cond c) eqn:E; [|apply released_refl]. right. split; [done|]. split; [|done].
  apply H in E. unfold unobserved, in_state in E. by apply negb_true_iff, String.eqb_neq in E.
Qed.

Lemma quiet_event uuid now tenant runID eventType payload k d d' b cursor :
  HasPrefix k dispatch_prefix = false ->
  insertEffectEventTx uuid now tenant runID eventType payload k d = Ok (d', b, cursor) -> quiet d d'.
Proof.
  intros P. unfold insertEffectEventTx. destruct (query_row _ _) as [r|]; [|done]. simpl.
  destruct (event_with k _) as [e|]; [intros H; simplify_eq; by apply quiet_same|].
  destruct (existsb _ _); [done|]. intros H. simplify_eq. constructor; [| |done..].
  - exists id. rewrite map_id. split; [done|]. intros; apply released_refl.
  - eexists. split; [done|]. by repeat constructor.
Qed.

Lemma in_uncertain c : in_state ExternalClaimUncertain c = true -> unobserved c = true.
Proof. unfold unobserved, in_state. rewrite String.eqb_eq. by intros ->. Qed.

Lemma in_reserved c : in_state ExternalClaimReserved c = true -> unobserved c = true.
Proof. unfold unobserved, in_state. rewrite String.eqb_eq. by intros ->. Qed.

Lemma quiet_record uuid now tenantID personID runID effectID eventType k payload state d :
  HasPrefix k dispatch_prefix = false ->
  quiet d (fst (recordExternalEffectEvent uuid now tenantID personID runID effectID eventType k payload state d)).
Proof.
  intros P. unfold recordExternalEffectEvent, fx_tx. destruct (negb _); [apply quiet_refl|].
  destruct (insertEffectEventTx _ _ _ _ _ _ _ _) as [[[d' b] cursor]|] eqn:E; [|apply quiet_refl].
  by apply quiet_event in E.
Qed.

Lemma quiet_return uuid now ret d : quiet d (fst (RecordExternalEffectReturn uuid now ret d)).
Proof. unfold RecordExternalEffectReturn. destruct (_ || _); [apply quiet_refl|by apply quiet_record]. Qed.

Lemma quiet_returns ids now rets : forall i d, quiet d (fst (record_returns i ids now rets d)).
Proof.
  induction rets as [|ret rets IH]; intros i d; [apply quiet_refl|]. cbn [record_returns].
  pose proof (quiet_return (ids i) now ret d) as Q. destruct (RecordExternalEffectReturn _ _ _ _) as [d1 [|]]; [|done].
  eapply quiet_trans; [exact Q|apply IH].
Qed.

Lemma quiet_group now ref tenant person runID effectID d : quiet d (release_group now ref tenant person runID effectID d).
Proof. apply quiet_release. intros c H. by apply andb_true_iff in H as [_ H]. Qed.

Lemma quiet_uncertain now ref tenant person runID effectID d :
  quiet d (fst (release_uncertain now ref tenant person runID effectID d)).
Proof. apply quiet_release. intros c H. apply andb_true_iff in H as [_ H]. by apply in_uncertain. Qed.

(** Every operation but a claim, a dispatch record and the crossing of dispatch is
    quiet. *)
Definition starts_call (o : effect_op) : bool :=
  match o with OpClaim _ _ _ _ | OpDispatch _ _ _ | OpMark _ _ _ _ => true | _ => false end.

Lemma observation_target_state tenant person observer claimID d claim f :
  externalEffectObservationTarget tenant person observer claimID d = inr (claim, f) -> unobserved (ec_row claim) = true.
Proof.
  unfold externalEffectObservationTarget. destruct (_ || _); [done|]. destruct (query_row _ _) as [c|] eqn:Q; [|done].
  destruct (in_state ExternalClaimObserved c) eqn:E; [done|]. destruct (disposition _ _) as [disp|]; [|done].
  destruct (disp =? ExternalClaimInFlight)%string; [done|]. intros H. simplify_eq. simpl.
  assert (ec_row (fa_claim (facts_of d c)) = c) as ->; [|unfold unobserved; by rewrite E].
  unfold facts_of. destruct (option_map _ _) as [[p []]|]; done.
Qed.

Lemma quiet_op o d : starts_call o = false -> quiet d (exec_effect o d).
Proof.
  destruct o; intros S; try discriminate S; simpl.
  - apply quiet_return.
  - apply quiet_release. intros c H. apply andb_true_iff in H as [H _]. by apply in_reserved.
  - unfold RecordAbandonedBackgroundEffects. pose proof (quiet_returns ids now
      (distinct_returns (omap (abandoned_return d) (select_where (in_state ExternalClaimUncertain) (fx_claims d)))) 0 d) as Q.
    by destruct (record_returns _ _ _ _ _) as [d' []].
  - by apply quiet_same.
  - unfold ObserveExternalEffect. destruct (_ || _); [apply quiet_refl|].
    match goal with |- context [update_where ?c ?f ?t] => assert (quiet d (d <| fx_claims := update_where c f t |>)) as Q end.
    { apply quiet_release. intros c H. by apply andb_true_iff in H as [_ H]. }
    destruct (negb _); [done|]. destruct (query_row _ _) as [c|]; [|done]. by destruct (_ =? _)%string.
  - unfold ObserveExternalEffectGroup. destruct (_ || _); [apply quiet_refl|]. destruct (group_conflict _ _ _ _ _ _); [apply quiet_refl|].
    apply quiet_group.
  - unfold BindExternalEffectObservation. destruct (_ || _); [apply quiet_refl|]. destruct (query_row _ _) as [r|]; [|apply quiet_refl].
    destruct (negb _); [apply quiet_refl|]. destruct (externalEffectObservationTarget _ _ _ _ _) as [e|[claim f]]; [apply quiet_refl|].
    destruct (negb _); [apply quiet_refl|]. destruct (ec_SameChain claim); [apply quiet_group|].
    destruct (insertEffectEventTx _ _ _ _ _ _ _ _) as [[[d' b] cursor]|] eqn:E; [|apply quiet_refl]. by apply quiet_event in E.
  - unfold ObserveExternalEffectWithWatch. destruct (_ || _); [apply quiet_refl|]. destruct (query_row _ _) as [c|]; [|apply quiet_refl].
    destruct (query_row _ _) as [w|]; [|apply quiet_refl]. destruct (_ && _); [apply quiet_refl|].
    match goal with |- context [match ?x with Ok _ => _ | Err _ => _ end] => destruct x as [c'|] end; [|apply quiet_refl]. destruct (_ && _); [apply quiet_refl|].
    destruct (_ || _); [apply quiet_refl|]. destruct (group_conflict _ _ _ _ _ _); [apply quiet_refl|apply quiet_group].
  - unfold ReleaseExternalEffectForWatch. destruct (blank _); [apply quiet_refl|]. destruct (query_row _ _) as [w|]; [|apply quiet_refl].
    destruct (ew_Receipt w) as [r|]; [|apply quiet_refl]. destruct (_ || _); [apply quiet_refl|]. destruct (_ && _); [apply quiet_refl|].
    destruct (externalEffectForObservation _ _ _ _ _) as [c|]; [|apply quiet_refl]. destruct (negb _); [apply quiet_refl|].
    match goal with |- context [release_uncertain ?n ?ref ?t ?p ?r ?e d] => pose proof (quiet_uncertain n ref t p r e d) as Q; destruct (release_uncertain n ref t p r e d) as [d' k] end.
    destruct (k =? 0)%Z; [apply quiet_refl|exact Q].
  - unfold ObserveEffectClaimsForWatch. destruct (_ =? _)%string; [apply quiet_refl|]. destruct (query_row _ _) as [w|]; [|apply quiet_refl].
    destruct (ew_Receipt w) as [r|]; [|apply quiet_refl]. destruct (_ || _); [apply quiet_refl|].
    destruct (effect_run _ _ _ _) as [run|]; [|apply quiet_refl]. destruct (_ || _); [apply quiet_refl|apply quiet_uncertain].
  - unfold SettleExternalEffect. destruct (_ || _); [apply quiet_refl|]. destruct (_ || _); [apply quiet_refl|].
    unfold settleExternalEffectOnce. destruct (negb _); [apply quiet_refl|]. destruct (query_row _ _) as [c|]; [|apply quiet_refl].
    destruct (negb _); [apply quiet_refl|]. destruct (query_row _ (fx_settlements d)) as [s|]; [by destruct (negb _); apply quiet_refl|].
    destruct (negb _); [apply quiet_refl|]. destruct (bool_decide _); [apply quiet_refl|]. destruct (existsb _ _); [apply quiet_refl|].
    simpl. eapply quiet_trans; [apply quiet_group|apply quiet_same; [done..|by apply prefix_app_r]].
  - by apply quiet_same.
Qed.

(** ** Calls in flight *)

(** The disposition [in_flight] of an unobserved claim, as nobody's own. *)
Definition flying (d : EffectDB) (c : ClaimRow) : bool :=
  unobserved c && match disposition false (facts_of d c) with Some disposition => (disposition =? ExternalClaimInFlight)%string | None => false end.

Definition background_here (d : EffectDB) (p : externalEffectDispatchPayload) : bool :=
  negb (dp_Instance p =? "")%string && (dp_Instance p =? fx_instance d)%string.

Lemma facts_row d c : ec_row (fa_claim (facts_of d c)) = c.
Proof. unfold facts_of. by destruct (option_map _ _) as [[p []]|]. Qed.

Lemma flying_reserved d c : cl_State c = ExternalClaimReserved -> flying d c = owner_runs (cl_TenantID c) (cl_RunID c) d.
Proof.
  intros H. unfold flying, disposition, unobserved. rewrite facts_row. unfold in_state. rewrite H. simpl.
  assert (fa_ownerStatus (facts_of d c) = match query_row (run_at (cl_TenantID c) (cl_RunID c)) (fx_runs d) with
                                          | Some r => run_status r | None => "" end) as ->
    by (unfold facts_of; by destruct (option_map _ _) as [[p []]|]).
  unfold owner_runs. destruct (query_row _ _) as [r|]; [|done].
  by destruct (run_status r =? "running")%string.
Qed.

(** A dispatched call flies until it returns: in the background while the daemon that
    started it lives, in the foreground while its Run executes. *)
Lemma flying_dispatched d c : cl_State c <> ExternalClaimReserved -> flying d c = true ->
  unobserved c = true /\ event_with (externalEffectReturnKey (cl_RunID c) (cl_EffectID c)) d = None /\
  match option_map (fun e => decode_dispatch (ev_payload e)) (event_with (externalEffectDispatchKey (cl_RunID c) (cl_EffectID c)) d) with
  | Some (p, true) => if dp_Background p then background_here d p = true else owner_runs (cl_TenantID c) (cl_RunID c) d = true
  | _ => owner_runs (cl_TenantID c) (cl_RunID c) d = true
  end.
Proof.
  intros H. apply String.eqb_neq in H. unfold flying, disposition. rewrite facts_row. unfold in_state at 1. rewrite H.
  intros [U F]%andb_true_iff. split; [done|]. revert F.
  unfold facts_of, owner_runs, background_here.
  destruct (event_with (externalEffectReturnKey _ _) d) as [e|];
  destruct (option_map _ _) as [[p []]|]; simpl; try (destruct (existsb _ (fx_watches d)); done).
  - destruct (dp_Background p); simpl.
    + destruct (_ && _); [done|]. by destruct (existsb _ (fx_watches d)).
    + destruct (query_row _ _) as [r|]; [|by destruct (existsb _ (fx_watches d))].
      destruct (run_status r =? "running")%string; [done|]. by destruct (existsb _ (fx_watches d)).
  - destruct (query_row _ _) as [r|]; [|by destruct (existsb _ (fx_watches d))].
    destruct (run_status r =? "running")%string; [done|]. by destruct (existsb _ (fx_watches d)).
  - destruct (query_row _ _) as [r|]; [|by destruct (existsb _ (fx_watches d))].
    destruct (run_status r =? "running")%string; [done|]. by destruct (existsb _ (fx_watches d)).
Qed.

Lemma dispatched_flying d c : cl_State c <> ExternalClaimReserved -> unobserved c = true ->
  event_with (externalEffectReturnKey (cl_RunID c) (cl_EffectID c)) d = None ->
  match option_map (fun e => decode_dispatch (ev_payload e)) (event_with (externalEffectDispatchKey (cl_RunID c) (cl_EffectID c)) d) with
  | Some (p, true) => if dp_Background p then background_here d p = true else owner_runs (cl_TenantID c) (cl_RunID c) d = true
  | _ => owner_runs (cl_TenantID c) (cl_RunID c) d = true
  end -> flying d c = true.
Proof.
  intros H U R. apply String.eqb_neq in H. unfold flying, disposition. rewrite facts_row, U. unfold in_state at 1. rewrite H.
  unfold facts_of, owner_runs, background_here. rewrite R.
  destruct (option_map _ _) as [[p []]|]; simpl.
  - destruct (dp_Background p); simpl; [by intros ->|]. destruct (query_row _ _) as [r|]; [|done]. by intros ->.
  - destruct (query_row _ _) as [r|]; [|done]. by intros ->.
  - destruct (query_row _ _) as [r|]; [|done]. by intros ->.
Qed.

(** ** A claim *)

(** The events of an operation that records no dispatch, and nothing else changed. *)
Record noted (d d' : EffectDB) : Prop := {
  noted_events : exists es, fx_events d' = fx_events d ++ es /\
    Forall (fun e => HasPrefix (ev_idempotency_key e) dispatch_prefix = false) es;
  noted_runs : fx_runs d' = fx_runs d;
  noted_claims : fx_claims d' = fx_claims d;
  noted_watches : fx_watches d' = fx_watches d;
  noted_waits : fx_waits d' = fx_waits d;
  noted_instance : fx_instance d' = fx_instance d;
  noted_settlements : fx_settlements d' = fx_settlements d }.

Lemma noted_refl d : noted d d.
Proof. constructor; try done. exists []. by rewrite app_nil_r. Qed.

Lemma noted_trans d1 d2 d3 : noted d1 d2 -> noted d2 d3 -> noted d1 d3.
Proof.
  intros [(es & E & F) ? ? ? ? ?] [(es' & E' & F') ? ? ? ? ?]. constructor; try congruence.
  exists (es ++ es'). rewrite E', E, app_assoc. split; [done|]. by apply Forall_app.
Qed.

Lemma event_noted uuid now tenant runID eventType payload k d d' b cursor :
  HasPrefix k dispatch_prefix = false ->
  insertEffectEventTx uuid now tenant runID eventType payload k d = Ok (d', b, cursor) -> noted d d'.
Proof.
  intros P. unfold insertEffectEventTx. destruct (query_row _ _) as [r|]; [|done]. simpl.
  destruct (event_with k _) as [e|]; [intros H; simplify_eq; constructor; try done; exists []; by rewrite app_nil_r|].
  destruct (existsb _ _); [done|]. intros H. simplify_eq. constructor; try done. eexists. split; [done|]. by repeat constructor.
Qed.

Lemma spend_noted ids now request bs : forall i used d d', spend i ids now request used bs d = Ok d' -> noted d d'.
Proof.
  induction bs as [|b bs IH]; intros i used d d' H; cbn [spend] in H; [simplify_eq; apply noted_refl|].
  destruct (bk_kind b) as [| |ack|]; try (by eapply IH). destruct (_ || _); [by eapply IH|].
  destruct (insertEffectEventTx _ _ _ _ _ _ _ _) as [[[d1 []] cursor]|] eqn:E; [|done..].
  eapply noted_trans; [|by eapply IH]. by apply event_noted in E.
Qed.

Lemma query_row_app {A} (p : A -> bool) l l' :
  query_row p (l ++ l') = match query_row p l with Some x => Some x | None => query_row p l' end.
Proof. unfold query_row. induction l as [|x l IH]; simpl; [done|]. by destruct (p x). Qed.

Lemma event_with_app k d d' es : fx_events d' = fx_events d ++ es ->
  event_with k d' = match event_with k d with Some x => Some x | None => query_row (fun e => (ev_idempotency_key e =? k)%string) es end.
Proof. intros E. unfold event_with. by rewrite E, query_row_app. Qed.

Lemma noted_keeps k d d' e : noted d d' -> event_with k d = Some e -> event_with k d' = Some e.
Proof. intros [(es & E & _) _ _ _ _ _] H. by rewrite (event_with_app _ _ _ _ E), H. Qed.

Lemma event_inserted uuid now tenant runID eventType payload k d d' cursor :
  insertEffectEventTx uuid now tenant runID eventType payload k d = Ok (d', true, cursor) -> exists e, event_with k d' = Some e.
Proof.
  unfold insertEffectEventTx. destruct (query_row _ _) as [r|]; [|done]. cbn [nextEffectSequenceTx].
  destruct (event_with k _) as [e|] eqn:K; [done|]. destruct (existsb _ _); [done|]. intros H. simplify_eq.
  change (event_with k d = None) in K. eexists.
  match goal with |- event_with k ?d' = _ => rewrite (event_with_app k d d' [_] eq_refl), K end. simpl. by rewrite String.eqb_refl.
Qed.

Definition tolerated (request : ExternalEffectClaimRequest) (b : blocker) : bool :=
  one_of (map TrimSpace (rq_ToleratedClaimIDs request)) (cl_ID (ec_row (bk_claim b))).

(** Each observation a call passed by is recorded as used. *)
Lemma spend_spends ids now request bs : forall i used d d', spend i ids now request used bs d = Ok d' ->
  (forall id, one_of used id = true -> spent d id = true) ->
  forall b ack, In b bs -> bk_kind b = BlockAcknowledged ack -> tolerated request b = false -> spent d' (ak_EventID ack) = true.
Proof.
  induction bs as [|x bs IH]; intros i used d d' H U b ack Hb K T; [done|].
  assert (forall d1 i1 used1, spend i1 ids now request used1 bs d1 = Ok d' -> noted d d1 ->
            (forall id, one_of used1 id = true -> spent d1 id = true) ->
            (b = x -> spent d1 (ak_EventID ack) = true) -> spent d' (ak_EventID ack) = true) as R.
  { intros d1 i1 used1 H1 N1 U1 X. destruct Hb as [->|Hb]; [|by eapply (IH i1 used1 d1)].
    unfold spent in *. specialize (X eq_refl). destruct (event_with _ d1) as [e|] eqn:E; [|done].
    apply spend_noted in H1. by rewrite (noted_keeps _ _ _ _ H1 E). }
  cbn [spend] in H. destruct (bk_kind x) as [| |a|] eqn:Kx;
    try (apply (R d i used H (noted_refl d) U); intros ->; congruence).
  destruct (one_of (map TrimSpace _) _) eqn:Tx; [apply (R d i used H (noted_refl d) U); intros ->; unfold tolerated in T; congruence|].
  destruct (one_of used (ak_EventID a)) eqn:Ux; simpl in H.
  { apply (R d i used H (noted_refl d) U). intros ->. rewrite Kx in K. simplify_eq. by apply U. }
  destruct (insertEffectEventTx _ _ _ _ _ _ _ _) as [[[d1 []] cursor]|] eqn:E; [|done..].
  assert (noted d d1) as N by (by apply event_noted in E).
  destruct (event_inserted _ _ _ _ _ _ _ _ _ _ E) as [e Ke].
  apply (R d1 (S i) (ak_EventID a :: used) H N).
  - intros id [->%String.eqb_eq|Hid]%orb_true_iff; [unfold spent; by rewrite Ke|]. unfold spent. specialize (U id Hid). unfold spent in U.
    destruct (event_with (spentKey id) d) as [e'|] eqn:E'; [|done]. by rewrite (noted_keeps _ _ _ _ N E').
  - intros ->. rewrite Kx in K. simplify_eq. unfold spent. by rewrite Ke.
Qed.

(** The rows a claim inserts. *)
Definition reserved_for (request : ExternalEffectClaimRequest) (sequence : Z) (c : ClaimRow) : Prop :=
  cl_TenantID c = rq_TenantID request /\ cl_PersonID c = rq_PersonID request /\ cl_RunID c = rq_RunID request /\
  cl_EffectID c = rq_EffectID request /\ cl_State c = ExternalClaimReserved /\ cl_Sequence c = sequence.

Lemma insert_claims_rows ids now request sequence targets : forall i d d' claims,
  insert_claims i ids now request sequence targets d = Ok (d', claims) ->
  d' = (d <| fx_claims := fx_claims d ++ claims |>) /\ map cl_TargetKey claims = targets /\
  Forall (reserved_for request sequence) claims /\ (keys_unique (fx_claims d) -> keys_unique (fx_claims d')).
Proof.
  induction targets as [|target targets IH]; intros i d d' claims H; cbn [insert_claims] in H.
  - simplify_eq. split; [destruct d'; by rewrite app_nil_r|]. done.
  - destruct (existsb (claim_clash _) _) eqn:C; [done|].
    destruct (insert_claims (S i) _ _ _ _ _ _) as [[d1 claims1]|] eqn:E; [|done]. simplify_eq.
    apply IH in E as (-> & M & F & U). simpl in *. split; [by rewrite <- app_assoc|].
    split; [by rewrite M|]. split; [constructor; [by repeat split|done]|].
    intros K. rewrite <- app_assoc in *. apply U. apply keys_unique_snoc; [done|].
    apply lookup_key_None. intros r Hr. pose proof (existsb_false_In _ _ _ C Hr) as X. apply orb_false_iff in X as [X _].
    apply String.eqb_neq in X. by apply not_eq_sym.
Qed.

(** A claim changes no claim row and starts nothing, or grants every target. *)
Definition passes (request : ExternalEffectClaimRequest) (b : blocker) : Prop :=
  match bk_kind b with BlockAcknowledged _ => True | BlockForeign => tolerated request b = true | _ => False end.

Record granted (request : ExternalEffectClaimRequest) (targets : list string) (d d' : EffectDB) (claims : list ClaimRow) : Prop := {
  granted_noted : exists d1, noted d d1 /\ fx_claims d' = fx_claims d ++ claims /\ fx_events d' = fx_events d1
                             /\ fx_runs d' = fx_runs d1 /\ fx_watches d' = fx_watches d1 /\ fx_waits d' = fx_waits d1
                             /\ fx_instance d' = fx_instance d1 /\ fx_settlements d' = fx_settlements d1;
  granted_owner : exists r, query_row (run_at (rq_TenantID request) (rq_RunID request)) (fx_runs d) = Some r
                            /\ run_person_id r = rq_PersonID request /\ run_status r = "running";
  granted_new : forall c, In c (fx_claims d) -> group_row (rq_TenantID request) (rq_RunID request) (rq_EffectID request) c = false;
  granted_targets : map cl_TargetKey claims = targets;
  granted_rows : exists sequence, Forall (reserved_for request sequence) claims;
  granted_unique : keys_unique (fx_claims d) -> keys_unique (fx_claims d');
  granted_passes : Forall (passes request)
    (classifyExternalBlockers (rq_TenantID request) (rq_PersonID request) (rq_RunID request) targets d);
  granted_spent : forall b ack, In b (classifyExternalBlockers (rq_TenantID request) (rq_PersonID request) (rq_RunID request) targets d) ->
    bk_kind b = BlockAcknowledged ack -> tolerated request b = false -> spent d' (ak_EventID ack) = true }.

Lemma filter_nil_false {A} (p : A -> bool) l x : List.filter p l = [] -> In x l -> p x = false.
Proof. intros H Hx. destruct (p x) eqn:E; [|done]. assert (In x (List.filter p l)) as X by (by apply filter_In). by rewrite H in X. Qed.

Lemma claim_once_cases ids ids' now request targets d d' decision :
  claimExternalEffectsOnce ids ids' now request targets d = Ok (d', decision) ->
  match decision with
  | Granted claims => granted request targets d d' claims
  | _ => fx_claims d' = fx_claims d /\ fx_events d' = fx_events d /\ fx_runs d' = fx_runs d /\ fx_instance d' = fx_instance d
         /\ fx_settlements d' = fx_settlements d
  end.
Proof.
  unfold claimExternalEffectsOnce. destruct (query_row _ _) as [r|] eqn:Q; [|done].
  destruct (negb (run_person_id r =? _)%string || _) eqn:O; [done|].
  apply orb_false_iff in O as [O1 O2]. apply negb_false_iff, String.eqb_eq in O1, O2.
  destruct (loadExternalEffectClaimsTx _ _ _ _) as [|x l] eqn:L; [|destruct (bool_decide _); [|done]; intros H; by simplify_eq].
  set (bs := classifyExternalBlockers _ _ _ _ _).
  destruct (List.filter is_own bs) eqn:Own; [|intros H; by simplify_eq].
  destruct (List.filter is_waiting bs) eqn:Wait; [|destruct (rq_DeferWait request); intros H; by simplify_eq].
  destruct (List.filter (fun b => is_foreign b && _) bs) eqn:Pass; [|intros H; by simplify_eq].
  destruct (spend _ _ _ _ _ _ _) as [d1|] eqn:S; [|done]. simpl.
  destruct (insert_claims _ _ _ _ _ _ _) as [[d2 claims]|] eqn:I; [|done]. intros H. simplify_eq.
  pose proof (spend_noted _ _ _ _ _ _ _ _ S) as N. apply insert_claims_rows in I as (-> & M & F & U). constructor; try done.
  - exists d1. split; [done|]. simpl. rewrite (noted_claims _ _ N). done.
  - by exists r.
  - intros c Hc. unfold loadExternalEffectClaimsTx in L. destruct (group_row _ _ _ c) eqn:G; [|done].
    assert (In c (order_by (fun a b => String.leb (cl_TargetKey a) (cl_TargetKey b))
              (select_where (group_row (rq_TenantID request) (rq_RunID request) (rq_EffectID request)) (fx_claims d)))) as X
      by (apply In_order_by, filter_In; done). by rewrite L in X.
  - by eexists.
  - intros K. apply U. simpl. by rewrite (noted_claims _ _ N).
  - apply List.Forall_forall. intros b Hb. unfold passes. pose proof (filter_nil_false _ _ _ Own Hb) as B1.
    pose proof (filter_nil_false _ _ _ Wait Hb) as B2. pose proof (filter_nil_false _ _ _ Pass Hb) as B3.
    unfold is_own, is_waiting, is_foreign in *. destruct (bk_kind b); try done. simpl in B3. by apply negb_false_iff in B3.
  - intros b ack Hb K T. change (spent d1 (ak_EventID ack) = true). eapply (spend_spends _ _ _ _ _ _ _ _ S); try done.
Qed.

Lemma claim_cases ids ids' now request d d' r : ClaimExternalEffects ids ids' now request d = (d', r) ->
  match r with
  | Ok (Granted claims) => granted (normalize_request request) (sorted_targets (rq_TargetKeys request)) d d' claims
  | _ => quiet d d'
  end.
Proof.
  unfold ClaimExternalEffects. destruct (_ || _); [intros H; simplify_eq; apply quiet_refl|].
  destruct (negb _); [intros H; simplify_eq; apply quiet_refl|]. unfold fx_tx.
  destruct (claimExternalEffectsOnce _ _ _ _ _ _) as [[d1 decision]|] eqn:C; intros H; simplify_eq; [|apply quiet_refl].
  apply claim_once_cases in C. destruct decision; [..|done]; destruct C as (C & E & R & I & St); by apply quiet_same; rewrite ?St.
Qed.

(** ** The invariant *)

Definition one_group (c1 c2 : ClaimRow) : Prop :=
  cl_TenantID c1 = cl_TenantID c2 /\ cl_RunID c1 = cl_RunID c2 /\ cl_EffectID c1 = cl_EffectID c2.

Record effect_wf (d : EffectDB) : Prop := {
  wf_ids : keys_unique (fx_claims d);
  wf_runs : keys_unique (fx_runs d);
  wf_colon : forall r, In r (fx_runs d) -> colon_free (run_id r);
  wf_owner : forall c, In c (fx_claims d) -> exists r, In r (fx_runs d) /\ run_id r = cl_RunID c
               /\ run_tenant_id r = cl_TenantID c /\ run_person_id r = cl_PersonID c;
  wf_state : forall c, In c (fx_claims d) ->
               one_of [ExternalClaimReserved; ExternalClaimUncertain; ExternalClaimObserved] (cl_State c) = true;
  wf_group : forall c1 c2, In c1 (fx_claims d) -> In c2 (fx_claims d) -> one_group c1 c2 ->
               cl_State c1 = ExternalClaimReserved -> cl_State c2 <> ExternalClaimUncertain }.

Lemma claims_map_wf d d' g : effect_wf d -> fx_runs d' = fx_runs d -> fx_claims d' = map g (fx_claims d) ->
  (forall c, In c (fx_claims d) -> claim_step c (g c)) ->
  (forall c1 c2, In c1 (fx_claims d) -> In c2 (fx_claims d) -> one_group c1 c2 ->
     cl_State (g c1) = ExternalClaimReserved -> cl_State (g c2) <> ExternalClaimUncertain) -> effect_wf d'.
Proof.
  intros [I R C O S G] ER EC St Gr. constructor; rewrite ?ER, ?EC; try done.
  - unfold keys_unique. rewrite map_map. erewrite map_ext_in; [exact I|]. intros c Hc.
    destruct (St c Hc) as [(E & _) _]. exact E.
  - intros c' Hc'. apply in_map_iff in Hc' as (c & <- & Hc). destruct (St c Hc) as [(_ & E1 & E2 & E3 & _) _].
    destruct (O c Hc) as (r & ? & ? & ? & ?). exists r. by rewrite E1, E2, E3.
  - intros c' Hc'. apply in_map_iff in Hc' as (c & <- & Hc). specialize (S c Hc).
    destruct (St c Hc) as [_ [->|[[_ ->]|[_ ->]]]]; done.
  - intros c1' c2' H1 H2 E. apply in_map_iff in H1 as (c1 & <- & H1). apply in_map_iff in H2 as (c2 & <- & H2).
    apply Gr; try done. destruct (St c1 H1) as [(_ & A1 & _ & A3 & A4 & _) _]. destruct (St c2 H2) as [(_ & B1 & _ & B3 & B4 & _) _].
    unfold one_group in *. by rewrite A1, A3, A4, B1, B3, B4 in E.
Qed.

Lemma released_claim_step c c' : released c c' -> claim_step c c'.
Proof. intros [->|(S & A & B)]; [apply claim_step_refl|]. split; [done|]. right. by right. Qed.

Lemma quiet_wf d d' : quiet d d' -> effect_wf d -> effect_wf d'.
Proof.
  intros [(g & C & G) _ R _] W. apply (claims_map_wf d d' g); try done; [intros c Hc; by apply released_claim_step, G|].
  intros c1 c2 H1 H2 E A. destruct (G c1 H1) as [E1|(_ & _ & B1)]; [|claim_states]. rewrite E1 in A.
  destruct (G c2 H2) as [E2|(_ & _ & B2)]; [|claim_states]. rewrite E2. by apply (wf_group _ W c1).
Qed.

Lemma mark_claims now tenantID runID effectID d :
  let cond := fun c => group_row (normalizeTenant tenantID) runID effectID c && in_state ExternalClaimReserved c in
  fst (MarkExternalEffectPossible now tenantID runID effectID d) = d \/
  fst (MarkExternalEffectPossible now tenantID runID effectID d) =
    (d <| fx_claims := update_where cond (set_state now ExternalClaimUncertain) (fx_claims d) |>).
Proof.
  intros cond. unfold MarkExternalEffectPossible. destruct (_ || _); [by left|]. right.
  destruct (negb _); [done|]. by destruct (existsb _ _).
Qed.

Lemma mark_wf now tenantID runID effectID d : effect_wf d -> effect_wf (fst (MarkExternalEffectPossible now tenantID runID effectID d)).
Proof.
  intros W. destruct (mark_claims now tenantID runID effectID d) as [->| ->]; [done|].
  set (cond := fun c : ClaimRow => group_row _ _ _ c && in_state _ c). eapply (claims_map_wf d _ (fun c => if cond c then set_state now ExternalClaimUncertain c else c)); try done.
  - intros c _. destruct (cond c) eqn:E; [|apply claim_step_refl]. split; [done|]. right; left.
    apply andb_true_iff in E as [_ E]. by apply String.eqb_eq in E.
  - intros c1 c2 H1 H2 E A. destruct (cond c1) eqn:E1; [discriminate A|].
    destruct (cond c2) eqn:E2; [|by apply (wf_group _ W c1)]. exfalso. apply andb_true_iff in E2 as [E2 _].
    assert (cond c1 = true) as X; [|congruence]. unfold cond, group_row in *. destruct E as (-> & -> & ->). rewrite E2.
    unfold in_state. by rewrite A.
Qed.

Lemma granted_wf request targets d d' claims : granted request targets d d' claims -> effect_wf d -> effect_wf d'.
Proof.
  intros [(d1 & N & EC & _ & ER & _) (r & Q & P & St) New _ (sequence & F) U _ _] [I R C O S G].
  rewrite (noted_runs _ _ N) in ER. rewrite List.Forall_forall in F. constructor; rewrite ?ER, ?EC; try done.
  - rewrite <- EC. by apply U.
  - intros c [Hc|Hc]%in_app_or; [by apply O|]. apply F in Hc as (E1 & E2 & E3 & _). apply find_some in Q as [Hr Q].
    apply andb_true_iff in Q as [Q1 Q2]. apply String.eqb_eq in Q1, Q2. exists r. by rewrite E1, E2, E3.
  - intros c [Hc|Hc]%in_app_or; [by apply S|]. apply F in Hc as (_ & _ & _ & _ & -> & _). done.
  - intros c1 c2 H1 H2 E A. apply in_app_or in H1 as [H1|H1], H2 as [H2|H2]; [by apply (G c1)|..].
    + apply F in H2 as (_ & _ & _ & _ & -> & _). done.
    + exfalso. apply F in H1 as (E1 & _ & E3 & E4 & _). apply New in H2. unfold group_row in H2.
      destruct E as (X1 & X3 & X4). by rewrite <- X1, <- X3, <- X4, E1, E3, E4, !String.eqb_refl in H2.
    + apply F in H2 as (_ & _ & _ & _ & -> & _). done.
Qed.

Lemma record_dispatch_frame uuid now dispatch d :
  let d' := fst (RecordExternalEffectDispatch uuid now dispatch d) in
  fx_claims d' = fx_claims d /\ fx_runs d' = fx_runs d /\ fx_instance d' = fx_instance d /\
  (fx_events d' = fx_events d \/
   exists e c, fx_events d' = fx_events d ++ [e] /\ ev_idempotency_key e = externalEffectDispatchKey (ds_RunID dispatch) (ds_EffectID dispatch)
     /\ In c (fx_claims d) /\ owned_group (normalizeTenant (ds_TenantID dispatch)) (ds_PersonID dispatch) (ds_RunID dispatch) (ds_EffectID dispatch) c = true
     /\ cl_State c = ExternalClaimReserved).
Proof.
  unfold RecordExternalEffectDispatch, recordExternalEffectEvent, fx_tx. destruct (_ || _); [by repeat split; left|].
  destruct (negb _) eqn:X; [by repeat split; left|]. apply negb_false_iff, existsb_exists in X as (c & Hc & X).
  apply andb_true_iff in X as [X1 X2]. apply String.eqb_eq in X2.
  destruct (insertEffectEventTx _ _ _ _ _ _ _ _) as [[[d1 b] cursor]|] eqn:E; [|by repeat split; left].
  unfold insertEffectEventTx in E. destruct (query_row _ _) as [r|]; [|done]. cbn [nextEffectSequenceTx] in E.
  destruct (event_with _ _) as [e|]; [simplify_eq; by repeat split; left|]. destruct (existsb _ _); [done|]. simplify_eq.
  simpl. do 3 (split; [done|]). right. by eexists _, c.
Qed.

Lemma update_runs_wf d c f : (forall r, run_id (f r) = run_id r /\ run_tenant_id (f r) = run_tenant_id r
    /\ run_person_id (f r) = run_person_id r /\ (run_status (f r) = "running" -> run_status r = "running")) ->
  effect_wf d -> effect_wf (d <| fx_runs := update_where c f (fx_runs d) |>).
Proof.
  intros F [I R C O S G]. constructor; simpl; try done.
  - unfold keys_unique. rewrite map_update_where; [done|]. intros r _. apply F.
  - intros r' Hr'. apply In_update_where in Hr' as (r & Hr & ->). destruct (c r); [destruct (F r) as (-> & _)|]; by apply C.
  - intros x Hx. destruct (O x Hx) as (r & Hr & E1 & E2 & E3). exists (if c r then f r else r). split; [apply In_update_where; eauto|].
    destruct (c r); [|done]. destruct (F r) as (-> & -> & -> & _). done.
Qed.

Lemma step_wf disciplined d d' : effect_step disciplined d d' -> effect_wf d -> effect_wf d'.
Proof.
  intros H W. destruct H as [o _|r Hr Cr|c f F|e He|i Hi|]; [|..].
  - destruct (starts_call o) eqn:S; [|by eapply quiet_wf, W; apply quiet_op]. destruct o; try discriminate S; simpl.
    + destruct (ClaimExternalEffects ids ids' now request d) as [d1 r] eqn:E. apply claim_cases in E.
      destruct r as [[]|]; simpl; [by eapply quiet_wf..|by eapply granted_wf|by eapply quiet_wf].
    + destruct (record_dispatch_frame uuid now dispatch d) as (C & R & _ & _).
      apply (claims_map_wf d _ id); try done; [by rewrite C, map_id|intros; apply claim_step_refl|intros; by eapply (wf_group _ W c1)].
    + by apply mark_wf.
  - destruct W as [I R C O S G]. constructor; simpl; try done.
    + by apply keys_unique_snoc.
    + intros x [Hx|[<-|[]]]%in_app_or; [by apply C|done].
    + intros c Hc. destruct (O c Hc) as (x & ? & ?). exists x. split; [apply in_or_app; by left|done].
  - by apply update_runs_wf.
  - by destruct W.
  - by destruct W.
  - by destruct W.
Qed.

Lemma steps_wf disciplined d d' : effect_steps disciplined d d' -> effect_wf d -> effect_wf d'.
Proof. induction 1 as [|d1 d2 _ IH H]; [done|]. intros W. eapply step_wf; [exact H|by apply IH]. Qed.

End Histories.
