(* ===== verification/EffectSafety.v ===== *)
(** * The guarantees of external effect claims

    Calls that fly at the same time do not touch the same target; a call is granted
    once, past nothing but what was observed, approved or never dispatched; an
    observation is final, and lets one call pass. *)

From stdpp Require Import base tactics list strings.
From Stdlib Require Import ZArith Lia Bool Ascii String List.
From S2P Require Import Prelude GoLib GoStrings Sql Evolution Store Database Effects EffectRelease EffectsTheory.

(** ** Keys *)

Lemma colon_split r1 r2 e1 e2 : colon_free r1 -> colon_free r2 -> r1 +:+ ":" +:+ e1 = r2 +:+ ":" +:+ e2 -> r1 = r2 /\ e1 = e2.
Proof.
  unfold colon_free. revert r2. induction r1 as [|a r1 IH]; intros [|b r2] H1 H2 E.
  - by injection E.
  - exfalso. injection E as E _. simpl in H2. by rewrite <- E in H2.
  - exfalso. injection E as E _. simpl in H1. by rewrite E in H1.
  - injection E as E1 E2. simpl in H1, H2. apply andb_true_iff in H1 as [_ H1], H2 as [_ H2].
    destruct (IH r2 H1 H2 E2) as [-> ->]. by rewrite E1.
Qed.

Lemma dispatch_key_prefix r e : HasPrefix (externalEffectDispatchKey r e) dispatch_prefix = true.
Proof. unfold externalEffectDispatchKey, dispatch_prefix, HasPrefix. generalize (r +:+ ":" +:+ e). intros s. simpl. by destruct s. Qed.

Lemma dispatch_key_inj r1 r2 e1 e2 : colon_free r1 -> colon_free r2 ->
  externalEffectDispatchKey r1 e1 = externalEffectDispatchKey r2 e2 -> r1 = r2 /\ e1 = e2.
Proof. intros H1 H2 H. apply colon_split; [done..|]. unfold externalEffectDispatchKey in H. by injection H. Qed.

Lemma no_dispatch_event es r e : Forall (fun x => HasPrefix (ev_idempotency_key x) dispatch_prefix = false) es ->
  query_row (fun x => (ev_idempotency_key x =? externalEffectDispatchKey r e)%string) es = None.
Proof.
  unfold query_row. induction 1 as [|x es H _ IH]; [done|]. simpl. destruct (_ =? _)%string eqn:E; [|done].
  apply String.eqb_eq in E. by rewrite E, dispatch_key_prefix in H.
Qed.

(** ** Following calls in flight *)

Section Safety.
Context {rules : EffectRules}.

Lemma flying_back d d' c :
  (owner_runs (cl_TenantID c) (cl_RunID c) d' = true -> owner_runs (cl_TenantID c) (cl_RunID c) d = true) ->
  (forall k e, event_with k d = Some e -> event_with k d' = Some e) ->
  (cl_State c <> ExternalClaimReserved -> unobserved c = true ->
     event_with (externalEffectDispatchKey (cl_RunID c) (cl_EffectID c)) d' = event_with (externalEffectDispatchKey (cl_RunID c) (cl_EffectID c)) d) ->
  (forall e, In e (fx_events d) -> background_here d' (fst (decode_dispatch (ev_payload e))) = true ->
     background_here d (fst (decode_dispatch (ev_payload e))) = true) ->
  flying d' c = true -> flying d c = true.
Proof.
  intros R K D B F. destruct (decide (cl_State c = ExternalClaimReserved)) as [S|S].
  { rewrite flying_reserved in F |- * by done. by apply R. }
  apply flying_dispatched in F as (U & N & F); [|done]. apply dispatched_flying; [done..| |].
  - destruct (event_with (externalEffectReturnKey _ _) d) as [e|] eqn:E; [|done]. apply K in E. congruence.
  - rewrite (D S U) in F. destruct (event_with (externalEffectDispatchKey _ _) d) as [e|] eqn:E; cbn [option_map] in *; [|by apply R].
    specialize (B e (proj1 (find_some _ _ E))). destruct (decode_dispatch (ev_payload e)) as [p []]; [|by apply R].
    cbn [fst] in B. destruct (dp_Background p); [by apply B|by apply R].
Qed.

Lemma extended_keeps d d' es k e : fx_events d' = fx_events d ++ es -> event_with k d = Some e -> event_with k d' = Some e.
Proof. intros E H. by rewrite (event_with_app _ _ _ _ E), H. Qed.

Lemma extended_dispatch d d' es r e : fx_events d' = fx_events d ++ es ->
  Forall (fun x => HasPrefix (ev_idempotency_key x) dispatch_prefix = false) es ->
  event_with (externalEffectDispatchKey r e) d' = event_with (externalEffectDispatchKey r e) d.
Proof. intros E F. rewrite (event_with_app _ _ _ _ E), no_dispatch_event by done. by destruct (event_with _ d). Qed.

Lemma same_here d d' p : fx_instance d' = fx_instance d -> background_here d' p = true -> background_here d p = true.
Proof. unfold background_here. by intros ->. Qed.

(** The same Runs and instance, and no new dispatch record: nothing takes off. *)
Lemma flying_extended d d' c es : fx_runs d' = fx_runs d -> fx_instance d' = fx_instance d ->
  fx_events d' = fx_events d ++ es -> Forall (fun x => HasPrefix (ev_idempotency_key x) dispatch_prefix = false) es ->
  flying d' c = true -> flying d c = true.
Proof.
  intros R I E F. apply flying_back.
  - unfold owner_runs. by rewrite R.
  - intros k e. by apply (extended_keeps _ _ es).
  - intros _ _. by apply (extended_dispatch _ _ es).
  - intros e _. by apply same_here.
Qed.

(** Every call in flight after a step was in flight before, but for the claims the
    step granted. *)
Definition flights_from (d d' : EffectDB) : Prop :=
  forall c', In c' (fx_claims d') -> flying d' c' = true -> exists c, In c (fx_claims d) /\ same_claim c c' /\ flying d c = true.

Lemma flights_same d d' : fx_claims d' = fx_claims d ->
  (forall c, In c (fx_claims d) -> flying d' c = true -> flying d c = true) -> flights_from d d'.
Proof. intros C F c Hc H. rewrite C in Hc. exists c. split; [done|]. split; [apply same_claim_refl|by apply F]. Qed.

Lemma quiet_flights d d' : quiet d d' -> flights_from d d'.
Proof.
  intros [(g & C & G) (es & E & F) R I] c' Hc' Fl. rewrite C in Hc'. apply in_map_iff in Hc' as (c & <- & Hc).
  destruct (G c Hc) as [Eq|(_ & _ & O)].
  - rewrite Eq in *. exists c. split; [done|]. split; [apply same_claim_refl|]. by apply (flying_extended d d' c es).
  - unfold flying, unobserved, in_state in Fl. by rewrite O in Fl.
Qed.

Lemma mark_flights now tenantID runID effectID d : owner_runs (normalizeTenant tenantID) runID d = true ->
  flights_from d (fst (MarkExternalEffectPossible now tenantID runID effectID d)).
Proof.
  intros O. destruct (mark_claims now tenantID runID effectID d) as [->| ->]; [by apply flights_same|].
  intros c' Hc' Fl. apply In_update_where in Hc' as (c & Hc & ->). exists c. split; [done|].
  destruct (_ && _) eqn:E.
  2: { split; [apply same_claim_refl|]. revert Fl. by apply (flying_extended _ _ c []); rewrite ?app_nil_r. }
  split; [done|].
  apply andb_true_iff in E as [E S]. apply String.eqb_eq in S. rewrite flying_reserved by done.
  apply andb_true_iff in E as [[E1 E2]%andb_true_iff _]. apply String.eqb_eq in E1, E2. by rewrite E1, E2.
Qed.

Lemma claim_states_cases c :
  one_of [ExternalClaimReserved; ExternalClaimUncertain; ExternalClaimObserved] (cl_State c) = true ->
  cl_State c <> ExternalClaimReserved -> unobserved c = true -> cl_State c = ExternalClaimUncertain.
Proof.
  unfold unobserved, in_state, one_of. cbn [existsb]. rewrite orb_false_r.
  intros [->%String.eqb_eq|[E|E]%orb_true_iff]%orb_true_iff R U; [done|by apply String.eqb_eq in E|].
  apply String.eqb_eq in E. by rewrite E in U.
Qed.

Lemma dispatch_flights uuid now dispatch d : effect_wf d -> flights_from d (fst (RecordExternalEffectDispatch uuid now dispatch d)).
Proof.
  intros W. destruct (record_dispatch_frame uuid now dispatch d) as (C & R & I & E). set (d' := fst _) in *. clearbody d'.
  apply flights_same; [done|]. intros c Hc. destruct E as [E|(e & c0 & E & K & Hc0 & G0 & S0)].
  { apply (flying_extended d d' c []); try done. by rewrite app_nil_r. }
  apply flying_back.
  - unfold owner_runs. by rewrite R.
  - intros k x. by apply (extended_keeps _ _ [e]).
  - intros NR U. rewrite (event_with_app _ _ _ _ E). destruct (event_with _ d) as [x|]; [done|]. unfold query_row. simpl.
    destruct (_ =? _)%string eqn:X; [|done]. exfalso. apply String.eqb_eq in X. rewrite K in X.
    apply andb_true_iff in G0 as [G0 _]. apply andb_true_iff in G0 as [[_ G2]%andb_true_iff G3]. apply String.eqb_eq in G2, G3.
    destruct (wf_owner _ W c Hc) as (r & Hr & O1 & O2 & _), (wf_owner _ W c0 Hc0) as (r0 & Hr0 & O01 & O02 & _).
    apply dispatch_key_inj in X as [X1 X2];
      [|rewrite <- G2, <- O01; by apply (wf_colon _ W)|rewrite <- O1; by apply (wf_colon _ W)].
    assert (r0 = r) as -> by (apply (keys_unique_inj _ _ _ (wf_runs _ W)); [done..|]; change (run_id r0 = run_id r); congruence).
    apply (wf_group _ W c0 c Hc0 Hc); [unfold one_group; repeat split; congruence|done|].
    by apply (claim_states_cases _ (wf_state _ W c Hc)).
  - intros x _. by apply same_here.
Qed.

Lemma find_update_runs tenant runID c f runs : (forall r, run_id (f r) = run_id r /\ run_tenant_id (f r) = run_tenant_id r
    /\ run_person_id (f r) = run_person_id r /\ (run_status (f r) = "running" -> run_status r = "running")) ->
  query_row (run_at tenant runID) (update_where c f runs) =
  option_map (fun r => if c r then f r else r) (query_row (run_at tenant runID) runs).
Proof.
  intros F. unfold query_row, update_where. induction runs as [|r runs IH]; [done|]. simpl.
  assert (run_at tenant runID (if c r then f r else r) = run_at tenant runID r) as ->.
  { destruct (c r); [|done]. unfold run_at. destruct (F r) as (-> & -> & _). done. }
  by destruct (run_at tenant runID r).
Qed.

(** Conflicts are symmetric. *)
Lemma conflict_sym a b : externalTargetsConflict a b = externalTargetsConflict b a.
Proof. unfold externalTargetsConflict. rewrite (String.eqb_sym a b). by destruct (a =? UnknownExternalTarget)%string, (b =? UnknownExternalTarget)%string. Qed.

Lemma In_omap {A B} (f : A -> option B) l x y : In x l -> f x = Some y -> In y (omap f l).
Proof.
  induction l as [|a l IH]; [done|]. intros [->|Hx] E; simpl; [rewrite E; by left|]. destruct (f a); [right|]; by apply IH.
Qed.

(** What the gate lets a call pass. *)
Definition passable (d : EffectDB) (request : ExternalEffectClaimRequest) (c : ClaimRow) : Prop :=
  let f := facts_of d c in
  let own := one_of (runLineage (rq_TenantID request) (rq_PersonID request) (rq_RunID request) (fx_runs d)) (cl_RunID c) in
  disposition own f = None \/
  own = false /\ disposition false f = Some ExternalClaimLeftUncertain /\
  (one_of (map TrimSpace (rq_ToleratedClaimIDs request)) (cl_ID c) = true \/
   exists ack, forClaim (acknowledgments (rq_TenantID request) (rq_RunID request) d) c (fa_returnCursor f) = Some ack).

Lemma disposition_cases own f : disposition own f = None \/ disposition own f = Some ExternalClaimInFlight \/
  disposition own f = Some ExternalClaimWatched \/ disposition own f = Some ExternalClaimLeftUncertain.
Proof.
  unfold disposition. destruct (in_state _ _); [destruct (_ =? _)%string; auto|]. match goal with |- context [if if ?b then ?x else ?y then _ else _] => destruct (if b then x else y) end; [auto|].
  destruct (fa_watched f); auto.
Qed.

Lemma granted_passable request targets d d' claims c : rq_RunID request <> "" -> granted request targets d d' claims ->
  In c (fx_claims d) -> cl_TenantID c = rq_TenantID request -> cl_PersonID c = rq_PersonID request -> unobserved c = true ->
  targets_conflict targets (cl_TargetKey c) = true -> passable d request c.
Proof.
  intros NE G Hc T P U X. pose proof (granted_passes _ _ _ _ _ G) as Pass. rewrite List.Forall_forall in Pass.
  unfold passable. set (own := one_of _ _). set (f := facts_of d c).
  destruct (disposition own f) as [disp|] eqn:D; [|by left]. right.
  assert (classifyExternalBlockers (rq_TenantID request) (rq_PersonID request) (rq_RunID request) targets d =
    omap (classify_claim d (runLineage (rq_TenantID request) (rq_PersonID request) (rq_RunID request) (fx_runs d))
            (acknowledgments (rq_TenantID request) (rq_RunID request) d) targets)
      (order_by claim_order (select_where (fun c => (cl_TenantID c =? rq_TenantID request)%string
         && (cl_PersonID c =? rq_PersonID request)%string && unobserved c) (fx_claims d)))) as E.
  { unfold classifyExternalBlockers. apply String.eqb_neq in NE. by rewrite NE. }
  rewrite E in Pass. clear E.
  assert (In c (order_by claim_order (select_where (fun c => (cl_TenantID c =? rq_TenantID request)%string
         && (cl_PersonID c =? rq_PersonID request)%string && unobserved c) (fx_claims d)))) as Hc'.
  { apply In_order_by, filter_In. split; [done|]. by rewrite T, P, U, !String.eqb_refl. }
  specialize (fun b E => Pass b (In_omap _ _ c b Hc' E)). unfold classify_claim in Pass. rewrite X in Pass.
  fold own f in Pass. rewrite D in Pass. specialize (Pass _ eq_refl).
  unfold passes in Pass. simpl in Pass. pose proof (disposition_cases own f) as K. rewrite D in K.
  destruct K as [K|[K|[K|K]]]; [done|..]; injection K as ->; simpl in Pass.
  - by destruct own.
  - done.
  - destruct own eqn:O; [done|]. split; [done|]. split; [done|]. simpl in Pass.
    destruct (forClaim _ c (fa_returnCursor f)) as [ack|] eqn:A; simpl in Pass; [right; by exists ack|left].
    unfold tolerated in Pass. simpl in Pass. unfold f in Pass. by rewrite facts_row in Pass.
Qed.

Lemma passable_not_flying d request c : passable d request c -> flying d c = false.
Proof.
  unfold passable, flying. rewrite andb_comm. set (own := one_of _ _). intros [D|(_ & -> & _)]; [|done].
  destruct (disposition false (facts_of d c)) as [disp|] eqn:F; [|done]. exfalso. revert D F. unfold disposition.
  destruct (in_state _ _); [by destruct (_ =? _)%string|]. match goal with |- context [if if ?b then ?x else ?y then _ else _] => destruct (if b then x else y) end; [done|]. by destruct (fa_watched _).
Qed.

(** Claims of one person whose calls fly at the same time have no target in common. *)
Definition exclusive (d : EffectDB) : Prop :=
  forall c1 c2, In c1 (fx_claims d) -> In c2 (fx_claims d) -> flying d c1 = true -> flying d c2 = true ->
    cl_TenantID c1 = cl_TenantID c2 -> cl_PersonID c1 = cl_PersonID c2 -> ~ one_group c1 c2 ->
    externalTargetsConflict (cl_TargetKey c1) (cl_TargetKey c2) = false.

Lemma flights_exclusive d d' : flights_from d d' -> exclusive d -> exclusive d'.
Proof.
  intros F X c1 c2 H1 H2 F1 F2 T P G. destruct (F c1 H1 F1) as (x1 & I1 & (E11 & E12 & E13 & E14 & E15 & E16 & _) & Y1).
  destruct (F c2 H2 F2) as (x2 & I2 & (E21 & E22 & E23 & E24 & E25 & E26 & _) & Y2).
  rewrite E16, E26. apply X; try done; [congruence..|]. intros (A & B & C). apply G. unfold one_group. repeat split; congruence.
Qed.

Lemma granted_exclusive request targets d d' claims : rq_RunID request <> "" -> granted request targets d d' claims ->
  exclusive d -> exclusive d'.
Proof.
  intros NE G X. destruct (granted_noted _ _ _ _ _ G) as (d1 & N & EC & EE & ER & _ & _ & EI & _).
  destruct (noted_events _ _ N) as (es & E & F). destruct (granted_rows _ _ _ _ _ G) as (sequence & Rows).
  rewrite List.Forall_forall in Rows.
  assert (forall c, In c (fx_claims d) -> flying d' c = true -> flying d c = true) as Old.
  { intros c _. apply (flying_extended d d' c es); [by rewrite ER, (noted_runs _ _ N)|by rewrite EI, (noted_instance _ _ N)|by rewrite EE, E|done]. }
  assert (forall c new, In c (fx_claims d) -> In new claims -> flying d' c = true -> cl_TenantID c = cl_TenantID new ->
            cl_PersonID c = cl_PersonID new -> externalTargetsConflict (cl_TargetKey new) (cl_TargetKey c) = false) as Mixed.
  { intros c new Hc Hn Fl T P. destruct (externalTargetsConflict _ _) eqn:Cf; [|done]. exfalso. apply Old in Fl; [|done].
    destruct (Rows new Hn) as (E1 & E2 & _). assert (passable d request c) as Pa; [|apply passable_not_flying in Pa; congruence].
    apply (granted_passable request targets d d' claims); try done; [congruence..| |].
    - by unfold flying in Fl; apply andb_true_iff in Fl as [Fl _].
    - apply existsb_exists. exists (cl_TargetKey new). split; [|done].
      rewrite <- (granted_targets _ _ _ _ _ G). by apply in_map. }
  intros c1 c2 H1 H2 F1 F2 T P Gr. rewrite EC in H1, H2. apply in_app_or in H1 as [H1|H1], H2 as [H2|H2].
  - apply X; try done; by apply Old.
  - rewrite conflict_sym. by apply Mixed.
  - by apply Mixed.
  - exfalso. destruct (Rows c1 H1) as (A1 & _ & A3 & A4 & _), (Rows c2 H2) as (B1 & _ & B3 & B4 & _). apply Gr.
    unfold one_group. repeat split; congruence.
Qed.

(** ** Steps *)

Lemma claim_named ids ids' now request d d' r : ClaimExternalEffects ids ids' now request d = (d', Ok r) ->
  rq_RunID (normalize_request request) <> "".
Proof.
  unfold ClaimExternalEffects. destruct (_ || _) eqn:G; [done|]. intros _ E. rewrite E in G.
  by rewrite !orb_true_r in G.
Qed.

Lemma flights_owned d d' : fx_claims d' = fx_claims d -> fx_events d' = fx_events d -> fx_instance d' = fx_instance d ->
  (forall c, In c (fx_claims d) -> owner_runs (cl_TenantID c) (cl_RunID c) d' = true -> owner_runs (cl_TenantID c) (cl_RunID c) d = true) ->
  flights_from d d'.
Proof.
  intros C E I R. apply flights_same; [done|]. intros c Hc.
  apply flying_back; [by apply R|unfold event_with; by rewrite E..|]. intros e _. by apply same_here.
Qed.

Lemma run_starts_flights d r : effect_wf d -> flights_from d (d <| fx_runs := fx_runs d ++ [r] |>).
Proof.
  intros W. apply flights_owned; try done. intros c Hc. destruct (wf_owner _ W c Hc) as (r0 & H0 & E1 & E2 & _).
  unfold owner_runs. simpl. rewrite query_row_app.
  destruct (query_row (run_at (cl_TenantID c) (cl_RunID c)) (fx_runs d)) as [x|] eqn:F; [done|].
  unfold query_row in F. apply find_none with (x := r0) in F; [|done]. unfold run_at in F. by rewrite E1, E2, !String.eqb_refl in F.
Qed.

Lemma run_changes_flights d c f : (forall r, run_id (f r) = run_id r /\ run_tenant_id (f r) = run_tenant_id r
    /\ run_person_id (f r) = run_person_id r /\ (run_status (f r) = "running" -> run_status r = "running")) ->
  flights_from d (d <| fx_runs := update_where c f (fx_runs d) |>).
Proof.
  intros F. apply flights_owned; try done. intros x _. unfold owner_runs. cbn [fx_runs]. simpl. rewrite find_update_runs by done.
  destruct (query_row _ _) as [r|]; [|done]. simpl. destruct (c r); [|done]. rewrite !String.eqb_eq. apply F.
Qed.

Lemma boot_flights d i : (forall e, In e (fx_events d) -> dp_Instance (fst (decode_dispatch (ev_payload e))) <> i) ->
  flights_from d (d <| fx_instance := i |>).
Proof.
  intros N. apply flights_same; [done|]. intros c _. apply flying_back; [done..|].
  intros e He B. unfold background_here in B. apply andb_true_iff in B as [_ B]. apply String.eqb_eq in B. by apply N in B.
Qed.

Lemma step_exclusive d d' : effect_step true d d' -> effect_wf d -> exclusive d -> exclusive d'.
Proof.
  intros H W. destruct H as [o Call|r Hr Cr|c f F|e He|i Hi|].
  - specialize (Call eq_refl). destruct (starts_call o) eqn:S; [|by apply flights_exclusive, quiet_flights, quiet_op].
    destruct o; try discriminate S; simpl.
    + destruct (ClaimExternalEffects ids ids' now request d) as [d1 r] eqn:E. pose proof (claim_cases _ _ _ _ _ _ _ E) as K.
      destruct r as [[]|]; simpl; try by apply flights_exclusive, quiet_flights.
      eapply granted_exclusive; [by eapply claim_named|done].
    + by apply flights_exclusive, dispatch_flights.
    + by apply flights_exclusive, mark_flights.
  - by apply flights_exclusive, run_starts_flights.
  - by apply flights_exclusive, run_changes_flights.
  - apply flights_exclusive, flights_same; [done|]. intros c _. apply (flying_extended d _ c [e]); try done. by repeat constructor.
  - by apply flights_exclusive, boot_flights.
  - apply flights_exclusive, flights_same; [done|]. intros c _. apply (flying_extended d _ c []); try done. simpl. by rewrite app_nil_r.
Qed.

End Safety.
