(* ===== verification/EffectGuarantees.v ===== *)
(** * What external effect claims guarantee

    The statements over whole histories: conflicting calls do not overlap, a call is
    granted once, past nothing but what was observed, approved or never dispatched,
    an observation is final and lets one call pass, and a settlement decides its
    effect. *)

From stdpp Require Import base tactics list strings.
From Stdlib Require Import ZArith Lia Bool Ascii String List.
From S2P Require Import Prelude GoLib GoStrings Sql Evolution Admission Store Database Effects EffectRelease EffectsTheory EffectSafety.

Section Guarantees.
Context {rules : EffectRules}.

(** ** What a step keeps *)

Lemma granted_same_claims request targets d d' claims c : granted request targets d d' claims -> In c (fx_claims d) -> In c (fx_claims d').
Proof. intros G H. destruct (granted_noted _ _ _ _ _ G) as (d1 & _ & -> & _). apply in_or_app. by left. Qed.

Lemma step_keeps_claims b d d' c : effect_step b d d' -> In c (fx_claims d) -> exists c', In c' (fx_claims d') /\ claim_step c c'.
Proof.
  intros H Hc. assert (forall d2, quiet d d2 -> exists c', In c' (fx_claims d2) /\ claim_step c c') as Q.
  { intros d2 [(g & C & G) _ _ _]. exists (g c). rewrite C. split; [by apply in_map|]. by apply released_claim_step, G. }
  assert (forall d2, fx_claims d2 = fx_claims d -> exists c', In c' (fx_claims d2) /\ claim_step c c') as K.
  { intros d2 ->. exists c. split; [done|apply claim_step_refl]. }
  destruct H as [o _| | | | |]; try by apply K.
  destruct (starts_call o) eqn:S; [|by apply Q, quiet_op]. destruct o; try discriminate S; simpl.
  - destruct (ClaimExternalEffects ids ids' now request d) as [d1 r] eqn:E. apply claim_cases in E.
    destruct r as [[]|]; try by apply Q. exists c. split; [by eapply granted_same_claims|apply claim_step_refl].
  - apply K, (record_dispatch_frame uuid now dispatch d).
  - destruct (mark_claims now tenantID runID effectID d) as [->| ->]; [by apply K|]. simpl.
    eexists. split; [apply In_update_where; eexists; split; [exact Hc|reflexivity]|].
    destruct (_ && _) eqn:X; [|apply claim_step_refl]. split; [done|]. right; left.
    apply andb_true_iff in X as [_ X]. by apply String.eqb_eq in X.
Qed.

Lemma record_dispatch_settlements uuid now dispatch d :
  fx_settlements (fst (RecordExternalEffectDispatch uuid now dispatch d)) = fx_settlements d.
Proof.
  unfold RecordExternalEffectDispatch, recordExternalEffectEvent, fx_tx, insertEffectEventTx. destruct (_ || _); [done|].
  destruct (negb _); [done|]. destruct (query_row _ _) as [r|]; [|done]. cbn [nextEffectSequenceTx].
  destruct (event_with _ _) as [e|]; [done|]. by destruct (existsb _ _).
Qed.

Lemma steps_keep_claims b d d' c : effect_steps b d d' -> In c (fx_claims d) -> exists c', In c' (fx_claims d') /\ claim_step c c'.
Proof.
  intros H Hc. induction H as [|d1 d2 _ (c1 & H1 & S1) H]; [exists c; split; [done|apply claim_step_refl]|].
  destruct (step_keeps_claims _ _ _ c1 H H1) as (c2 & H2 & S2). exists c2. split; [done|]. by eapply claim_step_trans.
Qed.

Lemma step_keeps_events b d d' : effect_step b d d' -> exists es, fx_events d' = fx_events d ++ es.
Proof.
  assert (forall d2, fx_events d2 = fx_events d -> exists es, fx_events d2 = fx_events d ++ es) as K by (intros d2 ->; exists []; by rewrite app_nil_r).
  assert (forall d2, quiet d d2 -> exists es, fx_events d2 = fx_events d ++ es) as Q by (intros d2 [_ (es & E & _) _ _]; by exists es).
  intros [o _| | |e _| |]; try by apply K. 2: by exists [e].
  destruct (starts_call o) eqn:S; [|by apply Q, quiet_op]. destruct o; try discriminate S; simpl.
  - destruct (ClaimExternalEffects ids ids' now request d) as [d1 r] eqn:E. apply claim_cases in E.
    destruct r as [[]|]; try by apply Q. destruct (granted_noted _ _ _ _ _ E) as (x & N & _ & EE & _). simpl. rewrite EE.
    destruct (noted_events _ _ N) as (es & X & _). by exists es.
  - destruct (record_dispatch_frame uuid now dispatch d) as (_ & _ & _ & [->|(e & c & -> & _)]); [by apply K|by exists [e]].
  - by destruct (mark_claims now tenantID runID effectID d) as [->| ->]; apply K.
Qed.

Lemma steps_keep_event b d d' k e : effect_steps b d d' -> event_with k d = Some e -> event_with k d' = Some e.
Proof.
  induction 1 as [|d1 d2 _ IH H]; [done|]. intros E. destruct (step_keeps_events _ _ _ H) as (es & X).
  rewrite (event_with_app _ _ _ _ X). by rewrite IH.
Qed.

Lemma steps_exclusive d d' : effect_steps true d d' -> effect_wf d -> exclusive d -> exclusive d'.
Proof.
  intros H W X. induction H as [|d1 d2 H IH St]; [done|]. apply (step_exclusive d1); [done| |done]. by eapply steps_wf.
Qed.

Lemma step_keeps_settlements b d d' : effect_step b d d' -> fx_settlements d `prefix_of` fx_settlements d'.
Proof.
  intros [o _| | | | |]; try done. destruct (starts_call o) eqn:S; [|by apply quiet_settlements, quiet_op].
  destruct o; try discriminate S; simpl.
  - destruct (ClaimExternalEffects ids ids' now request d) as [d1 r] eqn:E. apply claim_cases in E.
    destruct r as [[]|]; try by apply quiet_settlements in E.
    destruct (granted_noted _ _ _ _ _ E) as (x & N & _ & _ & _ & _ & _ & _ & X). simpl. by rewrite X, (noted_settlements _ _ N).
  - by rewrite (record_dispatch_settlements uuid now dispatch d).
  - by destruct (mark_claims now tenantID runID effectID d) as [->| ->].
Qed.

Lemma steps_keep_settlement b d d' p s : effect_steps b d d' -> query_row p (fx_settlements d) = Some s -> query_row p (fx_settlements d') = Some s.
Proof.
  induction 1 as [|d1 d2 _ IH H]; [done|]. intros E. destruct (step_keeps_settlements _ _ _ H) as (ss & ->).
  rewrite query_row_app. by rewrite IH.
Qed.

Lemma compact_nonempty l : l <> [] -> compact l <> [].
Proof.
  induction l as [|a [|b l] IH]; [done..|]. intros _.
  change (compact (a :: b :: l)) with (if (a =? b)%string then compact (b :: l) else a :: compact (b :: l)).
  destruct (a =? b)%string; [by apply IH|done].
Qed.

Lemma sorted_targets_nonempty l : l <> [] -> sorted_targets l <> [].
Proof.
  intros H. apply compact_nonempty. destruct l as [|a l]; [done|]. intros E.
  assert (In a (order_by String.leb (a :: l))) as X by (apply In_order_by; by left). by rewrite E in X.
Qed.

(** A grant inserts a row for its effect. *)
Lemma granted_row ids ids' now request d d' claims : ClaimExternalEffects ids ids' now request d = (d', Ok (Granted claims)) ->
  exists c, In c (fx_claims d') /\ group_row (rq_TenantID (normalize_request request)) (rq_RunID (normalize_request request))
                                     (rq_EffectID (normalize_request request)) c = true.
Proof.
  intros H. assert (rq_TargetKeys request <> []) as NE.
  { unfold ClaimExternalEffects in H. intros E.
    change (rq_TargetKeys (normalize_request request)) with (rq_TargetKeys request) in H. rewrite E in H. cbn [length] in H.
    by rewrite !orb_true_r in H. }
  apply claim_cases in H. destruct claims as [|c claims].
  { apply sorted_targets_nonempty in NE. by rewrite <- (granted_targets _ _ _ _ _ H) in NE. }
  exists c. destruct (granted_rows _ _ _ _ _ H) as (s & F). apply Forall_inv in F as (E1 & _ & E3 & E4 & _).
  destruct (granted_noted _ _ _ _ _ H) as (x & _ & -> & _). split; [apply in_or_app; right; by left|].
  unfold group_row. by rewrite E1, E3, E4, !String.eqb_refl.
Qed.

(** A second claim of a claimed effect finds its rows and changes nothing. *)
Lemma claimed_again ids ids' now request d c :
  In c (fx_claims d) -> group_row (rq_TenantID (normalize_request request)) (rq_RunID (normalize_request request))
                                  (rq_EffectID (normalize_request request)) c = true ->
  fst (ClaimExternalEffects ids ids' now request d) = d /\
  match snd (ClaimExternalEffects ids ids' now request d) with
  | Ok (AlreadyKnown claims) => In c claims | Ok _ => False | Err _ => True
  end.
Proof.
  intros Hc G. unfold ClaimExternalEffects. set (rq := normalize_request request) in *. destruct (_ || _); [done|].
  destruct (negb (forallb _ _)); [done|]. unfold fx_tx, claimExternalEffectsOnce. destruct (query_row _ _) as [r|]; [|done].
  destruct (_ || _); [done|].
  assert (In c (loadExternalEffectClaimsTx (rq_TenantID rq) (rq_RunID rq) (rq_EffectID rq) d)) as L
    by (apply In_order_by, filter_In; done).
  destruct (loadExternalEffectClaimsTx _ _ _ _) as [|x l]; [done|]. by destruct (bool_decide _).
Qed.

Lemma In_omap_inv {A B} (f : A -> option B) l y : In y (omap f l) -> exists x, In x l /\ f x = Some y.
Proof.
  induction l as [|a l IH]; [done|]. simpl. destruct (f a) as [z|] eqn:E.
  - intros [<-|H]; [by exists a; split; [left|]|]. destruct (IH H) as (x & ? & ?). exists x. by split; [right|].
  - intros H. destruct (IH H) as (x & ? & ?). exists x. by split; [right|].
Qed.

Lemma acknowledgment_unspent tenant run d a : In a (acknowledgments tenant run d) -> spent d (ak_EventID a) = false.
Proof.
  intros H. apply In_omap_inv in H as (e & He & D). apply In_order_by, filter_In in He as [_ He].
  apply andb_true_iff in He as [_ He]. apply negb_true_iff in He.
  assert (ak_EventID a = ev_id e) as ->; [|done]. unfold decode_ack in D. destruct (_ && _); [|done]. by simplify_eq.
Qed.

Lemma group_row_step tenant runID effectID c c' : same_claim c c' -> group_row tenant runID effectID c' = group_row tenant runID effectID c.
Proof. intros (_ & E1 & _ & E3 & E4 & _). unfold group_row. by rewrite E1, E3, E4. Qed.

(** The claim a person's request names, in a well-formed table. *)
Lemma named_claim d c : effect_wf d -> In c (fx_claims d) ->
  query_row (fun x => (cl_TenantID x =? cl_TenantID c)%string && (cl_ID x =? cl_ID c)%string) (fx_claims d) = Some c.
Proof.
  intros W Hc. rewrite (query_row_key (cl_ID c)); [|apply (wf_ids _ W)|by intros r [_ E%String.eqb_eq]%andb_true_iff].
  rewrite (lookup_key_In _ c (wf_ids _ W) Hc : lookup_key (cl_ID c) _ = _). by rewrite !String.eqb_refl.
Qed.

(** *** What a call may pass *)

(** A reservation that never crossed dispatch, of a Run that does not execute. *)
Definition stopped_reservation (d : EffectDB) (c : ClaimRow) : Prop :=
  cl_State c = ExternalClaimReserved /\ owner_runs (cl_TenantID c) (cl_RunID c) d = false.

(** The dispatch record says the call runs in the background. *)
Definition background_record (d : EffectDB) (c : ClaimRow) (instance : string) : Prop :=
  exists e p, event_with (externalEffectDispatchKey (cl_RunID c) (cl_EffectID c)) d = Some e /\
    decode_dispatch (ev_payload e) = (p, true) /\ dp_Background p = true /\ dp_Instance p = instance.

(** Nothing executes the call any more: it returned, or the daemon that started it in
    the background is gone, or its Run does not execute. *)
Definition not_in_flight (d : EffectDB) (c : ClaimRow) : Prop :=
  event_with (externalEffectReturnKey (cl_RunID c) (cl_EffectID c)) d <> None \/
  (exists instance, background_record d c instance /\ (instance = "" \/ instance <> fx_instance d)) \/
  (forall instance, ~ background_record d c instance) /\ owner_runs (cl_TenantID c) (cl_RunID c) d = false.

(** The Run recorded an unspent observation of the effect, which started after the
    claim and after the call's return. *)
Definition observed_after (d : EffectDB) (rq : ExternalEffectClaimRequest) (c : ClaimRow) : Prop :=
  exists e a, In e (fx_events d) /\ ev_run_id e = rq_RunID rq /\ ev_type e = ExternalEffectObservedEvent /\
    event_with (spentKey (ev_id e)) d = None /\ decode_ack (ev_id e) (ev_payload e) = Some a /\
    ak_ClaimRunID a = cl_RunID c /\ ak_EffectID a = cl_EffectID c /\ (cl_Sequence c < ak_StartSequence a)%Z /\
    forall r, event_with (externalEffectReturnKey (cl_RunID c) (cl_EffectID c)) d = Some r ->
      ev_cursor r = 0%Z \/ (ev_cursor r < ak_StartSequence a)%Z.

(** A call of another chain of Runs, left uncertain, that was approved or observed. *)
Record left_behind (d : EffectDB) (rq : ExternalEffectClaimRequest) (c : ClaimRow) : Prop := {
  lb_dispatched : cl_State c <> ExternalClaimReserved;
  lb_chain : ~ In (cl_RunID c) (runLineage (rq_TenantID rq) (rq_PersonID rq) (rq_RunID rq) (fx_runs d));
  lb_flight : not_in_flight d c;
  lb_unwatched : forall w, In w (fx_watches d) -> watch_binds d c w = false;
  lb_allowed : In (cl_ID c) (map TrimSpace (rq_ToleratedClaimIDs rq)) \/ observed_after d rq c
}.

Lemma facts_owner d c : (fa_ownerStatus (facts_of d c) =? "running")%string = owner_runs (cl_TenantID c) (cl_RunID c) d.
Proof.
  unfold facts_of, owner_runs. destruct (option_map _ _) as [[p []]|]; simpl; by destruct (query_row _ _).
Qed.

Lemma facts_watched d c : fa_watched (facts_of d c) = existsb (watch_binds d c) (fx_watches d).
Proof. unfold facts_of. by destruct (option_map _ _) as [[p []]|]. Qed.

Lemma facts_return d c : match event_with (externalEffectReturnKey (cl_RunID c) (cl_EffectID c)) d with
  | Some r => fa_returned (facts_of d c) = true /\ fa_returnCursor (facts_of d c) = ev_cursor r
  | None => fa_returned (facts_of d c) = false end.
Proof. unfold facts_of. destruct (option_map _ _) as [[p []]|]; simpl; by destruct (event_with (externalEffectReturnKey _ _) d). Qed.

Lemma facts_background d c :
  if fa_background (facts_of d c)
  then exists instance, background_record d c instance /\
         (fa_startedHere (facts_of d c) = false -> instance = "" \/ instance <> fx_instance d)
  else forall instance, ~ background_record d c instance.
Proof.
  unfold facts_of, background_record.
  destruct (event_with (externalEffectDispatchKey _ _) d) as [e|]; cbn [option_map]; [|cbn [fa_background]].
  2: { intros i (e & p & E & _). discriminate E. }
  destruct (decode_dispatch (ev_payload e)) as [p []] eqn:D; cbn [fa_background fa_startedHere].
  2: { intros i (e' & p' & [= <-] & D' & _). congruence. }
  destruct (dp_Background p) eqn:B; rewrite ?andb_true_l.
  - exists (dp_Instance p). split; [by exists e, p|]. intros [E|E]%andb_false_iff.
    + left. by apply negb_false_iff, String.eqb_eq in E.
    + right. by apply String.eqb_neq in E.
  - intros i (e' & p' & [= <-] & D' & B' & _). congruence.
Qed.

Lemma uncertain_flight d c :
  disposition false (facts_of d c) = Some ExternalClaimLeftUncertain ->
  cl_State c <> ExternalClaimReserved /\ not_in_flight d c /\ forall w, In w (fx_watches d) -> watch_binds d c w = false.
Proof.
  unfold disposition. rewrite facts_owner, facts_watched, facts_row.
  destruct (in_state ExternalClaimReserved c) eqn:R; [by destruct (owner_runs _ _ d)|].
  match goal with |- context [if ?b then Some ExternalClaimInFlight else _] => destruct b eqn:F end; [done|].
  destruct (existsb _ _) eqn:W; [done|]. intros _. split; [by apply String.eqb_neq|]. split.
  - pose proof (facts_return d c) as Rt. pose proof (facts_background d c) as Bg. unfold not_in_flight.
    destruct (event_with (externalEffectReturnKey _ _) d) as [r|]; [by left|right]. rewrite Rt in F.
    destruct (fa_background _); [left|right].
    + destruct Bg as (i & Hb & Hi). exists i. auto.
    + split; [done|]. by rewrite andb_true_r in F.
  - intros w Hw. destruct (watch_binds d c w) eqn:E; [|done].
    assert (existsb (watch_binds d c) (fx_watches d) = true); [apply existsb_exists; eauto|congruence].
Qed.

Lemma forClaim_observed d rq c ack :
  forClaim (acknowledgments (rq_TenantID rq) (rq_RunID rq) d) c (fa_returnCursor (facts_of d c)) = Some ack ->
  observed_after d rq c.
Proof.
  intros [Hin Hf]%find_some. rewrite !andb_true_iff, !String.eqb_eq in Hf. destruct Hf as [[Hr He] Hf].
  apply In_omap_inv in Hin as (e & Hin & D). apply In_order_by, filter_In in Hin as [Hin P].
  rewrite !andb_true_iff, !String.eqb_eq, negb_true_iff in P. destruct P as [[[_ Er] Et] Sp].
  exists e, ack. unfold spent in Sp. destruct (event_with (spentKey _) d); [done|].
  pose proof (facts_return d c) as Rt. unfold observationFollowsEffect in Hf.
  destruct (_ && _) in Hf; [done|]. destruct (_ || _) eqn:O in Hf; [done|].
  apply orb_false_iff in O as [_ O%Z.leb_gt]. split_and!; try done.
  intros r E. rewrite E in Rt. destruct Rt as [_ Rt]. rewrite Rt in Hf.
  apply orb_true_iff in Hf as [Hf|Hf]; [left; by apply Z.eqb_eq|right; by apply Z.ltb_lt].
Qed.

Lemma passable_cleared d rq c : cl_State c <> ExternalClaimObserved -> passable d rq c ->
  stopped_reservation d c \/ left_behind d rq c.
Proof.
  intros U [D|(O & D & A)].
  - left. revert D. unfold disposition, stopped_reservation. rewrite facts_owner, facts_row.
    destruct (in_state _ c) eqn:R; [|by repeat case_if].
    destruct (owner_runs _ _ d); [done|]. intros _. split; [by apply String.eqb_eq|done].
  - right. destruct (uncertain_flight d c D) as (R & F & W). constructor; try done.
    + intros Hin. unfold one_of in O. assert (existsb (String.eqb (cl_RunID c)) (runLineage (rq_TenantID rq) (rq_PersonID rq) (rq_RunID rq) (fx_runs d)) = true) as X;
        [apply existsb_exists; exists (cl_RunID c); split; [done|apply String.eqb_refl]|].
      congruence.
    + destruct A as [A|[ack A]]; [left|right; by eapply forClaim_observed].
      unfold one_of in A. apply existsb_exists in A as (x & Hx & E%String.eqb_eq). congruence.
Qed.

Lemma In_compact l t : In t l -> In t (compact l).
Proof.
  induction l as [|a [|b l] IH]; [done..|]. intros H.
  change (compact (a :: b :: l)) with (if (a =? b)%string then compact (b :: l) else a :: compact (b :: l)).
  destruct (a =? b)%string eqn:E.
  - apply String.eqb_eq in E as ->. apply IH. destruct H as [<-|H]; [by left|done].
  - destruct H as [<-|H]; [by left|right; by apply IH].
Qed.

Lemma In_sorted_targets l t : In t l -> In t (sorted_targets l).
Proof. intros H. by apply In_compact, In_order_by. Qed.

(** What a settlement of the effect of [c] does to the claim [x]: an unobserved claim
    of that effect is observed under the settlement's reference, and every other one,
    an earlier observed claim of the effect too, stays as it was. *)
Definition settled_claim (now : Time) (ref : string) (c x x' : ClaimRow) : Prop :=
  (one_group c x /\ cl_PersonID x = cl_PersonID c /\ cl_State x <> ExternalClaimObserved /\
   same_claim x x' /\ cl_State x' = ExternalClaimObserved /\ cl_ObservationRef x' = ref /\ cl_UpdatedAt x' = Unix now) \/
  (~ (one_group c x /\ cl_PersonID x = cl_PersonID c /\ cl_State x <> ExternalClaimObserved) /\ x' = x).

Lemma release_settles now ref c d :
  Forall2 (settled_claim now ref c) (fx_claims d)
    (fx_claims (release_group now ref (cl_TenantID c) (cl_PersonID c) (cl_RunID c) (cl_EffectID c) d)).
Proof.
  unfold release_group, update_where. simpl. apply Forall2_fmap_r, Forall_Forall2_diag, List.Forall_forall.
  intros x _. unfold compose. cbv beta. unfold settled_claim, one_group, owned_group, group_row, unobserved, in_state.
  match goal with |- context [if ?b then _ else _] => destruct b eqn:E end; [left|right].
  - rewrite !andb_true_iff, negb_true_iff, !String.eqb_eq, String.eqb_neq in E. split_and!; try done; try tauto; by intuition.
  - split; [|done]. intros ((E1 & E2 & E3) & E4 & E5). apply String.eqb_neq in E5.
    by rewrite <- E1, <- E2, <- E3, E4, E5, !String.eqb_refl in E.
Qed.

(** What a settlement decides: an uncertain call that is not in flight. *)
Record settles (now : Time) (r : ExternalEffectSettlementRequest) (d d' : EffectDB) (c : ClaimRow) (s : SettlementRow) : Prop := {
  settles_claim : In c (fx_claims d) /\ cl_TenantID c = sr_TenantID r /\ cl_ID c = sr_ClaimID r /\ cl_PersonID c = sr_PersonID r;
  settles_uncertain : cl_State c = ExternalClaimUncertain /\ flying d c = false;
  settles_actor : actor_ok r d = true /\ se_ActorAccountID s = sr_ActorAccountID r /\ se_ActorChannel s = sr_ActorChannel r
                  /\ se_Reason s = sr_Reason r;
  settles_new : query_row (settlement_of (cl_TenantID c) (cl_RunID c) (cl_EffectID c)) (fx_settlements d) = None;
  settles_releases : Forall2 (settled_claim now (ObservationRef s) c) (fx_claims d) (fx_claims d');
  settles_recorded : fx_settlements d' = fx_settlements d ++ [s];
  settles_rest : fx_runs d' = fx_runs d /\ fx_events d' = fx_events d /\ fx_waits d' = fx_waits d
                 /\ fx_watches d' = fx_watches d }.

Lemma settle_cases uuid now request d d' result : SettleExternalEffect uuid now request d = (d', inr result) ->
  let r := normalize_settle request in
  exists c, In c (fx_claims d) /\ cl_TenantID c = sr_TenantID r /\ cl_ID c = sr_ClaimID r /\ cl_PersonID c = sr_PersonID r /\
    se_PersonID (sl_Settlement result) = sr_PersonID r /\
    query_row (settlement_of (cl_TenantID c) (cl_RunID c) (cl_EffectID c)) (fx_settlements d') = Some (sl_Settlement result) /\
    if sl_Replayed result then d' = d else settles now r d d' c (sl_Settlement result).
Proof.
  unfold SettleExternalEffect. set (r := normalize_settle request). destruct (_ || _); [done|]. destruct (_ || _); [done|].
  unfold settleExternalEffectOnce. destruct (negb (actor_ok r d)) eqn:A; [done|]. apply negb_false_iff in A.
  destruct (query_row _ (fx_claims d)) as [c|] eqn:Q; [|done]. apply find_some in Q as [Hc [T I]%andb_true_iff].
  apply String.eqb_eq in T, I. destruct (negb (cl_PersonID c =? _)%string) eqn:P; [done|]. apply negb_false_iff, String.eqb_eq in P.
  rewrite <- T. destruct (query_row (settlement_of _ _ _) (fx_settlements d)) as [s|] eqn:S.
  - destruct (negb (se_PersonID s =? _)%string) eqn:SP; [done|]. apply negb_false_iff, String.eqb_eq in SP.
    intros H. simplify_eq. exists c. done.
  - destruct (negb (in_state _ c)) eqn:U; [done|]. apply negb_false_iff in U. destruct (bool_decide _) eqn:F; [done|].
    destruct (existsb _ _); [done|]. intros H. simplify_eq. exists c. do 4 (split; [done|]). cbn [sl_Settlement sl_Replayed fx_settlements].
    split; [done|]. split.
    + simpl. rewrite query_row_app, S. unfold query_row, settlement_of. simpl. by rewrite !String.eqb_refl.
    + constructor; try done; [|rewrite <- P; by apply release_settles]. split; [by apply String.eqb_eq|]. apply bool_decide_eq_false in F. unfold flying.
      destruct (disposition _ _) as [disp|] eqn:D; [|by rewrite andb_false_r]. apply andb_false_iff. right. apply String.eqb_neq. congruence.
Qed.

(** ** Guarantees *)

(** C2: Two calls of one person whose targets conflict are never in flight at the same
    time, in any interleaving of the operations with Runs that start, change or
    stop, watchers, grants and daemon restarts, when a call crosses dispatch only
    while its Run executes. *)
Theorem calls_exclusive d d' : effect_wf d -> exclusive d -> effect_steps true d d' -> exclusive d'.
Proof. intros W X H. by apply (steps_exclusive d). Qed.

(** C14: A granted call passes nothing but reservations that never crossed dispatch and
    whose Run does not execute, and calls that another chain of Runs left uncertain,
    neither in flight nor watched, which the person approved or the Run observed;
    the owner Run executes. *)
Theorem grant_is_clear ids ids' now request d d' claims c t :
  ClaimExternalEffects ids ids' now request d = (d', Ok (Granted claims)) ->
  let rq := normalize_request request in
  owner_runs (rq_TenantID rq) (rq_RunID rq) d = true /\
  (In c (fx_claims d) -> cl_TenantID c = rq_TenantID rq -> cl_PersonID c = rq_PersonID rq ->
   cl_State c <> ExternalClaimObserved -> In t (rq_TargetKeys request) ->
   t = UnknownExternalTarget \/ cl_TargetKey c = UnknownExternalTarget \/ t = cl_TargetKey c ->
   stopped_reservation d c \/ left_behind d rq c).
Proof.
  intros H rq. pose proof (claim_named _ _ _ _ _ _ _ H) as NE. apply claim_cases in H. split.
  - destruct (granted_owner _ _ _ _ _ H) as (r & Q & _ & St). unfold owner_runs, rq. rewrite Q. by apply String.eqb_eq.
  - intros Hc T P U Ht X. apply passable_cleared, (granted_passable _ _ _ _ _ _ NE H); try done.
    + unfold unobserved, in_state. by apply negb_true_iff, String.eqb_neq.
    + apply existsb_exists. exists t. split; [by apply In_sorted_targets|]. unfold externalTargetsConflict.
      destruct X as [->|[->| ->]]; rewrite String.eqb_refl, ?orb_true_r; done.
Qed.

(** An effect is granted once: in every later state, whatever happened in between,
    claiming it again changes nothing and reports it known or an error. *)
Theorem effect_granted_once b ids ids' now request d d1 claims d2 ids2 ids2' now2 again :
  ClaimExternalEffects ids ids' now request d = (d1, Ok (Granted claims)) -> effect_steps b d1 d2 ->
  rq_TenantID (normalize_request again) = rq_TenantID (normalize_request request) ->
  rq_RunID (normalize_request again) = rq_RunID (normalize_request request) ->
  rq_EffectID (normalize_request again) = rq_EffectID (normalize_request request) ->
  fst (ClaimExternalEffects ids2 ids2' now2 again d2) = d2 /\
  match snd (ClaimExternalEffects ids2 ids2' now2 again d2) with Ok (AlreadyKnown _) | Err _ => True | Ok _ => False end.
Proof.
  intros H St E1 E2 E3. apply granted_row in H as (c & Hc & G).
  destruct (steps_keep_claims _ _ _ c St Hc) as (c' & Hc' & S & _). rewrite <- E1, <- E2, <- E3 in G.
  destruct (claimed_again ids2 ids2' now2 again d2 c' Hc') as [F K]; [by rewrite (group_row_step _ _ _ c)|].
  split; [done|]. by destruct (snd _) as [[]|].
Qed.

(** Claims are never lost or handed over, and their states only go forward: an
    observation is final, with the reference and time it was made with. *)
Theorem observation_final b d d' c : effect_wf d -> effect_steps b d d' -> In c (fx_claims d) ->
  exists c', lookup_key (cl_ID c) (fx_claims d') = Some c' /\ claim_step c c' /\
    (cl_State c = ExternalClaimObserved -> c' = c).
Proof.
  intros W St Hc. destruct (steps_keep_claims _ _ _ c St Hc) as (c' & Hc' & S). exists c'. split.
  - destruct S as [(<- & _) _]. apply (lookup_key_In _ c'); [|done]. by apply (wf_ids _ (steps_wf _ _ _ St W)).
  - split; [done|]. intros O. destruct S as [_ [->|[[A _]|[A _]]]]; [done|by rewrite O in A|done].
Qed.

(** An observation lets one call pass: once a grant passed a claim by it, no Run
    finds it among its acknowledgments in any later state. *)
Theorem observation_passes_once steps ids ids' now request d d1 claims b ack d2 tenant run :
  ClaimExternalEffects ids ids' now request d = (d1, Ok (Granted claims)) ->
  let rq := normalize_request request in
  In b (classifyExternalBlockers (rq_TenantID rq) (rq_PersonID rq) (rq_RunID rq) (sorted_targets (rq_TargetKeys request)) d) ->
  bk_kind b = BlockAcknowledged ack -> tolerated rq b = false -> effect_steps steps d1 d2 ->
  ~ In (ak_EventID ack) (map ak_EventID (acknowledgments tenant run d2)).
Proof.
  intros H rq Hb K T St A. apply claim_cases in H. pose proof (granted_spent _ _ _ _ _ H b ack Hb K T) as Sp.
  unfold spent in Sp. destruct (event_with _ d1) as [e|] eqn:E; [|done]. apply (steps_keep_event _ _ _ _ _ St) in E.
  apply in_map_iff in A as (a & Ea & Ha). apply acknowledgment_unspent in Ha. unfold spent in Ha. by rewrite Ea, E in Ha.
Qed.

(** C25: A person's settlement decides an uncertain effect that is not in flight: it
    releases exactly the effect's unobserved claims, under the settlement's
    reference, or changes nothing; and the same request finds the same settlement
    in every later state and then changes nothing. *)
Theorem settlement_decides b uuid now request d d' out : effect_wf d -> SettleExternalEffect uuid now request d = (d', out) ->
  match out with
  | inl _ => d' = d
  | inr result =>
      (if sl_Replayed result then d' = d
       else exists c, settles now (normalize_settle request) d d' c (sl_Settlement result)) /\
      forall d2 uuid2 now2, effect_steps b d' d2 -> actor_ok (normalize_settle request) d2 = true ->
        exists again, SettleExternalEffect uuid2 now2 request d2 = (d2, inr again) /\ sl_Replayed again = true
                      /\ sl_Settlement again = sl_Settlement result
  end.
Proof.
  intros W H. destruct out as [e|result].
  { revert H. unfold SettleExternalEffect. repeat case_match; congruence. }
  pose proof (settle_cases _ _ _ _ _ _ H) as (c & Hc & T & I & P & SP & S & K). split; [destruct (sl_Replayed result); [done|by exists c]|].
  intros d2 uuid2 now2 St A. assert (effect_steps b d d2) as St2.
  { assert (d' = exec_effect (OpSettle uuid now request) d) as -> by (simpl; by rewrite H).
    clear - St. induction St as [|d1 d2 _ IH X]; [|by eapply steps_more].
    eapply steps_more; [apply steps_none|]. by apply step_op. }
  destruct (steps_keep_claims _ _ _ c St2 Hc) as (c2 & Hc2 & (E1 & E2 & E3 & E4 & E5 & _) & _).
  pose proof (named_claim d2 c2 (steps_wf _ _ _ St2 W) Hc2) as Q. rewrite E1, E2, T, I in Q.
  apply (steps_keep_settlement _ _ _ _ _ St) in S.
  unfold SettleExternalEffect in *. destruct (_ || _); [done|]. destruct (_ || _); [done|].
  unfold settleExternalEffectOnce. rewrite A. cbn [negb]. rewrite Q, E3, P, String.eqb_refl. cbn [negb].
  rewrite E4, E5, <- T, S, SP, String.eqb_refl. by eexists.
Qed.

End Guarantees.

(** ** Concrete histories *)

#[local] Instance no_rules : EffectRules := {| decode_rule := fun _ => None; decode_status := fun _ => None |}.

Definition exec_effects (ops : list effect_op) (d : EffectDB) : EffectDB := fold_left (fun d o => exec_effect o d) ops d.

Fixpoint calls_in_run (ops : list effect_op) (d : EffectDB) : bool :=
  match ops with
  | [] => true
  | o :: ops => match o with OpMark _ tenantID runID _ => owner_runs (normalizeTenant tenantID) runID d | _ => true end
                && calls_in_run ops (exec_effect o d)
  end.

Lemma steps_trans b d1 d2 d3 : effect_steps b d1 d2 -> effect_steps b d2 d3 -> effect_steps b d1 d3.
Proof. intros H. induction 1 as [|x y _ IH S]; [done|]. by eapply steps_more. Qed.

Lemma exec_effects_steps b ops : forall d, (b = true -> calls_in_run ops d = true) -> effect_steps b d (exec_effects ops d).
Proof.
  induction ops as [|o ops IH]; intros d H; [apply steps_none|].
  apply (steps_trans _ _ (exec_effect o d)).
  - eapply steps_more; [apply steps_none|]. apply step_op. intros B. specialize (H B). apply andb_true_iff in H as [H _]. by destruct o.
  - apply IH. intros B. specialize (H B). by apply andb_true_iff in H as [_ H].
Qed.

Definition at_time (s : Z) : Time := (s * Second)%Z.

Definition effect_demo_run (id : string) : Run :=
  mkRun id "work" "thread_1" "default" "alice" "ws" (JVal []) "cli" "" "" "" "" 3 "running" 5 None (Some 5%Z) false 0 "" SNone.

Definition two_runs : EffectDB :=
  mkEffectDB [effect_demo_run "run_1"; effect_demo_run "run_2"] [] 0 [] [] [] []
    [mkActorAccount "acct" "default" "alice" "active" "cli-user"] [] [] "boot_1".

Definition demo_ids (s : string) (i : nat) : string := s +:+ Itoa i.
Definition demo_request (run effect target : string) : ExternalEffectClaimRequest :=
  mkClaimRequest "" "alice" run effect [target] [] false.
Definition demo_claim (run effect target : string) : effect_op :=
  OpClaim (demo_ids effect) (demo_ids effect) (at_time 10) (demo_request run effect target).
Definition demo_dispatch (background : bool) (run effect : string) : effect_op :=
  OpDispatch ("d" +:+ effect) (at_time 11) (mkDispatch "" "alice" run effect "call" "exec_command" "deploy" background).

Definition stop_run (id : string) (d : EffectDB) : EffectDB :=
  d <| fx_runs := update_where (fun r => (run_id r =? id)%string) (fun r => r <| run_status := "interrupted" |>) (fx_runs d) |>.

Lemma two_runs_wf : effect_wf two_runs /\ exclusive two_runs.
Proof.
  split; [|by intros c1 c2 []]. constructor; simpl; try (by intros ? []).
  - constructor.
  - repeat constructor; simpl; [by intros [|]|tauto].
  - by intros r [<-|[<-|[]]].
Qed.

Lemma stop_run_step b id d : effect_step b d (stop_run id d).
Proof. apply step_run_changes. intros r. by repeat split. Qed.

(** Run 1 deploys, Run 2 deploys elsewhere and then waits for Run 1's target. *)
Definition deployments : list effect_op :=
  [demo_claim "run_1" "e1" "repo:a"; demo_dispatch false "run_1" "e1"; OpMark (at_time 12) "" "run_1" "e1";
   demo_claim "run_2" "e2" "repo:b"; demo_dispatch false "run_2" "e2"; OpMark (at_time 13) "" "run_2" "e2";
   demo_claim "run_2" "e3" "repo:a"].

Lemma calls_exclusive_witness :
  exclusive (exec_effects deployments two_runs) /\
  map cl_EffectID (List.filter (flying (exec_effects deployments two_runs)) (fx_claims (exec_effects deployments two_runs))) = ["e1"; "e2"].
Proof.
  split; [|by vm_compute]. apply (calls_exclusive two_runs); [apply two_runs_wf..|].
  apply exec_effects_steps. intros _. by vm_compute.
Defined.

(** Run 1 reserves a target and stops before its call crosses dispatch. *)
Definition reservation_left : EffectDB :=
  stop_run "run_1" (exec_effects [demo_claim "run_1" "e1" "repo:a"; demo_dispatch true "run_1" "e1"] two_runs).

Definition grant_of (o : effect_op) (d : EffectDB) : list ClaimRow :=
  match o with
  | OpClaim ids ids' now request => match snd (ClaimExternalEffects ids ids' now request d) with Ok (Granted claims) => claims | _ => [] end
  | _ => []
  end.

Lemma grant_is_clear_witness :
  exists c, In c (fx_claims reservation_left) /\ cl_RunID c = "run_1" /\
    (stopped_reservation reservation_left c \/
     left_behind reservation_left (normalize_request (demo_request "run_2" "e2" "repo:a")) c).
Proof.
  eexists. split; [left; reflexivity|]. split; [reflexivity|].
  apply (grant_is_clear (demo_ids "e2") (demo_ids "e2") (at_time 10) (demo_request "run_2" "e2" "repo:a") reservation_left
           (exec_effect (demo_claim "run_2" "e2" "repo:a") reservation_left)
           (grant_of (demo_claim "run_2" "e2" "repo:a") reservation_left) _ "repo:a").
  - vm_compute. reflexivity.
  - vm_compute. by left.
  - vm_compute. reflexivity.
  - vm_compute. reflexivity.
  - vm_compute. discriminate.
  - vm_compute. by left.
  - right; right. vm_compute. reflexivity.
Defined.

(** Run 1's background call then crosses dispatch all the same: nothing in the store
    stops it, and two conflicting calls are in flight. *)
Lemma late_dispatch_overlaps :
  exists d, effect_steps false two_runs d /\ ~ exclusive d /\ snd (MarkExternalEffectPossible (at_time 20) "" "run_1" "e1"
    (exec_effects [demo_claim "run_2" "e2" "repo:a"; demo_dispatch false "run_2" "e2"; OpMark (at_time 13) "" "run_2" "e2"] reservation_left)) = Ok tt.
Proof.
  exists (exec_effects [demo_claim "run_2" "e2" "repo:a"; demo_dispatch false "run_2" "e2"; OpMark (at_time 13) "" "run_2" "e2";
                        OpMark (at_time 20) "" "run_1" "e1"] reservation_left).
  split; [|split; [|vm_compute; reflexivity]].
  - eapply steps_trans; [|by apply exec_effects_steps]. eapply steps_more; [by apply exec_effects_steps|apply stop_run_step].
  - set (d := exec_effects _ _). intros X.
    specialize (X (nth 0 (fx_claims d) (mkClaimRow "" "" "" "" "" "" "" "" 0 0 0)) (nth 1 (fx_claims d) (mkClaimRow "" "" "" "" "" "" "" "" 0 0 0))).
    assert (externalTargetsConflict "repo:a" "repo:a" = false) as F; [|by vm_compute in F].
    apply X; try (vm_compute; reflexivity); [vm_compute; by left|vm_compute; right; by left|].
    intros (_ & E & _). vm_compute in E. discriminate E.
Qed.

Lemma effect_granted_once_witness :
  let d := exec_effects (tl deployments) (exec_effect (demo_claim "run_1" "e1" "repo:a") two_runs) in
  fst (ClaimExternalEffects (demo_ids "x") (demo_ids "x") (at_time 30) (demo_request "run_1" "e1" "repo:a") d) = d.
Proof.
  intros d. assert (effect_steps false (exec_effect (demo_claim "run_1" "e1" "repo:a") two_runs) d) as St by (by apply exec_effects_steps).
  clearbody d. eapply (effect_granted_once false (demo_ids "e1") (demo_ids "e1") (at_time 10) (demo_request "run_1" "e1" "repo:a") two_runs
           (exec_effect (demo_claim "run_1" "e1" "repo:a") two_runs) (grant_of (demo_claim "run_1" "e1" "repo:a") two_runs));
    [vm_compute; reflexivity|exact St|reflexivity..].
Defined.

Definition reservations : EffectDB := exec_effects [demo_claim "run_1" "e1" "repo:a"] two_runs.

Definition reserved_row : ClaimRow :=
  mkClaimRow "effectclaim_e10" "default" "alice" "run_1" "e1" "repo:a" ExternalClaimReserved "" 1 10 10.
Definition released_row : ClaimRow :=
  reserved_row <| cl_State := ExternalClaimObserved |> <| cl_ObservationRef := "recovery:never_dispatched" |> <| cl_UpdatedAt := 40%Z |>.

Lemma observation_final_witness :
  let d := exec_effects [OpUndispatched (at_time 40); demo_claim "run_2" "e2" "repo:a"] (stop_run "run_1" reservations) in
  exists c', lookup_key (K := string) "effectclaim_e10" (fx_claims d) = Some c' /\ cl_State c' = ExternalClaimObserved /\
    cl_ObservationRef c' = "recovery:never_dispatched" /\ cl_RunID c' = "run_1".
Proof.
  intros d. assert (effect_wf reservations) as W.
  { apply (steps_wf true two_runs); [|apply two_runs_wf]. by apply exec_effects_steps. }
  assert (effect_steps false reservations d) as St.
  { eapply steps_trans; [|by apply exec_effects_steps]. eapply steps_more; [apply steps_none|apply stop_run_step]. }
  assert (In reserved_row (fx_claims reservations)) as I by (vm_compute; by left).
  pose proof (observation_final false reservations d reserved_row W St I) as (c' & L & _).
  exists c'. split; [exact L|]. assert (lookup_key (cl_ID reserved_row) (fx_claims d) = Some released_row) as L' by (vm_compute; reflexivity).
  rewrite L' in L. injection L as <-. by vm_compute.
Defined.

(** Run 1 leaves a dispatched call behind; Run 2 observes its outcome. *)
Definition observed_by_run_2 : EffectDB :=
  exec_effects [OpAllocate; OpBind "ob" (at_time 20) (mkObservation "" "alice" "run_2" "effectclaim_e10" "check" 3)]
    (stop_run "run_1" (exec_effects [demo_claim "run_1" "e1" "repo:a"; demo_dispatch false "run_1" "e1"; OpMark (at_time 12) "" "run_1" "e1"] two_runs)).

Lemma observation_passes_once_witness :
  acknowledgments "default" "run_2" observed_by_run_2 <> [] /\
  acknowledgments "default" "run_2" (exec_effects [demo_claim "run_2" "e2" "repo:a"; demo_dispatch false "run_2" "e2"] observed_by_run_2) = [] /\
  ~ In "event_ob" (map ak_EventID (acknowledgments "default" "run_2"
      (exec_effects [demo_claim "run_2" "e2" "repo:a"; demo_dispatch false "run_2" "e2"] observed_by_run_2))).
Proof.
  split; [vm_compute; discriminate|]. split; [vm_compute; reflexivity|].
  apply (observation_passes_once false (demo_ids "e2") (demo_ids "e2") (at_time 10) (demo_request "run_2" "e2" "repo:a") observed_by_run_2
           (exec_effect (demo_claim "run_2" "e2" "repo:a") observed_by_run_2) (grant_of (demo_claim "run_2" "e2" "repo:a") observed_by_run_2)
           (nth 0 (classifyExternalBlockers "default" "alice" "run_2" ["repo:a"] observed_by_run_2)
              (mkBlocker (bare_claim (mkClaimRow "" "" "" "" "" "" "" "" 0 0 0)) BlockOwn))
           (mkAck "event_ob" "effectclaim_e10" "run_1" "e1" "check" 3)).
  - vm_compute. reflexivity.
  - vm_compute. by left.
  - vm_compute. reflexivity.
  - vm_compute. reflexivity.
  - by apply (exec_effects_steps false [demo_dispatch false "run_2" "e2"]).
Defined.

Definition left_by_run_1 : EffectDB :=
  stop_run "run_1" (exec_effects [demo_claim "run_1" "e1" "repo:a"; demo_dispatch false "run_1" "e1"; OpMark (at_time 12) "" "run_1" "e1"] two_runs).
Definition demo_settle : ExternalEffectSettlementRequest :=
  mkSettleRequest "" "alice" "effectclaim_e10" "acct" "cli-user" "the deploy landed".

Lemma settlement_decides_witness :
  let d' := exec_effect (OpSettle "s1" (at_time 30) demo_settle) left_by_run_1 in
  map cl_State (fx_claims d') = [ExternalClaimObserved] /\
  exists again, SettleExternalEffect "s2" (at_time 60) demo_settle (exec_effects [demo_claim "run_2" "e2" "repo:a"] d')
    = (exec_effects [demo_claim "run_2" "e2" "repo:a"] d', inr again) /\ se_ID (sl_Settlement again) = "effectsettle_s1".
Proof.
  intros d'. split; [vm_compute; reflexivity|].
  assert (effect_wf left_by_run_1) as W.
  { apply (steps_wf false two_runs); [|apply two_runs_wf]. eapply steps_more; [|apply stop_run_step]. by apply exec_effects_steps. }
  destruct (SettleExternalEffect "s1" (at_time 30) demo_settle left_by_run_1) as [d1 [e|r]] eqn:E; [vm_compute in E; discriminate E|].
  destruct (settlement_decides false "s1" (at_time 30) demo_settle left_by_run_1 d1 (inr r) W E) as [_ H].
  assert (d1 = d') as -> by (change d' with (fst (SettleExternalEffect "s1" (at_time 30) demo_settle left_by_run_1)); by rewrite E).
  destruct (H (exec_effects [demo_claim "run_2" "e2" "repo:a"] d') "s2" (at_time 60)) as (again & A & _ & S);
    [by apply exec_effects_steps|vm_compute; reflexivity|].
  exists again. split; [exact A|]. rewrite S. vm_compute in E. injection E as <-. reflexivity.
Defined.
