(* ===== verification/Watches.v ===== *)
(** * External watches

    A watcher is a durable check of the outside world that the daemon polls after its
    Run parked ([control/external_watches.go]); watchers of one Run can be joined into
    a group with one verdict ([control/external_watch_groups.go],
    [external_watch_context.go]).  Times of a row are Unix seconds.  The state holds the
    control database, whose own view of the watchers is kept by [set_watches], the claims
    and the rows of watchers and groups. *)

From stdpp Require Import base tactics list strings.
From Stdlib Require Import ZArith Lia Bool Ascii String List.
From S2P Require Import Prelude GoLib GoStrings Sql Store Database Effects EffectRelease Sha256.

Definition ExternalWatchPending : string := "pending".
Definition ExternalWatchRunning : string := "running".
Definition ExternalWatchFailed : string := "failed".
Definition ExternalWatchTimedOut : string := "timed_out".
Definition ExternalWatchCancelled : string := "cancelled".
Definition ExternalWatchBlocked : string := "blocked_environment".
Definition WatchCheckerOK : string := "ok".
Definition WatchOperationPending : string := "pending".
Definition WatchOperationSucceeded : string := "succeeded".
Definition WatchOperationFailed : string := "failed".
Definition WatchVerificationNotRequired : string := "not_required".

Definition externalWatchTerminalStatuses : list string :=
  [ExternalWatchSucceeded; ExternalWatchFailed; ExternalWatchTimedOut; ExternalWatchBlocked].
Definition live_statuses : list string := [ExternalWatchPending; ExternalWatchRunning].

(** ** Rows *)

(** The verdict contract of a watcher. *)
Record WatchSpec := mkWatchSpec {
  sp_SuccessPattern : string; sp_FailurePattern : string; sp_SpecVersion : Z; sp_TargetPattern : string;
  sp_TerminalSuccessPattern : string; sp_TerminalFailurePattern : string; sp_ObservationAdapter : string }.

(** The frozen execution environment; [eb_rest] stands for the fields of
    [executionenv.Binding] that the store only copies. *)
Record WatchBinding := mkWatchBinding {
  eb_Version : Z; eb_ID : string; eb_TenantID : string; eb_PersonID : string; eb_WorkspaceID : string; eb_rest : string }.

Record WatchEnvironment := mkWatchEnvironment {
  en_SnapshotID : string; en_Generation : Z; en_PrincipalFingerprint : string; en_Fingerprint : string;
  en_CredentialSourceHash : string }.

Record ExternalWatch := mkExternalWatch {
  xw_ID : string; xw_TenantID : string; xw_PersonID : string; xw_WorkspaceID : string; xw_TaskID : string;
  xw_RunID : string; xw_Channel : string; xw_Description : string; xw_CWD : string; xw_Command : string;
  xw_Spec : WatchSpec; xw_PreflightReceipt : WatchReceipt; xw_WaitGroupID : string; xw_Status : string;
  xw_CheckerStatus : string; xw_OperationStatus : string; xw_VerificationStatus : string;
  xw_IntervalSeconds : Z; xw_CurrentIntervalSeconds : Z; xw_CommandTimeoutSeconds : Z; xw_TimeoutAt : Z;
  xw_NextCheckAt : Z; xw_Attempts : Z; xw_Extensions : Z; xw_ExecutionBinding : WatchBinding;
  xw_Environment : WatchEnvironment; xw_VerdictRevision : nat; xw_Finalized : bool; xw_Notified : bool;
  xw_LastOutput : string; xw_LastOutputHash : string; xw_LastError : string; xw_FailureClass : string;
  xw_CheckSignature : string; xw_ConsecutiveFailures : Z; xw_CreatedAt : Z; xw_UpdatedAt : Z;
  xw_FinishedAt : option Z; xw_Sequence : Z }.

#[export] Instance ExternalWatch_eta : Eta ExternalWatch := fun w =>
  mkExternalWatch (xw_ID w) (xw_TenantID w) (xw_PersonID w) (xw_WorkspaceID w) (xw_TaskID w) (xw_RunID w) (xw_Channel w)
    (xw_Description w) (xw_CWD w) (xw_Command w) (xw_Spec w) (xw_PreflightReceipt w) (xw_WaitGroupID w) (xw_Status w)
    (xw_CheckerStatus w) (xw_OperationStatus w) (xw_VerificationStatus w) (xw_IntervalSeconds w) (xw_CurrentIntervalSeconds w)
    (xw_CommandTimeoutSeconds w) (xw_TimeoutAt w) (xw_NextCheckAt w) (xw_Attempts w) (xw_Extensions w) (xw_ExecutionBinding w)
    (xw_Environment w) (xw_VerdictRevision w) (xw_Finalized w) (xw_Notified w) (xw_LastOutput w) (xw_LastOutputHash w)
    (xw_LastError w) (xw_FailureClass w) (xw_CheckSignature w) (xw_ConsecutiveFailures w) (xw_CreatedAt w) (xw_UpdatedAt w)
    (xw_FinishedAt w) (xw_Sequence w).

#[export] Instance ExternalWatch_keyed : Keyed ExternalWatch string := xw_ID.

Record ExternalWatchGroup := mkWatchGroup {
  xg_ID : string; xg_TenantID : string; xg_PersonID : string; xg_TaskID : string; xg_RunID : string; xg_GroupKey : string;
  xg_Mode : string; xg_ExpectedCount : nat; xg_Status : string; xg_WinnerWatchID : string; xg_CreatedAt : Z;
  xg_UpdatedAt : Z; xg_FinishedAt : Z }.

#[export] Instance ExternalWatchGroup_eta : Eta ExternalWatchGroup := fun g =>
  mkWatchGroup (xg_ID g) (xg_TenantID g) (xg_PersonID g) (xg_TaskID g) (xg_RunID g) (xg_GroupKey g) (xg_Mode g)
    (xg_ExpectedCount g) (xg_Status g) (xg_WinnerWatchID g) (xg_CreatedAt g) (xg_UpdatedAt g) (xg_FinishedAt g).

#[export] Instance ExternalWatchGroup_keyed : Keyed ExternalWatchGroup string := xg_ID.

(** ** State *)

Record WatchDB := mkWatchDB {
  wx_db : DB; wx_claims : list ClaimRow; wx_watches : list ExternalWatch; wx_groups : list ExternalWatchGroup }.

#[export] Instance WatchDB_eta : Eta WatchDB := fun d => mkWatchDB (wx_db d) (wx_claims d) (wx_watches d) (wx_groups d).

(** A watcher as the other components read it. *)
Definition watch_row (w : ExternalWatch) : WatchRow := mkWatchRow (xw_ID w) (xw_TenantID w) (xw_RunID w) (xw_Status w).

Definition effect_watch (w : ExternalWatch) : EffectWatch :=
  mkEffectWatch (xw_ID w) (xw_TenantID w) (xw_PersonID w) (xw_WorkspaceID w) (xw_RunID w) (xw_Status w)
    (sp_ObservationAdapter (xw_Spec w)) (xw_Command w) (xw_LastOutput w) (xw_VerdictRevision w) (xw_Finalized w)
    (xw_WaitGroupID w) (xw_Sequence w) (xw_CreatedAt w) (Some (xw_PreflightReceipt w)).

Definition set_watches (ws : list ExternalWatch) (d : WatchDB) : WatchDB :=
  d <| wx_watches := ws |> <| wx_db := (wx_db d) <| db_watches := map watch_row ws |> |>.

(** The tables of the effect statements. *)
Definition effect_view (instance : string) (d : WatchDB) : EffectDB :=
  mkEffectDB (db_runs (wx_db d)) (db_events (wx_db d)) (db_next_cursor (wx_db d)) (wx_claims d) [] []
    (map effect_watch (wx_watches d)) [] [] [] instance.

Definition xwatch_at (tenantID id : string) (w : ExternalWatch) : bool :=
  (xw_TenantID w =? normalizeTenant tenantID)%string && (xw_ID w =? id)%string.
Definition status_in (set : list string) (w : ExternalWatch) : bool := one_of set (xw_Status w).
Definition live (w : ExternalWatch) : bool := status_in live_statuses w.
Definition owned_watch (tenantID personID : string) (w : ExternalWatch) : bool :=
  (xw_TenantID w =? normalizeTenant tenantID)%string && (xw_PersonID w =? personID)%string.

(** An UPDATE of watchers, and its [RowsAffected]. *)
Definition update_watches (c : ExternalWatch -> bool) (f : ExternalWatch -> ExternalWatch) (d : WatchDB) : WatchDB :=
  set_watches (update_where c f (wx_watches d)) d.
Definition cas_watch (c : ExternalWatch -> bool) (f : ExternalWatch -> ExternalWatch) (d : WatchDB) : WatchDB * bool :=
  (update_watches c f d, (rows_affected c (wx_watches d) =? 1)%Z).

(** ** Registration *)

Definition trim_spec (s : WatchSpec) : WatchSpec :=
  mkWatchSpec (TrimSpace (sp_SuccessPattern s)) (TrimSpace (sp_FailurePattern s)) (sp_SpecVersion s)
    (TrimSpace (sp_TargetPattern s)) (TrimSpace (sp_TerminalSuccessPattern s)) (TrimSpace (sp_TerminalFailurePattern s))
    (TrimSpace (sp_ObservationAdapter s)).

Definition default_version (s : WatchSpec) : WatchSpec :=
  let version :=
    if (0 <? sp_SpecVersion s)%Z then sp_SpecVersion s else
    if negb (sp_ObservationAdapter s =? "")%string then 3%Z else
    if negb (sp_TargetPattern s =? "")%string || negb (sp_TerminalSuccessPattern s =? "")%string
       || negb (sp_TerminalFailurePattern s =? "")%string then 2%Z else 1%Z in
  mkWatchSpec (sp_SuccessPattern s) (sp_FailurePattern s) version (sp_TargetPattern s) (sp_TerminalSuccessPattern s)
    (sp_TerminalFailurePattern s) (sp_ObservationAdapter s).

Definition ValidateExternalWatchSpec (s : WatchSpec) : option error :=
  if (3 <=? sp_SpecVersion s)%Z then
    if blank (sp_ObservationAdapter s) then Some (Errorf "watch spec v3 requires an observation adapter") else None
  else if (sp_SpecVersion s <=? 1)%Z then
    if blank (sp_SuccessPattern s) then Some (Errorf "success pattern is required for watch spec v1") else None
  else
    let '(target, success, failure) :=
      (TrimSpace (sp_TargetPattern s), TrimSpace (sp_TerminalSuccessPattern s), TrimSpace (sp_TerminalFailurePattern s)) in
    if (target =? "")%string && (success =? "")%string && (failure =? "")%string
    then Some (Errorf "watch spec v2 requires at least one target or terminal pattern") else
    if negb (target =? "")%string && ((success =? "")%string || (failure =? "")%string)
    then Some (Errorf "watch spec v2 target_pattern requires both terminal_success_pattern and terminal_failure_pattern because the target may be skipped")
    else None.

Definition member (tenantID groupID : string) (w : ExternalWatch) : bool :=
  (xw_TenantID w =? tenantID)%string && (xw_WaitGroupID w =? groupID)%string.
Definition members (tenantID groupID : string) (d : WatchDB) : list ExternalWatch :=
  select_where (member tenantID groupID) (wx_watches d).

(** The watcher as it is inserted, from the request and its deadline [timeoutAt]. *)
Definition prepare_watch (uuid : string) (now : Time) (timeoutAt : Time) (watch : ExternalWatch) (d : WatchDB) : ExternalWatch :=
  let tenant := normalizeTenant (xw_TenantID watch) in
  let thread := threadIDForRun tenant (xw_RunID watch) (wx_db d) in
  let interval := if (xw_IntervalSeconds watch <? 5)%Z then 30%Z else xw_IntervalSeconds watch in
  let timeout := if (xw_CommandTimeoutSeconds watch <? 1)%Z then 30%Z else xw_CommandTimeoutSeconds watch in
  let deadline := if IsZero timeoutAt || negb (now <? timeoutAt)%Z then Add now (2 * Hour)%Z else timeoutAt in
  let id := "watch_" +:+ uuid in
  let b := xw_ExecutionBinding watch in
  let person := TrimSpace (xw_PersonID watch) in
  let binding :=
    if (0 <? eb_Version b)%Z
    then mkWatchBinding (eb_Version b) (if blank (eb_ID b) then "binding:" +:+ id else eb_ID b) tenant person
           (xw_WorkspaceID watch) (eb_rest b)
    else b in
  mkExternalWatch id tenant person (xw_WorkspaceID watch)
    (if (thread =? "")%string then TrimSpace (xw_TaskID watch) else thread) (xw_RunID watch) (xw_Channel watch)
    (xw_Description watch) (TrimSpace (xw_CWD watch)) (TrimSpace (xw_Command watch))
    (default_version (trim_spec (xw_Spec watch))) (xw_PreflightReceipt watch) (xw_WaitGroupID watch) ExternalWatchPending
    "" WatchOperationPending WatchVerificationNotRequired interval interval (if (120 <? timeout)%Z then 120%Z else timeout)
    (Unix deadline) (Unix now) 0 0 binding (xw_Environment watch) 1 false false "" "" "" "" "" 0 (Unix now) (Unix now) None 0.

(** The claim a recovery observation is bound to is the chain's, and not released. *)
Definition recovery_bound (w : ExternalWatch) (d : WatchDB) : option error :=
  let r := xw_PreflightReceipt w in
  if (rc_RecoveryClaimID r =? "")%string then None else
  if (rc_Version r <? ExternalWatchRecoveryReceiptVersion)%Z
  then Some (Errorf "effect recovery binding requires a versioned observation receipt") else
  match externalEffectForObservation (xw_TenantID w) (xw_PersonID w) (xw_RunID w) (rc_RecoveryClaimID r) (effect_view "" d) with
  | Err e => Some e
  | Ok c => if in_state ExternalClaimObserved c then Some (Errorf "effect claim is already observed") else None
  end.

Definition group_open (w : ExternalWatch) (d : WatchDB) (g : ExternalWatchGroup) : bool :=
  (xg_TenantID g =? xw_TenantID w)%string && (xg_ID g =? xw_WaitGroupID w)%string && (xg_PersonID g =? xw_PersonID w)%string
  && (xg_RunID g =? xw_RunID w)%string && (xg_Status g =? ExternalWatchPending)%string
  && (length (members (xg_TenantID g) (xg_ID g) d) <? xg_ExpectedCount g)%nat.

(** Only members with a versioned receipt are counted against their group. *)
Definition group_admits (w : ExternalWatch) (d : WatchDB) : option error :=
  if (xw_WaitGroupID w =? "")%string || (rc_Version (xw_PreflightReceipt w) <? ExternalWatchContinuationReceiptVersion)%Z then None else
  if negb (rows_affected (group_open w d) (wx_groups d) =? 1)%Z
  then Some (Errorf "wait group is full, terminal, or outside this run") else
  if existsb (fun x => (xw_Command x =? xw_Command w)%string && (xw_CWD x =? xw_CWD w)%string)
       (members (xw_TenantID w) (xw_WaitGroupID w) d)
  then Some (Errorf "this observation is already registered in the wait group; register a distinct missing target")
  else None.

Definition output_hash (output : string) : string := hex_EncodeToString (sha256_Sum256 (bytes_of output)).

(** A member observed terminal before it was registered is stored with its verdict. *)
Definition preflight_verdict (now : Time) (status output operation : string) (w : ExternalWatch) : option ExternalWatch :=
  if (ExternalWatchContinuationReceiptVersion <=? rc_Version (xw_PreflightReceipt w))%Z
     && one_of [ExternalWatchSucceeded; ExternalWatchFailed] status
  then
    if blank output then None else
    let operation := if negb (operation =? "")%string then operation else
                     if (status =? ExternalWatchFailed)%string then WatchOperationFailed else WatchOperationSucceeded in
    let settled := negb (rc_RecoveryClaimID (xw_PreflightReceipt w) =? "")%string && (xw_WaitGroupID w =? "")%string in
    Some (w <| xw_Status := status |> <| xw_CheckerStatus := WatchCheckerOK |> <| xw_OperationStatus := operation |>
            <| xw_LastOutput := output |> <| xw_LastOutputHash := output_hash output |> <| xw_FinishedAt := Some (Unix now) |>
            <| xw_Finalized := settled |> <| xw_Notified := settled |>)
  else Some w.

(** [CreateExternalWatch]: the stored watcher. *)
Definition CreateExternalWatch (uuid : string) (now : Time) (timeoutAt : Time) (watch : ExternalWatch) (d : WatchDB)
  : WatchDB * res ExternalWatch :=
  let w := prepare_watch uuid now timeoutAt watch d in
  if (xw_PersonID w =? "")%string || (xw_TaskID w =? "")%string || (xw_CWD w =? "")%string || (xw_Command w =? "")%string
  then (d, Err (Errorf "person, task, cwd, and command are required")) else
  match ValidateExternalWatchSpec (xw_Spec w) with
  | Some e => (d, Err e)
  | None =>
      match recovery_bound w d with
      | Some e => (d, Err e)
      | None =>
          match group_admits w d with
          | Some e => (d, Err e)
          | None =>
              let sequence := (db_next_cursor (wx_db d) + 1)%Z in
              if existsb (fun x => (xw_ID x =? xw_ID w)%string) (wx_watches d)
              then (d, Err (uniqueViolation "external_watches.id")) else
              match preflight_verdict now (xw_Status watch) (xw_LastOutput watch) (xw_OperationStatus watch) (w <| xw_Sequence := sequence |>) with
              | None => (d, Err (Errorf "terminal preflight requires recorded observation evidence"))
              | Some w =>
                  let d := set_watches (wx_watches d ++ [w]) d in
                  let db := (wx_db d) <| db_next_cursor := sequence |> in
                  (d <| wx_db := promoteThreadForControlObjectTx now (xw_TenantID w) (xw_RunID w) db |>, Ok w)
              end
          end
      end
  end.

(** ** Polling *)

(** The bounded due snapshot. *)
Definition ListDueExternalWatches (now : Time) (limit : Z) (d : WatchDB) : list ExternalWatch :=
  sql_limit (if (limit <=? 0)%Z || (100 <? limit)%Z then 20%Z else limit)
    (order_by (fun a b => (xw_NextCheckAt a <=? xw_NextCheckAt b)%Z)
       (select_where (fun w => live w && (xw_NextCheckAt w <=? Unix now)%Z) (wx_watches d))).

Definition claim_interval (watch : ExternalWatch) : Z :=
  if (xw_CurrentIntervalSeconds watch <? xw_IntervalSeconds watch)%Z then xw_IntervalSeconds watch else xw_CurrentIntervalSeconds watch.

Definition ClaimExternalWatch (now : Time) (watch : ExternalWatch) (d : WatchDB) : WatchDB * bool :=
  cas_watch (fun w => xwatch_at (xw_TenantID watch) (xw_ID watch) w && live w && (xw_NextCheckAt w <=? Unix now)%Z)
    (fun w => w <| xw_Status := ExternalWatchRunning |> <| xw_Attempts := (xw_Attempts w + 1)%Z |>
                <| xw_NextCheckAt := Unix (Add now (claim_interval watch * Second)%Z) |> <| xw_UpdatedAt := Unix now |>) d.

Definition running_watch (tenantID id : string) (w : ExternalWatch) : bool :=
  xwatch_at tenantID id w && (xw_Status w =? ExternalWatchRunning)%string.

(** The interval until the next check: doubled up to a minute while the output stays
    the same. *)
Definition next_interval (w : ExternalWatch) (hash : string) : Z :=
  let base := if (xw_IntervalSeconds w <? 5)%Z then 30%Z else xw_IntervalSeconds w in
  let current := if (xw_CurrentIntervalSeconds w <? base)%Z then base else xw_CurrentIntervalSeconds w in
  if negb (xw_LastOutputHash w =? "")%string && (xw_LastOutputHash w =? hash)%string
  then (if (60 <? current * 2)%Z then 60 else current * 2)%Z else base.

Definition RecordExternalWatchCheck (now : Time) (tenantID id output lastError : string) (d : WatchDB) : WatchDB * res unit :=
  match query_row (running_watch tenantID id) (wx_watches d) with
  | None => (d, Err (Errorf "sql: no rows in result set"))
  | Some w =>
      let hash := output_hash (TrimSpace output) in
      let next := next_interval w hash in
      (update_watches (running_watch tenantID id)
         (fun w => w <| xw_LastOutput := output |> <| xw_LastOutputHash := hash |> <| xw_LastError := lastError |>
                     <| xw_FailureClass := "" |> <| xw_CheckSignature := "" |> <| xw_ConsecutiveFailures := 0%Z |>
                     <| xw_CurrentIntervalSeconds := next |> <| xw_NextCheckAt := Unix (Add now (next * Second)%Z) |>
                     <| xw_UpdatedAt := Unix now |>) d, Ok tt)
  end.

Definition RecordExternalWatchPhases (now : Time) (tenantID id checker operation verification : string) (d : WatchDB) : WatchDB :=
  update_watches (fun w => xwatch_at tenantID id w && live w)
    (fun w => w <| xw_CheckerStatus := TrimSpace checker |> <| xw_OperationStatus := TrimSpace operation |>
                <| xw_VerificationStatus := TrimSpace verification |> <| xw_UpdatedAt := Unix now |>) d.

(** The streak of identical failures, counted by the statement itself, then read. *)
Definition RecordExternalWatchFailure (now : Time) (tenantID id output lastError failureClass signature : string) (d : WatchDB)
  : WatchDB * res Z :=
  let d' := update_watches (running_watch tenantID id)
    (fun w => w <| xw_LastOutput := output |> <| xw_LastError := lastError |> <| xw_FailureClass := failureClass |>
                <| xw_ConsecutiveFailures := if (xw_CheckSignature w =? signature)%string then (xw_ConsecutiveFailures w + 1)%Z else 1%Z |>
                <| xw_CheckSignature := signature |> <| xw_UpdatedAt := Unix now |>) d in
  match query_row (xwatch_at tenantID id) (wx_watches d') with
  | Some w => (d', Ok (xw_ConsecutiveFailures w))
  | None => (d', Err (Errorf "sql: no rows in result set"))
  end.

(** One bounded extension of the deadline. *)
Definition ExtendExternalWatchDeadline (now : Time) (tenantID id : string) (until : Time) (output : string) (d : WatchDB)
  : WatchDB * bool :=
  cas_watch (fun w => running_watch tenantID id w && (xw_Extensions w =? 0)%Z)
    (fun w => w <| xw_TimeoutAt := Unix until |> <| xw_Extensions := (xw_Extensions w + 1)%Z |> <| xw_LastOutput := output |>
                <| xw_LastError := "" |> <| xw_UpdatedAt := Unix now |>) d.

(** ** Verdicts *)

Definition FinishExternalWatch (now : Time) (tenantID id status output lastError : string) (d : WatchDB) : WatchDB * res bool :=
  if negb (one_of (ExternalWatchCancelled :: externalWatchTerminalStatuses) status)
  then (d, Err (Errorf "invalid external watch terminal status")) else
  let born := (status =? ExternalWatchCancelled)%string in
  let '(d', won) := cas_watch (fun w => xwatch_at tenantID id w && live w)
    (fun w => w <| xw_Status := status |> <| xw_LastOutput := output |> <| xw_LastError := lastError |> <| xw_Finalized := born |>
                <| xw_Notified := born |> <| xw_FinishedAt := Some (Unix now) |> <| xw_UpdatedAt := Unix now |>) d in
  (d', Ok won).

(** A revised verdict is a new outcome, finalized and announced again. *)
Definition ReviseExternalWatchVerdict (now : Time) (tenantID id from to : string) (d : WatchDB) : WatchDB * res bool :=
  if negb (one_of [ExternalWatchSucceeded; ExternalWatchFailed] to)
  then (d, Err (Errorf "invalid revised external watch status")) else
  let '(d', won) := cas_watch (fun w => xwatch_at tenantID id w && (xw_Status w =? from)%string)
    (fun w => w <| xw_Status := to |> <| xw_LastError := "" |> <| xw_Finalized := false |> <| xw_Notified := false |>
                <| xw_VerdictRevision := S (xw_VerdictRevision w) |> <| xw_UpdatedAt := Unix now |>) d in
  (d', Ok won).

Definition MarkExternalWatchFinalized (now : Time) (tenantID id : string) (d : WatchDB) : WatchDB * bool :=
  cas_watch (fun w => xwatch_at tenantID id w && negb (xw_Finalized w))
    (fun w => w <| xw_Finalized := true |> <| xw_UpdatedAt := Unix now |>) d.

Definition MarkExternalWatchNotified (now : Time) (tenantID id : string) (d : WatchDB) : WatchDB * bool :=
  cas_watch (fun w => xwatch_at tenantID id w && xw_Finalized w && negb (xw_Notified w))
    (fun w => w <| xw_Notified := true |> <| xw_UpdatedAt := Unix now |>) d.

(** ** The Run of a watcher *)

Definition run_watches_live (tenantID runID : string) (ws : list ExternalWatch) : bool :=
  existsb (fun w => (xw_TenantID w =? tenantID)%string && (xw_RunID w =? runID)%string && live w) ws.

(** Cancelling the last live watcher hands its waiting Run back to the person. *)
Definition CancelExternalWatchForPerson (now : Time) (tenantID personID id : string) (d : WatchDB) : WatchDB * bool :=
  let '(tenant, person, id) := (normalizeTenant tenantID, TrimSpace personID, TrimSpace id) in
  let mine := fun w => owned_watch tenantID person w && (xw_ID w =? id)%string in
  match query_row mine (wx_watches d) with
  | None => (d, false)
  | Some watch =>
      let c := fun w => mine w && live w in
      if negb (rows_affected c (wx_watches d) =? 1)%Z then (d, false) else
      let d := update_watches c
        (fun w => w <| xw_Status := ExternalWatchCancelled |> <| xw_LastError := "cancelled by user" |> <| xw_Finalized := true |>
                    <| xw_Notified := true |> <| xw_FinishedAt := Some (Unix now) |> <| xw_UpdatedAt := Unix now |>) d in
      let threads := update_where
        (fun t => (th_tenant_id t =? tenant)%string && (th_person_id t =? person)%string && (th_id t =? xw_TaskID watch)%string)
        (fun t => t <| th_summary := if (th_summary t =? "")%string then "External watcher cancelled by user." else th_summary t |>
                    <| th_last_activity_at := Unix now |> <| th_updated_at := Unix now |>) (db_threads (wx_db d)) in
      let active := existsb (fun w => owned_watch tenantID person w && (xw_RunID w =? xw_RunID watch)%string && live w) (wx_watches d) in
      let runs :=
        if active then db_runs (wx_db d) else
        update_where (fun r => run_at tenant (xw_RunID watch) r && (run_person_id r =? person)%string
                               && (run_status r =? "waiting_external")%string)
          (fun r => r <| run_status := "waiting_user" |> <| run_attention_dismissed_at := 0%Z |>) (db_runs (wx_db d)) in
      (d <| wx_db := (wx_db d) <| db_threads := threads |> <| db_runs := runs |> |>, true)
  end.

(** An abandoned finalization makes its Run visible as blocked. *)
Definition MarkExternalWatchRunBlocked (now : Time) (tenantID runID reason : string) (d : WatchDB) : WatchDB * bool :=
  let '(tenant, runID) := (normalizeTenant tenantID, TrimSpace runID) in
  if (runID =? "")%string then (d, false) else
  let c := fun r => run_at tenant runID r && (run_status r =? "waiting_external")%string
                    && negb (run_watches_live (run_tenant_id r) (run_id r) (wx_watches d)) in
  (d <| wx_db := (wx_db d) <| db_runs := update_where c
          (fun r => r <| run_status := "blocked" |> <| run_last_error := TrimSpace reason |> <| run_heartbeat_at := Some (Unix now) |>
                      <| run_attention_dismissed_at := 0%Z |>) (db_runs (wx_db d)) |> |>,
   (rows_affected c (db_runs (wx_db d)) =? 1)%Z).

(** ** Groups *)

Definition ExternalWatchGroupAll : string := "all".
Definition ExternalWatchGroupAny : string := "any".

Definition group_clash (a b : ExternalWatchGroup) : bool :=
  (xg_TenantID a =? xg_TenantID b)%string && (xg_RunID a =? xg_RunID b)%string && (xg_GroupKey a =? xg_GroupKey b)%string.

Definition externalWatchGroupByKey (tenantID runID k : string) (d : WatchDB) : option ExternalWatchGroup :=
  query_row (fun g => (xg_TenantID g =? tenantID)%string && (xg_RunID g =? runID)%string && (xg_GroupKey g =? k)%string) (wx_groups d).

Definition insert_group (g : ExternalWatchGroup) (d : WatchDB) : res WatchDB :=
  if existsb (group_clash g) (wx_groups d) then Ok d else
  if existsb (fun x => (xg_ID x =? xg_ID g)%string) (wx_groups d) then Err (uniqueViolation "external_watch_groups.id")
  else Ok (d <| wx_groups := wx_groups d ++ [g] |>).

Definition ResolveOrCreateExternalWatchGroup (uuid : string) (now : Time) (tenantID personID taskID runID k mode : string)
    (expected : nat) (d : WatchDB) : WatchDB * res ExternalWatchGroup :=
  let '(tenant, person, task, run, k) := (normalizeTenant tenantID, TrimSpace personID, TrimSpace taskID, TrimSpace runID, TrimSpace k) in
  let mode := let m := ToLower (TrimSpace mode) in if (m =? "")%string then ExternalWatchGroupAll else m in
  if (person =? "")%string || (task =? "")%string || (run =? "")%string || (k =? "")%string
  then (d, Err (Errorf "watch group requires person, task, run, and group key")) else
  if negb (one_of [ExternalWatchGroupAll; ExternalWatchGroupAny] mode) then (d, Err (Errorf "watch group mode must be all or any")) else
  if (expected <? 2)%nat || (8 <? expected)%nat then (d, Err (Errorf "watch group size must be between 2 and 8")) else
  match insert_group (mkWatchGroup ("watchgroup_" +:+ uuid) tenant person task run k mode expected ExternalWatchPending ""
                        (Unix now) (Unix now) 0) d with
  | Err e => (d, Err e)
  | Ok d =>
      match externalWatchGroupByKey tenant run k d with
      | None => (d, Err (Errorf "sql: no rows in result set"))
      | Some g =>
          if negb (xg_PersonID g =? person)%string || negb (xg_TaskID g =? task)%string || negb (xg_Mode g =? mode)%string
             || negb (xg_ExpectedCount g =? expected)%nat
          then (d, Err (Errorf "watch group was already declared with a different owner or contract")) else
          if negb (xg_Status g =? ExternalWatchPending)%string then (d, Err (Errorf "watch group is already terminal")) else
          if (expected <=? length (members tenant (xg_ID g) d))%nat
          then (d, Err (Errorf "watch group already has its declared members")) else (d, Ok g)
      end
  end.

Definition count_status (set : list string) (ws : list ExternalWatch) : nat := length (List.filter (status_in set) ws).
Definition failed_statuses : list string := [ExternalWatchFailed; ExternalWatchTimedOut; ExternalWatchBlocked; ExternalWatchCancelled].

Definition min_of (l : list Z) : Z := match l with [] => 0%Z | x :: l => fold_left Z.min l x end.

(** The verdict of a pending group; [None] while its members can still decide it.  A
    group of versioned members waits for its Run to stop registering them. *)
Definition group_verdict (now : Time) (g : ExternalWatchGroup) (d : WatchDB) : option string :=
  let ws := members (xg_TenantID g) (xg_ID g) d in
  let registered := length ws in
  let modern := (ExternalWatchContinuationReceiptVersion <=? min_of (map (fun w => rc_Version (xw_PreflightReceipt w)) ws))%Z in
  let deadline := min_of (map xw_TimeoutAt ws) in
  let run_status := match query_row (run_at (xg_TenantID g) (xg_RunID g)) (db_runs (wx_db d)) with
                    | Some r => run_status r | None => "" end in
  let running := (run_status =? "running")%string in
  let incomplete := (registered <? xg_ExpectedCount g)%nat in
  if modern && running && (Unix now <? deadline)%Z then None else
  if (modern || negb running) && incomplete then Some ExternalWatchBlocked else
  let active := count_status live_statuses ws in
  let succeeded := count_status [ExternalWatchSucceeded] ws in
  let failed := count_status failed_statuses ws in
  if (xg_Mode g =? ExternalWatchGroupAny)%string then
    if (0 <? succeeded)%nat then Some ExternalWatchSucceeded else
    if negb incomplete && (active =? 0)%nat && (failed =? registered)%nat then Some ExternalWatchFailed else None
  else
    if (0 <? failed)%nat then Some ExternalWatchFailed else
    if negb incomplete && (succeeded =? xg_ExpectedCount g)%nat then Some ExternalWatchSucceeded else None.

(** A member that does not own the verdict is settled silently. *)
Definition settle_member (now : Time) (w : ExternalWatch) : ExternalWatch :=
  let w' := if live w then w <| xw_Status := ExternalWatchCancelled |> <| xw_LastError := "wait group reached its aggregate verdict" |> else w in
  w' <| xw_Finalized := true |> <| xw_Notified := true |>
     <| xw_FinishedAt := match xw_FinishedAt w with Some t => Some t | None => Some (Unix now) end |> <| xw_UpdatedAt := Unix now |>.

Record ExternalWatchGroupResolution := mkGroupResolution {
  gr_Terminal : bool; gr_Won : bool; gr_Status : string; gr_Group : option ExternalWatchGroup }.

Definition group_at (tenantID groupID : string) (g : ExternalWatchGroup) : bool :=
  (xg_TenantID g =? tenantID)%string && (xg_ID g =? groupID)%string.

Definition ResolveExternalWatchGroup (now : Time) (tenantID groupID trigger : string) (d : WatchDB)
  : WatchDB * ExternalWatchGroupResolution :=
  if blank groupID then (d, mkGroupResolution false false "" None) else
  let tenant := normalizeTenant tenantID in
  match query_row (group_at tenant groupID) (wx_groups d) with
  | None => (d, mkGroupResolution false false "" None)
  | Some g =>
      if negb (xg_Status g =? ExternalWatchPending)%string then
        let d' :=
          if negb (trigger =? "")%string && negb (trigger =? xg_WinnerWatchID g)%string
          then update_watches (fun w => member tenant groupID w && (xw_ID w =? trigger)%string && negb (xw_Finalized w)) (settle_member now) d
          else d in
        (d', mkGroupResolution true false (xg_Status g) (Some g))
      else
        match group_verdict now g d with
        | None => (d, mkGroupResolution false false "" (Some g))
        | Some status =>
            let settle := fun g => g <| xg_Status := status |> <| xg_WinnerWatchID := trigger |> <| xg_UpdatedAt := Unix now |>
                                     <| xg_FinishedAt := Unix now |> in
            let c := fun g => group_at tenant groupID g && (xg_Status g =? ExternalWatchPending)%string in
            let won := (rows_affected c (wx_groups d) =? 1)%Z in
            let d' := d <| wx_groups := update_where c settle (wx_groups d) |> in
            let d' := if won then update_watches (fun w => member tenant groupID w && negb (xw_ID w =? trigger)%string) (settle_member now) d'
                      else d' in
            (d', mkGroupResolution true won status
                   (Some (g <| xg_Status := status |> <| xg_WinnerWatchID := trigger |>)))
        end
  end.

(** Promised members that were never registered. *)
Definition IncompleteRunWatchGroups (tenantID runID : string) (d : WatchDB) : list string :=
  let tenant := normalizeTenant tenantID in
  map (fun g => "group " +:+ xg_GroupKey g +:+ " has " +:+ Itoa (length (members tenant (xg_ID g) d)) +:+ "/" +:+ Itoa (xg_ExpectedCount g) +:+ " members")
    (order_by (fun a b => String.leb (xg_GroupKey a) (xg_GroupKey b))
       (select_where (fun g => (xg_TenantID g =? tenant)%string && (xg_RunID g =? runID)%string && (xg_Status g =? ExternalWatchPending)%string
                               && (length (members tenant (xg_ID g) d) <? xg_ExpectedCount g)%nat) (wx_groups d))).

Record ExternalWaitBacklog := mkBacklog {
  bl_PendingGroups : nat; bl_IncompleteGroups : nat; bl_UnfinalizedMembers : nat; bl_OldestGroupAt : option Z }.

Definition ExternalWaitBacklogForPerson (tenantID personID : string) (d : WatchDB) : ExternalWaitBacklog :=
  let tenant := normalizeTenant tenantID in
  let gs := select_where (fun g => (xg_TenantID g =? tenant)%string && (xg_PersonID g =? personID)%string
                                   && (xg_Status g =? ExternalWatchPending)%string) (wx_groups d) in
  let oldest := min_of (map xg_CreatedAt gs) in
  mkBacklog (length gs)
    (length (List.filter (fun g => (length (members tenant (xg_ID g) d) <? xg_ExpectedCount g)%nat) gs))
    (length (select_where (fun w => owned_watch tenantID personID w && negb (xw_Finalized w) && status_in externalWatchTerminalStatuses w)
               (wx_watches d)))
    (if (0 <? oldest)%Z then Some oldest else None).

(** ** Listings *)

Definition GetExternalWatch (tenantID id : string) (d : WatchDB) : option ExternalWatch :=
  query_row (xwatch_at tenantID (TrimSpace id)) (wx_watches d).

Definition finished_since (since : Time) (w : ExternalWatch) : bool :=
  match xw_FinishedAt w with Some t => (Unix since <=? t)%Z | None => false end.
Definition finished_at (w : ExternalWatch) : Z := match xw_FinishedAt w with Some t => t | None => 0%Z end.
Definition newest_finished (a b : ExternalWatch) : bool := (finished_at b <=? finished_at a)%Z.
Definition recovery_limit (limit : Z) : Z := if (limit <=? 0)%Z || (200 <? limit)%Z then 50%Z else limit.

Definition ListExternalWatchesFinishedSince (status : string) (since : Time) (limit : Z) (d : WatchDB) : list ExternalWatch :=
  sql_limit (recovery_limit limit)
    (order_by newest_finished (select_where (fun w => (xw_Status w =? status)%string && finished_since since w) (wx_watches d))).

Definition ListExternalWatchesFinishedSinceForPerson (tenantID personID status : string) (since : Time) (limit : Z) (d : WatchDB)
  : list ExternalWatch :=
  sql_limit (if (limit <=? 0)%Z || (50 <? limit)%Z then 10%Z else limit)
    (order_by newest_finished (select_where (fun w => owned_watch tenantID (TrimSpace personID) w && (xw_Status w =? status)%string
                                                      && finished_since since w) (wx_watches d))).

Definition unfinalized (since : Time) (w : ExternalWatch) : bool :=
  status_in externalWatchTerminalStatuses w && negb (xw_Finalized w) && finished_since since w.

Definition ListUnfinalizedExternalWatches (since : Time) (limit : Z) (d : WatchDB) : list ExternalWatch :=
  sql_limit (recovery_limit limit) (order_by newest_finished (select_where (unfinalized since) (wx_watches d))).

Definition ListUnnotifiedExternalWatches (since : Time) (limit : Z) (d : WatchDB) : list ExternalWatch :=
  sql_limit (recovery_limit limit)
    (order_by (fun a b => (finished_at a <=? finished_at b)%Z)
       (select_where (fun w => status_in externalWatchTerminalStatuses w && xw_Finalized w && negb (xw_Notified w) && finished_since since w)
          (wx_watches d))).

Definition listing_rank (w : ExternalWatch) : nat :=
  if live w then 0 else if status_in [ExternalWatchFailed; ExternalWatchTimedOut; ExternalWatchBlocked] w then 1 else
  if negb (xw_Finalized w) || negb (xw_Notified w) then 2 else 3.

Definition last_change (w : ExternalWatch) : Z := match xw_FinishedAt w with Some t => t | None => xw_UpdatedAt w end.

Definition listing_order (a b : ExternalWatch) : bool :=
  (listing_rank a <? listing_rank b)%nat || (listing_rank a =? listing_rank b)%nat
  && ((last_change b <? last_change a)%Z || (last_change a =? last_change b)%Z && String.leb (xw_ID a) (xw_ID b)).

Definition listing_mode (mode : string) : option (ExternalWatch -> bool) :=
  let m := ToLower (TrimSpace mode) in
  if one_of [""; "summary"; "all"] m then Some (fun _ => true) else
  if (m =? "active")%string then Some live else
  if (m =? "attention")%string then
    Some (fun w => status_in [ExternalWatchFailed; ExternalWatchTimedOut; ExternalWatchBlocked] w
                   || status_in externalWatchTerminalStatuses w && (negb (xw_Finalized w) || negb (xw_Notified w))) else
  if (m =? "recent")%string then Some (status_in (ExternalWatchCancelled :: externalWatchTerminalStatuses)) else None.

Definition ListExternalWatchesForPerson (tenantID personID mode : string) (limit offset : Z) (d : WatchDB) : res (list ExternalWatch) :=
  match listing_mode mode with
  | None => Err (Errorf "invalid external watch list mode")
  | Some c =>
      Ok (sql_limit (if (limit <=? 0)%Z || (50 <? limit)%Z then 8%Z else limit)
            (skipn (Z.to_nat (Z.max 0 offset))
               (order_by listing_order
                  (select_where (fun w => owned_watch tenantID (TrimSpace personID) w && c w) (wx_watches d)))))
  end.

(** A full id or a unique displayed prefix; [true] reports an ambiguous one. *)
Definition ResolveExternalWatchForPerson (tenantID personID ref : string) (d : WatchDB) : option ExternalWatch * bool :=
  let ref := TrimSpace (TrimSuffix ref "...") in
  if (ref =? "")%string then (None, false) else
  let ref := if HasPrefix ref "watch_" then ref else "watch_" +:+ ref in
  if (String.length ref <? 10)%nat then (None, false) else
  let rank w := if (xw_ID w =? ref)%string then 0 else 1 in
  match sql_limit 2
          (order_by (fun a b => (rank a <? rank b)%nat || (rank a =? rank b)%nat && (xw_UpdatedAt b <=? xw_UpdatedAt a)%Z)
             (select_where (fun w => owned_watch tenantID (TrimSpace personID) w && HasPrefix (xw_ID w) ref) (wx_watches d))) with
  | [] => (None, false)
  | w :: rest => if (xw_ID w =? ref)%string || match rest with [] => true | _ => false end then (Some w, false) else (None, true)
  end.

Definition CountExternalWatchesByStatus (tenantID personID : string) (d : WatchDB) : list (string * nat) :=
  let ws := select_where (owned_watch tenantID personID) (wx_watches d) in
  map (fun s => (s, count_status [s] ws)) (nodup string_dec (map xw_Status ws)).

Definition ListRunExternalWatches (tenantID personID runID : string) (d : WatchDB) : list ExternalWatch :=
  sql_limit 16
    (order_by (fun a b => (xw_CreatedAt a <? xw_CreatedAt b)%Z || (xw_CreatedAt a =? xw_CreatedAt b)%Z && String.leb (xw_ID a) (xw_ID b))
       (select_where (fun w => owned_watch tenantID personID w && (xw_RunID w =? runID)%string) (wx_watches d))).
