(* ===== verification/WatchTheory.v ===== *)
(** * Histories of external watches

    What every operation of [Watches] does to a watcher's row and to a group, and what
    follows for every history: rows stay well formed, a verdict has one finalization, a
    group one winner. *)

From stdpp Require Import base tactics list strings.
From Stdlib Require Import ZArith Lia Bool Ascii String List.
From S2P Require Import Prelude GoLib GoStrings Sql Evolution Store Database Effects EffectRelease Watches.

(** ** Operations *)

Inductive watch_op :=
| WCreate (uuid : string) (now : Time) (timeoutAt : Time) (watch : ExternalWatch)
| WClaim (now : Time) (watch : ExternalWatch)
| WCheck (now : Time) (tenantID id output lastError : string)
| WPhases (now : Time) (tenantID id checker operation verification : string)
| WFailure (now : Time) (tenantID id output lastError failureClass signature : string)
| WExtend (now : Time) (tenantID id : string) (until : Time) (output : string)
| WFinish (now : Time) (tenantID id status output lastError : string)
| WRevise (now : Time) (tenantID id from to : string)
| WFinalized (now : Time) (tenantID id : string)
| WNotified (now : Time) (tenantID id : string)
| WCancel (now : Time) (tenantID personID id : string)
| WRunBlocked (now : Time) (tenantID runID reason : string)
| WGroup (uuid : string) (now : Time) (tenantID personID taskID runID k mode : string) (expected : nat)
| WResolve (now : Time) (tenantID groupID trigger : string)
| WExternal (db : DB) (claims : list ClaimRow).

(** [WExternal]: the rest of the daemon changes its tables, not the watchers. *)
Definition exec_watch (o : watch_op) (d : WatchDB) : WatchDB :=
  match o with
  | WCreate uuid now timeoutAt watch => fst (CreateExternalWatch uuid now timeoutAt watch d)
  | WClaim now watch => fst (ClaimExternalWatch now watch d)
  | WCheck now t id output e => fst (RecordExternalWatchCheck now t id output e d)
  | WPhases now t id c o v => RecordExternalWatchPhases now t id c o v d
  | WFailure now t id output e class signature => fst (RecordExternalWatchFailure now t id output e class signature d)
  | WExtend now t id until output => fst (ExtendExternalWatchDeadline now t id until output d)
  | WFinish now t id status output e => fst (FinishExternalWatch now t id status output e d)
  | WRevise now t id from to => fst (ReviseExternalWatchVerdict now t id from to d)
  | WFinalized now t id => fst (MarkExternalWatchFinalized now t id d)
  | WNotified now t id => fst (MarkExternalWatchNotified now t id d)
  | WCancel now t p id => fst (CancelExternalWatchForPerson now t p id d)
  | WRunBlocked now t run reason => fst (MarkExternalWatchRunBlocked now t run reason d)
  | WGroup uuid now t p task run k mode n => fst (ResolveOrCreateExternalWatchGroup uuid now t p task run k mode n d)
  | WResolve now t g trigger => fst (ResolveExternalWatchGroup now t g trigger d)
  | WExternal db claims => set_watches (wx_watches d) (d <| wx_db := db |> <| wx_claims := claims |>)
  end.

(** The caller's part: only terminal verdicts are revised, and only terminal watchers
    are finalized. *)
Definition well_called (o : watch_op) (d : WatchDB) : Prop :=
  match o with
  | WRevise _ _ _ from _ => one_of externalWatchTerminalStatuses from = true
  | WFinalized _ t id => forall w, In w (wx_watches d) -> xwatch_at t id w = true -> live w = false
  | _ => True
  end.

Inductive watch_steps (d : WatchDB) : WatchDB -> Prop :=
| watch_none : watch_steps d d
| watch_more d1 o : watch_steps d d1 -> well_called o d1 -> watch_steps d (exec_watch o d1).

(** ** Rows from step to step *)

Definition same_watch (w w' : ExternalWatch) : Prop :=
  xw_ID w' = xw_ID w /\ xw_TenantID w' = xw_TenantID w /\ xw_PersonID w' = xw_PersonID w /\ xw_RunID w' = xw_RunID w /\
  xw_Command w' = xw_Command w /\ xw_CWD w' = xw_CWD w /\ xw_Spec w' = xw_Spec w /\ xw_PreflightReceipt w' = xw_PreflightReceipt w /\
  xw_WaitGroupID w' = xw_WaitGroupID w /\ xw_IntervalSeconds w' = xw_IntervalSeconds w /\ xw_ExecutionBinding w' = xw_ExecutionBinding w /\
  xw_Environment w' = xw_Environment w /\ xw_CreatedAt w' = xw_CreatedAt w /\ xw_Sequence w' = xw_Sequence w.

(** A row's verdict, once reached, stays until it is revised, and so do its marks. *)
Record watch_step (w w' : ExternalWatch) : Prop := {
  ws_same : same_watch w w';
  ws_attempts : (xw_Attempts w <= xw_Attempts w')%Z;
  ws_extensions : (xw_Extensions w <= xw_Extensions w')%Z;
  ws_revision : xw_VerdictRevision w <= xw_VerdictRevision w';
  ws_terminal : live w = false -> live w' = false;
  ws_verdict : live w = false -> xw_VerdictRevision w' = xw_VerdictRevision w ->
    xw_Status w' = xw_Status w /\ (xw_Finalized w = true -> xw_Finalized w' = true) /\ (xw_Notified w = true -> xw_Notified w' = true) }.

Lemma watch_step_refl w : watch_step w w.
Proof. constructor; try done; lia. Qed.

Lemma watch_step_trans x y z : watch_step x y -> watch_step y z -> watch_step x z.
Proof.
  intros [S1 A1 E1 R1 T1 V1] [S2 A2 E2 R2 T2 V2]. constructor; try lia; [unfold same_watch in *; intuition congruence|auto|].
  intros L R. destruct (V1 L ltac:(lia)) as (? & ? & ?), (V2 (T1 L) ltac:(lia)) as (? & ? & ?). split; [congruence|auto].
Qed.

(** ** A well-formed row *)

Definition watch_statuses : list string := live_statuses ++ ExternalWatchCancelled :: externalWatchTerminalStatuses.

Record watch_ok (w : ExternalWatch) : Prop := {
  ok_status : status_in watch_statuses w = true;
  ok_notified : xw_Notified w = true -> xw_Finalized w = true;
  ok_live : live w = true -> xw_Finalized w = false;
  ok_finished : live w = false -> xw_FinishedAt w <> None;
  ok_cancelled : xw_Status w = ExternalWatchCancelled -> xw_Notified w = true;
  ok_extended : (0 <= xw_Extensions w <= 1)%Z;
  ok_interval : (5 <= xw_IntervalSeconds w)%Z;
  ok_current : (5 <= xw_CurrentIntervalSeconds w <= Z.max 60 (xw_IntervalSeconds w))%Z;
  ok_timeout : (1 <= xw_CommandTimeoutSeconds w <= 120)%Z;
  ok_spec : ValidateExternalWatchSpec (xw_Spec w) = None }.

(** One update of a row. *)
Definition watch_moves (w w' : ExternalWatch) : Prop := watch_step w w' /\ (watch_ok w -> watch_ok w').

(** A versioned member is only admitted to an open group. *)
Definition versioned (w : ExternalWatch) : Prop := (ExternalWatchContinuationReceiptVersion <= rc_Version (xw_PreflightReceipt w))%Z.
Definition admitted (d : WatchDB) (w : ExternalWatch) : Prop :=
  versioned w -> xw_WaitGroupID w <> "" -> exists g, In g (wx_groups d) /\ group_open w d g = true.

Definition watch_added (t : list ExternalWatch) (w : ExternalWatch) : Prop := watch_ok w /\ lookup_key (key w) t = None.
Definition watch_new (d : WatchDB) (w : ExternalWatch) : Prop := watch_added (wx_watches d) w /\ admitted d w.

Lemma watch_moves_refl w : watch_moves w w.
Proof. split; [apply watch_step_refl|done]. Qed.

Lemma watch_moves_trans x y z : watch_moves x y -> watch_moves y z -> watch_moves x z.
Proof. intros [S1 O1] [S2 O2]. split; [by eapply watch_step_trans|auto]. Qed.

Lemma live_cases w : live w = true <-> xw_Status w = ExternalWatchPending \/ xw_Status w = ExternalWatchRunning.
Proof. unfold live, status_in, one_of, live_statuses. simpl. rewrite orb_false_r, orb_true_iff, !String.eqb_eq. intuition congruence. Qed.

Lemma running_live t id w : running_watch t id w = true -> live w = true.
Proof. unfold running_watch. intros [_ E%String.eqb_eq]%andb_true_iff. apply live_cases. by right. Qed.

(** A row whose verdict is not touched. *)
Lemma moves_checkpoint w w' : same_watch w w' -> xw_Status w' = xw_Status w -> xw_Finalized w' = xw_Finalized w ->
  xw_Notified w' = xw_Notified w -> xw_FinishedAt w' = xw_FinishedAt w -> xw_VerdictRevision w' = xw_VerdictRevision w ->
  xw_CommandTimeoutSeconds w' = xw_CommandTimeoutSeconds w ->
  (xw_Attempts w <= xw_Attempts w')%Z -> (xw_Extensions w <= xw_Extensions w')%Z ->
  (watch_ok w -> (xw_Extensions w' <= 1)%Z /\ (5 <= xw_CurrentIntervalSeconds w' <= Z.max 60 (xw_IntervalSeconds w))%Z) -> watch_moves w w'.
Proof.
  intros S St F N Fi R T A E K. assert (live w' = live w) as L by (unfold live, status_in; by rewrite St).
  split.
  - constructor; rewrite ?L, ?St, ?F, ?N; try done; lia.
  - intros O. destruct (K O) as [K1 K2]. destruct O. destruct S as (? & ? & ? & ? & ? & ? & Sp & ? & ? & Iv & _).
    unfold status_in in *. constructor; unfold status_in; rewrite ?L, ?St, ?F, ?N, ?Fi, ?T, ?Iv, ?Sp; try done; lia.
Qed.

(** A row that reaches, or keeps, a terminal status. *)
Lemma moves_end w w' : same_watch w w' -> xw_CurrentIntervalSeconds w' = xw_CurrentIntervalSeconds w ->
  xw_CommandTimeoutSeconds w' = xw_CommandTimeoutSeconds w -> xw_Attempts w' = xw_Attempts w -> xw_Extensions w' = xw_Extensions w ->
  xw_VerdictRevision w <= xw_VerdictRevision w' -> live w' = false ->
  (watch_ok w -> status_in watch_statuses w' = true /\ xw_FinishedAt w' <> None) ->
  (xw_Notified w' = true -> xw_Finalized w' = true) -> (watch_ok w -> xw_Status w' = ExternalWatchCancelled -> xw_Notified w' = true) ->
  (live w = false -> xw_VerdictRevision w' = xw_VerdictRevision w ->
     xw_Status w' = xw_Status w /\ (xw_Finalized w = true -> xw_Finalized w' = true) /\ (xw_Notified w = true -> xw_Notified w' = true)) ->
  watch_moves w w'.
Proof.
  intros S C T A E R L St N Ca V. split.
  - constructor; try done; lia.
  - intros O. destruct (St O) as [St1 St2]. destruct O. destruct S as (? & ? & ? & ? & ? & ? & Sp & ? & ? & Iv & _).
    constructor; rewrite ?L, ?C, ?T, ?E, ?Iv, ?Sp; try done. apply Ca. by constructor.
Qed.

Ltac same_fields := by repeat split.

Lemma moves_claim now watch w : watch_moves w (w <| xw_Status := ExternalWatchRunning |> <| xw_Attempts := (xw_Attempts w + 1)%Z |>
    <| xw_NextCheckAt := Unix (Add now (claim_interval watch * Second)%Z) |> <| xw_UpdatedAt := Unix now |>) \/ live w = false.
Proof.
  destruct (live w) eqn:L; [left|by right]. split.
  - constructor; simpl; try done; try lia; by rewrite L.
  - intros []. constructor; simpl; try done. intros _. by apply ok_live0.
Qed.

Lemma next_interval_bounds w hash : (5 <= next_interval w hash <= Z.max 60 (xw_IntervalSeconds w))%Z.
Proof.
  unfold next_interval. destruct (xw_IntervalSeconds w <? 5)%Z eqn:B.
  - apply Z.ltb_lt in B. destruct (xw_CurrentIntervalSeconds w <? 30)%Z eqn:C; [|apply Z.ltb_ge in C];
      destruct (negb _ && _); try lia; destruct (60 <? _ * 2)%Z eqn:D; try apply Z.ltb_ge in D; lia.
  - apply Z.ltb_ge in B. destruct (xw_CurrentIntervalSeconds w <? xw_IntervalSeconds w)%Z eqn:C; [|apply Z.ltb_ge in C];
      destruct (negb _ && _); try lia; destruct (60 <? _ * 2)%Z eqn:D; try apply Z.ltb_ge in D; lia.
Qed.

Lemma moves_settle now w : watch_moves w (settle_member now w).
Proof.
  unfold settle_member. destruct (live w) eqn:L.
  - apply moves_end; try same_fields; try done; [|by rewrite L]. intros _. split; [done|]. simpl. by destruct (xw_FinishedAt w).
  - apply moves_end; try same_fields; try done; simpl; [done..|]. intros O. split; [apply (ok_status _ O)|]. by destruct (xw_FinishedAt w).
Qed.

(** ** Tables *)

Lemma watches_set ws d : wx_watches (set_watches ws d) = ws.
Proof. done. Qed.

Lemma update_watches_evolves new c f d : (forall w, In w (wx_watches d) -> c w = true -> watch_moves w (f w)) ->
  evolves watch_moves new (wx_watches d) (wx_watches (update_watches c f d)).
Proof. intros H. apply evolves_update; [apply watch_moves_refl|done]. Qed.

Lemma default_version_spec s : sp_SpecVersion (default_version s) <> 0%Z.
Proof.
  unfold default_version. simpl. destruct (0 <? sp_SpecVersion s)%Z eqn:E; [apply Z.ltb_lt in E; lia|].
  by destruct (negb _); [|destruct (_ || _)].
Qed.

Lemma prepare_ok uuid now timeoutAt watch d : let w := prepare_watch uuid now timeoutAt watch d in
  ValidateExternalWatchSpec (xw_Spec w) = None -> watch_ok w.
Proof.
  intros w V. subst w. constructor; try done; simpl; try lia; destruct (xw_IntervalSeconds watch <? 5)%Z eqn:E; try apply Z.ltb_ge in E; try lia;
    destruct (120 <? _)%Z eqn:F; try apply Z.ltb_ge in F; try lia; destruct (xw_CommandTimeoutSeconds watch <? 1)%Z eqn:G; try apply Z.ltb_ge in G; lia.
Qed.

Lemma preflight_ok now status output operation w w' : watch_ok w -> xw_Status w = ExternalWatchPending ->
  preflight_verdict now status output operation w = Some w' -> watch_ok w' /\ xw_ID w' = xw_ID w /\ xw_TenantID w' = xw_TenantID w /\ xw_PersonID w' = xw_PersonID w /\
    xw_RunID w' = xw_RunID w /\ xw_WaitGroupID w' = xw_WaitGroupID w /\ xw_PreflightReceipt w' = xw_PreflightReceipt w.
Proof.
  unfold preflight_verdict. intros O P. destruct (_ && _) eqn:E; [|intros H; by simplify_eq]. apply andb_true_iff in E as [_ E].
  destruct (blank output); [done|]. intros H. simplify_eq. split; [|done]. unfold one_of in E. simpl in E. rewrite orb_false_r in E.
  apply orb_true_iff in E. destruct O.
  destruct E as [->%String.eqb_eq| ->%String.eqb_eq]; constructor; simpl; done.
Qed.

Lemma admits_open w d : group_admits w d = None -> admitted d w.
Proof.
  unfold group_admits, admitted, versioned. intros A V N. apply String.eqb_neq in N. rewrite N in A.
  destruct (rc_Version _ <? _)%Z eqn:L; [apply Z.ltb_lt in L; lia|]. simpl in A. destruct (negb _) eqn:R; [done|]. clear A.
  apply negb_false_iff, Z.eqb_eq in R. unfold rows_affected in R.
  destruct (List.filter (group_open w d) (wx_groups d)) as [|g l] eqn:F; [done|]. exists g. apply filter_In. rewrite F. by left.
Qed.

Lemma create_evolves new uuid now timeoutAt watch d : (forall w, watch_new d w -> new (wx_watches d) w) ->
  evolves watch_moves new (wx_watches d) (wx_watches (fst (CreateExternalWatch uuid now timeoutAt watch d))).
Proof.
  intros New. unfold CreateExternalWatch. set (w := prepare_watch uuid now timeoutAt watch d). destruct (_ || _); [constructor|].
  destruct (ValidateExternalWatchSpec _) as [e|] eqn:V; [constructor|]. destruct (recovery_bound w d); [constructor|].
  destruct (group_admits w d) eqn:A; [constructor|]. destruct (existsb _ _) eqn:X; [constructor|].
  destruct (preflight_verdict _ _ _ _ _) as [w'|] eqn:P; [|constructor]. cbn [fst]. apply evolves_insert, New.
  apply preflight_ok in P as (O & I & T & Pe & R & G & Re); [|by destruct (prepare_ok uuid now timeoutAt watch d V); constructor|done].
  split; [split; [done|]|].
  - apply lookup_key_None. intros r Hr. pose proof (existsb_false_In _ _ _ X Hr) as N. apply String.eqb_neq in N. unfold key, ExternalWatch_keyed. by rewrite I.
  - intros Ve Ne. unfold versioned in Ve. rewrite Re in Ve. rewrite G in Ne. destruct (admits_open w d A Ve Ne) as (g & Hg & Og).
    exists g. unfold group_open in *. by rewrite T, Pe, R, G.
Qed.

Lemma settle_trigger_evolves new now tenant groupID trigger d :
  evolves watch_moves new (wx_watches d) (wx_watches (fst (ResolveExternalWatchGroup now tenant groupID trigger d))).
Proof.
  unfold ResolveExternalWatchGroup. destruct (blank groupID); [constructor|]. destruct (query_row _ _) as [g|]; [|constructor].
  destruct (negb (xg_Status g =? _)%string).
  - cbn [fst]. destruct (_ && _); [|constructor]. apply update_watches_evolves. intros; apply moves_settle.
  - destruct (group_verdict now g d) as [s|]; [|constructor]. cbn [fst]. destruct (_ =? 1)%Z; [|constructor].
    match goal with |- evolves _ _ _ (wx_watches (update_watches _ _ ?d')) => change (wx_watches d) with (wx_watches d') end.
    apply update_watches_evolves. intros; apply moves_settle.
Qed.

Lemma revise_status to : one_of [ExternalWatchSucceeded; ExternalWatchFailed] to = true -> to = ExternalWatchSucceeded \/ to = ExternalWatchFailed.
Proof. unfold one_of. simpl. by rewrite orb_false_r, orb_true_iff, !String.eqb_eq. Qed.

Lemma terminal_status w : one_of externalWatchTerminalStatuses (xw_Status w) = true -> live w = false /\ xw_Status w <> ExternalWatchCancelled.
Proof.
  unfold one_of, externalWatchTerminalStatuses. simpl. rewrite orb_false_r, !orb_true_iff, !String.eqb_eq.
  unfold live, status_in. intros [->|[->|[->| ->]]]; done.
Qed.

Lemma finish_moves now status output lastError w : live w = true -> In status (ExternalWatchCancelled :: externalWatchTerminalStatuses) ->
  watch_moves w (w <| xw_Status := status |> <| xw_LastOutput := output |> <| xw_LastError := lastError |>
                   <| xw_Finalized := (status =? ExternalWatchCancelled)%string |> <| xw_Notified := (status =? ExternalWatchCancelled)%string |>
                   <| xw_FinishedAt := Some (Unix now) |> <| xw_UpdatedAt := Unix now |>).
Proof.
  intros L [<-|[<-|[<-|[<-|[<-|[]]]]]]; apply moves_end; try same_fields; try done; by rewrite L.
Qed.

Lemma revise_moves now to w : one_of externalWatchTerminalStatuses (xw_Status w) = true ->
  to = ExternalWatchSucceeded \/ to = ExternalWatchFailed ->
  watch_moves w (w <| xw_Status := to |> <| xw_LastError := "" |> <| xw_Finalized := false |> <| xw_Notified := false |>
                   <| xw_VerdictRevision := S (xw_VerdictRevision w) |> <| xw_UpdatedAt := Unix now |>).
Proof.
  intros [L _]%terminal_status T. assert (live w <> true) as _ by congruence.
  destruct T as [-> | ->]; apply moves_end; try same_fields; simpl; try done; try lia; intros O; split; try done; apply (ok_finished _ O L).
Qed.

Lemma notify_moves now w : xw_Finalized w = true -> watch_moves w (w <| xw_Notified := true |> <| xw_UpdatedAt := Unix now |>).
Proof.
  intros F. split.
  - constructor; simpl; try done; lia.
  - intros []. by constructor.
Qed.

Lemma insert_group_watches g d d' : insert_group g d = Ok d' -> wx_watches d' = wx_watches d /\ wx_db d' = wx_db d.
Proof.
  unfold insert_group. destruct (existsb (group_clash g) _); [intros E; by simplify_eq|]. destruct (existsb _ _); [done|]. intros E; by simplify_eq.
Qed.

Lemma group_watches uuid now t p task run k mode n d :
  wx_watches (fst (ResolveOrCreateExternalWatchGroup uuid now t p task run k mode n d)) = wx_watches d.
Proof.
  unfold ResolveOrCreateExternalWatchGroup. destruct (_ || _); [done|]. destruct (negb _); [done|]. destruct (_ || _); [done|].
  destruct (insert_group _ d) as [d'|] eqn:I; [|done]. apply insert_group_watches in I as [I _].
  destruct (externalWatchGroupByKey _ _ _ _) as [g|]; [|done]. destruct (_ || _); [done|]. destruct (negb _); [done|].
  by destruct (_ <=? _).
Qed.

(** Every operation changes watchers only as [watch_moves] allows. *)
Lemma exec_watches new o d : keys_unique (wx_watches d) -> well_called o d ->
  (forall w, watch_new d w -> new (wx_watches d) w) ->
  evolves watch_moves new (wx_watches d) (wx_watches (exec_watch o d)).
Proof.
  intros U W N. destruct o; simpl in W |- *.
  - by apply create_evolves.
  - apply update_watches_evolves. intros w _ E. destruct (moves_claim now watch w) as [?|L]; [done|].
    by rewrite L, andb_false_r in E.
  - unfold RecordExternalWatchCheck. destruct (query_row _ _) as [x|] eqn:Q; [|constructor]. cbn [fst].
    apply update_watches_evolves. intros w Hw E. apply moves_checkpoint; try same_fields; simpl; try lia.
    intros O. split; [apply (ok_extended _ O)|]. assert (x = w) as ->; [|apply next_interval_bounds].
    apply find_some in Q as [Hx Q]. unfold running_watch, xwatch_at in Q, E.
    apply andb_true_iff in Q as [[_ Q]%andb_true_iff _], E as [[_ E]%andb_true_iff _]. apply String.eqb_eq in Q, E.
    apply (keys_unique_inj _ _ _ U Hx Hw). unfold key, ExternalWatch_keyed. congruence.
  - apply update_watches_evolves. intros w _ _. apply moves_checkpoint; try same_fields; simpl; try lia. intros []; lia.
  - unfold RecordExternalWatchFailure. destruct (query_row _ _) as [x|]; cbn [fst]; apply update_watches_evolves;
      intros w _ _; apply moves_checkpoint; try same_fields; simpl; try lia; intros []; lia.
  - apply update_watches_evolves. intros w _ E. apply andb_true_iff in E as [_ E]. apply Z.eqb_eq in E.
    apply moves_checkpoint; try same_fields; simpl; try lia. intros []; lia.
  - unfold FinishExternalWatch. destruct (negb _) eqn:St; [constructor|]. apply negb_false_iff in St. cbn [cas_watch fst].
    apply update_watches_evolves. intros w _ [_ L]%andb_true_iff. apply finish_moves; [done|]. by apply existsb_exists in St as (x & ? & ->%String.eqb_eq).
  - unfold ReviseExternalWatchVerdict. destruct (negb _) eqn:St; [constructor|]. apply negb_false_iff in St. cbn [cas_watch fst].
    apply update_watches_evolves. intros w _ [_ E]%andb_true_iff. apply String.eqb_eq in E. apply revise_moves; [by rewrite E|by apply revise_status].
  - apply update_watches_evolves. intros w Hw [E _]%andb_true_iff. pose proof (W w Hw E) as L.
    apply moves_end; try same_fields; simpl; try done; [|]; intros O; [|apply (ok_cancelled _ O)].
    split; [apply (ok_status _ O)|apply (ok_finished _ O L)].
  - apply update_watches_evolves. intros w _ [[_ F]%andb_true_iff _]%andb_true_iff.
    apply notify_moves, F.
  - unfold CancelExternalWatchForPerson. destruct (query_row _ _) as [x|]; [|constructor]. destruct (negb _); [constructor|]. cbn [fst].
    apply (update_watches_evolves _ _ _ d). intros w _ [_ L]%andb_true_iff. apply moves_end; try same_fields; try done. by rewrite L.
  - unfold MarkExternalWatchRunBlocked. destruct (_ =? _)%string; constructor.
  - rewrite group_watches. constructor.
  - apply settle_trigger_evolves.
  - constructor.
Qed.

(** ** Groups from step to step *)

Definition same_group (g g' : ExternalWatchGroup) : Prop :=
  xg_ID g' = xg_ID g /\ xg_TenantID g' = xg_TenantID g /\ xg_PersonID g' = xg_PersonID g /\ xg_TaskID g' = xg_TaskID g /\
  xg_RunID g' = xg_RunID g /\ xg_GroupKey g' = xg_GroupKey g /\ xg_Mode g' = xg_Mode g /\ xg_ExpectedCount g' = xg_ExpectedCount g /\
  xg_CreatedAt g' = xg_CreatedAt g.

(** A settled group is final. *)
Definition group_step (g g' : ExternalWatchGroup) : Prop := same_group g g' /\ (xg_Status g <> ExternalWatchPending -> g' = g).

Definition group_added (t : list ExternalWatchGroup) (g : ExternalWatchGroup) : Prop :=
  xg_Status g = ExternalWatchPending /\ xg_ID g <> "" /\ lookup_key (key g) t = None.

Lemma group_step_refl g : group_step g g.
Proof. split; [same_fields|done]. Qed.

Lemma group_step_trans x y z : group_step x y -> group_step y z -> group_step x z.
Proof.
  intros [S1 F1] [S2 F2]. split; [unfold same_group in *; intuition congruence|]. intros N. pose proof (F1 N). subst y. by apply F2.
Qed.

Lemma settle_group_step s trigger now g : xg_Status g = ExternalWatchPending ->
  group_step g (g <| xg_Status := s |> <| xg_WinnerWatchID := trigger |> <| xg_UpdatedAt := Unix now |> <| xg_FinishedAt := Unix now |>).
Proof. intros P. split; [same_fields|done]. Qed.

Lemma insert_group_evolves new g d d' : xg_Status g = ExternalWatchPending -> xg_ID g <> "" ->
  (forall g, group_added (wx_groups d) g -> new (wx_groups d) g) -> insert_group g d = Ok d' ->
  evolves group_step new (wx_groups d) (wx_groups d').
Proof.
  intros P E New. unfold insert_group. destruct (existsb (group_clash g) _); [intros H; simplify_eq; constructor|].
  destruct (existsb _ _) eqn:X; [done|]. intros H. simplify_eq. apply evolves_insert, New. split; [done|]. split; [done|].
  apply lookup_key_None. intros r Hr. pose proof (existsb_false_In _ _ _ X Hr) as N. by apply String.eqb_neq in N.
Qed.

Lemma exec_groups new o d : (forall g, group_added (wx_groups d) g -> new (wx_groups d) g) ->
  evolves group_step new (wx_groups d) (wx_groups (exec_watch o d)).
Proof.
  intros New. destruct o; simpl; try constructor.
  - unfold CreateExternalWatch. destruct (_ || _); [constructor|]. repeat case_match; constructor.
  - unfold RecordExternalWatchCheck. destruct (query_row _ _); constructor.
  - unfold RecordExternalWatchFailure. destruct (query_row _ _); constructor.
  - unfold FinishExternalWatch. destruct (negb _); constructor.
  - unfold ReviseExternalWatchVerdict. destruct (negb _); constructor.
  - unfold CancelExternalWatchForPerson. destruct (query_row _ _); [destruct (negb _)|]; constructor.
  - unfold MarkExternalWatchRunBlocked. destruct (_ =? _)%string; constructor.
  - unfold ResolveOrCreateExternalWatchGroup. destruct (_ || _); [constructor|]. destruct (negb _); [constructor|].
    destruct (_ || _); [constructor|]. destruct (insert_group _ d) as [d'|] eqn:I; [|constructor].
    assert (evolves group_step new (wx_groups d) (wx_groups d')) as Ev by (by apply (insert_group_evolves new) in I).
    destruct (externalWatchGroupByKey _ _ _ _) as [g|]; [|done]. destruct (_ || _); [done|]. destruct (negb _); [done|]. by destruct (_ <=? _).
  - unfold ResolveExternalWatchGroup. destruct (blank groupID); [constructor|]. destruct (query_row _ _) as [g|]; [|constructor].
    destruct (negb (xg_Status g =? _)%string); cbn [fst].
    + destruct (_ && _); constructor.
    + destruct (group_verdict now g d) as [s|]; [|constructor]. cbn [fst].
      match goal with |- context [update_where ?c ?f (wx_groups d)] =>
        assert (evolves group_step new (wx_groups d) (update_where c f (wx_groups d))) as Ev end.
      { apply evolves_update; [apply group_step_refl|]. intros x _ [_ P%String.eqb_eq]%andb_true_iff. by apply settle_group_step. }
      by destruct (_ =? 1)%Z.
Qed.

(** ** Histories *)

Record watch_wf (d : WatchDB) : Prop := {
  wwf_ids : keys_unique (wx_watches d);
  wwf_groups : keys_unique (wx_groups d);
  wwf_rows : Forall watch_ok (wx_watches d);
  wwf_view : db_watches (wx_db d) = map watch_row (wx_watches d) }.

Lemma moves_key w w' : watch_moves w w' -> key w' = key w.
Proof. by intros [[(E & _)] _]. Qed.

Lemma group_step_key g g' : group_step g g' -> key g' = key g.
Proof. by intros [(E & _) _]. Qed.

Lemma exec_added o d : keys_unique (wx_watches d) -> well_called o d ->
  evolves watch_moves watch_added (wx_watches d) (wx_watches (exec_watch o d)).
Proof. intros U W. apply exec_watches; [done..|by intros w []]. Qed.

Lemma exec_view o d : db_watches (wx_db d) = map watch_row (wx_watches d) ->
  db_watches (wx_db (exec_watch o d)) = map watch_row (wx_watches (exec_watch o d)).
Proof.
  intros V. destruct o; simpl; try done.
  - unfold CreateExternalWatch. destruct (_ || _); [done|]. repeat case_match; try done. simpl.
    unfold promoteThreadForControlObjectTx, execPromoteThreadForRunTx. destruct (blank _); [done|]. by destruct (query_row _ _).
  - unfold RecordExternalWatchCheck. by destruct (query_row _ _).
  - unfold RecordExternalWatchFailure. by destruct (query_row _ _).
  - unfold FinishExternalWatch. by destruct (negb _).
  - unfold ReviseExternalWatchVerdict. by destruct (negb _).
  - unfold CancelExternalWatchForPerson. destruct (query_row _ _); [|done]. by destruct (negb _).
  - unfold MarkExternalWatchRunBlocked. by destruct (_ =? _)%string.
  - unfold ResolveOrCreateExternalWatchGroup. destruct (_ || _); [done|]. destruct (negb _); [done|]. destruct (_ || _); [done|].
    destruct (insert_group _ d) as [d'|] eqn:I; [|done]. apply insert_group_watches in I as [I1 I2].
    assert (db_watches (wx_db d') = map watch_row (wx_watches d')) as K by (by rewrite I1, I2).
    destruct (externalWatchGroupByKey _ _ _ _) as [g|]; [|done]. destruct (_ || _); [done|]. destruct (negb _); [done|]. by destruct (_ <=? _).
  - unfold ResolveExternalWatchGroup. destruct (blank groupID); [done|]. destruct (query_row _ _) as [g|]; [|done].
    destruct (negb (xg_Status g =? _)%string); cbn [fst]; [by destruct (_ && _)|]. destruct (group_verdict now g d) as [s|]; [|done].
    cbn [fst]. by destruct (_ =? 1)%Z.
Qed.

Lemma exec_wf o d : well_called o d -> watch_wf d -> watch_wf (exec_watch o d).
Proof.
  intros W [U G R V]. pose proof (exec_added o d U W) as E. pose proof (exec_groups group_added o d (fun g H => H)) as EG. constructor.
  - refine (evolves_keys_unique watch_moves watch_added moves_key _ _ _ E U). by intros t r [].
  - refine (evolves_keys_unique group_step group_added group_step_key _ _ _ EG G). by intros t r (_ & _ & ?).
  - refine (evolves_Forall watch_moves watch_added watch_ok _ _ _ _ E R); [by intros r r' [_ K]|by intros t r []].
  - by apply exec_view.
Qed.

Lemma steps_watch_wf d d' : watch_steps d d' -> watch_wf d -> watch_wf d'.
Proof. induction 1 as [|d1 o H IH W]; [done|]. intros K. apply exec_wf; [done|by apply IH]. Qed.

Lemma steps_watches d d' : watch_wf d -> watch_steps d d' -> evolves watch_moves watch_added (wx_watches d) (wx_watches d').
Proof.
  intros W H. induction H as [|d1 o H IH C]; [constructor|]. eapply evolves_trans; [exact IH|].
  apply exec_added; [|done]. by apply (wwf_ids _ (steps_watch_wf _ _ H W)).
Qed.

Lemma steps_groups d d' : watch_steps d d' -> evolves group_step group_added (wx_groups d) (wx_groups d').
Proof. induction 1 as [|d1 o H IH C]; [constructor|]. eapply evolves_trans; [exact IH|by apply exec_groups]. Qed.

Lemma watch_steps_trans d1 d2 d3 : watch_steps d1 d2 -> watch_steps d2 d3 -> watch_steps d1 d3.
Proof. intros H. induction 1 as [|d o _ IH W]; [done|]. by apply watch_more. Qed.

(** A watcher keeps its row. *)
Lemma steps_watch d d' k w : watch_wf d -> watch_steps d d' -> lookup_key k (wx_watches d) = Some w ->
  exists w', lookup_key k (wx_watches d') = Some w' /\ watch_moves w w'.
Proof. intros W H L. exact (evolves_lookup watch_moves watch_added watch_moves_refl moves_key _ _ _ _ watch_moves_trans (steps_watches _ _ W H) L). Qed.
