(* ===== verification/WatchGuarantees.v ===== *)
(** * What external watches guarantee

    The statements over whole histories: rows stay well formed, a verdict has one
    finalization, a group one winner and never more members than it declared, and a
    cancelled watcher never leaves its Run waiting for nobody. *)

From stdpp Require Import base tactics list strings.
From Stdlib Require Import ZArith Lia Bool Ascii String List.
From S2P Require Import Prelude GoLib GoStrings Sql Evolution Admission Store Maintenance Database Effects EffectRelease Watches WatchTheory.

(** ** Rows *)

Lemma won_row {R} (c : R -> bool) t : (rows_affected c t =? 1)%Z = true -> exists r, In r t /\ c r = true.
Proof. intros E%Z.eqb_eq. apply rows_affected_pos. lia. Qed.

Lemma lost_row {R} (c : R -> bool) t : (forall r, In r t -> c r = false) -> (rows_affected c t =? 1)%Z = false.
Proof. intros H. unfold rows_affected. by rewrite filter_all_false. Qed.

Lemma xwatch_id t id w : xwatch_at t id w = true -> key w = id.
Proof. by intros [_ E%String.eqb_eq]%andb_true_iff. Qed.

Lemma xwatch_step t id w w' : watch_moves w w' -> xwatch_at t id w' = xwatch_at t id w.
Proof. intros [[(E1 & E2 & _)] _]. unfold xwatch_at. by rewrite E1, E2. Qed.

Lemma member_step t g w w' : watch_moves w w' -> member t g w' = member t g w /\ (versioned w' <-> versioned w) /\ xw_ID w' = xw_ID w.
Proof. intros [[S] _]. destruct S as (? & E1 & ? & ? & ? & ? & ? & E2 & E3 & _). unfold member, versioned. by rewrite E1, E2, E3. Qed.

(** What [MarkExternalWatchFinalized] did when it won. *)
Lemma finalized_row now t id d d' : keys_unique (wx_watches d) -> MarkExternalWatchFinalized now t id d = (d', true) ->
  exists w, lookup_key id (wx_watches d) = Some w /\ xwatch_at t id w = true /\
    lookup_key id (wx_watches d') = Some (w <| xw_Finalized := true |> <| xw_UpdatedAt := Unix now |>).
Proof.
  intros U E. unfold MarkExternalWatchFinalized, cas_watch in E. injection E as <- W.
  apply won_row in W as (w & Hw & C). exists w. pose proof C as X. apply andb_true_iff in X as [A _]. pose proof (xwatch_id _ _ _ A) as K.
  assert (lookup_key id (wx_watches d) = Some w) as L by (rewrite <- K; by apply lookup_key_In).
  split; [done|]. split; [done|]. unfold update_watches. rewrite watches_set, lookup_update, L by done. simpl. by rewrite C.
Qed.

(** ** Groups *)

Lemma group_at_id t g x : group_at t g x = true -> key x = g.
Proof. by intros [_ E%String.eqb_eq]%andb_true_iff. Qed.

Lemma group_id_step t g x x' : group_step x x' -> group_at t g x' = group_at t g x.
Proof. intros [(E1 & E2 & _) _]. unfold group_at. by rewrite E1, E2. Qed.

(** The settled group and its members, as every later state has them. *)
Record settled (g : ExternalWatchGroup) (d : WatchDB) : Prop := {
  st_group : lookup_key (xg_ID g) (wx_groups d) = Some g;
  st_members : forall w, In w (wx_watches d) -> member (xg_TenantID g) (xg_ID g) w = true -> versioned w ->
                 xw_ID w <> xg_WinnerWatchID g -> live w = false }.

Lemma settled_group g d d' : xg_Status g <> ExternalWatchPending ->
  evolves group_step group_added (wx_groups d) (wx_groups d') -> lookup_key (xg_ID g) (wx_groups d) = Some g ->
  lookup_key (xg_ID g) (wx_groups d') = Some g.
Proof.
  intros P E L.
  destruct (evolves_lookup group_step group_added group_step_refl group_step_key _ _ _ _ group_step_trans E L) as (g' & L' & _ & F).
  by rewrite L', (F P).
Qed.

Lemma exec_settled g o d : xg_Status g <> ExternalWatchPending -> xg_ID g <> "" -> well_called o d -> watch_wf d ->
  settled g d -> settled g (exec_watch o d).
Proof.
  intros P N C W [G M]. constructor; [by apply (settled_group g d), G; [|apply exec_groups]|].
  set (Q := fun w => member (xg_TenantID g) (xg_ID g) w = true -> versioned w -> xw_ID w <> xg_WinnerWatchID g -> live w = false).
  assert (evolves watch_moves (fun _ w => watch_new d w) (wx_watches d) (wx_watches (exec_watch o d))) as E.
  { apply exec_watches; [apply (wwf_ids _ W)|done..]. }
  assert (Forall Q (wx_watches (exec_watch o d))) as K.
  { refine (evolves_Forall watch_moves (fun _ w => watch_new d w) Q _ _ _ _ E _).
    - intros w w' S Hw Mb V I. destruct (member_step (xg_TenantID g) (xg_ID g) _ _ S) as (E1 & E2 & E3).
      apply (ws_terminal _ _ (proj1 S)). rewrite E1 in Mb. rewrite E2 in V. rewrite E3 in I. by apply Hw.
    - intros _ w [_ A] Mb V _. exfalso. apply andb_true_iff in Mb as [_ Mb%String.eqb_eq].
      destruct (A V ltac:(congruence)) as (x & Hx & O). unfold group_open in O. reflect_bools.
      assert (key x = key g) as Ek by (unfold key, ExternalWatchGroup_keyed; congruence).
      apply lookup_key_Some in G as [Hg _]. pose proof (keys_unique_inj _ _ _ (wwf_groups _ W) Hx Hg Ek). by subst x.
    - by apply List.Forall_forall. }
  intros w Hw. by apply List.Forall_forall with (x := w) in K.
Qed.

Lemma steps_settled g d d' : xg_Status g <> ExternalWatchPending -> xg_ID g <> "" -> watch_wf d -> watch_steps d d' ->
  settled g d -> settled g d'.
Proof.
  intros P N W H S. induction H as [|d1 o H IH C]; [done|]. apply exec_settled; [done..| |done]. by apply (steps_watch_wf d).
Qed.

(** A watch that is not live stays where it is, and is never live again. *)
Definition ended (id : string) (d : WatchDB) : Prop := exists w, lookup_key id (wx_watches d) = Some w /\ live w = false.

Lemma steps_ended id d d' : watch_wf d -> watch_steps d d' -> ended id d -> ended id d'.
Proof.
  intros W H E. induction H as [|d1 o H (w & L & N) C]; [done|].
  pose proof (exec_watches (fun _ w => watch_new d1 w) o d1 (wwf_ids _ (steps_watch_wf _ _ H W)) C (fun w H => H)) as Ev.
  destruct (evolves_lookup _ _ watch_moves_refl (fun w w1 S => proj2 (proj2 (member_step "" "" w w1 S))) _ _ _ _ watch_moves_trans Ev L) as (w' & L' & S).
  exists w'. split; [done|]. by apply (ws_terminal _ _ (proj1 S)).
Qed.

(** The verdict is never a live status. *)
Lemma verdict_terminal now g d s : group_verdict now g d = Some s -> one_of [ExternalWatchSucceeded; ExternalWatchFailed; ExternalWatchBlocked] s = true.
Proof.
  unfold group_verdict. destruct (_ && _ && _); [done|]. destruct (_ && _); [intros H; by simplify_eq|].
  destruct (xg_Mode g =? _)%string; repeat case_if; intros H; by simplify_eq.
Qed.

Lemma settle_done now w : live (settle_member now w) = false /\ xw_Finalized (settle_member now w) = true /\ xw_Notified (settle_member now w) = true.
Proof. unfold settle_member. destruct (live w) eqn:L; [done|]. by unfold live, status_in in *. Qed.

Lemma settle_same now t g w : member t g (settle_member now w) = member t g w /\ xw_ID (settle_member now w) = xw_ID w.
Proof. unfold settle_member. by destruct (live w). Qed.

(** What [ResolveExternalWatchGroup] did when it won. *)
Lemma resolve_won now t gid trigger d d' r : watch_wf d -> ResolveExternalWatchGroup now t gid trigger d = (d', r) -> gr_Won r = true ->
  exists g g', lookup_key gid (wx_groups d) = Some g /\ xg_Status g = ExternalWatchPending /\ group_verdict now g d = Some (gr_Status r) /\
    group_step g g' /\ xg_ID g' = gid /\ gid <> "" /\ xg_Status g' = gr_Status r /\ xg_WinnerWatchID g' = trigger /\
    xg_Status g' <> ExternalWatchPending /\ settled g' d' /\
    (forall w, In w (wx_watches d') -> member (xg_TenantID g) gid w = true -> xw_ID w <> trigger -> live w = false /\ xw_Finalized w = true /\ xw_Notified w = true).
Proof.
  intros W. unfold ResolveExternalWatchGroup. destruct (blank gid) eqn:B; [intros E ?; by simplify_eq|].
  assert (gid <> "") as N by (intros ->; by vm_compute in B).
  destruct (query_row _ _) as [g|] eqn:Q; [|intros E ?; by simplify_eq]. destruct (negb _) eqn:P; [intros E ?; by simplify_eq|].
  apply negb_false_iff, String.eqb_eq in P. destruct (group_verdict now g d) as [s|] eqn:V; [|intros E ?; by simplify_eq].
  destruct (_ =? 1)%Z eqn:Wn; intros E Wo; simplify_eq. cbn [gr_Status].
  unfold query_row in Q. apply find_some in Q as [Hg A]. pose proof (group_at_id _ _ _ A) as K. change (xg_ID g = gid) in K.
  assert (lookup_key gid (wx_groups d) = Some g) as L by (rewrite <- K; by apply (lookup_key_In (wx_groups d) g (wwf_groups _ W))).
  set (g' := g <| xg_Status := s |> <| xg_WinnerWatchID := trigger |> <| xg_UpdatedAt := Unix now |> <| xg_FinishedAt := Unix now |>).
  exists g, g'. pose proof (verdict_terminal _ _ _ _ V) as T. pose proof A as [At%String.eqb_eq _]%andb_true_iff.
  assert (forall w, In w (update_where (fun w => member (normalizeTenant t) gid w && negb (xw_ID w =? trigger)%string) (settle_member now) (wx_watches d)) ->
    member (xg_TenantID g) gid w = true -> xw_ID w <> trigger -> live w = false /\ xw_Finalized w = true /\ xw_Notified w = true) as M.
  { intros w (w0 & H0 & ->)%In_update_where Mb I. destruct (_ && _) eqn:C; [apply settle_done|]. exfalso.
    rewrite At in Mb. rewrite Mb in C. apply negb_false_iff, String.eqb_eq in C. done. }
  split; [done|]. split; [done|]. split; [done|]. split; [by apply settle_group_step|]. do 4 (split; [done|]).
  split; [simpl; intros ->; by vm_compute in T|]. split.
  - constructor.
    + change (xg_ID g') with (xg_ID g). rewrite K. change (lookup_key gid (update_where (fun x => group_at (normalizeTenant t) gid x && (xg_Status x =? ExternalWatchPending)%string)
        (fun x => x <| xg_Status := s |> <| xg_WinnerWatchID := trigger |> <| xg_UpdatedAt := Unix now |> <| xg_FinishedAt := Unix now |>) (wx_groups d)) = Some g').
      rewrite lookup_update, L by done. simpl. by rewrite A, P.
    + intros w Hw Mb _ I. simpl in Mb, I. rewrite K in Mb. by apply (M w).
  - intros w Hw Mb I. by apply (M w).
Qed.

(** ** Declared members *)

Definition versioned_b (w : ExternalWatch) : bool := (ExternalWatchContinuationReceiptVersion <=? rc_Version (xw_PreflightReceipt w))%Z.
Definition registered (t g : string) (ws : list ExternalWatch) : nat := length (List.filter (fun w => member t g w && versioned_b w) ws).

(** Every versioned member has its group, which counts it. *)
Record counted (d : WatchDB) : Prop := {
  cn_grouped : forall w, In w (wx_watches d) -> versioned w -> xw_WaitGroupID w <> "" -> lookup_key (xw_WaitGroupID w) (wx_groups d) <> None;
  cn_bound : forall g, In g (wx_groups d) -> xg_ID g <> "" /\ (registered (xg_TenantID g) (xg_ID g) (wx_watches d) <= xg_ExpectedCount g)%nat }.

Lemma registered_map t g f ws : (forall w, In w ws -> watch_moves w (f w)) -> registered t g (map f ws) = registered t g ws.
Proof.
  intros H. unfold registered. induction ws as [|w ws IH]; [done|]. simpl. destruct (member_step t g _ _ (H w (or_introl eq_refl))) as (-> & V & _).
  assert (versioned_b (f w) = versioned_b w) as ->.
  { unfold versioned, versioned_b in *. apply eq_true_iff_eq. by rewrite !Z.leb_le. }
  destruct (_ && _); simpl; rewrite IH; auto; intros x Hx; apply H; by right.
Qed.

Lemma registered_app t g ws w : registered t g (ws ++ [w]) = (registered t g ws + if member t g w && versioned_b w then 1 else 0)%nat.
Proof. unfold registered. rewrite filter_app, length_app. simpl. by destruct (_ && _). Qed.

(** One operation inserts at most one watcher. *)
Lemma evolves_once d ws : evolves watch_moves (fun t w => t = wx_watches d /\ watch_new d w) (wx_watches d) ws ->
  (length ws = length (wx_watches d) /\ forall t g, registered t g ws = registered t g (wx_watches d)) \/
  exists w, watch_new d w /\ length ws = S (length (wx_watches d)) /\ forall t g, registered t g ws = registered t g (wx_watches d ++ [w]).
Proof.
  induction 1 as [|f ws' E [[L IH]|(w & N & L & IH)] H|w ws' E IH [-> N]].
  - by left.
  - left. rewrite length_map. split; [done|]. intros t g. by rewrite registered_map.
  - right. exists w. rewrite length_map. split; [done|]. split; [done|]. intros t g. by rewrite registered_map.
  - right. exists w. rewrite length_app. simpl. repeat split; [apply N..|]. lia.
Qed.

Lemma registered_members t g d : (registered t g (wx_watches d) <= length (members t g d))%nat.
Proof.
  unfold registered, members, select_where. induction (wx_watches d) as [|w ws IH]; [done|]. simpl. destruct (member t g w); simpl; [destruct (versioned_b w); simpl|]; lia.
Qed.

Lemma grouped_step (g : list ExternalWatchGroup) d ws : counted d -> evolves watch_moves (fun t w => t = wx_watches d /\ watch_new d w) (wx_watches d) ws ->
  (forall k, lookup_key k (wx_groups d) <> None -> lookup_key k g <> None) ->
  forall w, In w ws -> versioned w -> xw_WaitGroupID w <> "" -> lookup_key (xw_WaitGroupID w) g <> None.
Proof.
  intros [C _] E K w Hw V N. apply K.
  assert (forall w0, watch_moves w0 w -> versioned w0 /\ xw_WaitGroupID w0 = xw_WaitGroupID w) as S.
  { intros w0 M. split; [by apply (member_step "" "" _ _ M)|]. destruct M as [[(?&?&?&?&?&?&?&?&E2&_)] _]. by rewrite E2. }
  destruct (evolves_origin _ _ watch_moves_refl _ _ _ watch_moves_trans E Hw) as [(w0 & H0 & M)|(t0 & w0 & [-> [_ A]] & M)]; destruct (S _ M) as [V0 I].
  - rewrite <- I in *. by apply C.
  - rewrite <- I in *. destruct (A V0 N) as (x & Hx & O). intros L. rewrite lookup_key_None in L. apply (L x Hx).
    unfold group_open in O. unfold key, ExternalWatchGroup_keyed. by reflect_bools.
Qed.

Lemma exec_counted o d : well_called o d -> keys_unique (wx_watches d) -> keys_unique (wx_groups d) -> counted d -> counted (exec_watch o d).
Proof.
  intros W U G C.
  pose proof (exec_watches (fun t w => t = wx_watches d /\ watch_new d w) o d U W (fun w H => conj eq_refl H)) as E.
  pose proof (exec_groups (fun t g => t = wx_groups d /\ group_added t g) o d (fun w H => conj eq_refl H)) as EG. constructor.
  - apply (grouped_step _ _ _ C E). intros k L. destruct (lookup_key k (wx_groups d)) as [x|] eqn:Lx; [|done].
    destruct (evolves_lookup _ _ group_step_refl group_step_key _ _ _ _ group_step_trans EG Lx) as (x' & -> & _). done.
  - intros g' Hg'. destruct (evolves_origin _ _ group_step_refl _ _ _ group_step_trans EG Hg') as [(g & Hg & S)|(t0 & g & [-> (_ & N & F)] & S)];
      destruct S as [(E1 & E2 & _ & _ & _ & _ & _ & E3 & _) _]; rewrite E1, E2, E3.
    + destruct (cn_bound _ C g Hg) as [N B]. split; [done|]. destruct (evolves_once _ _ E) as [[_ ->]|(w & [_ A] & _ & ->)]; [done|].
      rewrite registered_app. destruct (_ && _) eqn:Mb; [|lia]. apply andb_true_iff in Mb as [[T%String.eqb_eq I%String.eqb_eq]%andb_true_iff V%Z.leb_le].
      destruct (A V ltac:(by rewrite I)) as (x & Hx & O). unfold group_open in O. apply andb_true_iff in O as [O L%Nat.ltb_lt]. reflect_bools.
      assert (x = g) as -> by (apply (keys_unique_inj _ _ _ G Hx Hg); unfold key, ExternalWatchGroup_keyed; congruence).
      pose proof (registered_members (xg_TenantID g) (xg_ID g) d). lia.
    + split; [done|]. enough (registered (xg_TenantID g) (xg_ID g) (wx_watches (exec_watch o d)) = 0)%nat by lia.
      unfold registered. rewrite filter_all_false; [done|]. intros w Hw. destruct (member _ _ w) eqn:Mb; [|done]. simpl.
      destruct (versioned_b w) eqn:V; [|done]. apply Z.leb_le in V. apply andb_true_iff in Mb as [_ I%String.eqb_eq]. exfalso.
      apply (grouped_step (wx_groups d) d _ C E (fun k L => L) w Hw V); rewrite I; done.
Qed.

Lemma steps_counted d d' : watch_wf d -> watch_steps d d' -> counted d -> counted d'.
Proof.
  intros W H C. induction H as [|d1 o H IH Wc]; [done|]. pose proof (steps_watch_wf _ _ H W) as [U G _ _]. by apply exec_counted.
Qed.

(** The group behind an [all] success. *)
Lemma all_succeeded now g d : group_verdict now g d = Some ExternalWatchSucceeded -> xg_Mode g = ExternalWatchGroupAll ->
  length (List.filter (status_in [ExternalWatchSucceeded]) (members (xg_TenantID g) (xg_ID g) d)) = xg_ExpectedCount g /\
  forall w, In w (members (xg_TenantID g) (xg_ID g) d) -> status_in failed_statuses w = false.
Proof.
  unfold group_verdict. intros H M. rewrite M in H.
  change (ExternalWatchGroupAll =? ExternalWatchGroupAny)%string with false in H. cbv iota in H. destruct (_ && _ && _); [done|]. destruct (_ && _); [discriminate H|].
  destruct (0 <? _)%nat eqn:F; [discriminate H|]. destruct (_ && _) eqn:S; [|done]. apply andb_true_iff in S as [_ S%Nat.eqb_eq].
  split; [done|]. intros w Hw. destruct (status_in failed_statuses w) eqn:X; [|done]. exfalso.
  apply Nat.ltb_ge in F. unfold count_status in F.
  assert (In w (List.filter (status_in failed_statuses) (members (xg_TenantID g) (xg_ID g) d))) as I by by apply filter_In.
  destruct (List.filter (status_in failed_statuses) _); simpl in *; [done|lia].
Qed.

(** As many rows as satisfy a condition: all of them. *)
Lemma filter_full {R} (p : R -> bool) l : (length l <= length (List.filter p l))%nat -> forall x, In x l -> p x = true.
Proof.
  induction l as [|y l IH]; simpl; [done|]. pose proof (filter_length_le p l) as F. destruct (p y) eqn:E; simpl; intros H x [<-|Hx]; try done; try lia.
  apply IH; [lia|done].
Qed.

Lemma registered_all t g d : (forall w, In w (members t g d) -> versioned w) -> registered t g (wx_watches d) = length (members t g d).
Proof.
  unfold registered, members, select_where. intros V. f_equal. apply filter_ext_in. intros w Hw. destruct (member t g w) eqn:M; [|done].
  simpl. apply Z.leb_le, V. by apply filter_In.
Qed.

(** ** A cancelled watcher *)

(** What [CancelExternalWatchForPerson] did when it won. *)
Lemma cancel_won now t p id d d' : CancelExternalWatchForPerson now t p id d = (d', true) ->
  exists watch c, In watch (wx_watches d) /\ c = (fun w => owned_watch t (TrimSpace p) w && (xw_ID w =? TrimSpace id)%string && live w) /\
    (exists w, In w (wx_watches d) /\ c w = true) /\ owned_watch t (TrimSpace p) watch = true /\ xw_ID watch = TrimSpace id /\
    wx_watches d' = update_where c (fun w => w <| xw_Status := ExternalWatchCancelled |> <| xw_LastError := "cancelled by user" |> <| xw_Finalized := true |>
                      <| xw_Notified := true |> <| xw_FinishedAt := Some (Unix now) |> <| xw_UpdatedAt := Unix now |>) (wx_watches d) /\
    db_runs (wx_db d') =
      (if existsb (fun w => owned_watch t (TrimSpace p) w && (xw_RunID w =? xw_RunID watch)%string && live w) (wx_watches d')
       then db_runs (wx_db d)
       else update_where (fun r => run_at (normalizeTenant t) (xw_RunID watch) r && (run_person_id r =? TrimSpace p)%string
                               && (run_status r =? "waiting_external")%string)
              (fun r => r <| run_status := "waiting_user" |> <| run_attention_dismissed_at := 0%Z |>) (db_runs (wx_db d))).
Proof.
  unfold CancelExternalWatchForPerson. destruct (query_row _ _) as [watch|] eqn:Q; [|done]. destruct (negb _) eqn:Wn; [done|].
  intros E. injection E as <-. apply negb_false_iff, won_row in Wn. unfold query_row in Q. apply find_some in Q as [Hw A].
  apply andb_true_iff in A as [O I%String.eqb_eq]. eexists watch, _. split; [exact Hw|]. split; [reflexivity|]. split; [exact Wn|]. split; [exact O|]. split; [exact I|]. split; reflexivity.
Qed.

(** An unchanged output is answered with a shorter wait when the interval asked for is
    longer than a minute. *)
Lemma unchanged_output_polls_faster w hash : (60 < xw_IntervalSeconds w)%Z -> xw_LastOutputHash w <> "" ->
  next_interval w (xw_LastOutputHash w) = 60%Z /\ (hash <> xw_LastOutputHash w -> xw_IntervalSeconds w <= next_interval w hash)%Z.
Proof.
  intros I N. apply String.eqb_neq in N. unfold next_interval. rewrite N, String.eqb_refl. simpl.
  destruct (xw_IntervalSeconds w <? 5)%Z eqn:B; [apply Z.ltb_lt in B; lia|]. split.
  - destruct (xw_CurrentIntervalSeconds w <? _)%Z eqn:C; [|apply Z.ltb_ge in C]; destruct (60 <? _)%Z eqn:D; try done; apply Z.ltb_ge in D; lia.
  - intros H. apply not_eq_sym, String.eqb_neq in H. rewrite H, ?andb_false_r. lia.
Qed.

(** ** A scenario *)

Definition watch_start (runs : list Run) : WatchDB :=
  mkWatchDB (mkDB runs [] [] [] [] [] [] [] [] [] [] [] [] [] [] (mkMaintState [] [] []) [] 0) [] [] [].
Definition pair_receipt : WatchReceipt := mkReceipt 2 "" "" "" "" "" [] "" "" "" "".
Definition pair_request (command : string) : ExternalWatch :=
  mkExternalWatch "" "" "alice" "ws" "thread" "run" "cli" "" "/w" command (mkWatchSpec "done" "" 0 "" "" "" "") pair_receipt
    "watchgroup_g" "" "" "" "" 30 30 30 0 0 0 0 (mkWatchBinding 0 "" "" "" "" "") (mkWatchEnvironment "" 0 "" "" "") 1 false false
    "" "" "" "" "" 0 0 0 None 0.

(** A pair of watchers of one Run, both of which succeed. *)
Definition pair_ops : list watch_op :=
  [WGroup "g" (10 * Second)%Z "" "alice" "thread" "run" "pair" "all" 2;
   WCreate "1" (11 * Second)%Z 0%Z (pair_request "check a"); WCreate "2" (11 * Second)%Z 0%Z (pair_request "check b");
   WClaim (12 * Second)%Z ((pair_request "check a") <| xw_ID := "watch_1" |>);
   WFinish (13 * Second)%Z "" "watch_1" "succeeded" "done" ""; WFinish (14 * Second)%Z "" "watch_2" "succeeded" "done" ""].
Definition pair_done : WatchDB := fold_left (fun d o => exec_watch o d) pair_ops (watch_start []).

Lemma watch_start_wf runs : watch_wf (watch_start runs).
Proof. constructor; try done; apply keys_unique_nil. Qed.

Lemma steps_fold ops d : (forall o d, In o ops -> well_called o d) -> watch_steps d (fold_left (fun d o => exec_watch o d) ops d).
Proof.
  revert d. induction ops as [|o ops IH]; intros d C; [constructor|]. simpl. eapply watch_steps_trans.
  - apply watch_more; [constructor|]. apply C. by left.
  - apply IH. intros o' d' H. apply C. by right.
Qed.

Lemma pair_history : watch_steps (watch_start []) pair_done.
Proof. apply steps_fold. intros o d H. by repeat (destruct H as [<-|H]; [done|]). Qed.

(** ** The guarantees *)

(** C35: every history of watcher operations keeps the watchers well formed: their ids and
    the groups' are unique, a status is one of the seven, a live watcher is not finalized
    and one that is not live has its finishing time, a notified one is finalized, a
    deadline is extended at most once, the polling interval stays between five seconds and
    the larger of a minute and what was asked for, a command gets between one and 120
    seconds and a stored verdict contract is valid; the daemon's other tables see the same
    watchers. *)
Theorem watch_wellformed d d' : watch_wf d -> watch_steps d d' -> watch_wf d'.
Proof. intros W H. by apply (steps_watch_wf d). Qed.

Lemma watch_wellformed_witness : watch_wf pair_done /\ map xw_Status (wx_watches pair_done) = ["succeeded"; "succeeded"].
Proof.
  split; [exact (watch_wellformed _ _ (watch_start_wf []) pair_history)|]. by vm_compute.
Defined.

(** a verdict is finalized once: after [MarkExternalWatchFinalized] won for a finished
    watcher, the watcher stays finalized in every later state until its verdict is
    revised, and a second call wins only after a revision. *)
Theorem verdict_finalized_once now now' t id d d1 d2 : watch_wf d -> well_called (WFinalized now t id) d ->
  MarkExternalWatchFinalized now t id d = (d1, true) -> watch_steps d1 d2 ->
  exists w1 w2, lookup_key id (wx_watches d1) = Some w1 /\ lookup_key id (wx_watches d2) = Some w2 /\ xw_Finalized w1 = true /\
    (xw_VerdictRevision w2 = xw_VerdictRevision w1 -> xw_Finalized w2 = true /\ xw_Status w2 = xw_Status w1) /\
    (snd (MarkExternalWatchFinalized now' t id d2) = true -> xw_VerdictRevision w1 < xw_VerdictRevision w2).
Proof.
  intros W C E H. pose proof (exec_wf (WFinalized now t id) d C W) as W1. change (watch_wf (fst (MarkExternalWatchFinalized now t id d))) in W1.
  rewrite E in W1. cbn [fst] in W1.
  destruct (finalized_row now t id d d1 (wwf_ids _ W) E) as (w & L & A & L1). pose proof L as [Hw _]%lookup_key_Some.
  pose proof (C w Hw A) as Lv. destruct (steps_watch d1 d2 id _ W1 H L1) as (w2 & L2 & [[_ _ _ Rv _ V] _]).
  eexists _, w2. split; [exact L1|]. split; [done|]. split; [done|]. simpl in *. split.
  - intros R. destruct (V Lv R) as (S & F & _). split; [by apply F|done].
  - intros Wn. apply won_row in Wn as (x & Hx & [Ax Fx]%andb_true_iff). pose proof (xwatch_id _ _ _ Ax) as K.
    pose proof (lookup_key_In _ _ (wwf_ids _ (steps_watch_wf _ _ H W1)) Hx) as Lx. rewrite K, L2 in Lx. simplify_eq.
    destruct (Nat.eq_dec (xw_VerdictRevision x) (xw_VerdictRevision w)) as [R|R]; [|lia].
    destruct (V Lv R) as (_ & F & _). by rewrite F in Fx.
Qed.

Lemma verdict_finalized_once_witness :
  let d1 := fst (MarkExternalWatchFinalized (15 * Second)%Z "" "watch_1" pair_done) in
  let d2 := exec_watch (WRevise (16 * Second)%Z "" "watch_1" "succeeded" "failed") d1 in
  exists w1 w2, lookup_key "watch_1" (wx_watches d1) = Some w1 /\ lookup_key "watch_1" (wx_watches d2) = Some w2 /\
    xw_VerdictRevision w1 < xw_VerdictRevision w2.
Proof.
  intros d1 d2.
  assert (well_called (WFinalized (15 * Second)%Z "" "watch_1") pair_done) as C.
  { intros w Hw _. assert (forallb (fun w => negb (live w)) (wx_watches pair_done) = true) as A by (by vm_compute).
    rewrite forallb_forall in A. by apply negb_true_iff, A. }
  pose proof (watch_more d1 d1 (WRevise (16 * Second)%Z "" "watch_1" "succeeded" "failed") (watch_none d1) eq_refl) as H.
  assert (MarkExternalWatchFinalized (15 * Second)%Z "" "watch_1" pair_done = (d1, true)) as E by (by vm_compute).
  destruct (verdict_finalized_once (15 * Second)%Z (17 * Second)%Z "" "watch_1" pair_done d1 d2
              (steps_watch_wf _ _ pair_history (watch_start_wf [])) C E H) as (w1 & w2 & L1 & L2 & _ & _ & F).
  exists w1, w2. split; [exact L1|]. split; [exact L2|]. apply F. by vm_compute.
Defined.

(** C18: a wait group has one winner: once [ResolveExternalWatchGroup] has settled a pending
    group, the group keeps its verdict and its winner for ever and no later call settles it
    again; at the settlement every other member is finalized and notified, so that only
    the winner wakes the Run, and none of them is ever live again. No watcher with a
    versioned receipt that joins later is live either; one without it may still join. *)
Theorem group_one_winner now now' t gid trigger trigger' d d1 d2 r : watch_wf d ->
  ResolveExternalWatchGroup now t gid trigger d = (d1, r) -> gr_Won r = true -> watch_steps d1 d2 ->
  exists g, lookup_key gid (wx_groups d2) = Some g /\ xg_Status g = gr_Status r /\ xg_WinnerWatchID g = trigger /\
    gr_Won (snd (ResolveExternalWatchGroup now' t gid trigger' d2)) = false /\
    (forall w, In w (wx_watches d1) -> member (xg_TenantID g) gid w = true -> xw_ID w <> trigger ->
       xw_Finalized w = true /\ xw_Notified w = true /\ exists w', lookup_key (xw_ID w) (wx_watches d2) = Some w' /\ live w' = false) /\
    (forall w, In w (wx_watches d2) -> member (xg_TenantID g) gid w = true -> versioned w -> xw_ID w <> trigger -> live w = false).
Proof.
  intros W E Wo H. pose proof (exec_wf (WResolve now t gid trigger) d I W) as W1. change (watch_wf (fst (ResolveExternalWatchGroup now t gid trigger d))) in W1.
  rewrite E in W1. cbn [fst] in W1.
  destruct (resolve_won _ _ _ _ _ _ _ W E Wo) as (g & g' & _ & _ & _ & ((_ & T & _) & _) & K & N & S & Wi & P & St & Q).
  rewrite <- K in N. pose proof (steps_settled g' d1 d2 P N W1 H St) as [L M]. rewrite K in *. exists g'. rewrite <- T in Q.
  split; [done|]. split; [done|]. split; [done|]. split; [|split].
  - destruct (ResolveExternalWatchGroup now' t gid trigger' d2) as [d3 r'] eqn:E'. simpl. destruct (gr_Won r') eqn:Wn; [|done]. exfalso.
    destruct (resolve_won _ _ _ _ _ _ _ (steps_watch_wf _ _ H W1) E' Wn) as (x & _ & Lx & Px & _). rewrite L in Lx. by simplify_eq.
  - intros w Hw Mb I. destruct (Q w Hw Mb I) as (N' & F & No). split; [done|]. split; [done|].
    apply (steps_ended _ d1 d2 W1 H). exists w. split; [|done]. by apply (lookup_key_In (wx_watches d1) w (wwf_ids _ W1)).
  - intros w Hw Mb V I. rewrite Wi in M. by apply M.
Qed.

Lemma group_one_winner_witness :
  let d1 := fst (ResolveExternalWatchGroup (15 * Second)%Z "" "watchgroup_g" "watch_2" pair_done) in
  exists g, lookup_key "watchgroup_g" (wx_groups d1) = Some g /\ xg_WinnerWatchID g = "watch_2" /\
    gr_Won (snd (ResolveExternalWatchGroup (16 * Second)%Z "" "watchgroup_g" "watch_1" d1)) = false.
Proof.
  intros d1. set (r := snd (ResolveExternalWatchGroup (15 * Second)%Z "" "watchgroup_g" "watch_2" pair_done)).
  destruct (group_one_winner (15 * Second)%Z (16 * Second)%Z "" "watchgroup_g" "watch_2" "watch_1" pair_done d1 d1 r
              (steps_watch_wf _ _ pair_history (watch_start_wf [])) (surjective_pairing _) ltac:(by vm_compute) (watch_none _))
    as (g & L & _ & Wi & Lo & _).
  exists g. split; [exact L|]. split; [exact Wi|exact Lo].
Defined.

(** C19: a group never holds more members with a versioned receipt than it declared, and
    when one whose members all have such a receipt succeeds in mode [all], exactly the
    declared number of them is registered and every one of them succeeded. *)
Theorem group_unanimous now t gid trigger d0 d d' r : wx_watches d0 = [] -> wx_groups d0 = [] -> watch_wf d0 -> watch_steps d0 d ->
  (forall g, In g (wx_groups d) -> registered (xg_TenantID g) (xg_ID g) (wx_watches d) <= xg_ExpectedCount g) /\
  (ResolveExternalWatchGroup now t gid trigger d = (d', r) -> gr_Won r = true -> gr_Status r = ExternalWatchSucceeded ->
   exists g, lookup_key gid (wx_groups d) = Some g /\
     (xg_Mode g = ExternalWatchGroupAll -> (forall w, In w (members (xg_TenantID g) gid d) -> versioned w) ->
      length (members (xg_TenantID g) gid d) = xg_ExpectedCount g /\
      forall w, In w (members (xg_TenantID g) gid d) -> xw_Status w = ExternalWatchSucceeded)).
Proof.
  intros Ew Eg W H. assert (counted d0) as C0 by (constructor; rewrite ?Ew, ?Eg; done).
  pose proof (steps_counted _ _ W H C0) as [_ C]. split; [intros g Hg; by apply C|].
  intros E Wo S. destruct (resolve_won _ _ _ _ _ _ _ (steps_watch_wf _ _ H W) E Wo) as (g & g' & L & _ & V & _). rewrite S in V.
  exists g. split; [done|]. intros M A. pose proof L as [Hg K]%lookup_key_Some. change (xg_ID g = gid) in K. rewrite <- K in *.
  destruct (all_succeeded _ _ _ V M) as [F _]. destruct (C g Hg) as [_ B]. rewrite (registered_all _ _ _ A) in B.
  pose proof (filter_length_le (status_in [ExternalWatchSucceeded]) (members (xg_TenantID g) (xg_ID g) d)) as Le. split; [lia|].
  intros w Hw. pose proof (filter_full (status_in [ExternalWatchSucceeded]) (members (xg_TenantID g) (xg_ID g) d) ltac:(lia) w Hw) as X.
  unfold status_in, one_of in X. simpl in X. rewrite orb_false_r in X. by apply String.eqb_eq in X.
Qed.

Lemma group_unanimous_witness :
  exists g, lookup_key "watchgroup_g" (wx_groups pair_done) = Some g /\ length (members (xg_TenantID g) "watchgroup_g" pair_done) = 2 /\
    xg_ExpectedCount g = 2.
Proof.
  set (x := ResolveExternalWatchGroup (15 * Second)%Z "" "watchgroup_g" "watch_2" pair_done).
  destruct (group_unanimous (15 * Second)%Z "" "watchgroup_g" "watch_2" (watch_start []) pair_done (fst x) (snd x)
              eq_refl eq_refl (watch_start_wf []) pair_history) as [_ U].
  destruct (U (surjective_pairing x) ltac:(by vm_compute) ltac:(by vm_compute)) as (g & L & K).
  assert (Some g = hd_error (wx_groups pair_done)) as G by (rewrite <- L; by vm_compute).
  assert (xg_ExpectedCount g = 2 /\ xg_Mode g = ExternalWatchGroupAll /\ xg_TenantID g = "default") as (E2 & M & T)
    by (vm_compute in G; by simplify_eq).
  exists g. split; [done|]. rewrite <- E2. split; [|done]. apply K; [done|]. rewrite T.
  intros w Hw. assert (forallb versioned_b (members "default" "watchgroup_g" pair_done) = true) as A by (by vm_compute).
  rewrite forallb_forall in A. by apply Z.leb_le, A.
Defined.

(** C34: cancelling a watcher is all or nothing and never leaves a Run waiting for nobody:
    a refused cancellation changes nothing; a successful one ends exactly the person's
    live watcher of that id as cancelled, finalized and silent, touches no other watcher,
    and a Run of the person that still waits outside afterwards still has a live watcher
    if it is the Run of the cancelled one. *)
Theorem cancel_hands_back now t p id d : let '(d', won) := CancelExternalWatchForPerson now t p id d in
  if won then
    exists watch, In watch (wx_watches d) /\ owned_watch t (TrimSpace p) watch = true /\ xw_ID watch = TrimSpace id /\
      Forall2 (fun w w' => if owned_watch t (TrimSpace p) w && (xw_ID w =? TrimSpace id)%string && live w
                           then same_watch w w' /\ xw_Status w' = ExternalWatchCancelled /\ xw_Finalized w' = true /\ xw_Notified w' = true
                           else w' = w) (wx_watches d) (wx_watches d') /\
      (exists w, In w (wx_watches d) /\ owned_watch t (TrimSpace p) w && (xw_ID w =? TrimSpace id)%string && live w = true) /\
      forall run, In run (db_runs (wx_db d')) -> run_at (normalizeTenant t) (xw_RunID watch) run = true -> run_person_id run = TrimSpace p ->
        run_status run = "waiting_external" ->
        exists w, In w (wx_watches d') /\ owned_watch t (TrimSpace p) w = true /\ xw_RunID w = xw_RunID watch /\ live w = true
  else d' = d.
Proof.
  destruct (CancelExternalWatchForPerson now t p id d) as [d' []] eqn:E.
  - apply cancel_won in E as (watch & c & Hw & -> & Wn & O & I & Ws & Rs). exists watch. do 3 (split; [done|]). split; [|split; [done|]].
    + rewrite Ws. unfold update_where. clear. induction (wx_watches d) as [|w ws IH]; constructor; [|done]. by destruct (_ && _ && _).
    + intros run Hr A P S. destruct (existsb _ (wx_watches d')) eqn:X.
      * apply existsb_exists in X as (w & ? & Y). reflect_bools. eauto.
      * rewrite Rs in Hr. apply In_update_where in Hr as (r0 & _ & ->). destruct (_ && _) eqn:Y; [done|].
        rewrite A, S in Y. apply String.eqb_eq in P. by rewrite P in Y.
  - unfold CancelExternalWatchForPerson in E. destruct (query_row _ _); [|by simplify_eq]. destruct (negb _); by simplify_eq.
Qed.

Lemma cancel_hands_back_witness :
  let run := mkRun "run" "work" "thread" "default" "alice" "ws" (JVal []) "cli" "" "" "" "" 3 "waiting_external" 5 None (Some 5%Z) false 0 "" SNone in
  let d := exec_watch (WCreate "1" (11 * Second)%Z 0%Z ((pair_request "check") <| xw_WaitGroupID := "" |>)) (watch_start [run]) in
  let d' := fst (CancelExternalWatchForPerson (12 * Second)%Z "" "alice" "watch_1" d) in
  map run_status (db_runs (wx_db d')) = ["waiting_user"] /\ exists watch, In watch (wx_watches d) /\ xw_ID watch = "watch_1".
Proof.
  intros run d d'. pose proof (cancel_hands_back (12 * Second)%Z "" "alice" "watch_1" d) as H.
  rewrite (surjective_pairing (CancelExternalWatchForPerson (12 * Second)%Z "" "alice" "watch_1" d)) in H.
  assert (snd (CancelExternalWatchForPerson (12 * Second)%Z "" "alice" "watch_1" d) = true) as E by (by vm_compute).
  rewrite E in H. destruct H as (watch & Hw & _ & I & _). split; [by vm_compute|]. exists watch. split; [done|]. rewrite I. by vm_compute.
Defined.
