(* ===== verification/DirectClaim.v ===== *)
(** * Direct continuation claims

    A running interaction Run becomes the direct child of a historical Run of the same
    execution domain, or moves from the parent it claimed to another one
    ([control/work_claim.go]): the parent edge and the thread of the Run, the rows that
    belong to it, the parent's blockers, the imported plan and the threads' visibility
    change in one transaction.

    The state is the control database with the steering mailbox.  The rows of
    [task_artifacts], [workflow_profiles] and [run_skill_activations], whose thread
    follows the Run too, are not part of the model. *)

From stdpp Require Import base tactics list strings.
From Stdlib Require Import ZArith Lia Bool String List.
From S2P Require Import Prelude GoLib Sql Admission Store Queue Steering Maintenance Database RunStart.

Record WorkDB := mkWorkDB { wk_db : DB; wk_mailbox : list SteeringRow }.

#[export] Instance WorkDB_eta : Eta WorkDB := fun d => mkWorkDB (wk_db d) (wk_mailbox d).

#[export] Instance Event_eta : Eta Event := fun e =>
  mkEvent (ev_id e) (ev_cursor e) (ev_thread_id e) (ev_run_id e) (ev_type e) (ev_visibility e) (ev_channel e)
    (ev_payload e) (ev_idempotency_key e) (ev_created_at e).

#[export] Instance MessageRow_eta : Eta MessageRow := fun m =>
  mkMessageRow (ms_id m) (ms_tenant_id m) (ms_person_id m) (ms_account_id m) (ms_channel m) (ms_thread_id m) (ms_role m)
    (ms_content m) (ms_created_at m).

(** What the claim reads of tables that are not modelled: whether the Run has a plan
    ([latestRunPlanTx]), and whether its roots column decodes to a nil slice, which
    [reflect.DeepEqual] tells from an empty one. *)
Class ClaimEnv := {
  latestRunPlanTx : DB -> string -> string -> res bool;
  roots_nil : Run -> bool }.

Definition ErrContinuationDomainMismatch : string := "interaction and parent runs are in different execution domains".
Definition ErrResumeCheckpointRequired : string := "parent run requires checkpoint restoration in a fresh run".

#[export] Instance GitBaseline_eq_dec : EqDecision GitBaseline.
Proof. solve_decision. Defined.

#[export] Instance RootBinding_eq_dec : EqDecision RootBinding.
Proof. solve_decision. Defined.

Section Claim.
Context `{RunEnv} `{ClaimEnv}.

(** The workspace and the roots of the two Runs. *)
Definition same_domain (source parent : Run) : bool :=
  match run_execution_roots source, run_execution_roots parent with
  | JVal a, JVal b =>
      (run_workspace_id source =? run_workspace_id parent)%string && bool_decide (a = b)
      && (match a with [] => Bool.eqb (roots_nil source) (roots_nil parent) | _ :: _ => true end)
  | _, _ => false
  end.

Definition unfinished_checkpoint (tenantID runID : string) (c : LoopCheckpointRecord) : bool :=
  (ck_TenantID c =? tenantID)%string && (ck_RunID c =? runID)%string && negb (ck_Outcome c =? "complete_turn")%string.

Definition pending_clarify (tenantID personID runID : string) (c : ClarifyRow) : bool :=
  (c_tenant_id c =? tenantID)%string && (c_person_id c =? personID)%string && (c_run_id c =? runID)%string
  && (c_status c =? "pending")%string.

Definition thread_run (tenantID threadID : string) (r : Run) : bool :=
  (run_tenant_id r =? tenantID)%string && (run_thread_id r =? threadID)%string.

(** A row of the Run, by the columns most tables name it with. *)
Definition own_row (tenantID personID runID tenant person run : string) : bool :=
  (tenant =? tenantID)%string && (person =? personID)%string && (run =? runID)%string.

(** [moveRunDependentsTx], with the Run already on its new thread. *)
Definition moveRunDependentsTx (tenantID personID runID oldThreadID newThreadID : string) (s : WorkDB) : WorkDB :=
  let own := own_row tenantID personID runID in
  let alone := negb (existsb (fun r => thread_run tenantID oldThreadID r && negb (run_id r =? runID)%string) (db_runs (wk_db s))) in
  let d := wk_db s in
  s <| wk_db := d
         <| db_events := update_where (fun e => (ev_run_id e =? runID)%string) (fun e => e <| ev_thread_id := newThreadID |>) (db_events d) |>
         <| db_handoffs := update_where (fun h => (ho_run_id h =? runID)%string) (fun h => h <| ho_thread_id := newThreadID |>) (db_handoffs d) |>
         <| db_checkpoints := update_where (fun c => own (ck_TenantID c) (ck_PersonID c) (ck_RunID c))
              (fun c => c <| ck_TaskID := newThreadID |>) (db_checkpoints d) |>
         <| db_approvals := update_where (fun a => own (a_tenant_id a) (a_person_id a) (a_run_id a))
              (fun a => a <| a_thread_id := newThreadID |>) (db_approvals d) |>
         <| db_clarifies := update_where (fun c => own (c_tenant_id c) (c_person_id c) (c_run_id c))
              (fun c => c <| c_thread_id := newThreadID |>) (db_clarifies d) |>
         <| db_blockers := update_where (fun b => own (b_tenant_id b) (b_person_id b) (b_origin_run_id b))
              (fun b => b <| b_thread_id := newThreadID |>) (db_blockers d) |>
         <| db_messages := update_where (fun m => (ms_tenant_id m =? tenantID)%string && (ms_person_id m =? personID)%string
                                                  && (ms_thread_id m =? oldThreadID)%string && alone)
              (fun m => m <| ms_thread_id := newThreadID |>) (db_messages d) |>
         <| db_work_units := update_where (fun u => (u_tenant_id u =? tenantID)%string && (u_run_id u =? runID)%string)
              (fun u => u <| u_primary_task_id := newThreadID |>
                          <| u_related_task_id := if (u_related_task_id u =? oldThreadID)%string then newThreadID else u_related_task_id u |>)
              (db_work_units d) |> |>
    <| wk_mailbox := update_where (fun r => own (s_tenant_id r) (s_person_id r) (s_run_id r))
         (fun r => r <| s_thread_id := newThreadID |>) (wk_mailbox s) |>.

(** The import of the new parent's plan, which replaces a plan the Run already has. *)
Definition importParentPlan (now : Time) (source parent : Run) (retarget : bool) (d : DB) : res DB :=
  match latestRunPlanTx d (run_tenant_id source) (run_id source) with
  | Err e => Err e
  | Ok planned =>
      match inheritRunPlanTx d (run_tenant_id source) (run_id source) (run_id parent) (retarget || planned) false with
      | Err e => Err e
      | Ok (units, events) =>
          importEvents now (run_id source) (run_thread_id parent) (run_channel source) events (d <| db_work_units := units |>)
      end
  end.

Definition owned_thread (tenantID personID threadID : string) (t : ThreadRow) : bool :=
  (th_tenant_id t =? tenantID)%string && (th_person_id t =? personID)%string && (th_id t =? threadID)%string.

(** The parent's thread is listed work again; an interaction thread without Runs is
    removed, and one that is still there unlisted. *)
Definition settleThreads (now : Time) (tenantID personID : string) (source parent : Run) (retarget : bool) (d : DB) : DB :=
  let old := owned_thread tenantID personID (run_thread_id source) in
  let d := d <| db_threads := update_where (owned_thread tenantID personID (run_thread_id parent))
      (fun t => t <| th_kind := "work" |> <| th_visibility := "listed" |> <| th_last_activity_at := Unix now |> <| th_updated_at := Unix now |>)
      (db_threads d) |> in
  if retarget then d <| db_threads := update_where old (fun t => t <| th_updated_at := Unix now |>) (db_threads d) |> else
  let empty := negb (existsb (thread_run tenantID (run_thread_id source)) (db_runs d)) in
  let d := d <| db_threads := delete_where (fun t => old t && empty) (db_threads d) |> in
  d <| db_threads := update_where (fun t => old t && empty) (fun t => t <| th_visibility := "unlisted" |> <| th_updated_at := Unix now |>)
         (db_threads d) |>.

(** The guards of the claim, in their order. *)
Definition claim_refused (tenantID personID : string) (source parent : Run) (retarget : bool) (d : DB) : option error :=
  if negb (run_person_id source =? personID)%string || negb (run_person_id parent =? personID)%string
  then Some (Errorf "runs are unavailable for the current person") else
  if negb (run_status source =? "running")%string
  then Some (Errorf "interaction run is no longer eligible for a direct continuation claim") else
  if retarget && ((run_resumes_run_id source =? "")%string || (run_resumes_run_id source =? run_id parent)%string)
  then Some (Errorf "interaction run has no different parent to correct") else
  if negb retarget && negb (run_resumes_run_id source =? "")%string
  then Some (Errorf "interaction run is no longer eligible for a direct continuation claim") else
  if negb (same_domain source parent) then Some (Sentinel ErrContinuationDomainMismatch) else
  if existsb (unfinished_checkpoint tenantID (run_id parent)) (db_checkpoints d) then Some (Sentinel ErrResumeCheckpointRequired) else
  if existsb (pending_clarify tenantID personID (run_id parent)) (db_clarifies d) then Some (Sentinel ErrResumeCheckpointRequired) else
  if negb retarget && negb (rows_affected (thread_run tenantID (run_thread_id source)) (db_runs d) =? 1)%Z
  then Some (Errorf "direct continuation requires a single-run interaction thread") else
  validateResumeClaimTx (mkResumeClaim tenantID personID (run_thread_id parent) (run_id parent)) None d.

Definition claimable_run (tenantID personID : string) (source : Run) (r : Run) : bool :=
  run_at tenantID (run_id source) r && (run_person_id r =? personID)%string && (run_status r =? "running")%string
  && (run_resumes_run_id r =? run_resumes_run_id source)%string.

Definition claimInteractionContinuationOnce (now : Time) (tenantID personID sourceRunID resumesRunID : string) (retarget : bool)
    (s : WorkDB) : res WorkDB :=
  let d := wk_db s in
  match query_row (run_at tenantID sourceRunID) (db_runs d), query_row (run_at tenantID resumesRunID) (db_runs d) with
  | None, _ => Err (Errorf "interaction run not found")
  | Some _, None => Err (Errorf "parent run not found")
  | Some source, Some parent =>
      match claim_refused tenantID personID source parent retarget d with
      | Some e => Err e
      | None =>
          let cond := claimable_run tenantID personID source in
          if negb (rows_affected cond (db_runs d) =? 1)%Z then Err (Errorf "interaction run changed before continuation commit") else
          let move := fun r => r <| run_thread_id := run_thread_id parent |> <| run_resumes_run_id := resumesRunID |> in
          let s := s <| wk_db := d <| db_runs := update_where cond move (db_runs d) |> |> in
          let s := moveRunDependentsTx tenantID personID sourceRunID (run_thread_id source) (run_thread_id parent) s in
          let d := resolveOriginRunBlockersTx now tenantID (run_thread_id parent) resumesRunID sourceRunID (wk_db s) in
          match importParentPlan now source parent retarget d with
          | Err e => Err e
          | Ok d => Ok (s <| wk_db := settleThreads now tenantID personID source parent retarget d |>)
          end
      end
  end.

(** Retries on a busy database are not represented. *)
Definition continuationClaimWithRetry (now : Time) (tenantID personID sourceRunID resumesRunID : string) (retarget : bool)
    (s : WorkDB) : WorkDB * res (option Run) :=
  let '(tenantID, personID, sourceRunID, resumesRunID) :=
    (normalizeTenant tenantID, TrimSpace personID, TrimSpace sourceRunID, TrimSpace resumesRunID) in
  if (personID =? "")%string || (sourceRunID =? "")%string || (resumesRunID =? "")%string || (sourceRunID =? resumesRunID)%string
  then (s, Err (Errorf "person, interaction run, and distinct parent run are required")) else
  match claimInteractionContinuationOnce now tenantID personID sourceRunID resumesRunID retarget s with
  | Err e => (s, Err e)
  | Ok s' => (s', GetRun (db_runs (wk_db s')) tenantID sourceRunID)
  end.

Definition ClaimInteractionContinuation (now : Time) (tenantID personID sourceRunID resumesRunID : string) :=
  continuationClaimWithRetry now tenantID personID sourceRunID resumesRunID false.
Definition RetargetInteractionContinuation (now : Time) (tenantID personID runID newResumesRunID : string) :=
  continuationClaimWithRetry now tenantID personID runID newResumesRunID true.

End Claim.
