(* ===== verification/DirectClaimTheory.v ===== *)
(** * Direct continuation claims preserve the lifecycle's invariants

    A claim rewrites the parent edge and the thread of a running Run and the thread of
    its rows, which no operation of [Control] does.  [db_wf] holds all the same, so the
    statements over histories extend to histories that interleave claims. *)

From stdpp Require Import base tactics relations list strings.
From Stdlib Require Import ZArith Lia Bool String List Sorted.
From S2P Require Import Prelude GoLib Sql Evolution Admission Store Queue QueueTheory Steering Maintenance Database RunStart Checkpoints Approvals Clarify Cancellation Continuation Finalization Control ApprovalTheory ControlSteps FinalizationSteps ControlTheory Continuity Resolution Stops DirectClaim.

Section Claims.
Context `{RunEnv} `{ClaimEnv}.

(** ** What an accepted claim found *)

Record claim_ok (tenant person sid pid : string) (retarget : bool) (d : DB) (source parent : Run) : Prop := {
  co_source : In source (db_runs d);
  co_parent : In parent (db_runs d);
  co_ids : run_id source = sid /\ run_id parent = pid;
  co_tenants : run_tenant_id source = tenant /\ run_tenant_id parent = tenant;
  co_persons : run_person_id source = person /\ run_person_id parent = person;
  co_running : run_status source = "running";
  co_edge : if retarget then run_resumes_run_id source <> "" /\ run_resumes_run_id source <> pid else run_resumes_run_id source = "";
  co_domain : same_domain source parent = true;
  co_work : run_execution_class parent = "work";
  co_stopped : run_status parent <> "running";
  co_free : has_child tenant pid (db_runs d) = false }.

Definition on_parent (parent r : Run) : Run := r <| run_thread_id := run_thread_id parent |> <| run_resumes_run_id := run_id parent |>.

(** The database after the Run and its rows have moved. *)
Definition moved (now : Time) (tenant person : string) (source parent : Run) (s : WorkDB) : WorkDB :=
  let s := s <| wk_db := (wk_db s) <| db_runs := update_where (claimable_run tenant person source) (on_parent parent) (db_runs (wk_db s)) |> |> in
  let s := moveRunDependentsTx tenant person (run_id source) (run_thread_id source) (run_thread_id parent) s in
  s <| wk_db := resolveOriginRunBlockersTx now tenant (run_thread_id parent) (run_id parent) (run_id source) (wk_db s) |>.

Lemma claim_checks tenant person source parent retarget d : keys_unique (db_runs d) -> In source (db_runs d) -> In parent (db_runs d) ->
  run_tenant_id source = tenant -> run_tenant_id parent = tenant -> claim_refused tenant person source parent retarget d = None ->
  claim_ok tenant person (run_id source) (run_id parent) retarget d source parent.
Proof.
  intros U Hs Hp Ts Tp. unfold claim_refused. destruct (_ || _) eqn:P; [done|]. reflect_bools.
  destruct (negb (_ =? "running")%string) eqn:R; [done|]. destruct (retarget && _) eqn:E1; [done|].
  destruct (negb retarget && negb (_ =? "")%string) eqn:E2; [done|].
  destruct (negb (same_domain _ _)) eqn:D; [done|]. destruct (existsb _ (db_checkpoints d)); [done|]. destruct (existsb _ (db_clarifies d)); [done|].
  destruct (negb retarget && negb (_ =? 1)%Z); [done|]. intros V. apply validateResumeClaimTx_None in V as [p [Ep Ec Et En Er _ Ef]].
  cbn [rc_TenantID rc_PersonID rc_TaskID rc_ResumesRunID] in *. apply find_some in Ep as [Hq Ei]. unfold run_at in Ei. reflect_bools.
  assert (p = parent) as -> by by apply (keys_unique_inj (db_runs d)).
  constructor; try done; [|by eapply resumable_stopped].
  destruct retarget; simpl in *; by reflect_bools.
Qed.

(** The UPDATE of the claim reaches the Run alone. *)
Lemma claimable_source tenant person sid pid retarget d source parent : keys_unique (db_runs d) ->
  claim_ok tenant person sid pid retarget d source parent ->
  forall r, In r (db_runs d) -> claimable_run tenant person source r = true <-> r = source.
Proof.
  intros U [Hs _ _ [Ts _] [Ps _] R _ _ _ _ _] r Hr. unfold claimable_run, run_at. split.
  - intros C. reflect_bools. by apply (keys_unique_inj (db_runs d)).
  - intros ->. by rewrite Ts, Ps, R, !String.eqb_refl.
Qed.

(** ** Lineage *)

Section Lineage.
Context (d : DB) (tenant person sid pid : string) (retarget : bool) (source parent : Run) (cond : Run -> bool).
Context (W : db_wf d) (C : claim_ok tenant person sid pid retarget d source parent)
  (Hc : forall r, In r (db_runs d) -> cond r = true <-> r = source).

Lemma claimed_row x : In x (update_where cond (on_parent parent) (db_runs d)) ->
  x = on_parent parent source \/ In x (db_runs d) /\ x <> source.
Proof.
  intros (r & Hr & ->)%In_update_where. destruct (cond r) eqn:E.
  - left. by apply Hc in E as ->.
  - right. split; [done|]. intros ->. by rewrite (proj2 (Hc source Hr) eq_refl) in E.
Qed.

Lemma other_row x : In x (db_runs d) -> x <> source -> In x (update_where cond (on_parent parent) (db_runs d)).
Proof.
  intros Hx N. apply In_update_where. exists x. split; [done|]. destruct (cond x) eqn:E; [|done]. by apply Hc in E.
Qed.

Lemma parent_other : parent <> source.
Proof. intros ->. destruct C. congruence. Qed.

(** A running Run has no continuation, so that giving it another parent closes no cycle. *)
Lemma claimed_lineage : lineage_wf (update_where cond (on_parent parent) (db_runs d)).
Proof.
  pose proof parent_other as Np. destruct (wf_lineage _ W) as [S1 [rank Rk]].
  pose proof C as [Hs Hp [Is Ip] [Ts Tp] [Ps Pp] R _ _ Wk St Fr].
  assert (run_id parent <> run_id source) as Ni.
  { intros E. apply Np. by apply (keys_unique_inj (db_runs d)); [apply W|..]. }
  constructor.
  - assert (forall x, In x (db_runs d) -> run_tenant_id x = run_tenant_id source -> run_resumes_run_id x = run_id parent -> False) as F.
    { intros x Hx Tx E. unfold has_child in Fr. pose proof (existsb_false_In _ _ _ Fr Hx) as X. cbv beta in X.
      by rewrite Tx, E, Ts, Ip, !String.eqb_refl in X. }
    intros x y [->|[Hx Nx]]%claimed_row [->|[Hy Ny]]%claimed_row; simpl; intros Ne T E; auto; exfalso; by eapply F.
  - exists (fun k => if (k =? run_id source)%string then (1 + rank (run_id parent))%nat else rank k).
    assert (forall x, In x (db_runs d) -> x <> source -> (run_id x =? run_id source)%string = false) as Nk.
    { intros x Hx N. apply String.eqb_neq. intros E. apply N. by apply (keys_unique_inj (db_runs d)); [apply W|..]. }
    intros x [->|[Hx Nx]]%claimed_row Ne.
    + exists parent. split; [by apply other_row|]. simpl. rewrite String.eqb_refl, (Nk parent Hp Np). split; [|lia].
      by constructor; simpl; try congruence.
    + destruct (Rk x Hx Ne) as (p & Hin & Hpr & Lt). assert (p <> source) as Nps by (intros ->; by destruct Hpr).
      exists p. split; [by apply other_row|]. split; [done|]. by rewrite (Nk x Hx Nx), (Nk p Hin Nps).
Qed.

Lemma claimed_rows_wf : run_execution_class source = "work" -> Forall run_wf (update_where cond (on_parent parent) (db_runs d)).
Proof.
  intros Wk. apply List.Forall_forall. intros x [->|[Hx _]]%claimed_row; [|by apply (proj1 (List.Forall_forall _ _) (wf_runs _ W))].
  destruct (proj1 (List.Forall_forall _ _) (wf_runs _ W) source (co_source _ _ _ _ _ _ _ _ C)) as [I _ Lg Ro _].
  destruct (proj1 (List.Forall_forall _ _) (wf_runs _ W) parent (co_parent _ _ _ _ _ _ _ _ C)) as [_ _ _ _ T].
  constructor; simpl; try done. by left.
Qed.
End Lineage.

(** ** The other tables *)

Lemma events_wf_map f l n : (forall e, ev_cursor (f e) = ev_cursor e /\ ev_id (f e) = ev_id e /\ ev_idempotency_key (f e) = ev_idempotency_key e) ->
  events_wf l n -> events_wf (map f l) n.
Proof.
  intros F [S B I K]. constructor.
  - clear -F S. induction S as [|e l S IH H]; simpl; constructor; [done|]. apply List.Forall_forall. intros x (y & <- & Hy)%in_map_iff.
    rewrite (proj1 (F e)), (proj1 (F y)). by apply (proj1 (List.Forall_forall _ _) H).
  - intros x (y & <- & Hy)%in_map_iff. rewrite (proj1 (F y)). by apply B.
  - unfold keys_unique in *. rewrite map_map. erewrite map_ext; [exact I|]. intros e. by destruct (F e) as (_ & E & _).
  - intros x y (a & <- & Ha)%in_map_iff (b & <- & Hb)%in_map_iff. rewrite (proj2 (proj2 (F a))), (proj2 (proj2 (F b))).
    intros N E. f_equal. by apply K.
Qed.

Lemma thread_approval_wf th a : approval_wf a -> approval_wf (a <| a_thread_id := th |>).
Proof. intros []. by constructor. Qed.

Lemma moved_wf now tenant person source parent retarget s : db_wf (wk_db s) ->
  claim_ok tenant person (run_id source) (run_id parent) retarget (wk_db s) source parent -> run_execution_class source = "work" ->
  db_wf (wk_db (moved now tenant person source parent s)).
Proof.
  intros W C Wk. pose proof (claimable_source _ _ _ _ _ _ _ _ (wf_run_ids _ W) C) as Hc.
  pose proof (claimed_lineage _ _ _ _ _ _ _ _ _ W C Hc) as L. pose proof (claimed_rows_wf _ _ _ _ _ _ _ _ _ W C Hc Wk) as R.
  destruct W as [A AI CI Q QI RI _ _ K E]. constructor; try done.
  - apply List.Forall_forall. intros a (a0 & Ha & ->)%In_update_where. pose proof (proj1 (List.Forall_forall _ _) A a0 Ha).
    destruct (own_row _ _ _ _ _ _); [by apply thread_approval_wf|done].
  - by apply keys_unique_update.
  - by apply keys_unique_update.
  - by apply keys_unique_update.
  - intros a (a0 & Ha & ->)%In_update_where N. destruct (own_row _ _ _ _ _ _); exact (K a0 Ha N).
  - apply events_wf_map; [|done]. intros e. by destruct (_ =? _)%string.
Qed.

Lemma importParentPlan_step may_insert now source parent retarget d d' :
  importParentPlan now source parent retarget d = Ok d' -> db_step may_insert d d'.
Proof.
  unfold importParentPlan. destruct (latestRunPlanTx _ _ _); [|done]. destruct (inheritRunPlanTx _ _ _ _ _ _) as [[u ev]|]; [|done].
  intros I. eapply db_step_trans; [|by eapply importEvents_step]. by apply db_step_same.
Qed.

Lemma settleThreads_step may_insert now tenant person source parent retarget d :
  db_step may_insert d (settleThreads now tenant person source parent retarget d).
Proof. unfold settleThreads. destruct retarget; by apply db_step_same. Qed.

(** ** The claim *)

(** A claim refuses and changes nothing, or commits the move. *)
Lemma claim_once now tenant person sid pid retarget s s' : keys_unique (db_runs (wk_db s)) ->
  claimInteractionContinuationOnce now tenant person sid pid retarget s = Ok s' ->
  exists source parent d1, claim_ok tenant person sid pid retarget (wk_db s) source parent /\ run_id source = sid /\ run_id parent = pid /\
    importParentPlan now source parent retarget (wk_db (moved now tenant person source parent s)) = Ok d1 /\
    s' = (moved now tenant person source parent s) <| wk_db := settleThreads now tenant person source parent retarget d1 |>.
Proof.
  intros U. unfold claimInteractionContinuationOnce. cbv zeta. destruct (query_row _ _) as [source|] eqn:Qs; [|done].
  destruct (query_row (run_at tenant pid) _) as [parent|] eqn:Qp; [|done]. destruct (claim_refused _ _ _ _ _ _) eqn:R; [done|].
  destruct (negb _); [done|]. destruct (importParentPlan _ _ _ _ _) as [d1|] eqn:I; [|done]. intros E. simplify_eq.
  apply find_some in Qs as [Hs As], Qp as [Hp Ap]. unfold run_at in As, Ap. reflect_bools. subst sid pid.
  pose proof (claim_checks _ _ _ _ _ _ U Hs Hp ltac:(done) ltac:(done) R) as C. exists source, parent, d1. do 3 (split; [done|]). split; [exact I|reflexivity].
Qed.

Lemma claim_wf now tenant person sid pid retarget s s' : db_wf (wk_db s) ->
  (forall r, In r (db_runs (wk_db s)) -> run_id r = sid -> run_execution_class r = "work") ->
  claimInteractionContinuationOnce now tenant person sid pid retarget s = Ok s' -> db_wf (wk_db s').
Proof.
  intros W Wk E. destruct (claim_once _ _ _ _ _ _ _ _ (wf_run_ids _ W) E) as (source & parent & d1 & C & <- & <- & I & ->).
  pose proof (Wk source (co_source _ _ _ _ _ _ _ _ C) eq_refl) as Ws. pose proof (moved_wf now _ _ _ _ _ _ W C Ws) as W1.
  apply (db_step_wf new_run (fun _ _ X => X) _ _ (settleThreads_step new_run now tenant person source parent retarget d1)).
  by apply (db_step_wf new_run (fun _ _ X => X) _ _ (importParentPlan_step _ _ _ _ _ _ _ I)).
Qed.

(** ** The rows of a committed claim *)

Lemma importEvents_rows now r th ch events : forall d d', importEvents now r th ch events d = Ok d' ->
  exists es n, d' = d <| db_events := db_events d ++ es |> <| db_next_cursor := n |> /\
    Forall (fun e => ev_run_id e = r /\ ev_thread_id e = th) es.
Proof.
  induction events as [|[id e] events IH]; intros d d'; simpl.
  - intros; simplify_eq. exists [], (db_next_cursor d'). rewrite app_nil_r. by destruct d'.
  - unfold insertScopedEvent. repeat (case_if; [done|]). intros (es & n & -> & F)%IH. eexists (_ :: es), n.
    unfold store_event. simpl. split; [by rewrite <- app_assoc|]. by constructor.
Qed.

Lemma importParentPlan_frame now source parent retarget d d' : importParentPlan now source parent retarget d = Ok d' ->
  exists units es n, d' = d <| db_work_units := units |> <| db_events := db_events d ++ es |> <| db_next_cursor := n |> /\
    Forall (fun e => ev_run_id e = run_id source /\ ev_thread_id e = run_thread_id parent) es.
Proof.
  unfold importParentPlan. destruct (latestRunPlanTx _ _ _); [|done]. destruct (inheritRunPlanTx _ _ _ _ _ _) as [[u ev]|]; [|done].
  intros (es & n & -> & F)%importEvents_rows. by exists u, es, n.
Qed.

(** The tables after a committed claim. *)
Record claim_tables (tenant person : string) (source parent : Run) (s s' : WorkDB) : Prop := {
  cd_runs : db_runs (wk_db s') = update_where (claimable_run tenant person source) (on_parent parent) (db_runs (wk_db s));
  cd_events : exists es, db_events (wk_db s') =
      update_where (fun e => (ev_run_id e =? run_id source)%string) (fun e => e <| ev_thread_id := run_thread_id parent |>) (db_events (wk_db s)) ++ es /\
      Forall (fun e => ev_run_id e = run_id source /\ ev_thread_id e = run_thread_id parent) es;
  cd_approvals : db_approvals (wk_db s') =
      update_where (fun a => own_row tenant person (run_id source) (a_tenant_id a) (a_person_id a) (a_run_id a))
        (fun a => a <| a_thread_id := run_thread_id parent |>) (db_approvals (wk_db s));
  cd_clarifies : db_clarifies (wk_db s') =
      update_where (fun c => own_row tenant person (run_id source) (c_tenant_id c) (c_person_id c) (c_run_id c))
        (fun c => c <| c_thread_id := run_thread_id parent |>) (db_clarifies (wk_db s));
  cd_checkpoints : db_checkpoints (wk_db s') =
      update_where (fun c => own_row tenant person (run_id source) (ck_TenantID c) (ck_PersonID c) (ck_RunID c))
        (fun c => c <| ck_TaskID := run_thread_id parent |>) (db_checkpoints (wk_db s));
  cd_mailbox : wk_mailbox s' =
      update_where (fun r => own_row tenant person (run_id source) (s_tenant_id r) (s_person_id r) (s_run_id r))
        (fun r => r <| s_thread_id := run_thread_id parent |>) (wk_mailbox s);
  cd_queue : db_queue (wk_db s') = db_queue (wk_db s) }.

Lemma settle_frame now tenant person source parent retarget d :
  exists ts, settleThreads now tenant person source parent retarget d = d <| db_threads := ts |>.
Proof. unfold settleThreads. destruct retarget; by eexists. Qed.

Lemma claim_result now tenant person sid pid retarget s s' : keys_unique (db_runs (wk_db s)) ->
  claimInteractionContinuationOnce now tenant person sid pid retarget s = Ok s' ->
  exists source parent, claim_ok tenant person sid pid retarget (wk_db s) source parent /\ run_id source = sid /\ run_id parent = pid /\
    claim_tables tenant person source parent s s'.
Proof.
  intros U E. destruct (claim_once _ _ _ _ _ _ _ _ U E) as (source & parent & d1 & C & Is & Ip & I & ->). exists source, parent.
  do 3 (split; [done|]). apply importParentPlan_frame in I as (u & es & n & -> & F).
  match goal with |- context [settleThreads ?a ?b ?c ?d ?e ?f ?g] => destruct (settle_frame a b c d e f g) as [ts T]; rewrite T end.
  constructor; try reflexivity. by exists es.
Qed.

(** The statement that would keep an empty interaction thread as unlisted history finds
    no row: the deletion before it has the same condition. *)
Lemma unlisted_never now tenant person source parent d :
  db_threads (settleThreads now tenant person source parent false d) =
  delete_where (fun t => owned_thread tenant person (run_thread_id source) t && negb (existsb (thread_run tenant (run_thread_id source)) (db_runs d)))
    (update_where (owned_thread tenant person (run_thread_id parent))
       (fun t => t <| th_kind := "work" |> <| th_visibility := "listed" |> <| th_last_activity_at := Unix now |> <| th_updated_at := Unix now |>)
       (db_threads d)).
Proof.
  unfold settleThreads. cbv zeta. simpl. apply update_where_nop. intros t [_ E]%filter_In. by apply negb_true_iff in E.
Qed.
End Claims.
