(* ===== verification/DirectClaims.v ===== *)
(** * What direct continuation claims guarantee

    The lineage of Runs over histories that interleave the operations of [Control] with
    direct claims and retargetings, what one claim does, and the order of the ledger
    over the same histories. *)

From stdpp Require Import base tactics relations list strings.
From Stdlib Require Import ZArith Lia Bool String List Sorted.
From S2P Require Import Prelude GoLib Sql Evolution Admission Store Queue QueueTheory Steering Maintenance Database RunStart Checkpoints Approvals Clarify Cancellation Continuation Finalization Control Scenario ApprovalTheory ControlSteps FinalizationSteps ControlTheory Continuity Resolution Stops DirectClaim DirectClaimTheory.

(** ** Histories *)

Inductive work_op :=
| WorkControl (op : control_op)
| WorkClaim (now : Time) (tenantID personID sourceRunID resumesRunID : string) (retarget : bool)
| WorkMailbox (rows : list SteeringRow).

Section Work.
Context `{RunEnv} `{FinalizeEnv} `{ClaimEnv}.

Definition exec_work (o : work_op) (s : WorkDB) : WorkDB :=
  match o with
  | WorkControl op => s <| wk_db := exec_control op (wk_db s) |>
  | WorkClaim now t p source parent retarget => fst (continuationClaimWithRetry now t p source parent retarget s)
  | WorkMailbox rows => s <| wk_mailbox := rows |>
  end.

(** Only a Run with a thread claims, as the tool checks. *)
Definition work_ok (o : work_op) (s : WorkDB) : Prop :=
  match o with
  | WorkControl op => control_ok op
  | WorkClaim _ _ _ source _ _ => forall r, In r (db_runs (wk_db s)) -> run_id r = TrimSpace source -> run_thread_id r <> ""
  | WorkMailbox _ => True
  end.

Inductive work_steps (s : WorkDB) : WorkDB -> Prop :=
| work_none : work_steps s s
| work_more s1 o : work_steps s s1 -> work_ok o s1 -> work_steps s (exec_work o s1).

Lemma threaded_work d sid : db_wf d -> (forall r, In r (db_runs d) -> run_id r = sid -> run_thread_id r <> "") ->
  forall r, In r (db_runs d) -> run_id r = sid -> run_execution_class r = "work".
Proof.
  intros W T r Hr E. destruct (rw_class _ (proj1 (List.Forall_forall _ _) (wf_runs _ W) r Hr)) as [?|(_ & _ & N)]; [done|].
  by destruct (T r Hr E).
Qed.

(** What a call of the claim did. *)
Lemma direct_claim_cases now t p source parent retarget s : let '(s', r) := continuationClaimWithRetry now t p source parent retarget s in
  (exists e, r = Err e /\ s' = s) \/
  TrimSpace source <> "" /\ r = GetRun (db_runs (wk_db s')) (normalizeTenant t) (TrimSpace source) /\
  claimInteractionContinuationOnce now (normalizeTenant t) (TrimSpace p) (TrimSpace source) (TrimSpace parent) retarget s = Ok s'.
Proof.
  unfold continuationClaimWithRetry. cbv zeta. destruct (_ || _) eqn:G; [left; eauto|].
  destruct (claimInteractionContinuationOnce _ _ _ _ _ _ _) as [s'|] eqn:E; [right|left; eauto].
  reflect_bools. done.
Qed.

Lemma exec_work_wf o s : work_ok o s -> db_wf (wk_db s) -> db_wf (wk_db (exec_work o s)).
Proof.
  intros O W. destruct o; simpl; try done.
  - by apply (exec_controls_wf [op]); [constructor|].
  - pose proof (direct_claim_cases now tenantID personID sourceRunID resumesRunID retarget s) as C.
    destruct (continuationClaimWithRetry _ _ _ _ _ _ _) as [s' r]. simpl. destruct C as [(e & _ & ->)|(_ & _ & E)]; [done|].
    eapply claim_wf, E; [done|]. by apply threaded_work.
Qed.

Lemma work_steps_wf s s' : work_steps s s' -> db_wf (wk_db s) -> db_wf (wk_db s').
Proof. induction 1 as [|s1 o _ IH O]; [done|]. intros W. apply exec_work_wf; auto. Qed.

(** C1: After any history of the lifecycle's operations, interleaved with direct claims
    and retargetings of running Runs, each Run has at most one continuation, a
    continuation belongs to the person and thread of the work Run it continues, that Run
    does not execute any more, and no Run is its own ancestor. *)
Theorem lineage_through_claims m rows s : work_steps (mkWorkDB (emptyDB m) rows) s ->
  let runs := db_runs (wk_db s) in
  forall r, In r runs ->
    (run_resumes_run_id r <> "" ->
       (exists p, In p runs /\ is_parent p r) /\
       (forall r', In r' runs -> run_tenant_id r' = run_tenant_id r -> run_resumes_run_id r' = run_resumes_run_id r -> r' = r)) /\
    ~ tc (parent_in runs) r r.
Proof.
  intros Hs runs r Hr. pose proof (work_steps_wf _ _ Hs (emptyDB_wf m)) as W. pose proof (wf_lineage _ W) as L. fold runs in L. split.
  - intros Ne. split; [by apply (lw_parent runs)|]. intros r' Hr' T E. symmetry. by apply (lw_single _ L).
  - apply (no_cycle runs); [apply (wf_run_ids _ W)|done|apply (wf_runs _ W)].
Qed.

(** *** The moved Run in the new table *)

Section Moved.
Context {t p sid pid : string} {retarget : bool} {s s' : WorkDB} {source parent : Run}.
Context (W : db_wf (wk_db s)) (W' : db_wf (wk_db s')) (C : claim_ok t p sid pid retarget (wk_db s) source parent)
  (D : claim_tables t p source parent s s').

Lemma moved_in : In (on_parent parent source) (db_runs (wk_db s')).
Proof.
  rewrite (cd_runs _ _ _ _ _ _ D). apply In_update_where. exists source. split; [apply C|].
  by rewrite (proj2 (claimable_source _ _ _ _ _ _ _ _ (wf_run_ids _ W) C source (co_source _ _ _ _ _ _ _ _ C)) eq_refl).
Qed.

Lemma moved_map : db_runs (wk_db s') =
  map (fun r => if bool_decide (run_id r = run_id source) then on_parent parent r else r) (db_runs (wk_db s)).
Proof.
  rewrite (cd_runs _ _ _ _ _ _ D). apply map_ext_in. intros r Hr.
  pose proof (claimable_source _ _ _ _ _ _ _ _ (wf_run_ids _ W) C r Hr) as K. destruct (claimable_run _ _ _ _) eqn:E.
  - by rewrite (proj1 K eq_refl), bool_decide_true.
  - rewrite bool_decide_false; [done|]. intros I. assert (r = source) as X by (by apply (keys_unique_inj _ _ _ (wf_run_ids _ W) Hr (co_source _ _ _ _ _ _ _ _ C))).
    by apply K in X.
Qed.

Lemma moved_row : normalizeTenant t = t -> run_id source <> "" -> TrimSpace (run_id source) = run_id source ->
  GetRun (db_runs (wk_db s')) t (run_id source) = Ok (Some (on_parent parent source)).
Proof.
  intros Nt Ne Tr. unfold GetRun, blank. rewrite Tr, (proj2 (String.eqb_neq _ _) Ne), Nt.
  pose proof moved_in as Hm. pose proof C as [_ _ _ [Ts _] _ _ _ _ _ _ _].
  pose proof (query_run _ _ (wf_run_ids _ W') Hm) as Q. simpl in Q. rewrite Ts in Q. unfold run_at in Q. rewrite Q. simpl.
  destruct (rw_roots _ (proj1 (List.Forall_forall _ _) (wf_runs _ W) source (co_source _ _ _ _ _ _ _ _ C))) as [roots ->]. done.
Qed.
End Moved.

(** C22: A direct claim or retargeting fails and changes nothing, or exactly the running
    Run moves onto a stopped Run of its person and execution domain, onto that Run's
    thread; the call returns the moved Run, no queued or later continuation can claim the
    same parent, and a parent left by a retargeting has no continuation again. *)
Theorem direct_claim_moves now t p sid pid retarget s : db_wf (wk_db s) -> work_ok (WorkClaim now t p sid pid retarget) s ->
  let '(s', res) := continuationClaimWithRetry now t p sid pid retarget s in
  match res with
  | Err _ => s' = s
  | Ok row =>
      exists source parent, In source (db_runs (wk_db s)) /\ In parent (db_runs (wk_db s)) /\ run_id source = TrimSpace sid /\ run_id parent = TrimSpace pid /\
        run_status source = "running" /\ run_status parent <> "running" /\ run_person_id source = run_person_id parent /\ same_domain source parent = true /\
        row = Some (on_parent parent source) /\
        db_runs (wk_db s') = map (fun r => if bool_decide (run_id r = run_id source) then on_parent parent r else r) (db_runs (wk_db s)) /\
        (forall child q, rc_TenantID child = run_tenant_id parent -> rc_ResumesRunID child = run_id parent ->
           validateResumeClaimTx child q (wk_db s') <> None) /\
        (if retarget then run_resumes_run_id source <> "" /\ has_child (run_tenant_id source) (run_resumes_run_id source) (db_runs (wk_db s')) = false
         else run_resumes_run_id source = "")
  end.
Proof.
  intros W O. pose proof (direct_claim_cases now t p sid pid retarget s) as K. destruct (continuationClaimWithRetry _ _ _ _ _ _ _) as [s' res].
  destruct K as [(e & -> & ->)|(Ne & -> & E)]; [done|].
  pose proof (claim_wf _ _ _ _ _ _ _ _ W (threaded_work _ _ W O) E) as W'.
  destruct (claim_result _ _ _ _ _ _ _ _ (wf_run_ids _ W) E) as (source & parent & C & Is & Ip & D).
  rewrite <- Is in Ne |- *. rewrite (moved_row W W' C D (normalizeTenant_idemp _) Ne ltac:(rewrite Is; apply TrimSpace_idemp)). pose proof C as [Hs Hp _ [Ts Tp] [Ps Pp] R Ed Do _ St _].
  exists source, parent. do 6 (split; [done|]). split; [congruence|]. do 2 (split; [done|]). split; [by apply (moved_map W C D)|].
  pose proof (moved_in W C D) as Hm. split.
  - intros child q Et Er V. apply validateResumeClaimTx_None in V as [x V]. pose proof (ca_child _ _ _ _ V) as F. rewrite Et, Er in F.
    enough (has_child (run_tenant_id parent) (run_id parent) (db_runs (wk_db s')) = true) by congruence.
    apply has_child_true. exists (on_parent parent source). split; [done|]. split; [simpl; congruence|done].
  - destruct retarget; [|done]. destruct Ed as [N1 N2]. split; [done|]. apply not_true_is_false. intros F.
    apply has_child_true in F as (c & Hc & Tc & Rc). rewrite (cd_runs _ _ _ _ _ _ D) in Hc.
    apply (claimed_row _ _ _ _ (claimable_source _ _ _ _ _ _ _ _ (wf_run_ids _ W) C)) in Hc as [->|[Hc Nc]].
    + apply N2. simpl in Rc. congruence.
    + apply Nc. apply (lw_single _ (wf_lineage _ W)); congruence.
Qed.

(** The field an UPDATE set, in a row that satisfies its condition. *)
Lemma updated_field {R} (c : R -> bool) f (g : R -> string) v t x : (forall r, c (f r) = c r) -> (forall r, g (f r) = v) ->
  In x (update_where c f t) -> c x = true -> g x = v.
Proof. intros Cf Gf (r & Hr & ->)%In_update_where E. destruct (c r) eqn:Er; [done|congruence]. Qed.

(** C23: The rows of a Run follow its direct claim: after a successful call every event,
    approval, question, checkpoint and steering message of the Run is on the thread of the
    row the call returns, the ledger keeps its events in place up to their thread and only
    grows, and the queue is as it was. *)
Theorem dependents_follow now t p sid pid retarget s : db_wf (wk_db s) -> work_ok (WorkClaim now t p sid pid retarget) s ->
  let '(s', res) := continuationClaimWithRetry now t p sid pid retarget s in
  let own tenant person run := own_row (normalizeTenant t) (TrimSpace p) (TrimSpace sid) tenant person run = true in
  match res with
  | Ok (Some row) =>
      (forall e, In e (db_events (wk_db s')) -> ev_run_id e = TrimSpace sid -> ev_thread_id e = run_thread_id row) /\
      (forall a, In a (db_approvals (wk_db s')) -> own (a_tenant_id a) (a_person_id a) (a_run_id a) -> a_thread_id a = run_thread_id row) /\
      (forall c, In c (db_clarifies (wk_db s')) -> own (c_tenant_id c) (c_person_id c) (c_run_id c) -> c_thread_id c = run_thread_id row) /\
      (forall c, In c (db_checkpoints (wk_db s')) -> own (ck_TenantID c) (ck_PersonID c) (ck_RunID c) -> ck_TaskID c = run_thread_id row) /\
      (forall m, In m (wk_mailbox s') -> own (s_tenant_id m) (s_person_id m) (s_run_id m) -> s_thread_id m = run_thread_id row) /\
      (exists es, map (fun e => e <| ev_thread_id := "" |>) (db_events (wk_db s')) = map (fun e => e <| ev_thread_id := "" |>) (db_events (wk_db s)) ++ es) /\
      db_queue (wk_db s') = db_queue (wk_db s)
  | _ => s' = s
  end.
Proof.
  intros W O. pose proof (direct_claim_cases now t p sid pid retarget s) as K. destruct (continuationClaimWithRetry _ _ _ _ _ _ _) as [s' res].
  destruct K as [(e & -> & ->)|(Ne & -> & E)]; [done|]. pose proof (claim_wf _ _ _ _ _ _ _ _ W (threaded_work _ _ W O) E) as W'.
  destruct (claim_result _ _ _ _ _ _ _ _ (wf_run_ids _ W) E) as (source & parent & C & Is & Ip & D). rewrite <- Is in Ne |- *.
  rewrite (moved_row W W' C D (normalizeTenant_idemp _) Ne ltac:(rewrite Is; apply TrimSpace_idemp)).
  destruct D as [_ (es & Ev & F) Ap Cl Ck Mb Q]. rewrite Ev, Ap, Cl, Ck, Mb. change (run_thread_id (on_parent parent source)) with (run_thread_id parent).
  split; [|split; [|split; [|split; [|split; [|split; [|exact Q]]]]]].
  - intros e [He|He]%in_app_or R; [|by apply (proj1 (List.Forall_forall _ _) F)].
    eapply (updated_field _ _ ev_thread_id); [| |exact He|by apply String.eqb_eq]; reflexivity.
  - intros x Hx X. eapply (updated_field _ _ a_thread_id); [| |exact Hx|exact X]; reflexivity.
  - intros x Hx X. eapply (updated_field _ _ c_thread_id); [| |exact Hx|exact X]; reflexivity.
  - intros x Hx X. eapply (updated_field _ _ ck_TaskID); [| |exact Hx|exact X]; reflexivity.
  - intros x Hx X. eapply (updated_field _ _ s_thread_id); [| |exact Hx|exact X]; reflexivity.
  - exists (map (fun e => e <| ev_thread_id := "" |>) es). rewrite map_app. f_equal. unfold update_where. rewrite map_map. apply map_ext.
    intros e. by destruct (_ =? _)%string.
Qed.
(** *** The ledger *)

(** An event but for its thread, which a direct claim rewrites. *)
Definition untied (e : Event) : Event := e <| ev_thread_id := "" |>.

Definition continues (l l' : list Event) : Prop := exists kept new, l' = kept ++ new /\ map untied kept = map untied l.

(** The events a reader of the ledger that selects by [keep] gets after a cursor. *)
Definition read_after (keep : Event -> bool) (cursor : Z) (l : list Event) : list Event :=
  List.filter (fun e => keep e && (cursor <? ev_cursor e)%Z) l.

Lemma continues_refl l : continues l l.
Proof. exists l, []. by rewrite app_nil_r. Qed.

Lemma continues_trans l1 l2 l3 : continues l1 l2 -> continues l2 l3 -> continues l1 l3.
Proof.
  intros (k1 & n1 & -> & E1) (k2 & n2 & -> & E2). rewrite map_app in E2. apply map_eq_app in E2 as (a & b & -> & A & B).
  exists a, (b ++ n2). split; [by rewrite app_assoc|congruence].
Qed.

Lemma sorted_app_lt {A} (R : A -> A -> Prop) (l l' : list A) x y :
  StronglySorted R (l ++ l') -> In x l -> In y l' -> R x y.
Proof.
  induction l as [|a l IH]; simpl; [done|]. intros [S F]%StronglySorted_inv [->|Hx] Hy; [|by apply IH].
  apply (proj1 (List.Forall_forall _ _) F), in_or_app. by right.
Qed.

Lemma exec_work_continues o s : work_ok o s -> db_wf (wk_db s) -> continues (db_events (wk_db s)) (db_events (wk_db (exec_work o s))).
Proof.
  intros O W. destruct o; simpl; [| |apply continues_refl].
  - destruct (exec_controls_wf [op] (wk_db s) ltac:(by constructor) W) as [_ [_ _ _ _ [new E]]]. simpl in E.
    rewrite E. by exists (db_events (wk_db s)), new.
  - pose proof (direct_claim_cases now tenantID personID sourceRunID resumesRunID retarget s) as C.
    destruct (continuationClaimWithRetry _ _ _ _ _ _ _) as [s' r]. simpl. destruct C as [(e & _ & ->)|(_ & _ & E)]; [apply continues_refl|].
    destruct (claim_result _ _ _ _ _ _ _ _ (wf_run_ids _ W) E) as (source & parent & _ & _ & _ & D). destruct (cd_events _ _ _ _ _ _ D) as (es & -> & _).
    eexists _, es. split; [reflexivity|]. unfold update_where. rewrite map_map. apply map_ext. intros e. by destruct (_ =? _)%string.
Qed.

Lemma work_continues s s' : work_steps s s' -> db_wf (wk_db s) -> continues (db_events (wk_db s)) (db_events (wk_db s')).
Proof.
  induction 1 as [|s1 o St IH O]; intros W; [apply continues_refl|].
  eapply continues_trans; [by apply IH|]. apply exec_work_continues; [done|]. by apply (work_steps_wf s).
Qed.

Lemma read_after_untied keep cursor l : (forall e, keep (untied e) = keep e) ->
  map untied (read_after keep cursor l) = read_after keep cursor (map untied l).
Proof.
  intros K. unfold read_after. induction l as [|e l IH]; simpl; [done|]. rewrite K. simpl.
  destruct (_ && _); simpl; by rewrite IH.
Qed.

(** C36: The ledger is ordered and only grows over any history of the lifecycle's
    operations, direct claims and retargetings: the events there before stay the first
    ones and keep everything but their thread, cursors strictly increase in the order of
    insertion, and ids are distinct. A reader of the whole ledger, or one that selects
    events by anything but their thread, that resumes after a cursor it has seen gets what
    was left for it and every new event, once and in order. *)
Theorem event_ledger_ordered m rows s1 s2 : work_steps (mkWorkDB (emptyDB m) rows) s1 -> work_steps s1 s2 ->
  let before := db_events (wk_db s1) in
  let later := db_events (wk_db s2) in
  (exists kept new, later = kept ++ new /\ map untied kept = map untied before /\
     forall keep cursor, (forall e, keep (untied e) = keep e) -> (exists e, In e before /\ (cursor <= ev_cursor e)%Z) ->
       map untied (read_after keep cursor later) = map untied (read_after keep cursor before) ++ map untied (List.filter keep new)) /\
  StronglySorted (fun a b => (ev_cursor a < ev_cursor b)%Z) later /\ List.NoDup (map ev_id later).
Proof.
  intros St1 St2 before later. pose proof (work_steps_wf _ _ St1 (emptyDB_wf m)) as W1.
  destruct (work_continues _ _ St2 W1) as (kept & new & E & K). fold before later in E, K.
  pose proof (wf_events _ (work_steps_wf _ _ St2 W1)) as [S _ I _]. fold later in S, I. split; [|done].
  exists kept, new. do 2 (split; [done|]). intros keep cursor B (e0 & He0 & Hc).
  assert (exists e, In e kept /\ (cursor <= ev_cursor e)%Z) as (e1 & He1 & Hc1).
  { apply (in_map untied) in He0. rewrite <- K in He0. apply in_map_iff in He0 as (e1 & U & He1). exists e1. split; [done|].
    change (ev_cursor e1) with (ev_cursor (untied e1)). by rewrite U. }
  unfold read_after at 1. rewrite E, List.filter_app, map_app. fold (read_after keep cursor kept). rewrite !read_after_untied, K by done.
  rewrite <- read_after_untied by done. do 2 f_equal. apply filter_ext_in. intros e He.
  rewrite E in S. pose proof (sorted_app_lt _ kept new e1 e S He1 He) as L. simpl in L.
  assert ((cursor <? ev_cursor e)%Z = true) as -> by (apply Z.ltb_lt; lia). by rewrite andb_true_r.
Qed.
End Work.

(** ** A concrete history *)

(** A Run claims an interrupted one, and is corrected onto another. *)
#[export] Instance plainClaim : ClaimEnv := {| latestRunPlanTx := fun _ _ _ => Ok false; roots_nil := fun _ => true |}.

Definition start_op (id th channel : string) (at_ : Z) : work_op :=
  WorkControl (OpStartRun id id (at_second at_) (mkRunOwner th "default" "p1" "ws1") channel "goal" options0).
Definition stop_op (id : string) (at_ : Z) : work_op := WorkControl (OpFinishRun (at_second at_) "default" id "interrupted" 0 "").
Definition first_claim : work_op := WorkClaim (at_second 6) "default" "p1" "run_2" "run_1" false.
Definition correction : work_op := WorkClaim (at_second 7) "default" "p1" "run_2" "run_3" true.
Definition before_claim : list work_op :=
  [start_op "1" "th1" "cli" 1; stop_op "run_1" 2; start_op "2" "th2" "cli" 3; start_op "3" "th3" "tg" 4; stop_op "run_3" 5;
   WorkControl (OpAppendEvent "e" (at_second 5) (mkEventIn "default" "p1" "th2" "run_2" "note" "task" "cli" JNull ""))].

Definition work_start : WorkDB := mkWorkDB (emptyDB (mkMaintState [] [] [])) [].
Definition exec_works (ops : list work_op) (s : WorkDB) : WorkDB := fold_left (fun s o => exec_work o s) ops s.

Definition work_okb (o : work_op) (s : WorkDB) : bool :=
  match o with
  | WorkControl (OpCreateApproval _ _ _ | OpCreateClarify _ _ _) => false
  | WorkClaim _ _ _ source _ _ => forallb (fun r => negb (run_id r =? TrimSpace source)%string || negb (run_thread_id r =? "")%string) (db_runs (wk_db s))
  | _ => true
  end.

Fixpoint works_ok (ops : list work_op) (s : WorkDB) : bool :=
  match ops with [] => true | o :: ops => work_okb o s && works_ok ops (exec_work o s) end.

Lemma work_okb_ok o s : work_okb o s = true -> work_ok o s.
Proof.
  destruct o as [[]| |]; simpl; try done. intros F r Hr E. rewrite forallb_forall in F. specialize (F r Hr).
  rewrite E, String.eqb_refl in F. by apply String.eqb_neq, negb_true_iff.
Qed.

Lemma works_steps ops : forall s s0, work_steps s0 s -> works_ok ops s = true -> work_steps s0 (exec_works ops s).
Proof.
  induction ops as [|o ops IH]; intros s s0 H; simpl; [done|]. intros [O R]%andb_true_iff. apply IH; [|done].
  apply work_more; [done|by apply work_okb_ok].
Qed.

Lemma lineage_through_claims_witness :
  let s := exec_works (before_claim ++ [first_claim; correction]) work_start in
  map (fun r => (run_id r, run_thread_id r, run_resumes_run_id r)) (db_runs (wk_db s)) =
    [("run_1", "th1", ""); ("run_2", "th3", "run_3"); ("run_3", "th3", "")] /\
  forall r, In r (db_runs (wk_db s)) -> ~ tc (parent_in (db_runs (wk_db s))) r r.
Proof.
  intros s. split; [by vm_compute|]. intros r Hr.
  assert (work_steps work_start s) as St by (apply works_steps; [constructor|by vm_compute]).
  exact (proj2 (lineage_through_claims (mkMaintState [] [] []) [] s St r Hr)).
Defined.

Lemma direct_claim_moves_witness :
  let s := exec_works (before_claim ++ [first_claim]) work_start in
  let s' := exec_work correction s in
  exists source parent, In source (db_runs (wk_db s)) /\ run_id parent = "run_3" /\ run_resumes_run_id source <> "" /\
    has_child (run_tenant_id source) (run_resumes_run_id source) (db_runs (wk_db s')) = false.
Proof.
  intros s s'. assert (work_steps work_start s) as St by (apply works_steps; [constructor|by vm_compute]).
  pose proof (direct_claim_moves (at_second 7) "default" "p1" "run_2" "run_3" true s (work_steps_wf _ _ St (emptyDB_wf _))
    (work_okb_ok (WorkClaim (at_second 7) "default" "p1" "run_2" "run_3" true) s ltac:(by vm_compute))) as D.
  change s' with (fst (continuationClaimWithRetry (at_second 7) "default" "p1" "run_2" "run_3" true s)).
  assert (match snd (continuationClaimWithRetry (at_second 7) "default" "p1" "run_2" "run_3" true s) with Ok _ => true | Err _ => false end = true) as X
    by (by vm_compute).
  destruct (continuationClaimWithRetry _ _ _ _ _ _ _) as [s1 [row|e]]; [|discriminate X].
  destruct D as (source & parent & Hs & _ & _ & Ip & _ & _ & _ & _ & _ & _ & _ & N & F). exists source, parent. split; [exact Hs|]. split; [exact Ip|]. split; [exact N|exact F].
Defined.

Lemma dependents_follow_witness :
  let s := exec_works before_claim work_start in
  let s' := exec_work first_claim s in
  map (fun e => (ev_run_id e, ev_thread_id e)) (db_events (wk_db s)) = [("run_2", "th2")] /\
  forall e, In e (db_events (wk_db s')) -> ev_run_id e = "run_2" -> ev_thread_id e = "th1".
Proof.
  intros s s'. split; [by vm_compute|]. assert (work_steps work_start s) as St by (apply works_steps; [constructor|by vm_compute]).
  pose proof (dependents_follow (at_second 6) "default" "p1" "run_2" "run_1" false s (work_steps_wf _ _ St (emptyDB_wf _))
    (work_okb_ok (WorkClaim (at_second 6) "default" "p1" "run_2" "run_1" false) s ltac:(by vm_compute))) as D.
  change s' with (fst (continuationClaimWithRetry (at_second 6) "default" "p1" "run_2" "run_1" false s)).
  assert (match snd (continuationClaimWithRetry (at_second 6) "default" "p1" "run_2" "run_1" false s) with Ok (Some r) => run_thread_id r | _ => "" end = "th1") as X
    by (by vm_compute).
  destruct (continuationClaimWithRetry _ _ _ _ _ _ _) as [s1 [[row|]|e]]; [|discriminate X..]. simpl in X. rewrite <- X. exact (proj1 D).
Defined.

Lemma event_ledger_ordered_witness :
  let s1 := exec_works before_claim work_start in
  let s2 := exec_works [first_claim; WorkControl (OpAppendEvent "f" (at_second 7) (mkEventIn "default" "p1" "th1" "run_2" "note" "task" "cli" JNull ""))] s1 in
  map (fun e => (ev_cursor e, ev_thread_id e)) (db_events (wk_db s1)) = [(1%Z, "th2")] /\
  map ev_cursor (db_events (wk_db s2)) = [1%Z; 2%Z] /\
  exists new, map untied (read_after (fun _ => true) 1 (db_events (wk_db s2))) = map untied new /\ length new = 1.
Proof.
  intros s1 s2.
  assert (work_steps work_start s1) as H1 by (apply works_steps; [constructor|by vm_compute]).
  assert (work_steps s1 s2) as H2 by (apply works_steps; [constructor|by vm_compute]).
  assert (map ev_cursor (db_events (wk_db s2)) = [1%Z; 2%Z]) as C2 by (by vm_compute).
  assert (map ev_cursor (db_events (wk_db s1)) = [1%Z]) as C1 by (by vm_compute).
  assert (read_after (fun _ => true) 1 (db_events (wk_db s1)) = []) as N by (by vm_compute).
  split; [by vm_compute|]. split; [exact C2|]. clearbody s2 s1.
  destruct (event_ledger_ordered (mkMaintState [] [] []) [] s1 s2 H1 H2) as [(kept & new & E & K & R) _].
  exists new. split.
  - rewrite (R (fun _ => true) 1%Z (fun _ => eq_refl)).
    + rewrite N. simpl. f_equal. clear. induction new; simpl; congruence.
    + destruct (db_events (wk_db s1)) as [|e l]; [discriminate C1|]. exists e. split; [by left|]. pose proof (f_equal (fun x => hd 0%Z x) C1) as C. simpl in C. by rewrite C.
  - apply (f_equal (@length _)) in C2, C1, K. rewrite E in C2. rewrite !length_map in *. rewrite length_app in C2. simpl in *. lia.
Defined.
