(* ===== verification/Masks.v ===== *)
(** * Masks

    The masking of a text ([tools/redaction_spans.go]): detectors report byte ranges of
    the text they were given, and the union of the ranges is replaced once.  The
    reference [mask_runs] goes through the text byte by byte. *)

From stdpp Require Import base tactics list strings.
From Stdlib Require Import ZArith Lia Bool Ascii String List Sorting.Sorted Sorting.Permutation.
From S2P Require Import Prelude GoLib Sql.

(** A text is its bytes. *)
Definition bytes : Type := list ascii.
Definition b_ (s : string) : bytes := list_ascii_of_string s.

(** [text[a:b]], which panics out of range. *)
Definition slice (text : bytes) (a b : nat) : option bytes :=
  if (a <=? b)%nat && (b <=? length text)%nat then Some (firstn (b - a) (skipn a text)) else None.

Record maskSpan := mkSpan { ms_start : nat; ms_end : nat }.

Definition by_start (a b : maskSpan) : bool := (ms_start a <=? ms_start b)%nat.

(** The loop of [mergeSpans]: [cur] is the last merged span. *)
Fixpoint merge_sorted (cur : option maskSpan) (spans : list maskSpan) : list maskSpan :=
  match spans with
  | [] => match cur with Some c => [c] | None => [] end
  | span :: rest =>
      if (ms_end span <=? ms_start span)%nat then merge_sorted cur rest else
      match cur with
      | Some c =>
          if (ms_start span <=? ms_end c)%nat
          then merge_sorted (Some (mkSpan (ms_start c) (Nat.max (ms_end c) (ms_end span)))) rest
          else c :: merge_sorted (Some span) rest
      | None => merge_sorted (Some span) rest
      end
  end.
Definition mergeSpans (spans : list maskSpan) : list maskSpan := merge_sorted None (order_by by_start spans).

Definition REDACTED : bytes := b_ "[REDACTED]".

Fixpoint apply_from (text : bytes) (pos : nat) (merged : list maskSpan) : option bytes :=
  match merged with
  | [] => slice text pos (length text)
  | span :: rest =>
      match slice text pos (ms_start span), apply_from text (ms_end span) rest with
      | Some kept, Some out => Some (kept ++ REDACTED ++ out)
      | _, _ => None
      end
  end.
Definition applyMasks (text : bytes) (spans : list maskSpan) : option bytes :=
  match mergeSpans spans with [] => Some text | merged => apply_from text 0 merged end.

(** [sort.sort_Search]: the loop halves [j - i]. *)
Fixpoint search_loop (fuel : nat) (f : nat -> bool) (i j : nat) : nat :=
  match fuel with
  | O => i
  | S fuel => if (i <? j)%nat then let h := ((i + j) / 2)%nat in if f h then search_loop fuel f i h else search_loop fuel f (S h) j else i
  end.
Definition sort_Search (n : nat) (f : nat -> bool) : nat := search_loop n f 0 n.

Definition covered (merged : list maskSpan) (offset : nat) : bool :=
  let i := sort_Search (length merged) (fun i => match nth_error merged i with Some s => (offset <? ms_end s)%nat | None => false end) in
  match nth_error merged i with Some s => (ms_start s <=? offset)%nat | None => false end.

(** ** Reference: byte by byte *)

Definition in_span (offset : nat) (s : maskSpan) : bool := (ms_start s <=? offset)%nat && (offset <? ms_end s)%nat.
Definition in_spans (spans : list maskSpan) (offset : nat) : bool := existsb (in_span offset) spans.

(** Every maximal run of masked bytes becomes one mask. *)
Fixpoint mask_runs (hot : nat -> bool) (i : nat) (inside : bool) (text : bytes) : bytes :=
  match text with
  | [] => []
  | c :: rest =>
      if hot i then (if inside then [] else REDACTED) ++ mask_runs hot (S i) true rest
      else c :: mask_runs hot (S i) false rest
  end.
Definition masked_text (hot : nat -> bool) (text : bytes) : bytes := mask_runs hot 0 false text.

(** ** Merging *)

Lemma in_span_spec i s : in_span i s = true <-> (ms_start s <= i < ms_end s)%nat.
Proof. unfold in_span. rewrite andb_true_iff, Nat.leb_le, Nat.ltb_lt. done. Qed.

Lemma in_spans_spec spans i : in_spans spans i = true <-> exists s, In s spans /\ (ms_start s <= i < ms_end s)%nat.
Proof. unfold in_spans. rewrite existsb_exists. by setoid_rewrite in_span_spec. Qed.

Lemma in_spans_ext a b i : (forall s, In s a <-> In s b) -> in_spans a i = in_spans b i.
Proof. intros H. apply eq_true_iff_eq. rewrite !in_spans_spec. by setoid_rewrite H. Qed.

Lemma in_spans_app a b i : in_spans (a ++ b) i = in_spans a i || in_spans b i.
Proof. apply existsb_app. Qed.

(** Merged spans are not empty, lie in order and do not touch. *)
Fixpoint spaced (lo : nat) (m : list maskSpan) : Prop :=
  match m with
  | [] => True
  | s :: r => (lo <= ms_start s)%nat /\ (ms_start s < ms_end s)%nat /\ spaced (S (ms_end s)) r
  end.

Lemma spaced_weaken lo lo' m : (lo <= lo')%nat -> spaced lo' m -> spaced lo m.
Proof. destruct m; simpl; [done|]. intuition lia. Qed.

Definition current (cur : option maskSpan) : list maskSpan := match cur with Some c => [c] | None => [] end.
Abbreviation starts_from lo := (Forall (fun s => (lo <= ms_start s)%nat)).
Abbreviation by_starts := (StronglySorted (fun a b => (ms_start a <= ms_start b)%nat)).

Lemma merge_sorted_spaced spans : forall lo cur, by_starts spans ->
  match cur with Some c => (lo <= ms_start c < ms_end c)%nat /\ starts_from (ms_start c) spans | None => starts_from lo spans end ->
  spaced lo (merge_sorted cur spans).
Proof.
  induction spans as [|s spans IH]; intros lo cur O C; simpl.
  - destruct cur; simpl; [|done]. intuition lia.
  - apply StronglySorted_inv in O as [O F]. destruct (Nat.leb_spec (ms_end s) (ms_start s)).
    + apply IH; [done|]. destruct cur; [destruct C as [C1 C2]; split; [done|]; by inversion C2|by inversion C].
    + destruct cur as [c|].
      * destruct C as [C1 C2]. inversion C2; subst. destruct (Nat.leb_spec (ms_start s) (ms_end c)).
        -- apply IH; [done|]. simpl. split; [lia|done].
        -- simpl. split_and!; [lia..|]. apply IH; [done|]. split; [lia|done].
      * inversion C; subst. apply IH; [done|]. by split.
Qed.

Lemma merge_sorted_covers i spans : forall cur, by_starts spans ->
  match cur with Some c => starts_from (ms_start c) spans | None => True end ->
  in_spans (merge_sorted cur spans) i = in_spans (current cur ++ spans) i.
Proof.
  induction spans as [|s spans IH]; intros cur O C; simpl; [by destruct cur|].
  apply StronglySorted_inv in O as [O F]. rewrite in_spans_app. cbn [in_spans existsb].
  destruct (Nat.leb_spec (ms_end s) (ms_start s)).
  - rewrite IH, in_spans_app by (done || (destruct cur; [by inversion C|done])).
    assert (in_span i s = false) as -> by (apply not_true_is_false; rewrite in_span_spec; lia). done.
  - destruct cur as [c|]; [|by rewrite IH by done]. inversion C; subst. destruct (Nat.leb_spec (ms_start s) (ms_end c)).
    + rewrite IH by done. rewrite in_spans_app. cbn [current in_spans existsb]. rewrite !orb_false_r, orb_assoc. f_equal.
      apply eq_true_iff_eq. rewrite orb_true_iff, !in_span_spec. simpl. lia.
    + cbn [in_spans existsb]. fold (in_spans (merge_sorted (Some s) spans) i). rewrite IH by done. cbn [current app in_spans existsb].
      by rewrite orb_false_r.
Qed.

Lemma sorted_by_start spans : by_starts (order_by by_start spans).
Proof.
  assert (StronglySorted (fun a b => by_start a b = true) (order_by by_start spans)) as O.
  { apply order_by_sorted; unfold by_start; intros *; rewrite !Nat.leb_le; lia. }
  induction O as [|a l O IH F]; [apply SSorted_nil|]. apply SSorted_cons; [done|].
  eapply List.Forall_impl; [|exact F]. intros b. apply Nat.leb_le.
Qed.

Lemma merge_spaced spans : spaced 0 (mergeSpans spans).
Proof. apply merge_sorted_spaced; [apply sorted_by_start|]. apply Forall_forall. intros; lia. Qed.

Lemma merge_covers spans i : in_spans (mergeSpans spans) i = in_spans spans i.
Proof.
  unfold mergeSpans. rewrite merge_sorted_covers; [|apply sorted_by_start|done]. apply in_spans_ext. intros s. apply In_order_by.
Qed.

Lemma spaced_above lo m i : spaced lo m -> (i < lo)%nat -> in_spans m i = false.
Proof.
  revert lo. induction m as [|s m IH]; intros lo H L; [done|]. destruct H as (A & B & C). cbn [in_spans existsb].
  rewrite orb_false_iff. split; [apply not_true_is_false; rewrite in_span_spec; lia|apply (IH _ C); lia].
Qed.

(** Two ascending lists of spans that cover the same bytes are the same list. *)
Lemma spaced_determined m : forall lo m', spaced lo m -> spaced lo m' -> (forall i, in_spans m i = in_spans m' i) -> m = m'.
Proof.
  induction m as [|s m IH]; intros lo m' H H' E.
  - destruct m' as [|s' m']; [done|]. specialize (E (ms_start s')). symmetry in E. exfalso. destruct H' as (_ & L & _).
    cbn [in_spans existsb] in E. apply orb_false_iff in E as [E _]. apply not_true_iff_false in E. apply E, in_span_spec. lia.
  - destruct m' as [|s' m'].
    + specialize (E (ms_start s)). exfalso. destruct H as (_ & L & _). cbn [in_spans existsb] in E. apply orb_false_iff in E as [E _].
      apply not_true_iff_false in E. apply E, in_span_spec. lia.
    + destruct H as (A & B & C), H' as (A' & B' & C').
      assert (forall i, (ms_start s <= i < ms_end s)%nat \/ in_spans m i = true <-> (ms_start s' <= i < ms_end s')%nat \/ in_spans m' i = true) as Q.
      { intros i. specialize (E i). cbn [in_spans existsb] in E. rewrite <- !in_span_spec, <- !orb_true_iff. unfold in_spans. by rewrite E. }
      assert (forall i, (i <= ms_end s)%nat -> in_spans m i = false) as Z by (intros; apply (spaced_above _ _ _ C); lia).
      assert (forall i, (i <= ms_end s')%nat -> in_spans m' i = false) as Z' by (intros; apply (spaced_above _ _ _ C'); lia).
      assert (ms_start s = ms_start s') as Es.
      { destruct (Nat.lt_trichotomy (ms_start s) (ms_start s')) as [L|[L|L]]; [|done|]; exfalso.
        - specialize (Q (ms_start s)). rewrite Z' in Q by lia. destruct (proj1 Q ltac:(lia)); [lia|done].
        - specialize (Q (ms_start s')). rewrite Z in Q by lia. destruct (proj2 Q ltac:(lia)); [lia|done]. }
      assert (ms_end s = ms_end s') as Ee.
      { destruct (Nat.lt_trichotomy (ms_end s) (ms_end s')) as [L|[L|L]]; [|done|]; exfalso.
        - specialize (Q (ms_end s)). rewrite Z in Q by lia. destruct (proj2 Q ltac:(lia)); [lia|done].
        - specialize (Q (ms_end s')). rewrite Z' in Q by lia. destruct (proj1 Q ltac:(lia)); [lia|done]. }
      assert (s = s') as <- by (destruct s, s'; simpl in *; congruence). f_equal. apply (IH (S (ms_end s))); [done..|].
      intros i. destruct (Nat.le_gt_cases i (ms_end s)); [by rewrite Z, Z'|].
      apply eq_true_iff_eq. specialize (Q i). intuition lia.
Qed.

(** The unstable sort of the code does not matter: any order by start merges alike. *)
Lemma merge_any_order spans sorted : Permutation sorted spans -> by_starts sorted -> merge_sorted None sorted = mergeSpans spans.
Proof.
  intros P O. apply (spaced_determined _ 0); [|apply merge_spaced|].
  - apply merge_sorted_spaced; [done|]. apply Forall_forall. intros; lia.
  - intros i. rewrite merge_covers, merge_sorted_covers by done. apply in_spans_ext. intros s.
    split; apply Permutation_in; [done|by symmetry].
Qed.

(** ** One mask per run *)

Lemma mask_runs_cold hot text : forall n i b, (n <= length text)%nat -> (forall k, (i <= k < i + n)%nat -> hot k = false) ->
  (n = 0%nat -> b = false) -> mask_runs hot i b text = firstn n text ++ mask_runs hot (i + n) false (skipn n text).
Proof.
  induction text as [|c text IH]; intros n i b L C B; destruct n as [|n]; simpl in *; try lia.
  - done.
  - by rewrite Nat.add_0_r, B.
  - rewrite C by lia. f_equal. rewrite (IH n) by (try lia; intros; try done; apply C; lia). by rewrite Nat.add_succ_r.
Qed.

Lemma mask_runs_inside hot text : forall n i, (n <= length text)%nat -> (forall k, (i <= k < i + n)%nat -> hot k = true) ->
  mask_runs hot i true text = mask_runs hot (i + n) true (skipn n text).
Proof.
  induction text as [|c text IH]; intros n i L C; destruct n as [|n]; simpl in *; try lia.
  - done.
  - by rewrite Nat.add_0_r.
  - rewrite C by lia. simpl. rewrite (IH n) by (try lia; intros; apply C; lia). by rewrite Nat.add_succ_r.
Qed.

Lemma mask_runs_hot hot text n i : (0 < n <= length text)%nat -> (forall k, (i <= k < i + n)%nat -> hot k = true) ->
  mask_runs hot i false text = REDACTED ++ mask_runs hot (i + n) true (skipn n text).
Proof.
  intros L C. destruct text as [|c text]; simpl in *; [lia|]. destruct n as [|n]; [lia|]. rewrite C by lia. f_equal.
  rewrite (mask_runs_inside _ _ n) by (try lia; intros; apply C; lia). by rewrite Nat.add_succ_r.
Qed.

(** After a mask the next byte is not masked, so the mask ends there. *)
Lemma mask_runs_after hot text i : hot i = false -> mask_runs hot i true text = mask_runs hot i false text.
Proof. intros C. destruct text; simpl; [done|]. by rewrite C. Qed.

(** Only the bytes from the position on are looked at. *)
Lemma mask_runs_later hot hot' text : forall i b, (forall k, (i <= k)%nat -> hot k = hot' k) -> mask_runs hot i b text = mask_runs hot' i b text.
Proof.
  induction text as [|c text IH]; intros i b H; simpl; [done|]. rewrite H by lia. by rewrite !(IH (S i)) by (intros; apply H; lia).
Qed.

Definition within (text : bytes) (spans : list maskSpan) : Prop := Forall (fun s => (ms_end s <= length text)%nat) spans.

Lemma apply_from_spec text merged : forall pos, (pos <= length text)%nat -> spaced pos merged -> within text merged ->
  apply_from text pos merged = Some (mask_runs (in_spans merged) pos false (skipn pos text)).
Proof.
  induction merged as [|s merged IH]; intros pos L Sp W; cbn [apply_from].
  - unfold slice. rewrite !(proj2 (Nat.leb_le _ _)) by lia. simpl. f_equal.
    rewrite (mask_runs_cold _ _ (length (skipn pos text))) by done. rewrite skipn_all. simpl. by rewrite app_nil_r, length_skipn.
  - destruct Sp as (A & B & C). inversion W as [|? ? W1 W2]; subst. unfold slice. rewrite !(proj2 (Nat.leb_le _ _)) by lia. cbn [andb].
    rewrite IH by (try done; (eapply spaced_weaken; [|exact C]; lia)). f_equal.
    assert (forall k, (k < ms_start s)%nat -> in_spans (s :: merged) k = false) as Z1.
    { intros k K. apply (spaced_above (ms_start s)); [|done]. simpl. split; [lia|done]. }
    rewrite (mask_runs_cold (in_spans (s :: merged)) _ (ms_start s - pos)) by (rewrite ?length_skipn; try lia; intros; try done; apply Z1; lia).
    f_equal. rewrite skipn_skipn, !(Nat.add_comm pos), !Nat.sub_add by lia.
    rewrite (mask_runs_hot (in_spans (s :: merged)) _ (ms_end s - ms_start s)).
    2: { rewrite length_skipn. lia. }
    2: { intros k K. cbn [in_spans existsb]. rewrite (proj2 (in_span_spec k s)) by lia. done. }
    f_equal. rewrite skipn_skipn, !(Nat.add_comm (ms_start s)), !Nat.sub_add by lia.
    assert (in_spans (s :: merged) (ms_end s) = false) as Z2.
    { cbn [in_spans existsb]. fold (in_spans merged (ms_end s)). rewrite (spaced_above _ _ _ C) by lia.
      rewrite orb_false_r. apply not_true_is_false. rewrite in_span_spec. lia. }
    rewrite mask_runs_after by done. apply mask_runs_later.
    intros k K. cbn [in_spans existsb]. assert (in_span k s = false) as -> by (apply not_true_is_false; rewrite in_span_spec; lia). done.
Qed.

Lemma spaced_nonempty m : forall lo s, spaced lo m -> In s m -> (ms_start s < ms_end s)%nat.
Proof. induction m as [|x m IH]; intros lo s Sp Hs; [done|]. destruct Sp as (A & B & C), Hs as [<-|Hs]; [done|by apply (IH _ _ C)]. Qed.

Lemma within_merged text spans : within text spans -> within text (mergeSpans spans).
Proof.
  intros W. apply Forall_forall. intros s Hs. destruct (Nat.le_gt_cases (ms_end s) (length text)) as [L|L]; [done|exfalso].
  pose proof (spaced_nonempty _ _ _ (merge_spaced spans) Hs) as N.
  assert (in_spans (mergeSpans spans) (ms_end s - 1) = true) as B by (apply in_spans_spec; exists s; split; [done|lia]).
  rewrite merge_covers in B. apply in_spans_spec in B as (x & Hx & Bx). unfold within in W. rewrite List.Forall_forall in W. specialize (W x Hx). lia.
Qed.

Lemma applyMasks_spec text spans : within text spans -> applyMasks text spans = Some (masked_text (in_spans spans) text).
Proof.
  intros W. unfold applyMasks, masked_text.
  assert (apply_from text 0 (mergeSpans spans) = Some (mask_runs (in_spans spans) 0 false text)) as <-.
  { rewrite apply_from_spec; [|lia|apply merge_spaced|by apply within_merged]. f_equal. apply mask_runs_later. intros k _. apply merge_covers. }
  destruct (mergeSpans spans); [|done]. simpl. unfold slice. rewrite Nat.sub_0_r, Nat.leb_refl. cbn. by rewrite firstn_all.
Qed.

(** ** The binary search *)

Lemma search_loop_spec f : forall fuel i j, (j - i <= fuel)%nat -> (i <= j)%nat ->
  (forall a b, (a <= b < j)%nat -> f a = true -> f b = true) ->
  let k := search_loop fuel f i j in (i <= k <= j)%nat /\ (forall a, (i <= a < k)%nat -> f a = false) /\ ((k < j)%nat -> f k = true).
Proof.
  induction fuel as [|fuel IH]; intros i j F L M; cbn zeta.
  - simpl. split_and!; [lia..|intros; lia].
  - cbn [search_loop]. destruct (Nat.ltb_spec i j); [|split_and!; [lia..|intros; lia]].
    pose proof (Nat.div_mod_eq (i + j) 2) as D. pose proof (Nat.mod_upper_bound (i + j) 2 ltac:(lia)) as D'. destruct (f ((i + j) / 2)%nat) eqn:E.
    + destruct (IH i ((i + j) / 2)%nat) as (A & B & C); [lia..|intros a b K; apply M; lia|]. split_and!; [lia..|done|].
      intros K. destruct (Nat.eq_dec (search_loop fuel f i ((i + j) / 2)%nat) ((i + j) / 2)%nat) as [->|N]; [done|apply C; lia].
    + destruct (IH (S ((i + j) / 2)%nat) j) as (A & B & C); [lia..|done|]. split_and!; [lia..| |done].
      intros a K. destruct (Nat.le_gt_cases a ((i + j) / 2)%nat) as [G|G]; [|apply B; lia].
      apply not_true_is_false. intros T. by rewrite (M a ((i + j) / 2)%nat ltac:(lia) T) in E.
Qed.

Lemma spaced_ends m : forall lo i j a b, spaced lo m -> nth_error m i = Some a -> nth_error m j = Some b -> (i < j)%nat -> (ms_end a < ms_start b)%nat.
Proof.
  induction m as [|s m IH]; intros lo i j a b Sp Ha Hb L; [by destruct i|]. destruct Sp as (A & B & C). destruct j as [|j]; [lia|].
  destruct i as [|i]; simpl in Ha, Hb; [|apply (IH _ i j a b C); (done || lia)]. injection Ha as <-.
  assert (forall m lo j b, spaced lo m -> nth_error m j = Some b -> (lo <= ms_start b)%nat) as H.
  { clear. induction m as [|s m IH]; intros lo j b Sp H; [by destruct j|]. destruct Sp as (A & B & C).
    destruct j; simpl in H; [by injection H as <-|]. specialize (IH _ _ _ C H). lia. }
  specialize (H _ _ _ _ C Hb). lia.
Qed.

Lemma covered_spec m offset : spaced 0 m -> covered m offset = in_spans m offset.
Proof.
  intros Sp. unfold covered, sort_Search. set (f := fun i => match nth_error m i with Some s => (offset <? ms_end s)%nat | None => false end).
  destruct (search_loop_spec f (length m) 0 (length m)) as (_ & B & C); [lia..| |].
  - intros a b L. unfold f. destruct (nth_error m a) as [x|] eqn:A; [|done].
    destruct (nth_error m b) as [y|] eqn:Bq; [|apply nth_error_None in Bq; lia]. rewrite !Nat.ltb_lt.
    destruct (Nat.eq_dec a b) as [->|N]; [congruence|]. pose proof (spaced_ends _ _ _ _ _ _ Sp A Bq ltac:(lia)).
    pose proof (spaced_nonempty _ _ _ Sp (nth_error_In _ _ Bq)). lia.
  - cbn zeta in *. set (k := search_loop _ f 0 _) in *. apply eq_true_iff_eq. rewrite in_spans_spec. split.
    + destruct (nth_error m k) as [s|] eqn:K; [|done]. rewrite Nat.leb_le. intros L. exists s. split; [by eapply nth_error_In|].
      assert (k < length m)%nat as Lk by (by apply nth_error_Some; rewrite K). specialize (C Lk). unfold f in C. rewrite K, Nat.ltb_lt in C. lia.
    + intros (s & [i Hi]%In_nth_error & L). assert (f i = true) as Fi by (unfold f; rewrite Hi; apply Nat.ltb_lt; lia).
      assert (i < length m)%nat as Li by (by apply nth_error_Some; rewrite Hi).
      assert (k <= i)%nat as Ki by (destruct (Nat.le_gt_cases k i); [done|]; rewrite B in Fi by lia; done).
      destruct (nth_error m k) as [x|] eqn:K; [|apply nth_error_None in K; lia]. apply Nat.leb_le.
      specialize (C ltac:(lia)). unfold f in C. rewrite K, Nat.ltb_lt in C.
      destruct (Nat.eq_dec k i) as [->|N]; [assert (x = s) as -> by congruence; lia|].
      pose proof (spaced_ends _ _ _ _ _ _ Sp K Hi ltac:(lia)). pose proof (spaced_nonempty _ _ _ Sp (nth_error_In _ _ K)). lia.
Qed.
