(* ===== verification/Views.v ===== *)
(** * Views of a text

    What a reader sees of a text ([tools/redaction_spans.go]): without terminal
    sequences, invisible characters and identifier escapes, or without whitespace.  A
    view keeps, for every byte it holds, the range of the original it stands for, and
    spans found in the view are mapped back. *)

From stdpp Require Import base tactics list strings.
From Stdlib Require Import ZArith Lia Bool Ascii String List.
From S2P Require Import Prelude GoLib GoStrings Sql Masks.

(** ** Bytes *)

Definition ESC : ascii := ascii_of_N 0x1b.
Definition BEL : ascii := ascii_of_N 7.
Definition backslash : ascii := ascii_of_N 92.
Definition quote : ascii := ascii_of_N 34.
Definition is_byte (x c : ascii) : bool := Ascii.eqb x c.

Definition isIdentifierByte (c : ascii) : bool :=
  in_range 97 122 c || in_range 65 90 c || in_range 48 57 c || is_byte "_" c || is_byte "-" c.

Definition isJSONSpace (c : ascii) : bool := byte_in (String (ascii_of_N 32) (String (ascii_of_N 9) (String (ascii_of_N 10) (String (ascii_of_N 13) "")))) c.

Definition hexDigit (c : ascii) : option N :=
  if in_range 48 57 c then Some (code c - 48)%N
  else if in_range 97 102 c then Some (code c - 97 + 10)%N
  else if in_range 65 70 c then Some (code c - 65 + 10)%N
  else None.

Definition hexByte (high low : ascii) : option ascii :=
  match hexDigit high, hexDigit low with
  | Some h, Some l => Some (ascii_of_N (N.lor (N.shiftl h 4) l))
  | _, _ => None
  end.

(** The length of the run of backslashes the text ends with. *)
Fixpoint leading_backslashes (l : bytes) : nat :=
  match l with c :: rest => if is_byte backslash c then S (leading_backslashes rest) else O | [] => O end.
Definition backslashes_to (text : bytes) (i : nat) : nat := leading_backslashes (rev (firstn (S i) text)).

(** ** Runes *)

(** The rune at the start of [l] and its width: [utf8.DecodeRune], which gives the error
    rune of width one for bytes that start no rune. *)
Definition bits (n : N) (c : ascii) : N := N.land (code c) (N.ones n).
Definition decode_rune (l : bytes) : N * nat :=
  match rune_len l, l with
  | Some 1%nat, a :: _ => (code a, 1%nat)
  | Some 2%nat, a :: b :: _ => (bits 5 a * 64 + bits 6 b, 2%nat)%N
  | Some 3%nat, a :: b :: c :: _ => (bits 4 a * 4096 + bits 6 b * 64 + bits 6 c, 3%nat)%N
  | Some 4%nat, a :: b :: c :: d :: _ => (bits 3 a * 262144 + bits 6 b * 4096 + bits 6 c * 64 + bits 6 d, 4%nat)%N
  | _, _ => (0xFFFD%N, 1%nat)
  end.

(** The category Cf of the [unicode] package's tables. *)
Definition format_ranges : list (N * N) :=
  [(0xAD, 0xAD); (0x600, 0x605); (0x61C, 0x61C); (0x6DD, 0x6DD); (0x70F, 0x70F); (0x890, 0x891); (0x8E2, 0x8E2);
   (0x180E, 0x180E); (0x200B, 0x200F); (0x202A, 0x202E); (0x2060, 0x2064); (0x2066, 0x206F); (0xFEFF, 0xFEFF);
   (0xFFF9, 0xFFFB); (0x110BD, 0x110BD); (0x110CD, 0x110CD); (0x13430, 0x1343F); (0x1BCA0, 0x1BCA3);
   (0x1D173, 0x1D17A); (0xE0001, 0xE0001); (0xE0020, 0xE007F)]%N.
Definition is_format (r : N) : bool := (0x80 <=? r)%N && existsb (fun p => (fst p <=? r)%N && (r <=? snd p)%N) format_ranges.

(** The loop over the runes of [l]; [length l] steps are enough. *)
Fixpoint any_format (fuel : nat) (l : bytes) : bool :=
  match fuel, l with
  | S fuel, _ :: _ => let (r, size) := decode_rune l in is_format r || any_format fuel (skipn size l)
  | _, _ => false
  end.

Fixpoint hasFormatCharacter (text : bytes) : bool :=
  match text with
  | c :: rest => if in_range 0 0x7F c then hasFormatCharacter rest else any_format (length text) text
  | [] => false
  end.

(** ** Escapes *)

(** [strings.Index]. *)
Fixpoint has_prefix (pat l : bytes) : bool :=
  match pat, l with
  | [], _ => true
  | p :: pat, c :: l => Ascii.eqb p c && has_prefix pat l
  | _ :: _, [] => false
  end.
Fixpoint Index (l pat : bytes) : option nat :=
  if has_prefix pat l then Some O else
  match l with [] => None | _ :: l => match Index l pat with Some n => Some (S n) | None => None end end.

Definition identifierEscapeAt (text : bytes) (i : nat) : option ascii :=
  match skipn i text with
  | b :: u :: z1 :: z2 :: high :: low :: _ =>
      if is_byte backslash b && is_byte "u" u && is_byte "0" z1 && is_byte "0" z2 then
        match hexByte high low with
        | Some value => if isIdentifierByte value && Nat.odd (backslashes_to text i) then Some value else None
        | None => None
        end
      else None
  | _ => None
  end.

(** The search for escapes; every step goes on behind a backslash found. *)
Fixpoint identifier_escape_from (fuel : nat) (text : bytes) (at_ : nat) : bool :=
  match fuel with
  | O => false
  | S fuel =>
      match Index (skipn at_ text) (b_ "\u") with
      | None => false
      | Some i => match identifierEscapeAt text (at_ + i) with Some _ => true | None => identifier_escape_from fuel text (at_ + i + 2) end
      end
  end.
Definition hasIdentifierEscape (text : bytes) : bool := identifier_escape_from (S (length text)) text 0.

(** [n] bytes were read. *)
Fixpoint control_sequence (n : nat) (l : bytes) : nat :=
  match l with
  | c :: rest => if in_range 0x40 0x7e c then S n else if in_range 0x20 0x7e c then control_sequence (S n) rest else O
  | [] => O
  end.
Fixpoint system_command (n : nat) (l : bytes) : nat :=
  match l with
  | c :: rest =>
      if is_byte BEL c then S n
      else if is_byte ESC c && match rest with d :: _ => is_byte backslash d | [] => false end then S (S n)
      else if is_byte newline c then O
      else system_command (S n) rest
  | [] => O
  end.
Definition terminalSequenceAt (text : bytes) (i : nat) : nat :=
  match skipn i text with
  | e :: c :: rest =>
      if negb (is_byte ESC e) then O
      else if is_byte "[" c then control_sequence 2 rest
      else if is_byte "]" c then system_command 2 rest
      else if in_range 0x40 0x5f c then 2%nat else O
  | _ => O
  end.

(** ** Views *)

Definition int32 (n : nat) : Z := ((Z.of_nat n + 2 ^ 31) mod 2 ^ 32 - 2 ^ 31)%Z.

(** One byte of a builder with the range it stands for. *)
Record cell := mkCell { cl_byte : ascii; cl_start : Z; cl_end : Z }.
Record textView := mkView { vw_text : bytes; vw_start : list Z; vw_end : list Z }.
Definition view (b : list cell) : textView := mkView (map cl_byte b) (map cl_start b) (map cl_end b).

(** [textView.original] of a span that lies inside the view. *)
Definition original (v : textView) (span : maskSpan) : maskSpan :=
  mkSpan (Z.to_nat (nth (ms_start span) (vw_start v) 0%Z)) (Z.to_nat (nth (ms_end span - 1) (vw_end v) 0%Z)).

Fixpoint keep (l : bytes) (at_ n : nat) : list cell :=
  match n, l with
  | S n, c :: rest => mkCell c (int32 at_) (int32 (at_ + 1)) :: keep rest (at_ + 1) n
  | _, _ => []
  end.
Definition decoded (char : ascii) (at_ n : nat) : list cell := [mkCell char (int32 at_) (int32 (at_ + n))].

(** What is at [i]: the cells it adds and its length. *)
Definition read_unit (text : bytes) (i : nat) : list cell * nat :=
  let n := terminalSequenceAt text i in
  if (0 <? n)%nat then ([], n) else
  match identifierEscapeAt text i with
  | Some char => (decoded char i 6, 6%nat)
  | None =>
      let (r, size) := decode_rune (skipn i text) in
      if is_format r then ([], size) else (keep (skipn i text) i size, size)
  end.
Fixpoint read_units (fuel : nat) (text : bytes) (i : nat) : list cell :=
  match fuel with
  | O => []
  | S fuel => if (i <? length text)%nat then let (cells, n) := read_unit text i in cells ++ read_units fuel text (i + n) else []
  end.

(** The text as its reader sees it. *)
Definition reading (text : bytes) : list cell := read_units (length text) text 0.
Definition detectionView (text : bytes) : option textView :=
  if negb (existsb (is_byte ESC) text) && negb (hasFormatCharacter text) && negb (hasIdentifierEscape text) then None
  else Some (view (reading text)).

Fixpoint without_space (text : bytes) (i : nat) : list cell :=
  match text with
  | c :: rest => (if isJSONSpace c then [] else keep text i 1) ++ without_space rest (i + 1)
  | [] => []
  end.
Definition whitespaceFreeView (text : bytes) : textView := view (without_space text 0).

(** ASCII letters only: the bytes of other runes stay. *)
Definition asciiLower (text : bytes) : bytes := map lower_ascii text.

(** ** Lengths *)

Lemma int32_small n : (Z.of_nat n < 2 ^ 31)%Z -> int32 n = Z.of_nat n.
Proof. intros H. unfold int32. rewrite Z.mod_small; lia. Qed.

Lemma control_sequence_bound l : forall n, (control_sequence n l <= n + length l)%nat.
Proof. induction l as [|c l IH]; intros n; simpl; [lia|]. repeat case_if; [lia| |lia]. specialize (IH (S n)). lia. Qed.

Lemma system_command_bound l : forall n, (system_command n l <= n + length l)%nat.
Proof.
  induction l as [|c l IH]; intros n; simpl; [lia|]. case_if; [lia|]. destruct (_ && _) eqn:E; [|case_if; [lia|]; specialize (IH (S n)); lia].
  destruct l; simpl in *; [by rewrite andb_false_r in E|lia].
Qed.

Lemma terminal_bound text i : (terminalSequenceAt text i <= length text - i)%nat.
Proof.
  unfold terminalSequenceAt. destruct (skipn i text) as [|e [|c rest]] eqn:E; [lia..|].
  assert (length text - i = S (S (length rest)))%nat as -> by (rewrite <- length_skipn, E; done).
  pose proof (control_sequence_bound rest 2). pose proof (system_command_bound rest 2). repeat case_if; lia.
Qed.

Lemma escape_bound text i c : identifierEscapeAt text i = Some c -> (i + 6 <= length text)%nat.
Proof.
  unfold identifierEscapeAt. destruct (skipn i text) as [|b1 [|b2 [|b3 [|b4 [|b5 [|b6 r]]]]]] eqn:E; try done. intros _.
  assert (length (skipn i text) = 6 + length r)%nat as H by (by rewrite E). rewrite length_skipn in H. lia.
Qed.

Lemma decode_rune_bound l r n : decode_rune l = (r, n) -> (0 < length l)%nat -> (1 <= n <= length l)%nat.
Proof.
  unfold decode_rune. destruct l as [|a [|b [|c [|d l]]]]; simpl; [lia|..]; intros H _;
    repeat case_match; simplify_eq; simpl; lia.
Qed.

(** ** Order

    The cells of a view stand for ranges in order that do not overlap. *)

Fixpoint ascending (lo : nat) (cells : list cell) (hi : nat) : Prop :=
  match cells with
  | [] => (lo <= hi)%nat
  | c :: rest => exists a b, cl_start c = Z.of_nat a /\ cl_end c = Z.of_nat b /\ (lo <= a < b)%nat /\ ascending b rest hi
  end.

Lemma ascending_weaken lo lo' cells hi : (lo <= lo')%nat -> ascending lo' cells hi -> ascending lo cells hi.
Proof. destruct cells; simpl; [lia|]. intros L (a & b & ? & ? & ? & ?). exists a, b. split_and!; (done || lia). Qed.

Lemma ascending_app xs : forall lo mid ys hi, ascending lo xs mid -> ascending mid ys hi -> ascending lo (xs ++ ys) hi.
Proof.
  induction xs as [|c xs IH]; intros lo mid ys hi X Y; simpl in *; [by eapply ascending_weaken|].
  destruct X as (a & b & ? & ? & ? & ?). exists a, b. split_and!; try (done || lia). by eapply IH.
Qed.

Lemma keep_ascending l : forall at_ n, (n <= length l)%nat -> (Z.of_nat (at_ + n) < 2 ^ 31)%Z -> ascending at_ (keep l at_ n) (at_ + n).
Proof.
  induction l as [|c l IH]; intros at_ n L B; destruct n as [|n]; simpl in *; try lia. exists at_, (at_ + 1)%nat.
  rewrite !int32_small by lia. split_and!; [done..|lia|lia|]. replace (at_ + S n)%nat with (at_ + 1 + n)%nat by lia. apply IH; lia.
Qed.

Lemma read_unit_spec text i cells n : (i < length text)%nat -> (Z.of_nat (length text) < 2 ^ 31)%Z -> read_unit text i = (cells, n) ->
  (1 <= n)%nat /\ (i + n <= length text)%nat /\ ascending i cells (i + n).
Proof.
  intros L B. unfold read_unit. destruct (Nat.ltb_spec 0 (terminalSequenceAt text i)) as [T|T].
  - intros [= <- <-]. pose proof (terminal_bound text i). simpl. lia.
  - destruct (identifierEscapeAt text i) as [c|] eqn:E.
    + intros [= <- <-]. apply escape_bound in E. split_and!; [lia..|]. exists i, (i + 6)%nat. simpl. rewrite !int32_small by lia. split_and!; (done || lia).
    + destruct (decode_rune (skipn i text)) as [r size] eqn:D. apply decode_rune_bound in D; [|rewrite length_skipn; lia].
      rewrite length_skipn in D. case_if; intros [= <- <-]; simpl; [lia|]. split_and!; [lia..|]. apply keep_ascending; [rewrite length_skipn|]; lia.
Qed.

Lemma read_units_ascending text : (Z.of_nat (length text) < 2 ^ 31)%Z -> forall fuel i, (i <= length text)%nat ->
  ascending i (read_units fuel text i) (length text).
Proof.
  intros B fuel. induction fuel as [|fuel IH]; intros i L; simpl; [done|]. destruct (Nat.ltb_spec i (length text)); [|done].
  destruct (read_unit text i) as [cells n] eqn:U. apply read_unit_spec in U as (N & M & A); [|done..].
  eapply ascending_app; [exact A|]. by apply IH.
Qed.

Lemma without_space_ascending text : forall i, (Z.of_nat (i + length text) < 2 ^ 31)%Z -> ascending i (without_space text i) (i + length text).
Proof.
  induction text as [|c text IH]; intros i B; cbn [without_space length] in *; [simpl; lia|].
  replace (i + S (length text))%nat with (i + 1 + length text)%nat in * by lia.
  eapply ascending_app; [|apply IH; lia]. case_if; [simpl; lia|]. apply keep_ascending; simpl; lia.
Qed.

(** Positions of the cells. *)
Lemma ascending_nth cells : forall lo hi k c, ascending lo cells hi -> nth_error cells k = Some c ->
  exists a b, cl_start c = Z.of_nat a /\ cl_end c = Z.of_nat b /\ (lo <= a < b)%nat /\ (b <= hi)%nat.
Proof.
  assert (forall cells lo hi, ascending lo cells hi -> (lo <= hi)%nat) as H.
  { clear. induction cells as [|c cells IH]; intros lo hi A; [done|]. destruct A as (a & b & _ & _ & L & A). specialize (IH _ _ A). lia. }
  induction cells as [|x cells IH]; intros lo hi k c A K; [by destruct k|]. destruct A as (a & b & Ea & Eb & L & A). destruct k as [|k]; simpl in K.
  - injection K as <-. exists a, b. split_and!; [done..|lia|lia|]. by eapply H.
  - destruct (IH _ _ _ _ A K) as (a' & b' & ? & ? & ? & ?). exists a', b'. split_and!; (done || lia).
Qed.

Lemma ascending_order cells : forall lo hi k k' c c', ascending lo cells hi -> nth_error cells k = Some c -> nth_error cells k' = Some c' ->
  (k < k')%nat -> (cl_end c <= cl_start c')%Z.
Proof.
  induction cells as [|x cells IH]; intros lo hi k k' c c' A K K' L; [by destruct k|]. destruct A as (a & b & Ea & Eb & Lt & A).
  destruct k' as [|k']; [lia|]. destruct k as [|k]; simpl in K, K'.
  - injection K as <-. destruct (ascending_nth _ _ _ _ _ A K') as (a' & b' & -> & _ & ? & _). lia.
  - apply (IH _ _ k k' c c' A); (done || lia).
Qed.

(** The original range of a span of the view covers whole cells, and no part of the
    others. *)
Definition covers_cells (s : maskSpan) (cells : list cell) (j n : nat) : Prop :=
  forall k c, nth_error cells k = Some c ->
    if (j <=? k)%nat && (k <? j + n)%nat then (Z.of_nat (ms_start s) <= cl_start c)%Z /\ (cl_end c <= Z.of_nat (ms_end s))%Z
    else (cl_end c <= Z.of_nat (ms_start s))%Z \/ (Z.of_nat (ms_end s) <= cl_start c)%Z.

Lemma original_spec lo cells hi j n : ascending lo cells hi -> (j + n <= length cells)%nat -> (0 < n)%nat ->
  let s := original (view cells) (mkSpan j (j + n)) in
  (lo <= ms_start s < ms_end s)%nat /\ (ms_end s <= hi)%nat /\ covers_cells s cells j n.
Proof.
  intros A L N s.
  destruct (nth_error cells j) as [c1|] eqn:K1; [|apply nth_error_None in K1; lia].
  destruct (nth_error cells (j + n - 1)) as [c2|] eqn:K2; [|apply nth_error_None in K2; lia].
  destruct (ascending_nth _ _ _ _ _ A K1) as (a1 & b1 & Ea1 & Eb1 & L1 & H1). destruct (ascending_nth _ _ _ _ _ A K2) as (a2 & b2 & Ea2 & Eb2 & L2 & H2).
  assert (ms_start s = a1) as S1.
  { simpl. rewrite (nth_error_nth _ _ _ (map_nth_error cl_start _ _ K1)), Ea1. apply Nat2Z.id. }
  assert (ms_end s = b2) as S2.
  { simpl. rewrite (nth_error_nth _ _ _ (map_nth_error cl_end _ _ K2)), Eb2. apply Nat2Z.id. }
  assert (forall k k' c c', nth_error cells k = Some c -> nth_error cells k' = Some c' -> (k <= k')%nat ->
    (cl_start c <= cl_start c')%Z /\ (cl_end c <= cl_end c')%Z) as Mono.
  { intros k k' c c' K K' Le. destruct (Nat.eq_dec k k') as [->|Ne]; [by assert (c = c') as -> by congruence|].
    pose proof (ascending_order _ _ _ _ _ _ _ A K K' ltac:(lia)). destruct (ascending_nth _ _ _ _ _ A K) as (? & ? & -> & ? & ? & _).
    destruct (ascending_nth _ _ _ _ _ A K') as (? & ? & ? & -> & ? & _). lia. }
  split_and!.
  - lia.
  - destruct (Mono _ _ _ _ K1 K2 ltac:(lia)). lia.
  - lia.
  - intros k c K. rewrite S1, S2. destruct (Nat.leb_spec j k); destruct (Nat.ltb_spec k (j + n)); simpl.
    + destruct (Mono _ _ _ _ K1 K ltac:(lia)), (Mono _ _ _ _ K K2 ltac:(lia)). lia.
    + right. pose proof (ascending_order _ _ _ _ _ _ _ A K2 K ltac:(lia)). lia.
    + left. pose proof (ascending_order _ _ _ _ _ _ _ A K K1 ltac:(lia)). lia.
    + lia.
Qed.

(** ** A text that needs no view *)

Lemma Index_spec pat l : match Index l pat with
  | Some n => has_prefix pat (skipn n l) = true /\ forall m, (m < n)%nat -> has_prefix pat (skipn m l) = false
  | None => forall m, has_prefix pat (skipn m l) = false
  end.
Proof.
  induction l as [|c l IH]; cbn [Index].
  - destruct (has_prefix pat []) eqn:E; [split; [done|lia]|]. intros m. by rewrite skipn_nil.
  - destruct (has_prefix pat (c :: l)) eqn:E; [split; [done|lia]|]. destruct (Index l pat) as [n|].
    + destruct IH as [H1 H2]. split; [done|]. intros [|m] M; [done|]. apply H2. lia.
    + intros [|m]; [done|apply IH].
Qed.

Lemma escape_marker l : has_prefix (b_ "\u") l = match l with a :: b :: _ => is_byte backslash a && is_byte "u" b | _ => false end.
Proof.
  change (b_ "\u") with [backslash; "u"%char]. unfold is_byte. destruct l as [|a [|b l]]; cbn [has_prefix]; [done|apply andb_false_r|].
  by rewrite andb_true_r.
Qed.

Lemma escape_prefix text i c : identifierEscapeAt text i = Some c -> has_prefix (b_ "\u") (skipn i text) = true.
Proof.
  rewrite escape_marker. unfold identifierEscapeAt. destruct (skipn i text) as [|b1 [|b2 [|b3 [|b4 [|b5 [|b6 r]]]]]]; try done.
  destruct (is_byte backslash b1 && is_byte "u" b2); done.
Qed.

Lemma no_escape fuel text : forall at_, (length text - at_ < fuel)%nat -> identifier_escape_from fuel text at_ = false ->
  forall i, (at_ <= i)%nat -> identifierEscapeAt text i = None.
Proof.
  induction fuel as [|fuel IH]; intros at_ F H i L; [lia|]. cbn [identifier_escape_from] in H.
  destruct (identifierEscapeAt text i) as [c|] eqn:E; [exfalso|done]. pose proof (escape_prefix _ _ _ E) as P.
  pose proof (Index_spec (b_ "\u") (skipn at_ text)) as X. destruct (Index _ _) as [n|].
  - destruct X as [X1 X2]. destruct (identifierEscapeAt text (at_ + n)) as [c'|] eqn:E'; [done|].
    rewrite skipn_skipn in X1. assert (forall m, (m < n)%nat -> has_prefix (b_ "\u") (skipn (at_ + m) text) = false) as X3.
    { intros m M. specialize (X2 m M). rewrite skipn_skipn in X2. by rewrite Nat.add_comm. }
    assert (i = at_ + (i - at_))%nat as Ei by lia. destruct (Nat.lt_trichotomy (i - at_) n) as [Lt|[Eq|Gt]].
    + rewrite Ei, X3 in P by lia. done.
    + rewrite Ei, Eq, E' in E. done.
    + destruct (Nat.eq_dec i (at_ + n + 1)) as [Ei'|Ne].
      * rewrite Nat.add_comm in X1. rewrite Ei', Nat.add_comm, <- skipn_skipn in P. rewrite escape_marker in X1, P.
        destruct (skipn (at_ + n) text) as [|b1 [|b2 r]]; [done..|]. cbn [skipn] in P. destruct r as [|b3 r]; [done|]. unfold is_byte in *.
        apply andb_true_iff in X1 as [_ X1%Ascii.eqb_eq]. apply andb_true_iff in P as [P%Ascii.eqb_eq _]. by rewrite <- X1 in P.
      * assert (identifierEscapeAt text i = None) as N; [|by rewrite N in E]. apply (IH (at_ + n + 2)%nat); [|done|lia].
        apply escape_bound in E. lia.
  - specialize (X (i - at_)%nat). rewrite skipn_skipn in X. replace (i - at_ + at_)%nat with i in X by lia. congruence.
Qed.

Lemma any_format_fuel : forall fuel fuel' l, (length l <= fuel)%nat -> (length l <= fuel')%nat -> any_format fuel l = any_format fuel' l.
Proof.
  induction fuel as [|fuel IH]; intros [|fuel'] l L L'; [done|destruct l; simpl in *; (done || lia)..|].
  destruct l as [|c l]; [done|]. cbn [any_format]. destruct (decode_rune (c :: l)) as [r size] eqn:D. f_equal.
  apply decode_rune_bound in D; [|simpl; lia]. apply IH; rewrite length_skipn; simpl in *; lia.
Qed.

Lemma decode_ascii c l : in_range 0 0x7F c = true -> decode_rune (c :: l) = (code c, 1%nat).
Proof. intros H. unfold decode_rune, rune_len. by rewrite H. Qed.

Lemma ascii_not_format c : in_range 0 0x7F c = true -> is_format (code c) = false.
Proof.
  unfold in_range, is_format. intros H. apply andb_true_iff in H as [_ H%N.leb_le]. destruct (N.leb_spec 0x80 (code c)); [lia|done].
Qed.

(** The scan for the first byte that is not ASCII changes nothing. *)
Lemma hasFormatCharacter_any text : hasFormatCharacter text = any_format (length text) text.
Proof.
  induction text as [|c text IH]; [done|]. cbn [hasFormatCharacter]. destruct (in_range 0 127 c) eqn:R; [|done].
  rewrite IH. cbn [any_format length]. by rewrite decode_ascii, ascii_not_format by done.
Qed.

Lemma keep_app l : forall at_ n m, keep l at_ (n + m) = keep l at_ n ++ keep (skipn n l) (at_ + n) m.
Proof.
  induction l as [|c l IH]; intros at_ n m; destruct n as [|n]; simpl; rewrite ?Nat.add_0_r; try done.
  - by destruct m.
  - f_equal. rewrite IH. do 2 f_equal. lia.
Qed.

Lemma keep_bytes l at_ : map cl_byte (keep l at_ (length l)) = l.
Proof. revert at_. induction l as [|c l IH]; intros at_; simpl; [done|]. by rewrite IH. Qed.

Lemma no_terminal text i : existsb (is_byte ESC) text = false -> terminalSequenceAt text i = 0%nat.
Proof.
  intros H. unfold terminalSequenceAt. destruct (skipn i text) as [|e [|c rest]] eqn:E; [done..|].
  rewrite (existsb_false_In _ _ e H); [done|]. rewrite <- (firstn_skipn i text), E. apply in_or_app. right. by left.
Qed.

Lemma read_units_plain text : existsb (is_byte ESC) text = false -> hasIdentifierEscape text = false ->
  forall fuel i, (i <= length text)%nat -> (length text - i <= fuel)%nat -> any_format (length text) (skipn i text) = false ->
  read_units fuel text i = keep (skipn i text) i (length text - i).
Proof.
  intros HT HE. assert (forall i, identifierEscapeAt text i = None) as NE.
  { intros i. apply (no_escape (S (length text)) text 0); [lia|done|lia]. }
  induction fuel as [|fuel IH]; intros i L F HF; cbn [read_units]; [by replace (length text - i)%nat with 0%nat by lia; destruct (skipn i text)|].
  destruct (Nat.ltb_spec i (length text)) as [Lt|Ge]; [|by replace (length text - i)%nat with 0%nat by lia; destruct (skipn i text)].
  unfold read_unit. rewrite no_terminal, NE by done. cbn [Nat.ltb Nat.leb].
  destruct (decode_rune (skipn i text)) as [r size] eqn:D. pose proof D as Db. apply decode_rune_bound in Db; [|rewrite length_skipn; lia].
  rewrite length_skipn in Db. destruct (length text) as [|len] eqn:Len; [lia|]. destruct (skipn i text) as [|c rest] eqn:Sk.
  { assert (length (skipn i text) = 0%nat) as Q by (by rewrite Sk). rewrite length_skipn in Q. lia. }
  cbn [any_format] in HF. rewrite D in HF. apply orb_false_iff in HF as [-> HF]. rewrite <- Sk in *.
  rewrite IH; [|lia|lia|].
  - replace (S len - i)%nat with (size + (S len - (i + size)))%nat at 1 by lia. rewrite keep_app, skipn_skipn. do 2 f_equal. f_equal. lia.
  - rewrite skipn_skipn in HF. rewrite Nat.add_comm. rewrite <- HF. apply any_format_fuel; rewrite length_skipn; lia.
Qed.

(** When no view is made, the reader sees the text itself. *)
Lemma reading_plain text : detectionView text = None -> reading text = keep text 0 (length text).
Proof.
  unfold detectionView. destruct (existsb _ text) eqn:HT; [done|]. destruct (hasFormatCharacter text) eqn:HF; [done|].
  destruct (hasIdentifierEscape text) eqn:HE; [done|]. intros _. unfold reading. rewrite read_units_plain; [|done..|lia|lia|].
  - by rewrite Nat.sub_0_r.
  - by rewrite <- hasFormatCharacter_any.
Qed.

Lemma keep_nth l : forall at_ n k c, nth_error (keep l at_ n) k = Some c -> cl_start c = int32 (at_ + k) /\ cl_end c = int32 (at_ + k + 1).
Proof.
  induction l as [|x l IH]; intros at_ n k c K; destruct n as [|n]; try by destruct k. destruct k as [|k]; simpl in K.
  - injection K as <-. by rewrite Nat.add_0_r.
  - apply IH in K. by rewrite <- !Nat.add_assoc in *.
Qed.

Lemma reading_ascending text : (Z.of_nat (length text) < 2 ^ 31)%Z -> ascending 0 (reading text) (length text).
Proof. intros B. apply read_units_ascending; [done|lia]. Qed.

(** Where detection looks, and the original range of what it finds there. *)
Definition seen (text : bytes) : bytes := match detectionView text with Some v => vw_text v | None => text end.
Definition seen_span (text : bytes) (s : maskSpan) : maskSpan := match detectionView text with Some v => original v s | None => s end.

Lemma seen_reading text : seen text = map cl_byte (reading text).
Proof.
  unfold seen. destruct (detectionView text) as [v|] eqn:D; [|by rewrite (reading_plain _ D), keep_bytes].
  unfold detectionView in D. case_match; [done|]. by injection D as <-.
Qed.

Lemma seen_span_spec text j n : (Z.of_nat (length text) < 2 ^ 31)%Z -> (0 < n)%nat -> (j + n <= length (seen text))%nat ->
  let s := seen_span text (mkSpan j (j + n)) in
  (ms_start s < ms_end s)%nat /\ (ms_end s <= length text)%nat /\ covers_cells s (reading text) j n.
Proof.
  intros B N L. rewrite seen_reading, length_map in L. unfold seen_span. destruct (detectionView text) as [v|] eqn:D.
  - unfold detectionView in D. case_match; [done|]. injection D as <-.
    destruct (original_spec 0 (reading text) (length text) j n) as (H1 & H2 & H3); [by apply reading_ascending|done..|].
    split_and!; [lia|done|done].
  - pose proof (reading_plain _ D) as R. assert (length (reading text) = length text) as E by (by rewrite <- (length_map cl_byte), R, keep_bytes).
    split_and!; simpl; [lia..|]. intros k c K. assert (k < length text)%nat as Lk by (rewrite <- E; apply nth_error_Some; by rewrite K).
    rewrite R in K. apply keep_nth in K as [-> ->]. rewrite !int32_small by lia. simpl.
    destruct (Nat.leb_spec j k), (Nat.ltb_spec k (j + n)); simpl; lia.
Qed.
