(* ===== verification/Secrets.v ===== *)
(** * Registered secrets

    The registry of exact secret values and the forms a value is looked for in
    ([tools/security.go]), the snapshot redaction reads and the spans it finds
    ([tools/redaction_secrets.go]). *)

From stdpp Require Import base tactics list strings gmap.
From Stdlib Require Import ZArith Lia Bool Ascii String List.
From S2P Require Import Prelude GoLib GoStrings Sql Masks Views.

(** ** The forms of a value *)

Definition hex_lower (n : N) : ascii := ascii_of_N (if (n <? 10)%N then 48 + n else 87 + n).
Definition u00 (c : ascii) : bytes := b_ "\u00" ++ [hex_lower (code c / 16); hex_lower (code c mod 16)].

(** The ASCII part of [encoding/json]'s strings. *)
Definition json_byte (html : bool) (c : ascii) : bytes :=
  if is_byte quote c || is_byte backslash c then [backslash; c]
  else if (code c =? 8)%N then b_ "\b" else if (code c =? 12)%N then b_ "\f" else if (code c =? 10)%N then b_ "\n"
  else if (code c =? 13)%N then b_ "\r" else if (code c =? 9)%N then b_ "\t"
  else if in_range 0 31 c || html && byte_in "<>&" c then u00 c
  else [c].

Definition json_rune (html : bool) (rune : bytes) : bytes :=
  match rune with
  | [c] => json_byte html c
  | [a; b; c] =>
      if (code a =? 0xE2)%N && (code b =? 0x80)%N && (code c =? 0xA8)%N then b_ "\u2028"
      else if (code a =? 0xE2)%N && (code b =? 0x80)%N && (code c =? 0xA9)%N then b_ "\u2029"
      else rune
  | _ => rune
  end.

(** A string rune by rune; bytes that are no rune become [bad]. *)
Fixpoint map_rune (f : bytes -> bytes) (bad : bytes) (fuel : nat) (l : bytes) : bytes :=
  match fuel, l with
  | S fuel, _ :: rest =>
      match rune_len l with
      | Some n => f (firstn n l) ++ map_rune f bad fuel (skipn n l)
      | None => bad ++ map_rune f bad fuel rest
      end
  | _, _ => []
  end.

Definition jsonHTMLStringBody (value : bytes) : bytes := map_rune (json_rune true) (b_ "\ufffd") (length value) value.
Definition jsonStringBody (value : bytes) : bytes := map_rune (json_rune false) (b_ "\ufffd") (length value) value.

Definition control_rune (rune : bytes) : bytes :=
  match rune with
  | [c] => if in_range 0 31 c then u00 c else if is_byte quote c || is_byte backslash c then [backslash; c] else rune
  | _ => rune
  end.
Definition controlEscaped (value : bytes) : bytes := map_rune control_rune error_rune (length value) value.

(** Behind a [\u] of an encoded string are four hex digits. *)
Definition upper_ascii (c : ascii) : ascii := if in_range 97 122 c then ascii_of_N (code c - 32) else c.
Fixpoint upperHexEscapes (form : bytes) : bytes :=
  match form with
  | c :: rest =>
      if is_byte backslash c then
        match rest with
        | u :: tail =>
            match tail with
            | d1 :: d2 :: d3 :: d4 :: rest' =>
                if is_byte "u" u then c :: u :: map upper_ascii [d1; d2; d3; d4] ++ upperHexEscapes rest'
                else c :: u :: upperHexEscapes tail
            | _ => c :: u :: upperHexEscapes tail
            end
        | [] => [c]
        end
      else c :: upperHexEscapes rest
  | [] => []
  end.

Definition bytes_eqb (a b : bytes) : bool := bool_decide (a = b).
Definition longer_first (a b : bytes) : bool := (length b <=? length a)%nat.

Definition jsonEscapedForms (value : bytes) : list bytes :=
  let add forms variant := if negb (bytes_eqb variant []) && negb (existsb (bytes_eqb variant) forms) then forms ++ [variant] else forms in
  let forms := fold_left (fun forms form => fold_left add [form; upperHexEscapes form] forms)
                 [jsonHTMLStringBody value; jsonStringBody value; controlEscaped value] [value] in
  order_by longer_first forms.

(** ** Rules *)

Record secretForm := mkForm { sf_text : bytes; sf_raw : bool }.
Record secretRule := mkRule { sr_identifierLike : bool; sr_forms : list secretForm; sr_compact : bytes }.

Definition isIdentifierLikeSecret (value : string) : bool :=
  negb (value =? "")%string && forallb isIdentifierByte (b_ value).

Definition CRLF : string := String (ascii_of_N 13) (String (ascii_of_N 10) "").
Definition LF : string := String (ascii_of_N 10) "".

(** [strings.Map] dropping JSON whitespace. *)
Definition withoutWhitespace (text : string) : string := map_drop isJSONSpace text.

Definition line_variants (value : string) : list string :=
  if Contains value LF then
    let lf := ReplaceAll value CRLF LF in
    fold_left (fun vs v => if in_set vs v then vs else vs ++ [v]) [lf; ReplaceAll lf LF CRLF] [value]
  else [value].

Section Registry.
(** [decodeJSON] yields an object or array: [encoding/json]'s decoder. *)
Context (json_container : string -> bool).

Definition newSecretRule (value : string) : secretRule :=
  let forms := fold_left (fun forms variant =>
      fold_left (fun forms form => if existsb (fun known => bytes_eqb (sf_text known) form) forms then forms
                                   else forms ++ [mkForm form (bytes_eqb form (b_ variant))])
        (jsonEscapedForms (b_ variant)) forms)
    (line_variants value) [] in
  let compact := if (HasPrefix value "{" || HasPrefix value "[") && json_container value then b_ (withoutWhitespace value) else [] in
  mkRule (isIdentifierLikeSecret value) forms compact.

(** ** Snapshots *)

Definition jsonStructure : string := String "[" (String "]" (String "{" (String "}" (String quote (String ":" (String "," "")))))).

Record multilineSecret := mkMultiline { ml_lines : list bytes; ml_skip : nat }.

Fixpoint split_lines (l : bytes) : list bytes :=
  match l with
  | [] => [[]]
  | c :: rest => if is_byte newline c then [] :: split_lines rest else
      match split_lines rest with line :: lines => (c :: line) :: lines | [] => [[c]] end
  end.

Definition punctuation_line (line : bytes) : bool := forallb (fun c => byte_in jsonStructure c || byte_in (String " " (String (ascii_of_N 9) "")) c) line.
Fixpoint skipped_lines (lines : list bytes) (room : nat) : nat :=
  match lines, room with
  | line :: rest, S room => if punctuation_line line then S (skipped_lines rest room) else O
  | _, _ => O
  end.
Definition newMultilineSecret (form : bytes) : multilineSecret :=
  let lines := split_lines form in mkMultiline lines (skipped_lines lines (length lines - 2)).

Record compactSecret := mkCompact { cs_index : nat; cs_text : bytes; cs_border : list nat; cs_lead : nat; cs_limit : nat }.

(** The inner loop of the failure function: fall back until a longer match starts. *)
Fixpoint fall_back (fuel : nat) (pattern : bytes) (border : list nat) (c : ascii) (k : nat) : nat :=
  match fuel with
  | O => k
  | S fuel => if (0 <? k)%nat && negb (is_byte (nth k pattern c) c) then fall_back fuel pattern border c (nth (k - 1) border 0%nat) else k
  end.

(** [border[:i]] is known and [k] is its last entry. *)
Fixpoint borders_from (pattern : bytes) (border : list nat) (k : nat) (rest : bytes) : list nat :=
  match rest with
  | [] => border
  | c :: rest =>
      let k := fall_back k pattern border c k in
      let k := match nth_error pattern k with Some p => if is_byte p c then S k else k | None => k end in
      borders_from pattern (border ++ [k]) k rest
  end.
Definition borders (pattern : bytes) : list nat :=
  match pattern with [] => [] | _ :: rest => borders_from pattern [0%nat] 0 rest end.

Fixpoint structure_lead (text : bytes) : nat :=
  match text with c :: rest => if byte_in jsonStructure c then S (structure_lead rest) else O | [] => O end.
Definition newCompactSecret (index : nat) (text : bytes) : compactSecret :=
  mkCompact index text (borders text) (structure_lead text)
    (length text + 80 * (1 + length (List.filter (byte_in jsonStructure) text))).

Record secretSnapshot := mkSnapshot {
  sn_secrets : list (string * secretRule); sn_compact : list compactSecret; sn_multiline : list multilineSecret;
  sn_maxHeld : nat; sn_maxSkip : nat }.

Definition empty_snapshot : secretSnapshot := mkSnapshot [] [] [] 0 0.

Definition contains_byte (c : ascii) (l : bytes) : bool := existsb (is_byte c) l.

Definition snapshot_form (sn : secretSnapshot) (form : secretForm) : secretSnapshot :=
  if sf_raw form && contains_byte newline (sf_text form) && negb (contains_byte (ascii_of_N 13) (sf_text form)) then
    let m := newMultilineSecret (sf_text form) in
    mkSnapshot (sn_secrets sn) (sn_compact sn) (sn_multiline sn ++ [m]) (Nat.max (sn_maxHeld sn) (length (sf_text form))) (Nat.max (sn_maxSkip sn) (ml_skip m))
  else sn.

Definition snapshot_secret (sn : secretSnapshot) (entry : nat * (string * secretRule)) : secretSnapshot :=
  let '(i, (_, rule)) := entry in
  let sn := match sr_compact rule with
            | [] => sn
            | text => let c := newCompactSecret i text in
                mkSnapshot (sn_secrets sn) (sn_compact sn ++ [c]) (sn_multiline sn) (Nat.max (sn_maxHeld sn) (cs_limit c)) (sn_maxSkip sn)
            end in
  fold_left snapshot_form (sr_forms rule) sn.

Definition by_value (a b : string * secretRule) : bool := String.leb (fst a) (fst b).
Definition newSecretSnapshot (values : gmap string secretRule) : secretSnapshot :=
  let secrets := order_by by_value (map_to_list values) in
  fold_left snapshot_secret (combine (seq 0 (length secrets)) secrets) (mkSnapshot secrets [] [] 0 0).

(** ** The registry *)

Record SecretRegistry := mkRegistry { rg_values : gmap string secretRule; rg_cached : option secretSnapshot }.
Definition NewSecretRegistry : SecretRegistry := mkRegistry ∅ None.

Definition Register (value : string) (r : SecretRegistry) : SecretRegistry :=
  let value := TrimSpace value in
  if (String.length value <? 6)%nat then r else
  match rg_values r !! value with
  | Some _ => r
  | None => mkRegistry (<[value := newSecretRule value]> (rg_values r)) None
  end.

Definition snapshot (r : SecretRegistry) : secretSnapshot * SecretRegistry :=
  match rg_cached r with
  | Some cached => (cached, r)
  | None => let sn := newSecretSnapshot (rg_values r) in (sn, mkRegistry (rg_values r) (Some sn))
  end.
End Registry.

(** ** Finding secrets *)

(** Every occurrence of [pat] at or behind [at_], overlapping ones included. *)
Fixpoint occurrences (fuel : nat) (text pat : bytes) (at_ : nat) : list nat :=
  match fuel with
  | O => []
  | S fuel => match Index (skipn at_ text) pat with Some j => (j + at_)%nat :: occurrences fuel text pat (S (j + at_)) | None => [] end
  end.
Definition all_occurrences (text pat : bytes) : list nat := occurrences (S (length text)) text pat 0.

Definition form_span (form : bytes) (j : nat) : maskSpan := mkSpan j (j + length form).

(** A match: its span, the secret's index, and whether the form is the secret as written. *)
Record hit := mkHit { ht_span : maskSpan; ht_secret : nat; ht_raw : bool }.

Definition form_hits (text : bytes) (i : nat) (form : secretForm) : list hit :=
  map (fun j => mkHit (form_span (sf_text form) j) i (sf_raw form)) (all_occurrences text (sf_text form)).
Definition secret_hits (text : bytes) (identifiers : bool) (entry : nat * (string * secretRule)) : list hit :=
  let '(i, (_, rule)) := entry in
  if Bool.eqb (sr_identifierLike rule) identifiers then flat_map (form_hits text i) (sr_forms rule) else [].

Definition compact_hits (text : bytes) (c : compactSecret) : list hit :=
  let v := whitespaceFreeView text in
  map (fun j => mkHit (original v (form_span (cs_text c) j)) (cs_index c) true) (all_occurrences (vw_text v) (cs_text c)).

(** [escapeBefore] of the text before [at_], read from its end. *)
Definition escape_before_rev (r : bytes) : bool :=
  let escaped n := Nat.odd (leading_backslashes (skipn n r)) in
  match r with
  | c1 :: c2 :: rest =>
      if is_byte backslash c2 && byte_in "bfnrt" c1 then escaped 1%nat else
      match r with
      | h1 :: h2 :: h3 :: h4 :: u :: b :: _ =>
          if is_byte backslash b && is_byte "u" u && forallb (byte_in "0123456789abcdefABCDEF") [h4; h3; h2; h1] then escaped 5%nat else false
      | _ => false
      end
  | _ => false
  end.
Definition escapeBefore (text : bytes) : bool := escape_before_rev (rev text).

Definition identifier_at (text : bytes) (i : nat) : bool := match nth_error text i with Some c => isIdentifierByte c | None => false end.
Definition boundaryBefore (text : bytes) (hard : list maskSpan) (at_ : nat) : bool :=
  (at_ =? 0)%nat || negb (identifier_at text (at_ - 1)) || escapeBefore (firstn at_ text) || covered hard (at_ - 1).
Definition boundaryAfter (text : bytes) (hard : list maskSpan) (at_ : nat) : bool :=
  (at_ =? length text)%nat || negb (identifier_at text at_) || covered hard at_.

(** The occurrences of identifiers in order, joined to runs with their members. *)
Fixpoint identifier_runs (cur : option (maskSpan * list nat)) (hits : list hit) : list (maskSpan * list nat) :=
  match hits with
  | [] => match cur with Some c => [c] | None => [] end
  | h :: rest =>
      match cur with
      | Some (run, members) =>
          if (ms_start (ht_span h) <=? ms_end run)%nat
          then identifier_runs (Some (mkSpan (ms_start run) (Nat.max (ms_end run) (ms_end (ht_span h))), members ++ [ht_secret h])) rest
          else (run, members) :: identifier_runs (Some (ht_span h, [ht_secret h])) rest
      | None => identifier_runs (Some (ht_span h, [ht_secret h])) rest
      end
  end.
Definition hit_first (a b : hit) : bool := by_start (ht_span a) (ht_span b).

Record found := mkFound { fd_spans : list maskSpan; fd_raw : list string; fd_escaped : list string }.

Definition index_secrets (sn : secretSnapshot) : list (nat * (string * secretRule)) := combine (seq 0 (length (sn_secrets sn))) (sn_secrets sn).

Definition spans (sn : secretSnapshot) (text : bytes) : found :=
  if (match sn_secrets sn with [] => true | _ => false end) || bytes_eqb text [] then mkFound [] [] [] else
  let plain := flat_map (secret_hits text false) (index_secrets sn) in
  let identifiers := flat_map (secret_hits text true) (index_secrets sn) in
  let compact := if existsb (byte_in "{[") text then flat_map (compact_hits text) (sn_compact sn) else [] in
  let hits := plain ++ compact in
  let hard := mergeSpans (map ht_span hits) in
  let runs := List.filter (fun r => boundaryBefore text hard (ms_start (fst r)) && boundaryAfter text hard (ms_end (fst r)))
                (identifier_runs None (order_by hit_first identifiers)) in
  let raw i := existsb (fun h => (ht_secret h =? i)%nat && ht_raw h) hits || existsb (fun r => existsb (Nat.eqb i) (snd r)) runs in
  let escaped i := existsb (fun h => (ht_secret h =? i)%nat && negb (ht_raw h)) plain in
  let pick (p : nat -> bool) := flat_map (fun e => if p (fst e) then [fst (snd e)] else []) (index_secrets sn) in
  mkFound (map ht_span hits ++ map fst runs) (pick raw) (pick (fun i => negb (raw i) && escaped i)).

Definition Redact (r : SecretRegistry) (value : bytes) : option bytes * SecretRegistry :=
  if bytes_eqb value [] then (Some value, r) else
  let (sn, r) := snapshot r in (applyMasks value (fd_spans (spans sn value)), r).

(** ** Detection

    Registered secrets are looked for in the text as written and as its reader sees it.
    [credentials] are the spans of the recognizers of credential names, shapes and
    containers. *)
Definition in_values (values : list string) (v : string) : bool := existsb (String.eqb v) values.

Definition detect (credentials : bytes -> list maskSpan) (sn : secretSnapshot) (value : bytes) : found :=
  let written := spans sn value in
  match detectionView value with
  | None => mkFound (fd_spans written ++ credentials value) (fd_raw written) (fd_escaped written)
  | Some v =>
      let viewed := spans sn (vw_text v) in
      let raw := fd_raw written ++ fd_raw viewed in
      let escaped := fold_left (fun escaped secret => if negb (in_values raw secret) && negb (in_values escaped secret) then escaped ++ [secret] else escaped)
                       (fd_escaped viewed) (fd_escaped written) in
      mkFound (fd_spans written ++ map (original v) (fd_spans viewed) ++ credentials value) raw
        (List.filter (fun secret => negb (in_values raw secret)) escaped)
  end.

(** [redactor.text]. *)
Definition redact_text (credentials : bytes -> list maskSpan) (sn : secretSnapshot) (value : bytes) : option bytes :=
  applyMasks value (fd_spans (detect credentials sn value)).
