(* ===== verification/SecretsTheory.v ===== *)
(** * What the registry finds

    Occurrences, the runs of identifiers, the contents of snapshots after any history of
    registrations, and the layouts of JSON secrets. *)

From stdpp Require Import base tactics list strings gmap.
From Stdlib Require Import ZArith Lia Bool Ascii String List Sorting.Sorted Sorting.Permutation.
From S2P Require Import Prelude GoLib GoStrings Sql Masks Views Secrets.

(** ** Occurrences *)

Definition occurs_at (text pat : bytes) (j : nat) : Prop := has_prefix pat (skipn j text) = true.

Lemma has_prefix_app pat l : has_prefix pat l = true <-> exists rest, l = pat ++ rest.
Proof.
  revert l. induction pat as [|p pat IH]; intros l; simpl; [split; [by exists l|done]|]. destruct l as [|c l].
  - split; [done|]. by intros [rest [=]].
  - rewrite andb_true_iff, IH. split.
    + intros [E%Ascii.eqb_eq [rest ->]]. subst. by exists rest.
    + intros [rest [= <- ->]]. split; [by rewrite Ascii.eqb_refl|by exists rest].
Qed.

Lemma occurs_bound text pat j : pat <> [] -> occurs_at text pat j -> (j + length pat <= length text)%nat.
Proof.
  intros N [rest E]%has_prefix_app. assert (length (skipn j text) = length pat + length rest)%nat as H by (by rewrite E, length_app).
  rewrite length_skipn in H. destruct pat; [done|]. simpl in *. lia.
Qed.

Lemma occurs_at_app a pat b : occurs_at (a ++ pat ++ b) pat (length a).
Proof. apply has_prefix_app. exists b. by rewrite skipn_app, skipn_all, Nat.sub_diag. Qed.

Lemma In_occurrences text pat : forall fuel at_ j, (length text < at_ + fuel)%nat -> pat <> [] ->
  In j (occurrences fuel text pat at_) <-> (at_ <= j)%nat /\ occurs_at text pat j.
Proof.
  induction fuel as [|fuel IH]; intros at_ j F N.
  - split; [done|]. intros [L O%occurs_bound]; [|done]. destruct pat; simpl in *; [done|lia].
  - cbn [occurrences]. pose proof (Index_spec pat (skipn at_ text)) as X. destruct (Index _ _) as [k|].
    + destruct X as [X1 X2]. rewrite skipn_skipn in X1. cbn [In]. rewrite IH by (done || lia). split.
      * intros [<-|[L O]]; [split; [lia|exact X1]|split; [lia|exact O]].
      * intros [L O]. destruct (Nat.lt_trichotomy j (k + at_)) as [Lt|[Eq|Gt]]; [|by left|right; split; [lia|done]].
        specialize (X2 (j - at_)%nat ltac:(lia)). rewrite skipn_skipn in X2. unfold occurs_at in O.
        replace (j - at_ + at_)%nat with j in X2 by lia. congruence.
    + split; [done|]. intros [L O]. specialize (X (j - at_)%nat). rewrite skipn_skipn in X. unfold occurs_at in O.
      replace (j - at_ + at_)%nat with j in X by lia. congruence.
Qed.

Lemma In_all_occurrences text pat j : pat <> [] -> In j (all_occurrences text pat) <-> occurs_at text pat j.
Proof. intros N. unfold all_occurrences. rewrite In_occurrences by (done || lia). intuition lia. Qed.

(** ** Hits *)

Definition forms_proper (sn : secretSnapshot) : Prop :=
  (forall v rule, In (v, rule) (sn_secrets sn) -> Forall (fun f => sf_text f <> []) (sr_forms rule)
     /\ (sr_identifierLike rule = true -> Forall (fun f => Forall (fun c => isIdentifierByte c = true) (sf_text f)) (sr_forms rule)))
  /\ Forall (fun c => cs_text c <> [] /\ existsb (byte_in "{[") (cs_text c) = true) (sn_compact sn)
  /\ (sn_secrets sn = [] -> sn_compact sn = []).

Lemma In_index sn i e : In (i, e) (index_secrets sn) -> In e (sn_secrets sn).
Proof. apply in_combine_r. Qed.

Lemma index_In sn e : In e (sn_secrets sn) -> exists i, In (i, e) (index_secrets sn).
Proof.
  intros [i H]%In_nth_error. exists i. unfold index_secrets. assert (i < length (sn_secrets sn))%nat as L by (apply nth_error_Some; by rewrite H).
  apply (nth_error_In _ i). revert H L. generalize (sn_secrets sn). intros l H L.
  assert (forall (l : list (string * secretRule)) o i, nth_error l i = Some e -> nth_error (combine (seq o (length l)) l) i = Some ((o + i)%nat, e)) as G.
  { clear. induction l as [|x l IH]; intros o [|i] H; simpl in *; simplify_eq; [by rewrite Nat.add_0_r|]. by rewrite (IH (S o)), Nat.add_succ_r. }
  by rewrite (G _ 0%nat).
Qed.

(** A match of a plain or identifier secret. *)
Definition match_of (sn : secretSnapshot) (identifiers : bool) (text : bytes) (s : maskSpan) : Prop :=
  exists v rule form j, In (v, rule) (sn_secrets sn) /\ sr_identifierLike rule = identifiers /\ In form (sr_forms rule)
    /\ occurs_at text (sf_text form) j /\ s = form_span (sf_text form) j.

Lemma secret_hits_spec sn identifiers text s : forms_proper sn ->
  In s (map ht_span (flat_map (secret_hits text identifiers) (index_secrets sn))) <-> match_of sn identifiers text s.
Proof.
  intros [P _]. rewrite in_map_iff. setoid_rewrite in_flat_map. split.
  - intros (h & <- & (i & v & rule) & Hi & Hh). apply In_index in Hi. simpl in Hh. destruct (Bool.eqb _ _) eqn:E; [|done].
    apply eqb_prop in E. apply in_flat_map in Hh as (form & Hf & (j & <- & Hj)%in_map_iff).
    destruct (P _ _ Hi) as [P1 _]. rewrite List.Forall_forall in P1. apply In_all_occurrences in Hj; [|by apply P1].
    by exists v, rule, form, j.
  - intros (v & rule & form & j & Hv & E & Hf & O & ->). destruct (index_In _ _ Hv) as [i Hi].
    exists (mkHit (form_span (sf_text form) j) i (sf_raw form)). split; [done|]. exists (i, (v, rule)). split; [done|].
    simpl. rewrite E, Bool.eqb_reflx. apply in_flat_map. exists form. split; [done|]. apply in_map_iff. exists j. split; [done|].
    destruct (P _ _ Hv) as [P1 _]. rewrite List.Forall_forall in P1. apply In_all_occurrences; [by apply P1|done].
Qed.

(** A match of a JSON secret in the text without whitespace. *)
Definition layout_of (sn : secretSnapshot) (text : bytes) (s : maskSpan) : Prop :=
  exists c j, In c (sn_compact sn) /\ occurs_at (vw_text (whitespaceFreeView text)) (cs_text c) j
    /\ s = original (whitespaceFreeView text) (form_span (cs_text c) j).

Lemma compact_hits_spec sn text s : forms_proper sn ->
  In s (map ht_span (flat_map (compact_hits text) (sn_compact sn))) <-> layout_of sn text s.
Proof.
  intros (_ & P & _). rewrite List.Forall_forall in P. rewrite in_map_iff. setoid_rewrite in_flat_map. split.
  - intros (h & <- & c & Hc & (j & <- & Hj)%in_map_iff). apply In_all_occurrences in Hj; [|by apply P]. by exists c, j.
  - intros (c & j & Hc & O & ->). eexists. split; [|exists c; split; [done|]; apply in_map_iff; exists j; split; [done|]; apply In_all_occurrences; [by apply P|done]]. done.
Qed.

(** ** Runs of identifiers *)

Lemma identifier_runs_merge hits : Forall (fun h => (ms_start (ht_span h) < ms_end (ht_span h))%nat) hits -> forall cur,
  map fst (identifier_runs cur hits) = merge_sorted (option_map fst cur) (map ht_span hits).
Proof.
  induction hits as [|h hits IH]; intros P cur; simpl; [by destruct cur|]. inversion P as [|? ? P1 P2]; subst.
  rewrite (proj2 (Nat.leb_gt _ _)) by lia. destruct cur as [[run members]|]; simpl; [|by apply IH]. case_if; [by apply IH|].
  simpl. f_equal. by apply IH.
Qed.

Lemma hits_sorted hits : by_starts (map ht_span (order_by hit_first hits)).
Proof.
  assert (StronglySorted (fun a b => hit_first a b = true) (order_by hit_first hits)) as O.
  { apply order_by_sorted; unfold hit_first, by_start; intros *; rewrite !Nat.leb_le; lia. }
  induction O as [|a l O IH F]; [apply SSorted_nil|]. apply SSorted_cons; [done|]. rewrite List.Forall_forall in *.
  intros s (b & <- & Hb)%in_map_iff. apply Nat.leb_le. by apply (F b).
Qed.

Lemma runs_are_merged hits : Forall (fun h => (ms_start (ht_span h) < ms_end (ht_span h))%nat) hits ->
  map fst (identifier_runs None (order_by hit_first hits)) = mergeSpans (map ht_span hits).
Proof.
  intros P. rewrite identifier_runs_merge.
  - apply merge_any_order; [apply Permutation_map, order_by_perm|apply hits_sorted].
  - rewrite List.Forall_forall in *. intros h Hh. apply P. by apply In_order_by in Hh.
Qed.

Definition plain_spans (sn : secretSnapshot) (text : bytes) : list maskSpan := map ht_span (flat_map (secret_hits text false) (index_secrets sn)).
Definition identifier_spans (sn : secretSnapshot) (text : bytes) : list maskSpan := map ht_span (flat_map (secret_hits text true) (index_secrets sn)).
Definition layout_spans (sn : secretSnapshot) (text : bytes) : list maskSpan := map ht_span (flat_map (compact_hits text) (sn_compact sn)).
Definition hard_spans (sn : secretSnapshot) (text : bytes) : list maskSpan := plain_spans sn text ++ layout_spans sn text.
Definition bounded (sn : secretSnapshot) (text : bytes) (run : maskSpan) : bool :=
  boundaryBefore text (mergeSpans (hard_spans sn text)) (ms_start run) && boundaryAfter text (mergeSpans (hard_spans sn text)) (ms_end run).

Lemma without_space_bytes text : forall i, map cl_byte (without_space text i) = List.filter (fun c => negb (isJSONSpace c)) text.
Proof.
  induction text as [|c text IH]; intros i; [done|]. cbn [without_space List.filter]. rewrite map_app, IH.
  destruct (isJSONSpace c); simpl; [done|]. by destruct text.
Qed.

Lemma no_layout sn text : forms_proper sn -> existsb (byte_in "{[") text = false -> layout_spans sn text = [].
Proof.
  intros P H. destruct (layout_spans sn text) as [|s l] eqn:E; [done|exfalso].
  assert (In s (layout_spans sn text)) as Hs by (rewrite E; by left). apply (compact_hits_spec _ _ _ P) in Hs as (c & j & Hc & O & _).
  destruct P as (_ & P & _). rewrite List.Forall_forall in P. destruct (P _ Hc) as [_ B]. apply existsb_exists in B as (x & Hx & Bx).
  apply has_prefix_app in O as [rest E']. assert (In x text) as Ht.
  { assert (In x (vw_text (whitespaceFreeView text))) as Hv.
    { rewrite <- (firstn_skipn j (vw_text _)), E'. apply in_or_app. right. apply in_or_app. by left. }
    simpl in Hv. rewrite without_space_bytes in Hv. by apply filter_In in Hv as [Hv _]. }
  by rewrite (existsb_false_In _ _ x H Ht) in Bx.
Qed.

Lemma filter_map_fst {A B} (p : A -> bool) (l : list (A * B)) : map fst (List.filter (fun r => p (fst r)) l) = List.filter p (map fst l).
Proof. induction l as [|x l IH]; simpl; [done|]. by destruct (p (fst x)); simpl; rewrite IH. Qed.

Lemma match_nonempty sn b text s : forms_proper sn -> match_of sn b text s -> (ms_start s < ms_end s)%nat /\ (ms_end s <= length text)%nat.
Proof.
  intros [P _] (v & rule & form & j & Hv & _ & Hf & O & ->). destruct (P _ _ Hv) as [P1 _]. rewrite List.Forall_forall in P1. specialize (P1 _ Hf).
  apply occurs_bound in O; [|done]. simpl. destruct (sf_text form); [done|]. simpl in *. lia.
Qed.

(** What is reported: the plain matches, the layouts and the bounded runs. *)
Lemma spans_are sn text : forms_proper sn ->
  fd_spans (spans sn text) = hard_spans sn text ++ List.filter (bounded sn text) (mergeSpans (identifier_spans sn text)).
Proof.
  intros P. unfold spans. destruct (_ || _) eqn:E; simpl.
  - assert (forall b, map ht_span (flat_map (secret_hits text b) (index_secrets sn)) = [] /\ layout_spans sn text = []) as Z.
    { apply orb_true_iff in E as [E|E].
      - destruct (sn_secrets sn) eqn:S; [|done]. intros b. unfold index_secrets, layout_spans. rewrite S. simpl.
        destruct P as (_ & _ & P). by rewrite P.
      - apply bool_decide_eq_true in E as ->. intros b. split; [|by apply no_layout].
        destruct (map _ _) as [|s l] eqn:M; [done|exfalso]. assert (match_of sn b [] s) as Q by (apply secret_hits_spec; [done|rewrite M; by left]).
        apply (match_nonempty _ _ _ _ P) in Q as [Q1 Q2]. simpl in Q2. lia. }
    unfold hard_spans, plain_spans, identifier_spans. destruct (Z false) as [-> ->], (Z true) as [-> _]. done.
  - assert ((if existsb (byte_in "{[") text then flat_map (compact_hits text) (sn_compact sn) else []) = flat_map (compact_hits text) (sn_compact sn)) as ->.
    { destruct (existsb _ text) eqn:B; [done|]. pose proof (no_layout _ _ P B) as L. unfold layout_spans in L. symmetry. by apply map_eq_nil in L. }
    rewrite (filter_map_fst (fun run => boundaryBefore _ _ (ms_start run) && boundaryAfter _ _ (ms_end run))), runs_are_merged, map_app; [done|].
    apply List.Forall_forall. intros h Hh. apply (match_nonempty sn true text); [done|]. apply secret_hits_spec; [done|]. by apply in_map.
Qed.

(** ** Where the spans lie *)

Lemma layout_spec sn text s : forms_proper sn -> (Z.of_nat (length text) < 2 ^ 31)%Z -> layout_of sn text s ->
  (ms_start s < ms_end s)%nat /\ (ms_end s <= length text)%nat /\
  exists c j, In c (sn_compact sn) /\ occurs_at (vw_text (whitespaceFreeView text)) (cs_text c) j /\
    covers_cells s (without_space text 0) j (length (cs_text c)).
Proof.
  intros (_ & P & _) B (c & j & Hc & O & ->). rewrite List.Forall_forall in P. destruct (P _ Hc) as [N _].
  pose proof (occurs_bound _ _ _ N O) as L. simpl in L. rewrite length_map in L.
  destruct (original_spec 0 (without_space text 0) (0 + length text) j (length (cs_text c))) as (H1 & H2 & H3); [by apply without_space_ascending|done| |].
  { destruct (cs_text c); simpl; [done|lia]. }
  split_and!; [apply H1|exact H2|]. by exists c, j.
Qed.

Lemma identifier_within sn text : forms_proper sn -> within text (identifier_spans sn text).
Proof. intros P. apply List.Forall_forall. intros s Hs. apply (match_nonempty sn true); [done|]. by apply secret_hits_spec. Qed.

Lemma hard_within sn text : forms_proper sn -> (Z.of_nat (length text) < 2 ^ 31)%Z -> within text (hard_spans sn text).
Proof.
  intros P B. apply List.Forall_forall. intros s [Hs|Hs]%in_app_or.
  - apply (match_nonempty sn false); [done|]. by apply secret_hits_spec.
  - apply (layout_spec sn); [done..|]. by apply compact_hits_spec.
Qed.

Lemma spans_within sn text : forms_proper sn -> (Z.of_nat (length text) < 2 ^ 31)%Z -> within text (fd_spans (spans sn text)).
Proof.
  intros P B. rewrite spans_are by done. apply List.Forall_forall. intros s [Hs|Hs]%in_app_or.
  - pose proof (hard_within _ _ P B) as W. unfold within in W. rewrite List.Forall_forall in W. by apply W.
  - apply filter_In in Hs as [Hs _]. pose proof (within_merged _ _ (identifier_within _ text P)) as W. unfold within in W.
    rewrite List.Forall_forall in W. by apply W.
Qed.

(** A merged span holds every covered stretch it meets. *)
Lemma spaced_holds m : forall lo s a b, spaced lo m -> In s m -> (ms_start s <= a < ms_end s)%nat ->
  (forall i, (a <= i < b)%nat -> in_spans m i = true) -> (b <= ms_end s)%nat.
Proof.
  intros lo s a b Sp Hs A C. destruct (Nat.le_gt_cases b (ms_end s)) as [L|L]; [done|exfalso].
  specialize (C (ms_end s) ltac:(lia)). apply in_spans_spec in C as (s' & Hs' & A').
  destruct (In_nth_error _ _ Hs) as [i Hi], (In_nth_error _ _ Hs') as [i' Hi'].
  destruct (Nat.lt_trichotomy i i') as [Lt|[<-|Gt]].
  - pose proof (spaced_ends _ _ _ _ _ _ Sp Hi Hi' Lt). lia.
  - assert (s = s') as -> by congruence. lia.
  - pose proof (spaced_ends _ _ _ _ _ _ Sp Hi' Hi Gt). pose proof (spaced_nonempty _ _ _ Sp Hs). lia.
Qed.

Lemma identifier_covered sn text i : forms_proper sn -> in_spans (identifier_spans sn text) i = true -> identifier_at text i = true.
Proof.
  intros P (s & Hs & L)%in_spans_spec. apply secret_hits_spec in Hs as (v & rule & form & j & Hv & E & Hf & O & ->); [|done].
  destruct P as [P _]. destruct (P _ _ Hv) as [_ P2]. specialize (P2 E). rewrite List.Forall_forall in P2. specialize (P2 _ Hf).
  rewrite List.Forall_forall in P2. apply has_prefix_app in O as [rest E']. simpl in L. unfold identifier_at.
  rewrite <- (firstn_skipn j text), E'. assert (length (firstn j text) = j)%nat as Lj.
  { rewrite length_firstn. assert (j <= length text)%nat; [|lia]. destruct (Nat.le_gt_cases j (length text)); [done|].
    rewrite skipn_all2 in E' by lia. destruct (sf_text form); [simpl in L; lia|done]. }
  rewrite nth_error_app2, Lj, nth_error_app1 by lia. destruct (nth_error (sf_text form) (i - j)) as [c|] eqn:C; [|apply nth_error_None in C; lia].
  apply P2. by eapply nth_error_In.
Qed.

(** The occurrence of an identifier between boundaries is reported. *)
Lemma bounded_identifier sn text s : forms_proper sn -> match_of sn true text s ->
  (ms_start s = 0%nat \/ identifier_at text (ms_start s - 1) = false) ->
  (ms_end s = length text \/ identifier_at text (ms_end s) = false) ->
  forall i, (ms_start s <= i < ms_end s)%nat -> in_spans (fd_spans (spans sn text)) i = true.
Proof.
  intros P M Bf Af i L. set (m := mergeSpans (identifier_spans sn text)). pose proof (merge_spaced (identifier_spans sn text)) as Sp. fold m in Sp.
  assert (forall k, (ms_start s <= k < ms_end s)%nat -> in_spans m k = true) as C.
  { intros k K. unfold m. rewrite merge_covers. apply in_spans_spec. exists s. split; [by apply secret_hits_spec|done]. }
  assert (forall k, in_spans m k = true -> identifier_at text k = true) as I by (intros k; unfold m; rewrite merge_covers; by apply identifier_covered).
  pose proof (C i L) as (run & Hr & Lr)%in_spans_spec.
  assert (forall k, (ms_start run <= k < ms_end run)%nat -> in_spans m k = true) as Cr by (intros k K; apply in_spans_spec; by exists run).
  assert (ms_end s <= ms_end run)%nat as E1 by (apply (spaced_holds m 0 run i); try done; intros; apply C; lia).
  assert (ms_end run <= length text)%nat as W.
  { pose proof (within_merged _ _ (identifier_within _ text P)) as W. unfold within in W. rewrite List.Forall_forall in W. by apply W. }
  assert (ms_end run = ms_end s) as Ee.
  { destruct (Nat.eq_dec (ms_end run) (ms_end s)) as [|N]; [done|exfalso]. destruct Af as [Af|Af]; [lia|]. rewrite I in Af; [done|]. apply Cr. lia. }
  assert (ms_start run = ms_start s) as Es.
  { destruct (Nat.lt_trichotomy (ms_start run) (ms_start s)) as [Lt|[?|Gt]]; [|done|].
    - exfalso. destruct Bf as [Bf|Bf]; [lia|]. rewrite I in Bf; [done|]. apply Cr. lia.
    - exfalso. pose proof (C (ms_start run - 1)%nat ltac:(lia)) as (run' & Hr' & L')%in_spans_spec.
      assert (ms_end s <= ms_end run')%nat as E2 by (apply (spaced_holds m 0 run' (ms_start run - 1)); try done; intros; apply C; lia).
      destruct (In_nth_error _ _ Hr) as [a Ha], (In_nth_error _ _ Hr') as [a' Ha'].
      destruct (Nat.lt_trichotomy a a') as [X|[<-|X]].
      + pose proof (spaced_ends _ _ _ _ _ _ Sp Ha Ha' X). lia.
      + assert (run = run') as -> by congruence. lia.
      + pose proof (spaced_ends _ _ _ _ _ _ Sp Ha' Ha X). lia. }
  apply in_spans_spec. exists run. split; [|lia]. rewrite spans_are by done. apply in_or_app. right. apply filter_In. split; [done|].
  unfold bounded, boundaryBefore, boundaryAfter. rewrite Es, Ee. apply andb_true_iff. split.
  - destruct Bf as [->| ->]; [done|]. simpl. by rewrite orb_true_r.
  - destruct Af as [->| ->]; [by rewrite Nat.eqb_refl|]. by rewrite orb_true_r.
Qed.

(** ** The forms of a value *)

Lemma identifier_byte_plain c : isIdentifierByte c = true ->
  rune_len [c] = Some 1%nat /\ json_byte true c = [c] /\ json_byte false c = [c] /\ control_rune [c] = [c] /\ is_byte backslash c = false /\ is_byte newline c = false.
Proof. destruct c as [[] [] [] [] [] [] [] []]; intros H; try discriminate H; vm_compute; done. Qed.

Lemma rune_len_one c l : rune_len [c] = Some 1%nat -> rune_len (c :: l) = Some 1%nat.
Proof. unfold rune_len. repeat case_match; done. Qed.

Lemma map_rune_identifier f bad l : (forall c, isIdentifierByte c = true -> f [c] = [c]) -> Forall (fun c => isIdentifierByte c = true) l ->
  forall fuel, (length l <= fuel)%nat -> map_rune f bad fuel l = l.
Proof.
  intros Hf H. induction H as [|c l Hc H IH]; intros [|fuel] L; simpl in L; try lia; try done. cbn [map_rune].
  rewrite (rune_len_one c l) by (by apply identifier_byte_plain). cbn [firstn skipn]. rewrite Hf, IH by (done || lia). done.
Qed.

Lemma upper_identifier l : Forall (fun c => isIdentifierByte c = true) l -> upperHexEscapes l = l.
Proof.
  induction 1 as [|c l Hc H IH]; [done|]. cbn [upperHexEscapes]. destruct (identifier_byte_plain c Hc) as (_ & _ & _ & _ & -> & _). by rewrite IH.
Qed.

Definition json_forms (value : bytes) : list bytes :=
  [jsonHTMLStringBody value; upperHexEscapes (jsonHTMLStringBody value); jsonStringBody value; upperHexEscapes (jsonStringBody value);
   controlEscaped value; upperHexEscapes (controlEscaped value)].

Lemma In_jsonEscapedForms value f : In f (jsonEscapedForms value) <-> f = value \/ f <> [] /\ In f (json_forms value).
Proof.
  unfold jsonEscapedForms. cbv zeta. rewrite In_order_by.
  set (add := fun forms variant => if negb (bytes_eqb variant []) && negb (existsb (bytes_eqb variant) forms) then forms ++ [variant] else forms). cbn [fold_left].
  assert (forall forms x, In f (add forms x) <-> In f forms \/ f <> [] /\ f = x) as A.
  { intros forms x. unfold add, bytes_eqb. destruct (bool_decide (x = [])) eqn:B; simpl.
    - apply bool_decide_eq_true in B as ->. intuition.
    - apply bool_decide_eq_false in B. destruct (existsb _ forms) eqn:X; simpl.
      + apply existsb_exists in X as (y & Hy & <-%bool_decide_eq_true). intuition (subst; auto).
      + rewrite in_app_iff. simpl. intuition (subst; auto). }
  rewrite !A. unfold json_forms. cbn [In]. intuition (subst; auto).
Qed.

Lemma identifier_forms value f : Forall (fun c => isIdentifierByte c = true) value -> In f (jsonEscapedForms value) -> f = value.
Proof.
  intros H [?|[_ Hf]]%In_jsonEscapedForms; [done|]. unfold json_forms, jsonHTMLStringBody, jsonStringBody, controlEscaped in Hf.
  rewrite !(map_rune_identifier) in Hf by (try done; intros c Hc; by apply identifier_byte_plain in Hc as (_ & ? & ? & ? & _)).
  rewrite upper_identifier in Hf by done. simpl in Hf. intuition.
Qed.

Section Forms.
Context (json_container : string -> bool).

Lemma In_rule_forms value text : In text (map sf_text (sr_forms (newSecretRule json_container value))) <->
  exists variant, In variant (line_variants value) /\ In text (jsonEscapedForms (b_ variant)).
Proof.
  unfold newSecretRule. simpl.
  set (add := fun raw forms form => if existsb (fun known => bytes_eqb (sf_text known) form) forms then forms else forms ++ [mkForm form (bytes_eqb form raw)]).
  assert (forall raw forms x, In text (map sf_text (add raw forms x)) <-> In text (map sf_text forms) \/ text = x) as A.
  { intros raw forms x. unfold add, bytes_eqb. destruct (existsb _ forms) eqn:X.
    - apply existsb_exists in X as (y & Hy & E%bool_decide_eq_true). subst. split; [by left|]. intros [?| ->]; [done|]. by apply in_map.
    - rewrite map_app, in_app_iff. simpl. intuition (subst; auto). }
  assert (forall raw l forms, In text (map sf_text (fold_left (add raw) l forms)) <-> In text (map sf_text forms) \/ In text l) as B.
  { intros raw l. induction l as [|x l IH]; intros forms; simpl; [intuition|]. rewrite IH, A. intuition. }
  assert (forall vs forms, In text (map sf_text (fold_left (fun forms variant => fold_left (add (b_ variant)) (jsonEscapedForms (b_ variant)) forms) vs forms)) <->
    In text (map sf_text forms) \/ exists variant, In variant vs /\ In text (jsonEscapedForms (b_ variant))) as C.
  { induction vs as [|v vs IH]; intros forms; simpl; [split; [by left|by intros [?|(? & [] & _)]]|]. rewrite IH, B. split.
    - intros [[?|?]|(w & Hw & ?)]; [by left|right; exists v; auto|right; exists w; auto].
    - intros [?|(w & [<-|Hw] & ?)]; [by left; left|by left; right|right; by exists w]. }
  etrans; [apply C|]. simpl. intuition.
Qed.
End Forms.

(** ** Snapshots of a registry *)

Lemma snapshot_forms_keep forms : forall sn, sn_secrets (fold_left snapshot_form forms sn) = sn_secrets sn /\ sn_compact (fold_left snapshot_form forms sn) = sn_compact sn.
Proof.
  induction forms as [|f forms IH]; intros sn; [done|]. simpl. destruct (IH (snapshot_form sn f)) as [-> ->]. unfold snapshot_form. by case_match.
Qed.

Definition compact_of (entry : nat * (string * secretRule)) : list compactSecret :=
  match sr_compact (snd (snd entry)) with [] => [] | text => [newCompactSecret (fst entry) text] end.

Lemma snapshot_secrets_keep entries : forall sn, sn_secrets (fold_left snapshot_secret entries sn) = sn_secrets sn
  /\ sn_compact (fold_left snapshot_secret entries sn) = sn_compact sn ++ flat_map compact_of entries.
Proof.
  induction entries as [|[i [v rule]] entries IH]; intros sn; cbn [fold_left flat_map]; [by rewrite app_nil_r|]. destruct (IH (snapshot_secret sn (i, (v, rule)))) as [-> ->].
  unfold snapshot_secret, compact_of. cbn [snd fst]. destruct (sr_compact rule); rewrite (proj1 (snapshot_forms_keep _ _)), (proj2 (snapshot_forms_keep _ _));
    cbn [sn_secrets sn_compact]; [done|]. by rewrite <- app_assoc.
Qed.

Definition values_of (values : gmap string secretRule) : list (string * secretRule) := order_by by_value (map_to_list values).

Lemma newSecretSnapshot_secrets values : sn_secrets (newSecretSnapshot values) = values_of values.
Proof. unfold newSecretSnapshot. by rewrite (proj1 (snapshot_secrets_keep _ _)). Qed.

Lemma newSecretSnapshot_compact values : sn_compact (newSecretSnapshot values) = flat_map compact_of (index_secrets (newSecretSnapshot values)).
Proof.
  unfold index_secrets. rewrite newSecretSnapshot_secrets. unfold newSecretSnapshot. by rewrite (proj2 (snapshot_secrets_keep _ _)).
Qed.

Lemma In_values values v rule : In (v, rule) (values_of values) <-> values !! v = Some rule.
Proof. unfold values_of. rewrite In_order_by, <- list_elem_of_In, elem_of_map_to_list. done. Qed.

Lemma Contains_newline s : Contains s LF = existsb (is_byte newline) (b_ s).
Proof.
  induction s as [|c s IH]; [done|]. cbn [Contains]. rewrite IH. unfold b_. cbn [list_ascii_of_string existsb]. f_equal.
  unfold HasPrefix, LF, is_byte, newline. cbn [String.prefix]. destruct (ascii_dec (ascii_of_N 10) c) as [<-|N]; [by rewrite Ascii.eqb_refl; destruct s|].
  symmetry. by apply Ascii.eqb_neq.
Qed.

Lemma ReplaceAll_nonempty s old new : s <> "" -> new <> "" -> ReplaceAll s old new <> "".
Proof. intros Hs Hn. destruct s as [|c s]; [done|]. unfold ReplaceAll. cbn [replace_from]. case_match; [|done]. by destruct new. Qed.

Lemma In_variants value v : In v (line_variants value) ->
  v = value \/ v = ReplaceAll value CRLF LF \/ v = ReplaceAll (ReplaceAll value CRLF LF) LF CRLF.
Proof.
  unfold line_variants. destruct (Contains value LF); [|intros [<-|[]]; auto]. cbn [fold_left].
  repeat case_match; rewrite ?in_app_iff; simpl; intuition auto.
Qed.

Lemma variants_nonempty value v : value <> "" -> In v (line_variants value) -> v <> "".
Proof. intros N [->|[->| ->]]%In_variants; [done|by apply ReplaceAll_nonempty|]. apply ReplaceAll_nonempty; [by apply ReplaceAll_nonempty|done]. Qed.

Section Snapshots.
Context (json_container : string -> bool).

Definition reg_wf (r : SecretRegistry) : Prop :=
  (forall v rule, rg_values r !! v = Some rule -> rule = newSecretRule json_container v /\ (6 <= String.length v)%nat)
  /\ (forall sn, rg_cached r = Some sn -> sn = newSecretSnapshot (rg_values r)).

Lemma empty_wf : reg_wf NewSecretRegistry.
Proof. split; [|done]. intros v rule. simpl. by rewrite lookup_empty. Qed.

Lemma register_wf value r : reg_wf r -> reg_wf (Register json_container value r).
Proof.
  intros [V C]. unfold Register. destruct (Nat.ltb_spec (String.length (TrimSpace value)) 6); [done|]. destruct (_ !! _); [done|].
  split; [|done]. intros v rule. simpl. rewrite lookup_insert_Some. intros [[<- <-]|[_ H']]; [done|by apply V].
Qed.

Lemma snapshot_is r : reg_wf r -> snapshot r = (newSecretSnapshot (rg_values r), mkRegistry (rg_values r) (Some (newSecretSnapshot (rg_values r)))).
Proof. intros [_ C]. unfold snapshot. destruct r as [values [sn|]]; [|done]. simpl in *. by rewrite (C sn). Qed.

Lemma compact_first value : (HasPrefix value "{" || HasPrefix value "[") = true -> existsb (byte_in "{[") (b_ (withoutWhitespace value)) = true.
Proof.
  intros H. assert (exists c rest, value = String c rest /\ (c = "{"%char \/ c = "["%char)) as (c & rest & -> & Hc).
  { unfold HasPrefix in H. destruct value as [|c rest]; [done|]. exists c, rest. split; [done|]. simpl in H.
    apply orb_true_iff in H as [H|H]; case_match; try done; subst; [by left|by right]. }
  unfold b_, withoutWhitespace, map_drop. rewrite list_ascii_of_string_of_list_ascii. cbn [list_ascii_of_string length map_runes].
  rewrite rune_len_one by (by destruct Hc as [-> | ->]). cbn [firstn skipn]. by destruct Hc as [-> | ->].
Qed.

Lemma identifier_rule value f : sr_identifierLike (newSecretRule json_container value) = true ->
  In f (map sf_text (sr_forms (newSecretRule json_container value))) -> f = b_ value /\ Forall (fun c => isIdentifierByte c = true) (b_ value).
Proof.
  intros H. simpl in H. unfold isIdentifierLikeSecret in H. apply andb_true_iff in H as [_ H].
  assert (Forall (fun c => isIdentifierByte c = true) (b_ value)) as F by (apply List.Forall_forall; by apply forallb_forall).
  rewrite In_rule_forms. intros (variant & Hv & Hf). split; [|done]. unfold line_variants in Hv. rewrite Contains_newline in Hv.
  destruct (existsb _ (b_ value)) eqn:E.
  - apply existsb_exists in E as (c & Hc & Ec). rewrite forallb_forall in H. apply H, identifier_byte_plain in Hc as (_ & _ & _ & _ & _ & N). congruence.
  - simpl in Hv. destruct Hv as [<-|[]]. by apply identifier_forms.
Qed.

Lemma snapshot_proper r : reg_wf r -> forms_proper (newSecretSnapshot (rg_values r)).
Proof.
  intros [V _]. split_and!.
  - intros v rule. rewrite newSecretSnapshot_secrets, In_values. intros [-> L]%V. split.
    + apply List.Forall_forall. intros form Hf E. apply (in_map sf_text) in Hf. rewrite E in Hf. apply In_rule_forms in Hf as (variant & Hv & Hf).
      assert (variant <> "") as N by (eapply variants_nonempty; [|exact Hv]; intros ->; simpl in L; lia).
      apply In_jsonEscapedForms in Hf as [Hf|[Hf _]]; [|done]. unfold b_ in Hf. by destruct variant.
    + intros Id. apply List.Forall_forall. intros form Hf. apply (in_map sf_text) in Hf. apply identifier_rule in Hf as [-> F]; [|done]. done.
  - rewrite newSecretSnapshot_compact. apply List.Forall_forall. intros c ([i [v rule]] & Hi & Hc)%in_flat_map.
    apply In_index in Hi. rewrite newSecretSnapshot_secrets, In_values in Hi. apply V in Hi as [-> _]. unfold compact_of in Hc. simpl in Hc.
    destruct (_ && _) eqn:B in Hc; [|done]. apply andb_true_iff in B as [B _]. apply compact_first in B.
    destruct (b_ (withoutWhitespace v)) as [|x l] eqn:E; [done|]. destruct Hc as [<-|[]]. done.
  - rewrite newSecretSnapshot_secrets, newSecretSnapshot_compact. unfold index_secrets. rewrite newSecretSnapshot_secrets. by intros ->.
Qed.
End Snapshots.

(** ** Layouts of a JSON secret *)

(** A rune is one ASCII byte or has no ASCII byte at all. *)
Lemma rune_len_bytes c l k : rune_len (c :: l) = Some k ->
  k = 1%nat \/ Forall (fun x => (128 <= code x)%N) (firstn k (c :: l)).
Proof.
  assert (forall a, continuation a = true -> (128 <= code a)%N) as C.
  { unfold continuation, in_range. intros a [E _]%andb_true_iff. by apply N.leb_le. }
  assert (forall a b, second_ok a b = true -> (128 <= code b)%N) as S.
  { unfold second_ok, in_range. intros a b. repeat case_match; intros; try by apply C.
    all: match goal with H : _ && _ = true |- _ => apply andb_true_iff in H as [H _]; apply N.leb_le in H; lia end. }
  unfold rune_len. destruct (in_range 0 127 c); [intros [= <-]; by left|].
  assert (forall lo hi, (128 <= lo)%N -> in_range lo hi c = true -> (128 <= code c)%N) as L.
  { unfold in_range. intros lo hi Hl [E _]%andb_true_iff. apply N.leb_le in E. lia. }
  destruct (in_range 194 223 c) eqn:E2; [|destruct (in_range 224 239 c) eqn:E3; [|destruct (in_range 240 244 c) eqn:E4; [|done]]].
  - destruct l as [|b l]; [done|]. destruct (second_ok c b) eqn:Eb; [|done]. intros [= <-]. right.
    repeat apply List.Forall_cons; [by eapply L, E2|by eapply S|apply List.Forall_nil].
  - destruct l as [|b [|d l]]; [done..|]. destruct (_ && _) eqn:Eb; [|done]. apply andb_true_iff in Eb as [Eb Ed].
    intros [= <-]. right. repeat apply List.Forall_cons; [by eapply L, E3|by eapply S|by apply C|apply List.Forall_nil].
  - destruct l as [|b [|d [|e l]]]; [done..|]. destruct (_ && _) eqn:Eb; [|done]. rewrite !andb_true_iff in Eb.
    destruct Eb as [[Eb Ed] Ee]. intros [= <-]. right.
    repeat apply List.Forall_cons; [by eapply L, E4|by eapply S|by apply C|by apply C|apply List.Forall_nil].
Qed.

Lemma runes_fuel_length n : forall l, (length (concat (runes_fuel n l)) <= length l)%nat.
Proof.
  induction n as [|n IH]; intros l; [simpl; lia|]. destruct l as [|c l]; [simpl; lia|]. cbn [runes_fuel].
  destruct (rune_len (c :: l)) as [k|]; [|specialize (IH l); simpl; lia]. cbn [concat]. rewrite length_app.
  specialize (IH (skipn k (c :: l))). pose proof (f_equal (@length ascii) (firstn_skipn k (c :: l))) as E.
  rewrite length_app in E. lia.
Qed.

(** On valid UTF-8, dropping runes of an ASCII class drops bytes. *)
Lemma map_runes_valid p : (forall c, (128 <= code c)%N -> p c = false) -> forall n l, (length l <= n)%nat ->
  concat (runes_fuel n l) = l -> map_runes n p l = List.filter (fun c => negb (p c)) l.
Proof.
  intros P. induction n as [|n IH]; intros l L V; [destruct l; simpl in L; [done|lia]|]. destruct l as [|c l]; [done|].
  cbn [runes_fuel map_runes] in *. destruct (rune_len (c :: l)) as [k|] eqn:K.
  - cbn [concat] in V. assert (concat (runes_fuel n (skipn k (c :: l))) = skipn k (c :: l)) as V'.
    { rewrite <- (firstn_skipn k (c :: l)) in V at 3. by apply app_inv_head in V. }
    assert (0 < k)%nat as Kp by (destruct (rune_len_bytes _ _ _ K) as [->|_]; [lia|]; destruct k; [|lia]; revert K; unfold rune_len; repeat case_match; done).
    rewrite IH by (done || (rewrite length_skipn; cbn [length] in *; lia)).
    rewrite <- (firstn_skipn k (c :: l)) at 3. rewrite List.filter_app. f_equal.
    destruct (rune_len_bytes _ _ _ K) as [->|B]; [simpl; by destruct (p c)|].
    destruct k as [|k]; [lia|]. cbn [firstn] in *. rewrite (P c) by (by apply List.Forall_inv in B).
    clear - P B. induction B as [|x xs Hx B IHB]; [done|]. cbn [List.filter]. by rewrite (P x Hx), <- IHB.
  - exfalso. apply (f_equal (@length ascii)) in V. pose proof (runes_fuel_length n l). simpl in V. lia.
Qed.

Lemma withoutWhitespace_valid v : ToValidUTF8 v = v ->
  b_ (withoutWhitespace v) = List.filter (fun c => negb (isJSONSpace c)) (b_ v).
Proof.
  intros V. unfold b_, withoutWhitespace, map_drop. rewrite list_ascii_of_string_of_list_ascii. apply map_runes_valid; [|done|].
  - intros c Hc. destruct c as [[] [] [] [] [] [] [] []]; done.
  - unfold ToValidUTF8, runes in V. apply (f_equal list_ascii_of_string) in V. by rewrite list_ascii_of_string_of_list_ascii in V.
Qed.

Lemma keep_one c l i : keep (c :: l) i 1 = [mkCell c (int32 i) (int32 (i + 1))].
Proof. simpl. by destruct l. Qed.

Lemma without_space_app x y : forall i, without_space (x ++ y) i = without_space x i ++ without_space y (i + length x).
Proof.
  induction x as [|c x IH]; intros i; simpl app; [by rewrite Nat.add_0_r|]. cbn [without_space length]. rewrite !keep_one, IH, <- app_assoc.
  replace (keep x (i + 1) 0) with (@nil cell) by (by destruct x). by replace (i + 1 + length x)%nat with (i + S (length x))%nat by lia.
Qed.

Definition not_space (c : ascii) : bool := negb (isJSONSpace c).

(** The occurrence in the text without whitespace stands for the whole stretch. *)
Lemma layout_span a m b c0 m1 m2 c1 : m = c0 :: m1 -> not_space c0 = true -> m = m2 ++ [c1] -> not_space c1 = true ->
  (Z.of_nat (length (a ++ m ++ b)) < 2 ^ 31)%Z ->
  let j := length (List.filter not_space a) in let n := length (List.filter not_space m) in
  original (whitespaceFreeView (a ++ m ++ b)) (mkSpan j (j + n)) = mkSpan (length a) (length a + length m).
Proof.
  intros H0 S0 H1 S1 B j n. unfold not_space in S0, S1. apply negb_true_iff in S0, S1. rewrite !length_app in B.
  assert (forall x i, length (without_space x i) = length (List.filter not_space x)) as Len.
  { intros x i. unfold not_space. by rewrite <- (without_space_bytes x i), length_map. }
  pose proof (f_equal length H1) as Lm. rewrite length_app in Lm. simpl in Lm.
  unfold original, whitespaceFreeView, view. cbn [vw_start vw_end ms_start ms_end].
  rewrite without_space_app, (without_space_app m b). simpl (0 + length a)%nat.
  assert (nth j (map cl_start (without_space a 0 ++ without_space m (length a) ++ without_space b (length a + length m))) 0%Z = int32 (length a)) as ->.
  { rewrite map_app, app_nth2; rewrite length_map, Len; [|unfold j; lia]. fold j. rewrite Nat.sub_diag, H0. cbn [without_space]. by rewrite S0, keep_one. }
  assert (nth (j + n - 1) (map cl_end (without_space a 0 ++ without_space m (length a) ++ without_space b (length a + length m))) 0%Z
    = int32 (length a + length m)) as ->.
  { assert (n = S (length (List.filter not_space m2))) as Hn.
    { unfold n. rewrite H1, List.filter_app, length_app. simpl. unfold not_space at 2. rewrite S1. simpl. lia. }
    rewrite map_app, app_nth2; rewrite length_map, Len; [|fold j; lia]. fold j. rewrite map_app, app_nth1.
    2: { rewrite length_map, Len. fold n. lia. }
    rewrite H1, without_space_app, map_app, app_nth2; rewrite length_map, Len; [|lia].
    replace (j + n - 1 - j - length (List.filter not_space m2))%nat with 0%nat by lia. cbn [without_space]. rewrite S1, keep_one. simpl.
    rewrite length_app. simpl. f_equal. lia. }
  rewrite !int32_small, !Nat2Z.id by lia. done.
Qed.
