(* ===== verification/Redaction.v ===== *)
(** * Redaction: the properties

    What is masked and what is not, for the masks, the registry and the views. *)

From stdpp Require Import base tactics list strings gmap.
From Stdlib Require Import ZArith Lia Bool Ascii String List.
From S2P Require Import Prelude GoLib GoStrings Sql Masks Views Secrets SecretsTheory.

(** ** Histories of the registry *)

Inductive reg_op := OpRegister (value : string) | OpRedact (text : bytes).

Section Histories.
Context (json_container : string -> bool).

Definition exec_reg (r : SecretRegistry) (o : reg_op) : SecretRegistry :=
  match o with OpRegister value => Register json_container value r | OpRedact text => snd (Redact r text) end.
Definition registry (ops : list reg_op) : SecretRegistry := fold_left exec_reg ops NewSecretRegistry.

(** A value some registration kept: trimmed and of six bytes at least. *)
Definition registered (ops : list reg_op) (v : string) : Prop :=
  exists value, In (OpRegister value) ops /\ v = TrimSpace value /\ (6 <= String.length v)%nat.

Lemma redact_values r text : reg_wf json_container r -> reg_wf json_container (snd (Redact r text)) /\ rg_values (snd (Redact r text)) = rg_values r.
Proof.
  intros W. unfold Redact. case_match; [done|]. rewrite (snapshot_is _ _ W). simpl. split; [|done]. destruct W as [V C]. split; [exact V|].
  intros sn. simpl. by intros [= <-].
Qed.

Lemma register_values value r v : is_Some (rg_values (Register json_container value r) !! v) <->
  is_Some (rg_values r !! v) \/ v = TrimSpace value /\ (6 <= String.length v)%nat.
Proof.
  unfold Register. destruct (Nat.ltb_spec (String.length (TrimSpace value)) 6).
  - split; [by left|]. intros [?|[-> ?]]; [done|lia].
  - destruct (rg_values r !! TrimSpace value) eqn:E; simpl.
    + split; [by left|]. intros [?|[-> ?]]; [done|]. by rewrite E.
    + destruct (decide (v = TrimSpace value)) as [->|N].
      * rewrite lookup_insert_eq. split; [by right|by eexists].
      * rewrite lookup_insert_ne by done. split; [by left|]. by intros [?|[-> ?]].
Qed.

Lemma registry_wf ops : reg_wf json_container (registry ops) /\ forall v, is_Some (rg_values (registry ops) !! v) <-> registered ops v.
Proof.
  unfold registry. assert (forall ops r, reg_wf json_container r -> reg_wf json_container (fold_left exec_reg ops r) /\
    forall v, is_Some (rg_values (fold_left exec_reg ops r) !! v) <-> is_Some (rg_values r !! v) \/ registered ops v) as H.
  { clear ops. induction ops as [|o ops IH]; intros r W; simpl.
    - split; [done|]. intros v. split; [by left|]. by intros [?|(? & [] & _)].
    - destruct (IH (exec_reg r o)) as [IH1 IH2]; [destruct o; [by apply register_wf|by apply redact_values]|]. split; [done|].
      intros v. rewrite IH2. unfold registered. destruct o as [value|text]; simpl.
      + rewrite register_values. split.
        * intros [[?|?]|(w & Hw & ?)]; [by left|right; exists value; intuition|right; exists w; intuition].
        * intros [?|(w & [[= ->]|Hw] & ?)]; [by left; left|by left; right|right; by exists w].
      + rewrite (proj2 (redact_values _ text W)). split.
        * intros [?|(w & Hw & ?)]; [by left|right; exists w; intuition].
        * intros [?|(w & [[=]|Hw] & ?)]; [by left|right; by exists w]. }
  destruct (H ops NewSecretRegistry (empty_wf _)) as [H1 H2]. split; [done|]. intros v. rewrite H2. simpl. rewrite lookup_empty.
  split; [|by right]. by intros [[? [=]]|?].
Qed.

Definition snapshot_of (ops : list reg_op) : secretSnapshot := newSecretSnapshot (rg_values (registry ops)).

Lemma snapshot_of_proper ops : forms_proper (snapshot_of ops).
Proof. apply (snapshot_proper json_container), registry_wf. Qed.

Lemma snapshot_of_secrets ops v rule : In (v, rule) (sn_secrets (snapshot_of ops)) <-> registered ops v /\ rule = newSecretRule json_container v.
Proof.
  unfold snapshot_of. rewrite newSecretSnapshot_secrets, In_values. destruct (registry_wf ops) as [[V _] R]. rewrite <- R. split.
  - intros L. split; [by rewrite L|by apply V].
  - intros [[rule' L] ->]. rewrite L. f_equal. by apply V in L as [-> _].
Qed.

Lemma snapshot_of_compact ops c : In c (sn_compact (snapshot_of ops)) <->
  exists i v, In (i, (v, newSecretRule json_container v)) (index_secrets (snapshot_of ops)) /\ registered ops v /\
    sr_compact (newSecretRule json_container v) <> [] /\ c = newCompactSecret i (sr_compact (newSecretRule json_container v)).
Proof.
  unfold snapshot_of at 1. rewrite newSecretSnapshot_compact, in_flat_map. fold (snapshot_of ops). split.
  - intros ([i [v rule]] & Hi & Hc). pose proof Hi as Hs. apply In_index, snapshot_of_secrets in Hs as [R ->]. exists i, v.
    unfold compact_of in Hc. simpl snd in Hc. destruct (sr_compact _) as [|x l] eqn:E; [done|]. destruct Hc as [<-|[]]. done.
  - intros (i & v & Hi & R & N & ->). exists (i, (v, newSecretRule json_container v)). split; [done|]. unfold compact_of. simpl snd.
    destruct (sr_compact _); [done|]. by left.
Qed.

Lemma Redact_spans ops text : fst (Redact (registry ops) text) = applyMasks text (fd_spans (spans (snapshot_of ops) text)).
Proof.
  unfold Redact, bytes_eqb. destruct (bool_decide (text = [])) eqn:E.
  - apply bool_decide_eq_true in E as ->. unfold spans. by rewrite orb_true_r.
  - by rewrite (snapshot_is json_container) by apply registry_wf.
Qed.
End Histories.

(** ** Masks *)

(** C9: Masking replaces exactly the masked bytes: whatever spans within the text are
    reported, in whatever order and however they overlap, touch or are empty, the result
    is the text with each maximal run of covered bytes replaced by one mask and every
    other byte kept, slicing never panics, and the binary search of [covered] on the merged
    spans tells exactly the covered bytes. *)
Theorem masks_replace_runs (text : bytes) (reported : list maskSpan) :
  within text reported ->
  applyMasks text reported = Some (masked_text (in_spans reported) text) /\
  forall offset, covered (mergeSpans reported) offset = in_spans reported offset.
Proof.
  intros W. split; [by apply applyMasks_spec|]. intros offset. rewrite covered_spec by apply merge_spaced. apply merge_covers.
Qed.

Lemma masks_replace_runs_witness :
  applyMasks (b_ "a secret value") [mkSpan 9 14; mkSpan 2 6; mkSpan 5 8; mkSpan 3 3] = Some (b_ "a [REDACTED] [REDACTED]").
Proof.
  destruct (masks_replace_runs (b_ "a secret value") [mkSpan 9 14; mkSpan 2 6; mkSpan 5 8; mkSpan 3 3]) as [-> _].
  - repeat (apply List.Forall_cons; [simpl; lia|]). apply List.Forall_nil.
  - reflexivity.
Defined.

(** ** The registry *)

Definition between_boundaries (text : bytes) (j n : nat) : Prop :=
  (j = 0%nat \/ identifier_at text (j - 1) = false) /\ ((j + n)%nat = length text \/ identifier_at text (j + n) = false).

(** Where a reported byte comes from. *)
Lemma reported_from json_container ops text i : let sn := snapshot_of json_container ops in
  (Z.of_nat (length text) < 2 ^ 31)%Z -> in_spans (fd_spans (spans sn text)) i = true ->
  (exists b s, match_of sn b text s /\ (ms_start s <= i < ms_end s)%nat) \/ (exists s, layout_of sn text s /\ (ms_start s <= i < ms_end s)%nat).
Proof.
  intros sn B Hi. pose proof (snapshot_of_proper json_container ops) as P. fold sn in P. apply in_spans_spec in Hi as (s & Hs & L).
  rewrite spans_are in Hs by done. apply in_app_or in Hs as [Hs|Hs]; [apply in_app_or in Hs as [Hs|Hs]|].
  - left. exists false, s. split; [by apply secret_hits_spec|done].
  - right. exists s. split; [by apply compact_hits_spec|done].
  - apply filter_In in Hs as [Hs _]. assert (in_spans (identifier_spans sn text) i = true) as C.
    { rewrite <- merge_covers. apply in_spans_spec. by exists s. }
    apply in_spans_spec in C as (s' & Hs' & L'). left. exists true, s'. split; [by apply secret_hits_spec|done].
Qed.

(** C6: Redaction hides exactly the registered secrets: after any history of
    registrations and redactions a text under 2 GiB is masked without a panic; every
    byte of every occurrence of every form of every registered value is masked, if the
    value is an identifier when the occurrence lies between boundaries; and every masked
    byte belongs to an occurrence of a form, or to a layout of a JSON secret. *)
Theorem registered_secrets_masked (json_container : string -> bool) (ops : list reg_op) (text : bytes) :
  (Z.of_nat (length text) < 2 ^ 31)%Z ->
  exists hot, fst (Redact (registry json_container ops) text) = Some (masked_text hot text) /\
    (forall v variant form j i, registered ops v -> In variant (line_variants v) -> In form (jsonEscapedForms (b_ variant)) ->
       occurs_at text form j -> (isIdentifierLikeSecret v = true -> between_boundaries text j (length form)) ->
       (j <= i < j + length form)%nat -> hot i = true) /\
    (forall i, hot i = true ->
       (exists v variant form j, registered ops v /\ In variant (line_variants v) /\ In form (jsonEscapedForms (b_ variant)) /\
          occurs_at text form j /\ (j <= i < j + length form)%nat) \/
       (exists v j s, registered ops v /\ sr_compact (newSecretRule json_container v) <> [] /\
          occurs_at (vw_text (whitespaceFreeView text)) (sr_compact (newSecretRule json_container v)) j /\
          covers_cells s (without_space text 0) j (length (sr_compact (newSecretRule json_container v))) /\ (ms_start s <= i < ms_end s)%nat)).
Proof.
  intros B. set (sn := snapshot_of json_container ops). pose proof (snapshot_of_proper json_container ops) as P. fold sn in P.
  exists (in_spans (fd_spans (spans sn text))). split; [|split].
  - rewrite Redact_spans. apply applyMasks_spec. by apply spans_within.
  - intros v variant form j i R Hv Hf O Bd L.
    assert (In form (map sf_text (sr_forms (newSecretRule json_container v)))) as (f & <- & Hff)%in_map_iff by (apply In_rule_forms; by exists variant).
    assert (match_of sn (isIdentifierLikeSecret v) text (form_span (sf_text f) j)) as M.
    { exists v, (newSecretRule json_container v), f, j. split; [by apply snapshot_of_secrets|done]. }
    destruct (isIdentifierLikeSecret v).
    + destruct (Bd eq_refl) as [B1 B2]. by apply (bounded_identifier sn text (form_span (sf_text f) j)).
    + rewrite spans_are, in_spans_app by done. apply orb_true_iff. left. apply in_spans_spec. exists (form_span (sf_text f) j).
      split; [|done]. apply in_or_app. left. by apply secret_hits_spec.
  - intros i [(b & s & (v & rule & f & j & Hv & _ & Hf & O & ->) & L)|(s & Y & L)]%reported_from; [left|right|done].
    + apply snapshot_of_secrets in Hv as [R ->]. apply (in_map sf_text), In_rule_forms in Hf as (variant & Hv & Hf).
      by exists v, variant, (sf_text f), j.
    + apply (layout_spec _ _ _ P B) in Y as (_ & _ & c & j & Hc & O & C). apply snapshot_of_compact in Hc as (k & v & _ & R & N & ->).
      by exists v, j, s.
Qed.

Definition sample_json (s : string) : bool := HasPrefix s "{" && HasSuffix s "}".
Definition sample_secret : string := String "{" (String quote (String "k" (String quote ": 12345}"))).
Definition sample_ops : list reg_op := [OpRegister " p@ss word"; OpRedact (b_ "nothing here"); OpRegister sample_secret; OpRegister "token_1"; OpRegister "short"].

Lemma registered_secrets_masked_witness :
  exists hot, fst (Redact (registry sample_json sample_ops) (b_ "a p@ss word xtoken_1 token_1")) = Some (masked_text hot (b_ "a p@ss word xtoken_1 token_1")) /\
    hot 5%nat = true /\ hot 27%nat = true.
Proof.
  destruct (registered_secrets_masked sample_json sample_ops (b_ "a p@ss word xtoken_1 token_1")) as (hot & E & H & _); [vm_compute; reflexivity|].
  exists hot. split; [exact E|]. split.
  - apply (H "p@ss word" "p@ss word" (b_ "p@ss word") 2%nat); [|by left|by apply In_jsonEscapedForms; left|reflexivity|discriminate|simpl; lia].
    exists " p@ss word". split; [by left|]. split; [vm_compute; reflexivity|simpl; lia].
  - apply (H "token_1" "token_1" (b_ "token_1") 21%nat); [|by left|by apply In_jsonEscapedForms; left|reflexivity| |simpl; lia].
    + exists "token_1". split; [do 3 right; by left|]. split; [vm_compute; reflexivity|simpl; lia].
    + intros _. split; [right|left]; reflexivity.
Defined.

(** The white space JSON allows between its tokens: tab, line feed, carriage return and
    space. *)
Definition json_white (c : ascii) : bool := existsb (N.eqb (code c)) [9; 10; 13; 32]%N.
Definition without_white (l : bytes) : bytes := List.filter (fun c => negb (json_white c)) l.

Lemma json_white_space c : isJSONSpace c = json_white c.
Proof. by destruct c as [[] [] [] [] [] [] [] []]. Qed.

Lemma without_white_space l : List.filter not_space l = without_white l.
Proof. apply List.filter_ext. intros c. unfold not_space. by rewrite json_white_space. Qed.

(** C8: A registered JSON object or array of valid UTF-8 is masked whatever its layout:
    any stretch of a text that is the secret but for JSON white space is masked from its
    first byte to its last. *)
Theorem json_secret_any_layout (json_container : string -> bool) (ops : list reg_op) (v : string) (a m b : bytes) (c0 c1 : ascii) (m1 m2 : bytes) :
  registered ops v -> (HasPrefix v "{" || HasPrefix v "[") && json_container v = true -> ToValidUTF8 v = v ->
  without_white m = without_white (b_ v) -> m = c0 :: m1 -> json_white c0 = false -> m = m2 ++ [c1] -> json_white c1 = false ->
  (Z.of_nat (length (a ++ m ++ b)) < 2 ^ 31)%Z ->
  exists hot, fst (Redact (registry json_container ops) (a ++ m ++ b)) = Some (masked_text hot (a ++ m ++ b)) /\
    forall i, (length a <= i < length a + length m)%nat -> hot i = true.
Proof.
  intros R J V F H0 S0 H1 S1 B. set (sn := snapshot_of json_container ops). pose proof (snapshot_of_proper json_container ops) as P. fold sn in P.
  exists (in_spans (fd_spans (spans sn (a ++ m ++ b)))). split; [rewrite Redact_spans; apply applyMasks_spec; by apply spans_within|].
  intros i L. apply in_spans_spec. exists (mkSpan (length a) (length a + length m)). split; [|done].
  rewrite spans_are by done. apply in_or_app. left. apply in_or_app. right. apply compact_hits_spec; [done|].
  assert (sr_compact (newSecretRule json_container v) = b_ (withoutWhitespace v)) as E by (unfold newSecretRule; cbn [sr_compact]; by rewrite J).
  assert (List.filter not_space m = b_ (withoutWhitespace v)) as F'.
  { rewrite without_white_space, F, withoutWhitespace_valid by done. symmetry. apply without_white_space. }
  assert (not_space c0 = true /\ not_space c1 = true) as [N0 N1] by (unfold not_space; by rewrite !json_white_space, S0, S1).
  assert (b_ (withoutWhitespace v) <> []) as N.
  { rewrite <- F', H0. cbn [List.filter]. by rewrite N0. }
  destruct (index_In sn (v, newSecretRule json_container v)) as [k Hk]; [by apply snapshot_of_secrets|].
  exists (newCompactSecret k (b_ (withoutWhitespace v))), (length (List.filter not_space a)). split_and!.
  - apply snapshot_of_compact. exists k, v. by rewrite E.
  - cbn [newCompactSecret cs_text]. simpl vw_text. rewrite without_space_bytes, !List.filter_app. fold not_space. rewrite F'. apply occurs_at_app.
  - cbn [newCompactSecret cs_text form_span]. rewrite <- F'. unfold form_span. symmetry. by apply (layout_span a m b c0 m1 m2 c1).
Qed.

Definition laid_out : bytes := b_ "{" ++ [newline; quote] ++ b_ "k" ++ [quote] ++ b_ " : 12345 }".

Lemma json_secret_any_layout_witness :
  exists hot, fst (Redact (registry sample_json sample_ops) (b_ "see " ++ laid_out ++ b_ " now")) = Some (masked_text hot (b_ "see " ++ laid_out ++ b_ " now")) /\
    forall i, (4 <= i < 19)%nat -> hot i = true.
Proof.
  apply (json_secret_any_layout sample_json sample_ops sample_secret (b_ "see ") laid_out (b_ " now") "{" "}"
    (tl laid_out) (removelast laid_out)); [|vm_compute; reflexivity..].
  exists sample_secret. split; [do 2 right; by left|]. split; [vm_compute; reflexivity|simpl; lia].
Defined.

(** A byte that is no UTF-8 is where this ends: [strings.Map] replaces it in the compact
    form, so a JSON secret that holds one is shown whole once a space is added. *)
Definition invalid_secret : bytes := b_ "{" ++ [quote] ++ b_ "k" ++ [quote] ++ b_ ":" ++ [quote; ascii_of_N 255] ++ b_ "12345" ++ [quote] ++ b_ "}".
Definition invalid_laid_out : bytes := b_ "{ " ++ tl invalid_secret.

Example invalid_byte_layout_shown :
  without_white invalid_laid_out = without_white invalid_secret /\
  fst (Redact (registry sample_json [OpRegister (string_of_list_ascii invalid_secret)]) invalid_laid_out) = Some invalid_laid_out.
Proof. split; vm_compute; reflexivity. Qed.

(** ** Views *)

Lemma ascending_length cells : forall lo hi, ascending lo cells hi -> (lo + length cells <= hi)%nat.
Proof. induction cells as [|c cells IH]; intros lo hi A; simpl in *; [lia|]. destruct A as (a & b & _ & _ & L & A). specialize (IH _ _ A). lia. Qed.

Lemma seen_length text : (Z.of_nat (length text) < 2 ^ 31)%Z -> (length (seen text) <= length text)%nat.
Proof. intros B. rewrite seen_reading, length_map. by apply (ascending_length _ 0), reading_ascending. Qed.

Lemma spans_nonempty sn text : forms_proper sn -> (Z.of_nat (length text) < 2 ^ 31)%Z ->
  Forall (fun s => (ms_start s < ms_end s)%nat) (fd_spans (spans sn text)).
Proof.
  intros P B. rewrite spans_are by done. apply List.Forall_forall. intros s [[Hs|Hs]%in_app_or|Hs]%in_app_or.
  - apply (match_nonempty sn false text); [done|]. by apply secret_hits_spec.
  - apply (layout_spec sn text); [done..|]. by apply compact_hits_spec.
  - apply filter_In in Hs as [Hs _]. by eapply spaced_nonempty; [apply merge_spaced|].
Qed.

(** What is found where detection looks is reported at its original range. *)
Lemma detect_spans credentials sn text : exists found_here,
  fd_spans (detect credentials sn text) = found_here ++ credentials text /\
  (forall s, In s found_here -> In s (fd_spans (spans sn text)) \/ exists s', In s' (fd_spans (spans sn (seen text))) /\ s = seen_span text s') /\
  (forall s, In s (fd_spans (spans sn (seen text))) -> In (seen_span text s) found_here).
Proof.
  unfold detect, seen, seen_span. destruct (detectionView text) as [v|].
  - exists (fd_spans (spans sn text) ++ map (original v) (fd_spans (spans sn (vw_text v)))). cbn [fd_spans]. rewrite <- app_assoc. split_and!; [done|..].
    + intros s [?|(s' & <- & ?)%in_map_iff]%in_app_or; [by left|right; by exists s'].
    + intros s Hs. apply in_or_app. right. by apply in_map.
  - exists (fd_spans (spans sn text)). split_and!; [done|by left|done].
Qed.

Lemma detect_within credentials sn text : forms_proper sn -> (Z.of_nat (length text) < 2 ^ 31)%Z -> within text (credentials text) ->
  within text (fd_spans (detect credentials sn text)).
Proof.
  intros P B W. destruct (detect_spans credentials sn text) as (here & -> & H & _). apply List.Forall_app. split; [|done].
  apply List.Forall_forall. intros s [Hs|(s' & Hs & ->)]%H.
  - pose proof (spans_within _ _ P B) as W'. unfold within in W'. rewrite List.Forall_forall in W'. by apply W'.
  - pose proof (seen_length text B) as Ls. assert (Z.of_nat (length (seen text)) < 2 ^ 31)%Z as Bs by lia.
    pose proof (spans_within _ _ P Bs) as W'. pose proof (spans_nonempty _ _ P Bs) as N. unfold within in W'.
    rewrite List.Forall_forall in W', N. specialize (W' _ Hs). specialize (N _ Hs). destruct s' as [j e]. simpl in W', N.
    replace e with (j + (e - j))%nat by lia. apply seen_span_spec; [done|lia|lia].
Qed.

(** C7: A secret is masked as its reader sees it: a plain registered form that shows once
    terminal sequences and invisible characters are left out and identifier escapes are
    decoded is masked in the original, whole escapes and what was left out between its
    bytes included, whatever other spans the credential recognizers report. *)
Theorem hidden_secrets_masked (json_container : string -> bool) (ops : list reg_op) (credentials : bytes -> list maskSpan) (text : bytes) :
  (Z.of_nat (length text) < 2 ^ 31)%Z -> within text (credentials text) ->
  exists hot, redact_text credentials (snapshot_of json_container ops) text = Some (masked_text hot text) /\
    forall v variant form j k c i, registered ops v -> isIdentifierLikeSecret v = false -> In variant (line_variants v) ->
      In form (jsonEscapedForms (b_ variant)) -> occurs_at (map cl_byte (reading text)) form j -> (j <= k < j + length form)%nat ->
      nth_error (reading text) k = Some c -> (cl_start c <= Z.of_nat i < cl_end c)%Z -> hot i = true.
Proof.
  intros B W. set (sn := snapshot_of json_container ops). pose proof (snapshot_of_proper json_container ops) as P. fold sn in P.
  exists (in_spans (fd_spans (detect credentials sn text))). split; [apply applyMasks_spec; by apply detect_within|].
  intros v variant form j k c i R Id Hv Hf O L K Li. rewrite <- seen_reading in O.
  assert (In form (map sf_text (sr_forms (newSecretRule json_container v)))) as (f & <- & Hff)%in_map_iff by (apply In_rule_forms; by exists variant).
  assert (match_of sn false (seen text) (form_span (sf_text f) j)) as M.
  { exists v, (newSecretRule json_container v), f, j. split; [by apply snapshot_of_secrets|done]. }
  pose proof (match_nonempty _ _ _ _ P M) as [N1 N2]. simpl in N1, N2.
  destruct (detect_spans credentials sn text) as (here & -> & _ & H). rewrite in_spans_app. apply orb_true_iff. left.
  apply in_spans_spec. exists (seen_span text (form_span (sf_text f) j)). split.
  - apply H. rewrite spans_are by done. apply in_or_app. left. apply in_or_app. left. by apply secret_hits_spec.
  - destruct (seen_span_spec text j (length (sf_text f)) B ltac:(lia) N2) as (_ & _ & C). specialize (C k c K).
    rewrite (proj2 (Nat.leb_le _ _)), (proj2 (Nat.ltb_lt _ _)) in C by lia. simpl in C. unfold form_span. lia.
Qed.

Definition colored : bytes := b_ "pw: p@s" ++ [ESC] ++ b_ "[0ms wor\u0064.".

Lemma hidden_secrets_masked_witness :
  exists hot, redact_text (fun _ => []) (snapshot_of sample_json sample_ops) colored = Some (masked_text hot colored) /\ hot 4%nat = true /\ hot 16%nat = true /\ hot 20%nat = true.
Proof.
  destruct (hidden_secrets_masked sample_json sample_ops (fun _ => []) colored) as (hot & E & H); [vm_compute; reflexivity|apply List.Forall_nil|].
  exists hot. split; [exact E|].
  assert (registered sample_ops "p@ss word") as R.
  { exists " p@ss word". split; [by left|]. split; [vm_compute; reflexivity|simpl; lia]. }
  split_and!.
  - apply (H "p@ss word" "p@ss word" (b_ "p@ss word") 4%nat 4%nat (mkCell "p" 4 5) 4%nat R); try (vm_compute; reflexivity); [by left|by apply In_jsonEscapedForms; left|simpl; lia|simpl; lia].
  - apply (H "p@ss word" "p@ss word" (b_ "p@ss word") 4%nat 12%nat (mkCell "d" 16 22) 16%nat R); try (vm_compute; reflexivity); [by left|by apply In_jsonEscapedForms; left|simpl; lia|simpl; lia].
  - apply (H "p@ss word" "p@ss word" (b_ "p@ss word") 4%nat 12%nat (mkCell "d" 16 22) 20%nat R); try (vm_compute; reflexivity); [by left|by apply In_jsonEscapedForms; left|simpl; lia|simpl; lia].
Defined.
