(* ===== verification/SecretStream.v ===== *)
(** * Secrets in a stream of lines

    The stream that shows a line once no registered secret can begin on it
    ([tools/redaction_stream.go]): the automaton that follows a JSON secret
    ([streamHold.feed]) on its failure function ([borders], [tools/redaction_secrets.go]),
    the secrets of several lines, which lines are held, and the lookback that is kept.
    Behind the definitions: what the automaton's state means for a text. *)

From stdpp Require Import base tactics list strings gmap.
From Stdlib Require Import ZArith Lia Bool Ascii String List.
From S2P Require Import Prelude GoLib GoStrings Sql Masks Views Secrets.

(** ** The automaton *)

Definition feed_byte (secret : compactSecret) (state : nat) (c : ascii) : nat :=
  if isJSONSpace c then state else
  let text := cs_text secret in
  let state := fall_back state text (cs_border secret) c state in
  let state := match nth_error text state with Some p => if is_byte p c then S state else state | None => state end in
  if (state =? length text)%nat then nth (state - 1) (cs_border secret) 0%nat else state.

Definition feed_line (secret : compactSecret) (state : nat) (line : bytes) : nat := fold_left (feed_byte secret) line state.

(** [streamHold.feed]: one state per secret. *)
Definition feed (secrets : list compactSecret) (line : bytes) (kmp : list nat) : list nat :=
  map (fun p => feed_line (fst p) (snd p) line) (combine secrets kmp).

(** ** The stream

    [lineStreamRedactor]: its buffer, the lines not yet shown and what follows the
    registered secrets.  The masks of a line and the text it is shown with are not part of
    the state here; the recognizer of value fields is. *)

(** [streamLine]: a line not yet shown and where it lies in the buffer. *)
Record streamLine := mkLine { sl_text : bytes; sl_start : nat }.

(** [liveMatch]. *)
Record liveMatch := mkLive { lm_form : nat; lm_seq : nat; lm_next : nat }.

(** [streamHold], with the registry's snapshot it follows: which registry state it is of,
    and what is in it. *)
Record streamHold := mkHold { hd_snapshot : option (nat * secretSnapshot); hd_live : list liveMatch; hd_kmp : list nat }.
Definition newHold : streamHold := mkHold None [] [].

Definition hold_secrets (h : streamHold) : secretSnapshot := match hd_snapshot h with Some (_, sn) => sn | None => empty_snapshot end.

Definition streamLookbackBytes : nat := 256.
Definition streamHoldSlack : nat := 1024.
Definition maxLookbackBlanks : Z := 65536.

(** [streamHold.advance] on a secret in progress. *)
Definition advance_live (forms : list multilineSecret) (line : bytes) (m : liveMatch) : list liveMatch :=
  match nth_error forms (lm_form m) with
  | Some form =>
      if (lm_next m =? length (ml_lines form) - 1)%nat then []
      else if bytes_eqb line (nth (lm_next m) (ml_lines form) []) then [mkLive (lm_form m) (lm_seq m) (S (lm_next m))] else []
  | None => []
  end.

Definition has_suffix (text suffix : bytes) : bool :=
  (length suffix <=? length text)%nat && bytes_eqb (skipn (length text - length suffix) text) suffix.

Definition startsMultiline (form : multilineSecret) (line : bytes) (recent : list bytes) : bool :=
  if (ml_skip form =? 0)%nat then has_suffix line (nth 0 (ml_lines form) [])
  else if (length recent <? ml_skip form)%nat || negb (bytes_eqb line (nth (ml_skip form) (ml_lines form) [])) then false else
  let before := skipn (length recent - ml_skip form) recent in
  has_suffix (nth 0 before []) (nth 0 (ml_lines form) [])
  && forallb (fun i => bytes_eqb (nth i before []) (nth i (ml_lines form) [])) (seq 1 (ml_skip form - 1)).

(** [streamHold.advance]. *)
Definition advance (forms : list multilineSecret) (line : bytes) (seq_ : nat) (recent : list bytes) (live : list liveMatch) : list liveMatch :=
  flat_map (advance_live forms line) live
  ++ flat_map (fun f => if startsMultiline (snd f) line recent then [mkLive (fst f) seq_ (S (ml_skip (snd f)))] else [])
       (combine (seq 0 (length forms)) forms).

(** [liveStart], over the buffer from its end. *)
Fixpoint liveStart_rev (r : bytes) (state : nat) : option nat :=
  match r with
  | [] => None
  | c :: r =>
      if isJSONSpace c then liveStart_rev r state else
      match state with
      | O => liveStart_rev r O
      | S O => Some (length r)
      | S state => liveStart_rev r state
      end
  end.
Definition liveStart (buf : bytes) (state : nat) : option nat := liveStart_rev (rev buf) state.

(** [lineAt]: the line of an offset, the first for one in the lookback. *)
Definition lineAt (pending : list streamLine) (offset : nat) : nat :=
  (sort_Search (length pending) (fun i => match nth_error pending i with Some l => (offset <? sl_start l)%nat | None => false end) - 1)%nat.

(** What the loop over the JSON secrets does with one state: it is kept, and holds the
    lines from where its beginning started, unless no layout takes this much room. *)
Definition compact_hold (buf : bytes) (pending : list streamLine) (secret : compactSecret) (state : nat) : nat * option nat :=
  if (state <=? cs_lead secret)%nat then (state, None) else
  match liveStart buf state with
  | Some start => if (cs_limit secret <? length buf - start)%nat then (0%nat, None) else (state, Some (lineAt pending start))
  | None => (0%nat, None)
  end.

(** The last loop of [holdFrom]: what is held stays within [limit]. *)
Fixpoint hold_within (fuel : nat) (pending : list streamLine) (size limit held : nat) : nat :=
  match fuel with
  | O => held
  | S fuel =>
      if (held <? length pending - 1)%nat
         && match nth_error pending held with Some l => (limit <? size - sl_start l)%nat | None => false end
      then hold_within fuel pending size limit (S held) else held
  end.

Definition heldBytesOf (lines : list streamLine) : nat := fold_left (fun n l => (n + S (length (sl_text l)))%nat) lines 0%nat.

Definition isBlank (c : ascii) : bool := byte_in " " c || in_range 9 13 c.

(** [lookbackStart], over the shown text from its end. *)
Fixpoint lookback_rev (r : bytes) (budget : nat) (blanks : Z) : nat :=
  match r with
  | [] => O
  | c :: r =>
      if isBlank c then if (maxLookbackBlanks <? blanks + 1)%Z then S (length r) else lookback_rev r budget (blanks + 1)
      else if (budget =? 1)%nat then length r else lookback_rev r (budget - 1) blanks
  end.
Definition lookbackStart (shown : bytes) (keep : nat) : nat :=
  if (length shown <=? keep)%nat then 0%nat else lookback_rev (rev shown) keep 0.
Definition blankLookbackStart (end_ keep : nat) : nat := Z.to_nat (Z.of_nat end_ - (Z.of_nat keep + maxLookbackBlanks)).

Section Stream.
(** The value field that waits for its name, recognized by regular expressions: the lines
    it reads, and the line it holds. *)
Context {F : Type} (no_field : F) (read_field : F -> bytes -> nat -> F) (field_seq : F -> option nat).

Record lineStreamRedactor := mkStream {
  st_buf : bytes; st_base : nat; st_pending : list streamLine; st_seq : nat; st_firstSeq : nat;
  st_recent : list bytes; st_hold : streamHold; st_field : F }.

Definition newLineStreamRedactor : lineStreamRedactor := mkStream [] 0 [] 0 0 [] newHold no_field.

(** [sync]: the registry is another one when a value was registered. *)
Definition sync (registry : nat * secretSnapshot) (h : streamHold) : streamHold :=
  if match hd_snapshot h with Some (n, _) => (n =? fst registry)%nat | None => false end then h
  else mkHold (Some registry) [] (repeat 0%nat (length (sn_compact (snd registry)))).

Definition keep_bytes (h : streamHold) : nat :=
  fold_left (fun keep c => Nat.max keep (streamLookbackBytes + cs_limit c)) (sn_compact (hold_secrets h)) streamLookbackBytes.

(** [holdFrom]: the line, the [n]-th, is the last of [pending] and ends [buf]. *)
Definition holdFrom (buf : bytes) (pending : list streamLine) (firstSeq n : nat) (recent : list bytes) (h : streamHold) (field : F) (line : bytes)
  : nat * list bytes * streamHold * F :=
  let sn := hold_secrets h in
  let held := length pending in
  let multiline := match sn_multiline sn with [] => false | _ => true end in
  let live := if multiline then advance (sn_multiline sn) line n recent (hd_live h) else hd_live h in
  let held := if multiline then fold_left (fun held m => Nat.min held (lm_seq m - firstSeq)) live held else held in
  let recent := if multiline && (0 <? sn_maxSkip sn)%nat
                then let r := recent ++ [line] in skipn (length r - sn_maxSkip sn) r else recent in
  let kmp := feed (sn_compact sn) line (hd_kmp h) in
  let followed := map (fun p => compact_hold buf pending (fst p) (snd p)) (combine (sn_compact sn) kmp) in
  let held := fold_left (fun held f => match snd f with Some i => Nat.min held i | None => held end) followed held in
  let independentHold := held in
  let field := read_field field line n in
  let held := match field_seq field with Some seq_ => Nat.min held (seq_ - firstSeq) | None => held end in
  let limit := (sn_maxHeld sn + streamHoldSlack)%nat in
  let within := hold_within (length pending) pending (length buf) limit in
  let held := within held in
  let dropped := match field_seq field with
                 | Some seq_ => (seq_ - firstSeq <? held)%nat || (limit <? heldBytesOf (skipn (seq_ - firstSeq) pending))%nat
                 | None => false
                 end in
  let field := if dropped then no_field else field in
  let held := if dropped then within independentHold else held in
  let live := List.filter (fun m => (firstSeq + held <=? lm_seq m)%nat) live in
  (held, recent, mkHold (hd_snapshot h) live (map fst followed), field).

(** [drop]: what was shown, from [from] on, is the lookback. *)
Definition drop (n from : nat) (s : lineStreamRedactor) : lineStreamRedactor :=
  match nth_error (st_pending s) (n - 1) with
  | Some last =>
      mkStream (skipn from (st_buf s)) (sl_start last + length (sl_text last) - from)
        (map (fun l => mkLine (sl_text l) (sl_start l - from)) (skipn n (st_pending s)))
        (st_seq s) (st_firstSeq s + n) (st_recent s) (st_hold s) (st_field s)
  | None => s
  end.

(** [release] of the first [n] pending lines. *)
Definition release (n : nat) (s : lineStreamRedactor) : lineStreamRedactor :=
  if (n =? 0)%nat then s else
  match nth_error (st_pending s) (n - 1) with
  | Some last =>
      let end_ := (sl_start last + length (sl_text last))%nat in
      let keep := keep_bytes (st_hold s) in
      if forallb (fun l => (TrimSpace (string_of_list_ascii (sl_text l)) =? "")%string) (firstn n (st_pending s))
      then drop n (blankLookbackStart end_ keep) s
      else drop n (lookbackStart (firstn end_ (st_buf s)) keep) s
  | None => s
  end.

(** [push]. *)
Definition push (registry : nat * secretSnapshot) (line : bytes) (s : lineStreamRedactor) : lineStreamRedactor :=
  let h := sync registry (st_hold s) in
  let buf := st_buf s ++ [newline] in
  let pending := st_pending s ++ [mkLine line (length buf)] in
  let buf := buf ++ line in
  let '(held, recent, h, field) := holdFrom buf pending (st_firstSeq s) (st_seq s) (st_recent s) h (st_field s) line in
  release held (mkStream buf (st_base s) pending (S (st_seq s)) (st_firstSeq s) recent h field).

(** [flush]. *)
Definition flush (registry : nat * secretSnapshot) (s : lineStreamRedactor) : lineStreamRedactor :=
  match st_pending s with
  | [] => s
  | _ => release (length (st_pending s))
           (mkStream (st_buf s) (st_base s) (st_pending s) (st_seq s) (st_firstSeq s) (st_recent s) (sync registry (st_hold s)) (st_field s))
  end.

Inductive stream_op := StreamLine (registry : nat * secretSnapshot) (line : bytes) | StreamEnd (registry : nat * secretSnapshot).

Definition stream_step (s : lineStreamRedactor) (o : stream_op) : lineStreamRedactor :=
  match o with StreamLine registry line => push registry line s | StreamEnd registry => flush registry s end.
Definition run_stream (ops : list stream_op) : lineStreamRedactor := fold_left stream_step ops newLineStreamRedactor.
End Stream.

(** ** Beginnings a text ends with *)

(** The first [k] bytes of [p] end [t]. *)
Definition ends_with (p t : bytes) (k : nat) : Prop := (k <= length p)%nat /\ exists u, t = u ++ firstn k p.

Lemma ends_with_0 p t : ends_with p t 0.
Proof. split; [lia|]. exists t. by rewrite app_nil_r. Qed.

Lemma firstn_next {A} (p : list A) : forall k d, nth_error p k = Some d -> firstn (S k) p = firstn k p ++ [d].
Proof.
  induction p as [|x p IH]; intros [|k] d K; try done; simpl in K.
  - by injection K as <-.
  - change (firstn (S (S k)) (x :: p)) with (x :: firstn (S k) p). by rewrite (IH _ _ K).
Qed.

Lemma ends_with_step p t c k : ends_with p (t ++ [c]) (S k) <-> ends_with p t k /\ nth_error p k = Some c.
Proof.
  split.
  - intros [L [u E]]. destruct (nth_error p k) as [d|] eqn:K; [|apply nth_error_None in K; lia].
    rewrite (firstn_next _ _ _ K), app_assoc in E. apply app_inj_tail in E as [-> ->]. split; [|done]. split; [lia|by exists u].
  - intros [[L [u ->]] K]. assert (k < length p)%nat as Lt by (apply nth_error_Some; by rewrite K). split; [lia|]. exists u.
    by rewrite (firstn_next _ _ _ K), <- app_assoc.
Qed.

(** Shorter beginnings end the text exactly when they end the longer one. *)
Lemma ends_with_shorter p t k k' : ends_with p t k -> (k' <= k)%nat -> (ends_with p t k' <-> ends_with p (firstn k p) k').
Proof.
  intros [L [u ->]] Le. split; intros [L' [v E]]; (split; [done|]).
  - exists (firstn (k - k') (firstn k p)). assert (length (firstn k p) = k) as Lk by (rewrite length_firstn; lia).
    assert (length (firstn k' p) = k') as Lk' by (rewrite length_firstn; lia).
    assert (skipn (k - k') (firstn k p) = firstn k' p) as <-; [|by rewrite firstn_skipn].
    assert (length (u ++ firstn k p) = length (v ++ firstn k' p)) as Le2 by (by rewrite E). rewrite !length_app, Lk, Lk' in Le2.
    rewrite <- (firstn_skipn (k - k') (firstn k p)), app_assoc in E.
    assert (length (u ++ firstn (k - k') (firstn k p)) = length v) as Lv by (rewrite length_app, length_firstn; lia).
    by apply app_inj_1 in E as [_ E].
  - exists (u ++ v). by rewrite E, app_assoc.
Qed.

(** [k] is the longest such beginning shorter than [bound]. *)
Definition longest (p t : bytes) (bound k : nat) : Prop := (k < bound)%nat /\ ends_with p t k /\ forall k', (k' < bound)%nat -> ends_with p t k' -> (k' <= k)%nat.

Definition borders_known (p : bytes) (border : list nat) (n : nat) : Prop :=
  forall i, (i < n)%nat -> longest p (firstn (S i) p) (S i) (nth i border 0%nat).

(** Falling back keeps the longest beginning that the next byte can extend. *)
Lemma fall_back_spec p border c t bound : forall fuel k, (k <= fuel)%nat -> (k < length p)%nat -> borders_known p border k -> ends_with p t k ->
  (forall k', (k' < bound)%nat -> ends_with p t k' -> nth_error p k' = Some c -> (k' <= k)%nat) ->
  let r := fall_back fuel p border c k in
  (r <= k)%nat /\ ends_with p t r /\ (r = 0%nat \/ nth_error p r = Some c) /\ (forall k', (k' < bound)%nat -> ends_with p t k' -> nth_error p k' = Some c -> (k' <= r)%nat).
Proof.
  induction fuel as [|fuel IH]; intros k F L B E M; cbn zeta.
  - replace k with 0%nat in * by lia. simpl. auto.
  - cbn [fall_back]. destruct (Nat.ltb_spec 0 k) as [P|P]; simpl; [|split_and!; (done || (left; lia) || lia)].
    destruct (nth_error p k) as [d|] eqn:K; [|apply nth_error_None in K; lia]. rewrite (nth_error_nth _ _ _ K). unfold is_byte.
    destruct (Ascii.eqb_spec d c) as [->|N]; simpl; [split_and!; auto|].
    destruct (B (k - 1)%nat ltac:(lia)) as (B1 & B2 & B3). replace (S (k - 1)) with k in * by lia.
    destruct (IH (nth (k - 1) border 0%nat)) as (R1 & R2 & R3 & R4); [lia|lia| | |  |split_and!; (done || lia)].
    + intros i Hi. apply B. lia.
    + apply (ends_with_shorter p t k); [done|lia|done].
    + intros k' L' E' K'. specialize (M _ L' E' K'). destruct (Nat.eq_dec k' k) as [->|Ne]; [congruence|].
      apply B3; [lia|]. apply (ends_with_shorter p t k); (done || lia).
Qed.

(** One byte further. *)
Lemma advance_spec p border c t bound k : (k < length p)%nat -> borders_known p border k -> ends_with p t k ->
  (forall k', (k' < bound)%nat -> ends_with p t k' -> nth_error p k' = Some c -> (k' <= k)%nat) ->
  let r := fall_back k p border c k in
  let s := match nth_error p r with Some d => if is_byte d c then S r else r | None => r end in
  ends_with p (t ++ [c]) s /\ (s <= S k)%nat /\ forall k', (k' <= bound)%nat -> ends_with p (t ++ [c]) k' -> (k' <= s)%nat.
Proof.
  intros L B E M r s. destruct (fall_back_spec p border c t bound k k) as (R1 & R2 & R3 & R4); [lia|done..|]. fold r in R1, R2, R3, R4.
  destruct (nth_error p r) as [d|] eqn:K; [|apply nth_error_None in K; lia].
  assert (s = if is_byte d c then S r else r) as -> by (by unfold s). unfold is_byte. destruct (Ascii.eqb_spec d c) as [->|N].
  - split_and!; [by apply ends_with_step|lia|]. intros [|k'] L' E'; [lia|]. apply ends_with_step in E' as [E1 E2]. specialize (R4 _ L' E1 E2). lia.
  - destruct R3 as [-> |R3]; [|congruence]. split_and!; [apply ends_with_0|lia|]. intros [|k'] L' E'; [lia|]. apply ends_with_step in E' as [E1 E2].
    specialize (R4 _ L' E1 E2). replace k' with 0%nat in * by lia. congruence.
Qed.

(** ** The failure function *)

Lemma borders_from_spec p : forall rest border k done_, p = done_ ++ rest -> (0 < length done_)%nat -> length border = length done_ ->
  borders_known p border (length done_) -> k = nth (length done_ - 1) border 0%nat ->
  length (borders_from p border k rest) = length p /\ borders_known p (borders_from p border k rest) (length p).
Proof.
  induction rest as [|c rest IH]; intros border k dn E N L B Ek; cbn [borders_from].
  - rewrite app_nil_r in E. by subst dn.
  - assert (length p = length dn + S (length rest))%nat as Lp by (by rewrite E, length_app).
    assert (firstn (length dn) p = dn) as Fd by (by rewrite E, firstn_app, Nat.sub_diag, firstn_all, app_nil_r).
    assert (nth_error p (length dn) = Some c) as Kc by (by rewrite E, nth_error_app2, Nat.sub_diag).
    pose proof (B (length dn - 1)%nat ltac:(lia)) as (B1 & B2 & B3). replace (S (length dn - 1)) with (length dn) in * by lia.
    rewrite <- Ek, Fd in *.
    destruct (advance_spec p border c dn (length dn) k) as (S1 & S2 & S3); [lia|intros i Hi; apply B; lia|done|intros k' L' E' _; by apply B3|].
    set (s := match nth_error p (fall_back k p border c k) with Some d => if is_byte d c then S (fall_back k p border c k) else fall_back k p border c k | None => fall_back k p border c k end) in *.
    apply (IH (border ++ [s]) s (dn ++ [c])); rewrite ?length_app; simpl; [by rewrite <- app_assoc|lia|lia| |].
    + intros i Hi. destruct (Nat.eq_dec i (length dn)) as [->|Ne].
      * rewrite app_nth2, L, Nat.sub_diag by lia. simpl. rewrite (firstn_next _ _ _ Kc), Fd. split_and!; [lia|done|].
        intros k' L' E'. apply S3; [lia|done].
      * rewrite app_nth1 by lia. apply B. lia.
    + rewrite app_nth2 by lia. by replace (length dn + 1 - 1 - length border)%nat with 0%nat by lia.
Qed.

Lemma borders_spec p : borders_known p (borders p) (length p).
Proof.
  destruct p as [|c p]; [intros i Hi; simpl in Hi; lia|]. unfold borders.
  apply (borders_from_spec (c :: p) p [0%nat] 0 [c]); [done|simpl; lia|done| |done]. intros i Hi. simpl in Hi. replace i with 0%nat by lia. simpl.
  split_and!; [lia|apply ends_with_0|lia].
Qed.

(** ** The automaton over a stream *)

(** The bytes of the stream that count. *)
Definition compacted (stream : bytes) : bytes := List.filter (fun c => negb (isJSONSpace c)) stream.

Lemma feed_byte_spec i p state t c : longest p t (length p) state ->
  longest p (t ++ (if isJSONSpace c then [] else [c])) (length p) (feed_byte (newCompactSecret i p) state c).
Proof.
  intros (L & E & M). unfold feed_byte. destruct (isJSONSpace c); [by rewrite app_nil_r|]. cbn [cs_text cs_border newCompactSecret].
  destruct (advance_spec p (borders p) c t (length p) state) as (S1 & S2 & S3); [done|intros j Hj; apply borders_spec; lia|done|intros k' L' E' _; by apply M|].
  set (s := match nth_error p _ with Some d => _ | None => _ end) in *. destruct (Nat.eqb_spec s (length p)) as [Es|Ne].
  - destruct (borders_spec p (s - 1)%nat ltac:(lia)) as (B1 & B2 & B3). replace (S (s - 1)) with s in * by lia.
    split_and!; [lia| |].
    + apply (ends_with_shorter p _ s); [done|lia|done].
    + intros k' L' E'. apply B3; [lia|]. apply (ends_with_shorter p (t ++ [c]) s); (done || lia).
  - split_and!; [destruct S1; lia|done|]. intros k' L' E'. apply S3; [lia|done].
Qed.

Lemma feed_line_spec i p line : forall state t, longest p t (length p) state ->
  longest p (t ++ compacted line) (length p) (feed_line (newCompactSecret i p) state line).
Proof.
  induction line as [|c line IH]; intros state t L; simpl; [by rewrite app_nil_r|]. apply (feed_byte_spec i p state t c) in L.
  apply IH in L. unfold compacted. simpl. destruct (isJSONSpace c); simpl in *; [by rewrite app_nil_r in L|by rewrite <- app_assoc in L].
Qed.
