(* ===== verification/StreamHold.v ===== *)
(** * What a stream of lines holds back

    The invariant of the buffer and the lines not yet shown, the meaning of the automata of
    the JSON secrets over a whole stream with its restarts, and which lines they hold. *)

From stdpp Require Import base tactics list strings gmap.
From Stdlib Require Import ZArith Lia Bool Ascii String List.
From S2P Require Import Prelude GoLib GoStrings Sql Masks Views Secrets SecretsTheory Redaction SecretStream.

(** ** The text of a stream *)

Definition text_of (lines : list bytes) : bytes := concat (map (cons newline) lines).

Lemma text_of_app a b : text_of (a ++ b) = text_of a ++ text_of b.
Proof. unfold text_of. by rewrite map_app, concat_app. Qed.

Lemma text_of_length_split n lines : length (text_of (firstn n lines)) + length (text_of (skipn n lines)) = length (text_of lines).
Proof. by rewrite <- length_app, <- text_of_app, firstn_skipn. Qed.

Definition pushed_line (o : stream_op) : list bytes := match o with StreamLine _ line => [line] | StreamEnd _ => [] end.
Definition lines_of (ops : list stream_op) : list bytes := flat_map pushed_line ops.
Definition stream_text (ops : list stream_op) : bytes := text_of (lines_of ops).
Definition op_registry (o : stream_op) : nat * secretSnapshot := match o with StreamLine r _ | StreamEnd r => r end.

Lemma lines_of_app a b : lines_of (a ++ b) = lines_of a ++ lines_of b.
Proof. unfold lines_of. apply flat_map_app. Qed.

Lemma stream_text_app a b : stream_text (a ++ b) = stream_text a ++ stream_text b.
Proof. unfold stream_text. by rewrite lines_of_app, text_of_app. Qed.

Lemma compacted_app a b : compacted (a ++ b) = compacted a ++ compacted b.
Proof. apply List.filter_app. Qed.

(** ** Where the last bytes begin *)

Lemma liveStart_rev_some r : forall state start, (0 < state)%nat -> liveStart_rev r state = Some start ->
  (start < length r)%nat /\ length (compacted (firstn (length r - start) r)) = state /\
  exists c, nth_error r (length r - start - 1) = Some c /\ isJSONSpace c = false.
Proof.
  induction r as [|c r IH]; intros state start P E; [done|]. cbn [liveStart_rev] in E. unfold compacted.
  destruct (isJSONSpace c) eqn:Sp.
  - destruct (IH _ _ P E) as (L & C & x & Hx & Nx). cbn [length]. replace (S (length r) - start)%nat with (S (length r - start)) by lia.
    cbn [firstn List.filter]. rewrite Sp. split_and!; [lia|done|]. exists x.
    replace (S (length r - start) - 1)%nat with (S (length r - start - 1)) by lia. done.
  - destruct state as [|[|state]]; [lia| |].
    + injection E as <-. cbn [length]. replace (S (length r) - length r)%nat with 1%nat by lia. cbn [firstn List.filter]. rewrite Sp.
      split_and!; [lia|done|]. by exists c.
    + destruct (IH (S state) start ltac:(lia) E) as (L & C & x & Hx & Nx). cbn [length].
      replace (S (length r) - start)%nat with (S (length r - start)) by lia. cbn [firstn List.filter]. rewrite Sp. cbn [negb length].
      split_and!; [lia|by f_equal|]. exists x. replace (S (length r - start) - 1)%nat with (S (length r - start - 1)) by lia. done.
Qed.

Lemma liveStart_rev_none r : forall state, (0 < state)%nat -> liveStart_rev r state = None -> (length (compacted r) < state)%nat.
Proof.
  induction r as [|c r IH]; intros state P E; [done|]. cbn [liveStart_rev] in E. unfold compacted in *. cbn [List.filter].
  destruct (isJSONSpace c); cbn [negb]; [by apply IH|]. destruct state as [|[|state]]; [lia|done|]. cbn [length].
  specialize (IH (S state) ltac:(lia) E). lia.
Qed.

Lemma compacted_rev l : compacted (rev l) = rev (compacted l).
Proof. unfold compacted. by rewrite List.filter_rev. Qed.

Lemma skipn_from {A} (l : list A) : forall n c, nth_error l n = Some c -> skipn n l = c :: skipn (S n) l.
Proof. induction l as [|x l IH]; intros [|n] c E; try done; simpl in E; [by injection E as ->|]. by apply IH. Qed.

(** The [state]-th last byte that is not white space, and what lies behind it. *)
Definition begins_dark (w : bytes) : Prop := match w with c :: _ => isJSONSpace c = false | [] => False end.

Lemma liveStart_some buf state start : (0 < state)%nat -> liveStart buf state = Some start ->
  (start < length buf)%nat /\ length (compacted (skipn start buf)) = state /\ begins_dark (skipn start buf).
Proof.
  intros P E. apply liveStart_rev_some in E as (L & C & c & Hc & Nc); [|done]. rewrite length_rev in *. split; [done|]. split.
  - rewrite firstn_rev in C. replace (length buf - (length buf - start))%nat with start in C by lia.
    by rewrite compacted_rev, length_rev in C.
  - rewrite nth_error_rev in Hc. destruct (_ <? _)%nat; [|done]. replace (length buf - S (length buf - start - 1))%nat with start in Hc by lia.
    unfold begins_dark. by rewrite (skipn_from _ _ _ Hc).
Qed.

Lemma liveStart_none buf state : (0 < state)%nat -> liveStart buf state = None -> (length (compacted buf) < state)%nat.
Proof. intros P E. apply liveStart_rev_none in E; [|done]. by rewrite compacted_rev, length_rev in E. Qed.

(** A text of [state] dark bytes or more has the stretch. *)
Lemma dark_tail (T : bytes) state : (0 < state <= length (compacted T))%nat ->
  exists u w, T = u ++ w /\ begins_dark w /\ length (compacted w) = state.
Proof.
  intros [P L]. destruct (liveStart T state) as [start|] eqn:E.
  - apply liveStart_some in E as (A & B & C); [|done]. exists (firstn start T), (skipn start T). by rewrite firstn_skipn.
  - apply liveStart_none in E; [lia|done].
Qed.

(** ** What is held *)

Section Hold.
Context {F : Type} (no_field : F) (read_field : F -> bytes -> nat -> F) (field_seq : F -> option nat).

Lemma fold_min_le {A} (f : A -> nat) l : forall held, (fold_left (fun held m => Nat.min held (f m)) l held <= held)%nat.
Proof. induction l as [|x l IH]; intros held; simpl; [lia|]. specialize (IH (Nat.min held (f x))). lia. Qed.

Lemma fold_followed (followed : list (nat * option nat)) : forall held,
  let r := fold_left (fun held f => match snd f with Some i => Nat.min held i | None => held end) followed held in
  (r <= held)%nat /\ forall st i, In (st, Some i) followed -> (r <= i)%nat.
Proof.
  induction followed as [|[st o] followed IH]; intros held; simpl; [split; [lia|done]|].
  destruct (IH (match o with Some i => Nat.min held i | None => held end)) as [A B]. split; [destruct o; lia|].
  intros st' i [[= -> ->]|H]; [|by eapply B]. destruct (IH (Nat.min held i)) as [A' _]. lia.
Qed.

(** The last loop holds no line that is not too far, and never past the newest. *)
Lemma hold_within_spec pending size limit : forall fuel held, (held <= length pending)%nat ->
  let r := hold_within fuel pending size limit held in
  (r <= length pending)%nat /\ forall i, (held <= i < r)%nat -> exists l, nth_error pending i = Some l /\ (limit < size - sl_start l)%nat.
Proof.
  induction fuel as [|fuel IH]; intros held L; cbn zeta; [simpl; split; [lia|intros; lia]|]. cbn [hold_within].
  destruct (Nat.ltb_spec held (length pending - 1)); simpl; [|split; [lia|intros; lia]].
  destruct (nth_error pending held) as [l|] eqn:E; [|split; [lia|intros; lia]].
  destruct (Nat.ltb_spec limit (size - sl_start l)); [|split; [lia|intros; lia]].
  destruct (IH (S held) ltac:(lia)) as [A B]. split; [done|]. intros i Hi.
  destruct (Nat.eq_dec i held) as [->|N]; [by exists l|apply B; lia].
Qed.

(** A secret in progress holds from the line of its beginning on, unless that line
    reaches back too far. *)
Lemma holdFrom_spec buf pending firstSeq n recent h field line held recent' h' field' :
  holdFrom no_field read_field field_seq buf pending firstSeq n recent h field line = (held, recent', h', field') ->
  hd_snapshot h' = hd_snapshot h /\
  hd_kmp h' = map (fun p => fst (compact_hold buf pending (fst p) (snd p)))
                (combine (sn_compact (hold_secrets h)) (feed (sn_compact (hold_secrets h)) line (hd_kmp h))) /\
  (held <= length pending)%nat /\
  forall secret state st i, In (secret, state) (combine (sn_compact (hold_secrets h)) (feed (sn_compact (hold_secrets h)) line (hd_kmp h))) ->
    compact_hold buf pending secret state = (st, Some i) ->
    forall j, (i <= j < held)%nat -> exists l, nth_error pending j = Some l /\
      (sn_maxHeld (hold_secrets h) + streamHoldSlack < length buf - sl_start l)%nat.
Proof.
  unfold holdFrom. cbv zeta. set (sn := hold_secrets h). set (pairs := combine _ _).
  set (followed := map _ pairs). set (multiline := match sn_multiline sn with [] => false | _ => true end).
  set (held0 := if multiline then _ else length pending). set (held1 := fold_left _ followed held0).
  set (fl := read_field _ _ _). set (held2 := match field_seq fl with Some seq_ => Nat.min held1 (seq_ - firstSeq) | None => held1 end).
  set (limit := (sn_maxHeld sn + streamHoldSlack)%nat).
  set (dropped := match field_seq fl with Some _ => _ | None => false end).
  intros E. injection E as <- <- <- <-. cbn [hd_snapshot hd_kmp]. split; [done|]. split.
  { unfold followed. by rewrite map_map. }
  assert (held0 <= length pending)%nat as H0.
  { unfold held0. destruct multiline; [apply fold_min_le|done]. }
  destruct (fold_followed followed held0) as [H1 Hmin]. fold held1 in H1, Hmin.
  assert (held2 <= held1)%nat as H2 by (unfold held2; destruct (field_seq fl); lia).
  destruct (hold_within_spec pending (length buf) limit (length pending) held1 ltac:(lia)) as [A1 B1].
  destruct (hold_within_spec pending (length buf) limit (length pending) held2 ltac:(lia)) as [A2 B2].
  split; [by destruct dropped|].
  intros secret state st i Hin Hc j Hj.
  assert (held1 <= i)%nat as Hi.
  { apply (Hmin st). unfold followed. apply in_map_iff. exists (secret, state). simpl. done. }
  destruct dropped; [apply B1|apply B2]; lia.
Qed.
(** ** The buffer and the lines not yet shown *)

(** [lines] are the lines the stream took so far. *)
Record stream_wf (lines : list bytes) (s : lineStreamRedactor (F := F)) : Prop := {
  sw_seq : st_seq s = length lines;
  sw_first : (st_firstSeq s + length (st_pending s))%nat = length lines;
  sw_lines : map sl_text (st_pending s) = skipn (st_firstSeq s) lines;
  sw_cut : exists cut, text_of lines = cut ++ st_buf s;
  sw_start : forall j l, nth_error (st_pending s) j = Some l ->
    (sl_start l + length (text_of (skipn (st_firstSeq s + j) lines)))%nat = S (length (st_buf s))
}.

Lemma new_wf : stream_wf [] (newLineStreamRedactor no_field).
Proof. constructor; try done; [by exists []|]. intros [|j] l E; done. Qed.

Lemma lookback_rev_le r : forall budget blanks, (lookback_rev r budget blanks <= length r)%nat.
Proof.
  induction r as [|c r IH]; intros budget blanks; [done|]. cbn [lookback_rev length].
  destruct (isBlank c); [destruct (_ <? _)%Z|destruct (_ =? _)%nat]; [lia|..|lia|]; match goal with |- (lookback_rev r ?b ?z <= _)%nat => specialize (IH b z); lia end.
Qed.

Lemma lookbackStart_le shown keep : (lookbackStart shown keep <= length shown)%nat.
Proof. unfold lookbackStart. case_if; [lia|]. pose proof (lookback_rev_le (rev shown) keep 0). by rewrite length_rev in *. Qed.

Lemma text_of_later i j (lines : list bytes) : (length (text_of (skipn (i + j) lines)) <= length (text_of (skipn i lines)))%nat.
Proof.
  rewrite (Nat.add_comm i j), <- List.skipn_skipn. pose proof (text_of_length_split j (skipn i lines)). lia.
Qed.

Lemma drop_wf lines s n from last : stream_wf lines s -> (0 < n)%nat -> nth_error (st_pending s) (n - 1) = Some last ->
  (from <= sl_start last + length (sl_text last))%nat -> stream_wf lines (drop n from s).
Proof.
  intros [S1 S2 S3 [cut S4] S5] P E L. unfold drop. rewrite E.
  assert (n - 1 < length (st_pending s))%nat as Ln by (apply nth_error_Some; by rewrite E).
  assert (sl_start last + S (length (sl_text last)) + length (text_of (skipn (st_firstSeq s + n) lines)) = S (length (st_buf s)))%nat as Hn.
  { specialize (S5 _ _ E). assert (nth_error lines (st_firstSeq s + (n - 1)) = Some (sl_text last)) as El.
    { apply (map_nth_error sl_text) in E. rewrite S3, nth_error_skipn in E. exact E. }
    rewrite (skipn_from _ _ _ El) in S5. change (text_of (?a :: ?b)) with ((newline :: a) ++ text_of b) in S5.
    rewrite length_app in S5. cbn [length] in S5. replace (S (st_firstSeq s + (n - 1))) with (st_firstSeq s + n)%nat in S5 by lia. lia. }
  constructor; cbn [st_seq st_firstSeq st_pending st_buf]; [done|rewrite length_map, length_skipn; lia| | |].
  - rewrite map_map. change (map (fun x => sl_text _)) with (map sl_text). rewrite <- skipn_map, S3, List.skipn_skipn. f_equal. lia.
  - exists (cut ++ firstn from (st_buf s)). by rewrite <- app_assoc, firstn_skipn.
  - intros j l Hj. rewrite nth_error_map in Hj. destruct (nth_error _ j) as [x|] eqn:Hx in Hj; [|done]. injection Hj as <-. cbn [sl_start]. rewrite nth_error_skipn in Hx.
    specialize (S5 _ _ Hx). rewrite length_skipn. pose proof (text_of_later (st_firstSeq s + n) j lines).
    replace (st_firstSeq s + (n + j))%nat with (st_firstSeq s + n + j)%nat in S5 by lia. lia.
Qed.

Lemma release_wf lines s n : stream_wf lines s -> (n <= length (st_pending s))%nat ->
  stream_wf lines (release n s) /\ st_hold (release n s) = st_hold s /\ st_firstSeq (release n s) = (st_firstSeq s + n)%nat.
Proof.
  intros W L. unfold release. destruct (Nat.eqb_spec n 0) as [->|N]; [by rewrite Nat.add_0_r|].
  destruct (nth_error (st_pending s) (n - 1)) as [last|] eqn:E; [|apply nth_error_None in E; lia].
  assert (forall from, st_hold (drop n from s) = st_hold s /\ st_firstSeq (drop n from s) = (st_firstSeq s + n)%nat) as K
    by (intros from; unfold drop; by rewrite E).
  destruct (forallb _ _); (split; [|apply K]); apply (drop_wf _ _ _ _ last); try done; try lia.
  - unfold blankLookbackStart, maxLookbackBlanks. lia.
  - pose proof (lookbackStart_le (firstn (sl_start last + length (sl_text last)) (st_buf s)) (keep_bytes (st_hold s))) as K1.
    rewrite length_firstn in K1. lia.
Qed.

(** What a push does before it releases lines. *)
Definition taken (line : bytes) (recent : list bytes) (h : streamHold) (field : F) (s : lineStreamRedactor (F := F)) : lineStreamRedactor :=
  mkStream ((st_buf s ++ [newline]) ++ line) (st_base s) (st_pending s ++ [mkLine line (length (st_buf s ++ [newline]))])
    (S (st_seq s)) (st_firstSeq s) recent h field.

Lemma taken_wf lines line recent h field s : stream_wf lines s -> stream_wf (lines ++ [line]) (taken line recent h field s).
Proof.
  intros [S1 S2 S3 [cut S4] S5].
  constructor; cbn [taken st_seq st_firstSeq st_pending st_buf]; rewrite ?length_app; cbn [length]; [lia|lia| | |].
  - rewrite map_app, S3, skipn_app. cbn [map sl_text]. f_equal. by replace (st_firstSeq s - length lines)%nat with 0%nat by lia.
  - exists cut. rewrite text_of_app, S4. unfold text_of. simpl. by rewrite app_nil_r, <- !app_assoc.
  - intros j l E. rewrite skipn_app, text_of_app, !length_app.
    destruct (Nat.lt_ge_cases j (length (st_pending s))) as [Lt|Ge].
    + rewrite nth_error_app1 in E by done. specialize (S5 _ _ E).
      replace (st_firstSeq s + j - length lines)%nat with 0%nat by lia. unfold text_of at 2. simpl. rewrite app_nil_r. lia.
    + rewrite nth_error_app2 in E by done. destruct (j - length (st_pending s))%nat as [|d] eqn:D; [|by destruct d].
      injection E as <-. cbn [sl_start]. replace (st_firstSeq s + j - length lines)%nat with 0%nat by lia.
      rewrite skipn_all2 by lia. unfold text_of. simpl. rewrite app_nil_r. lia.
Qed.
Notation run_ := (run_stream no_field read_field field_seq).

Lemma push_taken registry line s : exists held recent h field,
  holdFrom no_field read_field field_seq ((st_buf s ++ [newline]) ++ line) (st_pending s ++ [mkLine line (length (st_buf s ++ [newline]))])
    (st_firstSeq s) (st_seq s) (st_recent s) (sync registry (st_hold s)) (st_field s) line = (held, recent, h, field) /\
  push no_field read_field field_seq registry line s = release held (taken line recent h field s).
Proof. unfold push. destruct (holdFrom _ _ _ _ _ _ _ _ _ _ _) as [[[held recent] h] field] eqn:E. by exists held, recent, h, field. Qed.

Lemma stream_step_wf lines s o : stream_wf lines s ->
  stream_wf (lines ++ pushed_line o) (stream_step no_field read_field field_seq s o).
Proof.
  intros W. destruct o as [registry line|registry]; simpl.
  - destruct (push_taken registry line s) as (held & recent & h & field & E & ->).
    apply holdFrom_spec in E as (_ & _ & L & _). apply release_wf; [by apply taken_wf|done].
  - rewrite app_nil_r. unfold flush. destruct (st_pending s) as [|p ps] eqn:P; [done|]. rewrite <- P.
    apply release_wf; [|done]. destruct W as [S1 S2 S3 S4 S5]. by constructor.
Qed.

Lemma run_app ops1 ops2 : run_ (ops1 ++ ops2) = fold_left (stream_step no_field read_field field_seq) ops2 (run_ ops1).
Proof. apply fold_left_app. Qed.

Lemma run_wf ops : stream_wf (lines_of ops) (run_ ops).
Proof.
  induction ops as [|o ops IH] using rev_ind; [apply new_wf|]. rewrite run_app, lines_of_app. simpl.
  rewrite app_nil_r. by apply stream_step_wf.
Qed.
End Hold.

(** ** What the automata mean *)

(** The dark bytes a stretch at the end of the text holds are the beginning found. *)
Lemma tail_is_beginning p T1 T2 u w st : ends_with p (compacted T2) st -> T1 ++ T2 = u ++ w -> length (compacted w) = st ->
  compacted w = firstn st p.
Proof.
  intros [L [x E]] Eq C. apply (f_equal compacted) in Eq. rewrite !compacted_app, E, app_assoc in Eq.
  apply app_inj_2 in Eq as [_ Eq]; [done|]. rewrite C, length_firstn. lia.
Qed.

(** A beginning that the buffer does not reach, or that takes more than [limit]. *)
Lemma room_lost p T1 T2 cut buf st limit : (0 < st)%nat -> ends_with p (compacted T2) st -> T1 ++ T2 = cut ++ buf ->
  match liveStart buf st with Some start => (limit < length buf - start)%nat | None => True end ->
  exists u w, T1 ++ T2 = u ++ w /\ begins_dark w /\ compacted w = firstn st p /\ ((limit < length w)%nat \/ (length buf < length w)%nat).
Proof.
  intros P E Eq H. destruct (liveStart buf st) as [start|] eqn:Ls.
  - apply liveStart_some in Ls as (A & B & C); [|done]. exists (cut ++ firstn start buf), (skipn start buf).
    assert (T1 ++ T2 = (cut ++ firstn start buf) ++ skipn start buf) as Eq' by (by rewrite <- app_assoc, firstn_skipn).
    split; [done|]. split; [done|]. split; [by eapply tail_is_beginning|]. left. by rewrite length_skipn.
  - apply liveStart_none in Ls; [|done]. destruct (dark_tail (T1 ++ T2) st) as (u & w & Ew & Dw & Cw).
    { split; [done|]. destruct E as [L [x Ex]]. rewrite compacted_app, Ex, !length_app, length_firstn. lia. }
    exists u, w. split; [done|]. split; [done|]. split; [by eapply tail_is_beginning|]. right.
    destruct (Nat.lt_ge_cases (length buf) (length w)) as [|G]; [done|]. exfalso.
    rewrite Eq in Ew. assert (exists z, buf = z ++ w) as [z ->].
    { exists (skipn (length cut) u). apply (f_equal (skipn (length cut))) in Ew as Es. rewrite skipn_app, skipn_all, Nat.sub_diag in Es. simpl in Es.
      rewrite skipn_app in Es. apply (f_equal (@length ascii)) in Ew. rewrite !length_app in Ew.
      replace (length cut - length u)%nat with 0%nat in Es by lia. done. }
    rewrite compacted_app, length_app in Ls. lia.
Qed.

Lemma longest_start p : p <> [] -> longest p [] (length p) 0.
Proof.
  intros N. split_and!; [destruct p; [done|simpl; lia]|apply ends_with_0|]. intros k' _ [L [u E]].
  destruct k' as [|k']; [lia|]. destruct p; [done|]. by destruct u.
Qed.

Lemma feed_nth secrets line kmp k i p t state : nth_error secrets k = Some (newCompactSecret i p) -> nth_error kmp k = Some state ->
  longest p t (length p) state ->
  exists state', nth_error (combine secrets (feed secrets line kmp)) k = Some (newCompactSecret i p, state') /\
    longest p (t ++ compacted line) (length p) state'.
Proof.
  intros S K L. exists (feed_line (newCompactSecret i p) state line). split; [|by apply feed_line_spec].
  unfold feed. clear L. revert secrets kmp S K. induction k as [|k IH]; intros [|x secrets] [|y kmp] S K; simpl in *; simplify_eq; [done|]. by apply IH.
Qed.

(** Every secret of a snapshot is a compact form with its failure function, and the hold
    is as long as its limit. *)
Definition secrets_wf (sn : secretSnapshot) : Prop :=
  forall c, In c (sn_compact sn) -> (cs_limit c <= sn_maxHeld sn)%nat /\ exists i p, c = newCompactSecret i p /\ p <> [].

Lemma snapshot_form_held sn f : (sn_maxHeld sn <= sn_maxHeld (snapshot_form sn f))%nat.
Proof. unfold snapshot_form. case_if; simpl; lia. Qed.

Lemma snapshot_forms_held forms : forall sn, (sn_maxHeld sn <= sn_maxHeld (fold_left snapshot_form forms sn))%nat.
Proof.
  induction forms as [|f forms IH]; intros sn; [done|]. simpl. pose proof (snapshot_form_held sn f). specialize (IH (snapshot_form sn f)). lia.
Qed.

Lemma snapshot_secret_wf sn e : secrets_wf sn -> secrets_wf (snapshot_secret sn e).
Proof.
  intros W. destruct e as [i [v rule]]. unfold snapshot_secret.
  match goal with |- secrets_wf (fold_left _ _ ?s) => assert (secrets_wf s) as W1 end.
  { destruct (sr_compact rule) as [|x l] eqn:E; [done|]. intros c Hc. cbn [sn_compact sn_maxHeld] in *.
    apply in_app_or in Hc as [Hc|[<-|[]]]; [destruct (W c Hc) as [? ?]; split; [lia|done]|].
    split; [lia|]. by exists i, (x :: l). }
  intros c Hc. rewrite (proj2 (snapshot_forms_keep _ _)) in Hc. destruct (W1 c Hc) as [A B]. split; [|done].
  etransitivity; [exact A|]. apply snapshot_forms_held.
Qed.

Lemma newSecretSnapshot_wf values : secrets_wf (newSecretSnapshot values).
Proof.
  unfold newSecretSnapshot. set (init := mkSnapshot _ _ _ _ _). assert (secrets_wf init) as W by done. clearbody init.
  revert init W. induction (combine _ _) as [|e l IH]; intros init W; [done|]. simpl. by apply IH, snapshot_secret_wf.
Qed.

Section Follow.
Context {F : Type} (no_field : F) (read_field : F -> bytes -> nat -> F) (field_seq : F -> option nat).
Notation run_ := (run_stream no_field read_field field_seq).

(** The stream lost the secret's beginning [w] after the operations: its whole layout, from
    its first byte to the end of the newest line, took more than any layout may, or more
    than the text that was kept. *)
Definition out_of_room (c : compactSecret) (ops : list stream_op) : Prop :=
  exists before registry line st u w, ops = before ++ [StreamLine registry line] /\
    stream_text ops = u ++ w /\ begins_dark w /\ compacted w = firstn st (cs_text c) /\ (cs_lead c < st)%nat /\
    ((cs_limit c < length w)%nat \/ (length (st_buf (run_ before)) + S (length line) < length w)%nat).

Definition registry_of (ops : list stream_op) : option nat := option_map fst (hd_snapshot (st_hold (run_ ops))).

(** What the automaton of the [k]-th secret follows: the lines since the registry changed,
    or since a beginning took too much room. *)
Definition tracked (ops : list stream_op) (n k : nat) (c : compactSecret) : Prop :=
  exists ops1 ops2 state, ops = ops1 ++ ops2 /\ nth_error (hd_kmp (st_hold (run_ ops))) k = Some state /\
    longest (cs_text c) (compacted (stream_text ops2)) (length (cs_text c)) state /\
    (forall registry line, In (StreamLine registry line) ops2 -> fst registry = n) /\
    (registry_of ops1 <> Some n \/ out_of_room c ops1).

Definition follows_all (ops : list stream_op) : Prop :=
  forall n sn, hd_snapshot (st_hold (run_ ops)) = Some (n, sn) -> secrets_wf sn /\
    forall k c, nth_error (sn_compact sn) k = Some c -> tracked ops n k c.

(** The newest line, fed behind the lines [ops2] that are still followed. *)
Definition fed (ops : list stream_op) (registry : nat * secretSnapshot) (line : bytes) (k : nat) (c : compactSecret) (h : streamHold) : Prop :=
  exists ops1 ops2 state, ops = ops1 ++ ops2 /\
    nth_error (combine (sn_compact (hold_secrets h)) (feed (sn_compact (hold_secrets h)) line (hd_kmp h))) k = Some (c, state) /\
    longest (cs_text c) (compacted (stream_text (ops2 ++ [StreamLine registry line]))) (length (cs_text c)) state /\
    (forall r l, In (StreamLine r l) ops2 -> fst r = fst registry) /\
    (registry_of ops1 <> Some (fst registry) \/ out_of_room c ops1).

Lemma compacted_line ops registry line : compacted (stream_text (ops ++ [StreamLine registry line])) = compacted (stream_text ops) ++ compacted line.
Proof. rewrite stream_text_app, compacted_app. unfold stream_text, text_of. simpl. by rewrite app_nil_r. Qed.

Lemma sync_same registry h n sn : hd_snapshot h = Some (n, sn) -> n = fst registry -> sync registry h = h.
Proof. intros E ->. unfold sync. by rewrite E, Nat.eqb_refl. Qed.

Lemma sync_new registry h : option_map fst (hd_snapshot h) <> Some (fst registry) ->
  sync registry h = mkHold (Some registry) [] (repeat 0%nat (length (sn_compact (snd registry)))).
Proof.
  unfold sync. destruct (hd_snapshot h) as [[n sn]|]; simpl; [|done]. intros N.
  destruct (Nat.eqb_spec n (fst registry)) as [->|]; done.
Qed.

Lemma sync_number registry h : option_map fst (hd_snapshot (sync registry h)) = Some (fst registry).
Proof.
  unfold sync. destruct (hd_snapshot h) as [[n sn]|] eqn:E; [|done].
  destruct (Nat.eqb_spec n (fst registry)) as [->|]; [by rewrite E|done].
Qed.

(** The two cases of [sync] before a line is fed. *)
Lemma line_fed ops registry line : follows_all ops -> secrets_wf (snd registry) ->
  let h := sync registry (st_hold (run_ ops)) in
  secrets_wf (hold_secrets h) /\ forall k c, nth_error (sn_compact (hold_secrets h)) k = Some c -> fed ops registry line k c h.
Proof.
  intros Fo W. cbv zeta. destruct (decide (option_map fst (hd_snapshot (st_hold (run_ ops))) = Some (fst registry))) as [E|N].
  - destruct (hd_snapshot (st_hold (run_ ops))) as [[n sn]|] eqn:Eh; [|done]. injection E as E.
    rewrite (sync_same _ _ n sn Eh E). destruct (Fo n sn Eh) as [Ws T]. unfold hold_secrets. rewrite Eh. split; [done|].
    intros k c K. destruct (T k c K) as (ops1 & ops2 & state & -> & Kk & L & Hl & R).
    destruct (Ws c (nth_error_In _ _ K)) as (_ & i & p & -> & Np).
    destruct (feed_nth _ line _ k i p _ state K Kk L) as (st & K' & L').
    exists ops1, ops2, st. split; [done|]. split; [unfold hold_secrets; by rewrite Eh|]. rewrite compacted_line. subst n. done.
  - rewrite (sync_new _ _ N). unfold hold_secrets. cbn [hd_snapshot]. destruct registry as [n sn]. cbn [fst snd] in *. split; [done|].
    intros k c K. destruct (W c (nth_error_In _ _ K)) as (_ & i & p & -> & Np).
    assert (nth_error (repeat 0%nat (length (sn_compact sn))) k = Some 0%nat) as Kk.
    { apply nth_error_repeat, nth_error_Some. by rewrite K. }
    destruct (feed_nth _ line _ k i p [] 0 K Kk (longest_start p Np)) as (st & K' & L').
    exists ops, [], st. split; [by rewrite app_nil_r|]. split; [done|]. rewrite compacted_line. split; [done|]. split; [done|]. by left.
Qed.
(** What a push leaves of one automaton. *)
Lemma pushed_line_state ops registry line k c : follows_all ops -> secrets_wf (snd registry) ->
  let s' := run_ (ops ++ [StreamLine registry line]) in
  nth_error (sn_compact (hold_secrets (st_hold s'))) k = Some c ->
  exists state, nth_error (hd_kmp (st_hold s')) k = Some state /\
    exists ops1 ops2 found_, ops = ops1 ++ ops2 /\
      longest (cs_text c) (compacted (stream_text (ops2 ++ [StreamLine registry line]))) (length (cs_text c)) found_ /\
      (forall r l, In (StreamLine r l) ops2 -> fst r = fst registry) /\
      (registry_of ops1 <> Some (fst registry) \/ out_of_room c ops1) /\
      state = fst (compact_hold ((st_buf (run_ ops) ++ [newline]) ++ line)
                     (st_pending (run_ ops) ++ [mkLine line (length (st_buf (run_ ops) ++ [newline]))]) c found_).
Proof.
  intros Fo W s' K. destruct (line_fed ops registry line Fo W) as [Wh Fd].
  unfold s' in *. rewrite run_app in *. cbn [fold_left stream_step] in *.
  destruct (push_taken no_field read_field field_seq registry line (run_ ops)) as (held & recent & h & field & E & Ep).
  rewrite Ep in *. apply holdFrom_spec in E as (Es & Ek & L & _).
  destruct (release_wf (lines_of ops ++ [line]) (taken line recent h field (run_ ops)) held) as (_ & Eh & _); [by apply taken_wf, run_wf|done|].
  rewrite Eh in *. cbn [taken st_hold] in *. assert (hold_secrets h = hold_secrets (sync registry (st_hold (run_ ops)))) as Esn
    by (unfold hold_secrets; by rewrite Es).
  rewrite Esn in K. specialize (Fd k c K). pose proof Fd as (ops1 & ops2 & found_ & E & Kc & Lo & Hl & R).
  exists (fst (compact_hold ((st_buf (run_ ops) ++ [newline]) ++ line)
                     (st_pending (run_ ops) ++ [mkLine line (length (st_buf (run_ ops) ++ [newline]))]) c found_)).
  split; [|by exists ops1, ops2, found_].
  rewrite Ek, nth_error_map, Kc. done.
Qed.
Lemma run_hold_line ops registry line : exists held recent h field,
  holdFrom no_field read_field field_seq ((st_buf (run_ ops) ++ [newline]) ++ line)
    (st_pending (run_ ops) ++ [mkLine line (length (st_buf (run_ ops) ++ [newline]))])
    (st_firstSeq (run_ ops)) (st_seq (run_ ops)) (st_recent (run_ ops)) (sync registry (st_hold (run_ ops))) (st_field (run_ ops)) line
  = (held, recent, h, field) /\
  st_hold (run_ (ops ++ [StreamLine registry line])) = h /\
  st_firstSeq (run_ (ops ++ [StreamLine registry line])) = (st_firstSeq (run_ ops) + held)%nat.
Proof.
  destruct (push_taken no_field read_field field_seq registry line (run_ ops)) as (held & recent & h & field & E & Ep).
  exists held, recent, h, field. split; [done|]. rewrite run_app. cbn [fold_left stream_step]. rewrite Ep.
  apply holdFrom_spec in E as (_ & _ & L & _).
  by destruct (release_wf (lines_of ops ++ [line]) (taken line recent h field (run_ ops)) held) as (_ & -> & ->); [apply taken_wf, run_wf|..].
Qed.

(** The buffer after a line came, before anything is released. *)
Lemma line_cut ops registry line : exists cut,
  stream_text (ops ++ [StreamLine registry line]) = cut ++ (st_buf (run_ ops) ++ [newline]) ++ line.
Proof.
  destruct (run_wf no_field read_field field_seq ops) as [_ _ _ [cut E] _]. exists cut. rewrite stream_text_app. unfold stream_text at 1.
  rewrite E. unfold stream_text, text_of. simpl. by rewrite app_nil_r, <- !app_assoc.
Qed.

Lemma line_tracked ops registry line k c : follows_all ops -> secrets_wf (snd registry) ->
  nth_error (sn_compact (hold_secrets (st_hold (run_ (ops ++ [StreamLine registry line]))))) k = Some c ->
  tracked (ops ++ [StreamLine registry line]) (fst registry) k c.
Proof.
  intros Fo W K. destruct (line_fed ops registry line Fo W) as [Wh _].
  destruct (pushed_line_state ops registry line k c Fo W K) as (state & Hs & ops1 & ops2 & fnd & E & L & Hl & R & Est).
  assert (tracked (ops ++ [StreamLine registry line]) (fst registry) k c \/ state = 0%nat /\ out_of_room c (ops ++ [StreamLine registry line])) as [T|[-> O]]; [|done|].
  { unfold compact_hold in Est. destruct (Nat.leb_spec fnd (cs_lead c)); simpl in Est.
    2: destruct (liveStart _ fnd) as [start|] eqn:Ls; [destruct (Nat.ltb_spec (cs_limit c) (length ((st_buf (run_ ops) ++ [newline]) ++ line) - start)); simpl in Est|].
    1, 3: left; subst state; exists ops1, (ops2 ++ [StreamLine registry line]), fnd;
      (split; [by rewrite E, app_assoc|]); (split; [done|]); (split; [done|]); (split; [|done]);
      intros r l [Hr|[Hr|[]]]%in_app_or; [by eapply Hl|by injection Hr as <- <-].
    all: right; split; [done|]; destruct (line_cut ops registry line) as [cut Cut].
    all: assert (stream_text ops1 ++ stream_text (ops2 ++ [StreamLine registry line]) = cut ++ (st_buf (run_ ops) ++ [newline]) ++ line) as Cut'
      by (rewrite <- stream_text_app, app_assoc, <- E; exact Cut).
    all: destruct L as (_ & Le & _).
    all: destruct (room_lost (cs_text c) (stream_text ops1) (stream_text (ops2 ++ [StreamLine registry line])) cut
           ((st_buf (run_ ops) ++ [newline]) ++ line) fnd (cs_limit c)) as (u & w & Ew & Dw & Cw & Rw); [lia|done|done|by rewrite Ls|].
    all: exists ops, registry, line, fnd, u, w; (split; [done|]); (split; [by rewrite Cut, <- Cut', Ew|]);
      (split; [done|]); (split; [done|]); (split; [done|]); rewrite !length_app in Rw; simpl in Rw; lia. }
  assert (secrets_wf (hold_secrets (st_hold (run_ (ops ++ [StreamLine registry line]))))) as W'.
  { destruct (run_hold_line ops registry line) as (held & recent & h & field & Eh & -> & _). apply holdFrom_spec in Eh as (Es & _).
    unfold hold_secrets in *. by rewrite Es. }
  destruct (W' c (nth_error_In _ _ K)) as (_ & i & p & -> & Np).
  exists (ops ++ [StreamLine registry line]), [], 0%nat. split; [by rewrite app_nil_r|]. split; [done|]. split; [by apply longest_start|].
  split; [done|]. by right.
Qed.
Lemma end_tracked ops registry n sn k c : follows_all ops -> secrets_wf (snd registry) ->
  hd_snapshot (st_hold (run_ (ops ++ [StreamEnd registry]))) = Some (n, sn) ->
  secrets_wf sn /\ (nth_error (sn_compact sn) k = Some c -> tracked (ops ++ [StreamEnd registry]) n k c).
Proof.
  intros Fo W. rewrite run_app. cbn [fold_left stream_step].
  assert (st_hold (flush registry (run_ ops)) = st_hold (run_ ops) \/ st_hold (flush registry (run_ ops)) = sync registry (st_hold (run_ ops))) as H.
  { unfold flush. destruct (st_pending (run_ ops)) as [|p ps] eqn:P; [by left|right]. rewrite <- P.
    destruct (run_wf no_field read_field field_seq ops) as [S1 S2 S3 S4 S5].
    destruct (release_wf (lines_of ops) (mkStream (st_buf (run_ ops)) (st_base (run_ ops)) (st_pending (run_ ops)) (st_seq (run_ ops))
      (st_firstSeq (run_ ops)) (st_recent (run_ ops)) (sync registry (st_hold (run_ ops))) (st_field (run_ ops))) (length (st_pending (run_ ops))))
      as (_ & -> & _); [by constructor|done|done]. }
  assert (st_hold (run_ (ops ++ [StreamEnd registry])) = st_hold (flush registry (run_ ops))) as Er by (rewrite run_app; done).
  assert (st_hold (flush registry (run_ ops)) = st_hold (run_ ops) -> hd_snapshot (st_hold (flush registry (run_ ops))) = Some (n, sn) ->
    secrets_wf sn /\ (nth_error (sn_compact sn) k = Some c -> tracked (ops ++ [StreamEnd registry]) n k c)) as Same.
  { intros Eh Ehs. rewrite Eh in Ehs. destruct (Fo n sn Ehs) as [Ws T]. split; [done|]. intros K.
    destruct (T k c K) as (ops1 & ops2 & state & E & Kk & L & Hl & R). exists ops1, (ops2 ++ [StreamEnd registry]), state.
    split; [by rewrite E, app_assoc|]. split; [by rewrite Er, Eh|]. split.
    - rewrite stream_text_app, compacted_app. unfold stream_text at 2, text_of. simpl. by rewrite app_nil_r.
    - split; [|done]. intros r l [Hr|[Hr|[]]]%in_app_or; [by eapply Hl|done]. }
  destruct H as [Eh|Eh]; [by apply Same|].
  destruct (decide (option_map fst (hd_snapshot (st_hold (run_ ops))) = Some (fst registry))) as [E|N].
  - apply Same. rewrite Eh. destruct (hd_snapshot (st_hold (run_ ops))) as [[n' sn']|] eqn:Es; [|done]. injection E as E.
    by apply (sync_same registry _ n' sn').
  - rewrite Eh, (sync_new _ _ N). cbn [hd_snapshot]. intros [= ->]. split; [done|]. intros K.
    destruct (W c (nth_error_In _ _ K)) as (_ & i & p & -> & Np). exists ops, [StreamEnd (n, sn)], 0%nat. split; [done|].
    split; [|split; [by apply longest_start|split; [intros r l [Hr|[]]; done|by left]]].
    rewrite Er, Eh, (sync_new _ _ N). cbn [hd_kmp snd]. apply nth_error_repeat, nth_error_Some. by rewrite K.
Qed.

Lemma run_follows ops : (forall o, In o ops -> secrets_wf (snd (op_registry o))) -> follows_all ops.
Proof.
  induction ops as [|o ops IH] using rev_ind; intros W; [by intros n sn E|].
  assert (follows_all ops) as Fo by (apply IH; intros x Hx; apply W, in_or_app; by left).
  assert (secrets_wf (snd (op_registry o))) as Wo by (apply W, in_or_app; right; by left).
  intros n sn E. destruct o as [registry line|registry].
  - destruct (line_fed ops registry line Fo Wo) as [Wh _].
    destruct (run_hold_line ops registry line) as (held & recent & h & field & Eh & Er & _).
    pose proof Eh as (Es & _)%holdFrom_spec. rewrite Er in E. pose proof (sync_number registry (st_hold (run_ ops))) as Nn.
    rewrite <- Es, E in Nn. injection Nn as ->. assert (hold_secrets (sync registry (st_hold (run_ ops))) = sn) as Eq
      by (unfold hold_secrets; by rewrite <- Es, E).
    rewrite Eq in Wh. split; [done|]. intros k c K. apply line_tracked; [done..|]. rewrite Er. unfold hold_secrets. by rewrite E.
  - split; [by apply (end_tracked ops registry n sn 0 (newCompactSecret 0 []))|]. intros k c K. by apply (end_tracked ops registry n sn k c).
Qed.
End Follow.

(** ** Which lines a secret in progress holds *)

Section Held.
Context {F : Type} (no_field : F) (read_field : F -> bytes -> nat -> F) (field_seq : F -> option nat).
Notation run_ := (run_stream no_field read_field field_seq).

(** Where a pending line lies in the whole text. *)
Lemma pending_at (lines : list bytes) (s : lineStreamRedactor (F := F)) cut a l : stream_wf lines s -> text_of lines = cut ++ st_buf s ->
  nth_error (st_pending s) a = Some l ->
  S (length (text_of (firstn (st_firstSeq s + a) lines))) = (length cut + sl_start l)%nat.
Proof.
  intros W Cut E. pose proof (sw_start _ _ W _ _ E) as St. pose proof (text_of_length_split (st_firstSeq s + a) lines) as Sp.
  rewrite Cut, length_app in Sp. lia.
Qed.

Lemma starts_increase (lines : list bytes) (s : lineStreamRedactor (F := F)) a b la lb : stream_wf lines s ->
  nth_error (st_pending s) a = Some la -> nth_error (st_pending s) b = Some lb -> (a <= b)%nat -> (sl_start la <= sl_start lb)%nat.
Proof.
  intros W Ea Eb L. pose proof (sw_start _ _ W _ _ Ea) as Sa. pose proof (sw_start _ _ W _ _ Eb) as Sb.
  pose proof (text_of_later (st_firstSeq s + a) (b - a) lines) as T. replace (st_firstSeq s + a + (b - a))%nat with (st_firstSeq s + b)%nat in T by lia. lia.
Qed.

Lemma lineAt_spec (lines : list bytes) (s : lineStreamRedactor (F := F)) offset : stream_wf lines s ->
  let i := lineAt (st_pending s) offset in
  ((forall l, nth_error (st_pending s) i = Some l -> (sl_start l <= offset)%nat) \/
   i = 0%nat /\ forall l, nth_error (st_pending s) 0 = Some l -> (offset < sl_start l)%nat) /\
  (forall l, nth_error (st_pending s) (S i) = Some l -> (offset < sl_start l)%nat) /\ (i <= length (st_pending s) - 1)%nat.
Proof.
  intros W. cbv zeta. unfold lineAt, sort_Search.
  set (f := fun i => match nth_error (st_pending s) i with Some l => (offset <? sl_start l)%nat | None => false end).
  destruct (search_loop_spec f (length (st_pending s)) 0 (length (st_pending s))) as (A & B & C); [lia..| |].
  - intros a b L. unfold f. destruct (nth_error (st_pending s) a) as [x|] eqn:Ea; [|done].
    destruct (nth_error (st_pending s) b) as [y|] eqn:Eb; [|apply nth_error_None in Eb; lia].
    rewrite !Nat.ltb_lt. pose proof (starts_increase lines s a b x y W Ea Eb). lia.
  - set (k := search_loop _ f 0 _) in *.
    assert (forall i l, (k <= i)%nat -> nth_error (st_pending s) i = Some l -> (offset < sl_start l)%nat) as Up.
    { intros i l Hi El. assert (i < length (st_pending s))%nat as Li by (apply nth_error_Some; by rewrite El).
      specialize (C ltac:(lia)). unfold f in C. destruct (nth_error (st_pending s) k) as [x|] eqn:Ek; [|done].
      apply Nat.ltb_lt in C. pose proof (starts_increase lines s k i x l W Ek El Hi). lia. }
    split; [|split; [intros l; apply Up|]; lia]. destruct (Nat.eq_dec k 0) as [K0|Kp].
    + right. split; [lia|]. intros l. apply Up. lia.
    + left. intros l El. specialize (B (k - 1)%nat ltac:(lia)). unfold f in B. rewrite El in B. by apply Nat.ltb_ge in B.
Qed.

(** Every line shown ends before [w] begins, or [w] begins in a line that, with all behind
    it, takes more than the stream may hold. *)
Definition held_from (sn : secretSnapshot) (lines : list bytes) (from upto : nat) (u : bytes) : Prop :=
  (forall i, (from <= i < upto)%nat -> (length (text_of (firstn (S i) lines)) <= length u)%nat) \/
  exists j, (length (text_of (firstn j lines)) <= length u <= length (text_of (firstn (S j) lines)))%nat /\
    (sn_maxHeld sn + streamHoldSlack < length (text_of (skipn j lines)) - 1)%nat.

Lemma held_lines (lines : list bytes) (s : lineStreamRedactor (F := F)) sn cut start held c : stream_wf lines s ->
  text_of lines = cut ++ st_buf s -> (start < length (st_buf s))%nat -> (length (st_buf s) - start <= cs_limit c)%nat ->
  (cs_limit c <= sn_maxHeld sn)%nat -> (held <= length (st_pending s))%nat ->
  (forall j, (lineAt (st_pending s) start <= j < held)%nat -> exists l, nth_error (st_pending s) j = Some l /\
      (sn_maxHeld sn + streamHoldSlack < length (st_buf s) - sl_start l)%nat) ->
  held_from sn lines (st_firstSeq s) (st_firstSeq s + held) (cut ++ firstn start (st_buf s)).
Proof.
  intros W Cut Ls Lr Lm Lh Far. set (i0 := lineAt (st_pending s) start) in *.
  destruct (lineAt_spec lines s start W) as (Lo & Up & Lb). fold i0 in Lo, Up, Lb.
  assert (length (cut ++ firstn start (st_buf s)) = length cut + start)%nat as Lu by (rewrite length_app, length_firstn; lia).
  destruct (Nat.lt_ge_cases i0 held) as [Lt|Ge].
  - right. destruct (Far i0 ltac:(lia)) as (l & El & Fl). pose proof (pending_at lines s cut i0 l W Cut El) as P.
    destruct Lo as [Lo|[Z Lo]].
    2: { exfalso. rewrite Z in El. specialize (Lo l El). unfold streamHoldSlack in Fl. lia. }
    specialize (Lo l El). exists (st_firstSeq s + i0)%nat. rewrite Lu. split; [split; [lia|]|].
    + destruct (nth_error (st_pending s) (S i0)) as [l'|] eqn:El'.
      * pose proof (pending_at lines s cut (S i0) l' W Cut El') as P'. specialize (Up l' eq_refl).
        replace (S (st_firstSeq s + i0)) with (st_firstSeq s + S i0)%nat by lia. lia.
      * apply nth_error_None in El'. pose proof (sw_first _ _ W). rewrite firstn_all2 by lia. rewrite Cut, length_app. lia.
    + pose proof (sw_start _ _ W _ _ El). lia.
  - left. intros i Hi. rewrite Lu.
    assert (S i - st_firstSeq s <= i0)%nat as Hi0 by lia. assert (0 < i0)%nat as P0 by lia.
    destruct Lo as [Lo|[Z _]]; [|lia].
    destruct (nth_error (st_pending s) i0) as [l0|] eqn:E0.
    2: { apply nth_error_None in E0. lia. }
    assert (i0 < length (st_pending s))%nat as L0 by (apply nth_error_Some; by rewrite E0).
    destruct (nth_error (st_pending s) (S i - st_firstSeq s)) as [l|] eqn:El; [|apply nth_error_None in El; lia].
    pose proof (pending_at lines s cut _ l W Cut El) as P. replace (st_firstSeq s + (S i - st_firstSeq s))%nat with (S i) in P by lia.
    pose proof (starts_increase lines s _ i0 l l0 W El E0 Hi0). specialize (Lo l0 eq_refl). lia.
Qed.

(** The push of a line that leaves more than the leading punctuation matched. *)
Lemma line_held ops registry line k c state : follows_all no_field read_field field_seq ops -> secrets_wf (snd registry) ->
  let s := run_ (ops ++ [StreamLine registry line]) in
  let buf := (st_buf (run_ ops) ++ [newline]) ++ line in
  nth_error (sn_compact (hold_secrets (st_hold s))) k = Some c -> nth_error (hd_kmp (st_hold s)) k = Some state -> (cs_lead c < state)%nat ->
  exists cut start, stream_text (ops ++ [StreamLine registry line]) = cut ++ buf /\ liveStart buf state = Some start /\
    (length buf - start <= cs_limit c)%nat /\
    held_from (hold_secrets (st_hold s)) (lines_of (ops ++ [StreamLine registry line])) (st_firstSeq (run_ ops)) (st_firstSeq s) (cut ++ firstn start buf).
Proof.
  intros Fo W s buf K Ks Lead. destruct (line_cut no_field read_field field_seq ops registry line) as [cut Cut]. fold buf in Cut.
  destruct (line_fed no_field read_field field_seq ops registry line Fo W) as [Wh Fd].
  destruct (run_hold_line no_field read_field field_seq ops registry line) as (held & recent & h & field & Eh & Er & Ef). fold s in Er, Ef.
  rewrite Er in K, Ks |- *. rewrite Ef. fold buf in Eh.
  pose proof Eh as (Es & Ek & Lh & Far)%holdFrom_spec.
  assert (hold_secrets h = hold_secrets (sync registry (st_hold (run_ ops)))) as Esn by (unfold hold_secrets; by rewrite Es).
  rewrite Esn in K |- *. destruct (Wh c (nth_error_In _ _ K)) as [Lm _].
  destruct (Fd k c K) as (_ & _ & fnd & _ & Kc & _). rewrite Ek, nth_error_map, Kc in Ks. injection Ks as Ks. cbn [fst snd] in Ks.
  set (pend := st_pending (run_ ops) ++ [mkLine line (length (st_buf (run_ ops) ++ [newline]))]) in *.
  assert (exists start, liveStart buf state = Some start /\ (length buf - start <= cs_limit c)%nat /\
    compact_hold buf pend c fnd = (state, Some (lineAt pend start))) as (start & Ls & Lr & Ch).
  { revert Ks. unfold compact_hold. destruct (Nat.leb_spec fnd (cs_lead c)); [simpl; lia|].
    destruct (liveStart buf fnd) as [start|] eqn:Ls; [|simpl; lia]. destruct (Nat.ltb_spec (cs_limit c) (length buf - start)); simpl; [lia|].
    intros ->. by exists start. }
  exists cut, start. split; [done|]. split; [done|]. split; [done|].
  destruct (liveStart_some _ state start ltac:(lia) Ls) as (A & _).
  pose proof (taken_wf (lines_of ops) line recent h field (run_ ops) (run_wf no_field read_field field_seq ops)) as Wt.
  rewrite lines_of_app. cbn [lines_of flat_map pushed_line app]. rewrite ?app_nil_r.
  apply (held_lines (lines_of ops ++ [line]) (taken line recent h field (run_ ops)) (hold_secrets (sync registry (st_hold (run_ ops)))) cut start held c); try done.
  - unfold stream_text in Cut. rewrite lines_of_app in Cut. exact Cut.
  - intros j Hj. eapply (Far c fnd state (lineAt pend start)); [by eapply nth_error_In|done|done].
Qed.
End Held.

(** ** The property *)

Section Property.
Context (json_container : string -> bool).
Context {F : Type} (no_field : F) (read_field : F -> bytes -> nat -> F) (field_seq : F -> option nat).
Notation run_ := (run_stream no_field read_field field_seq).

(** The registries of a stream are states of a registry, each with a number of its own. *)
Definition registries (ops : list stream_op) : Prop :=
  forall o, In o ops -> exists reg_ops, snd (op_registry o) = snapshot_of json_container reg_ops.

(** C10: A stream follows each registered JSON secret: once a line came, the automaton's
    state is the length of the longest proper beginning of the secret that the lines it
    follows end with, white space apart, those since the registry last changed or since a
    beginning took more room than any layout may or than the text kept. When more than the
    secret's leading punctuation is matched, that beginning lies within the room of a
    layout, and every line shown now ends before it began, unless it began in a line that
    with all behind it exceeds what a stream may hold. *)
Theorem stream_follows_json_secrets (ops : list stream_op) (registry : nat * secretSnapshot) (line : bytes) (k : nat) (c : compactSecret) :
  registries (ops ++ [StreamLine registry line]) ->
  let all := ops ++ [StreamLine registry line] in
  let s := run_ all in
  let sn := hold_secrets (st_hold s) in
  nth_error (sn_compact sn) k = Some c ->
  exists ops1 ops2 state, all = ops1 ++ ops2 /\ nth_error (hd_kmp (st_hold s)) k = Some state /\
    longest (cs_text c) (compacted (stream_text ops2)) (length (cs_text c)) state /\
    (forall r l, In (StreamLine r l) ops2 -> fst r = fst registry) /\
    (registry_of no_field read_field field_seq ops1 <> Some (fst registry) \/ out_of_room no_field read_field field_seq c ops1) /\
    ((cs_lead c < state)%nat -> exists u w, stream_text all = u ++ w /\ begins_dark w /\ compacted w = firstn state (cs_text c) /\
       (length w <= cs_limit c)%nat /\ held_from sn (lines_of all) (st_firstSeq (run_ ops)) (st_firstSeq s) u).
Proof.
  intros Reg all s sn K.
  assert (forall o, In o all -> secrets_wf (snd (op_registry o))) as W.
  { intros o Ho. destruct (Reg o Ho) as [r ->]. apply newSecretSnapshot_wf. }
  assert (follows_all no_field read_field field_seq ops) as Fo by (apply run_follows; intros o Ho; apply W, in_or_app; by left).
  assert (secrets_wf (snd registry)) as Wr by (apply (W (StreamLine registry line)), in_or_app; right; by left).
  destruct (line_tracked no_field read_field field_seq ops registry line k c Fo Wr K) as (ops1 & ops2 & state & E & Ks & L & Hl & R).
  exists ops1, ops2, state. split; [done|]. split; [done|]. split; [done|]. split; [done|]. split; [done|]. intros Lead.
  destruct (line_held no_field read_field field_seq ops registry line k c state Fo Wr K Ks Lead) as (cut & start & Cut & Ls & Room & Held).
  destruct (liveStart_some _ state start ltac:(lia) Ls) as (A & B & C).
  exists (cut ++ firstn start ((st_buf (run_ ops) ++ [newline]) ++ line)), (skipn start ((st_buf (run_ ops) ++ [newline]) ++ line)).
  assert (stream_text all = (cut ++ firstn start ((st_buf (run_ ops) ++ [newline]) ++ line)) ++ skipn start ((st_buf (run_ ops) ++ [newline]) ++ line)) as Eq
    by (by rewrite <- app_assoc, firstn_skipn).
  split; [done|]. split; [done|]. split; [|split; [rewrite length_skipn; lia|done]].
  destruct L as (_ & Le & _). eapply (tail_is_beginning (cs_text c) (stream_text ops1) (stream_text ops2) _ _ state Le); [|done].
  by rewrite <- Eq, <- stream_text_app, <- E.
Qed.
End Property.

(** ** A stream *)

Definition sample_registry : nat * secretSnapshot := (1%nat, snapshot_of sample_json sample_ops).

(** A stream without value fields. *)
Definition sample_stream (lines : list bytes) : list stream_op := map (StreamLine sample_registry) lines.
Notation sample_run := (run_stream tt (fun (f : unit) (_ : bytes) (_ : nat) => f) (fun _ => None)).

Definition sample_lines : list bytes := [b_ "log {"; [quote] ++ b_ "k"].
Definition sample_last : bytes := [quote] ++ b_ " :  12".

Lemma stream_follows_json_secrets_witness :
  nth_error (hd_kmp (st_hold (sample_run (sample_stream sample_lines ++ [StreamLine sample_registry sample_last])))) 0 = Some 7%nat /\ st_firstSeq (sample_run (sample_stream sample_lines ++ [StreamLine sample_registry sample_last])) = 1%nat /\
  exists u w, stream_text (sample_stream sample_lines ++ [StreamLine sample_registry sample_last]) = u ++ w /\ begins_dark w /\ compacted w = b_ "{" ++ [quote] ++ b_ "k" ++ [quote] ++ b_ ":12".
Proof.
  split; [vm_compute; reflexivity|]. split; [vm_compute; reflexivity|].
  assert (nth_error (hd_kmp (st_hold (sample_run (sample_stream sample_lines ++ [StreamLine sample_registry sample_last])))) 0 = Some 7%nat) as K7
    by (vm_compute; reflexivity).
  destruct (nth_error (sn_compact (hold_secrets (st_hold (sample_run (sample_stream sample_lines ++ [StreamLine sample_registry sample_last]))))) 0)
    as [c|] eqn:E; [|vm_compute in E; discriminate E].
  assert (cs_text c = b_ "{" ++ [quote] ++ b_ "k" ++ [quote] ++ b_ ":12345}" /\ cs_lead c = 2%nat) as [Et El]
    by (vm_compute in E; injection E as <-; split; reflexivity).
  assert (registries sample_json (sample_stream sample_lines ++ [StreamLine sample_registry sample_last])) as R.
  { intros o Ho. exists sample_ops. simpl in Ho. destruct Ho as [<-|[<-|[<-|[]]]]; reflexivity. }
  destruct (stream_follows_json_secrets sample_json tt (fun (f : unit) (_ : bytes) (_ : nat) => f) (fun _ => None) (sample_stream sample_lines) sample_registry sample_last 0 c R E)
    as (ops1 & ops2 & state & _ & K & _ & _ & _ & H).
  rewrite K in K7. injection K7 as ->.
  destruct H as (u & w & T & D & C & _); [rewrite El; lia|]. exists u, w. split; [exact T|]. split; [exact D|]. rewrite C, Et. reflexivity.
Defined.

(** A restart forgets more than it must: the state falls to zero and not to the longest
    beginning that fits. Here the second line ends with the beginning of the secret, but
    that beginning continues an earlier one too far back, so the line is shown at once,
    and the secret's first part with it. *)
Definition nested_secret : string :=
  string_of_list_ascii (b_ "{" ++ [quote] ++ b_ "k" ++ [quote] ++ b_ ":{" ++ [quote] ++ b_ "k" ++ [quote] ++ b_ ":1}}").
Definition nested_half : bytes := b_ "{" ++ [quote] ++ b_ "k" ++ [quote] ++ b_ ":".
Definition nested_registry : nat * secretSnapshot := (1%nat, snapshot_of sample_json [OpRegister nested_secret]).
Definition nested_stream (gap : nat) : list stream_op :=
  map (StreamLine nested_registry) [nested_half; repeat " "%char gap ++ nested_half].

Example restart_shows_beginning :
  (* near by, the beginning is held from its own line or the first one on *)
  hd_kmp (st_hold (sample_run (nested_stream 10))) = [10%nat] /\ st_firstSeq (sample_run (nested_stream 10)) = 0%nat /\
  (* far away, it is lost *)
  hd_kmp (st_hold (sample_run (nested_stream 2000))) = [0%nat] /\ st_firstSeq (sample_run (nested_stream 2000)) = 2%nat /\
  (* although the second line alone is held *)
  hd_kmp (st_hold (sample_run (map (StreamLine nested_registry) [b_ "text"; repeat " "%char 2000 ++ nested_half]))) = [5%nat] /\
  st_firstSeq (sample_run (map (StreamLine nested_registry) [b_ "text"; repeat " "%char 2000 ++ nested_half])) = 1%nat.
Proof. vm_compute. repeat split. Qed.
